(* ===== verification/_CoqProject ===== *)
-Q . S2P
Prelude.v
Bytes.v
Cstring.v
Kstate.v
Sync.v
Kalloc.v
Spinlock.v
Pipe.v
Disk.v
Ide.v
Bio.v
Cache.v
Log.v
Commit.v
Crash.v
Txn.v
Fs.v
Dinode.v
Alloc.v
Content.v
File.v
Console.v
Vm.v
Dir.v
Readwrite.v
Directory.v
Namei.v
Mkfs.v
Mkimage.v
Mount.v
Tty.v
Pagetable.v
Uvm.v
Space.v
Kbd.v
Proc.v
Lifecycle.v
Exit.v
Exec.v
Syscall.v
Trap.v
Typed.v
Kernel.v
Segment.v
Hw.v
Irq.v
Mp.v
Boot.v
Userinit.v
Main.v
Ulib.v
Umalloc.v
Grep.v
Sh.v
Shell.v
Userprog.v
