(* ===== verification/Prelude.v ===== *)
(** * A verification of the xv6 kernel with threads

    The program is a small Unix-like kernel in C for x86 multiprocessors, with
    a log-structured commit protocol in its file system and with threads
    ([clone], thread.c) added to its processes.  The library models the C code
    as functions on an explicit kernel state and proves what its components
    promise.

    ** How the code is modelled

    [Prelude] has the monad of kernel code.  A function of the kernel becomes a
    value of [K A]: from a kernel state and the interference still to come it
    yields a result, or [Panic], [Fault] (an access C leaves undefined),
    [Blocked] (asleep with no wakeup left) or [Hang].  The interference is a
    list of state changes: each time a process gives up the CPU it takes one.
    [runs m s a s'] and [wp m s Q] speak of runs that need no sleep, and are
    total: they exclude panics, faults and endless loops.  [progress] speaks of
    all runs, sleeping ones included, and excludes [Hang].
    Machine integers are [Z] with the wrap-around written out ([u32], [i32],
    [u8] and the like); tables are lists indexed by [nat], pointers into them
    are indices; memory is a map from addresses to 32-bit words.

    Loops over data get a fuel that their definition computes from the data and
    that is enough (a loop that runs out of it is [Hang], which the theorems
    exclude).  Loops that sleep get as fuel the number of periods asleep still
    scheduled ([pending]); each pass sleeps once.  Loops that wait for a device take
    the number of polls allowed as an argument, and the theorems assume that the
    device answers within it.

    ** Files and what they model

    - [Bytes], [Cstring]: byte arrays; string.c.
    - [Kstate]: param.h, fs.h, stat.h, buf.h, file.h, proc.h and the static
      data of the kernel as one record, [kstate].
    - [Sync]: the view of spinlocks one CPU has; sched, yield, sleep, wakeup of
      proc.c.  [Spinlock] models spinlock.c itself on several CPUs, one atomic
      step at a time, and shows that this view is right.
    - [Kalloc]: kalloc.c.  [Vm]: vm.c and the page table part of mmu.h;
      [Pagetable], [Uvm], [Space]: page tables as maps, the pages of a process,
      and address spaces on top of them.
    - [Pipe]: pipe.c.  [File]: file.c.
    - [Disk]: the interface [BlockDev] to a disk and memide.c, which implements
      it.  [Ide]: ide.c, its queue and its interrupt handler.
    - [Bio]: bio.c; [Cache]: the cache as a map of blocks, which bio.c refines.
    - [Log]: log.c; [Commit], [Crash], [Txn]: the commit protocol, its crashes
      and recovery, and transactions.
    - [Fs], [Dir]: fs.c; [Dinode], [Alloc], [Content], [Readwrite]: inodes in
      their blocks, the bitmap, the blocks of a file, reading and writing.
      [Directory]: directories as maps from names to inodes; [Namei]: the walk
      along a path.
    - [Console]: console.c, uart.c, procdump; [Tty]: the terminal it
      implements.  [Kbd]: kbd.c, kbd.h.
    - [Proc]: proc.c and thread.c; [Lifecycle]: fork, wait, kill and joining
      threads; [Exit]: exit, and a child from fork to wait.  [Exec]: exec.c.
      [Syscall]: syscall.c, sysproc.c, sysfile.c.  [Trap]: trap.c.  [Typed],
      [Kernel]: the type invariant of the kernel state and the states the kernel
      reaches from its start.
    - [Segment]: the segment and gate descriptors of mmu.h, the parts of vm.c
      and trap.c that set them up, and the processor that reads them.
    - [Hw]: the set-up of the devices by picirq.c, timer.c, ioapic.c, lapic.c,
      uart.c and ide.c, as sequences of accesses to ports and registers; what
      the devices answer is a parameter, the class [Hardware].  [Irq]: the
      interrupt controllers and timers these accesses program.
    - [Mp]: mp.c and mp.h.  [Boot]: bootmain.c and the disk it reads.
      [Userinit]: what userinit of proc.c makes.  [Main]: main.c.
    - [Ulib]: ulib.c and printf.c.  [Umalloc]: umalloc.c on a process that
      grows with [sbrk].  [Grep]: the algorithms of grep.c, wc.c, cat.c.
      [Userprog]: the user programs as programs over the system calls, whose
      effect is a parameter, the class [Sys].
    - [Sh]: the parser of sh.c; [Shell]: its execution of commands, a program
      being the tree of its system calls.
    - [Mkfs]: mkfs.c; [Mkimage]: the image it writes; [Mount]: the kernel that
      starts on that image.

    ** What the theorems show

    - Crash safety ([Txn]): a group of operations reaches the disk as a whole
      or not at all, whenever the machine stops.
    - The file system on top of it: allocation takes free blocks only, inodes
      survive their encoding, a read returns what was written, files do not
      interfere.
    - The layers below: the cache is transparent, the IDE queue behaves as a
      synchronous disk, pages are handed out once.
    - Concurrency: mutual exclusion of spinlocks, sleeping calls never spin,
      pipes are queues under every interleaving, and the calls on them are
      made of the steps that are interleaved.
    - The terminal: the ring buffer of console.c is a line editor.
    - Paths, strings and keys: equivalence of the C routines with reference
      definitions.
    - Address spaces: growing, copying and freeing them moves pages between the
      allocator and the process exactly; what a process reads through its page
      tables is what the theorems say.  Processes: fork makes a copy, exit and
      wait give everything back: a child that is forked, scheduled, exits and is
      waited for leaves pages, files, directory and log as they were.
    - User programs: the shell parses what is written and connects the
      processes as the line says; the allocator's blocks never overlap, whatever
      its client does; grep decides its regular expressions.
      [ls] lists a directory as it is.
    - The image of mkfs satisfies what the file system theorems assume, and the
      kernel reads back from it the files mkfs was given.
    - Starting the machine: the boot loader puts the kernel where its headers
      say; [mpinit] collects the processors of a valid table, or falls back to
      one; [main] reaches the scheduler with the first process ready, every
      page of memory accounted for, and the interrupts it needs let through; the
      clock is read between its updates; a user process enters the kernel only
      through its gates, on its own kernel stack.
    - Types: in every state the kernel reaches, from [main] on, its tables have
      their sizes and its indices their ranges.  The states considered are those
      of any order of the calls [main] makes, more than the kernel's own.
    - Error behaviour: which panics are reachable, and what errors leave
      behind.

    ** What is not modelled

    The assembly code (bootasm.S, entry.S, entryother.S, swtch.S, trapasm.S,
    initcode.S, usys.S): its images and entry points are parameters.  The saved
    contexts of [swtch] and the kernel stacks: which process runs is [curproc].
    The check of the interrupt flag in [sched].  The endless loop of [scheduler];
    what [panic] prints, and its loop.
    The reference counts of files and inodes are integers without a bound: there
    are at most [NPROC * NOFILE] descriptors, and a few references more.  The
    acknowledgement of interrupts, a write to a device, is in [Hw.trap_switch],
    on the state with the devices; [Trap] has the rest of the switch.  The
    device [BlockDev] answers without sleeping; [Ide] shows that the interrupt-driven driver has the same effect.  What a
    system call copies to or from user memory is copied at the boundary of the
    call.  In [Userprog] the effect of the system calls on a process is the
    parameter [Sys], not the kernel of the other files; its theorems take a
    file system that is read only.  halt.c, a single system call, and the test
    programs (usertests.c, forktest.c, stressfs.c, threadtest.c, test1.c to
    test8.c), which only call what is modelled here. *)

From Stdlib Require Export ZArith Lia.
From stdpp Require Export base gmap strings list list_numbers numbers.
Local Open Scope Z_scope.

Declare Scope kern_scope.
Delimit Scope kern_scope with kern.

(** ** Machine integers *)

(** The value of a C [unsigned int] expression. *)
Definition u32 (z : Z) : Z := z mod 2 ^ 32.

(** [int]: two's complement reading of a 32-bit pattern. *)
Definition i32 (z : Z) : Z :=
  let w := z mod 2 ^ 32 in if 2 ^ 31 <=? w then w - 2 ^ 32 else w.

(** [uchar] and [ushort] truncations. *)
Definition u8 (z : Z) : Z := z mod 2 ^ 8.
Definition u16 (z : Z) : Z := z mod 2 ^ 16.

(** [short]: two's complement reading of a 16-bit pattern. *)
Definition i16 (z : Z) : Z :=
  let w := z mod 2 ^ 16 in if 2 ^ 15 <=? w then w - 2 ^ 16 else w.

Lemma u32_small z : 0 <= z < 2 ^ 32 -> u32 z = z.
Proof. intros; by apply Z.mod_small. Qed.

Lemma u32_range z : 0 <= u32 z < 2 ^ 32.
Proof. by apply Z.mod_pos_bound. Qed.

Lemma u32_idemp z : u32 (u32 z) = u32 z.
Proof. apply u32_small, u32_range. Qed.

Lemma u32_add_l x y : u32 (u32 x + y) = u32 (x + y).
Proof. apply Zplus_mod_idemp_l. Qed.

Lemma u32_add_r x y : u32 (x + u32 y) = u32 (x + y).
Proof. apply Zplus_mod_idemp_r. Qed.

Lemma i32_small z : 0 <= z < 2 ^ 31 -> i32 z = z.
Proof.
  intros Hz. unfold i32. rewrite (Z.mod_small z) by lia.
  destruct (Z.leb_spec (2 ^ 31) z); lia.
Qed.

Lemma i32_range z : - 2 ^ 31 <= i32 z < 2 ^ 31.
Proof.
  unfold i32. pose proof (Z.mod_pos_bound z (2 ^ 32)).
  destruct (Z.leb_spec (2 ^ 31) (z mod 2 ^ 32)); lia.
Qed.

Lemma i32_of_signed z : - 2 ^ 31 <= z < 2 ^ 31 -> i32 z = z.
Proof.
  intros Hz. destruct (decide (0 <= z)); [apply i32_small; lia|].
  unfold i32. rewrite <- (Z_mod_plus_full z 1 (2 ^ 32)), Z.mod_small by lia.
  destruct (Z.leb_spec (2 ^ 31) (z + 1 * 2 ^ 32)); lia.
Qed.

Lemma i16_of_signed z : - 2 ^ 15 <= z < 2 ^ 15 -> i16 z = z.
Proof.
  intros Hz. unfold i16. destruct (decide (0 <= z)).
  - rewrite Z.mod_small by lia. destruct (Z.leb_spec (2 ^ 15) z); lia.
  - rewrite <- (Z_mod_plus_full z 1 (2 ^ 16)), Z.mod_small by lia.
    destruct (Z.leb_spec (2 ^ 15) (z + 1 * 2 ^ 16)); lia.
Qed.

(** ** Lists *)
Lemma filter_ne_notin `{EqDecision A} (x : A) (l : list A) :
  x ∉ l -> filter (fun y => y <> x) l = l.
Proof.
  induction l as [|y l IH]; [done|]. rewrite not_elem_of_cons. intros [Hy Hl].
  rewrite filter_cons_True by done. by rewrite IH.
Qed.

Lemma filter_ne_length `{EqDecision A} (x : A) (l : list A) :
  NoDup l -> x ∈ l -> S (length (filter (fun y => y <> x) l)) = length l.
Proof.
  induction 1 as [|y l Hy Hn IH]; [set_solver|].
  intros [->|Hin]%elem_of_cons.
  - rewrite filter_cons_False by (by intros []). by rewrite filter_ne_notin.
  - rewrite filter_cons_True by set_solver. cbn. by rewrite IH.
Qed.

(** ** Outcomes of kernel code

    A run of a kernel function either returns, calls [panic], performs an
    access that C leaves undefined, sleeps with no later wakeup, or loops
    without a bound.  [e] is the interference the run may still meet: each
    element is what the rest of the system does to the state while this
    process sleeps once. *)
Inductive outcome (S A : Type) : Type :=
| Ok (a : A) (s : S) (e : list (S -> S))
| Panic (msg : string) (s : S)
| Fault (why : string) (s : S)
| Blocked (s : S)
| Hang (s : S).
Arguments Ok {S A} a s e.
Arguments Panic {S A} msg s.
Arguments Fault {S A} why s.
Arguments Blocked {S A} s.
Arguments Hang {S A} s.

Definition M (S A : Type) : Type := S -> list (S -> S) -> outcome S A.

Section Monad.
Context {S : Type}.

Definition ret {A} (a : A) : M S A := fun s e => Ok a s e.

Definition bind {A B} (m : M S A) (k : A -> M S B) : M S B := fun s e =>
  match m s e with
  | Ok a s' e' => k a s' e'
  | Panic msg s' => Panic msg s'
  | Fault why s' => Fault why s'
  | Blocked s' => Blocked s'
  | Hang s' => Hang s'
  end.

Definition get : M S S := fun s e => Ok s s e.
Definition gets {A} (f : S -> A) : M S A := fun s e => Ok (f s) s e.
Definition modify (f : S -> S) : M S unit := fun s e => Ok tt (f s) e.
Definition panic {A} (msg : string) : M S A := fun s _ => Panic msg s.
Definition fault {A} (why : string) : M S A := fun s _ => Fault why s.
Definition hang {A} : M S A := fun s _ => Hang s.

(** One period asleep: the rest of the system runs. *)
Definition interfere : M S unit := fun s e =>
  match e with
  | [] => Blocked s
  | f :: e' => Ok tt (f s) e'
  end.

(** How many more periods of interference are scheduled. *)
Definition pending : M S nat := fun s e => Ok (length e) s e.

Definition deref {A} (why : string) (o : option A) : M S A :=
  match o with Some a => ret a | None => fault why end.

Definition when (b : bool) (m : M S unit) : M S unit :=
  if b then m else ret tt.
End Monad.

Notation "'let!' x := m 'in' k" := (bind m (fun x => k))
  (at level 10, x name, m at level 100, k at level 200,
   format "'[v' 'let!'  x  :=  m  'in' '/' k ']'") : kern_scope.
Notation "'let!' ' p := m 'in' k" := (bind m (fun x => match x with p => k end))
  (at level 10, p pattern, m at level 100, k at level 200,
   only parsing) : kern_scope.
Notation "'do' m ; k" := (bind m (fun _ => k))
  (at level 10, m at level 100, k at level 200,
   format "'[v' 'do'  m ; '/' k ']'") : kern_scope.
Open Scope kern_scope.

Section MonadLaws.
Context {S A B C : Type}.
Implicit Types m : M S A.

Lemma bind_assoc m (k : A -> M S B) (h : B -> M S C) s e :
  bind (bind m k) h s e = bind m (fun a => bind (k a) h) s e.
Proof. unfold bind. by destruct (m s e). Qed.
End MonadLaws.

(** ** Runs without sleeping

    [runs m s a s']: from [s], [m] returns [a] in state [s'], and does so
    without using any interference.  [wp m s Q]: [m] returns from [s] and the
    result satisfies [Q]; panic, fault, blocking and divergence are excluded. *)
Section Runs.
Context {S : Type}.

Definition runs {A} (m : M S A) (s : S) (a : A) (s' : S) : Prop :=
  forall e, m s e = Ok a s' e.

Definition wp {A} (m : M S A) (s : S) (Q : A -> S -> Prop) : Prop :=
  exists a s', runs m s a s' /\ Q a s'.

Lemma runs_ret {A} (a : A) s : runs (ret a) s a s.
Proof. by intros e. Qed.

Lemma runs_bind {A B} (m : M S A) (k : A -> M S B) s a s1 b s2 :
  runs m s a s1 -> runs (k a) s1 b s2 -> runs (bind m k) s b s2.
Proof. intros H1 H2 e. unfold bind. by rewrite H1, H2. Qed.

Lemma runs_det {A} (m : M S A) s a b s1 s2 :
  runs m s a s1 -> runs m s b s2 -> a = b /\ s1 = s2.
Proof. intros H1 H2. specialize (H1 []). rewrite H2 in H1. by inversion H1. Qed.

Lemma runs_wp {A} (m : M S A) s a s' (Q : A -> S -> Prop) :
  runs m s a s' -> Q a s' -> wp m s Q.
Proof. unfold wp; eauto. Qed.

Lemma wp_runs {A} (m : M S A) s a s' (Q : A -> S -> Prop) :
  wp m s Q -> runs m s a s' -> Q a s'.
Proof.
  intros (b & s1 & H1 & HQ) H2.
  by destruct (runs_det _ _ _ _ _ _ H1 H2) as [-> ->].
Qed.

Lemma wp_ret {A} (a : A) s (Q : A -> S -> Prop) : Q a s -> wp (ret a) s Q.
Proof. intros; eapply runs_wp; [apply runs_ret|done]. Qed.

Lemma wp_bind {A B} (m : M S A) (k : A -> M S B) s Q :
  wp m s (fun a s' => wp (k a) s' Q) -> wp (bind m k) s Q.
Proof.
  intros (a & s1 & H1 & b & s2 & H2 & HQ).
  exists b, s2. eauto using runs_bind.
Qed.

Lemma wp_bind_runs {A B} (m : M S A) (k : A -> M S B) s a s1 Q :
  runs m s a s1 -> wp (k a) s1 Q -> wp (bind m k) s Q.
Proof. intros. apply wp_bind. eapply runs_wp; eauto. Qed.

Lemma wp_mono {A} (m : M S A) s (Q Q' : A -> S -> Prop) :
  wp m s Q -> (forall a s', Q a s' -> Q' a s') -> wp m s Q'.
Proof. intros (a & s1 & H1 & HQ) H. exists a, s1; eauto. Qed.

Lemma wp_get s (Q : S -> S -> Prop) : Q s s -> wp get s Q.
Proof. intros. by exists s, s. Qed.

Lemma wp_gets {A} (f : S -> A) s (Q : A -> S -> Prop) :
  Q (f s) s -> wp (gets f) s Q.
Proof. intros. by exists (f s), s. Qed.

Lemma wp_modify (f : S -> S) s (Q : unit -> S -> Prop) :
  Q tt (f s) -> wp (modify f) s Q.
Proof. intros. by exists tt, (f s). Qed.

Lemma wp_deref {A} why (o : option A) a s (Q : A -> S -> Prop) :
  o = Some a -> Q a s -> wp (deref why o) s Q.
Proof. intros -> ?. by apply wp_ret. Qed.

Lemma wp_when_true b m s Q :
  b = true -> wp (A := unit) m s Q -> wp (when b m) s Q.
Proof. by intros ->. Qed.

Lemma wp_when_false b m s (Q : unit -> S -> Prop) :
  b = false -> Q tt s -> wp (when b m) s Q.
Proof. intros -> ?. by apply wp_ret. Qed.

Lemma wp_if_true {A} (b : bool) (m1 m2 : M S A) s Q :
  b = true -> wp m1 s Q -> wp (if b then m1 else m2) s Q.
Proof. by intros ->. Qed.

Lemma wp_if_false {A} (b : bool) (m1 m2 : M S A) s Q :
  b = false -> wp m2 s Q -> wp (if b then m1 else m2) s Q.
Proof. by intros ->. Qed.

(** [for(i = lo; i < lo + n; i++) body(i)] *)
Fixpoint mfor (n lo : nat) (body : nat -> M S unit) : M S unit :=
  match n with
  | O => ret tt
  | Datatypes.S n' => do body lo; mfor n' (Datatypes.S lo) body
  end.

Lemma wp_mfor (I : nat -> S -> Prop) n lo body s (Q : unit -> S -> Prop) :
  I lo s ->
  (forall i s1, (lo <= i < lo + n)%nat -> I i s1 ->
     wp (body i) s1 (fun _ s2 => I (Datatypes.S i) s2)) ->
  (forall s1, I (lo + n)%nat s1 -> Q tt s1) ->
  wp (mfor n lo body) s Q.
Proof.
  revert lo s. induction n as [|n IH]; intros lo s HI Hstep HQ; simpl.
  - apply wp_ret, HQ. by rewrite Nat.add_0_r.
  - apply wp_bind. eapply wp_mono; [apply Hstep; [lia|done]|].
    intros ? s1 H1. apply IH; [done| |].
    + intros i s2 Hi. apply Hstep. lia.
    + intros s2 H2. apply HQ. by rewrite Nat.add_succ_r.
Qed.
End Runs.
Arguments wp : simpl never.

(** ** Runs that may sleep

    [progress k m]: no run of [m] loops for ever, and a run that returns has
    slept at least [k] times. *)
Definition progress {S A} (k : nat) (m : M S A) : Prop :=
  forall s e, match m s e with
              | Ok _ _ e' => (length e' + k <= length e)%nat
              | Hang _ => False
              | _ => True
              end.

Section Progress.
Context {S A B : Type}.

Lemma progress_bind k1 k2 (m : M S A) (f : A -> M S B) :
  progress k1 m -> (forall a, progress k2 (f a)) -> progress (k1 + k2) (bind m f).
Proof.
  intros H1 H2 s e. specialize (H1 s e). unfold bind.
  destruct (m s e) as [a s1 e1|?|?|?|?]; try done.
  specialize (H2 a s1 e1). destruct (f a s1 e1); try done. lia.
Qed.

Lemma progress_bind0 (m : M S A) (f : A -> M S B) :
  progress 0 m -> (forall a, progress 0 (f a)) -> progress 0 (bind m f).
Proof. apply (progress_bind 0 0). Qed.

Lemma progress_weaken k (m : M S A) : progress k m -> progress 0 m.
Proof. intros H s e. specialize (H s e). destruct (m s e); try done. lia. Qed.

Lemma progress_ret (a : A) : progress (S := S) 0 (ret a).
Proof. intros s e. cbn. lia. Qed.

Lemma progress_gets (f : S -> A) : progress 0 (gets f).
Proof. intros s e. cbn. lia. Qed.

Lemma progress_modify (f : S -> S) : progress 0 (modify f).
Proof. intros s e. cbn. lia. Qed.

Lemma progress_pending : progress (S := S) 0 pending.
Proof. intros s e. cbn. lia. Qed.

Lemma progress_panic k msg : progress k (panic (S := S) (A := A) msg).
Proof. by intros s e. Qed.

Lemma progress_fault k why : progress k (fault (S := S) (A := A) why).
Proof. by intros s e. Qed.

Lemma progress_deref why (o : option A) : progress (S := S) 0 (deref why o).
Proof. destruct o; [apply progress_ret|apply progress_fault]. Qed.

Lemma progress_if k (b : bool) (m1 m2 : M S A) :
  progress k m1 -> progress k m2 -> progress k (if b then m1 else m2).
Proof. by destruct b. Qed.

Lemma progress_when b (m : M S unit) : progress 0 m -> progress 0 (when b m).
Proof. destruct b; [done|]. intros _ s e. cbn. lia. Qed.

(** [bounded n m]: [m] does not loop for ever if at most [n] periods asleep are
    scheduled; for the loops that get [n] as fuel. *)
Definition bounded (n : nat) (m : M S A) : Prop :=
  forall s e, (length e <= n)%nat ->
    match m s e with
    | Ok _ _ e' => (length e' <= length e)%nat
    | Hang _ => False
    | _ => True
    end.

Lemma progress_bounded k n (m : M S A) : progress k m -> bounded n m.
Proof. intros H s e _. specialize (H s e). destruct (m s e); try done. lia. Qed.
End Progress.

Lemma bounded_bind {S A B} k n (m : M S A) (f : A -> M S B) :
  progress k m -> ((k <= n)%nat -> forall a, bounded (n - k) (f a)) -> bounded n (bind m f).
Proof.
  intros H1 H2 s e Hn. specialize (H1 s e). unfold bind.
  destruct (m s e) as [a s1 e1|?|?|?|?]; try done.
  assert (k <= n)%nat as Hk by lia. assert (length e1 <= n - k)%nat as Hle by lia.
  specialize (H2 Hk a s1 e1 Hle). destruct (f a s1 e1); try done. lia.
Qed.

Lemma bounded_then {S A B} n (m : M S A) (f : A -> M S B) :
  bounded n m -> (forall a, progress 0 (f a)) -> bounded n (bind m f).
Proof.
  intros H1 H2 s e Hn. specialize (H1 s e Hn). unfold bind.
  destruct (m s e) as [a s1 e1|?|?|?|?]; try done.
  specialize (H2 a s1 e1). destruct (f a s1 e1); try done. lia.
Qed.

(** Fuel taken from the schedule is enough. *)
Lemma progress_fuel {S A} (f : nat -> M S A) :
  (forall n, bounded n (f n)) -> progress 0 (bind pending f).
Proof.
  intros H s e. unfold bind, pending. specialize (H (length e) s e (le_n _)).
  destruct (f (length e) s e); try done. lia.
Qed.

Create HintDb kern.
#[export] Hint Resolve progress_bind0 progress_ret progress_gets progress_modify
  progress_pending progress_panic progress_fault progress_deref progress_if
  progress_when : kern.
#[export] Hint Resolve runs_ret : kern.

(** [wp_step] consumes the head of the computation in the goal. *)
Ltac wp_step :=
  lazymatch goal with
  | |- wp (bind _ _) _ _ => apply wp_bind
  | |- wp (ret _) _ _ => apply wp_ret
  | |- wp get _ _ => apply wp_get
  | |- wp (gets _) _ _ => apply wp_gets
  | |- wp (modify _) _ _ => apply wp_modify
  end; cbv beta iota.
Ltac wp_steps := repeat wp_step.
