(* ===== verification/Bytes.v ===== *)
(** * Byte arrays

    Disk blocks, directory entries and pipe buffers are C byte arrays.  A
    [block] is the list of its bytes; the file gives the little-endian
    accessors the kernel gets by casting a [uchar] pointer to a pointer to
    [uint], [short] or a struct, the copy that [memmove] performs into an
    array, and the lemmas relating reads to earlier writes. *)

From S2P Require Import Prelude.
Local Open Scope Z_scope.

Abbreviation block := (list Z) (only parsing).

(** A byte is a value of [uchar]. *)
Definition is_byte (b : Z) : Prop := 0 <= b < 256.

Definition bytes_ok (n : nat) (d : block) : Prop :=
  length d = n /\ Forall is_byte d.

Fixpoint le_bytes (n : nat) (v : Z) : list Z :=
  match n with
  | O => []
  | S n' => v mod 256 :: le_bytes n' (v / 256)
  end.

Fixpoint le_value (l : list Z) : Z :=
  match l with
  | [] => 0
  | b :: l' => b + 256 * le_value l'
  end.

(** [memmove(d + off, src, n)] when the target range is inside the array. *)
Definition splice (d : block) (off : nat) (src : list Z) : block :=
  list_inserts off src d.

Definition slice (d : block) (off n : nat) : list Z := take n (drop off d).

Definition get32 (d : block) (off : nat) : Z := le_value (slice d off 4).
Definition get16 (d : block) (off : nat) : Z := le_value (slice d off 2).
Definition put32 (d : block) (off : nat) (v : Z) : block :=
  splice d off (le_bytes 4 v).
Definition put16 (d : block) (off : nat) (v : Z) : block :=
  splice d off (le_bytes 2 v).

Lemma le_bytes_length n v : length (le_bytes n v) = n.
Proof. revert v; induction n; intros; simpl; auto. Qed.

Lemma le_bytes_ok n v : Forall is_byte (le_bytes n v).
Proof.
  revert v; induction n; intros v; simpl; constructor; auto.
  by apply Z.mod_pos_bound.
Qed.

Lemma le_value_bytes n v : le_value (le_bytes n v) = v mod 256 ^ Z.of_nat n.
Proof.
  revert v. induction n as [|n IH]; intros v; cbn [le_bytes le_value].
  - by rewrite Z.mod_1_r.
  - rewrite IH, Nat2Z.inj_succ, Z.pow_succ_r by lia.
    rewrite (Z.rem_mul_r v 256) by lia. lia.
Qed.

Lemma le_value_range l :
  Forall is_byte l -> 0 <= le_value l < 256 ^ Z.of_nat (length l).
Proof.
  induction 1 as [|b l Hb _ IH]; cbn [le_value length]; [lia|].
  rewrite Nat2Z.inj_succ, Z.pow_succ_r by lia. unfold is_byte in Hb. nia.
Qed.

Lemma le_bytes_value l : Forall is_byte l -> le_bytes (length l) (le_value l) = l.
Proof.
  induction 1 as [|b l Hb _ IH]; cbn [le_value length le_bytes]; [done|].
  unfold is_byte in Hb. rewrite (Z.mul_comm 256), Z.mod_add by lia.
  rewrite Z.mod_small by lia. f_equal.
  rewrite Z.div_add, Z.div_small, Z.add_0_l by lia. done.
Qed.

Lemma splice_length d off src : length (splice d off src) = length d.
Proof. apply length_inserts. Qed.

Lemma splice_ok n d off src :
  bytes_ok n d -> Forall is_byte src -> bytes_ok n (splice d off src).
Proof.
  intros [Hl Hd] Hs. split; [by rewrite splice_length|].
  apply Forall_lookup. intros i x Hi. unfold splice in Hi.
  apply list_lookup_inserts_Some in Hi.
  rewrite Forall_lookup in Hd, Hs. naive_solver.
Qed.

Lemma slice_length d off n :
  (off + n <= length d)%nat -> length (slice d off n) = n.
Proof. intros. unfold slice. rewrite length_take, length_drop. lia. Qed.

Lemma slice_lookup d off n i :
  (i < n)%nat -> slice d off n !! i = d !! (off + i)%nat.
Proof. intros. unfold slice. by rewrite lookup_take_lt, lookup_drop. Qed.

Lemma slice_bytes_ok d off n : Forall is_byte d -> Forall is_byte (slice d off n).
Proof. intros. by apply Forall_take, Forall_drop. Qed.

Lemma splice_lookup d off src i :
  (off + length src <= length d)%nat ->
  splice d off src !! i =
    if decide (off <= i < off + length src)%nat then src !! (i - off)%nat else d !! i.
Proof.
  intros H. unfold splice. case_decide.
  - apply list_lookup_inserts; lia.
  - destruct (decide (i < off)%nat); [apply list_lookup_inserts_lt; lia|].
    apply list_lookup_inserts_ge. lia.
Qed.

Lemma slice_splice_same d off src :
  (off + length src <= length d)%nat ->
  slice (splice d off src) off (length src) = src.
Proof.
  intros H. apply list_eq. intros i. destruct (decide (i < length src)%nat).
  - rewrite slice_lookup by done. unfold splice.
    rewrite list_lookup_inserts by lia. f_equal; lia.
  - rewrite !lookup_ge_None_2; [done|lia|].
    rewrite slice_length; [lia|]. by rewrite splice_length.
Qed.

Lemma slice_splice_other d off src off' n :
  (off' + n <= off \/ off + length src <= off')%nat ->
  slice (splice d off src) off' n = slice d off' n.
Proof.
  intros H. apply list_eq. intros i. destruct (decide (i < n)%nat).
  - rewrite !slice_lookup by done. unfold splice.
    destruct H; [rewrite list_lookup_inserts_lt by lia|
                 rewrite list_lookup_inserts_ge by lia]; done.
  - unfold slice. rewrite !lookup_take_ge by lia. done.
Qed.

Lemma put32_length d off v : length (put32 d off v) = length d.
Proof. apply splice_length. Qed.

Lemma put16_length d off v : length (put16 d off v) = length d.
Proof. apply splice_length. Qed.

Lemma put32_ok n d off v : bytes_ok n d -> bytes_ok n (put32 d off v).
Proof. intros; by apply splice_ok, le_bytes_ok. Qed.

Lemma put16_ok n d off v : bytes_ok n d -> bytes_ok n (put16 d off v).
Proof. intros; by apply splice_ok, le_bytes_ok. Qed.

Lemma get_put32_same d off v :
  (off + 4 <= length d)%nat -> get32 (put32 d off v) off = u32 v.
Proof.
  intros H. unfold get32, put32.
  rewrite <- (le_bytes_length 4 v) at 2.
  rewrite slice_splice_same by (rewrite le_bytes_length; lia).
  by rewrite le_value_bytes.
Qed.

Lemma get_put16_same d off v :
  (off + 2 <= length d)%nat -> get16 (put16 d off v) off = u16 v.
Proof.
  intros H. unfold get16, put16.
  rewrite <- (le_bytes_length 2 v) at 2.
  rewrite slice_splice_same by (rewrite le_bytes_length; lia).
  by rewrite le_value_bytes.
Qed.

Lemma get32_put32_other d off v off' :
  (off' + 4 <= off \/ off + 4 <= off')%nat ->
  get32 (put32 d off v) off' = get32 d off'.
Proof.
  intros. unfold get32, put32. rewrite slice_splice_other; [done|].
  by rewrite le_bytes_length.
Qed.

Lemma get32_range d off : Forall is_byte d -> 0 <= get32 d off < 2 ^ 32.
Proof.
  intros H. unfold get32.
  pose proof (le_value_range _ (slice_bytes_ok d off 4 H)) as Hr.
  assert (length (slice d off 4) <= 4)%nat as Hl
    by (unfold slice; rewrite length_take; lia).
  assert (256 ^ Z.of_nat (length (slice d off 4)) <= 256 ^ 4)
    by (apply Z.pow_le_mono_r; lia).
  lia.
Qed.

#[export] Hint Resolve le_bytes_ok put32_ok put16_ok splice_ok : kern.

(** ** Length rewriting *)
Create Rewrite HintDb len.
#[export] Hint Rewrite splice_length put32_length put16_length le_bytes_length
  @length_app @length_take @length_drop @length_insert @length_replicate
  @length_fmap @length_seq : len.
Ltac len := autorewrite with len; try lia.
