(* ===== verification/Cstring.v ===== *)
(** * string.c

    The routines on byte memory ([memset], [memmove], [memcmp]) work on an
    array of bytes and indices into it, so that source and destination can
    overlap.  A C string is the list of bytes a pointer points to; reading at
    the end of the list yields the terminating NUL. *)

From S2P Require Import Prelude Bytes.
Local Open Scope Z_scope.

Module Str.

(** ** Byte memory *)
Definition byte_at (m : list Z) (i : nat) : Z := default 0 (m !! i).

(** x86.h: [rep stosb] and [rep stosl]. *)
Definition stosb (m : list Z) (dst : nat) (c : Z) (n : nat) : list Z :=
  splice m dst (replicate n (u8 c)).
Definition stosl (m : list Z) (dst : nat) (v : Z) (n : nat) : list Z :=
  splice m dst (concat (replicate n (le_bytes 4 v))).

Definition memset (m : list Z) (dst : nat) (c : Z) (n : nat) : list Z :=
  if (dst mod 4 =? 0)%nat && (n mod 4 =? 0)%nat then
    let c := Z.land c 255 in
    stosl m dst
      (Z.lor (Z.lor (Z.lor (Z.shiftl c 24) (Z.shiftl c 16)) (Z.shiftl c 8)) c) (n / 4)
  else stosb m dst c n.

Fixpoint memcmp (s1 s2 : list Z) (n : nat) : Z :=
  match n with
  | O => 0
  | S n' =>
      let c1 := byte_at s1 0 in
      let c2 := byte_at s2 0 in
      if negb (c1 =? c2) then c1 - c2 else memcmp (tail s1) (tail s2) n'
  end.

(** [while(n-- > 0) *d++ = *s++;] *)
Fixpoint move_up (m : list Z) (d s n : nat) : list Z :=
  match n with
  | O => m
  | S n' => move_up (<[d := byte_at m s]> m) (S d) (S s) n'
  end.

(** [while(n-- > 0) *--d = *--s;] *)
Fixpoint move_down (m : list Z) (d s n : nat) : list Z :=
  match n with
  | O => m
  | S n' => move_down (<[(d - 1)%nat := byte_at m (s - 1)]> m) (d - 1) (s - 1) n'
  end.

Definition memmove (m : list Z) (dst src n : nat) : list Z :=
  if (src <? dst)%nat && (dst <? src + n)%nat
  then move_down m (dst + n) (src + n) n
  else move_up m dst src n.

Definition memcpy := memmove.

(** ** Strings *)
Definition peek (l : list Z) : Z := byte_at l 0.

(** The string at a pointer: the bytes before the first NUL. *)
Fixpoint cstr (l : list Z) : list Z :=
  match l with
  | [] => []
  | c :: l' => if c =? 0 then [] else c :: cstr l'
  end.

Fixpoint strncmp (p q : list Z) (n : nat) : Z :=
  match n with
  | O => 0
  | S n' =>
      if negb (peek p =? 0) && (peek p =? peek q)
      then strncmp (tail p) (tail q) n'
      else u8 (peek p) - u8 (peek q)
  end.

(** The [n] bytes [strncpy] stores at its destination. *)
Fixpoint strncpy (t : list Z) (n : nat) : list Z :=
  match n with
  | O => []
  | S n' =>
      if peek t =? 0 then 0 :: replicate n' 0
      else peek t :: strncpy (tail t) n'
  end.

(** The bytes [safestrcpy] stores at its destination, for [n > 0]. *)
Fixpoint safestrcpy_pos (t : list Z) (n : nat) : list Z :=
  match n with
  | O | 1%nat => [0]
  | S n' =>
      if peek t =? 0 then [0; 0]
      else peek t :: safestrcpy_pos (tail t) n'
  end.

Definition safestrcpy (t : list Z) (n : Z) : list Z :=
  if n <=? 0 then [] else safestrcpy_pos t (Z.to_nat n).

Fixpoint strlen (s : list Z) : nat :=
  match s with
  | [] => 0
  | c :: s' => if c =? 0 then 0 else S (strlen s')
  end.

End Str.
Import Str.

(** ** memset and memmove *)
Section Moves.
Context (m0 : list Z) (d s n : nat).
Context (Hd : (d + n <= length m0)%nat) (Hs : (s + n <= length m0)%nat).

(** [move_up] after [k] bytes, when it does not overtake its source. *)
Lemma move_up_lookup k m i :
  (d <= s \/ s + n <= d)%nat -> (k <= n)%nat -> length m = length m0 ->
  (forall j, m !! j = if decide (d <= j < d + (n - k))%nat
                      then m0 !! (s + (j - d))%nat else m0 !! j) ->
  move_up m (d + (n - k)) (s + (n - k)) k !! i =
    if decide (d <= i < d + n)%nat then m0 !! (s + (i - d))%nat else m0 !! i.
Proof using Hd Hs.
  intros Hov. revert m. induction k as [|k IH]; intros m Hk Hl Hm; cbn.
  - rewrite Hm. by rewrite Nat.sub_0_r.
  - replace (S (d + (n - S k))) with (d + (n - k))%nat by lia.
    replace (S (s + (n - S k))) with (s + (n - k))%nat by lia.
    apply IH; [lia|by rewrite length_insert|]. clear IH. intros j.
    assert (is_Some (m0 !! (s + (n - S k))%nat)) as [x Hx] by (apply lookup_lt_is_Some; lia).
    assert (byte_at m (s + (n - S k)) = x) as ->.
    { unfold byte_at. rewrite Hm, decide_False by lia. by rewrite Hx. }
    destruct (decide (j = d + (n - S k))%nat) as [->|Hne].
    + rewrite list_lookup_insert_eq by lia. rewrite decide_True by lia.
      by replace (d + (n - S k) - d)%nat with (n - S k)%nat by lia.
    + rewrite list_lookup_insert_ne, Hm by lia. repeat case_decide; done || lia.
Qed.

(** [move_down] when [k] bytes are left, when it starts above its source. *)
Lemma move_down_lookup k m i :
  (s < d)%nat -> (k <= n)%nat -> length m = length m0 ->
  (forall j, m !! j = if decide (d + k <= j < d + n)%nat
                      then m0 !! (s + (j - d))%nat else m0 !! j) ->
  move_down m (d + k) (s + k) k !! i =
    if decide (d <= i < d + n)%nat then m0 !! (s + (i - d))%nat else m0 !! i.
Proof using Hd Hs.
  intros Hov. revert m. induction k as [|k IH]; intros m Hk Hl Hm; cbn.
  - rewrite Hm. by rewrite Nat.add_0_r.
  - replace (d + S k - 1)%nat with (d + k)%nat by lia.
    replace (s + S k - 1)%nat with (s + k)%nat by lia.
    apply IH; [lia|by rewrite length_insert|]. clear IH. intros j.
    assert (is_Some (m0 !! (s + k)%nat)) as [x Hx] by (apply lookup_lt_is_Some; lia).
    assert (byte_at m (s + k) = x) as ->.
    { unfold byte_at. rewrite Hm, decide_False by lia. by rewrite Hx. }
    destruct (decide (j = d + k)%nat) as [->|Hne].
    + rewrite list_lookup_insert_eq by lia. rewrite decide_True by lia.
      by replace (d + k - d)%nat with k by lia.
    + rewrite list_lookup_insert_ne, Hm by lia. repeat case_decide; done || lia.
Qed.

(** [memmove] copies the [n] bytes the source had before the call, also
    when source and destination overlap, and changes nothing else. *)
Theorem memmove_copies : memmove m0 d s n = splice m0 d (slice m0 s n).
Proof using Hd Hs.
  apply list_eq. intros i.
  rewrite splice_lookup, slice_length by (rewrite ?slice_length; lia).
  transitivity (if decide (d <= i < d + n)%nat then m0 !! (s + (i - d))%nat else m0 !! i).
  - unfold memmove. destruct (Nat.ltb_spec s d); [destruct (Nat.ltb_spec d (s + n))|]; cbn [andb].
    + apply move_down_lookup; try done. intros j. case_decide; [lia|done].
    + replace (move_up m0 d s n) with (move_up m0 (d + (n - n)) (s + (n - n)) n)
        by (f_equal; lia).
      apply move_up_lookup; try lia; try done. intros j. case_decide; [lia|done].
    + replace (move_up m0 d s n) with (move_up m0 (d + (n - n)) (s + (n - n)) n)
        by (f_equal; lia).
      apply move_up_lookup; try lia; try done. intros j. case_decide; [lia|done].
  - case_decide; [|done]. by rewrite slice_lookup by lia.
Qed.
End Moves.

Lemma word_bytes c :
  0 <= c < 256 ->
  le_bytes 4 (Z.lor (Z.lor (Z.lor (Z.shiftl c 24) (Z.shiftl c 16)) (Z.shiftl c 8)) c) =
    replicate 4 c.
Proof.
  intros Hc.
  assert (Forall (fun k => le_bytes 4 (Z.lor (Z.lor (Z.lor (Z.shiftl (Z.of_nat k) 24)
    (Z.shiftl (Z.of_nat k) 16)) (Z.shiftl (Z.of_nat k) 8)) (Z.of_nat k)) =
    replicate 4 (Z.of_nat k)) (seq 0 256)) as H
    by (apply (bool_decide_unpack _); by vm_compute).
  rewrite Forall_forall in H. specialize (H (Z.to_nat c)).
  rewrite Z2Nat.id in H by lia. apply H, in_seq. lia.
Qed.

Lemma concat_replicate (c : Z) j k :
  concat (replicate k (replicate j c)) = replicate (k * j) c.
Proof.
  induction k as [|k IH]; [done|]. cbn. by rewrite IH, replicate_add.
Qed.

(** [memset] fills the [n] bytes at [dst] with the low byte of [c], also
    when it stores whole words. *)
Theorem memset_fill m dst c n : memset m dst c n = splice m dst (replicate n (u8 c)).
Proof.
  unfold memset. destruct (_ && _) eqn:Ha; [|done].
  apply andb_true_iff in Ha as [_ Hn%Nat.eqb_eq].
  cbv zeta. change 255 with (Z.ones 8). rewrite (Z.land_ones c 8) by lia. unfold stosl.
  rewrite word_bytes by (apply Z.mod_pos_bound; lia).
  rewrite concat_replicate. do 2 f_equal.
  rewrite (Nat.div_mod_eq n 4) at 2. lia.
Qed.

(** ** Strings *)
Lemma peek_cstr c l : cstr (c :: l) = if c =? 0 then [] else c :: cstr l.
Proof. done. Qed.

Lemma cstr_tail l : peek l <> 0 -> cstr l = peek l :: cstr (tail l).
Proof.
  destruct l as [|c l]; [done|]. unfold peek, byte_at. cbn. intros H.
  by rewrite (proj2 (Z.eqb_neq c 0)).
Qed.

Lemma cstr_peek0 l : peek l = 0 -> cstr l = [].
Proof. destruct l as [|c l]; [done|]. unfold peek, byte_at. cbn. by intros ->. Qed.

Lemma peek_byte l : Forall is_byte l -> is_byte (peek l).
Proof.
  unfold peek, byte_at. destruct 1; cbn; [unfold is_byte; lia|done].
Qed.

Lemma Forall_tail {A} (P : A -> Prop) l : Forall P l -> Forall P (tail l).
Proof. by destruct 1. Qed.

(** [strncmp] returns 0 exactly when the two strings agree in their first
    [n] characters. *)
Theorem strncmp_zero p q n :
  Forall is_byte p -> Forall is_byte q ->
  strncmp p q n = 0 <-> take n (cstr p) = take n (cstr q).
Proof.
  revert p q. induction n as [|n IH]; intros p q Hp Hq; cbn [strncmp]; [done|].
  assert (forall z, is_byte z -> u8 z = z) as Hu8.
  { intros z Hz. apply Z.mod_small, Hz. }
  destruct (Z.eqb_spec (peek p) 0) as [H0|H0]; cbn [negb andb].
  - rewrite (cstr_peek0 p H0), take_nil, !Hu8 by (by apply peek_byte). rewrite H0.
    destruct (decide (peek q = 0)) as [Hq0|Hq0].
    + rewrite (cstr_peek0 q Hq0), take_nil, Hq0. done.
    + rewrite (cstr_tail q Hq0). cbn. split; [lia|done].
  - rewrite (cstr_tail p H0). destruct (Z.eqb_spec (peek p) (peek q)) as [He|He].
    + rewrite (cstr_tail q) by congruence. cbn. rewrite IH by (by apply Forall_tail).
      rewrite He. split; [by intros ->|by intros [= ->]].
    + rewrite !Hu8 by (by apply peek_byte). split; [lia|].
      destruct (decide (peek q = 0)) as [Hq0|Hq0].
      * rewrite (cstr_peek0 q Hq0). done.
      * rewrite (cstr_tail q Hq0). cbn. intros [=]. done.
Qed.

(** [strncpy] stores exactly [n] bytes: the string, cut at [n] characters,
    padded with NUL bytes. *)
Theorem strncpy_spec t n :
  strncpy t n = take n (cstr t) ++ replicate (n - length (cstr t)) 0.
Proof.
  revert t. induction n as [|n IH]; intros t; cbn [strncpy]; [done|].
  destruct (Z.eqb_spec (peek t) 0) as [H0|H0].
  - by rewrite (cstr_peek0 t H0), take_nil.
  - rewrite (cstr_tail t H0), IH. done.
Qed.

Lemma strncpy_length t n : length (strncpy t n) = n.
Proof. rewrite strncpy_spec. len. Qed.

(** [safestrcpy] stores at most [n] bytes, among them a terminating NUL, and
    the string stored is the source cut at [n - 1] characters. *)
Theorem safestrcpy_spec t n :
  0 < n ->
  (length (safestrcpy t n) <= Z.to_nat n)%nat /\ 0 ∈ safestrcpy t n /\
  cstr (safestrcpy t n) = take (Z.to_nat n - 1) (cstr t).
Proof.
  intros Hn. unfold safestrcpy. rewrite (proj2 (Z.leb_gt _ _)) by lia.
  destruct (Z.to_nat n) as [|k] eqn:Hk; [lia|]. clear Hk Hn n.
  revert t. induction k as [|k IH]; intros t.
  { cbn. split; [lia|]. split; [set_solver|]. by rewrite take_0. }
  change (safestrcpy_pos t (S (S k))) with
    (if peek t =? 0 then [0; 0] else peek t :: safestrcpy_pos (tail t) (S k)).
  destruct (Z.eqb_spec (peek t) 0) as [H0|H0].
  - rewrite (cstr_peek0 t H0). cbn. split; [lia|]. split; [set_solver|done].
  - destruct (IH (tail t)) as (H1 & H2 & H3). rewrite (cstr_tail t H0).
    cbn [length cstr]. rewrite (proj2 (Z.eqb_neq _ _) H0), H3.
    split; [lia|]. split; [set_solver|]. replace (S (S k) - 1)%nat with (S (S k - 1)) by lia. done.
Qed.

Lemma strlen_cstr s : strlen s = length (cstr s).
Proof. induction s as [|c s IH]; cbn; [done|]. destruct (c =? 0); cbn; [done|by f_equal]. Qed.

(** [memcmp] compares byte by byte. *)
Lemma memcmp_zero s1 s2 n :
  (n <= length s1)%nat -> (n <= length s2)%nat ->
  memcmp s1 s2 n = 0 <-> take n s1 = take n s2.
Proof.
  revert s1 s2. induction n as [|n IH]; intros s1 s2 H1 H2; [done|].
  destruct s1 as [|c1 s1]; cbn in H1; [lia|]. destruct s2 as [|c2 s2]; cbn in H2; [lia|].
  cbn. destruct (Z.eqb_spec c1 c2) as [->|Hne]; cbn [negb].
  - rewrite IH by lia. split; [by intros ->|by intros [= ->]].
  - split; [lia|]. intros [=]. done.
Qed.

(** ** Examples *)
Lemma memmove_copies_witness : memmove [1; 2; 3; 4; 5] 2 1 3 = [1; 2; 2; 3; 4].
Proof. rewrite (memmove_copies [1; 2; 3; 4; 5] 2 1 3); [by vm_compute|cbn; lia..]. Defined.

Lemma strncmp_zero_witness : strncmp [97; 98; 0] [97; 98; 99] 2 = 0.
Proof. apply (strncmp_zero [97; 98; 0] [97; 98; 99] 2); [repeat constructor; lia..|done]. Defined.

Lemma safestrcpy_spec_witness : cstr (safestrcpy [97; 98; 99; 0] 3) = [97; 98].
Proof.
  destruct (safestrcpy_spec [97; 98; 99; 0] 3) as (_ & _ & ->); [lia|]. by vm_compute.
Defined.
