(* ===== verification/Kstate.v ===== *)
(** * The kernel's data and state

    The structs of param.h, proc.h, buf.h, file.h, fs.h, stat.h and of the
    [.c] files that declare kernel tables, and the record [kstate] of all the
    tables together.  Pointers into a kernel table are indices of the table
    ([nat]); pointers to pages are addresses ([Z], 0 for the null pointer);
    a null pointer into a table is [None].  The flag bits of a buffer and of an
    inode are one boolean each. *)

From S2P Require Import Prelude Bytes.
Local Open Scope Z_scope.

(** ** param.h, fs.h, stat.h *)
Definition NPROC : nat := 64.
Definition NOFILE : nat := 16.
Definition NFILE : nat := 100.
Definition NINODE : nat := 50.
Definition NDEV : Z := 10.
Definition ROOTDEV : Z := 1.
Definition MAXARG : nat := 32.
Definition MAXOPBLOCKS : Z := 10.
Definition LOGSIZE : Z := MAXOPBLOCKS * 3.
Definition NBUF : nat := Z.to_nat (MAXOPBLOCKS * 3).
Definition FSSIZE : Z := 1000.
Definition KSTACKSIZE : Z := 4096.

Definition ROOTINO : Z := 1.
Definition BSIZE : Z := 512.
Definition NDIRECT : Z := 12.
Definition NINDIRECT : Z := BSIZE / 4.
Definition MAXFILE : Z := NDIRECT + NINDIRECT.
Definition DIRSIZ : nat := 14.

Definition T_DIR : Z := 1.
Definition T_FILE : Z := 2.
Definition T_DEV : Z := 3.

(** ** Locks and sleep channels

    A spinlock is named by the table it protects; a sleep channel by the
    object whose address the code passes to [sleep]. *)
Inductive lockid : Type :=
| PtableLock | BcacheLock | IdeLock | LogLock | IcacheLock | FtableLock
| KmemLock | TicksLock | ConsLock
| PipeLock (p : Z).

Inductive chan : Type :=
| ChProc (i : nat) | ChBuf (b : nat) | ChLog | ChInode (i : nat)
| ChNread (p : Z) | ChNwrite (p : Z) | ChTicks | ChInput.

#[export] Instance lockid_eq_dec : EqDecision lockid.
Proof. solve_decision. Defined.
#[export] Instance chan_eq_dec : EqDecision chan.
Proof. solve_decision. Defined.

(** ** proc.h *)
Inductive procstate : Type :=
  UNUSED | EMBRYO | SLEEPING | RUNNABLE | RUNNING | ZOMBIE.

#[export] Instance procstate_eq_dec : EqDecision procstate.
Proof. solve_decision. Defined.

(** The user registers saved on kernel entry (struct trapframe, x86.h). *)
Record trapframe := mkTrapframe {
  tf_edi : Z; tf_esi : Z; tf_ebp : Z; tf_ebx : Z; tf_edx : Z; tf_ecx : Z;
  tf_eax : Z; tf_gs : Z; tf_fs : Z; tf_es : Z; tf_ds : Z;
  tf_trapno : Z; tf_err : Z; tf_eip : Z; tf_cs : Z; tf_eflags : Z;
  tf_esp : Z; tf_ss : Z
}.

Record proc := mkProc {
  p_sz : Z;
  p_pgdir : Z;
  p_kstack : Z;
  p_state : procstate;
  p_pid : Z;
  p_parent : option nat;
  p_tf : trapframe;
  p_chan : option chan;
  p_killed : bool;
  p_ofile : list (option nat);
  p_cwd : option nat;
  p_name : list Z;
  p_exit_status : Z;
  p_is_thread : Z;
  p_tid : Z;
  p_numOfThread : Z
}.

(** ** buf.h *)
Record buf := mkBuf {
  b_busy : bool;
  b_valid : bool;
  b_dirty : bool;
  b_dev : Z;
  b_blockno : Z;
  b_prev : nat;
  b_next : nat;
  b_data : block
}.

(** ** The disk behind memide.c: its blocks, their number, and the history of
    block writes, newest first.  The history is not in the source; it names
    the points at which the machine can stop. *)
Record diskst := mkDisk {
  d_blocks : gmap Z block;
  d_size : Z;
  d_writes : list (Z * block)
}.

(** ** log.c *)
Record logst := mkLog {
  l_start : Z;
  l_size : Z;
  l_outstanding : Z;
  l_committing : bool;
  l_dev : Z;
  l_n : Z;
  l_block : list Z
}.

(** ** fs.h, file.h *)
Record superblock := mkSb {
  sb_size : Z; sb_nblocks : Z; sb_ninodes : Z; sb_nlog : Z;
  sb_logstart : Z; sb_inodestart : Z; sb_bmapstart : Z
}.

Record inode := mkInode {
  i_dev : Z;
  i_inum : Z;
  i_ref : Z;
  i_busy : bool;
  i_valid : bool;
  i_type : Z;
  i_major : Z;
  i_minor : Z;
  i_nlink : Z;
  i_size : Z;
  i_addrs : list Z
}.

Inductive filetype : Type := FD_NONE | FD_PIPE | FD_INODE.

#[export] Instance filetype_eq_dec : EqDecision filetype.
Proof. solve_decision. Defined.

Record file := mkFile {
  f_type : filetype;
  f_ref : Z;
  f_readable : bool;
  f_writable : bool;
  f_pipe : Z;
  f_ip : nat;
  f_off : Z
}.

(** ** pipe.c *)
Definition PIPESIZE : Z := 512.

Record pipe := mkPipe {
  pi_data : list Z;
  pi_nread : Z;
  pi_nwrite : Z;
  pi_readopen : bool;
  pi_writeopen : bool
}.

(** ** kalloc.c *)
Record kmemst := mkKmem {
  km_use_lock : bool;
  km_freelist : Z;
  km_numfreepages : Z
}.

(** ** console.c: the input line buffer. *)
Record inputst := mkInput {
  in_buf : list Z;
  in_r : Z;
  in_w : Z;
  in_e : Z
}.

(** ** console.c, uart.c: the screen with its cursor, and the serial line. *)
Record consst := mkCons {
  cn_crt : list Z;             (* the cells at crt *)
  cn_pos : Z;                  (* the cursor register *)
  cn_have_uart : bool;         (* uart *)
  cn_uart : list Z;            (* bytes sent on COM1, oldest first *)
  cn_locking : bool;
  cn_panicked : bool
}.

(** ** Field updates *)
(** [with_field proj v s eta] is [s] with the field [proj] replaced by [v]. *)
Ltac with_field proj v s eta :=
  let e := eval cbv delta [eta] in (eta s) in
  let e := eval cbv beta in e in
  let p := eval pattern (proj s) in e in
  match p with ?g _ => let r := eval cbv beta in (g v) in exact r end.

Definition trapframe_eta (r : trapframe) : trapframe :=
  mkTrapframe (tf_edi r) (tf_esi r) (tf_ebp r) (tf_ebx r) (tf_edx r)
    (tf_ecx r) (tf_eax r) (tf_gs r) (tf_fs r) (tf_es r) (tf_ds r)
    (tf_trapno r) (tf_err r) (tf_eip r) (tf_cs r) (tf_eflags r) (tf_esp r)
    (tf_ss r).
Definition set_tf_eax (v : Z) (r : trapframe) : trapframe :=
  ltac:(with_field tf_eax v r trapframe_eta).
Definition set_tf_esp (v : Z) (r : trapframe) : trapframe :=
  ltac:(with_field tf_esp v r trapframe_eta).
Definition set_tf_eip (v : Z) (r : trapframe) : trapframe :=
  ltac:(with_field tf_eip v r trapframe_eta).
Definition set_tf_ebp (v : Z) (r : trapframe) : trapframe :=
  ltac:(with_field tf_ebp v r trapframe_eta).

Definition proc_eta (r : proc) : proc :=
  mkProc (p_sz r) (p_pgdir r) (p_kstack r) (p_state r) (p_pid r) (p_parent r)
    (p_tf r) (p_chan r) (p_killed r) (p_ofile r) (p_cwd r) (p_name r)
    (p_exit_status r) (p_is_thread r) (p_tid r) (p_numOfThread r).
Definition set_p_sz (v : Z) (r : proc) : proc :=
  ltac:(with_field p_sz v r proc_eta).
Definition set_p_pgdir (v : Z) (r : proc) : proc :=
  ltac:(with_field p_pgdir v r proc_eta).
Definition set_p_kstack (v : Z) (r : proc) : proc :=
  ltac:(with_field p_kstack v r proc_eta).
Definition set_p_state (v : procstate) (r : proc) : proc :=
  ltac:(with_field p_state v r proc_eta).
Definition set_p_pid (v : Z) (r : proc) : proc :=
  ltac:(with_field p_pid v r proc_eta).
Definition set_p_parent (v : option nat) (r : proc) : proc :=
  ltac:(with_field p_parent v r proc_eta).
Definition set_p_tf (v : trapframe) (r : proc) : proc :=
  ltac:(with_field p_tf v r proc_eta).
Definition set_p_chan (v : option chan) (r : proc) : proc :=
  ltac:(with_field p_chan v r proc_eta).
Definition set_p_killed (v : bool) (r : proc) : proc :=
  ltac:(with_field p_killed v r proc_eta).
Definition set_p_ofile (v : list (option nat)) (r : proc) : proc :=
  ltac:(with_field p_ofile v r proc_eta).
Definition set_p_cwd (v : option nat) (r : proc) : proc :=
  ltac:(with_field p_cwd v r proc_eta).
Definition set_p_name (v : list Z) (r : proc) : proc :=
  ltac:(with_field p_name v r proc_eta).
Definition set_p_exit_status (v : Z) (r : proc) : proc :=
  ltac:(with_field p_exit_status v r proc_eta).
Definition set_p_is_thread (v : Z) (r : proc) : proc :=
  ltac:(with_field p_is_thread v r proc_eta).
Definition set_p_tid (v : Z) (r : proc) : proc :=
  ltac:(with_field p_tid v r proc_eta).
Definition set_p_numOfThread (v : Z) (r : proc) : proc :=
  ltac:(with_field p_numOfThread v r proc_eta).

Definition buf_eta (r : buf) : buf :=
  mkBuf (b_busy r) (b_valid r) (b_dirty r) (b_dev r) (b_blockno r) (b_prev r)
    (b_next r) (b_data r).
Definition set_b_busy (v : bool) (r : buf) : buf :=
  ltac:(with_field b_busy v r buf_eta).
Definition set_b_valid (v : bool) (r : buf) : buf :=
  ltac:(with_field b_valid v r buf_eta).
Definition set_b_dirty (v : bool) (r : buf) : buf :=
  ltac:(with_field b_dirty v r buf_eta).
Definition set_b_dev (v : Z) (r : buf) : buf :=
  ltac:(with_field b_dev v r buf_eta).
Definition set_b_prev (v : nat) (r : buf) : buf :=
  ltac:(with_field b_prev v r buf_eta).
Definition set_b_next (v : nat) (r : buf) : buf :=
  ltac:(with_field b_next v r buf_eta).
Definition set_b_data (v : block) (r : buf) : buf :=
  ltac:(with_field b_data v r buf_eta).

Definition logst_eta (r : logst) : logst :=
  mkLog (l_start r) (l_size r) (l_outstanding r) (l_committing r) (l_dev r)
    (l_n r) (l_block r).
Definition set_l_outstanding (v : Z) (r : logst) : logst :=
  ltac:(with_field l_outstanding v r logst_eta).
Definition set_l_committing (v : bool) (r : logst) : logst :=
  ltac:(with_field l_committing v r logst_eta).
Definition set_l_n (v : Z) (r : logst) : logst :=
  ltac:(with_field l_n v r logst_eta).
Definition set_l_block (v : list Z) (r : logst) : logst :=
  ltac:(with_field l_block v r logst_eta).

Definition inode_eta (r : inode) : inode :=
  mkInode (i_dev r) (i_inum r) (i_ref r) (i_busy r) (i_valid r) (i_type r)
    (i_major r) (i_minor r) (i_nlink r) (i_size r) (i_addrs r).
Definition set_i_ref (v : Z) (r : inode) : inode :=
  ltac:(with_field i_ref v r inode_eta).
Definition set_i_busy (v : bool) (r : inode) : inode :=
  ltac:(with_field i_busy v r inode_eta).
Definition set_i_valid (v : bool) (r : inode) : inode :=
  ltac:(with_field i_valid v r inode_eta).
Definition set_i_type (v : Z) (r : inode) : inode :=
  ltac:(with_field i_type v r inode_eta).
Definition set_i_major (v : Z) (r : inode) : inode :=
  ltac:(with_field i_major v r inode_eta).
Definition set_i_minor (v : Z) (r : inode) : inode :=
  ltac:(with_field i_minor v r inode_eta).
Definition set_i_nlink (v : Z) (r : inode) : inode :=
  ltac:(with_field i_nlink v r inode_eta).
Definition set_i_size (v : Z) (r : inode) : inode :=
  ltac:(with_field i_size v r inode_eta).
Definition set_i_addrs (v : list Z) (r : inode) : inode :=
  ltac:(with_field i_addrs v r inode_eta).

Definition file_eta (r : file) : file :=
  mkFile (f_type r) (f_ref r) (f_readable r) (f_writable r) (f_pipe r)
    (f_ip r) (f_off r).
Definition set_f_type (v : filetype) (r : file) : file :=
  ltac:(with_field f_type v r file_eta).
Definition set_f_ref (v : Z) (r : file) : file :=
  ltac:(with_field f_ref v r file_eta).
Definition set_f_off (v : Z) (r : file) : file :=
  ltac:(with_field f_off v r file_eta).

Definition pipe_eta (r : pipe) : pipe :=
  mkPipe (pi_data r) (pi_nread r) (pi_nwrite r) (pi_readopen r)
    (pi_writeopen r).
Definition set_pi_data (v : list Z) (r : pipe) : pipe :=
  ltac:(with_field pi_data v r pipe_eta).
Definition set_pi_nread (v : Z) (r : pipe) : pipe :=
  ltac:(with_field pi_nread v r pipe_eta).
Definition set_pi_nwrite (v : Z) (r : pipe) : pipe :=
  ltac:(with_field pi_nwrite v r pipe_eta).
Definition set_pi_readopen (v : bool) (r : pipe) : pipe :=
  ltac:(with_field pi_readopen v r pipe_eta).
Definition set_pi_writeopen (v : bool) (r : pipe) : pipe :=
  ltac:(with_field pi_writeopen v r pipe_eta).

Definition kmemst_eta (r : kmemst) : kmemst :=
  mkKmem (km_use_lock r) (km_freelist r) (km_numfreepages r).
Definition set_km_use_lock (v : bool) (r : kmemst) : kmemst :=
  ltac:(with_field km_use_lock v r kmemst_eta).
Definition set_km_freelist (v : Z) (r : kmemst) : kmemst :=
  ltac:(with_field km_freelist v r kmemst_eta).
Definition set_km_numfreepages (v : Z) (r : kmemst) : kmemst :=
  ltac:(with_field km_numfreepages v r kmemst_eta).

Definition inputst_eta (r : inputst) : inputst :=
  mkInput (in_buf r) (in_r r) (in_w r) (in_e r).
Definition set_in_buf (v : list Z) (r : inputst) : inputst :=
  ltac:(with_field in_buf v r inputst_eta).
Definition set_in_r (v : Z) (r : inputst) : inputst :=
  ltac:(with_field in_r v r inputst_eta).
Definition set_in_w (v : Z) (r : inputst) : inputst :=
  ltac:(with_field in_w v r inputst_eta).
Definition set_in_e (v : Z) (r : inputst) : inputst :=
  ltac:(with_field in_e v r inputst_eta).

Definition consst_eta (r : consst) : consst :=
  mkCons (cn_crt r) (cn_pos r) (cn_have_uart r) (cn_uart r) (cn_locking r)
    (cn_panicked r).
Definition set_cn_crt (v : list Z) (r : consst) : consst :=
  ltac:(with_field cn_crt v r consst_eta).
Definition set_cn_pos (v : Z) (r : consst) : consst :=
  ltac:(with_field cn_pos v r consst_eta).
Definition set_cn_uart (v : list Z) (r : consst) : consst :=
  ltac:(with_field cn_uart v r consst_eta).

(** ** The kernel state as one CPU sees it *)
Record kstate := mkKstate {
  held : list lockid;          (* spinlocks this CPU holds *)
  curproc : option nat;        (* proc *)
  ptable : list proc;
  nextpid : Z;
  initproc : option nat;
  ticks : Z;
  mem : gmap Z Z;              (* 32-bit words of memory, by address *)
  kmem : kmemst;
  disk : diskst;
  bufs : list buf;             (* bcache.buf, then bcache.head *)
  klog : logst;
  sb : superblock;
  icache : list inode;
  ftable : list file;
  pipes : gmap Z pipe;         (* by the address of their page *)
  input : inputst;
  console : consst;
  thread_lock : Z;             (* lock of thread.c *)
  forkret_first : bool;        (* first of forkret *)
  kbd_shift : Z                (* shift of kbdgetc *)
}.

Definition kstate_eta (s : kstate) : kstate :=
  mkKstate (held s) (curproc s) (ptable s) (nextpid s) (initproc s) (ticks s)
    (mem s) (kmem s) (disk s) (bufs s) (klog s) (sb s) (icache s) (ftable s)
    (pipes s) (input s) (console s) (thread_lock s) (forkret_first s)
    (kbd_shift s).

Definition set_held (v : list lockid) (s : kstate) : kstate :=
  ltac:(with_field held v s kstate_eta).
Definition set_curproc (v : option nat) (s : kstate) : kstate :=
  ltac:(with_field curproc v s kstate_eta).
Definition set_ptable (v : list proc) (s : kstate) : kstate :=
  ltac:(with_field ptable v s kstate_eta).
Definition set_nextpid (v : Z) (s : kstate) : kstate :=
  ltac:(with_field nextpid v s kstate_eta).
Definition set_initproc (v : option nat) (s : kstate) : kstate :=
  ltac:(with_field initproc v s kstate_eta).
Definition set_ticks (v : Z) (s : kstate) : kstate :=
  ltac:(with_field ticks v s kstate_eta).
Definition set_mem (v : gmap Z Z) (s : kstate) : kstate :=
  ltac:(with_field mem v s kstate_eta).
Definition set_kmem (v : kmemst) (s : kstate) : kstate :=
  ltac:(with_field kmem v s kstate_eta).
Definition set_disk (v : diskst) (s : kstate) : kstate :=
  ltac:(with_field disk v s kstate_eta).
Definition set_bufs (v : list buf) (s : kstate) : kstate :=
  ltac:(with_field bufs v s kstate_eta).
Definition set_klog (v : logst) (s : kstate) : kstate :=
  ltac:(with_field klog v s kstate_eta).
Definition set_sb (v : superblock) (s : kstate) : kstate :=
  ltac:(with_field sb v s kstate_eta).
Definition set_icache (v : list inode) (s : kstate) : kstate :=
  ltac:(with_field icache v s kstate_eta).
Definition set_ftable (v : list file) (s : kstate) : kstate :=
  ltac:(with_field ftable v s kstate_eta).
Definition set_pipes (v : gmap Z pipe) (s : kstate) : kstate :=
  ltac:(with_field pipes v s kstate_eta).
Definition set_input (v : inputst) (s : kstate) : kstate :=
  ltac:(with_field input v s kstate_eta).
Definition set_console (v : consst) (s : kstate) : kstate :=
  ltac:(with_field console v s kstate_eta).
Definition set_thread_lock (v : Z) (s : kstate) : kstate :=
  ltac:(with_field thread_lock v s kstate_eta).
Definition set_forkret_first (v : bool) (s : kstate) : kstate :=
  ltac:(with_field forkret_first v s kstate_eta).
Definition set_kbd_shift (v : Z) (s : kstate) : kstate :=
  ltac:(with_field kbd_shift v s kstate_eta).

(** ** The state at reset *)
Definition zero_tf : trapframe :=
  mkTrapframe 0 0 0 0 0 0 0 0 0 0 0 0 0 0 0 0 0 0.

(** An entry of the zeroed process table. *)
Definition zero_proc : proc :=
  mkProc 0 0 0 UNUSED 0 None zero_tf None false (replicate NOFILE None) None
    (replicate 16 0) 0 0 0 0.

(** A machine after reset, with [D] on disk and process [i] running. *)
Definition reset_state (D : gmap Z (list Z)) (dsize : Z) (P : list proc) (i : nat) : kstate :=
  mkKstate [] (Some i) P 1 None 0 ∅ (mkKmem false 0 0) (mkDisk D dsize [])
    (replicate (S NBUF) (mkBuf false false false 0 0 0 0 (replicate 512 0)))
    (mkLog 0 0 0 false 0 0 (replicate (Z.to_nat LOGSIZE) 0))
    (mkSb 0 0 0 0 0 0 0)
    (replicate NINODE (mkInode 0 0 0 false false 0 0 0 0 0 (replicate 13 0)))
    (replicate NFILE (mkFile FD_NONE 0 false false 0 0 0)) ∅
    (mkInput (replicate 128 0) 0 0 0)
    (mkCons (replicate 2000 1824) 0 true [] true false) 1 true 0.

Abbreviation K := (M kstate).
