(* ===== verification/Sync.v ===== *)
(** * Locks, sleep and wakeup

    The synchronisation calls that every other component makes: the view of
    [acquire], [release] and [holding] (spinlock.c) that one CPU has, which
    [Spinlock] shows the real code to implement, and [sched], [yield],
    [sleep], [wakeup1] and [wakeup] of proc.c.

    [swtch] hands the CPU to the scheduler.  What the rest of the system does
    until this process is chosen again is the interference of the run: the
    scheduler only resumes a process whose state is RUNNABLE, so interference
    is consumed until that holds. *)

From S2P Require Import Prelude Bytes Kstate.
Local Open Scope Z_scope.

(** ** The lock view *)
Definition holding (l : lockid) : K bool :=
  gets (fun s => bool_decide (l ∈ held s)).

Definition acquire (l : lockid) : K unit :=
  let! h := holding l in
  if h then panic "acquire"
  else modify (fun s => set_held (l :: held s) s).

Definition release (l : lockid) : K unit :=
  let! h := holding l in
  if negb h then panic "release"
  else modify (fun s => set_held (filter (fun x => x ≠ l) (held s)) s).

(** ** proc.c: process table access *)
Definition proc_at (i : nat) : K proc :=
  let! t := gets ptable in deref "ptable.proc" (t !! i).

Definition upd_proc (i : nat) (f : proc -> proc) : K unit :=
  let! p := proc_at i in
  modify (fun s => set_ptable (<[i := f p]> (ptable s)) s).

(** The current process; a null [proc] is dereferenced nowhere safely. *)
Definition curproc_idx : K nat :=
  let! c := gets curproc in deref "proc" c.

Definition myproc : K proc :=
  let! i := curproc_idx in proc_at i.

Definition upd_myproc (f : proc -> proc) : K unit :=
  let! i := curproc_idx in upd_proc i f.

(** [scheduler] lines 485-488: process [i] is made the running one. *)
Definition resumed (i : nat) (p : proc) (s : kstate) : kstate :=
  set_held [PtableLock] (set_curproc (Some i)
    (set_ptable (<[i := set_p_state RUNNING p]> (ptable s)) s)).

(** [swtch(&proc->context, cpu->scheduler)], seen from process [i]. *)
Fixpoint swtch_from (i : nat) (s : kstate) (e : list (kstate -> kstate))
  : outcome kstate unit :=
  match e with
  | [] => Blocked s
  | f :: e' =>
      match ptable (f s) !! i with
      | Some p =>
          if bool_decide (p_state p = RUNNABLE)
          then Ok tt (resumed i p (f s)) e'
          else swtch_from i (f s) e'
      | None => swtch_from i (f s) e'
      end
  end.

Definition swtch (i : nat) : K unit := fun s e => swtch_from i s e.

Definition sched : K unit :=
  let! h := holding PtableLock in
  if negb h then panic "sched ptable.lock" else
  let! hs := gets held in
  if negb (length hs =? 1)%nat then panic "sched locks" else
  let! i := curproc_idx in
  let! p := proc_at i in
  if bool_decide (p_state p = RUNNING) then panic "sched running" else
  swtch i.

Definition yield : K unit :=
  do acquire PtableLock;
  do upd_myproc (set_p_state RUNNABLE);
  do sched;
  release PtableLock.

Definition wakeup1 (ch : option chan) (t : list proc) : list proc :=
  (fun p => if bool_decide (p_state p = SLEEPING /\ p_chan p = ch)
            then set_p_state RUNNABLE p else p) <$> t.

Definition wakeup (ch : chan) : K unit :=
  do acquire PtableLock;
  do modify (fun s => set_ptable (wakeup1 (Some ch) (ptable s)) s);
  release PtableLock.

Definition sleep (ch : chan) (lk : lockid) : K unit :=
  let! c := gets curproc in
  match c with
  | None => panic "sleep"
  | Some _ =>
      do when (negb (bool_decide (lk = PtableLock)))
           (do acquire PtableLock; release lk);
      do upd_myproc (fun p => set_p_state SLEEPING (set_p_chan (Some ch) p));
      do sched;
      do upd_myproc (set_p_chan None);
      when (negb (bool_decide (lk = PtableLock)))
        (do release PtableLock; acquire lk)
  end.

(** ** Lemmas *)
Lemma release_held (l : lockid) (hs : list lockid) :
  l ∉ hs -> filter (fun x => x ≠ l) (l :: hs) = hs.
Proof. intros H. rewrite filter_cons_False by (by intros []). by apply filter_ne_notin. Qed.

Lemma set_held_same s : set_held (held s) s = s.
Proof. by destruct s. Qed.

Lemma holding_runs l s : runs (holding l) s (bool_decide (l ∈ held s)) s.
Proof. by intros e. Qed.

Lemma acquire_runs l s :
  l ∉ held s -> runs (acquire l) s tt (set_held (l :: held s) s).
Proof.
  intros H e. unfold acquire, holding, bind, gets.
  by rewrite bool_decide_eq_false_2.
Qed.

Lemma acquire_panics l s e :
  l ∈ held s -> acquire l s e = Panic "acquire" s.
Proof.
  intros H. unfold acquire, holding, bind, gets. by rewrite bool_decide_eq_true_2.
Qed.

Lemma release_runs l s hs :
  held s = l :: hs -> l ∉ hs -> runs (release l) s tt (set_held hs s).
Proof.
  intros H Hl e. unfold release, holding, bind, gets. rewrite H.
  rewrite bool_decide_eq_true_2 by (by left). cbn [negb].
  unfold modify. by rewrite H, release_held.
Qed.

Lemma wp_acquire l s (Q : unit -> kstate -> Prop) :
  l ∉ held s -> Q tt (set_held (l :: held s) s) -> wp (acquire l) s Q.
Proof. intros. eapply runs_wp; [by apply acquire_runs|done]. Qed.

Lemma wp_release l s hs (Q : unit -> kstate -> Prop) :
  held s = l :: hs -> l ∉ hs -> Q tt (set_held hs s) -> wp (release l) s Q.
Proof. intros. eapply runs_wp; [by apply release_runs|done]. Qed.

(** [P'] is [P] but for sleepers that have been woken. *)
Definition woken (P P' : list proc) : Prop :=
  Forall2 (fun p q => q = p \/ p_state p = SLEEPING /\ q = set_p_state RUNNABLE p) P P'.

#[export] Instance woken_preorder : PreOrder woken.
Proof.
  split.
  - intros P. apply Forall2_same_length_lookup_2; [done|]. intros i p q Hp Hq. rewrite Hp in Hq. injection Hq as <-. by left.
  - intros P1 P2 P3 H12. revert P3. induction H12 as [|p q P1 P2 Hpq _ IH]; intros P3 H23; inversion H23 as [|? r ? ? Hqr Ht]; subst; constructor; [|by apply IH].
    destruct Hpq as [->|[Hp ->]], Hqr as [->|[Hq ->]]; [by left|by right|by right|done].
Qed.

Lemma wakeup1_woken ch t : woken t (wakeup1 ch t).
Proof.
  unfold woken, wakeup1. induction t as [|x t IH]; cbn; constructor; [|exact IH].
  case_bool_decide as H; [right; by split; [apply H|]|by left].
Qed.

Lemma wakeup1_length ch t : length (wakeup1 ch t) = length t.
Proof. apply length_fmap. Qed.

Lemma wakeup_runs ch s :
  PtableLock ∉ held s ->
  runs (wakeup ch) s tt (set_ptable (wakeup1 (Some ch) (ptable s)) s).
Proof.
  intros H. unfold wakeup.
  eapply runs_bind; [by apply acquire_runs|].
  eapply (runs_bind _ _ _ tt); [by intros e|].
  intros e. rewrite (release_runs _ _ (held s)); [|done|done].
  by destruct s.
Qed.

Lemma wp_wakeup ch s (Q : unit -> kstate -> Prop) :
  PtableLock ∉ held s ->
  Q tt (set_ptable (wakeup1 (Some ch) (ptable s)) s) -> wp (wakeup ch) s Q.
Proof. intros. eapply runs_wp; [by apply wakeup_runs|done]. Qed.

(** ** Sleeping *)
Lemma acquire_progress l : progress 0 (acquire l).
Proof. unfold acquire, holding. eauto 10 with kern. Qed.

Lemma release_progress l : progress 0 (release l).
Proof. unfold release, holding. eauto 10 with kern. Qed.

Lemma upd_myproc_progress f : progress 0 (upd_myproc f).
Proof. unfold upd_myproc, curproc_idx, upd_proc, proc_at. eauto 10 with kern. Qed.

Lemma swtch_progress i : progress 1 (swtch i).
Proof.
  intros s e. unfold swtch. revert s. induction e as [|f e IH]; intros s; cbn; [done|].
  assert (forall o : outcome kstate unit, match o with
      Ok _ _ e' => (length e' + 1 <= length e)%nat | Hang _ => False | _ => True end ->
    match o with
      Ok _ _ e' => (length e' + 1 <= S (length e))%nat | Hang _ => False | _ => True end)
    as Hm by (intros [] H; try done; lia).
  destruct (ptable (f s) !! i); [case_bool_decide|]; [lia|apply Hm, IH..].
Qed.

Lemma sched_progress : progress 1 sched.
Proof.
  unfold sched, holding, curproc_idx, proc_at.
  apply (progress_bind 0 1); [auto with kern|intros h].
  apply progress_if; [apply progress_panic|].
  apply (progress_bind 0 1); [auto with kern|intros hs].
  apply progress_if; [apply progress_panic|].
  apply (progress_bind 0 1); [auto with kern|intros i].
  apply (progress_bind 0 1); [auto with kern|intros p].
  apply progress_if; [apply progress_panic|apply swtch_progress].
Qed.

#[export] Hint Resolve acquire_progress release_progress upd_myproc_progress
  : kern.

(** [sleep] sleeps. *)
Lemma sleep_progress ch lk : progress 1 (sleep ch lk).
Proof.
  unfold sleep. apply (progress_bind 0 1); [auto with kern|intros [i|]];
    [|apply progress_panic].
  apply (progress_bind 0 1); [eauto with kern|intros _].
  apply (progress_bind 0 1); [eauto with kern|intros _].
  apply (progress_bind 1 0); [apply sched_progress|intros _]. eauto 10 with kern.
Qed.

(** A process is resumed by the scheduler only after it was made RUNNABLE,
    and then holds exactly the process table lock. *)
Lemma swtch_resumes i s e s' e' :
  swtch i s e = Ok tt s' e' ->
  held s' = [PtableLock] /\ curproc s' = Some i /\
  exists p, ptable s' !! i = Some (set_p_state RUNNING p) /\
            p_state p = RUNNABLE.
Proof.
  unfold swtch. revert s. induction e as [|f e IH]; intros s; simpl; [done|].
  destruct (ptable (f s) !! i) as [p|] eqn:Hp; [|by apply IH].
  case_bool_decide; [|by apply IH].
  intros [= <- <-]. cbn. repeat split. exists p. split; [|done].
  apply list_lookup_insert_eq. by apply lookup_lt_Some in Hp.
Qed.

Lemma swtch_resumes_witness : exists s',
  swtch 0 (reset_state ∅ 0 [zero_proc] 0) [set_ptable [set_p_state RUNNABLE zero_proc]] = Ok tt s' [] /\
  held s' = [PtableLock] /\ curproc s' = Some 0%nat.
Proof.
  eexists. split; [reflexivity|].
  edestruct (swtch_resumes 0 (reset_state ∅ 0 [zero_proc] 0)
    [set_ptable [set_p_state RUNNABLE zero_proc]]) as (H1 & H2 & _); [reflexivity|]. done.
Defined.
