(* ===== verification/Kalloc.v ===== *)
(** * The page allocator: kalloc.c

    Free pages form a list threaded through their own first words, which
    [free_list] describes; [kalloc] and [kfree] pop and push it. *)

From S2P Require Import Prelude Bytes Kstate Sync.
Local Open Scope Z_scope.

(** ** mmu.h, memlayout.h *)
Definition PGSIZE : Z := 4096.
Definition KERNBASE : Z := 2 ^ 31.
Definition PHYSTOP : Z := 234881024.
Definition PGROUNDUP (sz : Z) : Z := Z.land (u32 (sz + PGSIZE - 1)) (Z.lnot (PGSIZE - 1)).
Definition PGROUNDDOWN (a : Z) : Z := Z.land a (Z.lnot (PGSIZE - 1)).
Definition v2p (a : Z) : Z := u32 (a - KERNBASE).
Definition p2v (a : Z) : Z := u32 (a + KERNBASE).

(** [data] and [end], which the linker script defines: the start of the kernel's
    data, on a page of its own, and the first address after it. *)
Class Layout := {
  kdata : Z;
  kend : Z;
  kdata_range : KERNBASE + 1048576 < kdata < kend;
  kdata_page : kdata mod PGSIZE = 0;
  kend_range : KERNBASE < kend < KERNBASE + PHYSTOP
}.

(** ** Memory words *)
Definition word_at (m : gmap Z Z) (a : Z) : Z := default 0 (m !! a).

Definition load (a : Z) : K Z := gets (fun s => word_at (mem s) a).
Definition store (a v : Z) : K unit :=
  modify (fun s => set_mem (<[a := u32 v]> (mem s)) s).

(** [memset(v, c, PGSIZE)], by words. *)
Definition fill_words (a w : Z) (n : nat) (m : gmap Z Z) : gmap Z Z :=
  foldl (fun m i => <[a + 4 * Z.of_nat i := w]> m) m (seq 0 n).
Definition fill_page (v c : Z) : K unit :=
  modify (fun s => set_mem (fill_words v (c * 16843009) 1024 (mem s)) s).

Definition upd_kmem (f : kmemst -> kmemst) : K unit :=
  modify (fun s => set_kmem (f (kmem s)) s).

(** [if(kmem.use_lock) m] *)
Definition if_use_lock (m : K unit) : K unit :=
  let! k := gets kmem in when (km_use_lock k) m.

Section Kalloc.
Context {Lay : Layout}.

Definition kfree (v : Z) : K unit :=
  if negb (v mod PGSIZE =? 0) || (v <? kend) || (PHYSTOP <=? v2p v)
  then panic "kfree" else
  do fill_page v 1;
  do if_use_lock (acquire KmemLock);
  do upd_kmem (fun k => set_km_numfreepages (km_numfreepages k + 1) k);
  let! k := gets kmem in
  do store v (km_freelist k);
  do upd_kmem (set_km_freelist v);
  if_use_lock (release KmemLock).

Definition kalloc : K Z :=
  do if_use_lock (acquire KmemLock);
  do upd_kmem (fun k => set_km_numfreepages (km_numfreepages k - 1) k);
  let! k := gets kmem in
  let r := km_freelist k in
  do when (negb (r =? 0))
    (let! next := load r in
     upd_kmem (set_km_freelist next));
  do if_use_lock (release KmemLock);
  ret r.

Definition freemem : K Z :=
  let! k := gets kmem in ret (km_numfreepages k).

Fixpoint freerange_loop (fuel : nat) (p vend : Z) : K unit :=
  if negb (u32 (p + PGSIZE) <=? vend) then ret tt else
  do kfree p;
  match fuel with O => hang | S f => freerange_loop f (u32 (p + PGSIZE)) vend end.

Definition freerange (vstart vend : Z) : K unit :=
  freerange_loop (Z.to_nat (vend / PGSIZE)) (PGROUNDUP vstart) vend.

Definition kinit1 (vstart vend : Z) : K unit :=
  do upd_kmem (set_km_use_lock false);
  freerange vstart vend.

Definition kinit2 (vstart vend : Z) : K unit :=
  do freerange vstart vend;
  upd_kmem (set_km_use_lock true).

(** ** The free list *)
Definition page (v : Z) : Prop :=
  v mod PGSIZE = 0 /\ kend <= v < KERNBASE + PHYSTOP.

Fixpoint free_list (m : gmap Z Z) (head : Z) (l : list Z) : Prop :=
  match l with
  | [] => head = 0
  | v :: l' => head = v /\ page v /\ free_list m (word_at m v) l'
  end.

(** The allocator holds the pages [l], each once. *)
Record kmem_rep (s : kstate) (l : list Z) : Prop := {
  kr_list : free_list (mem s) (km_freelist (kmem s)) l;
  kr_nodup : NoDup l
}.

(** ** Lemmas *)
Lemma fill_words_other a w n m b :
  (forall i, (i < n)%nat -> b <> a + 4 * Z.of_nat i) ->
  fill_words a w n m !! b = m !! b.
Proof.
  intros H. unfold fill_words. induction n as [|n IH]; [done|].
  rewrite seq_S, foldl_snoc. rewrite lookup_insert_ne by (symmetry; apply H; lia).
  apply IH. intros i Hi. apply H. lia.
Qed.

Lemma free_list_ext m m' head l :
  (forall v, v ∈ l -> m' !! v = m !! v) -> free_list m head l -> free_list m' head l.
Proof.
  revert head. induction l as [|v l IH]; intros head Hm; cbn; [done|].
  intros (-> & Hp & Hl). split; [done|]. split; [done|]. unfold word_at.
  rewrite Hm by set_solver. apply IH; [|done]. set_solver.
Qed.

Lemma page_words v b i :
  page v -> page b -> b <> v -> (i < 1024)%nat -> b <> v + 4 * Z.of_nat i.
Proof.
  intros [Hv _] [Hb _] Hne Hi ->. unfold PGSIZE in *.
  pose proof (Z.div_mod v 4096). pose proof (Z.div_mod (v + 4 * Z.of_nat i) 4096).
  apply Hne. rewrite <- (Z.mod_small (4 * Z.of_nat i) 4096) in Hb by lia.
  rewrite Z.add_mod, Hv, Z.add_0_l, !Z.mod_mod, Z.mod_small in Hb by lia. lia.
Qed.

Lemma page_pos v : page v -> v <> 0 /\ 0 <= v < 2 ^ 32.
Proof.
  intros [_ Hv]. pose proof kend_range. unfold KERNBASE, PHYSTOP in *. lia.
Qed.

Lemma if_use_lock_acquire s :
  KmemLock ∉ held s ->
  runs (if_use_lock (acquire KmemLock)) s tt
    (if km_use_lock (kmem s) then set_held (KmemLock :: held s) s else s).
Proof.
  intros H e. unfold if_use_lock, bind at 1, gets, when.
  destruct (km_use_lock (kmem s)); [by apply acquire_runs|done].
Qed.

Lemma if_use_lock_release s hs :
  held s = (if km_use_lock (kmem s) then KmemLock :: hs else hs) -> KmemLock ∉ hs ->
  runs (if_use_lock (release KmemLock)) s tt (set_held hs s).
Proof.
  intros H Hn e. unfold if_use_lock, bind at 1, gets, when.
  destruct (km_use_lock (kmem s)); [by apply release_runs|].
  by rewrite <- H, set_held_same.
Qed.

Lemma free_list_pages m head l v : free_list m head l -> v ∈ l -> page v.
Proof.
  revert head. induction l as [|w l IH]; intros head; cbn; [set_solver|].
  intros (_ & Hp & Hl) [->|Hv]%elem_of_cons; [done|]. by eapply IH.
Qed.

(** [kfree v] pushes [v]. *)
Definition pushed (v : Z) (s : kstate) : kstate :=
  set_kmem (mkKmem (km_use_lock (kmem s)) v (km_numfreepages (kmem s) + 1))
    (set_mem (<[v := u32 (km_freelist (kmem s))]>
                (fill_words v (1 * 16843009) 1024 (mem s))) s).

(** [kalloc] pops. *)
Definition popped (s : kstate) : kstate :=
  let r := km_freelist (kmem s) in
  set_kmem (mkKmem (km_use_lock (kmem s)) (if r =? 0 then r else word_at (mem s) r)
              (km_numfreepages (kmem s) - 1)) s.

Lemma kfree_runs s v :
  page v -> KmemLock ∉ held s -> runs (kfree v) s tt (pushed v s).
Proof.
  intros Hp Hh e. unfold kfree.
  replace (negb (v mod PGSIZE =? 0) || (v <? kend) || (PHYSTOP <=? v2p v)) with false.
  2: { symmetry. destruct Hp as [Hal Hr]. rewrite Hal. cbn. pose proof kend_range.
    unfold v2p. rewrite u32_small by (unfold KERNBASE, PHYSTOP in *; lia).
    apply orb_false_iff. split; lia. }
  unfold bind at 1, fill_page, modify. unfold bind at 1.
  rewrite if_use_lock_acquire by done. cbn [kmem set_mem].
  unfold bind at 1, upd_kmem at 1, modify. unfold bind at 1, gets at 1.
  unfold bind at 1, store, modify. unfold bind at 1, upd_kmem, modify.
  rewrite (if_use_lock_release _ (held s)); [| |done].
  - unfold pushed. generalize (fill_words v (1 * 16843009) 1024 (mem s)). intros m1.
    destruct s as [? ? ? ? ? ? ? [u f n] ? ? ? ? ? ? ? ? ? ? ?]. by destruct u.
  - generalize (fill_words v (1 * 16843009) 1024 (mem s)). intros m1.
    destruct s as [? ? ? ? ? ? ? [u f n] ? ? ? ? ? ? ? ? ? ? ?]. by destruct u.
Qed.

Lemma kalloc_runs s :
  KmemLock ∉ held s -> runs kalloc s (km_freelist (kmem s)) (popped s).
Proof.
  intros Hh e. unfold kalloc. unfold bind at 1. rewrite if_use_lock_acquire by done.
  unfold bind at 1, upd_kmem at 1, modify. unfold bind at 1, gets at 1.
  cbv zeta. unfold popped. destruct s as [h ? ? ? ? ? ? [u f n] ? ? ? ? ? ? ? ? ? ? ?].
  assert (forall s1, held s1 = (if u then KmemLock :: h else h) ->
    km_use_lock (kmem s1) = u ->
    if_use_lock (release KmemLock) s1 e = Ok tt (set_held h s1) e) as Hrel.
  { intros s1 H1 H2. apply if_use_lock_release; [by rewrite H2|done]. }
  destruct u; cbn [kmem set_held set_kmem km_freelist km_use_lock set_km_numfreepages];
    destruct (Z.eqb_spec f 0) as [->|Hf]; unfold bind, when; cbn [negb];
    unfold ret, load, gets, upd_kmem, modify; by rewrite Hrel.
Qed.

Lemma kfree_spec s v l :
  kmem_rep s l -> page v -> v ∉ l -> kmem_rep (pushed v s) (v :: l).
Proof.
  intros [Hl Hnd] Hp Hv. pose proof (page_pos v Hp) as [Hv0 Hv32].
  split; [|by constructor]. split; [done|]. split; [done|].
  change (mem (pushed v s)) with (<[v := u32 (km_freelist (kmem s))]>
    (fill_words v (1 * 16843009) 1024 (mem s))).
  unfold word_at. rewrite lookup_insert_eq. cbn [default from_option].
  rewrite u32_small.
  - apply (free_list_ext (mem s)); [|done]. intros w Hw.
    rewrite lookup_insert_ne by set_solver. apply fill_words_other. intros i Hi.
    apply page_words; [done|by eapply free_list_pages|set_solver|done].
  - destruct l as [|w l]; [cbn in Hl; lia|].
    destruct Hl as (-> & [_ Hw]%page_pos & _). lia.
Qed.

Lemma pushed_mem s v a : ~ v <= a < v + PGSIZE -> mem (pushed v s) !! a = mem s !! a.
Proof.
  intros Ha. unfold PGSIZE in Ha.
  change (mem (pushed v s)) with (<[v := u32 (km_freelist (kmem s))]>
    (fill_words v (1 * 16843009) 1024 (mem s))).
  rewrite lookup_insert_ne by lia. apply fill_words_other. lia.
Qed.

Lemma kalloc_spec s l :
  kmem_rep s l ->
  kmem_rep (popped s) (tail l) /\ km_freelist (kmem s) = default 0 (head l).
Proof.
  intros [Hl Hnd]. unfold popped. destruct l as [|v l].
  - cbn in Hl. rewrite Hl. split; [by split|done].
  - destruct Hl as (Hv & Hp & Hl). pose proof (page_pos v Hp). rewrite Hv.
    rewrite (proj2 (Z.eqb_neq v 0)) by lia. split; [|done].
    split; [done|]. by apply list.NoDup_cons in Hnd as [_ ?].
Qed.

(** ** freerange *)
Definition pages_from (p : Z) (n : nat) : list Z :=
  (fun i => p + Z.of_nat i * PGSIZE) <$> seq 0 n.

Lemma pages_from_S p n : pages_from p (S n) = p :: pages_from (p + PGSIZE) n.
Proof.
  unfold pages_from. cbn [seq fmap list_fmap]. f_equal; [lia|].
  rewrite <- fmap_S_seq, <- list_fmap_compose. apply list_fmap_ext. intros i x _. cbn. lia.
Qed.

(** What freeing the pages [ps] leaves alone. *)
Definition freed_frame (ps : list Z) (s s' : kstate) : Prop :=
  s' = set_mem (mem s') (set_kmem (kmem s') s) /\ km_use_lock (kmem s') = km_use_lock (kmem s) /\
  forall a, (forall v, v ∈ ps -> ~ v <= a < v + PGSIZE) -> mem s' !! a = mem s !! a.

Lemma freed_frame_cons p ps s s' : freed_frame ps (pushed p s) s' -> freed_frame (p :: ps) s s'.
Proof.
  intros (H1 & H2 & H3). split; [by rewrite H1|]. split; [done|]. intros a Ha.
  rewrite H3 by (intros v Hv; apply Ha; by right). apply pushed_mem, Ha. by left.
Qed.

Lemma freerange_loop_spec n : forall fuel p vend s l,
  (n <= fuel)%nat -> 0 <= p -> vend + PGSIZE < 2 ^ 32 -> 0 <= vend - (p + Z.of_nat n * PGSIZE) < PGSIZE ->
  kmem_rep s l -> KmemLock ∉ held s ->
  (forall v, v ∈ pages_from p n -> page v /\ v ∉ l) ->
  wp (freerange_loop fuel p vend) s (fun _ s' =>
    kmem_rep s' (reverse (pages_from p n) ++ l) /\ freed_frame (pages_from p n) s s' /\
    km_numfreepages (kmem s') = km_numfreepages (kmem s) + Z.of_nat n).
Proof.
  induction n as [|n IH]; intros fuel p vend s l Hf Hp0 Hend Hv Hk Hh Hp; unfold PGSIZE in *.
  - destruct fuel; cbn [freerange_loop]; rewrite (u32_small (p + PGSIZE)) by (unfold PGSIZE; lia); (apply wp_if_true; [unfold PGSIZE; lia|]);
      (apply wp_ret; split; [done|split; [by destruct s|lia]]).
  - destruct fuel as [|fuel]; [lia|]. cbn [freerange_loop]. rewrite (u32_small (p + PGSIZE)) by (unfold PGSIZE; lia).
    apply wp_if_false; [unfold PGSIZE; lia|].
    rewrite pages_from_S in Hp. destruct (Hp p) as [Hpp Hpl]; [set_solver|].
    eapply wp_bind_runs; [by apply kfree_runs|].
    eapply wp_mono; [apply (IH fuel (p + PGSIZE) vend (pushed p s) (p :: l)); try done|].
    + lia.
    + unfold PGSIZE. lia.
    + unfold PGSIZE. lia.
    + by apply kfree_spec.
    + intros v Hvp. destruct (Hp v) as [H1 H2]; [set_solver|]. split; [done|].
      apply not_elem_of_cons. split; [|done]. intros ->.
      unfold pages_from in Hvp. apply list_elem_of_fmap in Hvp as (i & Hi & _).
      unfold PGSIZE in Hi. lia.
    + intros ? s' (H1 & H2 & H3). rewrite pages_from_S. split; [|split].
      * rewrite reverse_cons, <- app_assoc. exact H1.
      * by apply freed_frame_cons.
      * rewrite H3. unfold pushed. cbn -[fill_words]. lia.
Qed.

(** ** The theorems *)

(** [kalloc] hands out the page at the head of the free list, which is no
    longer on the list, and no memory changes; with no page left it returns
    the null pointer and the list stays empty. *)
Theorem kalloc_pops s l :
  kmem_rep s l -> KmemLock ∉ held s ->
  wp kalloc s (fun r s' => mem s' = mem s /\ held s' = held s /\
    match l with
    | [] => r = 0 /\ kmem_rep s' []
    | v :: l' => r = v /\ page v /\ (v ∉ l') /\ kmem_rep s' l'
    end).
Proof.
  intros Hk Hh. eapply runs_wp; [by apply kalloc_runs|].
  destruct (kalloc_spec s l Hk) as [Hk' Hr]. do 2 (split; [done|]).
  destruct l as [|v l]; [done|]. split; [done|]. destruct Hk as [Hl Hn].
  split; [apply Hl|]. apply list.NoDup_cons in Hn as [Hn _]. done.
Qed.

(** [kfree] of a page that is not free puts it at the head of the list;
    only the memory of the page changes. *)
Theorem kfree_pushes s l v :
  kmem_rep s l -> page v -> v ∉ l -> KmemLock ∉ held s ->
  wp (kfree v) s (fun _ s' => kmem_rep s' (v :: l) /\ held s' = held s /\
    forall a, ~ v <= a < v + PGSIZE -> mem s' !! a = mem s !! a).
Proof.
  intros Hk Hp Hv Hh. eapply runs_wp; [by apply kfree_runs|].
  split; [by apply kfree_spec|]. split; [done|]. apply pushed_mem.
Qed.

(** [freerange] puts every whole page of the range on the list, once. *)
Theorem freerange_pages s l vstart vend n :
  kmem_rep s l -> KmemLock ∉ held s -> vend + PGSIZE < 2 ^ 32 ->
  0 <= vend - (PGROUNDUP vstart + Z.of_nat n * PGSIZE) < PGSIZE ->
  (forall v, v ∈ pages_from (PGROUNDUP vstart) n -> page v /\ v ∉ l) ->
  wp (freerange vstart vend) s (fun _ s' =>
    kmem_rep s' (reverse (pages_from (PGROUNDUP vstart) n) ++ l) /\
    freed_frame (pages_from (PGROUNDUP vstart) n) s s' /\
    km_numfreepages (kmem s') = km_numfreepages (kmem s) + Z.of_nat n).
Proof.
  intros Hk Hh Hend Hv Hp. assert (0 <= PGROUNDUP vstart).
  { unfold PGROUNDUP. apply Z.land_nonneg. left. apply u32_range. }
  eapply wp_mono; [apply (freerange_loop_spec n); try done|].
  - apply Nat2Z.inj_le. rewrite Z2Nat.id by (apply Z.div_pos; unfold PGSIZE in *; lia).
    apply Z.div_le_lower_bound; unfold PGSIZE in *; lia.
  - done.
Qed.

(** [kalloc] counts a page as used even when it has none to give: a failed
    allocation leaves [numfreepages] one below the number of free pages. *)
Theorem kalloc_failure_count s :
  kmem_rep s [] -> km_numfreepages (kmem s) = 0 -> KmemLock ∉ held s ->
  wp (do kalloc; freemem) s (fun n s' => n = -1 /\ kmem_rep s' []).
Proof.
  intros Hk Hn Hh. eapply wp_bind_runs; [by apply kalloc_runs|].
  apply wp_bind, wp_gets. apply wp_ret. split; [by cbn; rewrite Hn|].
  by apply (kalloc_spec s []).
Qed.
End Kalloc.
Arguments fill_words : simpl never.

(** ** Examples *)

(** Kernel data at 0x80108000, the first page after the kernel at 0x80110000. *)
Definition small_layout : Layout.
Proof.
  refine {| kdata := 2148564992; kend := 2148597760 |}; by vm_compute.
Defined.

(** Two free pages, the second one first. *)
Definition two_pages : kstate :=
  set_mem {[ 2148601856 := 2148597760; 2148597760 := 0 ]}
    (set_kmem (mkKmem true 2148601856 2) (reset_state ∅ 0 [] 0)).

Lemma two_pages_rep : kmem_rep (Lay := small_layout) two_pages [2148601856; 2148597760].
Proof.
  split; [by vm_compute; repeat split|]. repeat constructor; rewrite ?list_elem_of_In; cbn; lia.
Qed.

Lemma kalloc_pops_witness :
  wp kalloc two_pages (fun r s' =>
    r = 2148601856 /\ kmem_rep (Lay := small_layout) s' [2148597760]).
Proof.
  eapply wp_mono; [apply (kalloc_pops (Lay := small_layout) _ [2148601856; 2148597760])|].
  - apply two_pages_rep.
  - cbn. set_solver.
  - by intros r s' (_ & _ & -> & _ & _ & H).
Defined.

Lemma kfree_pushes_witness :
  wp (kfree (Lay := small_layout) 2148605952) two_pages (fun _ s' =>
    kmem_rep (Lay := small_layout) s' [2148605952; 2148601856; 2148597760]).
Proof.
  eapply wp_mono; [apply (kfree_pushes (Lay := small_layout) _ [2148601856; 2148597760])|].
  - apply two_pages_rep.
  - split; [done|]. cbn. unfold KERNBASE, PHYSTOP. lia.
  - rewrite list_elem_of_In. cbn. lia.
  - cbn. set_solver.
  - by intros r s' (H & _).
Defined.

Lemma freerange_pages_witness :
  wp (freerange (Lay := small_layout) 2148605953 2148618240) two_pages (fun _ s' =>
    kmem_rep (Lay := small_layout) s' [2148614144; 2148610048; 2148601856; 2148597760]).
Proof.
  eapply wp_mono; [apply (freerange_pages (Lay := small_layout) _ [2148601856; 2148597760] _ _ 2)|].
  - apply two_pages_rep.
  - cbn. set_solver.
  - by vm_compute.
  - by vm_compute.
  - intros v. change (pages_from (PGROUNDUP 2148605953) 2) with [2148610048; 2148614144].
    rewrite list_elem_of_In. intros [<-|[<-|[]]]; (split; [split; [done|]|]);
      cbn; unfold KERNBASE, PHYSTOP; rewrite ?list_elem_of_In; cbn; lia.
  - by intros r s' (H & _).
Defined.

Lemma kalloc_failure_count_witness :
  wp (do kalloc; freemem) (reset_state ∅ 0 [] 0) (fun n _ => n = -1).
Proof.
  eapply wp_mono; [apply (kalloc_failure_count (Lay := small_layout))|].
  - split; [done|]. constructor.
  - done.
  - cbn. set_solver.
  - by intros n s' [-> _].
Defined.
