(* ===== verification/Spinlock.v ===== *)
(** * Spinlocks on several CPUs: spinlock.c

    The state of every lock and of every CPU, and the atomic steps of
    [acquire] and [release]: each access to a lock shared with other CPUs is a
    step of its own, so that the window between the [xchg] and the recording of
    the owner is visible.  [c_held] is not in the source; it lists the locks a
    CPU has acquired.  The theorems give mutual exclusion, that interrupts stay
    off while a lock is held, and that [holding] tells exactly the locks of the
    CPU that asks, which is the view [Sync] takes. *)

From stdpp Require Import functions.
From S2P Require Import Prelude Bytes Kstate Kalloc.
Local Open Scope Z_scope.

Module Spin.

(** ** Data *)
Record spinlock := mkLock { lk_locked : Z; lk_cpu : option nat; lk_pcs : list Z }.

Definition initlock : spinlock := mkLock 0 None (replicate 10 0).

(** Where a CPU is in [acquire] or [release]. *)
Inductive cpc : Type :=
| Run                     (* elsewhere *)
| Spin (l : nat)          (* in the loop of [acquire] *)
| Won (l : nat)           (* past the loop, the owner not yet recorded *)
| Leaving (l : nat).      (* in [release], the owner cleared *)

Record cpu := mkCpu {
  c_ncli : Z; c_intena : bool; c_if : bool; c_pc : cpc; c_held : list nat
}.

Record machine := mkMachine {
  m_locks : nat -> spinlock; m_cpus : nat -> cpu; m_panic : option string
}.

Definition set_cpu (i : nat) (c : cpu) (m : machine) : machine :=
  mkMachine (m_locks m) (<[i := c]> (m_cpus m)) (m_panic m).
Definition set_lock (l : nat) (k : spinlock) (m : machine) : machine :=
  mkMachine (<[l := k]> (m_locks m)) (m_cpus m) (m_panic m).
Definition set_panic (msg : string) (m : machine) : machine :=
  mkMachine (m_locks m) (m_cpus m) (Some msg).
Definition set_pc (pc : cpc) (c : cpu) : cpu :=
  mkCpu (c_ncli c) (c_intena c) (c_if c) pc (c_held c).
Definition set_c_held (h : list nat) (c : cpu) : cpu :=
  mkCpu (c_ncli c) (c_intena c) (c_if c) (c_pc c) h.

(** ** Operations *)
Definition pushcli (c : cpu) : cpu :=
  mkCpu (c_ncli c + 1) (if c_ncli c =? 0 then c_if c else c_intena c) false
    (c_pc c) (c_held c).

Definition popcli (c : cpu) : string + cpu :=
  if c_if c then inl "popcli - interruptible" else
  let n := c_ncli c - 1 in
  if n <? 0 then inl "popcli" else
  inr (mkCpu n (c_intena c) ((n =? 0) && c_intena c) (c_pc c) (c_held c)).

Definition holding (m : machine) (i l : nat) : bool :=
  let k := m_locks m l in
  negb (lk_locked k =? 0) && bool_decide (lk_cpu k = Some i).

(** The frames of the %ebp chain from [ebp], at most [n] of them. *)
Fixpoint walk_ebp (w : gmap Z Z) (n : nat) (ebp : Z) : list Z :=
  match n with
  | O => []
  | S n' =>
      if (ebp =? 0) || (ebp <? KERNBASE) || (ebp =? 4294967295)
      then replicate n 0
      else word_at w (ebp + 4) :: walk_ebp w n' (word_at w ebp)
  end.

Definition getcallerpcs (w : gmap Z Z) (v : Z) : list Z := walk_ebp w 10 (v - 8).

(** [acquire] up to its loop. *)
Definition acquire_start (i l : nat) (m : machine) : machine :=
  let c := pushcli (m_cpus m i) in
  let m := set_cpu i c m in
  if holding m i l then set_panic "acquire" m else set_cpu i (set_pc (Spin l) c) m.

(** One [xchg(&lk->locked, 1)]. *)
Definition acquire_xchg (i l : nat) (m : machine) : machine :=
  let k := m_locks m l in
  let m' := set_lock l (mkLock 1 (lk_cpu k) (lk_pcs k)) m in
  if negb (lk_locked k =? 0) then m' else set_cpu i (set_pc (Won l) (m_cpus m i)) m'.

(** The rest of [acquire]; [w] and [v] are the stack it walks. *)
Definition acquire_done (i l : nat) (w : gmap Z Z) (v : Z) (m : machine) : machine :=
  let k := m_locks m l in
  let c := m_cpus m i in
  set_cpu i (set_c_held (l :: c_held c) (set_pc Run c))
    (set_lock l (mkLock (lk_locked k) (Some i) (getcallerpcs w v)) m).

(** [release] up to its [xchg]. *)
Definition release_start (i l : nat) (m : machine) : machine :=
  if negb (holding m i l) then set_panic "release" m else
  let k := m_locks m l in
  set_cpu i (set_pc (Leaving l) (m_cpus m i))
    (set_lock l (mkLock (lk_locked k) None (<[0%nat := 0]> (lk_pcs k))) m).

(** [xchg(&lk->locked, 0); popcli();] *)
Definition release_xchg (i l : nat) (m : machine) : machine :=
  let k := m_locks m l in
  let m := set_lock l (mkLock 0 (lk_cpu k) (lk_pcs k)) m in
  let c := m_cpus m i in
  match popcli c with
  | inl msg => set_panic msg m
  | inr c' => set_cpu i (set_c_held (filter (fun x => x <> l) (c_held c)) (set_pc Run c')) m
  end.

(** ** Steps of the machine *)
Inductive step : machine -> machine -> Prop :=
| step_acquire i l m :
    m_panic m = None -> c_pc (m_cpus m i) = Run -> step m (acquire_start i l m)
| step_xchg i l m :
    m_panic m = None -> c_pc (m_cpus m i) = Spin l -> step m (acquire_xchg i l m)
| step_done i l w v m :
    m_panic m = None -> c_pc (m_cpus m i) = Won l -> step m (acquire_done i l w v m)
| step_release i l m :
    m_panic m = None -> c_pc (m_cpus m i) = Run -> step m (release_start i l m)
| step_leave i l m :
    m_panic m = None -> c_pc (m_cpus m i) = Leaving l -> step m (release_xchg i l m)
| step_intr i b m :
    m_panic m = None -> c_pc (m_cpus m i) = Run -> c_ncli (m_cpus m i) = 0 ->
    step m (set_cpu i (mkCpu 0 (c_intena (m_cpus m i)) b Run (c_held (m_cpus m i))) m).

Definition boot : machine :=
  mkMachine (fun _ => initlock) (fun _ => mkCpu 0 false false Run []) None.

(** CPU [i] is between its winning [xchg] and the [xchg] that releases [l]. *)
Definition owner (m : machine) (i l : nat) : Prop :=
  l ∈ c_held (m_cpus m i) \/ c_pc (m_cpus m i) = Won l.

Definition pc_depth (pc : cpc) : Z :=
  match pc with Spin _ | Won _ => 1 | _ => 0 end.

Record inv (m : machine) : Prop := {
  i_owner i l : owner m i l -> lk_locked (m_locks m l) = 1;
  i_excl i j l : owner m i l -> owner m j l -> i = j;
  i_free l : lk_locked (m_locks m l) <> 0 -> exists i, owner m i l;
  i_cpu i l : lk_cpu (m_locks m l) = Some i <->
    l ∈ c_held (m_cpus m i) /\ c_pc (m_cpus m i) <> Leaving l;
  i_nodup i : NoDup (c_held (m_cpus m i));
  i_spin i l : c_pc (m_cpus m i) = Spin l \/ c_pc (m_cpus m i) = Won l ->
    l ∉ c_held (m_cpus m i);
  i_leave i l : c_pc (m_cpus m i) = Leaving l -> l ∈ c_held (m_cpus m i);
  i_ncli i : c_ncli (m_cpus m i) =
    Z.of_nat (length (c_held (m_cpus m i))) + pc_depth (c_pc (m_cpus m i));
  i_off i : 0 < c_ncli (m_cpus m i) -> c_if (m_cpus m i) = false
}.

End Spin.
Import Spin.

(** ** Nesting of pushcli and popcli *)
Lemma popcli_pushcli c :
  0 <= c_ncli c -> (0 < c_ncli c -> c_if c = false) ->
  exists b, popcli (pushcli c) = inr (mkCpu (c_ncli c) b (c_if c) (c_pc c) (c_held c)) /\
    (0 < c_ncli c -> b = c_intena c).
Proof.
  intros Hn Hoff. unfold popcli, pushcli. cbn.
  replace (c_ncli c + 1 - 1 <? 0) with false by lia.
  replace (c_ncli c + 1 - 1) with (c_ncli c) by lia.
  destruct (Z.eqb_spec (c_ncli c) 0) as [H0|H0]; cbn; eexists.
  - split; [done|lia].
  - split; [by rewrite Hoff by lia|done].
Qed.

(** ** The invariant *)
Section Inv.
Context (m : machine) (H : inv m).

Lemma holding_spec i l :
  holding m i l = true <->
  l ∈ c_held (m_cpus m i) /\ c_pc (m_cpus m i) <> Leaving l.
Proof using H.
  unfold holding. rewrite andb_true_iff, bool_decide_eq_true, negb_true_iff, Z.eqb_neq.
  rewrite (i_cpu _ H). split; [tauto|]. intros [H1 H2]. split; [|done].
  rewrite (i_owner _ H i l); [done|by left].
Qed.
End Inv.

Ltac fn_cases :=
  repeat match goal with
  | |- context [ (<[?i := ?x]> ?f) ?i ] => rewrite (fn_lookup_insert f i x)
  | H : ?i <> ?j |- context [ (<[?i := ?x]> ?f) ?j ] => rewrite (fn_lookup_insert_ne f i j x H)
  | |- context [ (<[?i := ?x]> ?f) ?j ] => destruct (decide (i = j)); [subst|]
  end.

Lemma inv_ext m m' :
  (forall l, m_locks m' l = m_locks m l) -> m_cpus m' = m_cpus m -> inv m -> inv m'.
Proof.
  intros HL HC H. assert (forall i l, owner m' i l <-> owner m i l) as Ho.
  { intros i l. unfold owner. by rewrite HC. }
  split.
  - intros i l. rewrite Ho, HL. apply H.
  - intros i j l. rewrite !Ho. apply H.
  - intros l. rewrite HL. intros [j Hj]%(i_free _ H). exists j. by apply Ho.
  - intros i l. rewrite HL, HC. apply H.
  - intros i. rewrite HC. apply H.
  - intros i l. rewrite HC. apply H.
  - intros i l. rewrite HC. apply H.
  - intros i. rewrite HC. apply H.
  - intros i. rewrite HC. apply H.
Qed.

(** A CPU outside the two routines moves into the loop of [acquire], or changes
    its interrupt flag with no lock held. *)
Lemma inv_acquire_start m i l :
  inv m -> c_pc (m_cpus m i) = Run -> m_panic (acquire_start i l m) = None ->
  inv (acquire_start i l m).
Proof.
  intros H Hpc. unfold acquire_start. cbv zeta.
  destruct (holding _ i l) eqn:Hh; [done|]. intros _.
  assert (l ∉ c_held (m_cpus m i)) as Hl.
  { intros Hin. assert (holding m i l = true) as Ht; [|unfold holding in *; cbn in *; congruence].
    apply holding_spec; [done|]. by rewrite Hpc. }
  assert (forall j k, owner (set_cpu i (set_pc (Spin l) (pushcli (m_cpus m i)))
    (set_cpu i (pushcli (m_cpus m i)) m)) j k <-> owner m j k) as Ho.
  { intros j k. unfold owner. cbn. fn_cases; cbn; [rewrite Hpc|done].
    split; (intros [?|?]; [by left|done]). }
  split.
  - intros j k. rewrite Ho. apply H.
  - intros j j' k. rewrite !Ho. apply H.
  - intros k Hk. destruct (i_free _ H k Hk) as [j Hj]. exists j. by apply Ho.
  - intros j k. cbn. rewrite (i_cpu _ H). fn_cases; cbn; [rewrite Hpc|done].
    split; (intros [? _]; split; [done|discriminate]).
  - intros j. cbn. fn_cases; cbn; apply H.
  - intros j k. cbn. fn_cases; cbn; [|apply H]. intros [[= <-]|[=]]. done.
  - intros j k. cbn. fn_cases; cbn; [done|apply H].
  - intros j. cbn. fn_cases; cbn; [|apply H]. rewrite (i_ncli _ H), Hpc. cbn. lia.
  - intros j. cbn. fn_cases; cbn; [done|apply H].
Qed.

Lemma inv_acquire_xchg m i l :
  inv m -> c_pc (m_cpus m i) = Spin l -> inv (acquire_xchg i l m).
Proof.
  intros H Hpc. pose proof (i_spin _ H i l (or_introl Hpc)) as Hl. unfold acquire_xchg. cbv zeta.
  destruct (Z.eqb_spec (lk_locked (m_locks m l)) 0) as [H0|H0]; cbn [negb].
  - (* the lock was free *)
    assert (forall j, ~ owner m j l) as Hfree.
    { intros j Hj%(i_owner _ H). lia. }
    set (m' := set_cpu _ _ _).
    assert (forall j k, owner m' j k <-> owner m j k \/ (j = i /\ k = l)) as Ho.
    { intros j k. unfold owner, m'. cbn. fn_cases; cbn.
      - rewrite Hpc. split; [intros [?|[= <-]]; auto|intros [[?|?]|[_ ->]]; auto; done].
      - naive_solver. }
    split.
    + intros j k. rewrite Ho. cbn. fn_cases; cbn; [done|].
      intros [?|[_ ->]]; [by apply (i_owner _ H j)|done].
    + intros j j' k. rewrite !Ho. intros [H1|[-> ->]] [H2|[-> E2]]; subst; try done.
      * by eapply (i_excl _ H).
      * exfalso. by eapply Hfree.
      * exfalso. by eapply Hfree.
    + intros k. cbn. fn_cases; cbn.
      * intros _. exists i. apply Ho. by right.
      * intros Hk. destruct (i_free _ H k Hk) as [j Hj]. exists j. apply Ho. by left.
    + intros j k. cbn.
      assert (forall k', lk_cpu (<[l := mkLock 1 (lk_cpu (m_locks m l)) (lk_pcs (m_locks m l))]>
        (m_locks m) k') = lk_cpu (m_locks m k')) as Hk by (intros k'; by fn_cases).
      rewrite Hk.
      rewrite (i_cpu _ H). fn_cases; cbn; [rewrite Hpc|done].
      split; (intros [? _]; split; [done|discriminate]).
    + intros j. cbn. fn_cases; cbn; apply H.
    + intros j k. cbn. fn_cases; cbn; [|apply H]. intros [[=]|[= <-]]. done.
    + intros j k. cbn. fn_cases; cbn; [done|apply H].
    + intros j. cbn. fn_cases; cbn; [|apply H]. by rewrite (i_ncli _ H), Hpc.
    + intros j. cbn. fn_cases; cbn; apply H.
  - (* somebody has it: [locked] was 1 already *)
    destruct (i_free _ H l H0) as [o Ho]. pose proof (i_owner _ H _ _ Ho) as H1.
    apply (inv_ext m); [|done|done]. intros k. cbn. fn_cases; [|done].
    rewrite <- H1. by destruct (m_locks m k).
Qed.

Lemma inv_acquire_done m i l w v :
  inv m -> c_pc (m_cpus m i) = Won l -> inv (acquire_done i l w v m).
Proof.
  intros H Hpc. pose proof (i_spin _ H i l (or_intror Hpc)) as Hl. unfold acquire_done.
  assert (owner m i l) as Hown by (by right).
  set (m' := set_cpu _ _ _).
  assert (forall j k, owner m' j k <-> owner m j k) as Ho.
  { intros j k. unfold owner, m'. cbn. fn_cases; cbn; [rewrite Hpc, elem_of_cons|done].
    split; [intros [[->|?]|?]; auto; done|intros [?|[= <-]]; auto]. }
  assert (forall k, lk_locked (m_locks m' k) = lk_locked (m_locks m k)) as HL.
  { intros k. unfold m'. cbn. by fn_cases. }
  split.
  - intros j k. rewrite Ho, HL. apply H.
  - intros j j' k. rewrite !Ho. apply H.
  - intros k. rewrite HL. intros [j Hj]%(i_free _ H). exists j. by apply Ho.
  - intros j k. unfold m'. cbn. destruct (decide (l = k)) as [<-|Hne].
    + rewrite fn_lookup_insert. cbn. fn_cases; cbn.
      * split; [|done]. intros _. split; [set_solver|discriminate].
      * split; [intros [=]; done|]. intros [Hin _]. exfalso.
        assert (j = i) by (eapply (i_excl _ H); [by left|done]). done.
    + rewrite fn_lookup_insert_ne by done. rewrite (i_cpu _ H). fn_cases; cbn; [|done].
      rewrite Hpc, elem_of_cons. split; intros [? ?]; split; try discriminate; set_solver.
  - intros j. unfold m'. cbn. fn_cases; cbn; [|apply H]. constructor; [done|apply H].
  - intros j k. unfold m'. cbn. fn_cases; cbn; [|apply H]. by intros [[=]|[=]].
  - intros j k. unfold m'. cbn. fn_cases; cbn; [done|apply H].
  - intros j. unfold m'. cbn. fn_cases; cbn [set_c_held set_pc c_ncli c_held c_pc]; [|apply H].
    rewrite (i_ncli _ H), Hpc. cbn. lia.
  - intros j. unfold m'. cbn. fn_cases; cbn; apply H.
Qed.

Lemma inv_release_start m i l :
  inv m -> c_pc (m_cpus m i) = Run -> m_panic (release_start i l m) = None ->
  m_panic m = None -> inv (release_start i l m).
Proof.
  intros H Hpc. unfold release_start. destruct (holding m i l) eqn:Hh; cbn [negb]; [|done].
  intros _ _. apply (holding_spec m H) in Hh as [Hin _].
  set (m' := set_cpu _ _ _).
  assert (forall j k, owner m' j k <-> owner m j k) as Ho.
  { intros j k. unfold owner, m'. cbn. fn_cases; cbn; [rewrite Hpc|done].
    split; (intros [?|?]; [by left|done]). }
  assert (forall k, lk_locked (m_locks m' k) = lk_locked (m_locks m k)) as HL.
  { intros k. unfold m'. cbn. by fn_cases. }
  split.
  - intros j k. rewrite Ho, HL. apply H.
  - intros j j' k. rewrite !Ho. apply H.
  - intros k. rewrite HL. intros [j Hj]%(i_free _ H). exists j. by apply Ho.
  - intros j k. unfold m'. cbn. destruct (decide (l = k)) as [<-|Hne].
    + rewrite fn_lookup_insert. cbn. split; [done|]. fn_cases; cbn; [by intros [_ []]|].
      intros [Hj _]. exfalso. assert (j = i) by (eapply (i_excl _ H); by left). done.
    + rewrite fn_lookup_insert_ne by done. rewrite (i_cpu _ H). fn_cases; cbn; [|done].
      rewrite Hpc. split; (intros [? _]; split; [done|]); [|discriminate].
      by intros [= ->].
  - intros j. unfold m'. cbn. fn_cases; cbn; apply H.
  - intros j k. unfold m'. cbn. fn_cases; cbn; [|apply H]. by intros [[=]|[=]].
  - intros j k. unfold m'. cbn. fn_cases; cbn; [|apply H]. by intros [= <-].
  - intros j. unfold m'. cbn. fn_cases; cbn [set_pc c_ncli c_held c_pc]; [|apply H].
    by rewrite (i_ncli _ H), Hpc.
  - intros j. unfold m'. cbn. fn_cases; cbn; apply H.
Qed.

Lemma inv_release_xchg m i l :
  inv m -> c_pc (m_cpus m i) = Leaving l -> inv (release_xchg i l m) /\
  m_panic (release_xchg i l m) = m_panic m.
Proof.
  intros H Hpc. pose proof (i_leave _ H i l Hpc) as Hin. pose proof (i_nodup _ H i) as Hnd.
  pose proof (i_ncli _ H i) as Hn. rewrite Hpc in Hn. cbn in Hn.
  pose proof (filter_ne_length l _ Hnd Hin) as Hlen.
  assert (c_if (m_cpus m i) = false) as Hif by (apply (i_off _ H); lia).
  unfold release_xchg. cbn [m_cpus set_lock]. unfold popcli. rewrite Hif.
  replace (c_ncli (m_cpus m i) - 1 <? 0) with false by lia. cbv zeta.
  split; [|done]. set (m' := set_cpu _ _ _).
  assert (forall j k, owner m' j k <-> owner m j k /\ ~ (j = i /\ k = l)) as Ho.
  { intros j k. unfold owner, m'. cbn. fn_cases; cbn.
    - rewrite Hpc, list_elem_of_filter. naive_solver.
    - naive_solver. }
  split.
  - intros j k. rewrite Ho. intros [Hj Hne]. unfold m'. cbn. fn_cases; cbn.
    + destruct Hne. split; [|done]. eapply (i_excl _ H); [done|by left].
    + by apply (i_owner _ H j).
  - intros j j' k. rewrite !Ho. intros [? _] [? _]. by eapply (i_excl _ H).
  - intros k. unfold m'. cbn. fn_cases; cbn; [done|].
    intros [j Hj]%(i_free _ H). exists j. apply Ho. split; [done|]. by intros [_ ->].
  - intros j k. unfold m'. cbn. destruct (decide (l = k)) as [<-|Hne].
    + rewrite fn_lookup_insert. cbn. rewrite (i_cpu _ H). fn_cases; cbn.
      * rewrite Hpc, list_elem_of_filter. naive_solver.
      * done.
    + rewrite fn_lookup_insert_ne by done. rewrite (i_cpu _ H). fn_cases; cbn; [|done].
      rewrite Hpc, list_elem_of_filter. split.
      * intros [? _]. split; [split; [|done]; congruence|discriminate].
      * intros [[_ ?] _]. split; [done|]. by intros [= ->].
  - intros j. unfold m'. cbn. fn_cases; cbn; [|apply H]. by apply list.NoDup_filter.
  - intros j k. unfold m'. cbn. fn_cases; cbn; [|apply H]. by intros [[=]|[=]].
  - intros j k. unfold m'. cbn. fn_cases; cbn; [done|apply H].
  - intros j. unfold m'. cbn. fn_cases; cbn [set_c_held set_pc c_ncli c_held c_pc pc_depth];
      [lia|apply H].
  - intros j. unfold m'. cbn. fn_cases; cbn; [|apply H]. intros Hpos.
    by replace (c_ncli (m_cpus m j) - 1 =? 0) with false by lia.
Qed.

Lemma inv_intr m i b :
  inv m -> c_pc (m_cpus m i) = Run -> c_ncli (m_cpus m i) = 0 ->
  inv (set_cpu i (mkCpu 0 (c_intena (m_cpus m i)) b Run (c_held (m_cpus m i))) m).
Proof.
  intros H Hpc Hn. set (m' := set_cpu _ _ _).
  assert (forall j k, owner m' j k <-> owner m j k) as Ho.
  { intros j k. unfold owner, m'. cbn. fn_cases; cbn; [by rewrite Hpc|done]. }
  split.
  - intros j k. rewrite Ho. apply H.
  - intros j j' k. rewrite !Ho. apply H.
  - intros k [j Hj]%(i_free _ H). exists j. by apply Ho.
  - intros j k. unfold m'. cbn. rewrite (i_cpu _ H). fn_cases; cbn; [by rewrite Hpc|done].
  - intros j. unfold m'. cbn. fn_cases; cbn; apply H.
  - intros j k. unfold m'. cbn. fn_cases; cbn; [|apply H]. by intros [[=]|[=]].
  - intros j k. unfold m'. cbn. fn_cases; cbn; [done|apply H].
  - intros j. unfold m'. cbn. fn_cases; cbn; [|apply H].
    pose proof (i_ncli _ H j) as Hj. rewrite Hn, Hpc in Hj. cbn in Hj. lia.
  - intros j. unfold m'. cbn. fn_cases; cbn; [lia|apply H].
Qed.

Lemma inv_boot : inv boot.
Proof.
  split; cbn; try done; unfold owner; cbn.
  - intros i l [?%elem_of_nil|?]; done.
  - intros i j l [?%elem_of_nil|?]; done.
  - intros i l. split; [done|]. intros [?%elem_of_nil _]. done.
  - intros i. constructor.
  - intros i l. by intros [?|?].
Qed.

(** A machine that has not panicked satisfies the invariant, and a step that
    panics is a double [acquire] or a [release] of a lock not held. *)
Definition inv_or_panic (m : machine) : Prop :=
  (m_panic m = None /\ inv m) \/ m_panic m = Some "acquire" \/ m_panic m = Some "release".

Lemma step_inv m m' : step m m' -> inv_or_panic m -> inv_or_panic m'.
Proof.
  intros Hs [[Hp H]|Hp]; [|destruct Hp; inversion Hs; congruence].
  destruct Hs as [i l m _ Hpc|i l m _ Hpc|i l w v m _ Hpc|i l m _ Hpc|i l m _ Hpc|i b m _ Hpc Hn].
  - destruct (m_panic (acquire_start i l m)) eqn:E.
    + right. left. unfold acquire_start in *. cbv zeta in *. case_match; [done|]. cbn in E. congruence.
    + left. split; [done|]. by apply inv_acquire_start.
  - left. split; [|by apply inv_acquire_xchg]. unfold acquire_xchg. cbv zeta. by case_match.
  - left. split; [done|by apply inv_acquire_done].
  - destruct (m_panic (release_start i l m)) eqn:E.
    + right. right. unfold release_start in *. case_match; [done|]. cbn in E. congruence.
    + left. split; [done|]. by apply inv_release_start.
  - left. destruct (inv_release_xchg m i l H Hpc) as [H1 H2]. split; [by rewrite H2|done].
  - left. split; [done|by apply inv_intr].
Qed.

Lemma reachable_inv m : rtc step boot m -> inv_or_panic m.
Proof.
  assert (inv_or_panic boot) as H0 by (left; split; [done|apply inv_boot]).
  intros Hr. induction Hr; [done|]. eauto using step_inv.
Qed.

(** ** The theorems *)

(** C8: no two CPUs own a lock at the same time, however the steps of
    [acquire] and [release] on the CPUs interleave; and a CPU that owns a lock,
    or waits for one, runs with interrupts off. *)
Theorem mutual_exclusion m i j l :
  rtc step boot m -> m_panic m = None -> owner m i l ->
  c_if (m_cpus m i) = false /\ (owner m j l -> i = j).
Proof.
  intros [[_ H]|[Hp|Hp]]%reachable_inv Hn Hi; [|congruence..]. split.
  - apply (i_off _ H). rewrite (i_ncli _ H). destruct Hi as [Hi| ->]; [|cbn; lia].
    destruct (c_held (m_cpus m i)); [by apply elem_of_nil in Hi|].
    cbn [length]. destruct (c_pc (m_cpus m i)); cbn; lia.
  - by apply (i_excl _ H).
Qed.

(** [popcli] never panics: the only panics spinlock.c can reach are a second
    [acquire] of a lock by the CPU that holds it and a [release] of a lock the
    CPU does not hold. *)
Theorem spinlock_panics m msg :
  rtc step boot m -> m_panic m = Some msg -> msg = "acquire"%string \/ msg = "release"%string.
Proof. intros [[? _]|[Hp|Hp]]%reachable_inv ?; [congruence|left|right]; congruence. Qed.

(** A CPU outside [acquire] and [release] gets from [holding] exactly the
    locks it has acquired and not released, which is the view [Sync.holding]
    takes of the locks. *)
Theorem holding_refines m i l :
  rtc step boot m -> m_panic m = None -> c_pc (m_cpus m i) = Run ->
  holding m i l = bool_decide (l ∈ c_held (m_cpus m i)).
Proof.
  intros [[_ H]|[Hp|Hp]]%reachable_inv Hn Hpc; [|congruence..].
  apply eq_bool_prop_intro. rewrite !Is_true_true, (holding_spec m H), bool_decide_eq_true.
  rewrite Hpc. split; [by intros [? _]|]. intros. split; [done|discriminate].
Qed.

(** A CPU that spins on a lock nobody owns gets it with its next [xchg]. *)
Theorem free_lock_acquired m i l :
  rtc step boot m -> m_panic m = None -> c_pc (m_cpus m i) = Spin l ->
  (forall j, ~ owner m j l) -> owner (acquire_xchg i l m) i l.
Proof.
  intros [[_ H]|[Hp|Hp]]%reachable_inv Hn Hpc Hfree; [|congruence..].
  unfold acquire_xchg. destruct (Z.eqb_spec (lk_locked (m_locks m l)) 0) as [H0|H0]; cbn [negb].
  - right. cbn. by rewrite fn_lookup_insert.
  - destruct (i_free _ H l H0) as [j Hj]. exfalso. by apply (Hfree j).
Qed.

(** ** Examples *)

(** CPU 0 has taken lock 5. *)
Definition one_owner : machine :=
  acquire_done 0 5 ∅ 0 (acquire_xchg 0 5 (acquire_start 0 5 boot)).

Lemma one_owner_reachable : rtc step boot one_owner.
Proof.
  eapply rtc_l; [by apply (step_acquire 0 5)|].
  eapply rtc_l; [by apply (step_xchg 0 5)|].
  eapply rtc_l; [by apply (step_done 0 5 ∅ 0)|]. apply rtc_refl.
Qed.

Lemma mutual_exclusion_witness :
  c_if (m_cpus one_owner 0%nat) = false /\ (owner one_owner 1 5 -> 0%nat = 1%nat).
Proof.
  apply (mutual_exclusion one_owner 0 1 5); [apply one_owner_reachable|done|]. left. by left.
Defined.

Lemma spinlock_panics_witness : exists m,
  m_panic m = Some "acquire"%string /\ ("acquire"%string = "acquire"%string \/ "acquire"%string = "release"%string).
Proof.
  exists (acquire_start 0 5 one_owner). split; [done|].
  apply (spinlock_panics (acquire_start 0 5 one_owner)); [|done].
  eapply rtc_r; [apply one_owner_reachable|]. by apply step_acquire.
Defined.

Lemma holding_refines_witness :
  holding one_owner 0 5 = bool_decide (5%nat ∈ c_held (m_cpus one_owner 0%nat)).
Proof. apply (holding_refines one_owner 0 5); [apply one_owner_reachable|done|done]. Defined.

Lemma free_lock_acquired_witness : owner (acquire_xchg 0 5 (acquire_start 0 5 boot)) 0 5.
Proof.
  apply (free_lock_acquired (acquire_start 0 5 boot) 0 5); [|done|done|].
  - eapply rtc_l; [by apply (step_acquire 0 5)|]. apply rtc_refl.
  - intros [|j] [H|H]; try done; cbn in H; set_solver.
Defined.
