(* ===== verification/Pipe.v ===== *)
(** * Pipes: pipe.c

    A pipe is a ring of [PIPESIZE] bytes with two counters that only grow and
    wrap at 2^32.  [pipe_queue] is the byte queue it implements: [pipewrite]
    appends to it, [piperead] takes from its front, and no interleaving of the
    two loses, duplicates or reorders a byte.  [pipealloc], which also needs the
    file table, is in File.v. *)

From S2P Require Import Prelude Bytes Cstring Kstate Sync Kalloc.
Import Str.
Local Open Scope Z_scope.

Definition pipe_at (p : Z) : K pipe :=
  let! t := gets pipes in deref "struct pipe" (t !! p).

Definition upd_pipe (p : Z) (f : pipe -> pipe) : K unit :=
  let! pi := pipe_at p in
  modify (fun s => set_pipes (<[p := f pi]> (pipes s)) s).

(** [p->data[p->nwrite++ % PIPESIZE] = c] *)
Definition pipe_put (c : Z) (pi : pipe) : pipe :=
  set_pi_nwrite (u32 (pi_nwrite pi + 1))
    (set_pi_data (<[Z.to_nat (pi_nwrite pi mod PIPESIZE) := c]> (pi_data pi)) pi).

(** [p->data[p->nread++ % PIPESIZE]] *)
Definition pipe_next (pi : pipe) : Z :=
  byte_at (pi_data pi) (Z.to_nat (pi_nread pi mod PIPESIZE)).
Definition pipe_get (pi : pipe) : pipe := set_pi_nread (u32 (pi_nread pi + 1)) pi.

Definition pipe_full (pi : pipe) : bool :=
  pi_nwrite pi =? u32 (pi_nread pi + PIPESIZE).
Definition pipe_empty (pi : pipe) : bool := pi_nread pi =? pi_nwrite pi.

Section Pipe.
Context {Lay : Layout}.

Definition pipeclose (p : Z) (writable : bool) : K unit :=
  do acquire (PipeLock p);
  do (if writable then
        do upd_pipe p (set_pi_writeopen false);
        wakeup (ChNread p)
      else
        do upd_pipe p (set_pi_readopen false);
        wakeup (ChNwrite p));
  let! pi := pipe_at p in
  if negb (pi_readopen pi) && negb (pi_writeopen pi) then
    do release (PipeLock p);
    do modify (fun s => set_pipes (delete p (pipes s)) s);
    kfree p
  else release (PipeLock p).
End Pipe.

(** The two loops of [pipewrite]; [false] when it gave up and released the
    lock.  [fuel] bounds the bytes left plus the times the caller sleeps. *)
Fixpoint pipewrite_loop (fuel : nat) (p : Z) (addr : list Z) : K bool :=
  match addr with
  | [] => ret true
  | c :: addr' =>
      let! pi := pipe_at p in
      if pipe_full pi then
        let! giveup :=
          (if negb (pi_readopen pi) then ret true
           else let! pr := myproc in ret (p_killed pr)) in
        if giveup then
          do release (PipeLock p);
          ret false
        else
          do wakeup (ChNread p);
          do sleep (ChNwrite p) (PipeLock p);
          match fuel with O => hang | S f => pipewrite_loop f p addr end
      else
        do upd_pipe p (pipe_put c);
        match fuel with O => hang | S f => pipewrite_loop f p addr' end
  end.

Definition pipewrite (p : Z) (addr : list Z) (n : Z) : K Z :=
  do acquire (PipeLock p);
  let addr := take (Z.to_nat n) addr in
  let! k := pending in
  let! ok := pipewrite_loop (k + length addr) p addr in
  if negb ok then ret (-1) else
  do wakeup (ChNread p);
  do release (PipeLock p);
  ret n.

Fixpoint piperead_wait (fuel : nat) (p : Z) : K bool :=
  let! pi := pipe_at p in
  if pipe_empty pi && pi_writeopen pi then
    let! pr := myproc in
    if p_killed pr then
      do release (PipeLock p);
      ret false
    else
      do sleep (ChNread p) (PipeLock p);
      match fuel with O => hang | S f => piperead_wait f p end
  else ret true.

Fixpoint piperead_copy (n : nat) (p : Z) : K (list Z) :=
  match n with
  | O => ret []
  | S n' =>
      let! pi := pipe_at p in
      if pipe_empty pi then ret [] else
      do upd_pipe p pipe_get;
      let! rest := piperead_copy n' p in
      ret (pipe_next pi :: rest)
  end.

(** The value returned and the bytes stored at [addr]. *)
Definition piperead (p n : Z) : K (Z * list Z) :=
  do acquire (PipeLock p);
  let! k := pending in
  let! ok := piperead_wait k p in
  if negb ok then ret (-1, []) else
  let! bytes := piperead_copy (Z.to_nat n) p in
  do wakeup (ChNwrite p);
  do release (PipeLock p);
  ret (Z.of_nat (length bytes), bytes).

(** ** The queue a pipe implements *)
Record pipe_ok (pi : pipe) : Prop := {
  po_data : length (pi_data pi) = Z.to_nat PIPESIZE;
  po_nread : 0 <= pi_nread pi < 2 ^ 32;
  po_nwrite : 0 <= pi_nwrite pi < 2 ^ 32;
  po_count : u32 (pi_nwrite pi - pi_nread pi) <= PIPESIZE
}.

Definition pipe_count (pi : pipe) : nat :=
  Z.to_nat (u32 (pi_nwrite pi - pi_nread pi)).

Definition pipe_slot (pi : pipe) (k : nat) : nat :=
  Z.to_nat ((pi_nread pi + Z.of_nat k) mod PIPESIZE).

Definition pipe_queue (pi : pipe) : list Z :=
  (fun k => byte_at (pi_data pi) (pipe_slot pi k)) <$> seq 0 (pipe_count pi).

(** ** Counters *)
Lemma u32_cases z : exists k, u32 z = z + k * 2 ^ 32.
Proof. exists (- (z / 2 ^ 32)). unfold u32. pose proof (Z.div_mod z (2 ^ 32)). lia. Qed.

Lemma u32_mod_pipe z : u32 z mod PIPESIZE = z mod PIPESIZE.
Proof.
  destruct (u32_cases z) as [k ->]. unfold PIPESIZE.
  replace (z + k * 2 ^ 32) with (z + (k * 2 ^ 23) * 512) by lia. apply Z_mod_plus_full.
Qed.

Section Queue.
Context (pi : pipe) (Hpi : pipe_ok pi).

Lemma pipe_full_count : pipe_full pi = (pipe_count pi =? Z.to_nat PIPESIZE)%nat.
Proof using Hpi.
  destruct Hpi as [_ H1 H2 H3]. unfold pipe_full, pipe_count, PIPESIZE in *.
  destruct (u32_cases (pi_nwrite pi - pi_nread pi)) as [k Hk].
  destruct (u32_cases (pi_nread pi + 512)) as [k' Hk'].
  pose proof (u32_range (pi_nwrite pi - pi_nread pi)) as R1.
  pose proof (u32_range (pi_nread pi + 512)) as R2.
  destruct (Z.eqb_spec (pi_nwrite pi) (u32 (pi_nread pi + 512))) as [E|E];
    symmetry; [apply Nat.eqb_eq|apply Nat.eqb_neq]; lia.
Qed.

Lemma pipe_empty_count : pipe_empty pi = (pipe_count pi =? 0)%nat.
Proof using Hpi.
  destruct Hpi as [_ H1 H2 H3]. unfold pipe_empty, pipe_count in *.
  destruct (u32_cases (pi_nwrite pi - pi_nread pi)) as [k Hk].
  pose proof (u32_range (pi_nwrite pi - pi_nread pi)) as R1.
  destruct (Z.eqb_spec (pi_nread pi) (pi_nwrite pi)) as [E|E];
    symmetry; [apply Nat.eqb_eq|apply Nat.eqb_neq]; lia.
Qed.

Lemma pipe_queue_length : length (pipe_queue pi) = pipe_count pi.
Proof. unfold pipe_queue. len. Qed.

(** The slots of the queue are distinct. *)
Lemma pipe_slot_inj j k :
  (j < Z.to_nat PIPESIZE)%nat -> (k < Z.to_nat PIPESIZE)%nat ->
  pipe_slot pi j = pipe_slot pi k -> j = k.
Proof.
  unfold pipe_slot, PIPESIZE. intros Hj Hk H.
  pose proof (Z.mod_pos_bound (pi_nread pi + Z.of_nat j) 512).
  pose proof (Z.mod_pos_bound (pi_nread pi + Z.of_nat k) 512).
  pose proof (Z.div_mod (pi_nread pi + Z.of_nat j) 512).
  pose proof (Z.div_mod (pi_nread pi + Z.of_nat k) 512). lia.
Qed.

Lemma pipe_put_spec c :
  pipe_full pi = false ->
  pipe_ok (pipe_put c pi) /\ pipe_queue (pipe_put c pi) = pipe_queue pi ++ [c].
Proof using Hpi.
  rewrite pipe_full_count. intros Hf%Nat.eqb_neq.
  pose proof Hpi as [D1 D2 D3 D4]. unfold pipe_count, PIPESIZE in *.
  pose proof (u32_range (pi_nwrite pi - pi_nread pi)) as R1.
  assert (u32 (u32 (pi_nwrite pi + 1) - pi_nread pi) =
          u32 (pi_nwrite pi - pi_nread pi) + 1) as Hc.
  { destruct (u32_cases (pi_nwrite pi - pi_nread pi)) as [k Hk].
    rewrite <- (u32_small (u32 (pi_nwrite pi - pi_nread pi) + 1)) by lia.
    unfold u32. rewrite Zminus_mod_idemp_l, Zplus_mod_idemp_l. f_equal. lia. }
  split.
  - split; cbn; [by rewrite length_insert|done|apply u32_range|].
    rewrite Hc. unfold PIPESIZE. lia.
  - unfold pipe_queue, pipe_count. cbn. rewrite Hc.
    rewrite Z2Nat.inj_add by lia. rewrite Nat.add_1_r, seq_S, fmap_app. cbn.
    set (n := Z.to_nat (u32 (pi_nwrite pi - pi_nread pi))) in *.
    assert (Z.to_nat (pi_nwrite pi mod PIPESIZE) = pipe_slot pi n) as Hs.
    { unfold pipe_slot, n. rewrite Z2Nat.id by lia.
      destruct (u32_cases (pi_nwrite pi - pi_nread pi)) as [k ->]. f_equal.
      rewrite <- (u32_mod_pipe (pi_nread pi + _)). rewrite <- (u32_mod_pipe (pi_nwrite pi)).
      f_equal. unfold u32. rewrite <- (Z_mod_plus_full (pi_nwrite pi) k). f_equal. lia. }
    assert (pipe_slot pi n < length (pi_data pi))%nat as Hlt.
    { rewrite D1. unfold pipe_slot, PIPESIZE.
      pose proof (Z.mod_pos_bound (pi_nread pi + Z.of_nat n) 512). lia. }
    f_equal.
    + apply list_fmap_ext. intros i k [-> Hk]%lookup_seq. cbn.
      change (pipe_slot (pipe_put c pi)) with (pipe_slot pi). unfold byte_at.
      rewrite Hs, list_lookup_insert_ne; [done|].
      intros E. apply pipe_slot_inj in E; unfold PIPESIZE; lia.
    + change (pipe_slot (pipe_put c pi)) with (pipe_slot pi). unfold byte_at.
      rewrite Hs, list_lookup_insert_eq by done. done.
Qed.

Lemma pipe_get_spec :
  pipe_empty pi = false ->
  pipe_ok (pipe_get pi) /\ pipe_queue pi = pipe_next pi :: pipe_queue (pipe_get pi).
Proof using Hpi.
  rewrite pipe_empty_count. intros He%Nat.eqb_neq.
  pose proof Hpi as [D1 D2 D3 D4]. unfold pipe_count, PIPESIZE in *.
  pose proof (u32_range (pi_nwrite pi - pi_nread pi)) as R1.
  assert (u32 (pi_nwrite pi - u32 (pi_nread pi + 1)) =
          u32 (pi_nwrite pi - pi_nread pi) - 1) as Hc.
  { rewrite <- (u32_small (u32 (pi_nwrite pi - pi_nread pi) - 1)) by lia.
    unfold u32. rewrite Zminus_mod_idemp_r, Zminus_mod_idemp_l. f_equal. lia. }
  split.
  - split; cbn; [done|apply u32_range|done|]. rewrite Hc. unfold PIPESIZE. lia.
  - unfold pipe_queue, pipe_count. cbn. rewrite Hc.
    replace (Z.to_nat (u32 (pi_nwrite pi - pi_nread pi))) with
      (S (Z.to_nat (u32 (pi_nwrite pi - pi_nread pi) - 1))) by lia.
    cbn [seq fmap list_fmap]. f_equal.
    + unfold pipe_next, pipe_slot. by rewrite Z.add_0_r.
    + rewrite <- fmap_S_seq, <- list_fmap_compose. apply list_fmap_ext.
      intros i k _. cbn. f_equal. unfold pipe_slot. f_equal. cbn.
      rewrite <- (Zplus_mod_idemp_l (u32 _)), u32_mod_pipe, Zplus_mod_idemp_l. f_equal. lia.
Qed.
End Queue.

(** ** The code *)
Lemma pipe_at_runs p pi s : pipes s !! p = Some pi -> runs (pipe_at p) s pi s.
Proof. intros H e. unfold pipe_at, bind, gets. by rewrite H. Qed.

Lemma upd_pipe_runs p pi f s :
  pipes s !! p = Some pi ->
  runs (upd_pipe p f) s tt (set_pipes (<[p := f pi]> (pipes s)) s).
Proof.
  intros H. unfold upd_pipe. eapply runs_bind; [by apply pipe_at_runs|]. by intros e.
Qed.

(** The pipe after [addr] was appended, or [n] bytes were taken. *)
Definition pipe_puts (addr : list Z) (pi : pipe) : pipe :=
  foldl (fun pi c => pipe_put c pi) pi addr.
Definition pipe_gets (n : nat) (pi : pipe) : pipe :=
  Nat.iter (n `min` pipe_count pi) pipe_get pi.

Lemma pipe_puts_spec addr : forall pi,
  pipe_ok pi -> (pipe_count pi + length addr <= Z.to_nat PIPESIZE)%nat ->
  pipe_ok (pipe_puts addr pi) /\ pipe_queue (pipe_puts addr pi) = pipe_queue pi ++ addr.
Proof.
  induction addr as [|c addr IH]; intros pi Hok Hroom; [by rewrite app_nil_r|].
  cbn in Hroom. assert (pipe_full pi = false) as Hfull.
  { rewrite pipe_full_count by done. apply Nat.eqb_neq. lia. }
  destruct (pipe_put_spec pi Hok c Hfull) as [Hok1 Hq1].
  destruct (IH (pipe_put c pi) Hok1) as [Hok2 Hq2].
  { rewrite <- pipe_queue_length, Hq1, length_app, pipe_queue_length. cbn. lia. }
  split; [done|]. change (pipe_puts (c :: addr) pi) with (pipe_puts addr (pipe_put c pi)).
  by rewrite Hq2, Hq1, <- app_assoc.
Qed.

Lemma pipewrite_loop_room p addr : forall pi fuel s,
  pipes s !! p = Some pi -> pipe_ok pi -> (length addr <= fuel)%nat ->
  (pipe_count pi + length addr <= Z.to_nat PIPESIZE)%nat ->
  runs (pipewrite_loop fuel p addr) s true
    (set_pipes (<[p := pipe_puts addr pi]> (pipes s)) s).
Proof.
  induction addr as [|c addr IH]; intros pi fuel s Hp Hok Hf Hroom.
  - intros e. cbn. rewrite insert_id by done. destruct fuel; by destruct s.
  - cbn in Hf, Hroom. destruct fuel as [|fuel]; [lia|].
    assert (pipe_full pi = false) as Hfull.
    { rewrite pipe_full_count by done. apply Nat.eqb_neq. lia. }
    destruct (pipe_put_spec pi Hok c Hfull) as [Hok1 Hq1].
    cbn [pipewrite_loop]. eapply runs_bind; [by apply pipe_at_runs|]. rewrite Hfull.
    eapply runs_bind; [by apply upd_pipe_runs|].
    pose proof (IH (pipe_put c pi) fuel (set_pipes (<[p := pipe_put c pi]> (pipes s)) s)) as Hr.
    cbn [pipes set_pipes] in Hr. rewrite insert_insert_eq in Hr. apply Hr; [|done|lia|].
    + apply lookup_insert_eq.
    + rewrite <- pipe_queue_length, Hq1, length_app, pipe_queue_length. cbn. lia.
Qed.

Lemma pipe_gets_S n pi :
  pipe_ok pi -> pipe_empty pi = false -> pipe_gets (S n) pi = pipe_gets n (pipe_get pi).
Proof.
  intros Hok He. destruct (pipe_get_spec pi Hok He) as [_ Hq]. unfold pipe_gets.
  rewrite <- (pipe_queue_length pi), Hq. cbn [length].
  rewrite pipe_queue_length. change (S n `min` S ?k)%nat with (S (n `min` k)).
  by rewrite Nat.iter_succ_r.
Qed.

Lemma pipe_empty_queue pi : pipe_ok pi -> pipe_empty pi = true -> pipe_queue pi = [].
Proof.
  intros Hok He. apply length_zero_iff_nil. rewrite pipe_queue_length.
  rewrite pipe_empty_count in He by done. by apply Nat.eqb_eq in He.
Qed.

Lemma pipe_gets_spec n : forall pi,
  pipe_ok pi -> pipe_ok (pipe_gets n pi) /\ pipe_queue (pipe_gets n pi) = drop n (pipe_queue pi).
Proof.
  induction n as [|n IH]; intros pi Hok; [done|].
  destruct (pipe_empty pi) eqn:He.
  - rewrite (pipe_empty_queue pi Hok He). unfold pipe_gets.
    rewrite <- (pipe_queue_length pi), (pipe_empty_queue pi Hok He).
    cbn. split; [done|]. by apply pipe_empty_queue.
  - rewrite pipe_gets_S by done. destruct (pipe_get_spec pi Hok He) as [Hok1 Hq1].
    rewrite Hq1. by apply IH.
Qed.

Lemma piperead_copy_runs p n : forall pi s,
  pipes s !! p = Some pi -> pipe_ok pi ->
  runs (piperead_copy n p) s (take n (pipe_queue pi))
    (set_pipes (<[p := pipe_gets n pi]> (pipes s)) s).
Proof.
  induction n as [|n IH]; intros pi s Hp Hok.
  - intros e. cbn. rewrite insert_id by done. by destruct s.
  - cbn [piperead_copy]. eapply runs_bind; [by apply pipe_at_runs|].
    destruct (pipe_empty pi) eqn:He.
    + rewrite (pipe_empty_queue pi Hok He). unfold pipe_gets.
      rewrite <- (pipe_queue_length pi), (pipe_empty_queue pi Hok He). cbn.
      rewrite insert_id by done. intros e. by destruct s.
    + destruct (pipe_get_spec pi Hok He) as [Hok1 Hq1].
      eapply runs_bind; [by apply upd_pipe_runs|].
      rewrite pipe_gets_S, Hq1 by done. eapply runs_bind.
      { apply (IH (pipe_get pi)); [apply lookup_insert_eq|done]. }
      cbn [pipes set_pipes take]. rewrite insert_insert_eq. apply runs_ret.
Qed.

(** A pipe that the caller may use: nobody holds its lock. *)
Record pipe_free (s : kstate) (p : Z) (pi : pipe) : Prop := {
  pf_at : pipes s !! p = Some pi;
  pf_ok : pipe_ok pi;
  pf_lock : PipeLock p ∉ held s;
  pf_ptable : PtableLock ∉ held s
}.

Lemma pipewrite_runs s p pi addr n :
  pipe_free s p pi -> n = Z.of_nat (length addr) ->
  (pipe_count pi + length addr <= Z.to_nat PIPESIZE)%nat ->
  runs (pipewrite p addr n) s n
    (set_ptable (wakeup1 (Some (ChNread p)) (ptable s))
       (set_pipes (<[p := pipe_puts addr pi]> (pipes s)) s)).
Proof.
  intros [Hp Hok Hl Ht] Hn Hroom e. unfold pipewrite.
  unfold bind at 1. rewrite acquire_runs by done.
  replace (Z.to_nat n) with (length addr) by lia. rewrite firstn_all. cbv zeta.
  unfold bind at 1, pending. unfold bind at 1.
  rewrite (pipewrite_loop_room p addr pi) by (done || lia). cbn [negb].
  unfold bind at 1. rewrite wakeup_runs by (cbn; set_solver).
  unfold bind at 1. rewrite (release_runs _ _ (held s)) by done. by destruct s.
Qed.

Lemma piperead_runs s p pi n :
  pipe_free s p pi -> pipe_queue pi <> [] \/ pi_writeopen pi = false ->
  let bytes := take (Z.to_nat n) (pipe_queue pi) in
  runs (piperead p n) s (Z.of_nat (length bytes), bytes)
    (set_ptable (wakeup1 (Some (ChNwrite p)) (ptable s))
       (set_pipes (<[p := pipe_gets (Z.to_nat n) pi]> (pipes s)) s)).
Proof.
  intros [Hp Hok Hl Ht] Hne bytes e. unfold piperead.
  unfold bind at 1. rewrite acquire_runs by done. unfold bind at 1, pending.
  assert (pipe_empty pi && pi_writeopen pi = false) as Hgo.
  { destruct Hne as [Hne| ->]; [|apply andb_false_r].
    destruct (pipe_empty pi) eqn:He; [|done]. by apply pipe_empty_queue in He. }
  assert (forall k s1, pipes s1 !! p = Some pi -> piperead_wait k p s1 e = Ok true s1 e) as Hw.
  { intros k s1 H1. destruct k; cbn [piperead_wait]; unfold bind at 1;
      by rewrite (pipe_at_runs _ pi), Hgo by done. }
  unfold bind at 1. rewrite Hw by done. cbn [negb].
  unfold bind at 1. rewrite (piperead_copy_runs p _ pi) by done.
  unfold bind at 1. rewrite wakeup_runs by (cbn; set_solver).
  unfold bind at 1. rewrite (release_runs _ _ (held s)) by done. by destruct s.
Qed.

(** ** Interleavings

    Under [p->lock] writers and readers move one byte at a time, as the bodies
    of the two copying loops do ([pipe_calls_step] below shows that the calls
    are made of these steps).  [written] and [read] are the bytes the writers
    have stored and the readers have taken so far. *)
Record pipe_trace := mkTrace {
  tr_pipe : pipe; tr_written : list Z; tr_read : list Z
}.

Inductive pipe_step : pipe_trace -> pipe_trace -> Prop :=
| pipe_step_write pi w r c :
    pipe_full pi = false ->
    pipe_step (mkTrace pi w r) (mkTrace (pipe_put c pi) (w ++ [c]) r)
| pipe_step_read pi w r :
    pipe_empty pi = false ->
    pipe_step (mkTrace pi w r) (mkTrace (pipe_get pi) w (r ++ [pipe_next pi]))
| pipe_step_close pi w r ro wo :
    pipe_step (mkTrace pi w r)
      (mkTrace (set_pi_readopen ro (set_pi_writeopen wo pi)) w r).

Definition trace_ok (t : pipe_trace) : Prop :=
  pipe_ok (tr_pipe t) /\ tr_written t = tr_read t ++ pipe_queue (tr_pipe t).

Lemma pipe_step_ok t t' : trace_ok t -> pipe_step t t' -> trace_ok t'.
Proof.
  intros Ht Hstep. destruct Hstep as [pi w r c Hf|pi w r He|pi w r ro wo];
    destruct Ht as [Hok Hs]; cbn in *.
  - destruct (pipe_put_spec pi Hok c Hf) as [H1 H2]. split; [done|]. cbn.
    by rewrite H2, Hs, app_assoc.
  - destruct (pipe_get_spec pi Hok He) as [H1 H2]. split; [done|]. cbn.
    by rewrite Hs, H2, <- app_assoc.
  - split; [|done]. by destruct Hok.
Qed.

(** C9: whatever the order in which writers and readers take turns, the bytes
    read so far, followed by the bytes still in the pipe, are exactly the bytes
    written, in order; and the pipe never holds more than [PIPESIZE] bytes. *)
Theorem pipe_fifo t t' :
  trace_ok t -> rtc pipe_step t t' ->
  tr_written t' = tr_read t' ++ pipe_queue (tr_pipe t') /\
  (length (pipe_queue (tr_pipe t')) <= Z.to_nat PIPESIZE)%nat.
Proof.
  intros Ht Hsteps. assert (trace_ok t') as [Hok Hs].
  { induction Hsteps; eauto using pipe_step_ok. }
  split; [done|]. rewrite pipe_queue_length. unfold pipe_count.
  apply Z2Nat.inj_le; [apply u32_range|by unfold PIPESIZE|apply Hok].
Qed.

(** Bytes written to a pipe with room for them, none of them read yet, are
    what the next reads return, in order. *)
Theorem pipe_roundtrip s p pi addr :
  pipe_free s p pi -> pipe_queue pi = [] ->
  (length addr <= Z.to_nat PIPESIZE)%nat -> addr <> [] ->
  let n := Z.of_nat (length addr) in
  wp (do pipewrite p addr n; piperead p n) s (fun r s' =>
    r = (n, addr) /\ exists pi', pipes s' !! p = Some pi' /\ pipe_ok pi' /\
      pipe_queue pi' = []).
Proof.
  intros Hf Hq Hl Hne n.
  assert (pipe_count pi = 0%nat) as Hc by (by rewrite <- pipe_queue_length, Hq).
  destruct (pipe_puts_spec addr pi) as [Hok Hq1]; [apply Hf|lia|].
  eapply wp_bind_runs; [by apply (pipewrite_runs s p pi); [..|lia]|].
  rewrite Hq in Hq1. cbn in Hq1.
  eapply runs_wp.
  - apply (piperead_runs _ p (pipe_puts addr pi)).
    + destruct Hf. split; try done. apply lookup_insert_eq.
    + left. by rewrite Hq1.
  - rewrite Hq1. unfold n. rewrite Nat2Z.id, firstn_all. split; [done|].
    exists (pipe_gets (length addr) (pipe_puts addr pi)). cbn [pipes set_ptable set_pipes].
    rewrite lookup_insert_eq. destruct (pipe_gets_spec (length addr) _ Hok) as [H1 H2].
    split; [done|]. split; [done|]. by rewrite H2, Hq1, drop_all.
Qed.

(** ** Blocking *)
Lemma pipe_at_progress p : progress 0 (pipe_at p).
Proof. unfold pipe_at. eauto with kern. Qed.
Lemma upd_pipe_progress p f : progress 0 (upd_pipe p f).
Proof. unfold upd_pipe. eauto using pipe_at_progress with kern. Qed.
Lemma myproc_progress : progress 0 myproc.
Proof. unfold myproc, curproc_idx, proc_at. eauto 10 with kern. Qed.
Lemma wakeup_progress ch : progress 0 (wakeup ch).
Proof. unfold wakeup. eauto with kern. Qed.
#[local] Hint Resolve pipe_at_progress upd_pipe_progress myproc_progress
  wakeup_progress : kern.

Lemma pipewrite_loop_bounded p fuel : forall addr,
  (length addr <= fuel)%nat ->
  bounded (fuel - length addr) (pipewrite_loop fuel p addr).
Proof.
  induction fuel as [|fuel IH]; intros [|c addr] Hf; cbn [pipewrite_loop]; cbn in Hf;
    try (apply (progress_bounded 0), progress_ret); [lia|].
  apply (bounded_bind 0); [auto with kern|intros _ pi]. rewrite Nat.sub_0_r.
  destruct (pipe_full pi).
  - apply (bounded_bind 0); [eauto 10 with kern|intros _ giveup]. rewrite Nat.sub_0_r.
    destruct giveup; [apply (progress_bounded 0); eauto with kern|].
    apply (bounded_bind 0); [eauto with kern|intros _ _]. rewrite Nat.sub_0_r.
    apply (bounded_bind 1); [apply sleep_progress|intros Hle _].
    replace (S fuel - length (c :: addr) - 1)%nat with (fuel - length (c :: addr))%nat
      by (cbn; lia).
    apply IH. cbn in Hle |- *. lia.
  - apply (bounded_bind 0); [eauto with kern|intros _ _]. rewrite Nat.sub_0_r.
    apply (IH addr). lia.
Qed.

Lemma piperead_wait_bounded p fuel : bounded fuel (piperead_wait fuel p).
Proof.
  induction fuel as [|fuel IH]; cbn [piperead_wait];
    (apply (bounded_bind 0); [auto with kern|intros _ pi]; rewrite Nat.sub_0_r);
    (destruct (_ && _); [|apply (progress_bounded 0), progress_ret]);
    (apply (bounded_bind 0); [auto with kern|intros _ pr]; rewrite Nat.sub_0_r);
    (destruct (p_killed pr); [apply (progress_bounded 0); eauto with kern|]);
    (apply (bounded_bind 1); [apply sleep_progress|intros Hle _]); [lia|].
  by rewrite Nat.sub_succ, Nat.sub_0_r.
Qed.

Lemma piperead_copy_progress p n : progress 0 (piperead_copy n p).
Proof. induction n as [|n IH]; cbn [piperead_copy]; eauto 10 with kern. Qed.

(** [pipewrite] and [piperead] wait only by sleeping: whatever the other
    processes do, a call returns, panics or sleeps, and never spins. *)
Theorem pipe_calls_no_spin p addr n :
  progress 0 (pipewrite p addr n) /\ progress 0 (piperead p n).
Proof.
  split.
  - unfold pipewrite. apply progress_bind0; [auto with kern|intros _].
    apply progress_fuel. intros k. apply bounded_then; [|eauto 10 with kern].
    set (l := take (Z.to_nat n) addr).
    replace k with (k + length l - length l)%nat at 1 by lia.
    apply pipewrite_loop_bounded. lia.
  - unfold piperead. apply progress_bind0; [auto with kern|intros _].
    apply progress_fuel. intros k.
    apply bounded_then; [apply piperead_wait_bounded|intros ok].
    pose proof (piperead_copy_progress p (Z.to_nat n)). eauto 10 with kern.
Qed.

(** ** The calls are such steps

    A turn of the other processes, as [pipewrite] and [piperead] see it while
    they sleep, moves the pipe by steps; so do then the calls themselves. *)
Section Steps.
Context (p : Z).

(** From pipe [pi0] to the one in [s], [w] has been written and [r] read. *)
Definition moved (pi0 : pipe) (w r : list Z) (s : kstate) : Prop :=
  exists pi, pipes s !! p = Some pi /\
    forall W R, rtc pipe_step (mkTrace pi0 W R) (mkTrace pi (W ++ w) (R ++ r)).

Definition others (f : kstate -> kstate) : Prop :=
  forall s pi, pipes s !! p = Some pi -> exists w r, moved pi w r (f s).

Definition step_triple {A} (Pre : kstate -> Prop) (m : K A) (Post : A -> kstate -> Prop) : Prop :=
  forall s e, Pre s -> Forall others e ->
    match m s e with Ok a s' e' => Post a s' /\ Forall others e' | _ => True end.

Lemma st_bind {A B} Pre (m : K A) Mid (k : A -> K B) Post :
  step_triple Pre m Mid -> (forall a, step_triple (Mid a) (k a) Post) -> step_triple Pre (bind m k) Post.
Proof.
  intros Hm Hk s e Hs He. specialize (Hm s e Hs He). unfold bind. destruct (m s e) as [a s1 e1| | | |]; try done.
  destruct Hm as [H1 H2]. by apply (Hk a).
Qed.

Lemma st_ret {A} (Pre : kstate -> Prop) (a : A) (Post : A -> kstate -> Prop) :
  (forall s, Pre s -> Post a s) -> step_triple Pre (ret a) Post.
Proof. intros H s e Hs He. split; [by apply H|done]. Qed.

Lemma st_weaken {A} Pre Pre' (m : K A) Post :
  step_triple Pre m Post -> (forall s, Pre' s -> Pre s) -> step_triple Pre' m Post.
Proof. intros H HP s e Hs. by apply H, HP. Qed.

(** Code that leaves the pipes alone and does not wait. *)
Definition inert {A} (m : K A) : Prop :=
  forall s e, match m s e with Ok _ s' e' => pipes s' = pipes s /\ e' = e | _ => True end.

Lemma inert_bind {A B} (m : K A) (k : A -> K B) : inert m -> (forall a, inert (k a)) -> inert (bind m k).
Proof.
  intros Hm Hk s e. specialize (Hm s e). unfold bind. destruct (m s e) as [a s1 e1| | | |]; try done.
  destruct Hm as [E ->]. specialize (Hk a s1 e). destruct (k a s1 e) as [b s2 e2| | | |]; try done.
  destruct Hk as [E2 ->]. by rewrite E2.
Qed.
Lemma inert_ret {A} (a : A) : inert (ret a).
Proof. done. Qed.
Lemma inert_gets {A} (f : kstate -> A) : inert (gets f).
Proof. done. Qed.
Lemma inert_modify f : (forall s, pipes (f s) = pipes s) -> inert (modify f).
Proof. intros H s e. split; [apply H|done]. Qed.
Lemma inert_pending : inert pending.
Proof. done. Qed.
Lemma inert_panic {A} msg : inert (@panic _ A msg).
Proof. done. Qed.
Lemma inert_deref {A} what (x : option A) : inert (deref what x).
Proof. by destruct x. Qed.
Lemma inert_if {A} (b : bool) (m1 m2 : K A) : inert m1 -> inert m2 -> inert (if b then m1 else m2).
Proof. by destruct b. Qed.
Create HintDb inert discriminated.
#[local] Hint Resolve inert_bind inert_ret inert_gets inert_pending inert_panic inert_deref inert_if : inert.
#[local] Hint Extern 1 (inert (modify _)) => apply inert_modify; done : inert.

Lemma inert_acquire l : inert (acquire l).
Proof. unfold acquire, holding. auto with inert. Qed.
Lemma inert_release l : inert (release l).
Proof. unfold release, holding. auto with inert. Qed.
Lemma inert_myproc : inert myproc.
Proof. unfold myproc, curproc_idx, proc_at. auto 10 with inert. Qed.
Lemma inert_upd_myproc f : inert (upd_myproc f).
Proof. unfold upd_myproc, upd_proc, curproc_idx, proc_at. auto 10 with inert. Qed.
Lemma inert_wakeup ch : inert (wakeup ch).
Proof. unfold wakeup, acquire, release, holding. auto 10 with inert. Qed.
#[local] Hint Resolve inert_acquire inert_release inert_myproc inert_upd_myproc inert_wakeup : inert.

(** The calls so far. *)
Definition since (pi0 : pipe) (Q : list Z -> list Z -> Prop) (s : kstate) : Prop := exists w r, moved pi0 w r s /\ Q w r.

Lemma since_pipes pi0 Q s s' : pipes s' = pipes s -> since pi0 Q s -> since pi0 Q s'.
Proof. intros E (w & r & (pi & Hp & H) & HQ). exists w, r. split; [|done]. exists pi. by rewrite E. Qed.

Lemma st_inert {A} (m : K A) pi0 Q : inert m -> step_triple (since pi0 Q) m (fun _ => since pi0 Q).
Proof.
  intros Hm s e Hs He. specialize (Hm s e). destruct (m s e) as [a s1 e1| | | |]; try done.
  destruct Hm as [E ->]. split; [by apply (since_pipes _ _ s)|done].
Qed.

Lemma moved_trans pi0 w r s f : moved pi0 w r s -> others f -> exists w' r', moved pi0 (w ++ w') (r ++ r') (f s).
Proof.
  intros (pi & Hp & H) Hf. destruct (Hf s pi Hp) as (w' & r' & pi' & Hp' & H'). exists w', r', pi'. split; [done|].
  intros W R. rewrite !app_assoc. etrans; [apply H|apply H'].
Qed.

(** What holds of the bytes moved stays true when more are moved. *)
Definition lasting (Q : list Z -> list Z -> Prop) : Prop := forall w r w' r', Q w r -> Q (w ++ w') (r ++ r').

Lemma st_swtch i pi0 Q : lasting Q -> step_triple (since pi0 Q) (swtch i) (fun _ => since pi0 Q).
Proof.
  intros HQ s e Hs He. unfold swtch. revert s Hs. induction He as [|f e Hf He IH]; intros s Hs; cbn [swtch_from]; [done|].
  assert (since pi0 Q (f s)) as Hs'.
  { destruct Hs as (w & r & Hm & Hq). destruct (moved_trans _ _ _ _ _ Hm Hf) as (w' & r' & Hm').
    exists (w ++ w'), (r ++ r'). split; [done|by apply HQ]. }
  destruct (ptable (f s) !! i) as [q|]; [|by apply IH]. case_bool_decide; [|by apply IH].
  split; [|done]. by apply (since_pipes _ _ (f s)).
Qed.

Lemma st_sched pi0 Q : lasting Q -> step_triple (since pi0 Q) sched (fun _ => since pi0 Q).
Proof.
  intros HQ. unfold sched, curproc_idx, proc_at.
  eapply st_bind; [apply st_inert; unfold holding; auto with inert|intros h]. destruct (negb h); [apply st_inert; auto with inert|].
  eapply st_bind; [apply st_inert; auto with inert|intros hs]. destruct (negb _); [apply st_inert; auto with inert|].
  eapply st_bind; [apply st_inert; auto with inert|intros i]. eapply st_bind; [apply st_inert; auto with inert|intros q].
  case_bool_decide; [apply st_inert; auto with inert|by apply st_swtch].
Qed.

Lemma st_sleep ch lk pi0 Q : lasting Q -> step_triple (since pi0 Q) (sleep ch lk) (fun _ => since pi0 Q).
Proof.
  intros HQ. unfold sleep, when. eapply st_bind; [apply st_inert; auto with inert|intros [i|]]; [|apply st_inert; auto with inert].
  eapply st_bind; [apply st_inert; auto with inert|intros ?]. eapply st_bind; [apply st_inert; auto with inert|intros ?].
  eapply st_bind; [by apply st_sched|intros ?]. apply st_inert. auto with inert.
Qed.

Lemma st_pipe_at pi0 Q :
  step_triple (since pi0 Q) (pipe_at p) (fun pi s => pipes s !! p = Some pi /\ since pi0 Q s).
Proof.
  intros s e Hs He. destruct Hs as (w & r & Hm & HQ). destruct Hm as (pi & Hp & H).
  rewrite (pipe_at_runs p pi) by done. split; [|done]. split; [done|]. exists w, r. split; [by exists pi|done].
Qed.

(** One byte moved. *)
Lemma st_move pi pi' pi0 Q (Q' : list Z -> list Z -> Prop) w1 r1 f :
  (forall W R, pipe_step (mkTrace pi W R) (mkTrace pi' (W ++ w1) (R ++ r1))) -> f pi = pi' ->
  (forall w r, Q w r -> Q' (w ++ w1) (r ++ r1)) ->
  step_triple (fun s => pipes s !! p = Some pi /\ since pi0 Q s) (upd_pipe p f) (fun _ => since pi0 Q').
Proof.
  intros Hst Hf HQ s e [Hp (w & r & (pi1 & Hp1 & H) & Hq)] He. rewrite (upd_pipe_runs p pi) by done. split; [|done].
  rewrite Hp in Hp1. injection Hp1 as <-. exists (w ++ w1), (r ++ r1). split; [|by apply HQ]. exists (f pi).
  split; [apply lookup_insert_eq|]. intros W R. rewrite !app_assoc, Hf. eapply rtc_r; [apply H|apply Hst].
Qed.

Lemma since_mono pi0 (Q Q' : list Z -> list Z -> Prop) s : (forall w r, Q w r -> Q' w r) -> since pi0 Q s -> since pi0 Q' s.
Proof. intros H (w & r & Hm & Hq). exists w, r. auto. Qed.

Lemma st_pipewrite_loop pi0 fuel : forall addr sofar,
  step_triple (since pi0 (fun w _ => sofar `sublist_of` w)) (pipewrite_loop fuel p addr)
    (fun ok => since pi0 (fun w _ => ok = true -> (sofar ++ addr) `sublist_of` w)).
Proof.
  assert (forall sofar : list Z, lasting (fun w _ => sofar `sublist_of` w)) as Hlast
    by (intros sofar w r w' r' H; by apply sublist_inserts_r).
  induction fuel as [|fuel IH]; intros [|c addr] sofar; cbn [pipewrite_loop];
    try (apply st_ret; intros s; apply since_mono; intros w r; by rewrite app_nil_r).
  all: eapply st_bind; [apply st_pipe_at|intros pi]; destruct (pipe_full pi) eqn:Hf.
  1, 3: eapply st_weaken; [|by intros s [_ H]]; eapply st_bind; [apply st_inert; auto with inert|intros [|]];
    [eapply st_bind; [apply st_inert; auto with inert|intros ?]; apply st_ret; intros s; by apply since_mono|];
    eapply st_bind; [apply st_inert; auto with inert|intros ?]; eapply st_bind; [by apply st_sleep|intros ?]; first [by intros s e|apply IH].
  all: eapply (st_bind _ _ (fun _ => since pi0 (fun w _ => (sofar ++ [c]) `sublist_of` w)));
    [apply (st_move pi (pipe_put c pi) _ _ _ [c] []);
      [intros W R; rewrite app_nil_r; by constructor|done|intros w r H; by apply sublist_app]|intros ?].
  - by intros s e.
  - specialize (IH addr (sofar ++ [c])). rewrite <- app_assoc in IH. apply IH.
Qed.

Lemma st_piperead_wait pi0 fuel :
  step_triple (since pi0 (fun _ _ => True)) (piperead_wait fuel p) (fun _ => since pi0 (fun _ _ => True)).
Proof.
  induction fuel as [|fuel IH]; cbn [piperead_wait];
    (eapply st_bind; [apply st_pipe_at|intros pi]; eapply st_weaken; [|by intros s [_ H]]);
    (destruct (_ && _); [|by apply st_ret]);
    (eapply st_bind; [apply st_inert; auto with inert|intros pr]);
    (destruct (p_killed pr); [apply st_inert; auto with inert|]);
    (eapply st_bind; [by apply st_sleep|intros ?]); [by intros s e|apply IH].
Qed.

Lemma st_piperead_copy pi0 n : forall sofar,
  step_triple (since pi0 (fun _ r => r = sofar)) (piperead_copy n p)
    (fun bytes => since pi0 (fun _ r => r = sofar ++ bytes)).
Proof.
  induction n as [|n IH]; intros sofar; cbn [piperead_copy]; [apply st_ret; intros s; by rewrite app_nil_r|].
  eapply st_bind; [apply st_pipe_at|intros pi]. destruct (pipe_empty pi) eqn:He.
  { apply st_ret. intros s [_ H]. by rewrite app_nil_r. }
  eapply (st_bind _ _ (fun _ => since pi0 (fun _ r => r = sofar ++ [pipe_next pi]))).
  - apply (st_move pi (pipe_get pi) _ _ _ [] [pipe_next pi]);
      [intros W R; rewrite app_nil_r; by constructor|done|by intros w r ->].
  - intros ?. eapply st_bind; [apply IH|intros rest]. apply st_ret. intros s. by rewrite <- app_assoc.
Qed.

Lemma st_pipewrite pi0 addr n :
  step_triple (since pi0 (fun _ _ => True)) (pipewrite p addr n)
    (fun x => since pi0 (fun w _ => x <> -1 -> take (Z.to_nat n) addr `sublist_of` w)).
Proof.
  eapply st_weaken; [|intros s; apply (since_mono _ _ (fun w _ => [] `sublist_of` w)); intros w r _; apply sublist_nil_l].
  unfold pipewrite. eapply st_bind; [apply st_inert; auto with inert|intros ?].
  eapply st_bind; [apply st_inert; auto with inert|intros k]. eapply st_bind; [apply st_pipewrite_loop|intros [|]]; cbn [negb].
  - do 2 (eapply st_bind; [apply st_inert; auto with inert|intros ?]). apply st_ret. intros s. apply since_mono. auto.
  - apply st_ret. intros s. apply since_mono. by intros w r _ H.
Qed.

Lemma st_piperead pi0 n :
  step_triple (since pi0 (fun _ _ => True)) (piperead p n)
    (fun xb => since pi0 (fun _ r => exists r0, r = r0 ++ xb.2 /\ (xb.1 <> -1 -> xb.1 = Z.of_nat (length xb.2)))).
Proof.
  unfold piperead. eapply st_bind; [apply st_inert; auto with inert|intros ?].
  eapply st_bind; [apply st_inert; auto with inert|intros k]. eapply st_bind; [apply st_piperead_wait|intros [|]]; cbn [negb].
  - intros s e (w & r & Hm & _) He.
    eapply (st_bind (since pi0 (fun _ r' => r' = r)) _ _ _ _ (st_piperead_copy _ _ r)); [|by exists w, r|done].
    intros bytes. do 2 (eapply st_bind; [apply st_inert; auto with inert|intros ?]). apply st_ret. intros s1.
    apply since_mono. intros w1 r1 ->. by exists r.
  - apply st_ret. intros s. apply since_mono. intros w r _. exists r. by rewrite app_nil_r.
Qed.
End Steps.

(** C19: [pipewrite] and [piperead] are sequences of the steps above: when the
    other processes move the pipe by steps while a call sleeps, so does the
    call as a whole; a write that does not fail has put all its bytes into the
    pipe, in order, possibly with bytes of other writers between them, and the
    bytes a read returns are the last ones taken, one after the other. *)
Theorem pipe_calls_step p pi s e addr n :
  pipes s !! p = Some pi -> Forall (others p) e ->
  match pipewrite p addr n s e with
  | Ok x s' _ => exists w r, moved p pi w r s' /\ (x <> -1 -> take (Z.to_nat n) addr `sublist_of` w)
  | _ => True
  end /\
  match piperead p n s e with
  | Ok (x, bytes) s' _ => exists w r, moved p pi w (r ++ bytes) s' /\ (x <> -1 -> x = Z.of_nat (length bytes))
  | _ => True
  end.
Proof.
  intros Hp He. assert (since p pi (fun _ _ => True) s) as Hs.
  { exists [], []. split; [|done]. exists pi. split; [done|]. intros W R. rewrite !app_nil_r. apply rtc_refl. }
  pose proof (st_pipewrite p pi addr n s e Hs He) as H1. pose proof (st_piperead p pi n s e Hs He) as H2. split.
  - destruct (pipewrite p addr n s e) as [x s' e'| | | |]; try done. by destruct H1 as [(w & r & H) _]; exists w, r.
  - destruct (piperead p n s e) as [[x bytes] s' e'| | | |]; try done. destruct H2 as [(w & r & H & r0 & -> & Hx) _]. by exists w, r0.
Qed.

(** ** Examples *)
Definition idle_pipe : pipe := mkPipe (replicate 512 0) 0 0 true true.

Lemma idle_pipe_ok : pipe_ok idle_pipe.
Proof. split; by vm_compute. Qed.

(** Two bytes written, one of them read. *)
Lemma pipe_fifo_witness : exists pi,
  rtc pipe_step (mkTrace idle_pipe [] []) (mkTrace pi [7; 8] [7]) /\
  [7; 8] = [7] ++ pipe_queue pi.
Proof.
  exists (pipe_get (pipe_put 8 (pipe_put 7 idle_pipe))).
  assert (rtc pipe_step (mkTrace idle_pipe [] [])
    (mkTrace (pipe_get (pipe_put 8 (pipe_put 7 idle_pipe))) [7; 8] [7])) as H.
  { eapply rtc_l; [by apply (pipe_step_write _ _ _ 7)|].
    eapply rtc_l; [by apply (pipe_step_write _ _ _ 8)|].
    eapply rtc_l; [by apply pipe_step_read|]. apply rtc_refl. }
  split; [exact H|].
  by apply (pipe_fifo (mkTrace idle_pipe [] []) _ (conj idle_pipe_ok eq_refl) H).
Defined.

(** While a writer to a full pipe sleeps, two bytes are read. *)
Definition full_pipe : pipe := mkPipe (replicate 512 5) 0 512 true true.
Definition reader_turn (s : kstate) : kstate :=
  set_ptable (wakeup1 (Some (ChNwrite 4096)) (ptable s))
    (if pipe_empty (default full_pipe (pipes s !! 4096)) then s
     else set_pipes (alter pipe_get 4096 (pipes s)) s).

Lemma reader_turn_others : others 4096 reader_turn.
Proof.
  intros s pi Hp. unfold reader_turn. rewrite Hp. cbn [default id]. destruct (pipe_empty pi) eqn:He.
  - exists [], [], pi. split; [exact Hp|]. intros W R. rewrite !app_nil_r. apply rtc_refl.
  - exists [], [pipe_next pi], (pipe_get pi). split; [cbn [pipes set_ptable set_pipes]; by rewrite lookup_alter_eq, Hp|].
    intros W R. rewrite app_nil_r. apply rtc_once. by constructor.
Qed.

Definition writer_state : kstate :=
  set_pipes {[ 4096 := full_pipe ]} (reset_state ∅ 0 [set_p_state RUNNING zero_proc] 0).

Lemma pipe_calls_step_witness : exists s' w r,
  pipewrite 4096 [7] 1 writer_state [reader_turn] = Ok 1 s' [] /\ moved 4096 full_pipe w r s' /\ [7] `sublist_of` w.
Proof.
  destruct (pipe_calls_step 4096 full_pipe writer_state [reader_turn] [7] 1) as [H _];
    [done|repeat constructor; apply reader_turn_others|].
  remember (pipewrite 4096 [7] 1 writer_state [reader_turn]) as o eqn:Eo. vm_compute in Eo. subst o.
  destruct H as (w & r & Hm & Hs). eexists _, w, r. split; [reflexivity|]. split; [exact Hm|by apply Hs].
Defined.

Lemma pipe_roundtrip_witness : exists s,
  wp (do pipewrite 4096 [7; 8; 9] 3; piperead 4096 3) s (fun r _ => r = (3, [7; 8; 9])).
Proof.
  exists (set_pipes {[ 4096 := idle_pipe ]} (reset_state ∅ 0 [] 0)).
  eapply wp_mono; [apply (pipe_roundtrip _ 4096 idle_pipe [7; 8; 9])|].
  - split; [done|apply idle_pipe_ok|cbn; set_solver..].
  - done.
  - by vm_compute; lia.
  - done.
  - by intros r s' [-> _].
Defined.
