(* ===== verification/Disk.v ===== *)
(** * The block device

    [BlockDev] is what the buffer cache relies on from the disk driver: [iderw]
    on a busy buffer writes the buffer to its block when it is dirty and reads
    the block otherwise.  The instance is memide.c, the driver of the
    [kernelmemfs] build, which keeps the disk image in memory. *)

From S2P Require Import Prelude Bytes Kstate Sync.
Local Open Scope Z_scope.

(** ** Buffer table access *)
Definition buf_at (b : nat) : K buf :=
  let! t := gets bufs in deref "bcache.buf" (t !! b).

Definition upd_buf (b : nat) (f : buf -> buf) : K unit :=
  let! bf := buf_at b in
  modify (fun s => set_bufs (<[b := f bf]> (bufs s)) s).

(** ** Disk block transfer *)
Definition disk_write (n : Z) (d : block) (k : diskst) : diskst :=
  mkDisk (<[n := d]> (d_blocks k)) (d_size k) ((n, d) :: d_writes k).

Definition memdisk_read (n : Z) : K block :=
  let! k := gets disk in deref "memdisk" (d_blocks k !! n).

Definition memdisk_write (n : Z) (d : block) : K unit :=
  modify (fun s => set_disk (disk_write n d (disk s)) s).

(** ** memide.c *)
Module Memide.

(** The blocks of the image linked into the kernel, from byte [n * BSIZE]. *)
Fixpoint image_blocks (fuel : nat) (n : Z) (img : list Z) : gmap Z block :=
  match fuel with
  | O => ∅
  | S f => <[n := take 512 img]> (image_blocks f (n + 1) (drop 512 img))
  end.

Definition ideinit (img : list Z) : K unit :=
  let size := Z.of_nat (length img) / BSIZE in
  modify (fun s =>
    set_disk (mkDisk (image_blocks (Z.to_nat size) 0 img) size []) s).

Definition ideintr : K unit := ret tt.

Definition iderw (b : nat) : K unit :=
  let! bf := buf_at b in
  if negb (b_busy bf) then panic "iderw: buf not busy" else
  if b_valid bf && negb (b_dirty bf) then panic "iderw: nothing to do" else
  if negb (b_dev bf =? 1) then panic "iderw: request not for disk 1" else
  let! k := gets disk in
  if d_size k <=? b_blockno bf then panic "iderw: block out of range" else
  do (if b_dirty bf then
        do upd_buf b (set_b_dirty false);
        memdisk_write (b_blockno bf) (b_data bf)
      else
        let! d := memdisk_read (b_blockno bf) in
        upd_buf b (set_b_data d));
  upd_buf b (set_b_valid true).

End Memide.

(** ** The interface *)
Definition dev_write (b : nat) (bf : buf) (s : kstate) : kstate :=
  set_disk (disk_write (b_blockno bf) (b_data bf) (disk s))
    (set_bufs (<[b := set_b_valid true (set_b_dirty false bf)]> (bufs s)) s).

Definition dev_read (b : nat) (bf : buf) (d : block) (s : kstate) : kstate :=
  set_bufs (<[b := set_b_valid true (set_b_data d bf)]> (bufs s)) s.

Class BlockDev := {
  iderw : nat -> K unit;
  ideintr : K unit;
  iderw_write s b bf :
    bufs s !! b = Some bf -> b_busy bf = true -> b_dirty bf = true ->
    b_dev bf = 1 -> 0 <= b_blockno bf < d_size (disk s) ->
    runs (iderw b) s tt (dev_write b bf s);
  iderw_read s b bf d :
    bufs s !! b = Some bf -> b_busy bf = true -> b_dirty bf = false ->
    b_valid bf = false -> b_dev bf = 1 ->
    0 <= b_blockno bf < d_size (disk s) ->
    d_blocks (disk s) !! b_blockno bf = Some d ->
    runs (iderw b) s tt (dev_read b bf d s)
}.

(** ** Lemmas *)
Lemma buf_at_runs b bf s : bufs s !! b = Some bf -> runs (buf_at b) s bf s.
Proof. intros H e. unfold buf_at, bind, gets. by rewrite H. Qed.

Lemma upd_buf_runs b bf f s :
  bufs s !! b = Some bf ->
  runs (upd_buf b f) s tt (set_bufs (<[b := f bf]> (bufs s)) s).
Proof.
  intros H. unfold upd_buf. eapply runs_bind; [by apply buf_at_runs|].
  by intros e.
Qed.

Lemma wp_buf_at b bf s (Q : buf -> kstate -> Prop) :
  bufs s !! b = Some bf -> Q bf s -> wp (buf_at b) s Q.
Proof. intros. eapply runs_wp; [by apply buf_at_runs|done]. Qed.

Lemma wp_upd_buf b bf f s (Q : unit -> kstate -> Prop) :
  bufs s !! b = Some bf -> Q tt (set_bufs (<[b := f bf]> (bufs s)) s) ->
  wp (upd_buf b f) s Q.
Proof. intros. eapply runs_wp; [by apply upd_buf_runs|done]. Qed.

Lemma insert_bufs_lookup b (bf bf' : buf) (t : list buf) :
  t !! b = Some bf -> <[b := bf']> t !! b = Some bf'.
Proof. intros H. apply list_lookup_insert_eq. by apply lookup_lt_Some in H. Qed.

Lemma memide_write s b bf :
  bufs s !! b = Some bf -> b_busy bf = true -> b_dirty bf = true ->
  b_dev bf = 1 -> 0 <= b_blockno bf < d_size (disk s) ->
  runs (Memide.iderw b) s tt (dev_write b bf s).
Proof.
  intros Hb Hbusy Hdirty Hdev Hn e. unfold Memide.iderw.
  unfold bind at 1. rewrite (buf_at_runs _ _ _ Hb).
  rewrite Hbusy, Hdirty, Hdev, andb_false_r. cbn [negb Z.eqb Pos.eqb].
  unfold bind at 1, gets at 1.
  replace (d_size (disk s) <=? b_blockno bf) with false by lia.
  unfold bind at 1. unfold bind at 1. rewrite (upd_buf_runs _ _ _ _ Hb).
  unfold memdisk_write, modify.
  rewrite (upd_buf_runs b (set_b_dirty false bf))
    by (by apply (insert_bufs_lookup _ bf)).
  cbn. by rewrite list_insert_insert_eq.
Qed.

Lemma memide_read s b bf d :
  bufs s !! b = Some bf -> b_busy bf = true -> b_dirty bf = false ->
  b_valid bf = false -> b_dev bf = 1 ->
  0 <= b_blockno bf < d_size (disk s) ->
  d_blocks (disk s) !! b_blockno bf = Some d ->
  runs (Memide.iderw b) s tt (dev_read b bf d s).
Proof.
  intros Hb Hbusy Hdirty Hvalid Hdev Hn Hd e. unfold Memide.iderw.
  unfold bind at 1. rewrite (buf_at_runs _ _ _ Hb).
  rewrite Hbusy, Hvalid, Hdirty, Hdev. cbn [negb andb Z.eqb Pos.eqb].
  unfold bind at 1, gets at 1.
  replace (d_size (disk s) <=? b_blockno bf) with false by lia.
  unfold bind at 1. unfold memdisk_read, bind, gets. rewrite Hd. cbn [deref ret].
  rewrite (upd_buf_runs _ _ _ _ Hb).
  rewrite (upd_buf_runs b (set_b_data d bf))
    by (by apply (insert_bufs_lookup _ bf)).
  cbn. by rewrite list_insert_insert_eq.
Qed.

#[export] Instance memide_dev : BlockDev := {|
  iderw := Memide.iderw;
  ideintr := Memide.ideintr;
  iderw_write := memide_write;
  iderw_read := memide_read
|}.
