(* ===== verification/Ide.v ===== *)
(** * The IDE disk driver: ide.c

    Requests wait on a list threaded through the [qnext] fields of the
    buffers; the head of the list is the request the controller works on.  The
    controller is modelled by its task file registers: it carries out the
    command that was written last and then raises its interrupt.  The theorems
    relate a drained queue to the synchronous driver of [Disk]. *)

From S2P Require Import Prelude Bytes Kstate Sync Disk.
Local Open Scope Z_scope.

Module Drv.

Definition SECTOR_SIZE : Z := 512.
Definition IDE_CMD_READ : Z := 32.
Definition IDE_CMD_WRITE : Z := 48.

(** Ports 0x1f2 to 0x1f7, and the data sent to 0x1f0 after a write command. *)
Record taskfile := mkTf {
  r_count : Z; r_lo : Z; r_mid : Z; r_hi : Z; r_drive : Z; r_cmd : Z;
  r_data : block
}.

(** The controller is idle, has a command to do, or has finished one and
    raised its interrupt; [d] is then the sector it has read. *)
Inductive controller : Type :=
| Idle
| Busy (t : taskfile)
| Raised (d : block).

(** [id_qnext] holds the [qnext] fields, [id_disk] the sectors of the two
    drives, [id_woken] the buffers passed to [wakeup], oldest first. *)
Record idest := mkIde {
  id_bufs : list buf;
  id_qnext : list (option nat);
  id_queue : option nat;
  id_ctl : controller;
  id_disk : gmap (Z * Z) block;
  id_woken : list nat
}.

Definition sector_of (blockno : Z) : Z := blockno * (BSIZE / SECTOR_SIZE).

(** The port writes of [idestart]. *)
Definition start_regs (b : buf) : taskfile :=
  let sector := sector_of (b_blockno b) in
  mkTf (BSIZE / SECTOR_SIZE)
    (Z.land sector 255)
    (Z.land (Z.shiftr sector 8) 255)
    (Z.land (Z.shiftr sector 16) 255)
    (Z.lor (Z.lor 224 (Z.shiftl (Z.land (b_dev b) 1) 4))
       (Z.land (Z.shiftr sector 24) 15))
    (if b_dirty b then IDE_CMD_WRITE else IDE_CMD_READ)
    (if b_dirty b then b_data b else []).

Definition set_ctl (c : controller) (st : idest) : idest :=
  mkIde (id_bufs st) (id_qnext st) (id_queue st) c (id_disk st) (id_woken st).

(** [None] for a panic. *)
Definition idestart (b : option nat) (st : idest) : option idest :=
  match b with
  | None => None
  | Some i =>
      match id_bufs st !! i with
      | None => None
      | Some bf =>
          if FSSIZE <=? b_blockno bf then None
          else Some (set_ctl (Busy (start_regs bf)) st)
      end
  end.

(** [for(pp=&idequeue; *pp; pp=&( *pp)->qnext);]: the buffer whose [qnext] is
    the null pointer found, [None] for [idequeue] itself. *)
Fixpoint last_of (fuel : nat) (qnext : list (option nat)) (prev cur : option nat)
  : option nat :=
  match cur with
  | None => prev
  | Some i =>
      match fuel with
      | O => prev
      | S f => last_of f qnext cur (default None (qnext !! i))
      end
  end.

(** [iderw] up to the loop that waits; [None] for a panic. *)
Definition iderw_start (havedisk1 : bool) (i : nat) (st : idest) : option idest :=
  match id_bufs st !! i with
  | None => None
  | Some bf =>
      if negb (b_busy bf) then None else
      if b_valid bf && negb (b_dirty bf) then None else
      if negb (b_dev bf =? 0) && negb havedisk1 then None else
      let qnext := <[i := None]> (id_qnext st) in
      let st :=
        match last_of (length qnext) qnext None (id_queue st) with
        | None => mkIde (id_bufs st) qnext (Some i) (id_ctl st) (id_disk st) (id_woken st)
        | Some j => mkIde (id_bufs st) (<[j := Some i]> qnext) (id_queue st) (id_ctl st)
                      (id_disk st) (id_woken st)
        end in
      if bool_decide (id_queue st = Some i) then idestart (Some i) st else Some st
  end.

(** The condition of the waiting loop of [iderw]: the request is finished. *)
Definition finished (bf : buf) : bool := b_valid bf && negb (b_dirty bf).

(** [insl] when no error was reported; [err] is the outcome of [idewait(1)]. *)
Definition intr_buf (err : bool) (d : block) (bf : buf) : buf :=
  let bf := if negb (b_dirty bf) && negb err then set_b_data d bf else bf in
  set_b_dirty false (set_b_valid true bf).

Definition ideintr (err : bool) (st : idest) : option idest :=
  match id_queue st with
  | None => Some st
  | Some i =>
      match id_bufs st !! i with
      | None => None
      | Some bf =>
          let d := match id_ctl st with Raised d => d | _ => [] end in
          let st := mkIde (<[i := intr_buf err d bf]> (id_bufs st)) (id_qnext st)
                      (default None (id_qnext st !! i)) Idle (id_disk st)
                      (id_woken st ++ [i]) in
          match id_queue st with
          | None => Some st
          | Some _ => idestart (id_queue st) st
          end
      end
  end.

(** ** The controller *)

(** The drive and the sector a task file addresses. *)
Definition decode_sector (t : taskfile) : Z :=
  r_lo t + 256 * r_mid t + 65536 * r_hi t + 16777216 * Z.land (r_drive t) 15.
Definition decode_drive (t : taskfile) : Z := Z.land (Z.shiftr (r_drive t) 4) 1.

(** The controller carries out its command and raises the interrupt; a command
    for other than the [BSIZE] bytes the driver moves would not end. *)
Definition hw_step (st : idest) : idest :=
  match id_ctl st with
  | Busy t =>
      let n := (decode_drive t, decode_sector t) in
      if negb (r_count t * SECTOR_SIZE =? BSIZE) then st
      else if r_cmd t =? IDE_CMD_WRITE then
        mkIde (id_bufs st) (id_qnext st) (id_queue st) (Raised [])
          (<[n := r_data t]> (id_disk st)) (id_woken st)
      else
        mkIde (id_bufs st) (id_qnext st) (id_queue st)
          (Raised (default [] (id_disk st !! n))) (id_disk st) (id_woken st)
  | _ => st
  end.

(** One command: the controller works, its interrupt is handled. *)
Definition serve (st : idest) : option idest := ideintr false (hw_step st).

Fixpoint drain (n : nat) (st : idest) : option idest :=
  match n with
  | O => Some st
  | S n' => match serve st with Some st' => drain n' st' | None => None end
  end.

(** ** The queue *)

(** [l] is the list of requests: a chain through [qnext] from [q]. *)
Fixpoint chain (qnext : list (option nat)) (q : option nat) (l : list nat) : Prop :=
  match l with
  | [] => q = None
  | i :: l' => q = Some i /\ exists nx, qnext !! i = Some nx /\ chain qnext nx l'
  end.

(** A buffer whose request waits: owned, with something to do, in range. *)
Definition waiting (bf : buf) : Prop :=
  b_busy bf = true /\ finished bf = false /\ 0 <= b_blockno bf < FSSIZE.

(** The controller works on the head of the queue. *)
Definition ctl_ok (bs : list buf) (l : list nat) (c : controller) : Prop :=
  match l with
  | [] => c = Idle
  | i :: _ => exists bf, bs !! i = Some bf /\ c = Busy (start_regs bf)
  end.

Record ide_ok (st : idest) (l : list nat) : Prop := {
  io_chain : chain (id_qnext st) (id_queue st) l;
  io_nodup : NoDup l;
  io_len : length (id_qnext st) = length (id_bufs st);
  io_wait : Forall (fun i => exists bf, id_bufs st !! i = Some bf /\ waiting bf) l;
  io_ctl : ctl_ok (id_bufs st) l (id_ctl st)
}.

(** One request done synchronously, as [Disk.dev_write] and [Disk.dev_read]
    do it: the disks and the buffers. *)
Definition sync_req (sys : gmap (Z * Z) block * list buf) (i : nat) : gmap (Z * Z) block * list buf :=
  let '(D, bs) := sys in
  match bs !! i with
  | None => sys
  | Some bf =>
      let n := (Z.land (b_dev bf) 1, b_blockno bf) in
      if b_dirty bf
      then (<[n := b_data bf]> D, <[i := set_b_valid true (set_b_dirty false bf)]> bs)
      else (D, <[i := set_b_valid true (set_b_data (default [] (D !! n)) bf)]> bs)
  end.

Lemma chain_insert_notin qnext q l i v :
  i ∉ l -> chain qnext q l -> chain (<[i := v]> qnext) q l.
Proof.
  revert q. induction l as [|j l IH]; intros q Hi; cbn; [done|].
  apply not_elem_of_cons in Hi as [Hj Hi]. intros [-> (nx & Hn & Hc)].
  split; [done|]. exists nx. rewrite list_lookup_insert_ne by done. auto.
Qed.

Lemma chain_bound qnext q l : chain qnext q l -> Forall (fun i => (i < length qnext)%nat) l.
Proof.
  revert q. induction l as [|j l IH]; intros q; cbn; [done|].
  intros [-> (nx & Hn & Hc)]. constructor; [by eapply lookup_lt_Some|by eapply IH].
Qed.

Lemma nodup_bound (l : list nat) n :
  NoDup l -> Forall (fun i => (i < n)%nat) l -> (length l <= n)%nat.
Proof.
  intros Hn Hl. replace n with (length (seq 0 n)) by apply length_seq.
  apply submseteq_length, NoDup_submseteq; [done|]. intros x Hx. apply elem_of_seq.
  rewrite list.Forall_forall in Hl. specialize (Hl x Hx). lia.
Qed.

Lemma last_of_chain fuel qnext prev q l :
  chain qnext q l -> (length l <= fuel)%nat ->
  last_of fuel qnext prev q = match list.last l with Some j => Some j | None => prev end.
Proof.
  revert prev q l. induction fuel as [|fuel IH]; intros prev q l Hc Hl.
  - destruct l; [|cbn in Hl; lia]. cbn in Hc. by subst.
  - destruct l as [|i l]; cbn in Hc; [by subst|].
    destruct Hc as [-> (nx & Hn & Hc)]. cbn [last_of]. rewrite Hn. cbn [default].
    rewrite (IH _ _ l) by (done || cbn in Hl; lia).
    rewrite list.last_cons. by destruct (list.last l).
Qed.

Lemma chain_snoc qnext q l i :
  chain qnext q l -> NoDup l -> i ∉ l -> qnext !! i = Some None ->
  match list.last l with
  | None => chain qnext (Some i) [i]
  | Some j => chain (<[j := Some i]> qnext) q (l ++ [i])
  end.
Proof.
  revert q. induction l as [|j l IH]; intros q Hc Hn Hi Hq.
  - cbn. split; [done|]. by exists None.
  - apply list.NoDup_cons in Hn as [Hj Hn]. apply not_elem_of_cons in Hi as [Hij Hi].
    destruct Hc as [-> (nx & Hnx & Hc)]. specialize (IH _ Hc Hn Hi Hq).
    rewrite list.last_cons. destruct (list.last l) as [k|] eqn:Hl; cbn.
    + split; [done|]. exists nx. split; [|done].
      apply list.last_Some_elem_of in Hl. rewrite list_lookup_insert_ne; [done|].
      by intros ->.
    + apply list.last_None in Hl. subst l. cbn in Hc. subst nx. cbn. split; [done|].
      exists (Some i). rewrite list_lookup_insert_eq by (by eapply lookup_lt_Some).
      split; [done|]. split; [done|]. exists None.
      by rewrite list_lookup_insert_ne.
Qed.

Lemma waiting_finished bf : waiting bf -> finished bf = false.
Proof. by intros (_ & H & _). Qed.

(** [iderw] on an owned buffer with work to do appends the request to the
    queue, behind every request already waiting, starts the controller if it
    was idle, and does not panic. *)
Theorem iderw_appends st l i bf :
  ide_ok st l -> i ∉ l -> id_bufs st !! i = Some bf -> waiting bf ->
  exists st', iderw_start true i st = Some st' /\ ide_ok st' (l ++ [i]) /\
    id_bufs st' = id_bufs st /\ id_disk st' = id_disk st.
Proof.
  intros [Hc Hn Hlen Hw Hctl] Hi Hb (Hbusy & Hfin & Hblk). unfold iderw_start.
  rewrite Hb, Hbusy. cbn [negb]. unfold finished in Hfin. rewrite Hfin, andb_false_r.
  pose proof (lookup_lt_Some _ _ _ Hb) as Hlt. rewrite <- Hlen in Hlt.
  pose proof (chain_insert_notin _ _ _ i None Hi Hc) as Hc'.
  assert (length l <= length (<[i := None]> (id_qnext st)))%nat as Hfuel.
  { rewrite length_insert. apply nodup_bound; [done|by eapply chain_bound]. }
  rewrite (last_of_chain _ _ _ _ l) by done.
  pose proof (chain_snoc _ _ _ i Hc' Hn Hi (list_lookup_insert_eq _ _ _ Hlt)) as Hs.
  assert (NoDup (l ++ [i])) as Hn'.
  { apply list.NoDup_app. split; [done|]. split; [set_solver|apply list.NoDup_singleton]. }
  assert (Forall (fun k => exists bf, id_bufs st !! k = Some bf /\ waiting bf) (l ++ [i])) as Hw'.
  { apply Forall_app. split; [done|]. constructor; [|constructor]. by exists bf. }
  destruct (list.last l) as [j|] eqn:Hl; cbn [id_queue].
  - destruct l as [|h l]; [done|]. destruct (proj1 Hc'). cbn in Hctl.
    rewrite bool_decide_eq_false_2.
    + eexists. split; [done|]. split; [|done]. split; cbn; try done.
      by rewrite !length_insert.
    + rewrite (proj1 Hc'). apply not_elem_of_cons in Hi as [Hi _]. congruence.
  - apply list.last_None in Hl. subst l. rewrite bool_decide_eq_true_2 by done.
    unfold idestart. cbn [id_bufs]. rewrite Hb, (proj2 (Z.leb_gt _ _)) by lia.
    eexists. split; [done|]. split; [|done]. split; cbn; try done.
    + by rewrite length_insert.
    + by exists bf.
Qed.

Lemma start_regs_sector bf : 0 <= b_blockno bf < FSSIZE -> decode_sector (start_regs bf) = b_blockno bf.
Proof.
  intros Hb. unfold decode_sector, start_regs, sector_of. cbn [r_lo r_mid r_hi r_drive].
  change (BSIZE / SECTOR_SIZE) with 1. rewrite Z.mul_1_r.
  change FSSIZE with 1000 in Hb. set (n := b_blockno bf) in *.
  rewrite (Z.shiftr_div_pow2 n 24), (Z.shiftr_div_pow2 n 16), !(Z.div_small n) by lia.
  change 255 with (Z.ones 8).
  rewrite !Z.land_ones by lia. rewrite Z.shiftr_div_pow2 by lia.
  rewrite (Z.mod_small (n / 2 ^ 8)) by (split; [apply Z.div_pos; lia|apply Z.div_lt_upper_bound; lia]).
  rewrite Z.land_0_l, Z.lor_0_r.
  assert (Z.land (Z.lor 224 (Z.shiftl (Z.land (b_dev bf) 1) 4)) 15 = 0) as ->.
  { change 1 with (Z.ones 1). rewrite Z.land_ones by lia.
    pose proof (Z.mod_pos_bound (b_dev bf) (2 ^ 1)).
    assert (b_dev bf mod 2 ^ 1 = 0 \/ b_dev bf mod 2 ^ 1 = 1) as [->| ->] by lia; done. }
  rewrite Z.mod_0_l by lia. change (2 ^ 8) with 256. pose proof (Z.div_mod n 256). lia.
Qed.

Lemma start_regs_drive bf : 0 <= b_blockno bf < FSSIZE -> decode_drive (start_regs bf) = Z.land (b_dev bf) 1.
Proof.
  intros Hb. unfold decode_drive, start_regs, sector_of. cbn [r_drive]. change (BSIZE / SECTOR_SIZE) with 1. rewrite Z.mul_1_r.
  change FSSIZE with 1000 in Hb. rewrite (Z.shiftr_div_pow2 _ 24), Z.div_small, Z.land_0_l, Z.lor_0_r by lia.
  change 1 with (Z.ones 1) at 1 3. rewrite Z.land_ones by lia. pose proof (Z.mod_pos_bound (b_dev bf) (2 ^ 1) ltac:(lia)).
  assert (b_dev bf mod 2 ^ 1 = 0 \/ b_dev bf mod 2 ^ 1 = 1) as [->| ->] by lia; done.
Qed.

Lemma ideintr_next st i nx l bf d :
  id_queue st = Some i -> id_qnext st !! i = Some nx -> chain (id_qnext st) nx l ->
  i ∉ l -> NoDup l -> length (id_qnext st) = length (id_bufs st) ->
  id_bufs st !! i = Some bf ->
  Forall (fun i => exists bf, id_bufs st !! i = Some bf /\ waiting bf) l ->
  id_ctl st = Raised d ->
  exists st', ideintr false st = Some st' /\ ide_ok st' l /\ id_disk st' = id_disk st /\
    id_bufs st' = <[i := intr_buf false d bf]> (id_bufs st) /\
    id_woken st' = id_woken st ++ [i].
Proof.
  intros Hq Hnx Hc Hi Hn Hlen Hb Hw Hctl. unfold ideintr.
  rewrite Hq, Hb, Hctl, Hnx. change (default None (Some nx)) with nx. cbn [id_queue].
  assert (Forall (fun k => exists bf', <[i := intr_buf false d bf]> (id_bufs st) !! k = Some bf'
    /\ waiting bf') l) as Hw'.
  { apply list.Forall_forall. intros k Hk. rewrite list_lookup_insert_ne by (by intros ->).
    rewrite list.Forall_forall in Hw. by apply Hw. }
  destruct l as [|j l].
  - cbn in Hc. subst nx. eexists. split; [done|]. split; [|done].
    split; cbn; try done. by rewrite length_insert.
  - destruct (proj1 (list.Forall_cons _ _ _) Hw') as [(bj & Hj & Hwait) _].
    pose proof Hc as [-> _]. cbn [id_queue]. unfold idestart. cbn [id_bufs id_queue]. rewrite Hj.
    rewrite (proj2 (Z.leb_gt _ _)) by apply Hwait.
    eexists. split; [done|]. split; [|done].
    split; cbn; try done; [by rewrite length_insert|by exists bj].
Qed.

(** One command: the head of the queue is done as [sync_req] does it. *)
Lemma serve_one st i l :
  ide_ok st (i :: l) ->
  exists st', serve st = Some st' /\ ide_ok st' l /\
    (id_disk st', id_bufs st') = sync_req (id_disk st, id_bufs st) i /\
    id_woken st' = id_woken st ++ [i].
Proof.
  intros [[Hq (nx & Hnx & Hc)] Hn Hlen Hw (bf & Hb & Hctl)].
  apply list.NoDup_cons in Hn as [Hi Hn].
  apply list.Forall_cons in Hw as [(bf' & Hb' & Hbusy & Hfin & Hblk) Hw].
  rewrite Hb in Hb'. injection Hb' as <-.
  unfold serve, hw_step, sync_req. rewrite Hctl, start_regs_sector, start_regs_drive, Hb by done.
  change (negb (r_count (start_regs bf) * SECTOR_SIZE =? BSIZE)) with false. cbn [r_cmd start_regs r_data]. destruct (b_dirty bf) eqn:Hd; cbn [Z.eqb Pos.eqb IDE_CMD_WRITE IDE_CMD_READ].
  - edestruct (ideintr_next (mkIde (id_bufs st) (id_qnext st) (id_queue st) (Raised [])
      (<[(Z.land (b_dev bf) 1, b_blockno bf) := b_data bf]> (id_disk st)) (id_woken st)))
      as (st' & Hst & Hok & HD & HB & HW); [done..|].
    exists st'. split; [done|]. split; [done|]. split; [|done].
    rewrite HD, HB. unfold intr_buf. by rewrite Hd.
  - edestruct (ideintr_next (mkIde (id_bufs st) (id_qnext st) (id_queue st)
      (Raised (default [] (id_disk st !! (Z.land (b_dev bf) 1, b_blockno bf)))) (id_disk st) (id_woken st)))
      as (st' & Hst & Hok & HD & HB & HW); [done..|].
    exists st'. split; [done|]. split; [done|]. split; [|done].
    rewrite HD, HB. unfold intr_buf. rewrite Hd. cbn [negb andb id_disk id_bufs].
    do 2 f_equal. by destruct bf; cbn in Hd; subst.
Qed.

(** C22: once the controller has carried out as many commands as there were
    requests, the queue is empty, every request is finished, in the order in
    which the requests were made, and the two disks and the buffers are what
    doing the requests one after the other synchronously gives. *)
Theorem ide_refines_sync st l :
  ide_ok st l ->
  exists st', drain (length l) st = Some st' /\ ide_ok st' [] /\
    (id_disk st', id_bufs st') = foldl sync_req (id_disk st, id_bufs st) l /\
    id_woken st' = id_woken st ++ l.
Proof.
  revert st. induction l as [|i l IH]; intros st Hok; cbn.
  - exists st. by rewrite app_nil_r.
  - destruct (serve_one _ _ _ Hok) as (st1 & -> & Hok1 & Hs1 & Hw1).
    destruct (IH _ Hok1) as (st2 & -> & Hok2 & Hs2 & Hw2).
    exists st2. split; [done|]. split; [done|].
    rewrite Hs1 in Hs2. rewrite Hw2, Hw1, <- app_assoc. done.
Qed.

(** After a failed read the interrupt handler leaves the data of the buffer
    as it was and marks the buffer valid. *)
Theorem ide_read_error d bf :
  b_dirty bf = false -> finished (intr_buf true d bf) = true /\ b_data (intr_buf true d bf) = b_data bf.
Proof. intros H. unfold intr_buf, finished. rewrite H. by destruct bf. Qed.

(** An idle driver with three buffers: a block to write and two to read. *)
Definition demo_buf (dirty : bool) (n v : Z) : buf :=
  mkBuf true dirty dirty 1 n 0 0 (replicate 512 v).
Definition demo_ide : idest :=
  mkIde [demo_buf true 5 1; demo_buf false 5 0; demo_buf false 6 0]
    [None; None; None] None Idle {[(1, 5) := replicate 512 7; (1, 6) := replicate 512 9]} [].

Lemma demo_ok : ide_ok demo_ide [].
Proof. by repeat split; try constructor. Qed.

Lemma iderw_appends_witness :
  exists st', iderw_start true 0 demo_ide = Some st' /\ ide_ok st' ([] ++ [0%nat]) /\
    id_bufs st' = id_bufs demo_ide /\ id_disk st' = id_disk demo_ide.
Proof.
  apply (iderw_appends demo_ide [] 0 (demo_buf true 5 1)).
  - exact demo_ok.
  - apply not_elem_of_nil.
  - reflexivity.
  - by vm_compute.
Defined.

(** The queue after requests for buffers 0 and 1. *)
Definition demo_queued : idest :=
  mkIde (id_bufs demo_ide) [Some 1%nat; None; None] (Some 0%nat)
    (Busy (start_regs (demo_buf true 5 1))) (id_disk demo_ide) [].

Lemma demo_queued_ok : ide_ok demo_queued [0; 1]%nat.
Proof.
  split; cbn.
  - split; [done|]. exists (Some 1%nat). split; [done|]. split; [done|]. by exists None.
  - repeat constructor; set_solver.
  - done.
  - repeat constructor; (eexists; split; [done|by vm_compute]).
  - by eexists.
Qed.

Lemma ide_refines_sync_witness :
  exists st', drain 2 demo_queued = Some st' /\ ide_ok st' [] /\
    (id_disk st', id_bufs st') =
      foldl sync_req (id_disk demo_queued, id_bufs demo_queued) [0; 1]%nat /\
    id_woken st' = id_woken demo_queued ++ [0; 1]%nat.
Proof. apply (ide_refines_sync demo_queued [0; 1]%nat). exact demo_queued_ok. Defined.

Lemma ide_read_error_witness :
  finished (intr_buf true [] (demo_buf false 5 3)) = true /\
  b_data (intr_buf true [] (demo_buf false 5 3)) = b_data (demo_buf false 5 3).
Proof. apply (ide_read_error [] (demo_buf false 5 3)). reflexivity. Defined.

End Drv.
