(* ===== verification/Bio.v ===== *)
(** * The buffer cache: bio.c

    [bcache.buf] and [bcache.head] are the table [bufs]: buffer [b] for
    [b < NBUF] and the list head at index [NBUF].  The prev and next pointers
    are kept as the code keeps them; [lru] says that they form the circular
    list in most-recently-used order, and the lemmas show what the pointer
    code of [binit], [bget] and [brelse] does to that order.  What the cache
    promises its clients is stated and proved in [Cache]. *)

From S2P Require Import Prelude Bytes Kstate Sync Disk.
Local Open Scope Z_scope.

(** ** The code *)

(** [for(b = start; b != &bcache.head; b = b->dir) if(test(b)) ...] *)
Fixpoint scan (dir : buf -> nat) (test : buf -> bool) (fuel b : nat)
  : K (option nat) :=
  match fuel with
  | O => hang
  | S f =>
      if (b =? NBUF)%nat then ret None else
      let! bf := buf_at b in
      if test bf then ret (Some b) else scan dir test f (dir bf)
  end.

Definition is_block (dev blockno : Z) (bf : buf) : bool :=
  (b_dev bf =? dev) && (b_blockno bf =? blockno).

Definition is_free (bf : buf) : bool := negb (b_busy bf) && negb (b_dirty bf).

(** The body of the loop of [binit]: put [b] at the front. *)
Definition binit_insert (b : nat) : K unit :=
  let! h := buf_at NBUF in
  do upd_buf b (set_b_next (b_next h));
  do upd_buf b (set_b_prev NBUF);
  do upd_buf b (set_b_dev (u32 (-1)));
  let! h := buf_at NBUF in
  do upd_buf (b_next h) (set_b_prev b);
  upd_buf NBUF (set_b_next b).

Definition binit : K unit :=
  do upd_buf NBUF (set_b_prev NBUF);
  do upd_buf NBUF (set_b_next NBUF);
  mfor NBUF 0 binit_insert.

(** The second half of [bget]: recycle a clean buffer nobody uses. *)
Definition bget_recycle (dev blockno : Z) : K nat :=
  let! h := buf_at NBUF in
  let! r := scan b_prev is_free (S NBUF) (b_prev h) in
  match r with
  | Some b =>
      do upd_buf b (fun bf => mkBuf true false false dev blockno
                                (b_prev bf) (b_next bf) (b_data bf));
      do release BcacheLock;
      ret b
  | None => panic "bget: no buffers"
  end.

(** [fuel] bounds the number of times the caller sleeps. *)
Fixpoint bget_loop (fuel : nat) (dev blockno : Z) : K nat :=
  let! h := buf_at NBUF in
  let! r := scan b_next (is_block dev blockno) (S NBUF) (b_next h) in
  match r with
  | Some b =>
      let! bf := buf_at b in
      if negb (b_busy bf) then
        do upd_buf b (set_b_busy true);
        do release BcacheLock;
        ret b
      else
        do sleep (ChBuf b) BcacheLock;
        match fuel with
        | O => hang
        | S f => bget_loop f dev blockno
        end
  | None => bget_recycle dev blockno
  end.

Definition bget (dev blockno : Z) : K nat :=
  do acquire BcacheLock;
  let! n := pending in
  bget_loop n dev blockno.

Definition brelse (b : nat) : K unit :=
  let! bf := buf_at b in
  if negb (b_busy bf) then panic "brelse" else
  do acquire BcacheLock;
  do upd_buf (b_next bf) (set_b_prev (b_prev bf));
  do upd_buf (b_prev bf) (set_b_next (b_next bf));
  let! h := buf_at NBUF in
  do upd_buf b (set_b_next (b_next h));
  do upd_buf b (set_b_prev NBUF);
  let! h := buf_at NBUF in
  do upd_buf (b_next h) (set_b_prev b);
  do upd_buf NBUF (set_b_next b);
  do upd_buf b (set_b_busy false);
  do wakeup (ChBuf b);
  release BcacheLock.

Section Device.
Context {Dev : BlockDev}.

Definition bread (dev blockno : Z) : K nat :=
  let! b := bget dev blockno in
  let! bf := buf_at b in
  do when (negb (b_valid bf)) (iderw b);
  ret b.

Definition bwrite (b : nat) : K unit :=
  let! bf := buf_at b in
  if negb (b_busy bf) then panic "bwrite" else
  do upd_buf b (set_b_dirty true);
  iderw b.
End Device.

(** ** The list the pointers represent *)
Definition next_of (t : list buf) (i : nat) : option nat := b_next <$> t !! i.
Definition prev_of (t : list buf) (i : nat) : option nat := b_prev <$> t !! i.

Definition linked (t : list buf) (x y : nat) : Prop :=
  next_of t x = Some y /\ prev_of t y = Some x.

Fixpoint chain (t : list buf) (x : nat) (l : list nat) (y : nat) : Prop :=
  match l with
  | [] => linked t x y
  | z :: l' => linked t x z /\ chain t z l' y
  end.

(** [lru t l]: the pointers of [t] form the circular list head, [l], head. *)
Definition lru (t : list buf) (l : list nat) : Prop :=
  length t = S NBUF /\ NoDup l /\ (forall i, i ∈ l <-> (i < NBUF)%nat) /\
  chain t NBUF l NBUF.

(** The first buffer of [l] that passes a test. *)
Fixpoint first_match (t : list buf) (test : buf -> bool) (l : list nat)
  : option nat :=
  match l with
  | [] => None
  | b :: l' =>
      if default false (test <$> t !! b) then Some b
      else first_match t test l'
  end.

(** A buffer without its list pointers. *)
Definition content (bf : buf) : buf := set_b_prev 0%nat (set_b_next 0%nat bf).
Definition contents (t : list buf) : list buf := content <$> t.

(** ** Pointer lemmas *)
Lemma chain_app t x l1 z l2 y :
  chain t x (l1 ++ z :: l2) y <-> chain t x l1 z /\ chain t z l2 y.
Proof.
  revert x. induction l1 as [|w l1 IH]; intros x; simpl; [done|].
  rewrite IH. tauto.
Qed.

Lemma chain_ext t t' x l y :
  (forall i, i ∈ x :: l -> next_of t' i = next_of t i) ->
  (forall i, i ∈ l ++ [y] -> prev_of t' i = prev_of t i) ->
  chain t x l y -> chain t' x l y.
Proof.
  revert x. induction l as [|z l IH]; intros x Hn Hp; simpl.
  - intros [H1 H2]. split; [rewrite Hn|rewrite Hp]; set_solver.
  - intros [[H1 H2] H3]. split.
    + split; [rewrite Hn|rewrite Hp]; set_solver.
    + apply IH; [| |done]; intros i Hi; [apply Hn|apply Hp]; set_solver.
Qed.

Lemma chain_lookup t x l y i :
  chain t x l y -> i ∈ x :: l -> is_Some (t !! i).
Proof.
  revert x. induction l as [|z l IH]; intros x.
  - intros [H _] Hi. assert (i = x) as -> by set_solver.
    unfold next_of in H. by destruct (t !! x).
  - intros [[H _] H3] [->|Hi]%elem_of_cons; [|by apply (IH z)].
    unfold next_of in H. by destruct (t !! x).
Qed.

Lemma lru_lookup t l i : lru t l -> (i <= NBUF)%nat -> is_Some (t !! i).
Proof.
  intros (Hl & _) Hi. apply lookup_lt_is_Some_2. rewrite Hl. lia.
Qed.

Lemma lru_head_notin t l : lru t l -> NBUF ∉ l.
Proof. intros (_ & _ & H & _) Hin. apply H in Hin. lia. Qed.

Section Update.
Context (t : list buf) (i : nat) (bf bf' : buf) (Hi : t !! i = Some bf).

Lemma next_of_insert j :
  next_of (<[i := bf']> t) j =
  if decide (i = j) then Some (b_next bf') else next_of t j.
Proof using Hi.
  unfold next_of. case_decide as Hd; [subst j|].
  - by rewrite (insert_bufs_lookup _ _ _ _ Hi).
  - by rewrite list_lookup_insert_ne.
Qed.

Lemma prev_of_insert j :
  prev_of (<[i := bf']> t) j =
  if decide (i = j) then Some (b_prev bf') else prev_of t j.
Proof using Hi.
  unfold prev_of. case_decide as Hd; [subst j|].
  - by rewrite (insert_bufs_lookup _ _ _ _ Hi).
  - by rewrite list_lookup_insert_ne.
Qed.

(** An update that keeps the pointers keeps the order. *)
Lemma lru_insert l :
  b_next bf' = b_next bf -> b_prev bf' = b_prev bf ->
  lru t l -> lru (<[i := bf']> t) l.
Proof using Hi.
  intros Hn Hp (Hl & Hd & Hr & Hc).
  split; [by rewrite length_insert|]. split; [done|]. split; [done|].
  eapply chain_ext; [| |exact Hc]; intros j _.
  - rewrite next_of_insert. case_decide; [subst j|done].
    unfold next_of. rewrite Hi. cbn. by rewrite Hn.
  - rewrite prev_of_insert. case_decide; [subst j|done].
    unfold prev_of. rewrite Hi. cbn. by rewrite Hp.
Qed.

Lemma contents_insert : contents (<[i := bf']> t) = <[i := content bf']> (contents t).
Proof. apply list_fmap_insert. Qed.

Lemma contents_insert_links :
  content bf' = content bf -> contents (<[i := bf']> t) = contents t.
Proof using Hi.
  intros Hc. rewrite contents_insert, Hc. apply list_insert_id.
  unfold contents. by rewrite list_lookup_fmap, Hi.
Qed.
End Update.

(** ** The pointer assignments, as table updates *)
Definition setn (i v : nat) (t : list buf) : list buf := alter (set_b_next v) i t.
Definition setp (i v : nat) (t : list buf) : list buf := alter (set_b_prev v) i t.

Lemma alter_insert (t : list buf) i bf f :
  t !! i = Some bf -> alter f i t = <[i := f bf]> t.
Proof.
  intros H. rewrite list_insert_alter. apply list_alter_ext; [|done].
  intros x Hx. by simplify_eq.
Qed.

Lemma upd_buf_alter b f s :
  (b < length (bufs s))%nat ->
  runs (upd_buf b f) s tt (set_bufs (alter f b (bufs s)) s).
Proof.
  intros Hb. destruct (lookup_lt_is_Some_2 _ _ Hb) as [bf Hbf].
  rewrite (alter_insert _ _ _ _ Hbf). by apply upd_buf_runs.
Qed.

Lemma setn_length i v t : length (setn i v t) = length t.
Proof. apply length_alter. Qed.

Lemma setp_length i v t : length (setp i v t) = length t.
Proof. apply length_alter. Qed.

Lemma next_of_setn i v t j :
  (i < length t)%nat ->
  next_of (setn i v t) j = if decide (i = j) then Some v else next_of t j.
Proof.
  intros Hi. destruct (lookup_lt_is_Some_2 _ _ Hi) as [bf Hbf].
  unfold setn. rewrite (alter_insert _ _ _ _ Hbf). by rewrite (next_of_insert _ _ bf).
Qed.

Lemma prev_of_setp i v t j :
  (i < length t)%nat ->
  prev_of (setp i v t) j = if decide (i = j) then Some v else prev_of t j.
Proof.
  intros Hi. destruct (lookup_lt_is_Some_2 _ _ Hi) as [bf Hbf].
  unfold setp. rewrite (alter_insert _ _ _ _ Hbf). by rewrite (prev_of_insert _ _ bf).
Qed.

Lemma next_of_setp i v t j : next_of (setp i v t) j = next_of t j.
Proof.
  unfold next_of, setp. destruct (decide (i = j)) as [->|].
  - rewrite list_lookup_alter. case_decide; [|done]. by destruct (t !! j).
  - by rewrite list_lookup_alter_ne.
Qed.

Lemma prev_of_setn i v t j : prev_of (setn i v t) j = prev_of t j.
Proof.
  unfold prev_of, setn. destruct (decide (i = j)) as [->|].
  - rewrite list_lookup_alter. case_decide; [|done]. by destruct (t !! j).
  - by rewrite list_lookup_alter_ne.
Qed.

Lemma contents_setn i v t : contents (setn i v t) = contents t.
Proof.
  unfold contents, setn. apply list_eq. intros j. rewrite !list_lookup_fmap.
  rewrite list_lookup_alter. case_decide; [subst j|done]. by destruct (t !! i).
Qed.

Lemma contents_setp i v t : contents (setp i v t) = contents t.
Proof.
  unfold contents, setp. apply list_eq. intros j. rewrite !list_lookup_fmap.
  rewrite list_lookup_alter. case_decide; [subst j|done]. by destruct (t !! i).
Qed.

Create Rewrite HintDb links.
#[export] Hint Rewrite setn_length setp_length next_of_setp prev_of_setn
  contents_setn contents_setp : links.

Lemma chain_prev_in t x l y p :
  chain t x l y -> prev_of t y = Some p -> p ∈ x :: l.
Proof.
  revert x. induction l as [|z l IH]; intros x; simpl.
  - intros [_ H] H'. simplify_eq. set_solver.
  - intros [_ H] Hp. specialize (IH _ H Hp). set_solver.
Qed.

Lemma chain_next_in t x l y n :
  chain t x l y -> next_of t x = Some n -> n ∈ l ++ [y].
Proof.
  destruct l as [|z l]; simpl.
  - intros [H _] H'. simplify_eq. set_solver.
  - intros [[H _] _] Hn. simplify_eq. set_solver.
Qed.

(** Taking [b] out of the list. *)
Lemma chain_unlink t t' x l1 b l2 y p n :
  chain t x l1 b -> chain t b l2 y ->
  prev_of t b = Some p -> next_of t b = Some n ->
  NoDup (x :: l1 ++ b :: l2) -> y ∉ l1 ++ b :: l2 ->
  (forall j, next_of t' j = if decide (p = j) then Some n else next_of t j) ->
  (forall j, prev_of t' j = if decide (n = j) then Some p else prev_of t j) ->
  chain t' x (l1 ++ l2) y.
Proof.
  intros H1 H2 Hp Hn Hd Hy Hnx Hpr. revert x H1 Hd.
  induction l1 as [|w l1 IH]; intros x H1 Hd; simpl in *.
  - destruct H1 as [_ H1]. rewrite Hp in H1. injection H1 as ->.
    destruct l2 as [|w l2]; simpl in *.
    + destruct H2 as [H2 _]. rewrite Hn in H2. injection H2 as ->.
      split; [rewrite Hnx|rewrite Hpr]; by rewrite decide_True.
    + destruct H2 as [[H2 _] H3]. rewrite Hn in H2. injection H2 as ->.
      split; [split; [rewrite Hnx|rewrite Hpr]; by rewrite decide_True|].
      eapply chain_ext; [| |exact H3].
      * intros i Hi. rewrite Hnx, decide_False; [done|].
        intros <-. apply list.NoDup_cons in Hd as [Hd _]. set_solver.
      * intros i Hi. rewrite Hpr, decide_False; [done|]. intros <-.
        apply elem_of_app in Hi as [Hi|Hi]; [|set_solver].
        rewrite !list.NoDup_cons in Hd. tauto.
  - destruct H1 as [[Ha Hb] H1].
    pose proof (chain_prev_in _ _ _ _ _ H1 Hp) as Hpin.
    pose proof (chain_next_in _ _ _ _ _ H2 Hn) as Hnin.
    apply list.NoDup_cons in Hd as [Hx Hd]. split; [split|].
    + rewrite Hnx, decide_False; [done|]. intros <-. set_solver.
    + rewrite Hpr, decide_False; [done|]. intros <-.
      apply list.NoDup_cons in Hd as [Hw _]. set_solver.
    + apply IH; [set_solver|done|done].
Qed.

(** Putting [b] in front. *)
Lemma chain_push t t' x b l y n :
  chain t x l y -> next_of t x = Some n -> b ∉ x :: l -> b <> y ->
  NoDup (x :: l) -> y ∉ l ->
  (forall j, next_of t' j = if decide (x = j) then Some b else
             if decide (b = j) then Some n else next_of t j) ->
  (forall j, prev_of t' j = if decide (n = j) then Some b else
             if decide (b = j) then Some x else prev_of t j) ->
  chain t' x (b :: l) y.
Proof.
  intros Hc Hn Hb Hby Hd Hy Hnx Hpr.
  pose proof (chain_next_in _ _ _ _ _ Hc Hn) as Hnin.
  assert (n <> b) by set_solver. assert (x <> b) by set_solver.
  simpl. split.
  - split; [by rewrite Hnx, decide_True|].
    by rewrite Hpr, decide_False, decide_True.
  - destruct l as [|w l]; simpl in *.
    + destruct Hc as [Hc _]. simplify_eq.
      split; [by rewrite Hnx, decide_False, decide_True|by rewrite Hpr, decide_True].
    + destruct Hc as [[Hc _] H3]. rewrite Hn in Hc. injection Hc as ->.
      split; [split; [by rewrite Hnx, decide_False, decide_True|
                      by rewrite Hpr, decide_True]|].
      rewrite !list.NoDup_cons in Hd. eapply chain_ext; [| |exact H3].
      * intros i Hi. rewrite Hnx, !decide_False; [done| |]; set_solver.
      * intros i Hi. rewrite Hpr, !decide_False; [done| |]; set_solver.
Qed.

(** ** Scans *)
Lemma scan_next_runs test s x l z fuel :
  chain (bufs s) x l NBUF -> NBUF ∉ l -> next_of (bufs s) x = Some z ->
  (length l < fuel)%nat ->
  runs (scan b_next test fuel z) s (first_match (bufs s) test l) s.
Proof.
  revert x z fuel. induction l as [|w l IH]; intros x z fuel Hc Hn Hz Hf;
    (destruct fuel as [|fuel]; [simpl in *; lia|]); cbn [scan first_match].
  - destruct Hc as [Hc _]. simplify_eq. rewrite Nat.eqb_refl. apply runs_ret.
  - destruct Hc as [[Hc _] H3]. rewrite Hc in Hz. injection Hz as <-.
    apply not_elem_of_cons in Hn as [Hw Hn].
    replace (w =? NBUF)%nat with false by (symmetry; by apply Nat.eqb_neq).
    destruct (chain_lookup _ _ _ _ w H3) as [bf Hbf]; [set_solver|].
    eapply runs_bind; [by apply buf_at_runs|]. rewrite Hbf. cbn.
    destruct (test bf); [apply runs_ret|].
    apply (IH w); [done|done| |simpl in Hf; lia].
    unfold next_of. by rewrite Hbf.
Qed.

Lemma scan_prev_runs test s l y z fuel :
  chain (bufs s) NBUF l y -> NBUF ∉ l -> prev_of (bufs s) y = Some z ->
  (length l < fuel)%nat ->
  runs (scan b_prev test fuel z) s (first_match (bufs s) test (reverse l)) s.
Proof.
  revert y z fuel. induction l as [|w l IH] using rev_ind; intros y z fuel Hc Hn Hz Hf;
    (destruct fuel as [|fuel]; [simpl in *; lia|]); cbn [scan].
  - destruct Hc as [_ Hc]. simplify_eq. rewrite Nat.eqb_refl. apply runs_ret.
  - rewrite reverse_snoc. cbn [first_match].
    apply chain_app in Hc as [Hc [Hl Hp]]. rewrite Hp in Hz. injection Hz as <-.
    apply not_elem_of_app in Hn as [Hn Hw].
    replace (w =? NBUF)%nat with false
      by (symmetry; apply Nat.eqb_neq; set_solver).
    unfold next_of in Hl. destruct (bufs s !! w) as [bf|] eqn:Hbf; [|done].
    eapply runs_bind; [by apply buf_at_runs|]. cbn.
    destruct (test bf); [apply runs_ret|].
    apply (IH w); [done|done| |rewrite length_app in Hf; simpl in Hf; lia].
    unfold prev_of. by rewrite Hbf.
Qed.

Lemma first_match_Some t test l b :
  first_match t test l = Some b ->
  exists l1 l2 bf, l = l1 ++ b :: l2 /\ t !! b = Some bf /\ test bf = true /\
    forall c cf, c ∈ l1 -> t !! c = Some cf -> test cf = false.
Proof.
  induction l as [|a l IH]; cbn [first_match]; [done|].
  destruct (t !! a) as [af|] eqn:Ha; cbn.
  - destruct (test af) eqn:Ht.
    + intros [= <-]. exists [], l, af. repeat split; [done..|]. set_solver.
    + intros H. destruct (IH H) as (l1 & l2 & bf & -> & Hb & Hbt & Hn).
      exists (a :: l1), l2, bf. repeat split; [done..|].
      intros c cf [->|Hc]%elem_of_cons Hcf; [by simplify_eq|eauto].
  - intros H. destruct (IH H) as (l1 & l2 & bf & -> & Hb & Hbt & Hn).
    exists (a :: l1), l2, bf. repeat split; [done..|].
    intros c cf [->|Hc]%elem_of_cons Hcf; [by simplify_eq|eauto].
Qed.

Lemma first_match_None t test l b bf :
  first_match t test l = None -> b ∈ l -> t !! b = Some bf -> test bf = false.
Proof.
  induction l as [|a l IH]; cbn [first_match]; [set_solver|].
  intros H [->|Hb]%elem_of_cons Hbf.
  - rewrite Hbf in H. cbn in H. by destruct (test bf).
  - destruct (default false (test <$> t !! a)); [done|eauto].
Qed.

Lemma lru_length t l : lru t l -> length l = NBUF.
Proof.
  intros (_ & Hd & Hr & _).
  assert (l ≡ₚ seq 0 NBUF) as Hp.
  { apply NoDup_Permutation; [done|apply NoDup_seq|].
    intros i. rewrite Hr, elem_of_seq. lia. }
  apply Permutation_length in Hp. by rewrite length_seq in Hp.
Qed.

Lemma chain_first t x l y : chain t x l y -> is_Some (next_of t x).
Proof. destruct l; simpl; [intros [-> _]|intros [[-> _] _]]; eauto. Qed.

Lemma chain_last t x l y : chain t x l y -> is_Some (prev_of t y).
Proof.
  revert x. induction l as [|z l IH]; intros x; simpl; [intros [_ ->]; eauto|].
  intros [_ H]. eauto.
Qed.

Lemma next_of_lookup t i n :
  next_of t i = Some n -> exists bf, t !! i = Some bf /\ b_next bf = n.
Proof. unfold next_of. destruct (t !! i); naive_solver. Qed.

Lemma prev_of_lookup t i n :
  prev_of t i = Some n -> exists bf, t !! i = Some bf /\ b_prev bf = n.
Proof. unfold prev_of. destruct (t !! i); naive_solver. Qed.

(** The two scans of [bget], over the list in use order. *)
Lemma scan_lru_forward test s l :
  lru (bufs s) l ->
  runs (let! h := buf_at NBUF in scan b_next test (S NBUF) (b_next h)) s
    (first_match (bufs s) test l) s.
Proof.
  intros H. pose proof (lru_head_notin _ _ H) as Hn.
  pose proof (lru_length _ _ H) as Hl. destruct H as (_ & _ & _ & Hc).
  destruct (chain_first _ _ _ _ Hc) as [z Hz].
  destruct (next_of_lookup _ _ _ Hz) as (h & Hh & <-).
  eapply runs_bind; [by apply buf_at_runs|].
  apply (scan_next_runs _ _ NBUF); [done|done|done|]. rewrite Hl. lia.
Qed.

Lemma scan_lru_backward test s l :
  lru (bufs s) l ->
  runs (let! h := buf_at NBUF in scan b_prev test (S NBUF) (b_prev h)) s
    (first_match (bufs s) test (reverse l)) s.
Proof.
  intros H. pose proof (lru_head_notin _ _ H) as Hn.
  pose proof (lru_length _ _ H) as Hl. destruct H as (_ & _ & _ & Hc).
  destruct (chain_last _ _ _ _ Hc) as [z Hz].
  destruct (prev_of_lookup _ _ _ Hz) as (h & Hh & <-).
  eapply runs_bind; [by apply buf_at_runs|].
  apply (scan_prev_runs _ _ _ NBUF); [done|done|done|]. rewrite Hl. lia.
Qed.

(** ** Moving a buffer to the front *)
Definition move_front (b p n h : nat) (t : list buf) : list buf :=
  setn NBUF b (setp h b (setp b NBUF (setn b h (setn p n (setp n p t))))).

Lemma move_front_contents b p n h t : contents (move_front b p n h t) = contents t.
Proof. unfold move_front. by autorewrite with links. Qed.

(** The buffers of the list, and its head, are entries of the table. *)
Lemma lru_entry (t : list buf) l i : length t = S NBUF -> (forall j, j ∈ l -> (j < NBUF)%nat) -> i ∈ NBUF :: l -> (i < length t)%nat.
Proof. intros -> Hl [->|Hi]%elem_of_cons; [lia|]. specialize (Hl i Hi). lia. Qed.

Lemma move_front_lru t l1 b l2 p n h :
  lru t (l1 ++ b :: l2) -> prev_of t b = Some p -> next_of t b = Some n ->
  next_of (setn p n (setp n p t)) NBUF = Some h ->
  lru (move_front b p n h t) (b :: l1 ++ l2).
Proof.
  intros H Hp Hn Hh. pose proof (lru_head_notin _ _ H) as Hhead.
  destruct H as (Hlen & Hd & Hr & Hc).
  assert (b < NBUF)%nat as Hb by (apply Hr; set_solver).
  apply chain_app in Hc as [Hc1 Hc2].
  assert (forall j, j ∈ l1 ++ l2 -> (j < NBUF)%nat) as Hr' by (intros j Hj; apply Hr; set_solver).
  assert (p < length t)%nat as Hpl.
  { pose proof (chain_prev_in _ _ _ _ _ Hc1 Hp). apply (lru_entry t (l1 ++ l2)); [done..|set_solver]. }
  assert (n < length t)%nat as Hnl.
  { pose proof (chain_next_in _ _ _ _ _ Hc2 Hn). apply (lru_entry t (l1 ++ l2)); [done..|set_solver]. }
  set (t2 := setn p n (setp n p t)) in *.
  assert (chain t2 NBUF (l1 ++ l2) NBUF) as Hc.
  { eapply (chain_unlink t); [exact Hc1|exact Hc2|exact Hp|exact Hn| |done| |].
    - by apply list.NoDup_cons.
    - intros j. unfold t2. rewrite next_of_setn by (autorewrite with links; lia).
      by autorewrite with links.
    - intros j. unfold t2. autorewrite with links. by apply prev_of_setp. }
  assert (h < length t)%nat as Hhl.
  { pose proof (chain_next_in _ _ _ _ _ Hc Hh). apply (lru_entry t (l1 ++ l2)); [done..|set_solver]. }
  assert (NoDup (b :: l1 ++ l2)) as Hd'.
  { by rewrite Permutation_middle. }
  split; [|split; [done|split]].
  - unfold move_front. by autorewrite with links.
  - intros i. rewrite <- Hr. set_solver.
  - apply list.NoDup_cons in Hd' as [Hb' Hd'].
    eapply (chain_push t2); [exact Hc|exact Hh| |lia| | | |].
    + apply not_elem_of_cons. split; [lia|done].
    + apply list.NoDup_cons. split; [set_solver|done].
    + set_solver.
    + intros j. unfold move_front. fold t2.
      assert (length t2 = length t) by (unfold t2; by autorewrite with links).
      rewrite next_of_setn by (autorewrite with links; lia).
      case_decide; [done|]. autorewrite with links. rewrite next_of_setn by lia. done.
    + intros j. unfold move_front. fold t2.
      assert (length t2 = length t) by (unfold t2; by autorewrite with links).
      autorewrite with links. rewrite !prev_of_setp by (autorewrite with links; lia).
      case_decide; [done|]. case_decide; [done|]. by autorewrite with links.
Qed.

Lemma contents_alter f i t :
  (forall bf, content (f bf) = f (content bf)) ->
  contents (alter f i t) = alter f i (contents t).
Proof.
  intros Hf. unfold contents. apply list_eq. intros j.
  rewrite list_lookup_fmap, !list_lookup_alter, !list_lookup_fmap.
  case_decide; [|done]. subst j. destruct (t !! i) as [x|]; [|done].
  cbn. by rewrite Hf.
Qed.

Lemma contents_lookup t i bf :
  t !! i = Some bf -> contents t !! i = Some (content bf).
Proof. intros H. unfold contents. by rewrite list_lookup_fmap, H. Qed.

Ltac run_upd :=
  eapply runs_bind;
  [apply upd_buf_alter; cbn; rewrite ?length_alter; autorewrite with links; lia|].

Lemma lru_neighbours t l b p n :
  lru t l -> b ∈ l -> prev_of t b = Some p -> next_of t b = Some n ->
  (p < length t)%nat /\ (n < length t)%nat.
Proof.
  intros (Hlen & _ & Hr & Hc) Hb Hp Hn.
  apply list_elem_of_split in Hb as (l1 & l2 & ->).
  apply chain_app in Hc as [Hc1 Hc2]. rewrite Hlen.
  assert (forall i, i ∈ NBUF :: (l1 ++ b :: l2) -> (i < S NBUF)%nat) as Hlt.
  { intros i [->|Hi]%elem_of_cons; [lia|]. apply Hr in Hi. lia. }
  split; apply Hlt.
  - pose proof (chain_prev_in _ _ _ _ _ Hc1 Hp). set_solver.
  - pose proof (chain_next_in _ _ _ _ _ Hc2 Hn). set_solver.
Qed.

Lemma lru_head_next t l b p n :
  lru t l -> b ∈ l -> prev_of t b = Some p -> next_of t b = Some n ->
  exists h, next_of (setn p n (setp n p t)) NBUF = Some h /\ (h < length t)%nat.
Proof.
  intros H Hb Hp Hn. destruct (lru_neighbours _ _ _ _ _ H Hb Hp Hn) as [Hpl Hnl].
  rewrite next_of_setn by (autorewrite with links; lia). case_decide; [by exists n|].
  autorewrite with links. destruct H as (Hlen & _ & Hr & Hc).
  destruct (chain_first _ _ _ _ Hc) as [h Hh]. exists h. split; [done|].
  pose proof (chain_next_in _ _ _ _ _ Hc Hh) as Hin. rewrite Hlen.
  apply elem_of_app in Hin as [Hin|Hin].
  - apply Hr in Hin. lia.
  - assert (h = NBUF) as -> by set_solver. lia.
Qed.

(** What [brelse] does: the buffer is no longer busy, is now the most recently
    used, and nothing else about any buffer changes. *)
Lemma brelse_runs s b bf l1 l2 :
  held s = [] -> lru (bufs s) (l1 ++ b :: l2) ->
  bufs s !! b = Some bf -> b_busy bf = true ->
  exists t', lru t' (b :: l1 ++ l2) /\
    contents t' = <[b := content (set_b_busy false bf)]> (contents (bufs s)) /\
    runs (brelse b) s tt
      (set_ptable (wakeup1 (Some (ChBuf b)) (ptable s)) (set_bufs t' s)).
Proof.
  intros Hh Hl Hb Hbusy.
  set (p := b_prev bf). set (n := b_next bf).
  assert (prev_of (bufs s) b = Some p) as Hp by (unfold prev_of; by rewrite Hb).
  assert (next_of (bufs s) b = Some n) as Hn by (unfold next_of; by rewrite Hb).
  assert (b ∈ l1 ++ b :: l2) as Hin by set_solver.
  destruct (lru_neighbours _ _ _ _ _ Hl Hin Hp Hn) as [Hpl Hnl].
  destruct (lru_head_next _ _ _ _ _ Hl Hin Hp Hn) as (h & Hhn & Hhl).
  pose proof (move_front_lru _ _ _ _ _ _ _ Hl Hp Hn Hhn) as Hfront.
  assert (length (bufs s) = S NBUF) as Hlen by apply Hl.
  assert (b < NBUF)%nat as HbN by (by apply Hl).
  exists (alter (set_b_busy false) b (move_front b p n h (bufs s))).
  split; [|split].
  - destruct (lru_lookup _ _ b Hfront) as [bf' Hbf']; [lia|].
    rewrite (alter_insert _ _ _ _ Hbf'). by apply (lru_insert _ _ bf').
  - rewrite contents_alter by done. rewrite move_front_contents.
    by rewrite (alter_insert _ _ (content bf)) by (by apply contents_lookup).
  - unfold brelse. eapply runs_bind; [by apply buf_at_runs|].
    rewrite Hbusy. cbn [negb].
    eapply runs_bind; [apply acquire_runs; rewrite Hh; set_solver|].
    run_upd. run_upd.
    destruct (next_of_lookup _ _ _ Hhn) as (hf & Hhf & Hhe).
    eapply runs_bind; [by apply buf_at_runs|]. rewrite Hhe.
    run_upd. run_upd.
    assert (next_of (setp b NBUF (setn b h (setn p n (setp n p (bufs s))))) NBUF
            = Some h) as Hhn2.
    { autorewrite with links. rewrite next_of_setn by (autorewrite with links; lia).
      rewrite decide_False by lia. done. }
    destruct (next_of_lookup _ _ _ Hhn2) as (hf2 & Hhf2 & Hhe2).
    eapply runs_bind; [by apply buf_at_runs|]. rewrite Hhe2.
    run_upd. run_upd. run_upd.
    eapply runs_bind; [apply wakeup_runs; cbn; rewrite Hh; set_solver|].
    intros e. rewrite (release_runs _ _ []); [|by cbn; rewrite Hh|set_solver].
    destruct s; cbn in *; by subst.
Qed.

(** ** [bget] *)
Lemma pending_bind {A} (k : nat -> K A) s a s' :
  (forall n, runs (k n) s a s') -> runs (bind pending k) s a s'.
Proof. intros H e. unfold bind, pending. apply H. Qed.

Lemma bget_hit_runs s dev n l b bf :
  held s = [] -> lru (bufs s) l ->
  first_match (bufs s) (is_block dev n) l = Some b ->
  bufs s !! b = Some bf -> b_busy bf = false ->
  runs (bget dev n) s b (set_bufs (<[b := set_b_busy true bf]> (bufs s)) s).
Proof.
  intros Hh Hl Hf Hb Hbusy. unfold bget.
  eapply runs_bind; [apply acquire_runs; rewrite Hh; set_solver|].
  apply pending_bind. intros k.
  set (s1 := set_held _ s).
  assert (runs (bget_loop k dev n) s1 b
    (set_held [] (set_bufs (<[b := set_b_busy true bf]> (bufs s)) s1))) as H.
  { destruct k; cbn [bget_loop];
    (intros e; rewrite <- bind_assoc; revert e;
     eapply runs_bind; [apply (scan_lru_forward _ s1 l); exact Hl|];
     change (bufs s1) with (bufs s); rewrite Hf;
     eapply runs_bind; [by apply buf_at_runs|]; rewrite Hbusy; cbn [negb];
     eapply runs_bind; [by apply upd_buf_runs|];
     eapply runs_bind; [apply (release_runs _ _ []); [cbn; by rewrite Hh|set_solver]|];
     apply runs_ret). }
  intros e. rewrite H. destruct s; cbn in *; by subst.
Qed.

Lemma bget_recycle_runs s dev n l b bf :
  held s = [] -> lru (bufs s) l ->
  first_match (bufs s) (is_block dev n) l = None ->
  first_match (bufs s) is_free (reverse l) = Some b ->
  bufs s !! b = Some bf ->
  runs (bget dev n) s b
    (set_bufs (<[b := mkBuf true false false dev n (b_prev bf) (b_next bf)
                        (b_data bf)]> (bufs s)) s).
Proof.
  intros Hh Hl Hf Hr Hb. unfold bget.
  eapply runs_bind; [apply acquire_runs; rewrite Hh; set_solver|].
  apply pending_bind. intros k.
  set (s1 := set_held _ s).
  assert (runs (bget_recycle dev n) s1 b (set_held [] (set_bufs
    (<[b := mkBuf true false false dev n (b_prev bf) (b_next bf) (b_data bf)]>
       (bufs s)) s1))) as H.
  { unfold bget_recycle. intros e; rewrite <- bind_assoc; revert e.
    eapply runs_bind; [apply (scan_lru_backward _ s1 l); exact Hl|].
    change (bufs s1) with (bufs s). rewrite Hr.
    eapply runs_bind; [by apply upd_buf_runs|].
    eapply runs_bind; [apply (release_runs _ _ []); [cbn; by rewrite Hh|set_solver]|].
    apply runs_ret. }
  assert (runs (bget_loop k dev n) s1 b (set_held [] (set_bufs
    (<[b := mkBuf true false false dev n (b_prev bf) (b_next bf) (b_data bf)]>
       (bufs s)) s1))) as H'.
  { destruct k; cbn [bget_loop];
    (intros e; rewrite <- bind_assoc; revert e;
     eapply runs_bind; [apply (scan_lru_forward _ s1 l); exact Hl|];
     change (bufs s1) with (bufs s); rewrite Hf; exact H). }
  intros e. rewrite H'. destruct s; cbn in *; by subst.
Qed.

(** ** [binit] *)
Lemma next_of_alter f i t j :
  (forall bf, b_next (f bf) = b_next bf) -> next_of (alter f i t) j = next_of t j.
Proof.
  intros Hf. unfold next_of. rewrite list_lookup_alter.
  case_decide; [subst j|done]. destruct (t !! i); [|done]. cbn. by rewrite Hf.
Qed.

Lemma prev_of_alter f i t j :
  (forall bf, b_prev (f bf) = b_prev bf) -> prev_of (alter f i t) j = prev_of t j.
Proof.
  intros Hf. unfold prev_of. rewrite list_lookup_alter.
  case_decide; [subst j|done]. destruct (t !! i); [|done]. cbn. by rewrite Hf.
Qed.

Definition push_front (b n : nat) (t : list buf) : list buf :=
  setn NBUF b (setp n b (alter (set_b_dev (u32 (-1))) b (setp b NBUF (setn b n t)))).

Lemma push_front_chain t l b n :
  length t = S NBUF -> chain t NBUF l NBUF -> next_of t NBUF = Some n ->
  (b < NBUF)%nat -> b ∉ l -> NoDup l -> NBUF ∉ l -> (n <= NBUF)%nat ->
  chain (push_front b n t) NBUF (b :: l) NBUF.
Proof.
  intros Hlen Hc Hn Hb Hbl Hd Hhl Hnl.
  eapply (chain_push t); [exact Hc|exact Hn| |lia| |done| |].
  - apply not_elem_of_cons. split; [lia|done].
  - by apply list.NoDup_cons.
  - intros j. unfold push_front.
    rewrite next_of_setn by (autorewrite with links; rewrite length_alter; autorewrite with links; lia).
    case_decide; [done|]. autorewrite with links.
    rewrite next_of_alter by done. autorewrite with links.
    by rewrite next_of_setn by lia.
  - intros j. unfold push_front. autorewrite with links.
    rewrite prev_of_setp by (rewrite length_alter; autorewrite with links; lia).
    case_decide; [done|]. rewrite prev_of_alter by done.
    rewrite prev_of_setp by (autorewrite with links; lia).
    case_decide; [done|]. by autorewrite with links.
Qed.

Lemma push_front_contents b n t :
  contents (push_front b n t) = alter (set_b_dev (u32 (-1))) b (contents t).
Proof.
  unfold push_front. autorewrite with links. rewrite contents_alter by done.
  by autorewrite with links.
Qed.

Lemma push_front_length b n t : length (push_front b n t) = length t.
Proof. unfold push_front. autorewrite with links. rewrite length_alter. by autorewrite with links. Qed.

Lemma alter_prefix {A} (f : A -> A) i (c : list A) :
  (i < length c)%nat ->
  alter f i ((f <$> take i c) ++ drop i c) = (f <$> take (S i) c) ++ drop (S i) c.
Proof.
  intros Hi. destruct (lookup_lt_is_Some_2 _ _ Hi) as [x Hx].
  rewrite alter_app_r_alt by (rewrite length_fmap, length_take; lia).
  rewrite length_fmap, length_take, Nat.min_l, Nat.sub_diag by lia.
  rewrite (drop_S _ _ _ Hx), (take_S_r _ _ _ Hx), fmap_app, <- app_assoc. done.
Qed.

Lemma binit_insert_runs s b n :
  length (bufs s) = S NBUF -> (b < NBUF)%nat -> (n <= NBUF)%nat ->
  next_of (bufs s) NBUF = Some n ->
  runs (binit_insert b) s tt (set_bufs (push_front b n (bufs s)) s).
Proof.
  intros Hlen Hb Hn Hnx. unfold binit_insert.
  destruct (next_of_lookup _ _ _ Hnx) as (h & Hh & Hhn).
  eapply runs_bind; [by apply buf_at_runs|]. rewrite Hhn.
  run_upd. run_upd. run_upd.
  assert (next_of (alter (set_b_dev (u32 (-1))) b (setp b NBUF
    (setn b n (bufs s)))) NBUF = Some n) as Hn2.
  { rewrite next_of_alter by done. autorewrite with links.
    rewrite next_of_setn by lia. by rewrite decide_False by lia. }
  destruct (next_of_lookup _ _ _ Hn2) as (h2 & Hh2 & Hhe).
  eapply runs_bind; [by apply buf_at_runs|]. rewrite Hhe.
  run_upd. intros e.
  rewrite upd_buf_alter by (cbn; rewrite !length_alter; lia). done.
Qed.

Lemma reverse_seq_lt i b : i ∈ reverse (seq 0 b) -> (i < b)%nat.
Proof. rewrite elem_of_reverse, elem_of_seq. lia. Qed.

Lemma reverse_seq_NoDup b : NoDup (reverse (seq 0 b)).
Proof. rewrite reverse_Permutation. apply NoDup_seq. Qed.

(** [binit] links all buffers into one circular list, buffer [NBUF - 1]
    first, marks each as holding no block, and changes nothing else. *)
Theorem binit_lru s :
  length (bufs s) = S NBUF ->
  wp binit s (fun _ s' =>
    lru (bufs s') (reverse (seq 0 NBUF)) /\ s' = set_bufs (bufs s') s /\
    contents (bufs s') =
      (set_b_dev (u32 (-1)) <$> take NBUF (contents (bufs s)))
        ++ drop NBUF (contents (bufs s))).
Proof.
  intros Hlen. unfold binit.
  eapply wp_bind_runs; [apply upd_buf_alter; rewrite Hlen; lia|].
  eapply wp_bind_runs; [apply upd_buf_alter; cbn; rewrite length_alter, Hlen; lia|].
  set (c := contents (bufs s)). cbn [bufs set_bufs].
  fold (setp NBUF NBUF (bufs s)). fold (setn NBUF NBUF (setp NBUF NBUF (bufs s))).
  apply (wp_mfor (fun i s' =>
    length (bufs s') = S NBUF /\ s' = set_bufs (bufs s') s /\
    chain (bufs s') NBUF (reverse (seq 0 i)) NBUF /\
    contents (bufs s') = (set_b_dev (u32 (-1)) <$> take i c) ++ drop i c)).
  - cbn [bufs set_bufs]. autorewrite with links. do 2 (split; [done|]).
    split; [split|done]; autorewrite with links.
    + rewrite next_of_setn by (autorewrite with links; lia). by rewrite decide_True.
    + rewrite prev_of_setp by lia. by rewrite decide_True.
  - intros b s1 [_ Hb] (Hl1 & Hs1 & Hc1 & Hk1). cbn in Hb.
    destruct (chain_first _ _ _ _ Hc1) as [n Hn].
    assert (n <= NBUF)%nat as HnN.
    { apply (chain_next_in _ _ _ _ _ Hc1) in Hn.
      apply elem_of_app in Hn as [Hi%reverse_seq_lt|Hi]; [lia|set_solver]. }
    eapply runs_wp; [by apply binit_insert_runs|].
    cbn [bufs set_bufs]. split; [by rewrite push_front_length|].
    split; [by rewrite Hs1|]. split.
    + rewrite seq_S, reverse_snoc, Nat.add_0_l.
      apply push_front_chain; [done..|lia| | | |done].
      * intros Hi%reverse_seq_lt. lia.
      * apply reverse_seq_NoDup.
      * intros Hi%reverse_seq_lt. lia.
    + rewrite push_front_contents, Hk1. apply alter_prefix.
      unfold c, contents. rewrite length_fmap, Hlen. lia.
  - intros s1 (Hl1 & Hs1 & Hc1 & Hk1). cbn [Nat.add] in *.
    split; [|by split]. split; [done|]. split; [apply reverse_seq_NoDup|].
    split; [|done]. intros i. rewrite elem_of_reverse, elem_of_seq. lia.
Qed.
