(* ===== verification/Cache.v ===== *)
(** * What the buffer cache promises

    The abstract state of bio.c: the blocks on disk, the contents every block
    has as seen through the cache, the blocks whose buffer some process holds
    (B_BUSY), and the blocks whose buffer must not be evicted (B_DIRTY).
    [cache_rep] relates it to the kernel's buffer table, and the theorems show
    that [bread], [bwrite] and [brelse] implement the abstract operations. *)

From S2P Require Import Prelude Bytes Kstate Sync Disk Bio.
Local Open Scope Z_scope.

Record cache := mkCache {
  c_disk : gmap Z block;
  c_size : Z;
  c_writes : list (Z * block);
  c_view : gmap Z block;
  c_busy : gmap Z nat;
  c_dirty : gset Z
}.

(** ** The abstract operations *)
Definition c_acquire (n : Z) (b : nat) (c : cache) : cache :=
  mkCache (c_disk c) (c_size c) (c_writes c) (c_view c)
    (<[n := b]> (c_busy c)) (c_dirty c).

Definition c_free (n : Z) (c : cache) : cache :=
  mkCache (c_disk c) (c_size c) (c_writes c) (c_view c)
    (delete n (c_busy c)) (c_dirty c).

Definition c_store (n : Z) (d : block) (c : cache) : cache :=
  mkCache (c_disk c) (c_size c) (c_writes c) (<[n := d]> (c_view c))
    (c_busy c) (c_dirty c).

Definition c_pin (n : Z) (c : cache) : cache :=
  mkCache (c_disk c) (c_size c) (c_writes c) (c_view c) (c_busy c)
    ({[n]} ∪ c_dirty c).

Definition c_flush (n : Z) (d : block) (c : cache) : cache :=
  mkCache (<[n := d]> (c_disk c)) (c_size c) ((n, d) :: c_writes c) (c_view c)
    (c_busy c) (c_dirty c ∖ {[n]}).

(** How many blocks keep a buffer from being recycled. *)
Definition c_inuse (c : cache) : nat := size (dom (c_busy c) ∪ c_dirty c).

(** ** The representation *)
Definition buf_ok (c : cache) (b : nat) (bf : buf) : Prop :=
  (b_dev bf = 1 -> 0 <= b_blockno bf < c_size c) /\
  (b_busy bf = true -> b_dev bf = 1 /\ b_valid bf = true /\
     c_busy c !! b_blockno bf = Some b) /\
  (b_dirty bf = true -> b_dev bf = 1 /\ b_valid bf = true /\
     b_blockno bf ∈ c_dirty c) /\
  (b_valid bf = true -> b_dev bf = 1 /\
     c_view c !! b_blockno bf = Some (b_data bf)).

Record table_rep (t : list buf) (c : cache) : Prop := {
  tr_buf b bf : (b < NBUF)%nat -> t !! b = Some bf -> buf_ok c b bf;
  tr_uniq b b' bf bf' : (b < NBUF)%nat -> (b' < NBUF)%nat ->
    t !! b = Some bf -> t !! b' = Some bf' ->
    b_dev bf = 1 -> b_dev bf' = 1 -> b_blockno bf = b_blockno bf' -> b = b';
  tr_busy n b : c_busy c !! n = Some b ->
    exists bf, (b < NBUF)%nat /\ t !! b = Some bf /\ b_busy bf = true /\
      b_blockno bf = n;
  tr_dirty n : n ∈ c_dirty c ->
    exists b bf, (b < NBUF)%nat /\ t !! b = Some bf /\ b_dirty bf = true /\
      b_blockno bf = n
}.

Record cache_ok (c : cache) : Prop := {
  co_disk n : 0 <= n < c_size c -> is_Some (c_disk c !! n);
  co_view n : 0 <= n < c_size c -> is_Some (c_view c !! n);
  co_disk_bytes n d : c_disk c !! n = Some d -> bytes_ok 512 d;
  co_view_bytes n d : c_view c !! n = Some d -> bytes_ok 512 d;
  co_clean n : n ∉ c_dirty c -> c_busy c !! n = None ->
    c_view c !! n = c_disk c !! n
}.

Record cache_rep (s : kstate) (c : cache) : Prop := {
  cr_held : held s = [];
  cr_lru : exists l, lru (bufs s) l;
  cr_disk : disk s = mkDisk (c_disk c) (c_size c) (c_writes c);
  cr_table : table_rep (contents (bufs s)) c;
  cr_ok : cache_ok c
}.

(** The parts of the kernel state the buffer cache may change: buffers and disk;
    processes that wait for a buffer are woken. *)
Definition bio_frame (s s' : kstate) : Prop :=
  exists t k P, woken (ptable s) P /\ s' = set_ptable P (set_disk k (set_bufs t s)).

#[export] Instance bio_frame_preorder : PreOrder bio_frame.
Proof.
  split.
  - intros s. exists (bufs s), (disk s), (ptable s). by destruct s.
  - intros s1 s2 s3 (t & k & P & W & ->) (t' & k' & P' & W' & ->). exists t', k', P'. split; [by etrans|done].
Qed.

Lemma bio_frame_bufs t s : bio_frame s (set_bufs t s).
Proof. exists t, (disk s), (ptable s). by destruct s. Qed.

Lemma bio_frame_disk k s : bio_frame s (set_disk k s).
Proof. exists (bufs s), k, (ptable s). by destruct s. Qed.

Lemma bio_frame_ptable P s : woken (ptable s) P -> bio_frame s (set_ptable P s).
Proof. intros W. exists (bufs s), (disk s), P. by destruct s. Qed.

Lemma bio_frame_fields s s' :
  bio_frame s s' ->
  held s' = held s /\ klog s' = klog s /\ sb s' = sb s /\ icache s' = icache s /\
  ftable s' = ftable s /\ pipes s' = pipes s /\ curproc s' = curproc s /\
  mem s' = mem s /\ kmem s' = kmem s.
Proof. by intros (t & k & P & _ & ->). Qed.

(** ** Recycling *)
Definition blockno_at (t : list buf) (b : nat) : Z :=
  default 0 (b_blockno <$> t !! b).

Lemma busy_or_dirty_block t c b bf :
  table_rep t c -> (b < NBUF)%nat -> t !! b = Some bf -> is_free bf = false ->
  b_dev bf = 1 /\ b_blockno bf ∈ dom (c_busy c) ∪ c_dirty c.
Proof.
  intros H Hb Hbf Hf. destruct (tr_buf _ _ H _ _ Hb Hbf) as (_ & H1 & H2 & _).
  unfold is_free in Hf. rewrite elem_of_union, elem_of_dom.
  destruct (b_busy bf); [|destruct (b_dirty bf); [|done]].
  - destruct H1 as (-> & _ & ->); [done|]. eauto.
  - destruct H2 as (-> & _ & H2); [done|]. eauto.
Qed.

(** If fewer blocks are in use than there are buffers, one can be recycled. *)
Lemma free_buffer t c :
  table_rep t c -> length t = S NBUF -> (c_inuse c < NBUF)%nat ->
  exists b bf, (b < NBUF)%nat /\ t !! b = Some bf /\ is_free bf = true.
Proof.
  intros H Hlen Huse.
  destruct (decide (Exists (fun b => default false (is_free <$> t !! b) = true)
                      (seq 0 NBUF))) as [He|Hn].
  - apply list.Exists_exists in He as (b & Hb & Hf). apply elem_of_seq in Hb.
    destruct (t !! b) as [bf|] eqn:Hbf; [|done]. exists b, bf.
    split; [lia|]. done.
  - exfalso.
    assert (forall b, b ∈ seq 0 NBUF -> exists bf, t !! b = Some bf /\
              b_dev bf = 1 /\ b_blockno bf ∈ dom (c_busy c) ∪ c_dirty c) as Hall.
    { intros b Hb. pose proof Hb as Hb'. apply elem_of_seq in Hb'.
      destruct (lookup_lt_is_Some_2 t b) as [bf Hbf]; [lia|].
      exists bf. split; [done|]. eapply (busy_or_dirty_block _ _ b); [done|lia|done|].
      apply not_true_is_false. intros Hf. apply Hn, list.Exists_exists.
      exists b. by rewrite Hbf. }
    assert (NoDup (blockno_at t <$> seq 0 NBUF)) as Hd.
    { apply NoDup_fmap_2_strong; [|apply NoDup_seq].
      intros b b' Hb Hb' Heq.
      destruct (Hall b Hb) as (bf & Hbf & Hdev & _).
      destruct (Hall b' Hb') as (bf' & Hbf' & Hdev' & _).
      apply elem_of_seq in Hb, Hb'. unfold blockno_at in Heq.
      rewrite Hbf, Hbf' in Heq. cbn in Heq.
      eapply (tr_uniq _ _ H); [| |done..]; lia. }
    assert (list_to_set (blockno_at t <$> seq 0 NBUF) ⊆ dom (c_busy c) ∪ c_dirty c)
      as Hsub.
    { intros n Hin. apply elem_of_list_to_set, list_elem_of_fmap in Hin as (b & -> & Hb).
      destruct (Hall b Hb) as (bf & Hbf & _ & Hin).
      unfold blockno_at. by rewrite Hbf. }
    apply subseteq_size in Hsub. rewrite size_list_to_set in Hsub by done.
    rewrite length_fmap, length_seq in Hsub. unfold c_inuse in Huse. lia.
Qed.

(** ** Table updates *)
Section Table.
Context (t : list buf) (c : cache) (b : nat) (bf : buf).
Context (Ht : table_rep t c) (Hb : (b < NBUF)%nat) (Hbf : t !! b = Some bf).

Lemma insert_lookup_cases (bf' bf2 : buf) b2 :
  <[b := bf']> t !! b2 = Some bf2 ->
  (b2 = b /\ bf2 = bf') \/ (b2 <> b /\ t !! b2 = Some bf2).
Proof using Hbf.
  destruct (decide (b2 = b)) as [->|Hne].
  - rewrite (insert_bufs_lookup _ _ _ _ Hbf). intros [= ->]. by left.
  - rewrite list_lookup_insert_ne by done. intros H. by right.
Qed.

Lemma busy_elsewhere b2 bf2 :
  b2 <> b -> (b2 < NBUF)%nat -> t !! b2 = Some bf2 -> b_dev bf = 1 ->
  b_dev bf2 = 1 -> b_blockno bf2 <> b_blockno bf.
Proof using Ht Hb Hbf.
  intros Hne Hb2 Hbf2 Hd Hd2 Heq. apply Hne.
  by eapply (tr_uniq _ _ Ht b2 b).
Qed.

(** A buffer taken over for block [n]: it was the buffer of [n] already, or no
    buffer is for [n] and it is not in use. *)
Lemma table_acquire n bf' :
  0 <= n < c_size c -> c_busy c !! n = None -> b_busy bf = false ->
  (b_dirty bf = true -> b_blockno bf = n) ->
  (forall b2 bf2, (b2 < NBUF)%nat -> t !! b2 = Some bf2 -> b_dev bf2 = 1 ->
     b_blockno bf2 = n -> b2 = b) ->
  b_busy bf' = true -> b_valid bf' = true -> b_dirty bf' = b_dirty bf ->
  b_dev bf' = 1 -> b_blockno bf' = n -> c_view c !! n = Some (b_data bf') ->
  table_rep (<[b := bf']> t) (c_acquire n b c).
Proof using Ht Hb Hbf.
  intros Hn Hfree Hbusy Hdirty Hone B1 B2 B3 B4 B5 B6.
  assert (forall b2 bf2, b2 <> b -> (b2 < NBUF)%nat -> t !! b2 = Some bf2 ->
            b_dev bf2 = 1 -> b_blockno bf2 <> n) as Hother.
  { intros b2 bf2 Hne Hb2 Hl Hd Heq. by apply Hne, (Hone b2 bf2). }
  split.
  - intros b2 bf2 Hb2 [[-> ->]|[Hne Hl]]%insert_lookup_cases.
    + destruct (tr_buf _ _ Ht _ _ Hb Hbf) as (_ & _ & H3 & _).
      split; [by rewrite B5|]. rewrite B1, B2, B3, B4, B5. cbn.
      rewrite lookup_insert_eq. split; [done|]. split; [|done].
      intros Hd. destruct (H3 Hd) as (_ & _ & H). by rewrite <- (Hdirty Hd).
    + destruct (tr_buf _ _ Ht _ _ Hb2 Hl) as (H1 & H2 & H3 & H4).
      split; [done|]. split; [|by split]. intros Hbz. destruct (H2 Hbz) as (Hd & Hv & Hz).
      do 2 (split; [done|]). cbn. rewrite lookup_insert_ne; [done|].
      intros Heq. by apply (Hother b2 bf2).
  - intros b1 b2 bf1 bf2 Hb1 Hb2 L1 L2 D1 D2 Heq.
    apply insert_lookup_cases in L1 as [[-> ->]|[Hne1 L1]];
      apply insert_lookup_cases in L2 as [[-> ->]|[Hne2 L2]]; [done| | |].
    + exfalso. by apply (Hother b2 bf2); [..|congruence].
    + exfalso. by apply (Hother b1 bf1); [..|congruence].
    + by apply (tr_uniq _ _ Ht b1 b2 bf1 bf2).
  - intros m b2. cbn. intros [[<- <-]|[Hne Hl]]%lookup_insert_Some.
    + exists bf'. by rewrite (insert_bufs_lookup _ _ _ _ Hbf).
    + destruct (tr_busy _ _ Ht _ _ Hl) as (bf2 & Hb2 & Hl2 & Hz & Hm).
      exists bf2. rewrite list_lookup_insert_ne; [done|].
      intros <-. simplify_eq. congruence.
  - intros m Hm. destruct (tr_dirty _ _ Ht _ Hm) as (b2 & bf2 & Hb2 & Hl2 & Hd & Hn2).
    destruct (decide (b2 = b)) as [->|Hne].
    + simplify_eq. exists b, bf'. rewrite (insert_bufs_lookup _ _ _ _ Hbf).
      rewrite B3, Hd. rewrite (Hdirty Hd). done.
    + exists b2, bf2. by rewrite list_lookup_insert_ne.
Qed.

(** An update of the buffer that keeps the block it is for. *)
Lemma table_update c' bf' :
  b_dev bf' = b_dev bf -> b_blockno bf' = b_blockno bf -> buf_ok c' b bf' ->
  (forall b2 bf2, b2 <> b -> (b2 < NBUF)%nat -> t !! b2 = Some bf2 ->
     buf_ok c b2 bf2 -> buf_ok c' b2 bf2) ->
  (forall m b2, c_busy c' !! m = Some b2 ->
     (b2 = b /\ b_busy bf' = true /\ b_blockno bf' = m) \/
     (b2 <> b /\ c_busy c !! m = Some b2)) ->
  (forall m, m ∈ c_dirty c' ->
     (b_dirty bf' = true /\ b_blockno bf' = m) \/
     (m ∈ c_dirty c /\ m <> b_blockno bf)) ->
  table_rep (<[b := bf']> t) c'.
Proof using Ht Hb Hbf.
  intros Hdev Hno Hok Hothers Hbusy Hdirty. split.
  - intros b2 bf2 Hb2 [[-> ->]|[Hne Hl]]%insert_lookup_cases; [done|].
    apply Hothers; [done..|]. by apply (tr_buf _ _ Ht).
  - intros b1 b2 bf1 bf2 Hb1 Hb2 L1 L2 D1 D2 Heq.
    apply insert_lookup_cases in L1 as [[-> ->]|[Hne1 L1]];
      apply insert_lookup_cases in L2 as [[-> ->]|[Hne2 L2]]; [done| | |].
    + eapply (tr_uniq _ _ Ht b b2 bf bf2); congruence.
    + eapply (tr_uniq _ _ Ht b1 b bf1 bf); congruence.
    + by apply (tr_uniq _ _ Ht b1 b2 bf1 bf2).
  - intros m b2 Hm. destruct (Hbusy _ _ Hm) as [(-> & Hz & Hn)|[Hne Hl]].
    + exists bf'. by rewrite (insert_bufs_lookup _ _ _ _ Hbf).
    + destruct (tr_busy _ _ Ht _ _ Hl) as (bf2 & Hb2 & Hl2 & Hz & Hn).
      exists bf2. by rewrite list_lookup_insert_ne.
  - intros m Hm. destruct (Hdirty _ Hm) as [[Hd Hn]|[Hd Hne]].
    + exists b, bf'. by rewrite (insert_bufs_lookup _ _ _ _ Hbf).
    + destruct (tr_dirty _ _ Ht _ Hd) as (b2 & bf2 & Hb2 & Hl2 & Hz & Hn).
      exists b2, bf2. rewrite list_lookup_insert_ne; [done|].
      intros <-. simplify_eq.
Qed.

Context (n : Z) (Hheld : c_busy c !! n = Some b).

Lemma held_buffer :
  b_busy bf = true /\ b_valid bf = true /\ b_dev bf = 1 /\ b_blockno bf = n /\
  0 <= n < c_size c /\ c_view c !! n = Some (b_data bf).
Proof using Ht Hb Hbf Hheld.
  destruct (tr_busy _ _ Ht _ _ Hheld) as (bf2 & _ & Hl & Hz & Hn). simplify_eq.
  destruct (tr_buf _ _ Ht _ _ Hb Hbf) as (H1 & H2 & _ & H4).
  destruct (H2 Hz) as (Hd & Hv & _). destruct (H4 Hv). split_and!; auto; by apply H1.
Qed.

(** No other buffer is busy, dirty or valid for the block of [b]. *)
Lemma held_only b2 bf2 m :
  b2 <> b -> (b2 < NBUF)%nat -> t !! b2 = Some bf2 -> b_dev bf2 = 1 ->
  b_blockno bf2 = m -> m <> n.
Proof using Ht Hb Hbf Hheld.
  destruct held_buffer as (_ & _ & Hd & Hn & _). intros Hne Hb2 Hl Hd2 <-.
  rewrite <- Hn. by apply (busy_elsewhere b2).
Qed.

Lemma busy_other m b2 : c_busy c !! m = Some b2 -> m <> n -> b2 <> b.
Proof using Ht Hb Hbf Hheld.
  intros Hm Hne ->. destruct (tr_busy _ _ Ht _ _ Hm) as (bf2 & _ & Hl & _ & Hn).
  destruct held_buffer as (_ & _ & _ & Hn' & _). simplify_eq.
Qed.

Lemma busy_cases m b2 :
  c_busy c !! m = Some b2 ->
  (b2 = b /\ b_busy bf = true /\ b_blockno bf = m) \/
  (b2 <> b /\ c_busy c !! m = Some b2).
Proof using Ht Hb Hbf Hheld.
  destruct held_buffer as (Hz & _ & _ & Hn & _). intros Hm.
  destruct (decide (m = n)) as [->|Hne].
  - simplify_eq. by left.
  - right. split; [|done]. by apply (busy_other m).
Qed.

Lemma dirty_cases m :
  m ∈ c_dirty c ->
  (b_dirty bf = true /\ b_blockno bf = m) \/ (m ∈ c_dirty c /\ m <> b_blockno bf).
Proof using Ht Hb Hbf Hheld.
  destruct held_buffer as (_ & _ & Hd & Hn & _). rewrite Hn. intros Hm.
  destruct (decide (m = n)) as [->|Hne]; [left|by right].
  destruct (tr_dirty _ _ Ht _ Hm) as (b2 & bf2 & Hb2 & Hl & Hdy & Hn2).
  assert (b2 = b) as ->; [|by simplify_eq].
  destruct (tr_buf _ _ Ht _ _ Hb2 Hl) as (_ & _ & K3 & _).
  destruct (K3 Hdy) as (Hd2 & _). apply (tr_uniq _ _ Ht b2 b bf2 bf); congruence.
Qed.

Lemma table_free : table_rep (<[b := set_b_busy false bf]> t) (c_free n c).
Proof using Ht Hb Hbf Hheld.
  destruct held_buffer as (Hz & Hv & Hd & Hn & Hr & Hw).
  destruct (tr_buf _ _ Ht _ _ Hb Hbf) as (H1 & H2 & H3 & H4).
  apply table_update; [done..| | | |].
  - do 2 (split; [done|]). by split.
  - intros b2 bf2 Hne Hb2 Hl (K1 & K2 & K3 & K4).
    split; [done|]. split; [|done]. intros Hz2. destruct (K2 Hz2) as (Kd & Kv & Kb).
    do 2 (split; [done|]). cbn. rewrite lookup_delete_ne; [done|].
    intros Heq. by apply (held_only b2 bf2 n).
  - intros m b2. cbn. intros [Hne Hl]%lookup_delete_Some. right.
    split; [|done]. by apply (busy_other m).
  - exact dirty_cases.
Qed.

Lemma table_store d : table_rep (<[b := set_b_data d bf]> t) (c_store n d c).
Proof using Ht Hb Hbf Hheld.
  destruct held_buffer as (Hz & Hv & Hd & Hn & Hr & Hw).
  destruct (tr_buf _ _ Ht _ _ Hb Hbf) as (H1 & H2 & H3 & H4).
  apply table_update; [done..| | | |].
  - do 3 (split; [done|]). intros _. split; [done|]. cbn. rewrite Hn.
    apply lookup_insert_eq.
  - intros b2 bf2 Hne Hb2 Hl (K1 & K2 & K3 & K4).
    do 3 (split; [done|]). intros Hv2. destruct (K4 Hv2) as (Kd & Kw).
    split; [done|]. cbn. rewrite lookup_insert_ne; [done|].
    intros Heq. by apply (held_only b2 bf2 n).
  - exact busy_cases.
  - exact dirty_cases.
Qed.

Lemma table_pin : table_rep (<[b := set_b_dirty true bf]> t) (c_pin n c).
Proof using Ht Hb Hbf Hheld.
  destruct held_buffer as (Hz & Hv & Hd & Hn & Hr & Hw).
  destruct (tr_buf _ _ Ht _ _ Hb Hbf) as (H1 & H2 & H3 & H4).
  apply table_update; [done..| | | |].
  - do 2 (split; [done|]). split; [|done]. intros _. cbn. rewrite Hn. set_solver.
  - intros b2 bf2 Hne Hb2 Hl (K1 & K2 & K3 & K4).
    do 2 (split; [done|]). split; [|done]. cbn. set_solver.
  - exact busy_cases.
  - intros m Hm. cbn in Hm. destruct (decide (m = n)) as [->|Hne].
    + by left.
    + right. rewrite Hn. set_solver.
Qed.

Lemma table_flush :
  table_rep (<[b := set_b_valid true (set_b_dirty false bf)]> t)
    (c_flush n (b_data bf) c).
Proof using Ht Hb Hbf Hheld.
  destruct held_buffer as (Hz & Hv & Hd & Hn & Hr & Hw).
  destruct (tr_buf _ _ Ht _ _ Hb Hbf) as (H1 & H2 & H3 & H4).
  apply table_update; [done..| | | |].
  - split; [done|]. split; [intros _; cbn; by rewrite Hd, Hn|]. split; [done|].
    intros _. by rewrite <- Hn in Hw.
  - intros b2 bf2 Hne Hb2 Hl (K1 & K2 & K3 & K4).
    do 2 (split; [done|]). split; [|done]. intros Hdy.
    destruct (K3 Hdy) as (Kd & Kv & Kin). do 2 (split; [done|]).
    cbn. apply elem_of_difference. split; [done|]. rewrite elem_of_singleton.
    by apply (held_only b2 bf2).
  - exact busy_cases.
  - intros m Hm. cbn in Hm. right. rewrite Hn. set_solver.
Qed.
End Table.

(** ** Abstract invariants *)
Lemma cache_ok_acquire n b c : cache_ok c -> cache_ok (c_acquire n b c).
Proof.
  intros [H1 H2 H3 H4 H5]. split; try done.
  intros m Hd Hb. cbn in Hb. apply lookup_insert_None in Hb as [Hb _]. by apply H5.
Qed.

Lemma cache_ok_free n c :
  cache_ok c -> n ∈ c_dirty c \/ c_view c !! n = c_disk c !! n ->
  cache_ok (c_free n c).
Proof.
  intros [H1 H2 H3 H4 H5] Hn. split; try done.
  intros m Hd. cbn in *. destruct (decide (m = n)) as [->|Hne].
  - intros _. by destruct Hn.
  - rewrite lookup_delete_ne by done. by apply H5.
Qed.

Lemma cache_ok_store n d c :
  cache_ok c -> is_Some (c_busy c !! n) -> bytes_ok 512 d -> cache_ok (c_store n d c).
Proof.
  intros [H1 H2 H3 H4 H5] [b Hb] Hd. split; try done; cbn.
  - intros m Hm. destruct (decide (n = m)) as [->|Hne].
    + rewrite lookup_insert_eq. eauto.
    + rewrite lookup_insert_ne by done. auto.
  - intros m x [[<- <-]|[_ Hx]]%lookup_insert_Some; [done|eauto].
  - intros m Hdy Hm. destruct (decide (n = m)) as [->|Hne]; [congruence|].
    rewrite lookup_insert_ne by done. auto.
Qed.

Lemma cache_ok_pin n c : cache_ok c -> cache_ok (c_pin n c).
Proof.
  intros [H1 H2 H3 H4 H5]. split; try done; cbn.
  intros m Hd. apply H5. set_solver.
Qed.

Lemma cache_ok_flush n d c :
  cache_ok c -> c_view c !! n = Some d -> cache_ok (c_flush n d c).
Proof.
  intros [H1 H2 H3 H4 H5] Hd. split; try done; cbn.
  - intros m Hm. destruct (decide (n = m)) as [->|Hne].
    + rewrite lookup_insert_eq. eauto.
    + rewrite lookup_insert_ne by done. auto.
  - intros m x [[<- <-]|[_ Hx]]%lookup_insert_Some; eauto.
  - intros m Hdy Hb. destruct (decide (n = m)) as [->|Hne].
    + by rewrite lookup_insert_eq.
    + rewrite lookup_insert_ne by done. apply H5; [set_solver|done].
Qed.

(** ** The operations *)
Lemma contents_insert_back t b bf :
  contents (<[b := bf]> t) = <[b := content bf]> (contents t).
Proof. apply list_fmap_insert. Qed.

Lemma contents_lookup_inv t b cf :
  contents t !! b = Some cf -> exists bf, t !! b = Some bf /\ cf = content bf.
Proof. unfold contents. rewrite list_lookup_fmap. intros (x & -> & ?)%fmap_Some. eauto. Qed.

Lemma rep_buffer s c n b :
  cache_rep s c -> c_busy c !! n = Some b ->
  exists bf, (b < NBUF)%nat /\ bufs s !! b = Some bf /\ b_busy bf = true /\
    b_valid bf = true /\ b_dev bf = 1 /\ b_blockno bf = n /\
    0 <= n < c_size c /\ c_view c !! n = Some (b_data bf).
Proof.
  intros H Hn. destruct (tr_busy _ _ (cr_table _ _ H) _ _ Hn) as (cf & Hb & Hl & _).
  destruct (contents_lookup_inv _ _ _ Hl) as (bf & Hbf & ->). exists bf.
  destruct (held_buffer _ _ _ _ (cr_table _ _ H) Hb Hl _ Hn) as (H1 & H2 & H3 & H4 & H5 & H6).
  split_and!; done || apply H5.
Qed.

(** A change of one held buffer's fields, pointers apart. *)
Lemma rep_insert s c c' b bf bf' k :
  cache_rep s c -> bufs s !! b = Some bf ->
  b_next bf' = b_next bf -> b_prev bf' = b_prev bf ->
  k = mkDisk (c_disk c') (c_size c') (c_writes c') ->
  table_rep (<[b := content bf']> (contents (bufs s))) c' -> cache_ok c' ->
  cache_rep (set_disk k (set_bufs (<[b := bf']> (bufs s)) s)) c'.
Proof.
  intros [H1 [l H2] H3 H4 H5] Hb Hn Hp -> Ht Hok. split; try done.
  - exists l. by apply (lru_insert _ _ bf).
  - cbn [bufs set_disk set_bufs]. by rewrite contents_insert_back.
Qed.

Section Ops.
Context {Dev : BlockDev}.

Lemma set_disk_same s : set_disk (disk s) s = s.
Proof. by destruct s. Qed.

(** After [bget] found the buffer [b] and made it busy, the tail of [bread]. *)
Lemma bread_tail s c n b bf d :
  cache_rep s c -> (b < NBUF)%nat -> bufs s !! b = Some bf ->
  b_busy bf = false ->
  forall bf1, b_busy bf1 = true -> b_dev bf1 = 1 -> b_blockno bf1 = n ->
  b_dirty bf1 = b_dirty bf ->
  b_next bf1 = b_next bf -> b_prev bf1 = b_prev bf ->
  0 <= n < c_size c -> c_busy c !! n = None -> c_view c !! n = Some d ->
  (b_dirty bf = true -> b_blockno bf = n) ->
  (forall b2 bf2, (b2 < NBUF)%nat -> contents (bufs s) !! b2 = Some bf2 ->
     b_dev bf2 = 1 -> b_blockno bf2 = n -> b2 = b) ->
  (b_valid bf1 = true -> b_data bf1 = d) ->
  (b_valid bf1 = false -> b_dirty bf = false /\ c_disk c !! n = Some d) ->
  exists t', let s1 := set_bufs (<[b := bf1]> (bufs s)) s in
  runs (let! x := buf_at b in do when (negb (b_valid x)) (iderw b); ret b)
    s1 b (set_bufs t' s) /\ cache_rep (set_bufs t' s) (c_acquire n b c).
Proof.
  intros Hrep Hb Hbf Hz bf1 B1 B2 B3 B4 B5 B6 Hn Hfree Hd Hdy Hone Hval Hinv.
  set (bf2 := set_b_valid true (set_b_data d bf1)).
  exists (<[b := bf2]> (bufs s)). cbn zeta. split.
  - assert (<[b := bf1]> (bufs s) !! b = Some bf1) as Hl
      by (by apply (insert_bufs_lookup _ bf)).
    eapply runs_bind; [apply buf_at_runs; exact Hl|].
    destruct (b_valid bf1) eqn:Hv; cbn [negb when].
    + assert (bf2 = bf1) as ->.
      { unfold bf2. rewrite <- (Hval eq_refl), <- Hv. by destruct bf1. }
      eapply runs_bind; [apply runs_ret|]. apply runs_ret.
    + destruct (Hinv eq_refl) as [Hdf Hdisk].
      eapply runs_bind.
      * apply (iderw_read _ b bf1 d); cbn; try done; [by rewrite B4| |].
        -- rewrite B3, (cr_disk _ _ Hrep). done.
        -- rewrite B3, (cr_disk _ _ Hrep). done.
      * unfold dev_read. cbn [bufs set_bufs]. rewrite list_insert_insert_eq.
        by intros e.
  - rewrite <- (set_disk_same (set_bufs _ s)).
    apply (rep_insert s c _ b bf); try done.
    + cbn. apply (cr_disk _ _ Hrep).
    + apply (table_acquire _ _ _ (content bf)); try done.
      * apply (cr_table _ _ Hrep).
      * by apply contents_lookup.
    + apply cache_ok_acquire, Hrep.
Qed.

Section Bread.
Context (s : kstate) (c : cache) (n : Z) (d : block) (l : list nat).
Context (Hrep : cache_rep s c) (Hl : lru (bufs s) l) (Hn : 0 <= n < c_size c).
Context (Hfree : c_busy c !! n = None) (Hd : c_view c !! n = Some d).

Lemma bread_cached b :
  first_match (bufs s) (is_block 1 n) l = Some b ->
  wp (bread 1 n) s (fun b s' =>
    cache_rep s' (c_acquire n b c) /\ exists t, s' = set_bufs t s).
Proof using All.
  intros Hm. pose proof (cr_table _ _ Hrep) as Ht. pose proof (cr_ok _ _ Hrep) as Hok.
  pose proof Hm as (l1 & l2 & bf & Hl12 & Hbf & Htest & _)%first_match_Some.
  assert (b < NBUF)%nat as Hb by (apply Hl; set_solver).
  apply andb_true_iff in Htest as [Hdev%Z.eqb_eq Hno%Z.eqb_eq].
  pose proof (contents_lookup _ _ _ Hbf) as Hcf.
  destruct (tr_buf _ _ Ht _ _ Hb Hcf) as (T1 & T2 & T3 & T4). cbn in T1, T2, T3, T4.
  assert (b_busy bf = false) as Hz.
  { destruct (b_busy bf) eqn:Hz; [|done]. destruct (T2 eq_refl) as (_ & _ & Hc).
    congruence. }
  assert (forall b2 bf2, (b2 < NBUF)%nat -> contents (bufs s) !! b2 = Some bf2 ->
            b_dev bf2 = 1 -> b_blockno bf2 = n -> b2 = b) as Hone.
  { intros b2 bf2 Hb2 Hl2 Hd2 Hn2.
    eapply (tr_uniq _ _ Ht b2 b bf2 (content bf)); [done..|cbn; congruence]. }
  destruct (bread_tail s c n b bf d Hrep Hb Hbf Hz (set_b_busy true bf))
    as (t' & Hruns & Hrep'); try done.
  - cbn. intros Hv. destruct (T4 Hv) as [_ Hw]. congruence.
  - cbn. intros Hv. split.
    { destruct (b_dirty bf) eqn:Hdy; [|done]. destruct (T3 eq_refl) as (_ & Hv' & _).
      congruence. }
    rewrite <- (co_clean _ Hok n); [done| |done].
    intros Hin. destruct (tr_dirty _ _ Ht _ Hin) as (b2 & bf2 & Hb2 & Hl2 & Hdy2 & Hn2).
    destruct (tr_buf _ _ Ht _ _ Hb2 Hl2) as (_ & _ & T3' & _).
    destruct (T3' Hdy2) as (Hd2 & Hv2 & _). specialize (Hone _ _ Hb2 Hl2 Hd2 Hn2).
    subst b2. simplify_eq. cbn in Hv2. congruence.
  - eapply wp_bind_runs; [by apply (bget_hit_runs s 1 n l b bf); [apply Hrep|..]|].
    eapply runs_wp; [exact Hruns|]. split; [done|]. by exists t'.
Qed.

Lemma bread_uncached :
  first_match (bufs s) (is_block 1 n) l = None ->
  n ∈ c_dirty c \/ (c_inuse c < NBUF)%nat ->
  wp (bread 1 n) s (fun b s' =>
    cache_rep s' (c_acquire n b c) /\ exists t, s' = set_bufs t s).
Proof using All.
  intros Hm Huse. pose proof (cr_table _ _ Hrep) as Ht.
  pose proof (cr_ok _ _ Hrep) as Hok.
  assert (forall b2 bf2, (b2 < NBUF)%nat -> contents (bufs s) !! b2 = Some bf2 ->
            b_dev bf2 = 1 -> b_blockno bf2 = n -> False) as Hnone.
  { intros b2 bf2 Hb2 Hl2 Hd2 Hn2.
    destruct (contents_lookup_inv _ _ _ Hl2) as (bf3 & Hb3 & ->). cbn in Hd2, Hn2.
    assert (is_block 1 n bf3 = false) as Hf
      by (eapply first_match_None; [exact Hm|by apply Hl|done]).
    unfold is_block in Hf. rewrite Hd2, Hn2, !Z.eqb_refl in Hf. done. }
  assert (n ∉ c_dirty c) as Hclean.
  { intros Hin. destruct (tr_dirty _ _ Ht _ Hin) as (b2 & bf2 & Hb2 & Hl2 & Hdy2 & Hn2).
    destruct (tr_buf _ _ Ht _ _ Hb2 Hl2) as (_ & _ & T3' & _).
    destruct (T3' Hdy2) as (Hd2 & _). by eapply Hnone. }
  destruct Huse as [Huse|Huse]; [done|].
  destruct (first_match (bufs s) is_free (reverse l)) as [b|] eqn:Hm2.
  - pose proof Hm2 as (l1 & l2 & bf & Hl12 & Hbf & Htest & _)%first_match_Some.
    assert (b < NBUF)%nat as Hb.
    { apply Hl. apply elem_of_reverse. rewrite Hl12. set_solver. }
    apply andb_true_iff in Htest as [Hz%negb_true_iff Hdy%negb_true_iff].
    destruct (bread_tail s c n b bf d Hrep Hb Hbf Hz
      (mkBuf true false false 1 n (b_prev bf) (b_next bf) (b_data bf)))
      as (t' & Hruns & Hrep'); try done.
    + intros Hdy'. congruence.
    + intros b2 bf2 Hb2 Hl2 Hd2 Hn2. exfalso. by apply (Hnone b2 bf2).
    + intros _. split; [done|]. by rewrite <- (co_clean _ Hok n).
    + eapply wp_bind_runs; [by apply (bget_recycle_runs s 1 n l b bf); [apply Hrep|..]|].
      eapply runs_wp; [exact Hruns|]. split; [done|]. by exists t'.
  - exfalso. destruct (free_buffer _ _ Ht) as (b & cf & Hb & Hcf & Hf); [|done|].
    { unfold contents. rewrite length_fmap. apply Hl. }
    destruct (contents_lookup_inv _ _ _ Hcf) as (bf & Hbf & ->).
    change (is_free bf = true) in Hf.
    assert (is_free bf = false); [|congruence].
    eapply first_match_None; [exact Hm2| |done].
    apply elem_of_reverse. by apply Hl.
Qed.
End Bread.

(** [bread] returns a busy buffer holding what block [n] contains, whether
    or not it was cached; no block's contents change, on disk or in the cache.
    It needs a buffer: the block is pinned in the cache, or fewer than [NBUF]
    blocks are in use. *)
Theorem bread_spec s c n :
  cache_rep s c -> 0 <= n < c_size c -> c_busy c !! n = None ->
  (n ∈ c_dirty c \/ (c_inuse c < NBUF)%nat) ->
  wp (bread 1 n) s (fun b s' =>
    cache_rep s' (c_acquire n b c) /\ exists t, s' = set_bufs t s).
Proof.
  intros Hrep Hn Hfree Huse. destruct (cr_lru _ _ Hrep) as [l Hl].
  destruct (co_view _ (cr_ok _ _ Hrep) n Hn) as [d Hd].
  destruct (first_match (bufs s) (is_block 1 n) l) as [b|] eqn:Hm.
  - by apply (bread_cached s c n d l Hrep Hl Hn Hfree Hd b).
  - by apply (bread_uncached s c n d l).
Qed.

(** [bwrite] writes the buffer's contents to its block and makes the buffer
    evictable; no other block of the disk changes. *)
Theorem bwrite_spec s c n b d :
  cache_rep s c -> c_busy c !! n = Some b -> c_view c !! n = Some d ->
  wp (bwrite b) s (fun _ s' => cache_rep s' (c_flush n d c) /\ bio_frame s s').
Proof.
  intros Hrep Hn Hd.
  destruct (rep_buffer _ _ _ _ Hrep Hn) as (bf & Hb & Hbf & Hz & Hv & Hdev & Hno & Hr & Hw).
  assert (b_data bf = d) as Hdat by congruence.
  unfold bwrite. eapply wp_bind_runs; [by apply buf_at_runs|]. rewrite Hz. cbn [negb].
  eapply wp_bind_runs; [by apply upd_buf_runs|].
  eapply runs_wp.
  - apply (iderw_write _ b (set_b_dirty true bf)); cbn; try done.
    + by apply (insert_bufs_lookup _ bf).
    + by rewrite Hno, (cr_disk _ _ Hrep).
  - unfold dev_write. cbn [bufs set_bufs disk b_data b_blockno set_b_dirty].
    rewrite list_insert_insert_eq. split;
      [|by etrans; [apply bio_frame_bufs|apply bio_frame_disk]].
    change (cache_rep (set_disk (disk_write (b_blockno bf) (b_data bf) (disk s))
      (set_bufs (<[b := set_b_valid true (set_b_dirty false bf)]> (bufs s)) s))
      (c_flush n d c)).
    apply (rep_insert s c _ b bf); try done.
    + rewrite (cr_disk _ _ Hrep), Hno, Hdat. done.
    + rewrite <- Hdat. apply (table_flush _ _ _ (content bf)); try done.
      * apply (cr_table _ _ Hrep).
      * by apply contents_lookup.
    + by apply cache_ok_flush; [apply Hrep|].
Qed.
End Ops.

(** [brelse] gives the buffer back; the contents of every block stay, and
    the buffer becomes the most recently used.  A buffer whose contents differ
    from the disk must have been pinned before. *)
Theorem brelse_spec s c n b :
  cache_rep s c -> c_busy c !! n = Some b ->
  n ∈ c_dirty c \/ c_view c !! n = c_disk c !! n ->
  wp (brelse b) s (fun _ s' => cache_rep s' (c_free n c) /\ bio_frame s s').
Proof.
  intros Hrep Hn Hcl.
  destruct (rep_buffer _ _ _ _ Hrep Hn) as (bf & Hb & Hbf & Hz & Hv & Hdev & Hno & Hr & Hw).
  destruct (cr_lru _ _ Hrep) as [l Hl].
  assert (b ∈ l) as Hin by (by apply Hl).
  apply list_elem_of_split in Hin as (l1 & l2 & ->).
  destruct (brelse_runs s b bf l1 l2) as (t' & Hl' & Hc' & Hruns); [apply Hrep|done..|].
  eapply runs_wp; [exact Hruns|]. split;
    [|by etrans; [apply bio_frame_bufs|apply bio_frame_ptable, wakeup1_woken]].
  split; cbn [held set_ptable set_bufs bufs disk].
  - apply Hrep.
  - eauto.
  - apply (cr_disk _ _ Hrep).
  - rewrite Hc'. apply (table_free _ _ _ (content bf)); try done.
    + apply (cr_table _ _ Hrep).
    + by apply contents_lookup.
  - apply cache_ok_free; [apply Hrep|done].
Qed.

(** Storing into [b->data], as the code between [bread] and [brelse] does. *)
Lemma store_spec s c n b f d :
  cache_rep s c -> c_busy c !! n = Some b -> c_view c !! n = Some d ->
  bytes_ok 512 (f d) ->
  wp (upd_buf b (fun bf => set_b_data (f (b_data bf)) bf)) s (fun _ s' =>
    cache_rep s' (c_store n (f d) c) /\ bio_frame s s').
Proof.
  intros Hrep Hn Hd Hok.
  destruct (rep_buffer _ _ _ _ Hrep Hn) as (bf & Hb & Hbf & Hz & Hv & Hdev & Hno & Hr & Hw).
  assert (b_data bf = d) as Hdat by congruence.
  eapply runs_wp; [by apply upd_buf_runs|]. cbv beta. rewrite Hdat.
  split; [|apply bio_frame_bufs].
  rewrite <- (set_disk_same (set_bufs _ s)).
  apply (rep_insert s c _ b bf); try done.
  - apply (cr_disk _ _ Hrep).
  - apply (table_store _ _ _ (content bf)); try done.
    + apply (cr_table _ _ Hrep).
    + by apply contents_lookup.
  - apply cache_ok_store; [apply Hrep|eauto|done].
Qed.

(** Setting B_DIRTY, as [log_write] does. *)
Lemma pin_spec s c n b :
  cache_rep s c -> c_busy c !! n = Some b ->
  wp (upd_buf b (set_b_dirty true)) s (fun _ s' =>
    cache_rep s' (c_pin n c) /\ bio_frame s s').
Proof.
  intros Hrep Hn.
  destruct (rep_buffer _ _ _ _ Hrep Hn) as (bf & Hb & Hbf & Hz & Hv & Hdev & Hno & Hr & Hw).
  eapply runs_wp; [by apply upd_buf_runs|].
  split; [|apply bio_frame_bufs].
  rewrite <- (set_disk_same (set_bufs _ s)).
  apply (rep_insert s c _ b bf); try done.
  - apply (cr_disk _ _ Hrep).
  - apply (table_pin _ _ _ (content bf)); try done.
    + apply (cr_table _ _ Hrep).
    + by apply contents_lookup.
  - apply cache_ok_pin, Hrep.
Qed.
