(* ===== verification/Log.v ===== *)
(** * The write-ahead log: log.c

    The code of the logging system over the buffer cache, and what its
    operations do to the abstract cache: [write_log], [write_head] and
    [install_trans] are sequences of block writes, listed by [commit_writes].
    [Crash] reasons about the machine stopping between two of them. *)

From S2P Require Import Prelude Bytes Kstate Sync Disk Bio Cache.
Local Open Scope Z_scope.

(** ** Access to [log] and to buffer data *)
Definition upd_log (f : logst -> logst) : K unit :=
  modify (fun s => set_klog (f (klog s)) s).

Definition lh_block (i : nat) : K Z :=
  let! g := gets klog in deref "log.lh.block" (l_block g !! i).

Definition set_lh_block (i : nat) (v : Z) : K unit :=
  do lh_block i;
  upd_log (fun g => set_l_block (<[i := v]> (l_block g)) g).

Definition buf_data (b : nat) : K block :=
  let! bf := buf_at b in ret (b_data bf).

Definition upd_data (b : nat) (f : block -> block) : K unit :=
  upd_buf b (fun bf => set_b_data (f (b_data bf)) bf).

(** struct logheader in a block: [n], then [block[i]] at byte [4 + 4 * i]. *)
Definition lh_off (i : nat) : nat := 4 + 4 * i.

Definition decode_sb (d : block) : superblock :=
  mkSb (get32 d 0) (get32 d 4) (get32 d 8) (get32 d 12) (get32 d 16)
    (get32 d 20) (get32 d 24).

Section Code.
Context {Dev : BlockDev}.

(** fs.c, used by [initlog] *)
Definition readsb (dev : Z) : K superblock :=
  let! bp := bread dev 1 in
  let! d := buf_data bp in
  do brelse bp;
  ret (decode_sb d).

Definition install_one (tail : nat) : K unit :=
  let! g := gets klog in
  let! lbuf := bread (l_dev g) (u32 (l_start g + Z.of_nat tail + 1)) in
  let! h := lh_block tail in
  let! dbuf := bread (l_dev g) (u32 h) in
  let! d := buf_data lbuf in
  do upd_data dbuf (fun _ => d);
  do bwrite dbuf;
  do brelse lbuf;
  brelse dbuf.

Definition install_trans : K unit :=
  let! g := gets klog in
  mfor (Z.to_nat (l_n g)) 0 install_one.

Definition read_head : K unit :=
  let! g := gets klog in
  let! b := bread (l_dev g) (u32 (l_start g)) in
  let! lh := buf_data b in
  let n := i32 (get32 lh 0) in
  do upd_log (set_l_n n);
  do mfor (Z.to_nat n) 0 (fun i => set_lh_block i (i32 (get32 lh (lh_off i))));
  brelse b.

Definition write_head : K unit :=
  let! g := gets klog in
  let! b := bread (l_dev g) (u32 (l_start g)) in
  do upd_data b (fun hb => put32 hb 0 (l_n g));
  do mfor (Z.to_nat (l_n g)) 0 (fun i =>
       let! v := lh_block i in
       upd_data b (fun hb => put32 hb (lh_off i) v));
  do bwrite b;
  brelse b.

Definition recover_from_log : K unit :=
  do read_head;
  do install_trans;
  do upd_log (set_l_n 0);
  write_head.

Definition initlog (dev : Z) : K unit :=
  if BSIZE <=? 4 + 4 * LOGSIZE then panic "initlog: too big logheader" else
  let! sb := readsb dev in
  do upd_log (fun g => mkLog (i32 (sb_logstart sb)) (i32 (sb_nlog sb)) (l_outstanding g)
                         (l_committing g) dev (l_n g) (l_block g));
  recover_from_log.

Definition write_log_one (tail : nat) : K unit :=
  let! g := gets klog in
  let! to := bread (l_dev g) (u32 (l_start g + Z.of_nat tail + 1)) in
  let! h := lh_block tail in
  let! from := bread (l_dev g) (u32 h) in
  let! d := buf_data from in
  do upd_data to (fun _ => d);
  do bwrite to;
  do brelse from;
  brelse to.

Definition write_log : K unit :=
  let! g := gets klog in
  mfor (Z.to_nat (l_n g)) 0 write_log_one.

Definition commit : K unit :=
  let! g := gets klog in
  when (0 <? l_n g)
    (do write_log;
     do write_head;
     do install_trans;
     do upd_log (set_l_n 0);
     write_head).

(** [fuel] bounds the number of times the caller sleeps. *)
Fixpoint begin_op_loop (fuel : nat) : K unit :=
  let! g := gets klog in
  if l_committing g ||
     (LOGSIZE <? l_n g + (l_outstanding g + 1) * MAXOPBLOCKS)
  then
    do sleep ChLog LogLock;
    match fuel with O => hang | S f => begin_op_loop f end
  else
    do upd_log (fun g => set_l_outstanding (l_outstanding g + 1) g);
    release LogLock.

Definition begin_op : K unit :=
  do acquire LogLock;
  let! n := pending in
  begin_op_loop n.

Definition end_op : K unit :=
  do acquire LogLock;
  do upd_log (fun g => set_l_outstanding (l_outstanding g - 1) g);
  let! g := gets klog in
  if l_committing g then panic "log.committing" else
  let do_commit := l_outstanding g =? 0 in
  do (if do_commit then upd_log (set_l_committing true) else wakeup ChLog);
  do release LogLock;
  when do_commit
    (do commit;
     do acquire LogLock;
     do upd_log (set_l_committing false);
     do wakeup ChLog;
     release LogLock).

(** The index [log_write] stores at: of the block if it is already logged
    (absorption), else [n]. *)
Fixpoint log_slot (blocks : list Z) (n i : nat) (blockno : Z) : nat :=
  match n, blocks with
  | O, _ => i
  | S n', v :: blocks' =>
      if u32 v =? blockno then i else log_slot blocks' n' (S i) blockno
  | S _, [] => i
  end.

Definition log_write (b : nat) : K unit :=
  let! g := gets klog in
  if (LOGSIZE <=? l_n g) || (l_size g - 1 <=? l_n g)
  then panic "too big a transaction" else
  if l_outstanding g <? 1 then panic "log_write outside of trans" else
  do acquire LogLock;
  let! bf := buf_at b in
  let i := log_slot (l_block g) (Z.to_nat (l_n g)) 0 (b_blockno bf) in
  do set_lh_block i (i32 (b_blockno bf));
  do when (Z.of_nat i =? l_n g) (upd_log (fun g => set_l_n (l_n g + 1) g));
  do upd_buf b (set_b_dirty true);
  release LogLock.
End Code.

(** ** Block writes as abstract steps *)

(** Block [m] gets contents [d], in the cache and on disk. *)
Definition c_put (m : Z) (d : block) (c : cache) : cache :=
  mkCache (<[m := d]> (c_disk c)) (c_size c) ((m, d) :: c_writes c)
    (<[m := d]> (c_view c)) (c_busy c) (c_dirty c ∖ {[m]}).

Definition c_puts (ws : list (Z * block)) (c : cache) : cache :=
  foldl (fun c w => c_put w.1 w.2 c) c ws.

(** The header block [write_head] builds from the old contents [hb]. *)
Definition head_upto (hb : block) (n : Z) (bs : list Z) (i : nat) : block :=
  foldl (fun hb j => put32 hb (lh_off j) (default 0 (bs !! j)))
    (put32 hb 0 n) (seq 0 i).

Definition head_block (hb : block) (n : Z) (bs : list Z) : block :=
  head_upto hb n bs (Z.to_nat n).

(** What [read_head] reads back. *)
Definition header_n (h : block) : Z := i32 (get32 h 0).
Definition header_blocks (h : block) : list Z :=
  (fun i => i32 (get32 h (lh_off i))) <$> seq 0 (Z.to_nat (header_n h)).

(** The parts of the kernel state the log may change. *)
Definition log_frame (s s' : kstate) : Prop :=
  exists g s1, bio_frame s s1 /\ s' = set_klog g s1.

#[export] Instance log_frame_preorder : PreOrder log_frame.
Proof.
  split.
  - intros s. exists (klog s), s. split; [done|]. by destruct s.
  - intros s1 s2 s3 (g & s1' & (t & k & P & W & ->) & ->)
      (g' & s2' & (t' & k' & P' & W' & ->) & ->).
    exists g', (set_ptable P' (set_disk k' (set_bufs t' s1))).
    split; [|done]. exists t', k', P'. split; [by etrans|done].
Qed.

Lemma bio_log_frame s s' : bio_frame s s' -> log_frame s s'.
Proof. intros H. exists (klog s'), s'. split; [done|]. by destruct s'. Qed.

Lemma set_klog_frame g s : log_frame s (set_klog g s).
Proof. by exists g, s. Qed.

Lemma cache_rep_klog g s c : cache_rep s c -> cache_rep (set_klog g s) c.
Proof. by intros [????]. Qed.

Section Steps.
Context {Dev : BlockDev}.

Lemma wp_bread s c n (Q : nat -> kstate -> Prop) :
  cache_rep s c -> 0 <= n < c_size c -> c_busy c !! n = None ->
  n ∈ c_dirty c \/ (c_inuse c < NBUF)%nat ->
  (forall b s', cache_rep s' (c_acquire n b c) -> bio_frame s s' -> Q b s') ->
  wp (bread 1 n) s Q.
Proof.
  intros H1 H2 H3 H4 HQ. eapply wp_mono; [by apply (bread_spec s c n)|].
  intros b s' (Hrep & t & ->). apply HQ; [done|]. apply bio_frame_bufs.
Qed.

Lemma wp_brelse s c n b (Q : unit -> kstate -> Prop) :
  cache_rep s c -> c_busy c !! n = Some b ->
  n ∈ c_dirty c \/ c_view c !! n = c_disk c !! n ->
  (forall s', cache_rep s' (c_free n c) -> bio_frame s s' -> Q tt s') ->
  wp (brelse b) s Q.
Proof.
  intros H1 H2 H3 HQ. eapply wp_mono; [by apply (brelse_spec s c n)|].
  intros [] s' [??]. by apply HQ.
Qed.

Lemma wp_bwrite s c n b d (Q : unit -> kstate -> Prop) :
  cache_rep s c -> c_busy c !! n = Some b -> c_view c !! n = Some d ->
  (forall s', cache_rep s' (c_flush n d c) -> bio_frame s s' -> Q tt s') ->
  wp (bwrite b) s Q.
Proof.
  intros H1 H2 H3 HQ. eapply wp_mono; [by apply (bwrite_spec s c n b d)|].
  intros [] s' [??]. by apply HQ.
Qed.

Lemma wp_upd_data s c n b f d (Q : unit -> kstate -> Prop) :
  cache_rep s c -> c_busy c !! n = Some b -> c_view c !! n = Some d ->
  bytes_ok 512 (f d) ->
  (forall s', cache_rep s' (c_store n (f d) c) -> bio_frame s s' -> Q tt s') ->
  wp (upd_data b f) s Q.
Proof.
  intros H1 H2 H3 H4 HQ. eapply wp_mono; [by apply (store_spec s c n b f d)|].
  intros [] s' [??]. by apply HQ.
Qed.

Lemma wp_buf_data s c n b d (Q : block -> kstate -> Prop) :
  cache_rep s c -> c_busy c !! n = Some b -> c_view c !! n = Some d ->
  Q d s -> wp (buf_data b) s Q.
Proof.
  intros H1 H2 H3 HQ.
  destruct (rep_buffer _ _ _ _ H1 H2) as (bf & _ & Hbf & _ & _ & _ & _ & _ & Hw).
  unfold buf_data. eapply wp_bind_runs; [by apply buf_at_runs|].
  apply wp_ret. by simplify_eq.
Qed.

Lemma wp_lh_block s i v (Q : Z -> kstate -> Prop) :
  l_block (klog s) !! i = Some v -> Q v s -> wp (lh_block i) s Q.
Proof.
  intros H HQ. unfold lh_block. apply wp_bind, wp_gets. rewrite H. by apply wp_ret.
Qed.

Lemma bio_frame_klog s s' : bio_frame s s' -> klog s' = klog s.
Proof. by intros (t & k & P & _ & ->). Qed.

Lemma c_inuse_acquire n b c : (c_inuse (c_acquire n b c) <= S (c_inuse c))%nat.
Proof.
  unfold c_inuse. cbn. rewrite dom_insert_L.
  replace ({[n]} ∪ dom (c_busy c) ∪ c_dirty c)
    with ({[n]} ∪ (dom (c_busy c) ∪ c_dirty c)) by set_solver.
  rewrite (size_union_alt {[n]}), size_singleton.
  assert (size ((dom (c_busy c) ∪ c_dirty c) ∖ {[n]}) <=
          size (dom (c_busy c) ∪ c_dirty c))%nat by (apply subseteq_size; set_solver).
  lia.
Qed.

Lemma write_log_one_spec s c tail h d : c_size c <= 2 ^ 32 ->
  cache_rep s c -> c_busy c = ∅ -> l_dev (klog s) = 1 ->
  l_block (klog s) !! tail = Some h ->
  let m := l_start (klog s) + Z.of_nat tail + 1 in
  0 <= m < c_size c -> m ∉ c_dirty c -> 0 <= h < c_size c -> h ∈ c_dirty c ->
  c_view c !! h = Some d -> (c_inuse c < NBUF)%nat ->
  wp (write_log_one tail) s (fun _ s' =>
    cache_rep s' (c_put m d c) /\ bio_frame s s').
Proof.
  intros Hsz Hrep Hb Hdev Hblk m Hm Hmd Hh Hhd Hd Huse. unfold write_log_one.
  assert (m <> h) as Hne by congruence.
  apply wp_bind, wp_gets. rewrite Hdev. fold m. rewrite (u32_small m) by lia. apply wp_bind.
  apply (wp_bread s c m); [done|done|by rewrite Hb|by right|]. intros b1 s1 R1 F1.
  apply wp_bind. apply (wp_lh_block _ _ h); [by rewrite (bio_frame_klog _ _ F1)|].
  rewrite (u32_small h) by lia. apply wp_bind. eapply wp_bread; [exact R1|done| |by left|].
  { cbn. rewrite lookup_insert_ne by done. by rewrite Hb. }
  intros b2 s2 R2 F2. apply wp_bind.
  eapply (wp_buf_data _ _ h); [exact R2|apply lookup_insert_eq|exact Hd|].
  destruct (co_view _ (cr_ok _ _ Hrep) m Hm) as [d0 Hd0]. apply wp_bind.
  eapply (wp_upd_data _ _ m b1 _ d0); [exact R2| |exact Hd0| |].
  { cbn. rewrite lookup_insert_ne by done. apply lookup_insert_eq. }
  { by apply (co_view_bytes _ (cr_ok _ _ Hrep) h). }
  intros s3 R3 F3. apply wp_bind.
  eapply (wp_bwrite _ _ m b1 d); [exact R3| |apply lookup_insert_eq|].
  { cbn. rewrite lookup_insert_ne by done. apply lookup_insert_eq. }
  intros s4 R4 F4. apply wp_bind.
  eapply (wp_brelse _ _ h b2); [exact R4|apply lookup_insert_eq|left; cbn; set_solver|].
  intros s5 R5 F5.
  eapply (wp_brelse _ _ m b1); [exact R5| |right; cbn; by rewrite !lookup_insert_eq|].
  { cbn. rewrite lookup_delete_ne, lookup_insert_ne by done. apply lookup_insert_eq. }
  intros s6 R6 F6. split; [|by do 5 (etrans; [eassumption|])].
  replace (c_put m d c) with
    (c_free m (c_free h (c_flush m d (c_store m d (c_acquire h b2 (c_acquire m b1 c)))))).
  { done. }
  unfold c_put, c_free, c_flush, c_store, c_acquire. cbn. f_equal.
  rewrite Hb. rewrite delete_insert_id; [|by rewrite lookup_insert_ne].
  by rewrite delete_insert_id.
Qed.

Lemma install_one_spec s c tail h d : c_size c <= 2 ^ 32 ->
  cache_rep s c -> c_busy c = ∅ -> l_dev (klog s) = 1 ->
  l_block (klog s) !! tail = Some h ->
  let m := l_start (klog s) + Z.of_nat tail + 1 in
  0 <= m < c_size c -> m ∉ c_dirty c -> 0 <= h < c_size c -> m <> h ->
  c_view c !! m = Some d -> (c_inuse c < NBUF)%nat ->
  h ∈ c_dirty c \/ (S (c_inuse c) < NBUF)%nat ->
  wp (install_one tail) s (fun _ s' =>
    cache_rep s' (c_put h d c) /\ bio_frame s s').
Proof.
  intros Hsz Hrep Hb Hdev Hblk m Hm Hmd Hh Hne Hd Huse Huse2. unfold install_one.
  apply wp_bind, wp_gets. rewrite Hdev. fold m. rewrite (u32_small m) by lia. apply wp_bind.
  apply (wp_bread s c m); [done|done|by rewrite Hb|by right|]. intros b1 s1 R1 F1.
  apply wp_bind. apply (wp_lh_block _ _ h); [by rewrite (bio_frame_klog _ _ F1)|].
  rewrite (u32_small h) by lia. apply wp_bind. eapply wp_bread; [exact R1|done| | |].
  { cbn. rewrite lookup_insert_ne by done. by rewrite Hb. }
  { destruct Huse2; [by left|right]. pose proof (c_inuse_acquire m b1 c). lia. }
  intros b2 s2 R2 F2. apply wp_bind.
  eapply (wp_buf_data _ _ m b1); [exact R2| |exact Hd|].
  { cbn. rewrite lookup_insert_ne by done. apply lookup_insert_eq. }
  destruct (co_view _ (cr_ok _ _ Hrep) h Hh) as [d0 Hd0]. apply wp_bind.
  eapply (wp_upd_data _ _ h b2 _ d0); [exact R2|apply lookup_insert_eq|exact Hd0| |].
  { by apply (co_view_bytes _ (cr_ok _ _ Hrep) m). }
  intros s3 R3 F3. apply wp_bind.
  eapply (wp_bwrite _ _ h b2 d); [exact R3|apply lookup_insert_eq|apply lookup_insert_eq|].
  intros s4 R4 F4. apply wp_bind.
  eapply (wp_brelse _ _ m b1); [exact R4| | |].
  { cbn. rewrite lookup_insert_ne by done. apply lookup_insert_eq. }
  { right. cbn. rewrite !lookup_insert_ne by done.
    apply (co_clean _ (cr_ok _ _ Hrep)); [done|by rewrite Hb]. }
  intros s5 R5 F5.
  eapply (wp_brelse _ _ h b2); [exact R5| |right; cbn; by rewrite !lookup_insert_eq|].
  { cbn. rewrite lookup_delete_ne by done. apply lookup_insert_eq. }
  intros s6 R6 F6. split; [|by do 5 (etrans; [eassumption|])].
  replace (c_put h d c) with
    (c_free h (c_free m (c_flush h d (c_store h d (c_acquire h b2 (c_acquire m b1 c)))))).
  { done. }
  unfold c_put, c_free, c_flush, c_store, c_acquire. cbn. f_equal.
  rewrite Hb. rewrite delete_insert_ne by done.
  rewrite (delete_insert_id _ m) by done. by rewrite delete_insert_id.
Qed.

Lemma c_store_store n d1 d2 c : c_store n d2 (c_store n d1 c) = c_store n d2 c.
Proof. unfold c_store. cbn. by rewrite insert_insert_eq. Qed.

Lemma head_upto_ok hb n bs i : bytes_ok 512 hb -> bytes_ok 512 (head_upto hb n bs i).
Proof.
  intros H. unfold head_upto. induction (seq 0 i) as [|j l IH] using rev_ind.
  - by apply put32_ok.
  - rewrite foldl_snoc. by apply put32_ok.
Qed.

Lemma write_head_spec s c hb : c_size c <= 2 ^ 32 ->
  cache_rep s c -> c_busy c = ∅ -> l_dev (klog s) = 1 ->
  0 <= l_n (klog s) <= Z.of_nat (length (l_block (klog s))) ->
  let m := l_start (klog s) in
  0 <= m < c_size c -> m ∉ c_dirty c -> c_view c !! m = Some hb ->
  (c_inuse c < NBUF)%nat ->
  wp write_head s (fun _ s' =>
    cache_rep s' (c_put m (head_block hb (l_n (klog s)) (l_block (klog s))) c) /\
    bio_frame s s').
Proof.
  intros Hsz Hrep Hb Hdev Hn m Hm Hmd Hhb Huse. unfold write_head.
  set (n := l_n (klog s)) in *. set (bs := l_block (klog s)) in *.
  apply wp_bind, wp_gets. rewrite Hdev. fold m n. rewrite (u32_small m) by lia. apply wp_bind.
  apply (wp_bread s c m); [done|done|by rewrite Hb|by right|]. intros b s1 R1 F1.
  apply wp_bind.
  assert (bytes_ok 512 hb) as Hok by (by apply (co_view_bytes _ (cr_ok _ _ Hrep) m)).
  eapply (wp_upd_data _ _ m b _ hb); [exact R1|apply lookup_insert_eq|exact Hhb|
    by apply put32_ok|].
  intros s2 R2 F2. apply wp_bind.
  apply (wp_mfor (fun i s' =>
    cache_rep s' (c_store m (head_upto hb n bs i) (c_acquire m b c)) /\ bio_frame s s')).
  - split; [done|]. by etrans.
  - intros i s3 [_ Hi] [R3 F3]. cbn in Hi.
    destruct (lookup_lt_is_Some_2 bs i) as [v Hv]; [lia|].
    apply wp_bind, (wp_lh_block _ _ v); [by rewrite (bio_frame_klog _ _ F3)|].
    eapply (wp_upd_data _ _ m b _ (head_upto hb n bs i)); [exact R3|apply lookup_insert_eq|
      apply lookup_insert_eq|by apply put32_ok, head_upto_ok|].
    intros s4 R4 F4. split; [|by etrans].
    rewrite c_store_store in R4. unfold head_upto. rewrite seq_S, foldl_snoc. cbn.
    by rewrite Hv.
  - intros s3 [R3 F3]. cbn [Nat.add] in *. apply wp_bind.
    eapply (wp_bwrite _ _ m b); [exact R3|apply lookup_insert_eq|apply lookup_insert_eq|].
    intros s4 R4 F4.
    eapply (wp_brelse _ _ m b); [exact R4|apply lookup_insert_eq|
      right; cbn; by rewrite !lookup_insert_eq|].
    intros s5 R5 F5. split; [|by do 2 (etrans; [eassumption|])].
    fold (head_block hb n bs) in R5.
    replace (c_put m (head_block hb n bs) c) with
      (c_free m (c_flush m (head_block hb n bs)
         (c_store m (head_block hb n bs) (c_acquire m b c)))); [done|].
    unfold c_put, c_free, c_flush, c_store, c_acquire. cbn. f_equal.
    by rewrite Hb, delete_insert_id.
Qed.
End Steps.
