(* ===== verification/Commit.v ===== *)
(** * What a commit and a recovery write

    [write_log], [write_head] and [install_trans] of log.c are sequences of
    block writes.  This file lists the writes of [commit] and of
    [recover_from_log] ([commit_writes], [recover_writes]) and shows that the
    code performs exactly these, in this order, and that the header block
    [write_head] writes is the one [read_head] reads back. *)

From S2P Require Import Prelude Bytes Kstate Sync Disk Bio Cache Log.
Local Open Scope Z_scope.

(** ** Sequences of block writes *)
Definition apply_writes (ws : list (Z * block)) (D : gmap Z block) : gmap Z block :=
  foldl (fun D w => <[w.1 := w.2]> D) D ws.

(** The contents of block [n] of [D]. *)
Definition blk (D : gmap Z block) (n : Z) : block := default [] (D !! n).

(** [write_log]: the logged block [bs[i]] to log block [start + i + 1]. *)
Definition log_writes (start : Z) (V : gmap Z block) (bs : list Z) : list (Z * block) :=
  imap (fun i h => (start + Z.of_nat i + 1, blk V h)) bs.

(** [install_trans]: log block [start + i + 1] to its home [bs[i]]. *)
Definition install_writes (start : Z) (V : gmap Z block) (bs : list Z) : list (Z * block) :=
  imap (fun i h => (h, blk V (start + Z.of_nat i + 1))) bs.

(** [commit] of the blocks [bs], with contents [V], where the header block is
    [hb] and the whole array [log.lh.block] is [arr]. *)
Definition commit_writes (start : Z) (V : gmap Z block) (hb : block)
    (arr bs : list Z) : list (Z * block) :=
  let h1 := head_block hb (Z.of_nat (length bs)) arr in
  log_writes start V bs ++ [(start, h1)] ++
  ((fun h => (h, blk V h)) <$> bs) ++ [(start, head_block h1 0 arr)].

(** [recover_from_log] on the disk [D]. *)
Definition recover_writes (start : Z) (D : gmap Z block) : list (Z * block) :=
  let hb := blk D start in
  install_writes start D (header_blocks hb) ++ [(start, put32 hb 0 0)].

(** ** The log area and the logged blocks *)
Record log_geom (start size disksize : Z) (bs : list Z) : Prop := {
  lg_start : 2 <= start;
  lg_area : start + size <= disksize;
  lg_disk : disksize <= 2 ^ 31;
  lg_fit : Z.of_nat (length bs) < size;
  lg_buf : (length bs < NBUF)%nat;
  lg_nodup : NoDup bs;
  lg_home h : h ∈ bs -> 2 <= h < disksize /\ ~ (start <= h < start + size)
}.

(** The fields of [struct log] that the loops use. *)
Record log_vars (g : logst) (start : Z) (bs : list Z) : Prop := {
  lv_dev : l_dev g = 1;
  lv_start : l_start g = start;
  lv_n : l_n g = Z.of_nat (length bs);
  lv_arr : length (l_block g) = Z.to_nat LOGSIZE;
  lv_blocks : take (length bs) (l_block g) = bs
}.

(** ** Lemmas on writes *)
Lemma apply_writes_app ws ws' D :
  apply_writes (ws ++ ws') D = apply_writes ws' (apply_writes ws D).
Proof. apply foldl_app. Qed.

Lemma apply_writes_other ws D n :
  n ∉ ws.*1 -> apply_writes ws D !! n = D !! n.
Proof.
  induction ws as [|w ws IH] using rev_ind; [done|].
  rewrite fmap_app, elem_of_app. cbn. intros H. rewrite apply_writes_app. cbn.
  rewrite lookup_insert_ne by set_solver. apply IH. set_solver.
Qed.

Lemma apply_writes_in ws D n d :
  NoDup ws.*1 -> (n, d) ∈ ws -> apply_writes ws D !! n = Some d.
Proof.
  induction ws as [|w ws IH] using rev_ind; [set_solver|].
  rewrite fmap_app, list.NoDup_app, elem_of_app, list_elem_of_singleton. cbn.
  intros (Hd & Hn & _) Hin. rewrite apply_writes_app. cbn.
  destruct Hin as [Hin|<-]; [|apply lookup_insert_eq].
  rewrite lookup_insert_ne; [by apply IH|].
  intros <-. eapply Hn; [|by left]. apply list_elem_of_fmap. by exists (w.1, d).
Qed.

Lemma c_puts_app ws ws' c : c_puts (ws ++ ws') c = c_puts ws' (c_puts ws c).
Proof. apply foldl_app. Qed.

Lemma c_puts_fields ws c :
  c_puts ws c = mkCache (apply_writes ws (c_disk c)) (c_size c)
    (reverse ws ++ c_writes c) (apply_writes ws (c_view c)) (c_busy c)
    (c_dirty c ∖ list_to_set ws.*1).
Proof.
  induction ws as [|[m d] ws IH] using rev_ind.
  - cbn. rewrite difference_empty_L. by destruct c.
  - rewrite c_puts_app, IH. cbn. unfold c_put. cbn.
    rewrite !apply_writes_app, reverse_snoc, fmap_app, list_to_set_app_L. cbn.
    f_equal. set_solver.
Qed.

Lemma log_writes_fst start V bs :
  (log_writes start V bs).*1 = imap (fun i _ => start + Z.of_nat i + 1) bs.
Proof. apply fmap_imap. Qed.

Lemma log_writes_key start V bs m :
  m ∈ (log_writes start V bs).*1 -> start < m <= start + Z.of_nat (length bs).
Proof.
  rewrite log_writes_fst. intros (i & h & -> & Hi)%elem_of_lookup_imap_1.
  apply lookup_lt_Some in Hi. lia.
Qed.

Lemma install_writes_fst start V bs : (install_writes start V bs).*1 = bs.
Proof.
  unfold install_writes. rewrite fmap_imap. rewrite <- (list_fmap_id bs) at 2.
  apply imap_const.
Qed.

Lemma log_writes_NoDup start V bs : NoDup (log_writes start V bs).*1.
Proof.
  rewrite log_writes_fst. apply list.NoDup_alt. intros i j m.
  rewrite !list_lookup_imap. intros Hi Hj.
  destruct (bs !! i), (bs !! j); simplify_eq/=. lia.
Qed.

Lemma log_writes_at start V bs i h :
  bs !! i = Some h -> (start + Z.of_nat i + 1, blk V h) ∈ log_writes start V bs.
Proof.
  intros H. apply list_elem_of_lookup. exists i.
  unfold log_writes. by rewrite list_lookup_imap, H.
Qed.

Lemma install_writes_at start V bs i h :
  bs !! i = Some h ->
  (h, blk V (start + Z.of_nat i + 1)) ∈ install_writes start V bs.
Proof.
  intros H. apply list_elem_of_lookup. exists i.
  unfold install_writes. by rewrite list_lookup_imap, H.
Qed.

Lemma blk_Some D n d : D !! n = Some d -> blk D n = d.
Proof. intros H. unfold blk. by rewrite H. Qed.

Lemma lookup_blk D n : is_Some (D !! n) -> D !! n = Some (blk D n).
Proof. intros [d H]. by rewrite (blk_Some _ _ _ H). Qed.

(** ** The loops of log.c *)
Lemma put_loop body ws s c :
  cache_rep s c ->
  (forall i w s1, ws !! i = Some w ->
     cache_rep s1 (c_puts (take i ws) c) -> bio_frame s s1 ->
     wp (body i) s1 (fun _ s2 =>
       cache_rep s2 (c_put w.1 w.2 (c_puts (take i ws) c)) /\ bio_frame s1 s2)) ->
  wp (mfor (length ws) 0 body) s (fun _ s' =>
    cache_rep s' (c_puts ws c) /\ bio_frame s s').
Proof.
  intros Hrep Hbody.
  apply (wp_mfor (fun i s' => cache_rep s' (c_puts (take i ws) c) /\ bio_frame s s')).
  - by rewrite take_0.
  - intros i s1 [_ Hi] [R F]. destruct (lookup_lt_is_Some_2 ws i Hi) as [w Hw].
    eapply wp_mono; [by apply (Hbody i w)|]. intros ? s2 [R2 F2].
    split; [|by etrans]. by rewrite (take_S_r _ _ _ Hw), c_puts_app.
  - intros s1 [R F]. cbn in R. by rewrite firstn_all in R.
Qed.

Lemma c_inuse_clean c : c_busy c = ∅ -> c_inuse c = size (c_dirty c).
Proof. intros H. unfold c_inuse. rewrite H, dom_empty_L. f_equal. set_solver. Qed.

Lemma c_inuse_puts ws c :
  c_busy c = ∅ -> (c_inuse (c_puts ws c) <= c_inuse c)%nat.
Proof.
  intros H. rewrite !c_inuse_clean; [|done|by rewrite c_puts_fields].
  rewrite c_puts_fields. cbn. apply subseteq_size. set_solver.
Qed.

Lemma log_vars_at g start bs i h :
  log_vars g start bs -> bs !! i = Some h -> l_block g !! i = Some h.
Proof.
  intros H Hi. pose proof (lookup_lt_Some _ _ _ Hi).
  rewrite <- (lv_blocks _ _ _ H), lookup_take_Some in Hi. apply Hi.
Qed.

Section Loops.
Context {Dev : BlockDev}.
Context (s : kstate) (c : cache) (start size : Z) (bs : list Z).
Context (Hrep : cache_rep s c) (Hbusy : c_busy c = ∅).
Context (Hg : log_geom start size (c_size c) bs).
Context (Hv : log_vars (klog s) start bs).

Lemma home_key i h m :
  bs !! i = Some h -> start <= m <= start + Z.of_nat (length bs) -> m <> h.
Proof using Hg.
  intros Hi Hm ->. destruct (lg_home _ _ _ _ Hg h) as [_ H].
  - by eapply list_elem_of_lookup_2.
  - pose proof (lg_fit _ _ _ _ Hg). lia.
Qed.

Lemma home_range h : h ∈ bs -> 0 <= h < c_size c.
Proof using Hg. intros H. destruct (lg_home _ _ _ _ Hg h H). lia. Qed.

Lemma write_log_spec :
  c_dirty c = list_to_set bs ->
  wp write_log s (fun _ s' =>
    cache_rep s' (c_puts (log_writes start (c_view c) bs) c) /\ bio_frame s s').
Proof using All.
  intros Hdirty. unfold write_log. apply wp_bind, wp_gets.
  pose proof (lg_area _ _ _ _ Hg). pose proof (lg_fit _ _ _ _ Hg).
  pose proof (lg_start _ _ _ _ Hg).
  rewrite (lv_n _ _ _ Hv), Nat2Z.id.
  replace (length bs) with (length (log_writes start (c_view c) bs))
    by apply length_imap.
  apply put_loop; [done|]. intros i w s1 Hw R1 F1.
  unfold log_writes in Hw. rewrite list_lookup_imap in Hw.
  destruct (bs !! i) as [h|] eqn:Hi; [|done]. injection Hw as <-.
  pose proof (lookup_lt_Some _ _ _ Hi) as Hlt.
  assert (h ∈ bs) as Hh by (by eapply list_elem_of_lookup_2).
  set (W := take i _) in *.
  assert (forall m, m ∈ W.*1 -> start < m <= start + Z.of_nat (length bs)) as HW.
  { intros m Hm. apply (log_writes_key _ (c_view c)).
    unfold W in Hm. rewrite fmap_take in Hm. by apply elem_of_take in Hm as (? & ?%list_elem_of_lookup_2 & _). }
  assert (h ∉ W.*1) as HhW.
  { intros Hm%HW. eapply home_key; [exact Hi| |done]. lia. }
  rewrite <- (lv_start _ _ _ Hv). rewrite <- (bio_frame_klog _ _ F1).
  apply (write_log_one_spec _ _ _ h); try done.
  - rewrite c_puts_fields. cbn. pose proof (lg_disk _ _ _ _ Hg). lia.
  - by rewrite c_puts_fields.
  - rewrite (bio_frame_klog _ _ F1). apply Hv.
  - rewrite (bio_frame_klog _ _ F1). by eapply log_vars_at.
  - rewrite (bio_frame_klog _ _ F1), (lv_start _ _ _ Hv), c_puts_fields. cbn. lia.
  - rewrite (bio_frame_klog _ _ F1), (lv_start _ _ _ Hv), c_puts_fields. cbn.
    rewrite Hdirty, elem_of_difference, elem_of_list_to_set. intros [[j Hj]%list_elem_of_lookup _].
    eapply home_key; [exact Hj| |done]. lia.
  - rewrite c_puts_fields. by apply home_range.
  - rewrite c_puts_fields. cbn. rewrite Hdirty. set_solver.
  - rewrite c_puts_fields. cbn. rewrite apply_writes_other by done.
    apply lookup_blk, (co_view _ (cr_ok _ _ Hrep)), home_range, Hh.
  - eapply Nat.le_lt_trans; [by apply c_inuse_puts|].
    rewrite c_inuse_clean, Hdirty, size_list_to_set by (try done; apply Hg).
    apply (lg_buf _ _ _ _ Hg).
Qed.

Lemma install_trans_spec :
  c_dirty c = ∅ \/ c_dirty c = list_to_set bs ->
  wp install_trans s (fun _ s' =>
    cache_rep s' (c_puts (install_writes start (c_view c) bs) c) /\ bio_frame s s').
Proof using All.
  intros Hdirty. unfold install_trans. apply wp_bind, wp_gets.
  pose proof (lg_area _ _ _ _ Hg). pose proof (lg_fit _ _ _ _ Hg).
  pose proof (lg_start _ _ _ _ Hg). pose proof (lg_buf _ _ _ _ Hg).
  rewrite (lv_n _ _ _ Hv), Nat2Z.id.
  replace (length bs) with (length (install_writes start (c_view c) bs))
    by apply length_imap.
  apply put_loop; [done|]. intros i w s1 Hw R1 F1.
  assert ((take i (install_writes start (c_view c) bs)).*1 = take i bs) as Hkeys.
  { by rewrite fmap_take, install_writes_fst. }
  set (W := take i _) in *.
  unfold install_writes in Hw. rewrite list_lookup_imap in Hw.
  destruct (bs !! i) as [h|] eqn:Hi; [|done]. injection Hw as <-.
  pose proof (lookup_lt_Some _ _ _ Hi) as Hlt.
  assert (h ∈ bs) as Hh by (by eapply list_elem_of_lookup_2).
  assert (start + Z.of_nat i + 1 ∉ bs) as Hm.
  { intros [j Hj]%list_elem_of_lookup. eapply home_key; [exact Hj| |done]. lia. }
  pose proof (lv_start _ _ _ Hv) as Hst. rewrite <- (bio_frame_klog _ _ F1) in Hst.
  rewrite <- Hst. rewrite <- Hst in Hm.
  apply (install_one_spec _ _ i h); try done; rewrite ?c_puts_fields; cbn [c_busy c_size c_dirty c_view].
  - pose proof (lg_disk _ _ _ _ Hg). lia.
  - done.
  - rewrite (bio_frame_klog _ _ F1). apply Hv.
  - rewrite (bio_frame_klog _ _ F1). by eapply log_vars_at.
  - lia.
  - destruct Hdirty as [-> | ->]; set_solver.
  - by apply home_range.
  - congruence.
  - rewrite apply_writes_other.
    + apply lookup_blk, (co_view _ (cr_ok _ _ Hrep)). lia.
    + rewrite Hkeys. intros Hin%elem_of_take. destruct Hin as (? & ?%list_elem_of_lookup_2 & _). done.
  - rewrite <- c_puts_fields. eapply Nat.le_lt_trans; [by apply c_inuse_puts|].
    rewrite c_inuse_clean by done. destruct Hdirty as [-> | ->];
      [rewrite size_empty; lia|]. by rewrite size_list_to_set by apply Hg.
  - destruct Hdirty as [Hd | Hd].
    + right. rewrite <- c_puts_fields.
      pose proof (c_inuse_puts W c Hbusy) as Hu. rewrite (c_inuse_clean c), Hd, size_empty in Hu by done.
      change NBUF with 30%nat. lia.
    + left. rewrite Hd, Hkeys, elem_of_difference, !elem_of_list_to_set. split; [done|].
      intros (j & Hj & Hjlt)%elem_of_take.
      pose proof (NoDup_lookup _ _ _ _ (lg_nodup _ _ _ _ Hg) Hi Hj). lia.
Qed.
End Loops.

(** ** Commit *)
Lemma c_puts_size ws c : c_size (c_puts ws c) = c_size c.
Proof. by rewrite c_puts_fields. Qed.

Lemma c_puts_busy ws c : c_busy (c_puts ws c) = c_busy c.
Proof. by rewrite c_puts_fields. Qed.

Lemma c_puts_view ws c : c_view (c_puts ws c) = apply_writes ws (c_view c).
Proof. by rewrite c_puts_fields. Qed.

Lemma c_puts_dirty ws c :
  (forall m, m ∈ ws.*1 -> m ∉ c_dirty c) -> c_dirty (c_puts ws c) = c_dirty c.
Proof. intros H. rewrite c_puts_fields. cbn. set_solver. Qed.

(** The log blocks hold what [write_log] put there when they are installed. *)
Lemma install_logged start V D hb bs :
  install_writes start (apply_writes (log_writes start V bs ++ [(start, hb)]) D) bs =
    (fun h => (h, blk V h)) <$> bs.
Proof.
  apply list_eq. intros i. unfold install_writes.
  rewrite list_lookup_imap, list_lookup_fmap.
  destruct (bs !! i) as [h|] eqn:Hi; [|done]. cbn. do 2 f_equal.
  apply blk_Some. rewrite apply_writes_app. cbn. rewrite lookup_insert_ne by lia.
  apply apply_writes_in; [apply log_writes_NoDup|by apply log_writes_at].
Qed.

Section Commit.
Context {Dev : BlockDev}.
Context (s : kstate) (c : cache) (start size : Z) (bs : list Z) (hb : block).
Context (Hrep : cache_rep s c) (Hbusy : c_busy c = ∅).
Context (Hg : log_geom start size (c_size c) bs).
Context (Hv : log_vars (klog s) start bs).

Lemma start_notin : start ∉ bs.
Proof using Hg.
  intros [j Hj]%list_elem_of_lookup. eapply home_key; [done|exact Hj| |done]. lia.
Qed.

Lemma inuse_few :
  c_dirty c = ∅ \/ c_dirty c = list_to_set bs -> (c_inuse c < NBUF)%nat.
Proof using Hbusy Hg.
  intros Hd. rewrite c_inuse_clean by done. pose proof (lg_buf _ _ _ _ Hg).
  destruct Hd as [-> | ->]; [rewrite size_empty; lia|].
  by rewrite size_list_to_set by apply Hg.
Qed.

Lemma log_write_head :
  c_view c !! start = Some hb ->
  c_dirty c = ∅ \/ c_dirty c = list_to_set bs ->
  wp write_head s (fun _ s' =>
    cache_rep s'
      (c_put start (head_block hb (Z.of_nat (length bs)) (l_block (klog s))) c) /\
    bio_frame s s').
Proof using All.
  intros Hhb Hd. rewrite <- (lv_n _ _ _ Hv), <- (lv_start _ _ _ Hv).
  pose proof (lg_start _ _ _ _ Hg). pose proof (lg_area _ _ _ _ Hg).
  pose proof (lg_fit _ _ _ _ Hg).
  apply write_head_spec; try done; rewrite ?(lv_start _ _ _ Hv); try done.
  - pose proof (lg_disk _ _ _ _ Hg). lia.
  - apply Hv.
  - rewrite (lv_n _ _ _ Hv), (lv_arr _ _ _ Hv).
    pose proof (lg_buf _ _ _ _ Hg) as Hlt.
    change NBUF with 30%nat in Hlt. change LOGSIZE with 30. lia.
  - lia.
  - pose proof start_notin. destruct Hd as [-> | ->]; set_solver.
  - by apply inuse_few.
Qed.
End Commit.

Section Commit2.
Context {Dev : BlockDev}.
Context (s : kstate) (c : cache) (start size : Z) (bs : list Z) (hb : block).
Context (Hrep : cache_rep s c) (Hbusy : c_busy c = ∅).
Context (Hg : log_geom start size (c_size c) bs).
Context (Hv : log_vars (klog s) start bs).
Context (Hhb : c_view c !! start = Some hb).

Lemma log_geom_nil : log_geom start size (c_size c) [].
Proof using Hg.
  clear -Hg. pose proof (lg_fit _ _ _ _ Hg).
  split; try apply Hg; cbn; [lia|change NBUF with 30%nat; lia|constructor|set_solver].
Qed.

(** The first half of [commit], up to the write of the header. *)
Lemma log_and_head_spec :
  c_dirty c = list_to_set bs ->
  let h1 := head_block hb (Z.of_nat (length bs)) (l_block (klog s)) in
  let c2 := c_puts (log_writes start (c_view c) bs ++ [(start, h1)]) c in
  wp write_log s (fun _ s1 => wp write_head s1 (fun _ s2 =>
    cache_rep s2 c2 /\ c_dirty c2 = list_to_set bs /\ bio_frame s s2)).
Proof using All.
  intros Hdirty h1 c2. pose proof (start_notin c start size bs Hg) as Hst.
  assert (forall m, m ∈ (log_writes start (c_view c) bs).*1 ->
    (m ∉ c_dirty c) /\ m <> start) as Hlog.
  { intros m Hm%log_writes_key. split; [|lia]. rewrite Hdirty, elem_of_list_to_set.
    intros [j Hj]%list_elem_of_lookup. eapply home_key; [done|exact Hj| |done]. lia. }
  eapply wp_mono; [by apply (write_log_spec s c start size bs)|].
  intros ? s1 [R1 F1]. cbv beta. eapply wp_mono.
  { apply (log_write_head s1 _ start size bs hb R1).
    - by rewrite c_puts_busy.
    - by rewrite c_puts_size.
    - by rewrite (bio_frame_klog _ _ F1).
    - rewrite c_puts_view, apply_writes_other; [done|].
      intros Hm. by destruct (Hlog _ Hm).
    - right. by rewrite c_puts_dirty by (intros; by apply Hlog). }
  rewrite (bio_frame_klog _ _ F1). fold h1. intros ? s2 [R2 F2]. split; [|split].
  - unfold c2. by rewrite c_puts_app.
  - unfold c2. rewrite c_puts_dirty; [done|]. rewrite fmap_app.
    intros m [Hm|Hm]%elem_of_app; [by apply Hlog|]. cbn in Hm. set_solver.
  - by etrans.
Qed.

Lemma commit_writes_spec :
  c_dirty c = list_to_set bs -> bs <> [] ->
  wp commit s (fun _ s' =>
    cache_rep s'
      (c_puts (commit_writes start (c_view c) hb (l_block (klog s)) bs) c) /\
    klog s' = set_l_n 0 (klog s) /\ log_frame s s').
Proof using All.
  intros Hdirty Hne. unfold commit. apply wp_bind, wp_gets.
  apply wp_when_true.
  { rewrite (lv_n _ _ _ Hv). apply Z.ltb_lt.
    destruct (decide (length bs = 0%nat)) as [Hz|]; [|lia].
    by apply length_zero_iff_nil in Hz. }
  apply wp_bind. eapply wp_mono; [by apply log_and_head_spec|].
  intros ? s1 H1. cbv beta. apply wp_bind. eapply wp_mono; [exact H1|].
  clear H1. set (h1 := head_block hb _ _). set (W2 := _ ++ [_]) in *.
  intros ? s2 (R2 & D2 & F2). cbv beta.
  pose proof (bio_frame_klog _ _ F2) as Hk2. apply wp_bind. eapply wp_mono.
  { apply (install_trans_spec s2 _ start size bs R2).
    - by rewrite c_puts_busy.
    - by rewrite c_puts_size.
    - by rewrite Hk2.
    - by right. }
  rewrite c_puts_view. unfold W2 at 1. rewrite install_logged.
  set (W3 := _ <$> bs). assert (W3.*1 = bs) as HW3.
  { unfold W3. rewrite <- list_fmap_compose. apply list_fmap_id. }
  intros ? s3 [R3 F3]. cbv beta. apply wp_bind, wp_modify.
  apply (cache_rep_klog (set_l_n 0 (klog s3))) in R3.
  pose proof (bio_frame_klog _ _ F3) as Hk3. rewrite Hk2 in Hk3. eapply wp_mono.
  { apply (log_write_head _ _ start size [] h1 R3).
    - by rewrite !c_puts_busy.
    - rewrite !c_puts_size. apply log_geom_nil.
    - cbn. rewrite Hk3. split; try done; apply Hv.
    - rewrite !c_puts_view, apply_writes_other.
      + unfold W2. rewrite apply_writes_app. apply lookup_insert_eq.
      + rewrite HW3. by apply (start_notin c start size bs).
    - left. rewrite (c_puts_fields W3). cbn. rewrite D2, HW3. set_solver. }
  intros ? s4 [R4 F4]. change (l_block (klog (set_klog _ _))) with (l_block (klog s3)) in R4.
  rewrite Hk3 in R4. split; [|split].
  - change (c_put start ?h ?c) with (c_puts [(start, h)] c) in R4.
    rewrite <- !c_puts_app in R4. unfold W2 in R4. by rewrite <- !app_assoc in R4.
  - rewrite (bio_frame_klog _ _ F4). cbn. by rewrite Hk3.
  - etrans; [|by apply bio_log_frame].
    etrans; [|apply set_klog_frame]. apply bio_log_frame. by etrans.
Qed.
End Commit2.

(** ** The header block: what is written is what is read *)
Lemma head_upto_length hb n arr i : length (head_upto hb n arr i) = length hb.
Proof.
  unfold head_upto. induction (seq 0 i) as [|j l IH] using rev_ind.
  - apply put32_length.
  - rewrite foldl_snoc, put32_length. apply IH.
Qed.

Lemma head_upto_n hb n arr i :
  (4 <= length hb)%nat -> get32 (head_upto hb n arr i) 0 = u32 n.
Proof.
  intros H. induction i as [|i IH]; [by apply get_put32_same|].
  unfold head_upto. rewrite seq_S, foldl_snoc. rewrite get32_put32_other; [done|].
  unfold lh_off. lia.
Qed.

Lemma head_upto_block hb n arr i j :
  (lh_off i <= length hb)%nat -> (j < i)%nat ->
  get32 (head_upto hb n arr i) (lh_off j) = u32 (default 0 (arr !! j)).
Proof.
  intros Hl Hj. induction i as [|i IH]; [lia|].
  unfold head_upto. rewrite seq_S, foldl_snoc. cbn [Nat.add].
  fold (head_upto hb n arr i). unfold lh_off in *.
  destruct (decide (j = i)) as [->|Hne].
  - apply get_put32_same. rewrite head_upto_length. lia.
  - rewrite get32_put32_other by lia. apply IH; lia.
Qed.

Lemma i32_u32 z : i32 (u32 z) = i32 z.
Proof. unfold i32, u32. by rewrite Z.mod_mod. Qed.

Lemma head_block_n hb n arr :
  length hb = 512%nat -> 0 <= n <= LOGSIZE -> header_n (head_block hb n arr) = n.
Proof.
  intros Hl Hn. unfold header_n, head_block.
  rewrite head_upto_n, i32_u32 by lia. apply i32_small. change LOGSIZE with 30 in Hn. lia.
Qed.

Lemma head_block_blocks hb arr bs :
  length hb = 512%nat -> Z.of_nat (length bs) <= LOGSIZE ->
  take (length bs) arr = bs -> (forall h, h ∈ bs -> 0 <= h < 2 ^ 31) ->
  header_blocks (head_block hb (Z.of_nat (length bs)) arr) = bs.
Proof.
  intros Hl Hn Htake Hr. unfold header_blocks. rewrite head_block_n by lia.
  change LOGSIZE with 30 in Hn.
  rewrite Nat2Z.id. apply list_eq. intros i. rewrite list_lookup_fmap.
  destruct (decide (i < length bs)%nat) as [Hi|Hi].
  - rewrite lookup_seq_lt by done. destruct (lookup_lt_is_Some_2 bs i Hi) as [h Hh].
    rewrite Hh. cbn [fmap option_fmap option_map Nat.add]. unfold head_block.
    rewrite Nat2Z.id, head_upto_block, i32_u32 by (unfold lh_off; lia).
    assert (arr !! i = Some h) as ->.
    { rewrite <- Htake, lookup_take_Some in Hh. apply Hh. }
    cbn [default from_option]. by rewrite i32_small by (apply Hr; by eapply list_elem_of_lookup_2).
  - rewrite lookup_seq_ge by lia. cbn. symmetry. apply lookup_ge_None. lia.
Qed.

(** ** Recovery *)
Section Recover.
Context {Dev : BlockDev}.

Lemma set_lh_block_runs i v s :
  (i < length (l_block (klog s)))%nat ->
  runs (set_lh_block i v) s tt
    (set_klog (set_l_block (<[i := v]> (l_block (klog s))) (klog s)) s).
Proof.
  intros Hi e. destruct (lookup_lt_is_Some_2 _ _ Hi) as [w Hw].
  unfold set_lh_block, lh_block, upd_log, bind, gets, modify. by rewrite Hw.
Qed.

Lemma read_head_blocks s f n :
  (n <= length (l_block (klog s)))%nat ->
  wp (mfor n 0 (fun i => set_lh_block i (f i))) s (fun _ s' =>
    exists arr, s' = set_klog (set_l_block arr (klog s)) s /\
      length arr = length (l_block (klog s)) /\ take n arr = f <$> seq 0 n).
Proof.
  intros Hn. apply (wp_mfor (fun i s' =>
    exists arr, s' = set_klog (set_l_block arr (klog s)) s /\
      length arr = length (l_block (klog s)) /\ take i arr = f <$> seq 0 i)); [| |done].
  - exists (l_block (klog s)). split; [|done]. destruct s; cbn. f_equal. by destruct klog.
  - intros i s1 [_ Hi] (arr & -> & Hl & Ht). cbn in Hi.
    eapply runs_wp; [apply set_lh_block_runs; cbn; lia|].
    exists (<[i := f i]> arr). split; [done|]. split; [by len|].
    rewrite (take_S_r _ _ (f i)) by (apply list_lookup_insert_eq; lia).
    rewrite take_insert_ge by lia. rewrite Ht.
    by rewrite seq_S, fmap_app.
Qed.

Lemma read_head_spec s c hb : c_size c <= 2 ^ 32 ->
  cache_rep s c -> c_busy c = ∅ -> l_dev (klog s) = 1 ->
  let m := l_start (klog s) in
  0 <= m < c_size c -> m ∉ c_dirty c -> c_view c !! m = Some hb ->
  (c_inuse c < NBUF)%nat -> 0 <= header_n hb <= LOGSIZE ->
  length (l_block (klog s)) = Z.to_nat LOGSIZE ->
  wp read_head s (fun _ s' =>
    cache_rep s' c /\ log_frame s s' /\
    log_vars (klog s') m (header_blocks hb) /\
    klog s' = set_l_block (l_block (klog s')) (set_l_n (header_n hb) (klog s))).
Proof.
  intros Hsz Hrep Hb Hdev m Hm Hmd Hhb Huse Hn Harr. unfold read_head.
  apply wp_bind, wp_gets. rewrite Hdev. fold m. rewrite (u32_small m) by lia. apply wp_bind.
  apply (wp_bread s c m); [done|done|by rewrite Hb|by right|]. intros b s1 R1 F1.
  apply wp_bind. eapply (wp_buf_data _ _ m b hb); [exact R1|apply lookup_insert_eq|done|].
  cbv zeta. fold (header_n hb). apply wp_bind, wp_modify. apply wp_bind.
  eapply wp_mono.
  { apply read_head_blocks. cbn. rewrite (bio_frame_klog _ _ F1), Harr. lia. }
  intros ? s2 (arr & -> & Hl & Ht). cbv beta. cbn in Hl |- *.
  rewrite (bio_frame_klog _ _ F1) in Hl. eapply (wp_brelse _ _ m b).
  { do 2 apply cache_rep_klog. exact R1. }
  { apply lookup_insert_eq. }
  { right. apply (co_clean _ (cr_ok _ _ Hrep)); [done|by rewrite Hb]. }
  intros s3 R3 F3. split; [|split; [|split]].
  - replace (c_free m (c_acquire m b c)) with c in R3; [done|].
    unfold c_free, c_acquire. cbn. rewrite Hb, delete_insert_id by done.
    rewrite <- Hb. by destruct c.
  - etrans; [by apply bio_log_frame|]. etrans; [|by apply bio_log_frame].
    etrans; apply set_klog_frame.
  - rewrite (bio_frame_klog _ _ F3). cbn. rewrite (bio_frame_klog _ _ F1).
    unfold header_blocks. split; cbn; len.
    done.
  - rewrite (bio_frame_klog _ _ F3). cbn. by rewrite (bio_frame_klog _ _ F1).
Qed.
End Recover.
