(* ===== verification/Crash.v ===== *)
(** * Crash safety of the log

    The machine may stop after any of the block writes a commit performs, and
    again after any of the writes of the recovery that follows.  [recovers_to]
    says what recovery makes of a disk: it yields [E] outside the log area.
    Every disk a commit can leave recovers to the contents before the
    transaction or to those after it, and the property survives a crash during
    recovery.  The theorems run the code: [binit] and [initlog] on a machine
    that boots from such a disk return and leave these contents. *)

From S2P Require Import Prelude Bytes Kstate Sync Disk Bio Cache Log Commit.
Local Open Scope Z_scope.

Section Area.
Context (start size dsize : Z).

Definition in_log (n : Z) : Prop := start <= n < start + size.

(** The header block of [D] describes a log that can be installed. *)
Record log_disk (D : gmap Z block) : Prop := {
  ld_total n : 0 <= n < dsize -> is_Some (D !! n);
  ld_bytes n d : D !! n = Some d -> bytes_ok 512 d;
  ld_n : 0 <= header_n (blk D start) <= LOGSIZE;
  ld_geom : log_geom start size dsize (header_blocks (blk D start))
}.

Definition recovers_to (D E : gmap Z block) : Prop :=
  log_disk D /\
  forall n, 0 <= n < dsize -> ~ in_log n ->
    apply_writes (recover_writes start D) D !! n = E !! n.
End Area.

(** ** Lists of writes *)
Lemma prefix_app_cases {A} (l k1 k2 : list A) :
  l `prefix_of` k1 ++ k2 ->
  l `prefix_of` k1 \/ exists l', l = k1 ++ l' /\ l' `prefix_of` k2.
Proof.
  intros [r Hr]. symmetry in Hr. apply app_eq_inv in Hr as [(k & -> & ->)|(k & -> & ->)].
  - right. exists k. split; [done|]. by exists r.
  - left. by exists k.
Qed.

Lemma prefix_fst {A B} (l k : list (A * B)) x : l `prefix_of` k -> x ∈ l.*1 -> x ∈ k.*1.
Proof. intros [r ->]. rewrite fmap_app. set_solver. Qed.

Lemma apply_writes_total ws D n :
  is_Some (D !! n) -> is_Some (apply_writes ws D !! n).
Proof.
  intros H. induction ws as [|w ws IH] using rev_ind; [done|].
  rewrite apply_writes_app. cbn. rewrite lookup_insert. case_decide; [done|apply IH].
Qed.

Lemma apply_writes_bytes ws D n d :
  (forall n d, D !! n = Some d -> bytes_ok 512 d) ->
  (forall w, w ∈ ws -> bytes_ok 512 w.2) ->
  apply_writes ws D !! n = Some d -> bytes_ok 512 d.
Proof.
  intros HD. revert n d. induction ws as [|w ws IH] using rev_ind; intros n d Hw; [apply HD|].
  rewrite apply_writes_app. cbn. rewrite lookup_insert. case_decide.
  - intros [= <-]. apply Hw. set_solver.
  - apply IH. set_solver.
Qed.

Lemma imap_ext_in {A B} (f g : nat -> A -> B) l :
  (forall i x, l !! i = Some x -> f i x = g i x) -> imap f l = imap g l.
Proof.
  intros H. apply list_eq. intros i. rewrite !list_lookup_imap.
  destruct (l !! i) eqn:E; [|done]. cbn. by rewrite (H _ _ E).
Qed.

Lemma header_blocks_nil hb : header_n hb = 0 -> header_blocks hb = [].
Proof. unfold header_blocks. by intros ->. Qed.

Section Geom.
Context (start size dsize : Z) (bs : list Z).
Context (Hg : log_geom start size dsize bs).

Lemma geom_out n : n ∈ bs -> ~ in_log start size n.
Proof using Hg. clear -Hg. intros H. by apply (lg_home _ _ _ _ Hg). Qed.

Lemma geom_log i : (i < length bs)%nat -> in_log start size (start + Z.of_nat i + 1).
Proof using Hg. clear -Hg. intros H. pose proof (lg_fit _ _ _ _ Hg). unfold in_log. lia. Qed.

Lemma geom_start : in_log start size start.
Proof using Hg. clear -Hg. pose proof (lg_fit _ _ _ _ Hg). unfold in_log. lia. Qed.

(** [install_writes] reads only log blocks. *)
Lemma install_writes_agree D D' :
  (forall n, in_log start size n -> n <> start -> D' !! n = D !! n) ->
  install_writes start D' bs = install_writes start D bs.
Proof using Hg.
  clear -Hg. intros H. apply imap_ext_in. intros i h Hi. f_equal. unfold blk.
  rewrite H; [done| |lia]. apply geom_log. by eapply lookup_lt_Some.
Qed.
End Geom.

(** Writing the log changes no block outside it. *)
Lemma logged_other start size dsize bs V D hb n :
  log_geom start size dsize bs -> ~ in_log start size n ->
  apply_writes (log_writes start V bs ++ [(start, hb)]) D !! n = D !! n.
Proof.
  intros Hg Hn. apply apply_writes_other.
  rewrite fmap_app. intros [Hin%log_writes_key|Hin]%elem_of_app; apply Hn.
  - pose proof (lg_fit _ _ _ _ Hg). unfold in_log. lia.
  - apply list_elem_of_singleton in Hin as ->. by eapply geom_start.
Qed.

(** What recovery leaves in a block outside the log. *)
Lemma recover_lookup start size dsize D n :
  log_disk start size dsize D -> ~ in_log start size n ->
  apply_writes (recover_writes start D) D !! n =
  apply_writes (install_writes start D (header_blocks (blk D start))) D !! n.
Proof.
  intros H Hn. unfold recover_writes. rewrite apply_writes_app. cbn.
  rewrite lookup_insert_ne; [done|]. intros <-. apply Hn. eapply geom_start, H.
Qed.

(** A disk whose header says the log is empty recovers to itself. *)
Lemma recovers_empty start size dsize D E :
  log_disk start size dsize D -> header_n (blk D start) = 0 ->
  (forall n, 0 <= n < dsize -> ~ in_log start size n -> D !! n = E !! n) ->
  recovers_to start size dsize D E.
Proof.
  intros HD H0 HE. split; [done|]. intros n Hr Hn.
  rewrite (recover_lookup _ _ _ _ _ HD Hn), (header_blocks_nil _ H0). by apply HE.
Qed.

Lemma geom_nil start size dsize bs :
  log_geom start size dsize bs -> log_geom start size dsize [].
Proof.
  intros Hg. pose proof (lg_fit _ _ _ _ Hg).
  split; try apply Hg; cbn; [lia|change NBUF with 30%nat; lia|constructor|set_solver].
Qed.

(** The log of [D'] is that of a readable disk, or empty. *)
Lemma log_disk_writes start size dsize D ws bs :
  (forall n, 0 <= n < dsize -> is_Some (D !! n)) ->
  (forall n d, D !! n = Some d -> bytes_ok 512 d) ->
  (forall w, w ∈ ws -> bytes_ok 512 w.2) ->
  let hb := blk (apply_writes ws D) start in
  log_geom start size dsize bs -> header_blocks hb = bs ->
  0 <= header_n hb <= LOGSIZE ->
  log_disk start size dsize (apply_writes ws D).
Proof.
  intros Ht Hb Hw hb Hg Hbs Hn. split; [| |done|by fold hb; rewrite Hbs].
  - intros n Hr. by apply apply_writes_total, Ht.
  - intros n d. by apply apply_writes_bytes.
Qed.

Section CrashRecover.
Context (start size dsize : Z) (D E : gmap Z block).
Context (HD : log_disk start size dsize D).

Lemma blk_ok n : 0 <= n < dsize -> bytes_ok 512 (blk D n).
Proof using HD.
  intros H. apply (ld_bytes _ _ _ _ HD n), lookup_blk. by apply HD.
Qed.

Lemma start_range : 0 <= start < dsize.
Proof using HD.
  destruct HD as [_ _ _ [H1 H2 _ H4 _ _ _]]. lia.
Qed.

Lemma install_bytes w :
  w ∈ install_writes start D (header_blocks (blk D start)) -> bytes_ok 512 w.2.
Proof using HD.
  intros (i & h & -> & Hi)%elem_of_lookup_imap_1. cbn. apply blk_ok.
  apply lookup_lt_Some in Hi. destruct HD as [_ _ _ [H1 H2 _ H4 _ _ _]]. lia.
Qed.

Lemma recover_bytes w : w ∈ recover_writes start D -> bytes_ok 512 w.2.
Proof using HD.
  unfold recover_writes. intros [H|H]%elem_of_app; [by apply install_bytes|].
  apply list_elem_of_singleton in H as ->. apply put32_ok, blk_ok, start_range.
Qed.

(** The header [recover_from_log] leaves. *)
Lemma cleared_header hb : length hb = 512%nat -> header_n (put32 hb 0 0) = 0.
Proof. intros H. unfold header_n. by rewrite get_put32_same by lia. Qed.

Lemma recovered_header :
  header_n (blk (apply_writes (recover_writes start D) D) start) = 0.
Proof using HD.
  unfold recover_writes. rewrite apply_writes_app. cbn.
  erewrite blk_Some by apply lookup_insert_eq. apply cleared_header, blk_ok, start_range.
Qed.

Lemma crash_recover_mid R1 :
  recovers_to start size dsize D E ->
  R1 `prefix_of` install_writes start D (header_blocks (blk D start)) ->
  recovers_to start size dsize (apply_writes R1 D) E.
Proof using HD.
  intros [_ HE] Hp. set (bs := header_blocks _) in *.
  pose proof (ld_geom _ _ _ _ HD) as Hg. fold bs in Hg.
  assert (forall n, n ∈ R1.*1 -> n ∈ bs) as Hkeys.
  { intros n Hn. rewrite <- (install_writes_fst start D bs). by eapply prefix_fst. }
  assert (forall n, in_log start size n -> apply_writes R1 D !! n = D !! n) as Hlog.
  { intros n Hn. apply apply_writes_other. intros Hin%Hkeys. by eapply geom_out. }
  assert (blk (apply_writes R1 D) start = blk D start) as Hhb.
  { unfold blk. rewrite Hlog; [done|]. by eapply geom_start. }
  assert (log_disk start size dsize (apply_writes R1 D)) as HD'.
  { apply (log_disk_writes _ _ _ _ _ bs); rewrite ?Hhb; try done; try apply HD.
    intros w Hw. apply install_bytes. destruct Hp as [r Hr]. fold bs. rewrite Hr. set_solver. }
  split; [done|]. intros n Hr Hn.
  rewrite <- (HE n Hr Hn), !(recover_lookup _ _ dsize) by done.
  rewrite Hhb. fold bs.
  rewrite (install_writes_agree _ _ _ _ Hg D) by (intros; by apply Hlog).
  destruct (decide (n ∈ bs)) as [[i Hi]%list_elem_of_lookup|Hni].
  - by rewrite !(apply_writes_in _ _ n _) by
      (rewrite ?install_writes_fst; eauto using lg_nodup, install_writes_at).
  - rewrite !(apply_writes_other _ _ n); [done|by rewrite install_writes_fst|
      intros Hin; by apply Hni, Hkeys|by rewrite install_writes_fst].
Qed.

(** A crash during recovery is recovered from. *)
Lemma crash_recover R1 :
  recovers_to start size dsize D E -> R1 `prefix_of` recover_writes start D ->
  recovers_to start size dsize (apply_writes R1 D) E.
Proof using HD.
  intros HE [Hp|(R2 & -> & Hp)]%prefix_app_cases; [by apply crash_recover_mid|].
  destruct R2 as [|w R2].
  { rewrite app_nil_r. by apply crash_recover_mid. }
  assert (R2 = [] /\ w = (start, put32 (blk D start) 0 0)) as [-> ->].
  { apply prefix_cons_inv_1 in Hp as Hw. apply prefix_cons_inv_2, prefix_nil_inv in Hp. done. }
  fold (recover_writes start D). pose proof recovered_header as H0.
  apply recovers_empty; [|done|apply HE].
  apply (log_disk_writes _ _ _ _ _ []); try apply HD.
  - apply recover_bytes.
  - eapply geom_nil, (ld_geom _ _ _ _ HD).
  - by apply header_blocks_nil.
  - rewrite H0. change LOGSIZE with 30. lia.
Qed.
End CrashRecover.

(** ** A crash during a commit *)
Section CrashCommit.
Context (start size dsize : Z) (D V : gmap Z block) (arr bs : list Z).
Context (HD : log_disk start size dsize D) (Hempty : header_n (blk D start) = 0).
Context (Hg : log_geom start size dsize bs) (Harr : take (length bs) arr = bs).
Context (HV : forall n, 0 <= n < dsize -> is_Some (V !! n)).
Context (HVb : forall n d, V !! n = Some d -> bytes_ok 512 d).
Context (HVD : forall n, n ∉ bs -> V !! n = D !! n).

Let h1 := head_block (blk D start) (Z.of_nat (length bs)) arr.
Let homes := (fun h => (h, blk V h)) <$> bs.

Lemma homes_fst : homes.*1 = bs.
Proof. unfold homes. rewrite <- list_fmap_compose. apply list_fmap_id. Qed.

Lemma home_bytes w :
  w ∈ log_writes start V bs \/ w ∈ homes -> bytes_ok 512 w.2.
Proof using Hg HV HVb.
  assert (forall h, h ∈ bs -> bytes_ok 512 (blk V h)) as H.
  { intros h Hh. apply (HVb h), lookup_blk, HV.
    destruct (lg_home _ _ _ _ Hg h Hh). lia. }
  intros [(i & h & -> & Hi%list_elem_of_lookup_2)%elem_of_lookup_imap_1|Hw].
  - by apply H.
  - apply list_elem_of_fmap in Hw as (h & -> & Hh). by apply H.
Qed.

Lemma start_bytes : bytes_ok 512 (blk D start).
Proof using HD. clear -HD. eapply blk_ok; [done|]. by eapply start_range. Qed.

Lemma h1_bytes : bytes_ok 512 h1.
Proof using HD. clear -HD. apply head_upto_ok, start_bytes. Qed.

Lemma h1_header :
  header_n h1 = Z.of_nat (length bs) /\ header_blocks h1 = bs /\
  0 <= header_n h1 <= LOGSIZE.
Proof using HD Hg Harr.
  clear -HD Hg Harr. destruct start_bytes as [Hl _].
  pose proof (lg_buf _ _ _ _ Hg) as Hn. change NBUF with 30%nat in Hn.
  assert (header_n h1 = Z.of_nat (length bs)) as ->
    by (apply head_block_n; [done|change LOGSIZE with 30; lia]).
  split; [done|]. split; [|change LOGSIZE with 30; lia].
  apply head_block_blocks; [done|change LOGSIZE with 30; lia|done|].
  intros h Hh. pose proof (lg_disk _ _ _ _ Hg). destruct (lg_home _ _ _ _ Hg h Hh). lia.
Qed.

(** Before the header is written, recovery ignores the log. *)
Lemma crash_before_header R :
  R `prefix_of` log_writes start V bs ->
  recovers_to start size dsize (apply_writes R D) D.
Proof using All.
  intros Hp. assert (forall n, n ∈ R.*1 -> in_log start size n /\ n <> start) as Hkeys.
  { intros n Hn. apply (prefix_fst _ _ _ Hp), log_writes_key in Hn.
    pose proof (lg_fit _ _ _ _ Hg). unfold in_log. lia. }
  assert (blk (apply_writes R D) start = blk D start) as Hhb.
  { unfold blk. rewrite apply_writes_other; [done|]. intros Hn. by destruct (Hkeys _ Hn). }
  apply recovers_empty; [|by rewrite Hhb|].
  - apply (log_disk_writes _ _ _ _ _ []); try apply HD.
    + intros w Hw. apply home_bytes. left. destruct Hp as [r ->]. set_solver.
    + by eapply geom_nil.
    + rewrite Hhb. by apply header_blocks_nil.
    + rewrite Hhb. apply HD.
  - intros n Hr Hn. apply apply_writes_other. intros Hin. by destruct (Hkeys _ Hin).
Qed.

(** Once it is written, recovery installs every block of the transaction. *)
Lemma crash_after_header R :
  R `prefix_of` homes ->
  recovers_to start size dsize
    (apply_writes (log_writes start V bs ++ [(start, h1)] ++ R) D) V.
Proof using All.
  intros Hp. assert (forall n, n ∈ R.*1 -> n ∈ bs) as Hkeys.
  { intros n Hn. rewrite <- homes_fst. by eapply prefix_fst. }
  rewrite (app_assoc _ [_]), apply_writes_app.
  set (D1 := apply_writes (_ ++ _) D).
  assert (forall n, in_log start size n -> apply_writes R D1 !! n = D1 !! n) as Hlog.
  { intros n Hn. apply apply_writes_other. intros Hin%Hkeys. by eapply geom_out. }
  assert (blk (apply_writes R D1) start = h1) as Hhb.
  { apply blk_Some. rewrite Hlog by (by eapply geom_start).
    unfold D1. rewrite apply_writes_app. apply lookup_insert_eq. }
  destruct h1_header as (_ & Hbs & Hn1).
  assert (install_writes start (apply_writes R D1) bs = homes) as Hinst.
  { rewrite (install_writes_agree _ _ _ _ Hg D1) by (intros; by apply Hlog).
    apply install_logged. }
  assert (log_disk start size dsize (apply_writes R D1)) as HD1.
  { unfold D1. rewrite <- apply_writes_app.
    apply (log_disk_writes _ _ _ _ _ bs); try apply HD; try done;
      try (rewrite (apply_writes_app _ R); fold D1; by rewrite Hhb).
    intros w [[Hw|Hw]%elem_of_app|Hw]%elem_of_app.
    - apply home_bytes. by left.
    - apply list_elem_of_singleton in Hw as ->. apply h1_bytes.
    - apply home_bytes. right. destruct Hp as [r ->]. set_solver. }
  split; [done|]. intros n Hr Hn. rewrite (recover_lookup _ _ dsize) by done.
  rewrite Hhb, Hbs, Hinst. destruct (decide (n ∈ bs)) as [Hi|Hi].
  - rewrite (apply_writes_in _ _ n (blk V n)); [symmetry; by apply lookup_blk, HV|..].
    + rewrite homes_fst. apply Hg.
    + apply list_elem_of_fmap. eauto.
  - rewrite !(apply_writes_other _ _ n) by (rewrite ?homes_fst; eauto).
    unfold D1. by rewrite (logged_other _ size dsize), HVD.
Qed.

Lemma commit_writes_last :
  commit_writes start V (blk D start) arr bs =
    (log_writes start V bs ++ [(start, h1)] ++ homes) ++ [(start, head_block h1 0 arr)].
Proof. unfold commit_writes. fold h1 homes. by rewrite <- !app_assoc. Qed.

(** After the commit the log is empty again and every block is installed. *)
Lemma crash_after_commit :
  let D' := apply_writes (commit_writes start V (blk D start) arr bs) D in
  header_n (blk D' start) = 0 /\ recovers_to start size dsize D' V.
Proof using All.
  intros D'. destruct (crash_after_header homes) as [HD1 H1]; [done|].
  unfold D'. rewrite commit_writes_last, apply_writes_app.
  set (D1 := apply_writes (_ ++ _) D) in *. cbn.
  assert (header_n (head_block h1 0 arr) = 0) as H0.
  { apply cleared_header. apply h1_bytes. }
  erewrite blk_Some by apply lookup_insert_eq. split; [done|].
  set (ws := [(start, head_block h1 0 arr)]).
  change (<[start:=head_block h1 0 arr]> D1) with (apply_writes ws D1).
  assert (blk (apply_writes ws D1) start = head_block h1 0 arr) as Hb.
  { apply blk_Some. apply lookup_insert_eq. }
  apply recovers_empty; [|by rewrite Hb|].
  - apply (log_disk_writes _ _ _ _ _ []); rewrite ?Hb; try apply HD1.
    + intros w ->%list_elem_of_singleton. apply head_upto_ok, h1_bytes.
    + by eapply geom_nil.
    + by apply header_blocks_nil.
    + rewrite H0. change LOGSIZE with 30. lia.
  - intros n Hr Hn. rewrite apply_writes_other.
    2: { cbn. intros ->%list_elem_of_singleton. eapply Hn, geom_start, Hg. }
    unfold D1. rewrite (app_assoc _ [_]), apply_writes_app.
    destruct (decide (n ∈ bs)) as [Hi|Hi].
    + rewrite (apply_writes_in _ _ n (blk V n)); [symmetry; by apply lookup_blk, HV|..].
      * rewrite homes_fst. apply Hg.
      * apply list_elem_of_fmap. eauto.
    + rewrite (apply_writes_other homes) by (by rewrite homes_fst).
      by rewrite (logged_other _ size dsize), HVD.
Qed.

Lemma crash_commit R :
  R `prefix_of` commit_writes start V (blk D start) arr bs ->
  recovers_to start size dsize (apply_writes R D) D \/
  recovers_to start size dsize (apply_writes R D) V.
Proof using All.
  intros Hp. rewrite commit_writes_last in Hp.
  apply prefix_app_cases in Hp as [Hp|(R' & -> & Hp)].
  - apply prefix_app_cases in Hp as [Hp|(R' & -> & Hp)].
    { left. by apply crash_before_header. }
    destruct R' as [|w R'].
    { left. rewrite app_nil_r. by apply crash_before_header. }
    right. apply prefix_cons_inv_1 in Hp as Hw. apply prefix_cons_inv_2 in Hp.
    rewrite Hw. by apply (crash_after_header R').
  - right. destruct R' as [|w R'].
    { rewrite app_nil_r. by apply crash_after_header. }
    apply prefix_cons_inv_1 in Hp as Hw. apply prefix_cons_inv_2, prefix_nil_inv in Hp.
    subst. rewrite <- commit_writes_last. apply crash_after_commit.
Qed.
End CrashCommit.

(** ** Booting *)

(** Memory after a reset: the static tables are zero, and [D] is on disk. *)
Record boot_state (s : kstate) (D : gmap Z block) (dsize : Z) : Prop := {
  bt_held : held s = [];
  bt_disk : exists ws, disk s = mkDisk D dsize ws;
  bt_bufs : length (bufs s) = S NBUF;
  bt_clean b bf : bufs s !! b = Some bf ->
    b_busy bf = false /\ b_valid bf = false /\ b_dirty bf = false;
  bt_log : length (l_block (klog s)) = Z.to_nat LOGSIZE;
  bt_outstanding : l_outstanding (klog s) = 0 /\ l_committing (klog s) = false
}.

(** The superblock places the log at [start], [size]. *)
Definition sb_log (start size : Z) (D : gmap Z block) : Prop :=
  let sb := decode_sb (blk D 1) in
  i32 (sb_logstart sb) = start /\ i32 (sb_nlog sb) = size.

Definition clean_cache (D : gmap Z block) (dsize : Z) (ws : list (Z * block)) : cache :=
  mkCache D dsize ws D ∅ ∅.

(** The part of the boot sequence that brings the file system up: [binit] in
    [main], [initlog] in [forkret]. *)
Definition boot_fs `{BlockDev} : K unit := do binit; initlog ROOTDEV.

(** The log between the transactions' steps: [bs] are the logged blocks, pinned
    in the cache, and the log on disk is empty. *)
Record log_rep (start size : Z) (s : kstate) (c : cache) (bs : list Z) : Prop := {
  lr_cache : cache_rep s c;
  lr_geom : log_geom start size (c_size c) bs;
  lr_vars : log_vars (klog s) start bs;
  lr_size : l_size (klog s) = size;
  lr_dirty : c_dirty c = list_to_set bs;
  lr_disk : log_disk start size (c_size c) (c_disk c);
  lr_empty : header_n (blk (c_disk c) start) = 0
}.

(** Outside the log area, the disk of [s] holds [E]. *)
Definition disk_is (start size dsize : Z) (s : kstate) (E : gmap Z block) : Prop :=
  forall n, 0 <= n < dsize -> ~ in_log start size n -> d_blocks (disk s) !! n = E !! n.

Section Boot.
Context {Dev : BlockDev}.

Lemma reset_boot D dsize P i : boot_state (reset_state D dsize P i) D dsize.
Proof.
  split; try done.
  - by eexists.
  - intros b bf [-> _]%lookup_replicate. done.
Qed.

Lemma boot_table s D dsize ws t :
  boot_state s D dsize ->
  contents t = (set_b_dev (u32 (-1)) <$> take NBUF (contents (bufs s)))
                 ++ drop NBUF (contents (bufs s)) ->
  table_rep (contents t) (clean_cache D dsize ws).
Proof.
  intros Hs Ht.
  assert (forall b bf, (b < NBUF)%nat -> contents t !! b = Some bf ->
    b_dev bf = u32 (-1) /\ b_busy bf = false /\ b_valid bf = false /\
    b_dirty bf = false) as Hall.
  { intros b bf Hb. rewrite Ht. pose proof (bt_bufs _ _ _ Hs).
    rewrite lookup_app_l by (unfold contents; len).
    rewrite list_lookup_fmap, lookup_take_lt by done. unfold contents.
    rewrite list_lookup_fmap. destruct (bufs s !! b) as [bf0|] eqn:Hb0; [|done].
    intros [= <-]. destruct (bt_clean _ _ _ Hs _ _ Hb0) as (? & ? & ?). done. }
  assert (u32 (-1) <> 1) as Hne by done.
  split.
  - intros b bf Hb Hbf. unfold buf_ok.
    by destruct (Hall _ _ Hb Hbf) as (-> & -> & -> & ->).
  - intros b b' bf bf' Hb Hb' Hbf Hbf' Hd. destruct (Hall _ _ Hb Hbf) as (Hx & _). congruence.
  - intros n b. cbn. by rewrite lookup_empty.
  - intros n. cbn. set_solver.
Qed.

Lemma boot_cache s D dsize :
  boot_state s D dsize ->
  (forall n, 0 <= n < dsize -> is_Some (D !! n)) ->
  (forall n d, D !! n = Some d -> bytes_ok 512 d) ->
  wp binit s (fun _ s' => exists ws, disk s = mkDisk D dsize ws /\
    cache_rep s' (clean_cache D dsize ws) /\ s' = set_bufs (bufs s') s).
Proof.
  intros Hs Ht Hb. destruct (bt_disk _ _ _ Hs) as [ws Hws].
  eapply wp_mono; [apply binit_lru, Hs|]. intros ? s' (Hl & Hs' & Hc).
  exists ws. split; [done|]. split; [|done].
  split; [by rewrite Hs'; apply Hs|by eexists|by rewrite Hs'| |].
  - by eapply boot_table.
  - by split.
Qed.

Lemma recover_from_log_spec s start size dsize D ws :
  cache_rep s (clean_cache D dsize ws) -> log_disk start size dsize D ->
  l_dev (klog s) = 1 -> l_start (klog s) = start ->
  length (l_block (klog s)) = Z.to_nat LOGSIZE ->
  wp recover_from_log s (fun _ s' =>
    cache_rep s' (c_puts (recover_writes start D) (clean_cache D dsize ws)) /\
    log_frame s s' /\ log_vars (klog s') start [] /\
    klog s' = set_l_block (l_block (klog s')) (set_l_n 0 (klog s))).
Proof.
  intros Hrep HD Hdev Hst Harr. set (c := clean_cache _ _ _) in *.
  pose proof (ld_geom _ _ _ _ HD) as Hg. pose proof (start_range _ _ _ _ HD) as Hsr.
  set (hb := blk D start) in *. set (bs := header_blocks hb) in *.
  assert (c_view c !! start = Some hb) as Hhb by (by apply lookup_blk, HD).
  assert (0 < NBUF)%nat by (change NBUF with 30%nat; lia).
  unfold recover_from_log. apply wp_bind. eapply wp_mono.
  { apply (read_head_spec s c hb); try done; rewrite ?Hst; try done; [|apply HD].
    pose proof (lg_disk _ _ _ _ Hg). cbn. lia. }
  rewrite Hst. fold bs. intros ? s1 (R1 & F1 & Hv1 & Hk1). cbv beta.
  apply wp_bind. eapply wp_mono; [apply (install_trans_spec s1 c start size bs); try done; by left|].
  intros ? s2 [R2 F2]. cbv beta. apply wp_bind, wp_modify.
  pose proof (bio_frame_klog _ _ F2) as Hk2.
  apply (cache_rep_klog (set_l_n 0 (klog s2))) in R2.
  eapply wp_mono.
  { apply (log_write_head _ _ start size [] hb R2).
    - by rewrite c_puts_busy.
    - rewrite c_puts_size. by eapply geom_nil.
    - cbn. rewrite Hk2. split; try done; apply Hv1.
    - rewrite c_puts_view, apply_writes_other; [done|].
      rewrite install_writes_fst. by apply (start_notin c start size bs).
    - left. rewrite c_puts_fields. cbn. set_solver. }
  intros ? s3 [R3 F3]. pose proof (bio_frame_klog _ _ F3) as Hk3.
  cbn in Hk3. rewrite Hk2 in Hk3. split; [|split; [|split]].
  - unfold recover_writes. by rewrite c_puts_app.
  - etrans; [exact F1|]. etrans; [by apply bio_log_frame|].
    etrans; [|by apply bio_log_frame]. apply set_klog_frame.
  - rewrite Hk3. split; try done; apply Hv1.
  - rewrite Hk3. cbn. by rewrite Hk1.
Qed.

Lemma readsb_spec s c :
  cache_rep s c -> c_busy c = ∅ -> c_dirty c = ∅ -> 1 < c_size c ->
  wp (readsb 1) s (fun sb s' =>
    sb = decode_sb (blk (c_view c) 1) /\ cache_rep s' c /\ bio_frame s s').
Proof.
  intros Hrep Hb Hd Hs. unfold readsb. apply wp_bind.
  apply (wp_bread s c 1); [done|lia|by rewrite Hb| |].
  { right. rewrite c_inuse_clean, Hd, size_empty by done. change NBUF with 30%nat. lia. }
  intros b s1 R1 F1. destruct (co_view _ (cr_ok _ _ Hrep) 1) as [d Hd1]; [lia|].
  apply wp_bind. eapply (wp_buf_data _ _ 1 b d); [exact R1|apply lookup_insert_eq|done|].
  apply wp_bind. eapply (wp_brelse _ _ 1 b); [exact R1|apply lookup_insert_eq| |].
  { right. apply (co_clean _ (cr_ok _ _ Hrep)); [rewrite Hd; set_solver|by rewrite Hb]. }
  intros s2 R2 F2. apply wp_ret. split; [by rewrite (blk_Some _ _ _ Hd1)|]. split; [|by etrans].
  replace (c_free 1 (c_acquire 1 b c)) with c in R2; [done|].
  unfold c_free, c_acquire. cbn. rewrite Hb, delete_insert_id by done.
  rewrite <- Hb. by destruct c.
Qed.

Lemma log_disk_recovered start size dsize D :
  log_disk start size dsize D ->
  log_disk start size dsize (apply_writes (recover_writes start D) D).
Proof.
  intros HD. by apply (crash_recover _ _ _ _ (apply_writes (recover_writes start D) D) HD).
Qed.

Lemma initlog_spec s start size dsize D E ws :
  cache_rep s (clean_cache D dsize ws) -> length (l_block (klog s)) = Z.to_nat LOGSIZE -> sb_log start size D ->
  recovers_to start size dsize D E ->
  wp (initlog ROOTDEV) s (fun _ s' => exists c, log_rep start size s' c [] /\
    c_busy c = ∅ /\ c_size c = dsize /\ c_view c = c_disk c /\
    disk_is start size dsize s' E /\
    d_writes (disk s') = reverse (recover_writes start D) ++ ws /\
    l_outstanding (klog s') = l_outstanding (klog s) /\ l_committing (klog s') = l_committing (klog s) /\
    log_frame s s').
Proof.
  intros R1 Hlen [Hst Hsz] [HD HE]. pose proof (start_range _ _ _ _ HD) as Hsr.
  pose proof (lg_start _ _ _ _ (ld_geom _ _ _ _ HD)). unfold initlog.
  apply wp_if_false; [done|]. apply wp_bind.
  eapply wp_mono; [apply (readsb_spec _ _ R1); cbn; [done|done|lia]|].
  intros ? s2 (-> & R2 & F2). cbv beta. apply wp_bind, wp_modify.
  change (c_view (clean_cache D dsize ws)) with D. rewrite Hst, Hsz.
  pose proof (bio_frame_klog _ _ F2) as Hk2.
  eapply wp_mono.
  { apply (recover_from_log_spec _ start size dsize D ws); try done.
    - by apply cache_rep_klog.
    - cbn. by rewrite Hk2. }
  intros ? s3 (R3 & F3 & Hv3 & Hk3). eexists. split; [split; [exact R3|..]|].
  - rewrite c_puts_size. eapply geom_nil, HD.
  - done.
  - by rewrite Hk3.
  - rewrite c_puts_fields. cbn. set_solver.
  - rewrite c_puts_fields. by apply log_disk_recovered.
  - rewrite c_puts_fields. by eapply recovered_header.
  - rewrite c_puts_busy, c_puts_size. split; [done|]. split; [done|].
    split; [by rewrite c_puts_fields|]. split; [|split; [by rewrite (cr_disk _ _ R3), c_puts_fields|]].
    + intros n Hr Hn. rewrite (cr_disk _ _ R3), c_puts_fields. by apply HE.
    + rewrite Hk3. cbn. rewrite Hk2. split; [done|]. split; [done|].
      etrans; [by apply bio_log_frame|]. etrans; [|exact F3]. apply set_klog_frame.
Qed.

Lemma boot_fs_spec s start size dsize D E :
  boot_state s D dsize -> sb_log start size D ->
  recovers_to start size dsize D E ->
  wp boot_fs s (fun _ s' => exists c, log_rep start size s' c [] /\
    c_busy c = ∅ /\ c_size c = dsize /\ c_view c = c_disk c /\
    disk_is start size dsize s' E /\
    d_writes (disk s') = reverse (recover_writes start D) ++ d_writes (disk s) /\
    l_outstanding (klog s') = 0 /\ l_committing (klog s') = false).
Proof.
  intros Hs Hsb HR. pose proof (proj1 HR) as HD. unfold boot_fs. apply wp_bind.
  eapply wp_mono; [apply (boot_cache s D dsize); [done|apply HD..]|].
  intros ? s1 (ws & Hws & R1 & Hs1). assert (klog s1 = klog s) as Hk by (by rewrite Hs1).
  eapply wp_mono; [apply (initlog_spec s1 start size dsize D E ws); [done|rewrite Hk; apply Hs|done..]|].
  intros ? s2 (c & H1 & H2 & H3 & H4 & H5 & H6 & H7 & H8 & _). exists c. rewrite H6, H7, H8, Hk, Hws. destruct (bt_outstanding _ _ _ Hs) as [-> ->]. done.
Qed.
End Boot.

(** ** Crash points of a run *)

(** The disk after some of the block writes between [s] and [s']. *)
Definition crash_disk (s s' : kstate) (D : gmap Z block) : Prop :=
  exists ws R, d_writes (disk s') = reverse ws ++ d_writes (disk s) /\
    R `prefix_of` ws /\ D = apply_writes R (d_blocks (disk s)).

(** [reboots D D']: the machine boots from [D], possibly stops while the file
    system comes up, boots again, and so on; [D'] is what is then on disk. *)
Inductive reboots `{BlockDev} (dsize : Z) : gmap Z block -> gmap Z block -> Prop :=
| reboots_done D : reboots dsize D D
| reboots_crash D D1 D2 s s' :
    boot_state s D dsize -> runs boot_fs s tt s' -> crash_disk s s' D1 ->
    reboots dsize D1 D2 -> reboots dsize D D2.

Lemma crash_disk_writes s s' ws D :
  d_writes (disk s') = reverse ws ++ d_writes (disk s) ->
  crash_disk s s' D ->
  exists R, R `prefix_of` ws /\ D = apply_writes R (d_blocks (disk s)).
Proof.
  intros Hw (ws' & R & Hw' & HR & ->). rewrite Hw in Hw'.
  apply app_inv_tail, (inj reverse) in Hw' as ->. eauto.
Qed.

Lemma crash_disk_frame s s1 s2 s' D :
  disk s1 = disk s -> disk s2 = disk s' -> crash_disk s s' D <-> crash_disk s1 s2 D.
Proof. intros H1 H2. unfold crash_disk. by rewrite H1, H2. Qed.

Section CrashPoints.
Context {Dev : BlockDev}.
Context (start size dsize : Z).

(** A disk that recovers to [E] and has the superblock. *)
Definition good_disk (E D : gmap Z block) : Prop :=
  recovers_to start size dsize D E /\ sb_log start size D.

(** Stopping during the boot leaves a disk that is still good. *)
Lemma boot_crash s s' D E D1 :
  boot_state s D dsize -> good_disk E D -> runs boot_fs s tt s' ->
  crash_disk s s' D1 -> good_disk E D1.
Proof.
  intros Hs [HE Hsb] Hrun Hcr.
  destruct (wp_runs _ _ _ _ _ (boot_fs_spec _ _ _ _ _ _ Hs Hsb HE) Hrun)
    as (c & _ & _ & _ & _ & _ & Hw & _).
  destruct (crash_disk_writes _ _ _ _ Hw Hcr) as (R & HR & ->).
  destruct (bt_disk _ _ _ Hs) as [ws ->]. cbn. destruct HE as [HD HE]. split.
  - by apply crash_recover.
  - unfold sb_log, blk. rewrite apply_writes_other; [done|].
    intros Hin%(prefix_fst _ _ _ HR). unfold recover_writes in Hin.
    rewrite fmap_app, install_writes_fst in Hin. cbn in Hin.
    pose proof (ld_geom _ _ _ _ HD) as Hg. pose proof (lg_start _ _ _ _ Hg).
    apply elem_of_app in Hin as [Hin|Hin%list_elem_of_singleton]; [|lia].
    destruct (lg_home _ _ _ _ Hg 1 Hin). lia.
Qed.

Lemma reboots_good D D' E : reboots dsize D D' -> good_disk E D -> good_disk E D'.
Proof. induction 1; [done|]. intros HE. by eauto using boot_crash. Qed.

Lemma good_boots D E s :
  boot_state s D dsize -> good_disk E D ->
  wp boot_fs s (fun _ s' => disk_is start size dsize s' E).
Proof.
  intros Hs [HE Hsb]. eapply wp_mono; [by apply (boot_fs_spec s start size dsize D E)|].
  intros ? s' (c & Hc). apply Hc.
Qed.
End CrashPoints.

(** ** Committing *)
Section CommitRep.
Context {Dev : BlockDev}.
Context (start size : Z) (s : kstate) (c : cache) (bs : list Z).
Context (Hl : log_rep start size s c bs) (Hbusy : c_busy c = ∅).

Let W := commit_writes start (c_view c) (blk (c_disk c) start) (l_block (klog s)) bs.

Lemma view_clean n : n ∉ bs -> c_view c !! n = c_disk c !! n.
Proof using Hl Hbusy.
  intros Hn. apply (co_clean _ (cr_ok _ _ (lr_cache _ _ _ _ _ Hl))).
  - rewrite (lr_dirty _ _ _ _ _ Hl). by rewrite elem_of_list_to_set.
  - by rewrite Hbusy.
Qed.

Lemma view_start : c_view c !! start = Some (blk (c_disk c) start).
Proof using Hl Hbusy.
  rewrite view_clean by (eapply start_notin, Hl).
  eapply lookup_blk, Hl, start_range, Hl.
Qed.

Lemma commit_crash_good R :
  sb_log start size (c_disk c) -> R `prefix_of` W ->
  good_disk start size (c_size c) (c_disk c) (apply_writes R (c_disk c)) \/
  good_disk start size (c_size c) (c_view c) (apply_writes R (c_disk c)).
Proof using Hl Hbusy.
  intros Hsb HR. pose proof (lr_geom _ _ _ _ _ Hl) as Hg.
  pose proof (cr_ok _ _ (lr_cache _ _ _ _ _ Hl)) as Hok.
  assert (sb_log start size (apply_writes R (c_disk c))) as Hsb'.
  { unfold sb_log, blk. rewrite apply_writes_other; [done|].
    intros Hin%(prefix_fst _ _ _ HR). unfold W, commit_writes in Hin.
    rewrite !fmap_app, homes_fst, !elem_of_app in Hin. cbn in Hin.
    pose proof (lg_start _ _ _ _ Hg).
    destruct Hin as [Hin%log_writes_key|[Hin%list_elem_of_singleton|
      [Hin|Hin%list_elem_of_singleton]]]; [lia|lia| |lia].
    destruct (lg_home _ _ _ _ Hg 1 Hin). lia. }
  destruct (crash_commit start size (c_size c) (c_disk c) (c_view c)
    (l_block (klog s)) bs) with (R := R) as [H|H]; try apply Hl; try done.
  - apply view_clean.
  - by left.
  - by right.
Qed.

Lemma commit_view n :
  ~ in_log start size n -> apply_writes W (c_view c) !! n = c_view c !! n.
Proof using Hl Hbusy.
  intros Hn. pose proof (lr_geom _ _ _ _ _ Hl) as Hg.
  pose proof (cr_ok _ _ (lr_cache _ _ _ _ _ Hl)) as Hok.
  pose proof (geom_start _ _ _ _ Hg) as Hs.
  unfold W. rewrite commit_writes_last, !apply_writes_app.
  rewrite (apply_writes_other [_]) by (cbn; set_solver).
  destruct (decide (n ∈ bs)) as [Hi|Hi].
  - rewrite (apply_writes_in _ _ n (blk (c_view c) n)).
    + symmetry. apply lookup_blk, Hok. destruct (lg_home _ _ _ _ Hg n Hi). lia.
    + rewrite homes_fst. apply Hg.
    + apply list_elem_of_fmap. eauto.
  - rewrite (apply_writes_other (_ <$> bs)) by (by rewrite homes_fst).
    rewrite <- apply_writes_app. by rewrite (logged_other start size (c_size c)).
Qed.

Lemma commit_rep :
  wp commit s (fun _ s' => exists c', log_rep start size s' c' [] /\
    c_busy c' = ∅ /\ c_size c' = c_size c /\ c_view c' = c_disk c' /\
    (forall n, ~ in_log start size n -> c_view c' !! n = c_view c !! n) /\
    klog s' = set_l_n 0 (klog s) /\ log_frame s s' /\
    exists R, R `prefix_of` W /\ d_writes (disk s') = reverse R ++ d_writes (disk s)).
Proof using Hl Hbusy.
  pose proof (lr_geom _ _ _ _ _ Hl) as Hg. pose proof (lr_vars _ _ _ _ _ Hl) as Hv.
  pose proof (cr_ok _ _ (lr_cache _ _ _ _ _ Hl)) as Hok.
  destruct (decide (bs = [])) as [Hn|Hn].
  - unfold commit. apply wp_bind, wp_gets. apply wp_when_false.
    { rewrite (lv_n _ _ _ Hv), Hn. done. }
    exists c. rewrite <- Hn. repeat (split; [done|]). split.
    { apply map_eq. intros n. apply view_clean. rewrite Hn. set_solver. }
    split; [done|]. split.
    { pose proof (lv_n _ _ _ Hv) as H0. rewrite Hn in H0.
      change (l_n (klog s) = 0) in H0.
      rewrite <- H0. by destruct (klog s). }
    split; [done|]. exists []. split; [by exists W|done].
  - eapply wp_mono.
    { apply (commit_writes_spec s c start size bs (blk (c_disk c) start)); try done;
        [apply Hl|apply view_start|apply Hl]. }
    fold W. intros ? s' (R' & Hk & F).
    destruct (crash_after_commit start size (c_size c) (c_disk c) (c_view c)
      (l_block (klog s)) bs) as [H0 H1]; try apply Hl; try done.
    { apply view_clean. }
    fold W in H0, H1. set (c' := c_puts W c) in *.
    assert (c_dirty c' = ∅) as Hd.
    { unfold c'. rewrite c_puts_fields. cbn. rewrite (lr_dirty _ _ _ _ _ Hl).
      unfold W, commit_writes. rewrite !fmap_app, homes_fst. set_solver. }
    assert (c_view c' = c_disk c') as Hvd.
    { apply map_eq. intros n. apply (co_clean _ (cr_ok _ _ R')); [rewrite Hd; set_solver|].
      unfold c'. by rewrite c_puts_busy, Hbusy. }
    exists c'. split; [split|].
    + done.
    + unfold c'. rewrite c_puts_size. by eapply geom_nil.
    + rewrite Hk. split; try done; apply Hv.
    + rewrite Hk. apply Hl.
    + done.
    + unfold c'. rewrite c_puts_fields. apply H1.
    + unfold c'. rewrite c_puts_fields. apply H0.
    + unfold c' at 1 2. rewrite c_puts_busy, c_puts_size. do 3 (split; [done|]).
      split; [|split; [done|split; [done|]]].
      * intros n Hin. unfold c'. rewrite c_puts_view. by apply commit_view.
      * exists W. split; [done|]. rewrite (cr_disk _ _ R'), (cr_disk _ _ (lr_cache _ _ _ _ _ Hl)).
        unfold c'. by rewrite c_puts_fields.
Qed.
End CommitRep.
