(* ===== verification/Txn.v ===== *)
(** * Transactions

    [begin_op], [log_write] and [end_op] of log.c as the file system uses
    them: a process reserves log space, changes blocks in the cache, and its
    last [end_op] commits.  The main theorem is that the blocks a group of
    operations changed reach the disk together, whatever the point at which
    the machine stops and however often it stops again while recovering. *)

From S2P Require Import Prelude Bytes Kstate Sync Disk Bio Cache Log Commit Crash.
Local Open Scope Z_scope.

(** The logged blocks after block [n] was logged. *)
Definition logged (n : Z) (bs : list Z) : list Z :=
  if decide (n ∈ bs) then bs else bs ++ [n].

(** Block [n] is changed to [d] in the cache and logged. *)
Definition c_upd (n : Z) (d : block) (c : cache) : cache :=
  mkCache (c_disk c) (c_size c) (c_writes c) (<[n := d]> (c_view c)) (c_busy c)
    ({[n]} ∪ c_dirty c).

(** What [begin_op] reserves: no commit is running, and the blocks in the log
    with [MAXOPBLOCKS] more for every operation under way are at most
    [LOGSIZE]. *)
Definition reserved (g : logst) : Prop :=
  l_committing g = false /\ l_n g + l_outstanding g * MAXOPBLOCKS <= LOGSIZE.

(** [log_write] has no room for one more block. *)
Definition refused (g : logst) : Prop :=
  exists b s e, klog s = g /\ log_write b s e = Panic "too big a transaction" s.

(** [log] after [log_write] of block [n]. *)
Definition log_add (n : Z) (g : logst) : logst :=
  let i := log_slot (l_block g) (Z.to_nat (l_n g)) 0 n in
  let g1 := set_l_block (<[i := i32 n]> (l_block g)) g in
  if Z.of_nat i =? l_n g1 then set_l_n (l_n g1 + 1) g1 else g1.

(** ** log_write *)
Lemma log_slot_spec arr n k m bs :
  take n arr = bs -> length bs = n -> (forall v, v ∈ bs -> 0 <= v < 2 ^ 32) ->
  (exists i, bs !! i = Some m /\ log_slot arr n k m = (k + i)%nat) \/
  ((m ∉ bs) /\ log_slot arr n k m = (k + n)%nat).
Proof.
  revert arr k bs. induction n as [|n IH]; intros arr k bs Ht Hl Hr.
  - right. apply length_zero_iff_nil in Hl as ->. split; [set_solver|].
    destruct arr; cbn; lia.
  - destruct arr as [|v arr]; [by rewrite take_nil in Ht; subst|]. subst bs. cbn in *.
    rewrite u32_small by (apply Hr; set_solver).
    destruct (Z.eqb_spec v m) as [->|Hne].
    + left. exists 0%nat. split; [done|lia].
    + destruct (IH arr (S k) (take n arr)) as [(i & Hi & ->)|[Hi ->]];
        [done|lia|intros; apply Hr; set_solver|left; exists (S i)|right].
      * split; [done|lia].
      * split; [set_solver|lia].
Qed.

Lemma log_geom_logged start size dsize bs n :
  log_geom start size dsize bs -> 2 <= n < dsize -> ~ in_log start size n ->
  Z.of_nat (length bs) < size - 1 -> size <= LOGSIZE ->
  log_geom start size dsize (logged n bs).
Proof.
  intros Hg Hn Hin Hl Hs. unfold logged. case_decide as Hd; [done|].
  change LOGSIZE with 30 in Hs.
  split; try apply Hg; try (rewrite length_app; cbn).
  - lia.
  - change NBUF with 30%nat. lia.
  - apply list.NoDup_app. split; [apply Hg|]. split; [set_solver|]. apply NoDup_singleton.
  - intros h [Hh|Hh%list_elem_of_singleton]%elem_of_app; [by apply Hg|by subst].
Qed.

Lemma list_to_set_logged n bs :
  list_to_set (logged n bs) =@{gset Z} {[n]} ∪ list_to_set bs.
Proof. unfold logged. case_decide; set_solver. Qed.

Section LogWrite.
Context (start size : Z) (s : kstate) (c : cache) (bs : list Z) (b : nat) (n : Z).
Context (Hl : log_rep start size s c bs).
Context (Hb : c_busy c !! n = Some b).
Context (Hn : 2 <= n < c_size c) (Hin : ~ in_log start size n).
Context (Hsize : size <= LOGSIZE).

(** The new header in memory. *)
Lemma log_vars_logged :
  Z.of_nat (length bs) < size - 1 ->
  let i := log_slot (l_block (klog s)) (Z.to_nat (l_n (klog s))) 0 n in
  (i < length (l_block (klog s)))%nat /\
  log_vars (log_add n (klog s)) start (logged n bs).
Proof using Hl Hn Hsize.
  clear -Hl Hn Hsize. intros Hlt i. unfold log_add. fold i. cbv zeta.
  pose proof (lr_vars _ _ _ _ _ Hl) as Hv. pose proof (lr_geom _ _ _ _ _ Hl) as Hg.
  pose proof (lg_disk _ _ _ _ Hg) as Hd. change LOGSIZE with 30 in Hsize.
  rewrite (i32_small n) by lia.
  assert (length (l_block (klog s)) = 30%nat) as Ha by apply Hv.
  destruct (log_slot_spec (l_block (klog s)) (length bs) 0 n bs) as [(j & Hj & Hi)|[Hj Hi]].
  { apply Hv. } { done. }
  { intros v Hin. destruct (lg_home _ _ _ _ Hg v Hin). lia. }
  - unfold i. rewrite (lv_n _ _ _ Hv), Nat2Z.id, Hi. cbn [Nat.add].
    pose proof (lookup_lt_Some _ _ _ Hj). split; [lia|]. cbn.
    rewrite (lv_n _ _ _ Hv). rewrite (proj2 (Z.eqb_neq _ _)) by lia.
    rewrite list_insert_id by (by eapply log_vars_at).
    unfold logged. rewrite decide_True by (by eapply list_elem_of_lookup_2).
    destruct (klog s), Hv. by split.
  - unfold i. rewrite (lv_n _ _ _ Hv), Nat2Z.id, Hi. cbn [Nat.add]. split; [lia|]. cbn.
    rewrite (lv_n _ _ _ Hv), Z.eqb_refl.
    unfold logged. rewrite decide_False by done. split; cbn; try apply Hv.
    + rewrite length_app. cbn. lia.
    + by rewrite length_insert.
    + rewrite length_app. cbn. rewrite Nat.add_1_r.
      erewrite take_S_r by (apply list_lookup_insert_eq; lia).
      rewrite take_insert_ge by lia. by rewrite (lv_blocks _ _ _ Hv).
Qed.

Lemma pin_state bf :
  bufs s !! b = Some bf ->
  cache_rep (set_bufs (<[b := set_b_dirty true bf]> (bufs s)) s) (c_pin n c).
Proof using Hl Hb.
  clear -Hl Hb. intros Hbf.
  apply (wp_runs (upd_buf b (set_b_dirty true)) s tt _
    (fun _ s' => cache_rep s' (c_pin n c))); [|by apply upd_buf_runs].
  eapply wp_mono; [apply (pin_spec s c n b); [apply Hl|done]|]. by intros ? s' [? _].
Qed.

Lemma log_write_runs bf :
  let i := log_slot (l_block (klog s)) (Z.to_nat (l_n (klog s))) 0 n in
  bufs s !! b = Some bf ->
  0 <= l_n (klog s) < size - 1 -> 1 <= l_outstanding (klog s) ->
  (i < length (l_block (klog s)))%nat ->
  runs (log_write b) s tt
    (set_klog (log_add n (klog s))
      (set_bufs (<[b := set_b_dirty true bf]> (bufs s)) s)).
Proof using Hl Hb Hsize.
  clear -Hl Hb Hsize. intros i Hbf Hnn Hout Hlt.
  pose proof (lr_cache _ _ _ _ _ Hl) as Hrep. change LOGSIZE with 30 in Hsize.
  destruct (rep_buffer _ _ _ _ Hrep Hb) as (bf' & _ & Hbf' & _ & _ & _ & Hno & _).
  assert (bf' = bf) as -> by congruence.
  pose proof (cr_held _ _ Hrep) as Hh.
  intros e. unfold log_write. unfold bind at 1, gets at 1.
  rewrite (lr_size _ _ _ _ _ Hl).
  replace ((LOGSIZE <=? l_n (klog s)) || (size - 1 <=? l_n (klog s))) with false
    by (change LOGSIZE with 30; lia).
  replace (l_outstanding (klog s) <? 1) with false by lia.
  unfold bind at 1. rewrite acquire_runs by (rewrite Hh; set_solver).
  unfold bind at 1. rewrite (buf_at_runs b bf) by done. rewrite Hno. fold i.
  unfold bind at 1. rewrite set_lh_block_runs by done. cbn [klog set_klog set_held].
  set (g1 := set_l_block _ _). change (l_n (klog s)) with (l_n g1).
  unfold bind at 1. unfold log_add. fold i g1. cbv zeta. unfold when.
  destruct (Z.of_nat i =? l_n g1); unfold upd_log, modify, ret; unfold bind;
    rewrite (upd_buf_runs b bf) by done;
    rewrite (release_runs LogLock _ (held s)) by (rewrite ?Hh; set_solver); done.
Qed.

(** [log_write] logs the block once and pins its buffer. *)
Lemma log_write_spec :
  Z.of_nat (length bs) < size - 1 -> 1 <= l_outstanding (klog s) ->
  wp (log_write b) s (fun _ s' =>
    log_rep start size s' (c_pin n c) (logged n bs) /\ log_frame s s' /\
    l_outstanding (klog s') = l_outstanding (klog s) /\
    l_committing (klog s') = l_committing (klog s)).
Proof using Hl Hb Hn Hin Hsize.
  intros Hlt Hout. pose proof (lr_vars _ _ _ _ _ Hl) as Hv.
  destruct (log_vars_logged Hlt) as [Hi Hv']. pose proof (lr_cache _ _ _ _ _ Hl) as Hrep.
  destruct (rep_buffer _ _ _ _ Hrep Hb) as (bf & _ & Hbf & _).
  eapply runs_wp; [eapply log_write_runs; try done; rewrite (lv_n _ _ _ Hv); lia|].
  assert (forall g, l_size (log_add n g) = l_size g /\
    l_outstanding (log_add n g) = l_outstanding g /\
    l_committing (log_add n g) = l_committing g) as Hg.
  { intros g. unfold log_add. cbv zeta. by case_match. }
  split; [|split; [|split; apply Hg]].
  - split.
    + by apply cache_rep_klog, pin_state.
    + by apply log_geom_logged; [apply Hl|..].
    + done.
    + cbn [klog set_klog]. rewrite (proj1 (Hg _)). apply Hl.
    + rewrite list_to_set_logged. cbn. by rewrite (lr_dirty _ _ _ _ _ Hl).
    + apply Hl.
    + apply Hl.
  - etrans; [apply bio_log_frame, bio_frame_bufs|apply set_klog_frame].
Qed.
End LogWrite.

(** ** Changing a block inside a transaction *)

(** A step of the buffer cache that pins nothing and writes nothing. *)
Lemma log_rep_step start size s s' c c' bs :
  log_rep start size s c bs -> cache_rep s' c' -> bio_frame s s' ->
  c_disk c' = c_disk c -> c_size c' = c_size c -> c_dirty c' = c_dirty c ->
  log_rep start size s' c' bs.
Proof.
  intros [L1 L2 L3 L4 L5 L6 L7] Hrep F Hd Hs Hp.
  split; rewrite ?(bio_frame_klog _ _ F), ?Hd, ?Hs, ?Hp; done.
Qed.

(** Inside a transaction; [bs] are the blocks logged so far. *)
Record txn (start size : Z) (s : kstate) (c : cache) (bs : list Z) : Prop := {
  tx_log : log_rep start size s c bs;
  tx_size : size <= LOGSIZE;
  tx_out : 1 <= l_outstanding (klog s)
}.

(** What the steps of a transaction leave alone. *)
Definition txn_frame (s s' : kstate) : Prop :=
  log_frame s s' /\ l_outstanding (klog s') = l_outstanding (klog s) /\
  l_committing (klog s') = l_committing (klog s).

#[export] Instance txn_frame_preorder : PreOrder txn_frame.
Proof.
  split; [done|]. intros s1 s2 s3 (H1 & H2 & H3) (H4 & H5 & H6).
  split; [by etrans|]. split; congruence.
Qed.

Lemma bio_txn_frame s s' : bio_frame s s' -> txn_frame s s'.
Proof.
  intros H. split; [by apply bio_log_frame|]. by rewrite (bio_frame_klog _ _ H).
Qed.
#[export] Hint Resolve bio_txn_frame : kern.

(** The blocks the file system may log. *)
Definition fs_block (start size dsize n : Z) : Prop :=
  2 <= n < dsize /\ ~ in_log start size n.

Lemma c_inuse_bound start size s c bs :
  txn start size s c bs -> (c_inuse c <= base.size (c_busy c) + length bs)%nat.
Proof.
  intros [[_ Hg _ _ Hd _ _] _ _]. unfold c_inuse. rewrite Hd.
  rewrite <- (size_list_to_set (C := gset Z) bs) by apply Hg.
  rewrite <- (size_dom (D := gset Z)), size_union_alt.
  apply Nat.add_le_mono_l, subseteq_size. set_solver.
Qed.

Section TxnSteps.
Context {Dev : BlockDev}.
Context (start size : Z) (s : kstate) (c : cache) (bs : list Z).
Context (Ht : txn start size s c bs).

Lemma txn_step s' c' :
  cache_rep s' c' -> bio_frame s s' ->
  c_disk c' = c_disk c -> c_size c' = c_size c -> c_dirty c' = c_dirty c ->
  txn start size s' c' bs.
Proof using Ht.
  intros. destruct Ht. split; [by eapply log_rep_step|done|].
  by erewrite bio_frame_klog.
Qed.

Lemma txn_bread n (Q : nat -> kstate -> Prop) :
  0 <= n < c_size c -> c_busy c !! n = None -> n ∈ bs \/ (c_inuse c < NBUF)%nat ->
  (forall b s', txn start size s' (c_acquire n b c) bs -> bio_frame s s' -> Q b s') ->
  wp (bread 1 n) s Q.
Proof using Ht.
  intros Hn Hb Hu HQ. pose proof (tx_log _ _ _ _ _ Ht) as Hl.
  apply (wp_bread s c n); [apply Hl|done|done| |].
  { destruct Hu; [left|by right]. rewrite (lr_dirty _ _ _ _ _ Hl). set_solver. }
  intros b s' R F. apply HQ; [|done]. by apply txn_step.
Qed.

Lemma txn_store n b f d (Q : unit -> kstate -> Prop) :
  c_busy c !! n = Some b -> c_view c !! n = Some d -> bytes_ok 512 (f d) ->
  (forall s', txn start size s' (c_store n (f d) c) bs -> bio_frame s s' -> Q tt s') ->
  wp (upd_data b f) s Q.
Proof using Ht.
  intros Hb Hd Hok HQ. apply (wp_upd_data s c n b f d); [apply Ht|done..|].
  intros s' R F. apply HQ; [|done]. by apply txn_step.
Qed.

Lemma txn_log n b (Q : unit -> kstate -> Prop) :
  c_busy c !! n = Some b -> fs_block start size (c_size c) n ->
  Z.of_nat (length bs) < size - 1 ->
  (forall s', txn start size s' (c_pin n c) (logged n bs) -> txn_frame s s' -> Q tt s') ->
  wp (log_write b) s Q.
Proof using Ht.
  intros Hb [Hn Hin] Hr HQ. destruct Ht as [Hl Hs Ho].
  eapply wp_mono; [by apply (log_write_spec start size s c bs b n)|].
  intros [] s' (Hl' & F & Ho' & Hc'). apply HQ; [|done]. split; [done|done|lia].
Qed.

Lemma txn_brelse n b (Q : unit -> kstate -> Prop) :
  c_busy c !! n = Some b -> n ∈ bs \/ c_view c !! n = c_disk c !! n ->
  (forall s', txn start size s' (c_free n c) bs -> bio_frame s s' -> Q tt s') ->
  wp (brelse b) s Q.
Proof using Ht.
  intros Hb Hd HQ. pose proof (tx_log _ _ _ _ _ Ht) as Hl.
  apply (wp_brelse s c n b); [apply Hl|done| |].
  { destruct Hd; [left|by right]. rewrite (lr_dirty _ _ _ _ _ Hl). set_solver. }
  intros s' R F. apply HQ; [|done]. by apply txn_step.
Qed.

Lemma txn_view_ok n : 0 <= n < c_size c -> exists d, c_view c !! n = Some d /\ bytes_ok 512 d.
Proof using Ht.
  pose proof (cr_ok _ _ (lr_cache _ _ _ _ _ (tx_log _ _ _ _ _ Ht))) as Hok.
  intros Hn. destruct (co_view _ Hok n Hn) as [d Hd]. exists d. split; [done|].
  by apply (co_view_bytes _ Hok n).
Qed.
End TxnSteps.

(** The idiom of fs.c: read a block, change it, log it, release it. *)
Definition log_update `{BlockDev} (dev n : Z) (f : block -> block) : K unit :=
  let! b := bread dev n in
  do upd_data b f;
  do log_write b;
  brelse b.

Lemma c_upd_steps n b d c :
  c_busy c !! n = None ->
  c_free n (c_pin n (c_store n d (c_acquire n b c))) = c_upd n d c.
Proof. intros H. unfold c_free, c_pin, c_store, c_acquire, c_upd. cbn. by rewrite delete_insert_id. Qed.

Lemma logged_in n bs : n ∈ logged n bs.
Proof. unfold logged. case_decide; set_solver. Qed.

Lemma txn_update `{BlockDev} start size s c bs n f d :
  txn start size s c bs -> c_busy c !! n = None ->
  fs_block start size (c_size c) n -> Z.of_nat (length bs) < size - 1 ->
  n ∈ bs \/ (c_inuse c < NBUF)%nat ->
  c_view c !! n = Some d -> bytes_ok 512 (f d) ->
  wp (log_update 1 n f) s (fun _ s' =>
    txn start size s' (c_upd n (f d) c) (logged n bs) /\ txn_frame s s').
Proof.
  intros Ht Hb Hn Hr Hu Hd Hok. unfold log_update. apply wp_bind.
  apply (txn_bread _ _ _ _ _ Ht n); [unfold fs_block in Hn; lia|done|done|].
  intros b s1 T1 F1. apply wp_bind.
  eapply (txn_store _ _ _ _ _ T1 n b f d); [apply lookup_insert_eq|done|done|].
  intros s2 T2 F2. apply wp_bind.
  eapply (txn_log _ _ _ _ _ T2 n b); [apply lookup_insert_eq|done|done|].
  intros s3 T3 F3.
  eapply (txn_brelse _ _ _ _ _ T3 n b); [apply lookup_insert_eq|left; apply logged_in|].
  intros s4 T4 F4. rewrite c_upd_steps in T4 by done. split; [done|].
  etrans; [by apply bio_txn_frame|]. etrans; [by apply bio_txn_frame|].
  etrans; [done|]. by apply bio_txn_frame.
Qed.

(** ** begin_op and end_op *)
Lemma log_frame_disk_held s s' : log_frame s s' -> held s' = held s.
Proof. by intros (g & s1 & (t & k & P & _ & ->) & ->). Qed.

Lemma log_vars_same g g' start bs :
  l_dev g' = l_dev g -> l_start g' = l_start g -> l_n g' = l_n g ->
  l_block g' = l_block g -> log_vars g start bs -> log_vars g' start bs.
Proof. intros H1 H2 H3 H4 [????]. by split; rewrite ?H1, ?H2, ?H3, ?H4. Qed.

(** The log of [s'] differs from that of [s] in [outstanding] and [committing]
    only. *)
Definition same_log (g g' : logst) : Prop :=
  g' = set_l_outstanding (l_outstanding g') (set_l_committing (l_committing g') g).

Lemma log_rep_klog start size s c bs g P :
  log_rep start size s c bs -> same_log (klog s) g ->
  log_rep start size (set_ptable P (set_klog g s)) c bs.
Proof.
  intros Hl ->. destruct Hl as [H1 H2 H3 H4 H5 H6 H7].
  split; try done.
  - by destruct H1.
  - by apply (log_vars_same (klog s)).
Qed.

Section EndOp.
Context {Dev : BlockDev}.
Context (start size : Z) (s : kstate) (c : cache) (bs : list Z).
Context (Hl : log_rep start size s c bs).
Context (Hcom : l_committing (klog s) = false).

(** An operation that is not the last leaves the disk alone. *)
Lemma end_op_open :
  1 < l_outstanding (klog s) ->
  wp end_op s (fun _ s' => log_rep start size s' c bs /\
    l_outstanding (klog s') = l_outstanding (klog s) - 1 /\
    l_committing (klog s') = false /\ disk s' = disk s).
Proof using Hl Hcom.
  intros Hout. pose proof (cr_held _ _ (lr_cache _ _ _ _ _ Hl)) as Hh.
  unfold end_op. apply wp_bind, wp_acquire; [rewrite Hh; set_solver|].
  apply wp_bind, wp_modify. apply wp_bind, wp_gets. cbn [klog set_klog set_held].
  cbn [l_committing set_l_outstanding l_outstanding]. rewrite Hcom.
  replace (l_outstanding (klog s) - 1 =? 0) with false by lia. cbv zeta.
  apply wp_bind, wp_wakeup; [cbn; rewrite Hh; set_solver|].
  apply wp_bind. apply (wp_release LogLock _ (held s)); [done|rewrite Hh; set_solver|].
  apply wp_ret. split; [|done].
  apply (log_rep_klog _ _ _ _ _ (set_l_outstanding (l_outstanding (klog s) - 1) (klog s))
    (wakeup1 (Some ChLog) (ptable s))) in Hl; [by destruct s|].
  unfold same_log. cbn. by destruct (klog s); cbn in *; subst.
Qed.

(** The last one commits. *)
Lemma end_op_last :
  c_busy c = ∅ -> l_outstanding (klog s) = 1 ->
  let W := commit_writes start (c_view c) (blk (c_disk c) start) (l_block (klog s)) bs in
  wp end_op s (fun _ s' => exists c', log_rep start size s' c' [] /\
    c_busy c' = ∅ /\ c_size c' = c_size c /\ c_view c' = c_disk c' /\
    (forall n, ~ in_log start size n -> c_view c' !! n = c_view c !! n) /\
    l_outstanding (klog s') = 0 /\ l_committing (klog s') = false /\
    exists R, R `prefix_of` W /\ d_writes (disk s') = reverse R ++ d_writes (disk s)).
Proof using Hl Hcom.
  intros Hbusy Hout W. pose proof (cr_held _ _ (lr_cache _ _ _ _ _ Hl)) as Hh.
  unfold end_op. apply wp_bind, wp_acquire; [rewrite Hh; set_solver|].
  apply wp_bind, wp_modify. apply wp_bind, wp_gets. cbn [klog set_klog set_held].
  cbn [l_committing set_l_outstanding l_outstanding]. rewrite Hcom, Hout. cbv zeta.
  cbn [Z.eqb Z.sub Z.add Z.opp Z.pos_sub Pos.pred_double].
  apply wp_bind, wp_modify. apply wp_bind.
  apply (wp_release LogLock _ (held s)); [done|rewrite Hh; set_solver|].
  apply wp_bind. set (g1 := set_l_committing true (set_l_outstanding 0 (klog s))).
  assert (log_rep start size (set_ptable (ptable s) (set_klog g1 s)) c bs) as Hl1.
  { by apply log_rep_klog. }
  change (set_held (held s) _) with (set_ptable (ptable s) (set_klog g1 s)).
  eapply wp_mono; [by apply (commit_rep start size _ c bs Hl1)|].
  intros ? s1 (c' & Hl' & Hb' & Hs' & Hvd & Hv' & Hk' & F' & R & HR & Hw). cbv beta.
  pose proof (cr_held _ _ (lr_cache _ _ _ _ _ Hl')) as Hh1.
  apply wp_bind, wp_acquire; [rewrite Hh1; set_solver|].
  apply wp_bind, wp_modify. apply wp_bind, wp_wakeup; [cbn; rewrite Hh1; set_solver|].
  apply (wp_release LogLock _ (held s1)); [done|rewrite Hh1; set_solver|].
  exists c'. split.
  { apply (log_rep_klog _ _ _ _ _ (set_l_committing false (klog s1))
      (wakeup1 (Some ChLog) (ptable s1))) in Hl'; [by destruct s1|].
    unfold same_log. by destruct (klog s1). }
  do 4 (split; [done|]). cbn. rewrite Hk'. split; [done|]. split; [done|]. by exists R.
Qed.
End EndOp.

(** ** Admission *)
Lemma release_reserves l s e a s' e' :
  release l s e = Ok a s' e' -> klog s' = klog s.
Proof.
  unfold release, holding, bind, gets. case_match; [done|]. by intros [= <- <- <-].
Qed.

Lemma begin_op_loop_reserves fuel s e :
  (length e <= fuel)%nat ->
  match begin_op_loop fuel s e with
  | Ok _ s' _ => reserved (klog s')
  | Hang _ => False
  | _ => True
  end.
Proof.
  revert s e. induction fuel as [|fuel IH]; intros s e Hf;
    cbn [begin_op_loop]; unfold bind at 1, gets at 1;
    destruct (l_committing (klog s) || _) eqn:Hc.
  1, 3: unfold bind at 1; pose proof (sleep_progress ChLog LogLock s e) as Hp;
    destruct (sleep ChLog LogLock s e) as [[] s1 e1|?|?|?|?]; try done;
    first [cbn; lia|apply IH; lia].
  all: apply orb_false_iff in Hc as [Hc1 Hc2]; unfold bind, upd_log, modify;
    destruct (release LogLock _ e) as [[] s1 e1|?|?|?|?] eqn:Hr; try done;
    [|unfold release, holding, bind, gets in Hr; by case_match];
    apply release_reserves in Hr; rewrite Hr; split; [done|cbn; lia].
Qed.

Lemma begin_op_now s :
  LogLock ∉ held s -> l_committing (klog s) = false ->
  l_n (klog s) + (l_outstanding (klog s) + 1) * MAXOPBLOCKS <= LOGSIZE ->
  runs begin_op s tt
    (set_klog (set_l_outstanding (l_outstanding (klog s) + 1) (klog s)) s).
Proof.
  intros Hh Hc Hn e. unfold begin_op. unfold bind at 1. rewrite acquire_runs by done.
  unfold bind at 1, pending. destruct (length e) as [|f]; cbn [begin_op_loop];
    unfold bind at 1, gets; cbn [klog set_held]; rewrite Hc;
    rewrite (proj2 (Z.ltb_ge _ _)) by done; cbn [orb];
    unfold bind, upd_log, modify;
    rewrite (release_runs LogLock _ (held s)) by done; by destruct s.
Qed.

(** ** The theorems *)
Section Atomicity.
Context {Dev : BlockDev}.

(** C1: Let the last operation of a group call [end_op], [c] being the cache
    then.  [end_op] returns with all changed blocks on disk; and if the machine
    stops after any of the block writes [end_op] makes, and any number of times
    more while it recovers, then the file system comes up with either all
    blocks as before the group or all blocks as after it. *)
Theorem end_op_atomic start size s c bs :
  log_rep start size s c bs -> c_busy c = ∅ -> sb_log start size (c_disk c) ->
  l_committing (klog s) = false -> l_outstanding (klog s) = 1 ->
  wp end_op s (fun _ s' =>
    disk_is start size (c_size c) s' (c_view c) /\
    forall D D' sb, crash_disk s s' D -> reboots (c_size c) D D' ->
      boot_state sb D' (c_size c) ->
      wp boot_fs sb (fun _ s2 =>
        disk_is start size (c_size c) s2 (c_disk c) \/
        disk_is start size (c_size c) s2 (c_view c))).
Proof.
  intros Hl Hb Hsb Hcom Hout.
  eapply wp_mono; [by apply (end_op_last start size s c bs)|].
  intros ? s' (c' & Hl' & Hb' & Hs' & Hvd & Hv' & _ & _ & W & HW & Hw). split.
  - intros n Hr Hn. rewrite (cr_disk _ _ (lr_cache _ _ _ _ _ Hl')). cbn.
    rewrite <- Hvd. by apply Hv'.
  - intros D D' sb Hcr Hre Hbt.
    destruct (crash_disk_writes _ _ _ _ Hw Hcr) as (R & HR & ->).
    rewrite (cr_disk _ _ (lr_cache _ _ _ _ _ Hl)) in Hre. cbn in Hre.
    destruct (commit_crash_good start size s c bs Hl Hb R Hsb) as [HG|HG]; [by etrans| |];
      (eapply wp_mono; [by eapply good_boots; [|eapply reboots_good]|]); cbv beta; eauto.
Qed.

(** [m] never panics with message [msg]. *)
Definition spares {A} (msg : string) (m : K A) : Prop := forall s e s', m s e <> Panic msg s'.

Lemma spares_bind {A B} msg (m : K A) (k : A -> K B) : spares msg m -> (forall a, spares msg (k a)) -> spares msg (bind m k).
Proof. intros Hm Hk s e s'. unfold bind. specialize (Hm s e). destruct (m s e); try done; [apply Hk|]. intros [= -> ->]. by apply (Hm s'). Qed.

Lemma spares_gets {A} msg (f : kstate -> A) : spares msg (gets f).
Proof. done. Qed.

Lemma spares_modify msg f : spares msg (modify f : K unit).
Proof. done. Qed.

Lemma spares_deref {A} msg what (x : option A) : spares msg (deref what x).
Proof. by destruct x. Qed.

Create HintDb spares.
#[local] Hint Resolve spares_gets spares_modify spares_deref : spares.
Ltac spare := repeat (apply spares_bind; [|intros ?]); eauto with spares; try (by repeat case_match).

Lemma refused_full g : refused g -> LOGSIZE <= l_n g \/ l_size g - 1 <= l_n g.
Proof.
  intros (b & s & e & <- & H). revert H. unfold log_write, bind at 1, gets.
  destruct (_ || _) eqn:E; [intros _; lia|]. destruct (_ <? 1); [done|]. intros H. exfalso. revert H.
  match goal with |- ?m _ _ = Panic ?msg _ -> False => assert (spares msg m) as Hs; [|exact (Hs _ _ _)] end.
  unfold acquire, release, holding, buf_at, upd_buf, set_lh_block, lh_block, upd_log, when. spare.
Qed.

(** C23: [begin_op] waits only asleep, never by spinning; when it returns,
    whatever the other processes did while it slept, no commit is running and
    the blocks in the log, with [MAXOPBLOCKS] more for each operation under
    way, its own included, are at most [LOGSIZE].  In a log of the size mkfs
    makes, [log_write] then has room for all of these blocks but the last. *)
Theorem begin_op_reserves s e :
  match begin_op s e with
  | Ok _ s' _ => reserved (klog s') /\ (l_size (klog s') = LOGSIZE ->
      forall k, k < l_outstanding (klog s') * MAXOPBLOCKS - 1 -> ~ refused (set_l_n (l_n (klog s') + k) (klog s')))
  | Hang _ => False
  | _ => True
  end.
Proof.
  unfold begin_op. unfold bind at 1. pose proof (acquire_progress LogLock s e) as Ha.
  destruct (acquire LogLock s e) as [[] s1 e1|?|?|?|?]; try done. unfold bind at 1, pending.
  pose proof (begin_op_loop_reserves (length e1) s1 e1 (Nat.le_refl _)) as H.
  destruct (begin_op_loop _ s1 e1) as [[] s2 e2|?|?|?|?]; try done. split; [done|].
  intros Hs k Hk [Hf|Hf]%refused_full; destruct H as [_ H]; cbn in Hf; lia.
Qed.

(** C24: the buffer cache is transparent: a block read, changed, written and
    released is on disk with its new contents, the only disk write made, and a
    later read of any block returns the changed block's new contents and every
    other block's old ones. *)
Theorem bio_write_read s c n n' f d :
  cache_rep s c -> 0 <= n < c_size c -> 0 <= n' < c_size c ->
  c_busy c !! n = None -> c_busy c !! n' = None -> (c_inuse c < NBUF)%nat ->
  c_view c !! n = Some d -> bytes_ok 512 (f d) ->
  wp (let! b := bread 1 n in
      do upd_data b f;
      do bwrite b;
      do brelse b;
      let! b' := bread 1 n' in
      buf_data b') s (fun x s' =>
    <[n := f d]> (c_view c) !! n' = Some x /\
    d_blocks (disk s') = <[n := f d]> (c_disk c) /\
    d_writes (disk s') = (n, f d) :: c_writes c).
Proof.
  intros Hc Hn Hn' Hb Hb' Hu Hd Hok.
  apply wp_bind. apply (wp_bread s c n); [done..|by right|]. intros b s1 H1 _.
  apply wp_bind. apply (wp_upd_data s1 _ n b f d _ H1); [apply lookup_insert_eq|done..|].
  intros s2 H2 _. apply wp_bind.
  apply (wp_bwrite s2 _ n b (f d) _ H2); [apply lookup_insert_eq|apply lookup_insert_eq|].
  intros s3 H3 _. apply wp_bind. apply (wp_brelse s3 _ n b _ H3); [apply lookup_insert_eq| |].
  { right. cbn. by rewrite !lookup_insert_eq. }
  intros s4 H4 _. set (c4 := c_free n _) in H4.
  assert (c_busy c4 = c_busy c) as Hbusy by (cbn; by apply delete_insert_id).
  assert (c_inuse c4 <= c_inuse c)%nat as Huse.
  { unfold c_inuse. rewrite Hbusy. cbn. apply subseteq_size. set_solver. }
  destruct (co_view _ (cr_ok _ _ H4) n' Hn') as [x Hx].
  apply wp_bind. apply (wp_bread s4 c4 n' _ H4 Hn'); [by rewrite Hbusy|right; lia|].
  intros b' s5 H5 _. apply (wp_buf_data s5 _ n' b' x _ H5); [apply lookup_insert_eq|done|].
  rewrite (cr_disk _ _ H5). done.
Qed.
End Atomicity.

(** ** A small machine

    A disk of eight blocks with the log in blocks 2 to 5, on which the theorems
    are applied. *)
Definition demo_block : block := replicate 512 0.
Definition demo_disk : gmap Z block :=
  list_to_map [(0, demo_block); (1, put32 (put32 demo_block 12 4) 16 2);
    (2, demo_block); (3, demo_block); (4, demo_block); (5, demo_block);
    (6, demo_block); (7, demo_block)].
Definition demo_state : kstate := reset_state demo_disk 8 [] 0.

Lemma demo_block_ok : bytes_ok 512 demo_block.
Proof. split; [done|]. by apply Forall_replicate. Qed.

Lemma demo_log_disk : log_disk 2 4 8 demo_disk.
Proof.
  split.
  - intros n Hn. assert (n = 0 \/ n = 1 \/ n = 2 \/ n = 3 \/ n = 4 \/ n = 5 \/ n = 6 \/ n = 7)
      as H by lia. destruct_or! H; subst; by eexists.
  - intros n d H%elem_of_list_to_map_2. pose proof demo_block_ok.
    repeat (apply elem_of_cons in H as [[= -> ->]|H]; [by eauto with kern|]).
    by apply elem_of_nil in H.
  - by vm_compute.
  - replace (header_blocks (blk demo_disk 2)) with (@nil Z) by (by vm_compute).
    split; try done; cbn; try lia; try (change NBUF with 30%nat; lia).
    + constructor.
    + set_solver.
Qed.

Lemma demo_recovers : recovers_to 2 4 8 demo_disk demo_disk.
Proof. apply recovers_empty; [apply demo_log_disk|by vm_compute|done]. Qed.

Lemma demo_sb_log : sb_log 2 4 demo_disk.
Proof. by vm_compute. Qed.

(** After the boot, one operation has begun. *)
Lemma demo_begun : exists s c, txn 2 4 s c [] /\ c_busy c = ∅ /\ c_size c = 8 /\
  sb_log 2 4 (c_disk c) /\ l_committing (klog s) = false /\
  l_outstanding (klog s) = 1 /\ held s = [].
Proof.
  destruct (boot_fs_spec demo_state 2 4 8 demo_disk demo_disk)
    as (a & s & _ & c & Hl & Hb & Hs & Hvd & Hd & _ & Ho & Hc);
    [apply reset_boot|apply demo_sb_log|apply demo_recovers|].
  pose proof (cr_disk _ _ (lr_cache _ _ _ _ _ Hl)) as Hdk.
  exists (set_klog (set_l_outstanding (l_outstanding (klog s) + 1) (klog s)) s), c.
  split; [split|].
  - apply (log_rep_klog _ _ _ _ _ (set_l_outstanding (l_outstanding (klog s) + 1) (klog s))
      (ptable s)) in Hl; [by destruct s|]. unfold same_log. by destruct (klog s).
  - done.
  - cbn. lia.
  - split; [done|]. split; [done|]. split.
    + specialize (Hd 1). rewrite Hdk in Hd. cbn in Hd. unfold sb_log, blk.
      rewrite Hd; [apply demo_sb_log|lia|unfold in_log; lia].
    + cbn. rewrite Ho. split; [done|]. split; [done|]. apply (lr_cache _ _ _ _ _ Hl).
Qed.

(** It changes block 6. *)
Lemma demo_txn : exists s c, txn 2 4 s c [6] /\ c_busy c = ∅ /\ c_size c = 8 /\
  sb_log 2 4 (c_disk c) /\ l_committing (klog s) = false /\
  l_outstanding (klog s) = 1 /\ c_view c !! 6 = Some (replicate 512 1).
Proof.
  destruct demo_begun as (s & c & Ht & Hb & Hs & Hsb & Hc & Ho & _).
  destruct (txn_view_ok _ _ _ _ _ Ht 6) as (d & Hd & _); [lia|].
  destruct (txn_update 2 4 s c [] 6 (fun _ => replicate 512 1) d Ht)
    as ([] & s' & _ & Ht' & F); try done.
  - by rewrite Hb.
  - unfold fs_block, in_log. lia.
  - right. rewrite c_inuse_clean by done.
    rewrite (lr_dirty _ _ _ _ _ (tx_log _ _ _ _ _ Ht)). cbn. rewrite size_empty.
    change NBUF with 30%nat. lia.
  - split; [done|]. by apply Forall_replicate.
  - exists s', (c_upd 6 (replicate 512 1) c). split; [done|]. do 3 (split; [done|]).
    destruct F as (_ & -> & ->). do 2 (split; [done|]). apply lookup_insert_eq.
Qed.

Lemma end_op_atomic_witness : exists s c,
  txn 2 4 s c [6] /\ c_view c !! 6 = Some (replicate 512 1) /\
  wp end_op s (fun _ s' => disk_is 2 4 (c_size c) s' (c_view c)).
Proof.
  destruct demo_txn as (s & c & Ht & Hb & Hs & Hsb & Hc & Ho & Hv).
  exists s, c. split; [done|]. split; [done|].
  eapply wp_mono; [apply (end_op_atomic 2 4 s c [6]); try done; apply Ht|].
  by intros ? s' [? _].
Defined.

Lemma bio_write_read_witness : exists s,
  wp (let! b := bread 1 6 in
      do upd_data b (fun _ => replicate 512 1);
      do bwrite b;
      do brelse b;
      let! b' := bread 1 6 in
      buf_data b') s (fun x s' => x = replicate 512 1).
Proof.
  destruct demo_begun as (s & c & Ht & Hb & Hs & _).
  pose proof (lr_cache _ _ _ _ _ (tx_log _ _ _ _ _ Ht)) as Hc.
  destruct (co_view _ (cr_ok _ _ Hc) 6) as [d Hd]; [lia|]. exists s.
  eapply wp_mono; [apply (bio_write_read s c 6 6 (fun _ => replicate 512 1) d Hc)|].
  - lia.
  - lia.
  - by rewrite Hb.
  - by rewrite Hb.
  - rewrite c_inuse_clean by done.
    rewrite (lr_dirty _ _ _ _ _ (tx_log _ _ _ _ _ Ht)). cbn. rewrite size_empty.
    change NBUF with 30%nat. lia.
  - done.
  - split; [done|]. by apply Forall_replicate.
  - intros x s' [H _]. rewrite lookup_insert_eq in H. by injection H.
Defined.

(** Buffer [i] holds block [i]. *)
Definition numbered_bufs : list buf :=
  (fun i => mkBuf false true false 1 (Z.of_nat i) 0 0 []) <$> seq 0 (S NBUF).

(** Three operations are admitted together in a log of the size mkfs makes,
    and log ten blocks each; the last block is refused. *)
Theorem log_last_block_refused :
  let s := set_bufs numbered_bufs (set_klog (mkLog 2 LOGSIZE 0 false 1 0 (replicate 30 0)) (reset_state ∅ 0 [] 0)) in
  exists s', (do begin_op; do begin_op; do begin_op; mfor 30 0 log_write) s [] = Panic "too big a transaction" s' /\
    l_n (klog s') = 29 /\ l_outstanding (klog s') = 3.
Proof. eexists. split; [by vm_compute|]. by vm_compute. Qed.
