(* ===== verification/Fs.v ===== *)
(** * The file system: fs.c

    Blocks (the free bitmap), inodes (the cache, [bmap], reading and writing),
    directories and path names, as the code performs them over the buffer
    cache and the log.  A C buffer that a routine fills is the list of bytes it
    returns; a [char*] path is the list of bytes before its NUL. *)

From S2P Require Import Prelude Bytes Cstring Kstate Sync Disk Bio Log.
Import Str.
Local Open Scope Z_scope.

(** ** fs.h *)
Definition BPB : Z := BSIZE * 8.
Definition IPB : Z := BSIZE / 64.
Definition IBLOCK (i : Z) (sb : superblock) : Z := i / IPB + sb_inodestart sb.
Definition BBLOCK (b : Z) (sb : superblock) : Z := b / BPB + sb_bmapstart sb.

(** struct dinode at byte [off] of a block. *)
Definition dinode_off (inum : Z) : nat := Z.to_nat (inum mod IPB * 64).
Definition dip_type (d : block) (off : nat) : Z := i16 (get16 d off).
Definition dip_major (d : block) (off : nat) : Z := i16 (get16 d (off + 2)).
Definition dip_minor (d : block) (off : nat) : Z := i16 (get16 d (off + 4)).
Definition dip_nlink (d : block) (off : nat) : Z := i16 (get16 d (off + 6)).
Definition dip_size (d : block) (off : nat) : Z := get32 d (off + 8).
Definition dip_addrs (d : block) (off : nat) : list Z :=
  (fun k => get32 d (off + 12 + 4 * k)) <$> seq 0 13.

Definition put_addrs (d : block) (off : nat) (addrs : list Z) : block :=
  splice d (off + 12) (concat (le_bytes 4 <$> addrs)).

(** The five stores and the copy of [iupdate]. *)
Definition put_dinode (d : block) (off : nat) (ip : inode) : block :=
  let d := put16 d off (i_type ip) in
  let d := put16 d (off + 2) (i_major ip) in
  let d := put16 d (off + 4) (i_minor ip) in
  let d := put16 d (off + 6) (i_nlink ip) in
  let d := put32 d (off + 8) (i_size ip) in
  put_addrs d off (i_addrs ip).

(** [memset(dip, 0, sizeof( *dip)); dip->type = type] *)
Definition init_dinode (d : block) (off : nat) (type : Z) : block :=
  put16 (splice d off (replicate 64 0)) off type.

(** ** The bitmap *)
Definition bit_mask (bi : nat) : Z := Z.shiftl 1 (Z.of_nat (bi mod 8)).
Definition bit_clear (d : block) (bi : nat) : bool :=
  Z.land (byte_at d (bi / 8)) (bit_mask bi) =? 0.
Definition mark_bit (d : block) (bi : nat) : block :=
  <[(bi / 8)%nat := u8 (Z.lor (byte_at d (bi / 8)) (bit_mask bi))]> d.
Definition unmark_bit (d : block) (bi : nat) : block :=
  <[(bi / 8)%nat := u8 (Z.land (byte_at d (bi / 8)) (Z.lnot (bit_mask bi)))]> d.

(** The inner loop of [balloc]: the first clear bit of the [n] from [bi]. *)
Fixpoint balloc_scan (d : block) (n bi : nat) : option nat :=
  match n with
  | O => None
  | S n' => if bit_clear d bi then Some bi else balloc_scan d n' (S bi)
  end.

(** ** Table access *)
Definition inode_at (i : nat) : K inode :=
  let! t := gets icache in deref "icache.inode" (t !! i).

Definition upd_inode (i : nat) (f : inode -> inode) : K unit :=
  let! ip := inode_at i in
  modify (fun s => set_icache (<[i := f ip]> (icache s)) s).

(** devsw[]: what the device drivers register. *)
Class DevSw := {
  devsw_read : Z -> option (nat -> Z -> K (Z * list Z));
  devsw_write : Z -> option (nat -> list Z -> Z -> K Z)
}.

Section Fs.
Context {Dev : BlockDev} {Sw : DevSw}.

Definition load_sb (dev : Z) : K unit :=
  let! v := readsb dev in
  modify (set_sb v).

Definition bzero (dev bno : Z) : K unit :=
  let! bp := bread dev bno in
  do upd_data bp (fun d => memset d 0 0 512);
  do log_write bp;
  brelse bp.

Fixpoint balloc_loop (fuel : nat) (dev b : Z) : K Z :=
  let! sb := gets sb in
  if negb (b <? sb_size sb) then panic "balloc: out of blocks" else
  let! bp := bread dev (BBLOCK b sb) in
  let! d := buf_data bp in
  match balloc_scan d (Z.to_nat (Z.min BPB (sb_size sb - b))) 0 with
  | Some bi =>
      do upd_data bp (fun d => mark_bit d bi);
      do log_write bp;
      do brelse bp;
      do bzero dev (b + Z.of_nat bi);
      ret (b + Z.of_nat bi)
  | None =>
      do brelse bp;
      match fuel with O => hang | S f => balloc_loop f dev (b + BPB) end
  end.

(** The outer loop visits each bitmap block once. *)
Definition balloc (dev : Z) : K Z :=
  let! sb := gets sb in
  balloc_loop (Z.to_nat (sb_size sb / BPB + 1)) dev 0.

Definition bfree (dev b : Z) : K unit :=
  do load_sb dev;
  let! sb := gets sb in
  let! bp := bread dev (BBLOCK b sb) in
  let bi := Z.to_nat (b mod BPB) in
  let! d := buf_data bp in
  if bit_clear d bi then panic "freeing free block" else
  do upd_data bp (fun d => unmark_bit d bi);
  do log_write bp;
  brelse bp.

(** ** Inodes *)
Definition iinit (dev : Z) : K unit := load_sb dev.

(** The scan of [iget]: the entry for [(dev, inum)] in use, else the first
    entry with no references. *)
Fixpoint iget_scan (t : list inode) (i : nat) (empty : option nat) (dev inum : Z)
  : option nat * option nat :=
  match t with
  | [] => (None, empty)
  | ip :: t' =>
      if (0 <? i_ref ip) && (i_dev ip =? dev) && (i_inum ip =? inum)
      then (Some i, empty)
      else
        let empty := if bool_decide (empty = None) && (i_ref ip =? 0)
                     then Some i else empty in
        iget_scan t' (S i) empty dev inum
  end.

Definition iget (dev inum : Z) : K nat :=
  do acquire IcacheLock;
  let! t := gets icache in
  match iget_scan t 0 None dev inum with
  | (Some i, _) =>
      do upd_inode i (fun ip => set_i_ref (i_ref ip + 1) ip);
      do release IcacheLock;
      ret i
  | (None, None) => panic "iget: no inodes"
  | (None, Some i) =>
      do upd_inode i (fun ip =>
           mkInode dev inum 1 false false (i_type ip) (i_major ip) (i_minor ip)
             (i_nlink ip) (i_size ip) (i_addrs ip));
      do release IcacheLock;
      ret i
  end.

Fixpoint ialloc_loop (fuel : nat) (dev type inum : Z) : K nat :=
  let! sb := gets sb in
  if negb (inum <? sb_ninodes sb) then panic "ialloc: no inodes" else
  let! bp := bread dev (IBLOCK inum sb) in
  let! d := buf_data bp in
  if dip_type d (dinode_off inum) =? 0 then
    do upd_data bp (fun d => init_dinode d (dinode_off inum) type);
    do log_write bp;
    do brelse bp;
    iget dev inum
  else
    do brelse bp;
    match fuel with O => hang | S f => ialloc_loop f dev type (inum + 1) end.

Definition ialloc (dev type : Z) : K nat :=
  let! sb := gets sb in
  ialloc_loop (Z.to_nat (sb_ninodes sb)) dev type 1.

Definition iupdate (i : nat) : K unit :=
  let! ip := inode_at i in
  let! sb := gets sb in
  let! bp := bread (i_dev ip) (IBLOCK (i_inum ip) sb) in
  do upd_data bp (fun d => put_dinode d (dinode_off (i_inum ip)) ip);
  do log_write bp;
  brelse bp.

Definition idup (i : nat) : K nat :=
  do acquire IcacheLock;
  do upd_inode i (fun ip => set_i_ref (i_ref ip + 1) ip);
  do release IcacheLock;
  ret i.

(** [while(ip->flags & I_BUSY) sleep(ip, &icache.lock);] *)
Fixpoint ilock_wait (fuel i : nat) : K unit :=
  let! ip := inode_at i in
  if i_busy ip then
    do sleep (ChInode i) IcacheLock;
    match fuel with O => hang | S f => ilock_wait f i end
  else ret tt.

Definition load_dinode (d : block) (off : nat) (ip : inode) : inode :=
  mkInode (i_dev ip) (i_inum ip) (i_ref ip) (i_busy ip) (i_valid ip)
    (dip_type d off) (dip_major d off) (dip_minor d off) (dip_nlink d off)
    (dip_size d off) (dip_addrs d off).

Definition ilock (i : nat) : K unit :=
  let! ip := inode_at i in
  if i_ref ip <? 1 then panic "ilock" else
  do acquire IcacheLock;
  let! n := pending in
  do ilock_wait n i;
  do upd_inode i (set_i_busy true);
  do release IcacheLock;
  let! ip := inode_at i in
  when (negb (i_valid ip))
    (let! sb := gets sb in
     let! bp := bread (i_dev ip) (IBLOCK (i_inum ip) sb) in
     let! d := buf_data bp in
     do upd_inode i (load_dinode d (dinode_off (i_inum ip)));
     do brelse bp;
     do upd_inode i (set_i_valid true);
     let! ip := inode_at i in
     when (i_type ip =? 0) (panic "ilock: no type")).

Definition iunlock (i : nat) : K unit :=
  let! ip := inode_at i in
  if negb (i_busy ip) || (i_ref ip <? 1) then panic "iunlock" else
  do acquire IcacheLock;
  do upd_inode i (set_i_busy false);
  do wakeup (ChInode i);
  release IcacheLock.

(** ** Inode content *)
Definition addr_at (ip : inode) (k : nat) : Z := default 0 (i_addrs ip !! k).

Definition set_addr (i k : nat) (v : Z) : K unit :=
  upd_inode i (fun ip => set_i_addrs (<[k := v]> (i_addrs ip)) ip).

(** [if((addr = ip->addrs[k]) == 0) ip->addrs[k] = addr = balloc(ip->dev);] *)
Definition addr_or_alloc (i k : nat) : K Z :=
  let! ip := inode_at i in
  if addr_at ip k =? 0 then
    let! addr := balloc (i_dev ip) in
    do set_addr i k addr;
    ret addr
  else ret (addr_at ip k).

Definition bmap (i : nat) (bn : Z) : K Z :=
  if bn <? NDIRECT then addr_or_alloc i (Z.to_nat bn) else
  let bn := bn - NDIRECT in
  if bn <? NINDIRECT then
    let! addr := addr_or_alloc i (Z.to_nat NDIRECT) in
    let! ip := inode_at i in
    let! bp := bread (i_dev ip) addr in
    let! d := buf_data bp in
    let a := get32 d (4 * Z.to_nat bn) in
    let! addr :=
      (if a =? 0 then
         let! addr := balloc (i_dev ip) in
         do upd_data bp (fun d => put32 d (4 * Z.to_nat bn) addr);
         do log_write bp;
         ret addr
       else ret a) in
    do brelse bp;
    ret addr
  else panic "bmap: out of range".

Definition itrunc_direct (i k : nat) : K unit :=
  let! ip := inode_at i in
  when (negb (addr_at ip k =? 0))
    (do bfree (i_dev ip) (addr_at ip k);
     set_addr i k 0).

Definition itrunc (i : nat) : K unit :=
  do mfor (Z.to_nat NDIRECT) 0 (itrunc_direct i);
  let! ip := inode_at i in
  let ind := addr_at ip (Z.to_nat NDIRECT) in
  do when (negb (ind =? 0))
    (let! bp := bread (i_dev ip) ind in
     do mfor (Z.to_nat NINDIRECT) 0 (fun j =>
          let! d := buf_data bp in
          let a := get32 d (4 * j) in
          when (negb (a =? 0)) (bfree (i_dev ip) a));
     do brelse bp;
     do bfree (i_dev ip) ind;
     set_addr i (Z.to_nat NDIRECT) 0);
  do upd_inode i (set_i_size 0);
  iupdate i.

Definition iput (i : nat) : K unit :=
  do acquire IcacheLock;
  let! ip := inode_at i in
  do when ((i_ref ip =? 1) && i_valid ip && (i_nlink ip =? 0))
    (if i_busy ip then panic "iput busy" else
     do upd_inode i (set_i_busy true);
     do release IcacheLock;
     do itrunc i;
     do upd_inode i (set_i_type 0);
     do iupdate i;
     do acquire IcacheLock;
     do upd_inode i (fun ip => set_i_valid false (set_i_busy false ip));
     wakeup (ChInode i));
  do upd_inode i (fun ip => set_i_ref (i_ref ip - 1) ip);
  release IcacheLock.

Definition iunlockput (i : nat) : K unit :=
  do iunlock i;
  iput i.

(** struct stat *)
Record stat := mkStat {
  st_type : Z; st_dev : Z; st_ino : Z; st_nlink : Z; st_size : Z
}.

Definition stati (i : nat) : K stat :=
  let! ip := inode_at i in
  ret (mkStat (i_type ip) (i_dev ip) (i_inum ip) (i_nlink ip) (i_size ip)).

(** The copying loop of [readi]; each pass moves at least one byte. *)
Fixpoint readi_loop (fuel i : nat) (off n tot : Z) : K (list Z) :=
  if negb (tot <? n) then ret [] else
  let! a := bmap i (off / BSIZE) in
  let! ip := inode_at i in
  let! bp := bread (i_dev ip) a in
  let m := Z.min (n - tot) (BSIZE - off mod BSIZE) in
  let! d := buf_data bp in
  let bytes := slice d (Z.to_nat (off mod BSIZE)) (Z.to_nat m) in
  do brelse bp;
  match fuel with
  | O => hang
  | S f =>
      let! rest := readi_loop f i (u32 (off + m)) n (tot + m) in
      ret (bytes ++ rest)
  end.

Definition readi (i : nat) (off n : Z) : K (Z * list Z) :=
  let! ip := inode_at i in
  if i_type ip =? T_DEV then
    if (i_major ip <? 0) || (NDEV <=? i_major ip) then ret (-1, []) else
    match devsw_read (i_major ip) with
    | None => ret (-1, [])
    | Some read => read i (i32 n)
    end
  else
  if (i_size ip <? off) || (u32 (off + n) <? off) then ret (-1, []) else
  let n := if i_size ip <? u32 (off + n) then i_size ip - off else n in
  let! bytes := readi_loop (Z.to_nat n) i off n 0 in
  ret (i32 n, bytes).

Fixpoint writei_loop (fuel i : nat) (src : list Z) (off n tot : Z) : K Z :=
  if negb (tot <? n) then ret off else
  let! a := bmap i (off / BSIZE) in
  let! ip := inode_at i in
  let! bp := bread (i_dev ip) a in
  let m := Z.min (n - tot) (BSIZE - off mod BSIZE) in
  do upd_data bp (fun d =>
       splice d (Z.to_nat (off mod BSIZE)) (take (Z.to_nat m) src));
  do log_write bp;
  do brelse bp;
  match fuel with
  | O => hang
  | S f => writei_loop f i (drop (Z.to_nat m) src) (u32 (off + m)) n (tot + m)
  end.

Definition writei (i : nat) (src : list Z) (off n : Z) : K Z :=
  let! ip := inode_at i in
  if i_type ip =? T_DEV then
    if (i_major ip <? 0) || (NDEV <=? i_major ip) then ret (-1) else
    match devsw_write (i_major ip) with
    | None => ret (-1)
    | Some write => write i src (i32 n)
    end
  else
  if (i_size ip <? off) || (u32 (off + n) <? off) then ret (-1) else
  if MAXFILE * BSIZE <? u32 (off + n) then ret (-1) else
  let! off := writei_loop (Z.to_nat n) i src off n 0 in
  let! ip := inode_at i in
  do when ((0 <? n) && (i_size ip <? off))
    (do upd_inode i (set_i_size off);
     iupdate i);
  ret (i32 n).
End Fs.
