(* ===== verification/Dinode.v ===== *)
(** * Inodes on disk

    The 64-byte form of an inode that [iupdate] writes and [ilock] reads. *)

From S2P Require Import Prelude Bytes Cstring Kstate Sync Disk Bio Cache Log Commit Crash Txn Fs.
Import Str.
Local Open Scope Z_scope.

(** The ranges of the fields of struct inode that are stored. *)
Record inode_ranges (ip : inode) : Prop := {
  ir_type : - 2 ^ 15 <= i_type ip < 2 ^ 15;
  ir_major : - 2 ^ 15 <= i_major ip < 2 ^ 15;
  ir_minor : - 2 ^ 15 <= i_minor ip < 2 ^ 15;
  ir_nlink : - 2 ^ 15 <= i_nlink ip < 2 ^ 15;
  ir_size : 0 <= i_size ip < 2 ^ 32;
  ir_len : length (i_addrs ip) = 13%nat;
  ir_addrs : Forall (fun a => 0 <= a < 2 ^ 32) (i_addrs ip)
}.

(** The stored fields of [ip], with the bookkeeping fields of [ip0]. *)
Definition stored_fields (ip ip0 : inode) : inode :=
  mkInode (i_dev ip0) (i_inum ip0) (i_ref ip0) (i_busy ip0) (i_valid ip0)
    (i_type ip) (i_major ip) (i_minor ip) (i_nlink ip) (i_size ip) (i_addrs ip).

Lemma slice_splice_inside d o src x n :
  (o + length src <= length d)%nat -> (x + n <= length src)%nat ->
  slice (splice d o src) (o + x) n = slice src x n.
Proof.
  intros Hd Hx. apply list_eq. intros i. destruct (decide (i < n)%nat).
  - rewrite !slice_lookup by done. rewrite splice_lookup by done.
    rewrite decide_True by lia. f_equal. lia.
  - rewrite !lookup_ge_None_2; [done|rewrite slice_length; lia|].
    rewrite slice_length; [lia|]. rewrite splice_length. lia.
Qed.

Lemma addrs_length addrs : length (concat (le_bytes 4 <$> addrs)) = (4 * length addrs)%nat.
Proof.
  induction addrs as [|a addrs IH]; [done|]. rewrite fmap_cons. cbn [concat length].
  rewrite length_app, le_bytes_length, IH. lia.
Qed.

Lemma slice_addrs addrs k a :
  addrs !! k = Some a -> slice (concat (le_bytes 4 <$> addrs)) (4 * k) 4 = le_bytes 4 a.
Proof.
  revert k. induction addrs as [|b addrs IH]; intros k; [done|].
  destruct k as [|k]; cbn [lookup list_lookup].
  - by intros [= ->].
  - intros Hk. rewrite fmap_cons. cbn [concat].
    replace (4 * S k)%nat with (4 + 4 * k)%nat by lia. unfold slice.
    rewrite <- drop_drop, (drop_app_length' _ _ 4) by done. by apply IH.
Qed.

Lemma get32_u32 d o v : 0 <= v < 2 ^ 32 -> slice d o 4 = le_bytes 4 v -> get32 d o = v.
Proof. intros Hv H. unfold get32. rewrite H, le_value_bytes. by apply Z.mod_small. Qed.

Lemma get16_i16 d o v :
  - 2 ^ 15 <= v < 2 ^ 15 -> slice d o 2 = le_bytes 2 v -> i16 (get16 d o) = v.
Proof.
  intros Hv H. unfold get16. rewrite H, le_value_bytes.
  change (256 ^ Z.of_nat 2) with (2 ^ 16). unfold i16. rewrite Z.mod_mod by done.
  by apply i16_of_signed.
Qed.

(** Reading a field back: skip the stores behind it. *)
Ltac dinode_field :=
  unfold put_dinode, put_addrs, put32, put16;
  repeat (rewrite slice_splice_other by
    (rewrite ?addrs_length, ?le_bytes_length; lia)).

Lemma dinode_short o v t :
  (o + 2 <= length t)%nat -> slice (put16 t o v) o 2 = le_bytes 2 v.
Proof.
  intros H. unfold put16. rewrite <- (le_bytes_length 2 v) at 2.
  apply slice_splice_same. rewrite le_bytes_length. lia.
Qed.

Section Codec.
Context (d : block) (off : nat) (ip : inode).
Context (Hd : (off + 64 <= length d)%nat) (Hr : inode_ranges ip).

Lemma load_put_dinode ip0 : load_dinode (put_dinode d off ip) off ip0 = stored_fields ip ip0.
Proof using All.
  destruct Hr as [H1 H2 H3 H4 H5 H6 H7]. unfold load_dinode, stored_fields.
  pose proof (addrs_length (i_addrs ip)) as Hal. rewrite H6 in Hal.
  f_equal.
  - apply get16_i16; [done|]. dinode_field. apply dinode_short. lia.
  - apply get16_i16; [done|]. dinode_field. apply dinode_short. len.
  - apply get16_i16; [done|]. dinode_field. apply dinode_short. len.
  - apply get16_i16; [done|]. dinode_field. apply dinode_short. len.
  - apply get32_u32; [done|]. dinode_field.
    rewrite <- (le_bytes_length 4 (i_size ip)) at 2.
    apply slice_splice_same. len.
  - apply list_eq. intros j. unfold dip_addrs. rewrite list_lookup_fmap.
    destruct (decide (j < 13)%nat) as [Hj|Hj].
    + rewrite lookup_seq_lt by done. cbn [fmap option_fmap option_map].
      destruct (lookup_lt_is_Some_2 (i_addrs ip) j) as [a Ha]; [lia|]. rewrite Ha. f_equal.
      apply get32_u32; [by eapply (Forall_lookup_1 _ _ _ _ H7)|].
      unfold put_dinode, put_addrs. cbv zeta. cbn [Nat.add].
      rewrite slice_splice_inside; [by apply slice_addrs|len|lia].
    + rewrite lookup_seq_ge by lia. rewrite lookup_ge_None_2 by lia. done.
Qed.

Lemma put_dinode_other off' ip0 :
  (off' + 64 <= off \/ off + 64 <= off')%nat ->
  load_dinode (put_dinode d off ip) off' ip0 = load_dinode d off' ip0.
Proof using All.
  intros Ho. pose proof (ir_len _ Hr) as Hal.
  unfold load_dinode. f_equal;
    try (unfold dip_type, dip_major, dip_minor, dip_nlink, dip_size, get16, get32;
         by dinode_field).
  unfold dip_addrs. apply list_fmap_ext. intros i x [-> Hx]%lookup_seq.
  unfold get32. by dinode_field.
Qed.

Lemma put_dinode_ok : bytes_ok 512 d -> bytes_ok 512 (put_dinode d off ip).
Proof using Type.
  intros H. unfold put_dinode, put_addrs. apply splice_ok; [eauto 10 with kern|].
  induction (i_addrs ip) as [|a l IH]; [constructor|]. rewrite fmap_cons. cbn [concat].
  apply Forall_app. split; [apply le_bytes_ok|done].
Qed.
End Codec.

Lemma dinode_off_bound inum : (dinode_off inum + 64 <= 512)%nat.
Proof.
  unfold dinode_off. change IPB with 8. pose proof (Z.mod_pos_bound inum 8). lia.
Qed.

Lemma dinode_off_apart inum inum' :
  inum / IPB = inum' / IPB -> inum <> inum' ->
  (dinode_off inum' + 64 <= dinode_off inum \/ dinode_off inum + 64 <= dinode_off inum')%nat.
Proof.
  unfold dinode_off. change IPB with 8. intros Hq Hne.
  pose proof (Z.mod_pos_bound inum 8). pose proof (Z.mod_pos_bound inum' 8).
  pose proof (Z.div_mod inum 8). pose proof (Z.div_mod inum' 8). lia.
Qed.

(** In a block of inodes, what [ilock] reads for inode [inum'] after
    [iupdate] stored inode [inum] is what was stored if the two are the same
    inode, and what was there before otherwise. *)
Theorem dinode_roundtrip d inum inum' ip ip0 :
  bytes_ok 512 d -> inode_ranges ip -> inum / IPB = inum' / IPB ->
  bytes_ok 512 (put_dinode d (dinode_off inum) ip) /\
  load_dinode (put_dinode d (dinode_off inum) ip) (dinode_off inum') ip0 =
    if decide (inum' = inum) then stored_fields ip ip0
    else load_dinode d (dinode_off inum') ip0.
Proof.
  intros Hd Hr Hq. pose proof (dinode_off_bound inum). destruct Hd as [Hl Hb].
  split; [by apply put_dinode_ok|]. case_decide as Hi.
  - subst. apply load_put_dinode; [lia|done].
  - apply put_dinode_other; [lia|done|]. apply dinode_off_apart; [done|congruence].
Qed.

Definition demo_inode : inode :=
  mkInode 1 3 1 true true T_FILE 0 0 1 700 [40; 41; 0; 0; 0; 0; 0; 0; 0; 0; 0; 0; 0].

Lemma dinode_roundtrip_witness :
  bytes_ok 512 (put_dinode (replicate 512 0) (dinode_off 3) demo_inode) /\
  load_dinode (put_dinode (replicate 512 0) (dinode_off 3) demo_inode) (dinode_off 5) demo_inode =
    if decide (5 = 3) then stored_fields demo_inode demo_inode
    else load_dinode (replicate 512 0) (dinode_off 5) demo_inode.
Proof.
  apply (dinode_roundtrip (replicate 512 0) 3 5 demo_inode demo_inode).
  - split; [done|]. by apply Forall_replicate.
  - split; cbn [i_type i_major i_minor i_nlink i_size i_addrs demo_inode]; try (unfold T_FILE; lia); [done|].
    repeat (apply list.Forall_cons; split; [lia|]). constructor.
  - reflexivity.
Defined.
