(* ===== verification/Alloc.v ===== *)
(** * Block allocation

    The free bitmap of fs.c inside a transaction: [balloc] takes a free block
    and zeroes it, [bfree] gives one back, and neither touches another block
    of the file system. *)

From S2P Require Import Prelude Bytes Cstring Kstate Sync Disk Bio Cache Log Commit Crash Txn Fs.
Import Str.
Local Open Scope Z_scope.

(** ** The bitmap *)

(** The bit of block [b] in the bitmap blocks of [V] is clear. *)
Definition is_unused (k : superblock) (V : gmap Z block) (b : Z) : Prop :=
  bit_clear (blk V (BBLOCK b k)) (Z.to_nat (b mod BPB)) = true.

(** The blocks a file can have: outside the log, the bitmap and the inodes. *)
Definition data_block (k : superblock) (start size dsize b : Z) : Prop :=
  fs_block start size dsize b /\ b < sb_size k /\
  (forall b', 0 <= b' < sb_size k -> b <> BBLOCK b' k) /\
  (forall inum, 0 <= inum < sb_ninodes k -> b <> IBLOCK inum k).

(** The bitmap and the inodes lie in the area the log covers, and only blocks
    that a file can have are free. *)
Record bitmap_ok (k : superblock) (start size dsize : Z) (V : gmap Z block) : Prop := {
  bo_size : 0 < sb_size k <= dsize;
  bo_fs b : 0 <= b < sb_size k -> fs_block start size dsize (BBLOCK b k);
  bo_inode inum : 0 <= inum < sb_ninodes k ->
    fs_block start size dsize (IBLOCK inum k) /\
    forall b, 0 <= b < sb_size k -> IBLOCK inum k <> BBLOCK b k;
  bo_free b : 0 <= b < sb_size k -> is_unused k V b ->
    data_block k start size dsize b
}.

Definition zero_block : block := replicate 512 0.

(** The view after block [b] is allocated, and after it is freed. *)
Definition v_alloc (k : superblock) (b : Z) (V : gmap Z block) : gmap Z block :=
  <[b := zero_block]>
    (<[BBLOCK b k := mark_bit (blk V (BBLOCK b k)) (Z.to_nat (b mod BPB))]> V).

Definition v_free (k : superblock) (b : Z) (V : gmap Z block) : gmap Z block :=
  <[BBLOCK b k := unmark_bit (blk V (BBLOCK b k)) (Z.to_nat (b mod BPB))]> V.

Lemma bit_clear_testbit d bi :
  bit_clear d bi = negb (Z.testbit (byte_at d (bi / 8)) (Z.of_nat (bi mod 8))).
Proof.
  unfold bit_clear, bit_mask. rewrite Z.shiftl_1_l.
  destruct (Z.testbit _ _) eqn:Ht; cbn [negb].
  - apply Z.eqb_neq. intros H0. apply (f_equal (fun z => Z.testbit z (Z.of_nat (bi mod 8)))) in H0.
    rewrite Z.land_spec, Ht, Z.pow2_bits_true, Z.bits_0 in H0 by lia. done.
  - apply Z.eqb_eq. apply Z.bits_inj'. intros i Hi. rewrite Z.land_spec, Z.bits_0.
    destruct (decide (i = Z.of_nat (bi mod 8))) as [->|Hne]; [by rewrite Ht|].
    rewrite Z.pow2_bits_false by done. apply andb_false_r.
Qed.

Lemma byte_at_insert d i j v :
  (i < length d)%nat -> byte_at (<[i := v]> d) j = if decide (i = j) then v else byte_at d j.
Proof.
  intros Hi. unfold byte_at. case_decide as Hd; subst.
  - by rewrite list_lookup_insert_eq.
  - by rewrite list_lookup_insert_ne.
Qed.

Lemma same_bit i j : (i / 8 = j / 8)%nat -> (i mod 8 = j mod 8)%nat -> i = j.
Proof. intros H1 H2. rewrite (Nat.div_mod_eq i 8), (Nat.div_mod_eq j 8). lia. Qed.

Lemma bit_mask_testbit bi k :
  0 <= k -> Z.testbit (bit_mask bi) k = bool_decide (k = Z.of_nat (bi mod 8)).
Proof.
  intros Hk. unfold bit_mask. rewrite Z.shiftl_1_l, Z.pow2_bits_eqb by lia.
  destruct (Z.eqb_spec (Z.of_nat (bi mod 8)) k); [rewrite bool_decide_eq_true_2|
    rewrite bool_decide_eq_false_2]; (done || lia).
Qed.

Lemma mark_bit_clear d bi bj :
  (bi / 8 < length d)%nat ->
  bit_clear (mark_bit d bi) bj = if decide (bi = bj) then false else bit_clear d bj.
Proof.
  intros Hl. rewrite !bit_clear_testbit. unfold mark_bit. rewrite byte_at_insert by done.
  assert (Z.of_nat (bj mod 8) < 8) as Hb by (pose proof (Nat.mod_upper_bound bj 8); lia).
  destruct (decide (bi = bj)) as [->|Hne].
  - rewrite decide_True by done. unfold u8. rewrite Z.mod_pow2_bits_low by done.
    rewrite Z.lor_spec, bit_mask_testbit, bool_decide_eq_true_2 by (done || lia).
    by rewrite orb_true_r.
  - destruct (decide (bi / 8 = bj / 8)%nat) as [He|]; [|done].
    unfold u8. rewrite Z.mod_pow2_bits_low by done. rewrite Z.lor_spec, bit_mask_testbit by lia.
    rewrite bool_decide_eq_false_2, orb_false_r, He; [done|].
    intros ?. apply Hne, same_bit; [done|lia].
Qed.

Lemma unmark_bit_clear d bi bj :
  (bi / 8 < length d)%nat ->
  bit_clear (unmark_bit d bi) bj = if decide (bi = bj) then true else bit_clear d bj.
Proof.
  intros Hl. rewrite !bit_clear_testbit. unfold unmark_bit. rewrite byte_at_insert by done.
  assert (Z.of_nat (bj mod 8) < 8) as Hb by (pose proof (Nat.mod_upper_bound bj 8); lia).
  destruct (decide (bi = bj)) as [->|Hne].
  - rewrite decide_True by done. unfold u8. rewrite Z.mod_pow2_bits_low by done.
    rewrite Z.land_spec, Z.lnot_spec, bit_mask_testbit, bool_decide_eq_true_2 by (done || lia).
    by rewrite andb_false_r.
  - destruct (decide (bi / 8 = bj / 8)%nat) as [He|]; [|done].
    unfold u8. rewrite Z.mod_pow2_bits_low by done.
    rewrite Z.land_spec, Z.lnot_spec, bit_mask_testbit by lia.
    rewrite bool_decide_eq_false_2, andb_true_r, He; [done|].
    intros ?. apply Hne, same_bit; [done|lia].
Qed.

Lemma mark_bit_ok d bi : bytes_ok 512 d -> bytes_ok 512 (mark_bit d bi).
Proof.
  intros [Hl Hd]. split; [unfold mark_bit; len|]. apply Forall_insert; [done|].
  by apply Z.mod_pos_bound.
Qed.

Lemma unmark_bit_ok d bi : bytes_ok 512 d -> bytes_ok 512 (unmark_bit d bi).
Proof.
  intros [Hl Hd]. split; [unfold unmark_bit; len|]. apply Forall_insert; [done|].
  by apply Z.mod_pos_bound.
Qed.

Lemma balloc_scan_Some d n bi r :
  balloc_scan d n bi = Some r -> (bi <= r < bi + n)%nat /\ bit_clear d r = true.
Proof.
  revert bi. induction n as [|n IH]; intros bi; cbn; [done|].
  destruct (bit_clear d bi) eqn:Hb; [intros [= <-]; split; [lia|done]|].
  intros [H1 H2]%IH. split; [lia|done].
Qed.

Lemma balloc_scan_None d n bi r :
  balloc_scan d n bi = None -> (bi <= r < bi + n)%nat -> bit_clear d r = false.
Proof.
  revert bi. induction n as [|n IH]; intros bi; cbn; [lia|].
  destruct (bit_clear d bi) eqn:Hb; [done|]. intros Hn Hr.
  destruct (decide (r = bi)) as [->|]; [done|]. eapply IH; [done|lia].
Qed.

(** ** Positions *)
Lemma bblock_group k q j :
  0 <= j < BPB -> BBLOCK (q * BPB + j) k = BBLOCK (q * BPB) k /\ (q * BPB + j) mod BPB = j.
Proof.
  intros Hj. unfold BBLOCK. change BPB with 4096 in *. split.
  - f_equal. rewrite Z.div_add_l, Z.div_mul by lia. rewrite Z.div_small by lia. lia.
  - rewrite Z.add_comm, Z.mod_add, Z.mod_small by lia. done.
Qed.

Lemma bit_index_small b : (Z.to_nat (b mod BPB) / 8 < 512)%nat.
Proof.
  pose proof (Z.mod_pos_bound b BPB). change BPB with 4096 in *.
  apply Nat.Div0.div_lt_upper_bound. lia.
Qed.

Lemma bit_index_inj k b b' :
  0 <= b -> 0 <= b' -> BBLOCK b k = BBLOCK b' k ->
  Z.to_nat (b mod BPB) = Z.to_nat (b' mod BPB) -> b = b'.
Proof.
  intros Hb Hb' H1 H2. unfold BBLOCK in H1. change BPB with 4096 in *.
  pose proof (Z.mod_pos_bound b 4096). pose proof (Z.mod_pos_bound b' 4096).
  rewrite (Z.div_mod b 4096), (Z.div_mod b' 4096) by lia. lia.
Qed.

Lemma blk_insert V n d m : blk (<[n := d]> V) m = if decide (n = m) then d else blk V m.
Proof. unfold blk. rewrite lookup_insert. by case_decide. Qed.

(** ** The view after an allocation *)
Section Views.
Context (k : superblock) (start size dsize : Z) (V : gmap Z block) (b : Z).
Context (Hok : bitmap_ok k start size dsize V).
Context (Hbytes : forall n d, V !! n = Some d -> bytes_ok 512 d).
Context (Hdom : forall n, 0 <= n < dsize -> is_Some (V !! n)).
Context (Hb : 0 <= b < sb_size k).

Lemma bitmap_block_ok b' : 0 <= b' < sb_size k -> bytes_ok 512 (blk V (BBLOCK b' k)).
Proof using Hok Hbytes Hdom.
  intros Hb'. destruct (bo_fs _ _ _ _ _ Hok b' Hb') as [Hr _].
  destruct (Hdom (BBLOCK b' k)) as [d Hd]; [lia|]. rewrite (blk_Some _ _ _ Hd). eauto.
Qed.

Lemma v_alloc_unused b' :
  is_unused k V b -> 0 <= b' < sb_size k ->
  is_unused k (v_alloc k b V) b' <-> is_unused k V b' /\ b' <> b.
Proof using All.
  intros Hu Hb'. unfold is_unused, v_alloc. rewrite !blk_insert.
  rewrite decide_False by (by apply (bo_free _ _ _ _ _ Hok b Hb Hu)).
  destruct (bitmap_block_ok b Hb) as [Hl _]. pose proof (bit_index_small b) as Hi.
  destruct (decide (BBLOCK b k = BBLOCK b' k)) as [He|He].
  - rewrite mark_bit_clear by (by rewrite Hl).
    destruct (decide (Z.to_nat (b mod BPB) = Z.to_nat (b' mod BPB))) as [Hm|Hm].
    + assert (b = b') as -> by (eapply bit_index_inj; (done || lia)). naive_solver.
    + rewrite He. split; [|naive_solver]. intros H. split; [done|]. by intros ->.
  - split; [|naive_solver]. intros H. split; [done|]. by intros ->.
Qed.

Lemma v_alloc_other n :
  n <> b -> n <> BBLOCK b k -> v_alloc k b V !! n = V !! n.
Proof using Type. intros. unfold v_alloc. by rewrite !lookup_insert_ne. Qed.

Lemma v_alloc_ok : is_unused k V b -> bitmap_ok k start size dsize (v_alloc k b V).
Proof using All.
  intros Hu. split; [apply Hok|apply Hok|apply Hok|]. intros b' Hb' Hu'.
  apply (v_alloc_unused b' Hu Hb') in Hu' as [Hu' _]. by apply (bo_free _ _ _ _ _ Hok).
Qed.

Lemma v_free_unused b' :
  0 <= b' < sb_size k -> is_unused k (v_free k b V) b' <-> is_unused k V b' \/ b' = b.
Proof using All.
  intros Hb'. unfold is_unused, v_free. rewrite blk_insert.
  destruct (bitmap_block_ok b Hb) as [Hl _]. pose proof (bit_index_small b) as Hi.
  destruct (decide (BBLOCK b k = BBLOCK b' k)) as [He|He].
  - rewrite unmark_bit_clear by (by rewrite Hl).
    destruct (decide (Z.to_nat (b mod BPB) = Z.to_nat (b' mod BPB))) as [Hm|Hm].
    + assert (b = b') as -> by (eapply bit_index_inj; (done || lia)). naive_solver.
    + rewrite He. split; [naive_solver|]. intros [H|H]; [done|]. by subst.
  - split; [naive_solver|]. intros [H|H]; [done|]. by subst.
Qed.

Lemma v_free_ok :
  data_block k start size dsize b -> bitmap_ok k start size dsize (v_free k b V).
Proof using All.
  intros Hd. split; [apply Hok|apply Hok|apply Hok|]. intros b' Hb' Hu'.
  apply (v_free_unused b' Hb') in Hu' as [Hu'| ->]; [by apply (bo_free _ _ _ _ _ Hok)|done].
Qed.
End Views.

(** ** Reading a block in a transaction *)
Lemma c_free_acquire n b c : c_busy c !! n = None -> c_free n (c_acquire n b c) = c.
Proof.
  intros H. unfold c_free, c_acquire. cbn. rewrite delete_insert_id by done. by destruct c.
Qed.

Lemma txn_clean start size s c bs n :
  txn start size s c bs -> c_busy c !! n = None -> n ∈ bs \/ c_view c !! n = c_disk c !! n.
Proof.
  intros [Hl _ _] Hb. destruct (decide (n ∈ bs)) as [|Hn]; [by left|right].
  apply (co_clean _ (cr_ok _ _ (lr_cache _ _ _ _ _ Hl))); [|done].
  rewrite (lr_dirty _ _ _ _ _ Hl). set_solver.
Qed.

Lemma splice_all d src : length src = length d -> splice d 0 src = src.
Proof.
  intros H. apply list_eq. intros i. rewrite splice_lookup by lia. case_decide.
  - f_equal. lia.
  - rewrite !lookup_ge_None_2 by lia. done.
Qed.

Lemma memset_block d : length d = 512%nat -> memset d 0 0 512 = zero_block.
Proof.
  intros H. unfold memset, stosl. cbn [Nat.modulo Nat.divmod Nat.eqb andb].
  change (concat _) with zero_block. by apply splice_all.
Qed.

Lemma logged_length n bs : (length (logged n bs) <= S (length bs))%nat.
Proof. unfold logged. case_decide; [lia|]. rewrite length_app. cbn. lia. Qed.

Lemma log_frame_fields s s' :
  log_frame s s' -> sb s' = sb s /\ icache s' = icache s /\ curproc s' = curproc s.
Proof. by intros (g & s1 & (t & j & P & _ & ->) & ->). Qed.

Lemma txn_frame_sb s s' : txn_frame s s' -> sb s' = sb s.
Proof. intros [H _]. apply log_frame_fields in H. tauto. Qed.

(** ** balloc *)
Section Balloc.
Context {Dev : BlockDev}.
Context (start size : Z) (k : superblock).

(** A transaction with room for [room] more blocks in the log and the cache;
    blocks held by the caller are used blocks of files. *)
Record alloc_ok (room : nat) (s : kstate) (c : cache) (bs : list Z) : Prop := {
  ao_txn : txn start size s c bs;
  ao_sb : sb s = k;
  ao_map : bitmap_ok k start size (c_size c) (c_view c);
  ao_busy n : is_Some (c_busy c !! n) ->
    data_block k start size (c_size c) n /\ ~ is_unused k (c_view c) n;
  ao_log : Z.of_nat (length bs) + Z.of_nat room < size;
  ao_bufs : (base.size (c_busy c) + length bs + room <= NBUF)%nat
}.

Lemma ao_view room s c bs :
  alloc_ok room s c bs ->
  (forall n d, c_view c !! n = Some d -> bytes_ok 512 d) /\
  (forall n, 0 <= n < c_size c -> is_Some (c_view c !! n)).
Proof.
  intros H. pose proof (cr_ok _ _ (lr_cache _ _ _ _ _ (tx_log _ _ _ _ _ (ao_txn _ _ _ _ H)))) as Hc.
  split; apply Hc.
Qed.

Lemma ao_inuse room s c bs : alloc_ok room s c bs -> (1 <= room)%nat -> (c_inuse c < NBUF)%nat.
Proof.
  intros H Hr. pose proof (c_inuse_bound _ _ _ _ _ (ao_txn _ _ _ _ H)).
  pose proof (ao_bufs _ _ _ _ H). lia.
Qed.

Lemma ao_bitmap_free room s c bs b :
  alloc_ok room s c bs -> 0 <= b < sb_size k -> c_busy c !! BBLOCK b k = None.
Proof.
  intros H Hb. destruct (c_busy c !! BBLOCK b k) eqn:He; [|done].
  destruct (ao_busy _ _ _ _ H (BBLOCK b k)) as [(_ & _ & Hd & _) _]; [by eexists|].
  by destruct (Hd b Hb).
Qed.

Lemma ao_unused_free room s c bs b :
  alloc_ok room s c bs -> is_unused k (c_view c) b -> c_busy c !! b = None.
Proof.
  intros H Hu. destruct (c_busy c !! b) eqn:He; [|done].
  by destruct (ao_busy _ _ _ _ H b) as [_ []].
Qed.

(** The state after block [b] is allocated. *)
Definition c_alloc (b : Z) (c : cache) : cache :=
  c_upd b zero_block
    (c_upd (BBLOCK b k) (mark_bit (blk (c_view c) (BBLOCK b k)) (Z.to_nat (b mod BPB))) c).

Definition alloc_logged (b : Z) (bs : list Z) : list Z := logged b (logged (BBLOCK b k) bs).

(** Marking and zeroing block [b] once it is found free. *)
Lemma balloc_take s c bs b bp s1 :
  alloc_ok 2 s c bs -> 0 <= b < sb_size k -> is_unused k (c_view c) b ->
  txn start size s1 (c_acquire (BBLOCK b k) bp c) bs -> bio_frame s s1 ->
  wp (do upd_data bp (fun d => mark_bit d (Z.to_nat (b mod BPB)));
      do log_write bp; do brelse bp; do bzero 1 b; ret b) s1
    (fun r s' => r = b /\ txn start size s' (c_alloc b c) (alloc_logged b bs) /\ txn_frame s s').
Proof.
  intros H Hb Hu T1 F1. destruct (ao_view _ _ _ _ H) as [Hbytes Hdom].
  pose proof (ao_map _ _ _ _ H) as Hm. destruct (bo_free _ _ _ _ _ Hm b Hb Hu) as (Hfs & _ & Hne & _).
  pose proof (bo_fs _ _ _ _ _ Hm b Hb) as Hbf. pose proof (ao_log _ _ _ _ H) as Hlog.
  pose proof (ao_bitmap_free _ _ _ _ _ H Hb) as Hbb.
  destruct (Hdom (BBLOCK b k)) as [d Hd]; [unfold fs_block in Hbf; lia|].
  apply wp_bind. eapply (txn_store _ _ _ _ _ T1 (BBLOCK b k) bp _ d);
    [apply lookup_insert_eq|done|by eapply mark_bit_ok, Hbytes|]. intros s2 T2 F2.
  apply wp_bind. eapply (txn_log _ _ _ _ _ T2 (BBLOCK b k) bp);
    [apply lookup_insert_eq|done|lia|]. intros s3 T3 F3.
  apply wp_bind. eapply (txn_brelse _ _ _ _ _ T3 (BBLOCK b k) bp);
    [apply lookup_insert_eq|left; apply logged_in|]. intros s4 T4 F4.
  rewrite c_upd_steps in T4 by done. pose proof (blk_Some _ _ _ Hd) as Hbd.
  rewrite <- Hbd in T4. apply wp_bind. set (c1 := c_upd _ _ c) in T4.
  destruct (Hdom b) as [db Hdb]; [unfold fs_block in Hfs; lia|].
  assert (txn_frame s s4) as F14.
  { etrans; [by apply bio_txn_frame|]. etrans; [by apply bio_txn_frame|].
    etrans; [done|]. by apply bio_txn_frame. }
  eapply wp_mono; [eapply (txn_update start size s4 c1 _ b (fun d => memset d 0 0 512) db T4)|].
  - by apply (ao_unused_free _ _ _ _ _ H).
  - done.
  - pose proof (logged_length (BBLOCK b k) bs). lia.
  - right. eapply Nat.le_lt_trans; [by apply (c_inuse_bound _ _ _ _ _ T4)|].
    pose proof (logged_length (BBLOCK b k) bs). pose proof (ao_bufs _ _ _ _ H). cbn. lia.
  - cbn. rewrite lookup_insert_ne by (apply not_eq_sym; auto). done.
  - rewrite memset_block by (by eapply Hbytes). split; [done|]. by apply Forall_replicate.
  - intros [] s5 [T5 F5]. apply wp_ret. split; [done|]. split; [|by etrans].
    unfold c_alloc, alloc_logged. fold c1.
    by rewrite memset_block in T5 by (by eapply Hbytes).
Qed.
(** The bits of one bitmap block: [q] is its index, [n] the bits looked at. *)
Lemma scan_group V q n :
  let r := balloc_scan (blk V (BBLOCK (q * BPB) k)) n 0 in
  (n <= Z.to_nat BPB)%nat ->
  match r with
  | Some bi => is_unused k V (q * BPB + Z.of_nat bi) /\ (bi < n)%nat
  | None => forall j, 0 <= j < Z.of_nat n -> ~ is_unused k V (q * BPB + j)
  end.
Proof.
  cbv zeta. intros Hn. change (Z.to_nat BPB) with 4096%nat in Hn.
  assert (forall j, 0 <= j < 4096 -> is_unused k V (q * BPB + j) <->
    bit_clear (blk V (BBLOCK (q * BPB) k)) (Z.to_nat j) = true) as Hj.
  { intros j Hj. unfold is_unused. by destruct (bblock_group k q j Hj) as [-> ->]. }
  destruct (balloc_scan _ n 0) as [bi|] eqn:Hs.
  - apply balloc_scan_Some in Hs as [Hr Hc]. split; [|lia]. apply Hj; [lia|]. by rewrite Nat2Z.id.
  - intros j Hr. rewrite Hj by lia. rewrite (balloc_scan_None _ _ _ _ Hs) by lia. done.
Qed.

Lemma balloc_loop_spec fuel q s c bs b0 :
  alloc_ok 2 s c bs -> 0 <= q -> q * BPB <= b0 < sb_size k -> is_unused k (c_view c) b0 ->
  b0 < (q + Z.of_nat fuel + 1) * BPB ->
  wp (balloc_loop fuel 1 (q * BPB)) s (fun b s' =>
    0 <= b < sb_size k /\ is_unused k (c_view c) b /\
    txn start size s' (c_alloc b c) (alloc_logged b bs) /\ txn_frame s s').
Proof.
  revert q s. induction fuel as [|fuel IH]; intros q s H Hq Hb0 Hu0 Hfuel.
  all: pose proof (ao_map _ _ _ _ H) as Hm; destruct (ao_view _ _ _ _ H) as [Hbytes Hdom].
  all: assert (0 <= q * BPB < sb_size k) as Hqb by (change BPB with 4096 in *; lia).
  all: pose proof (bo_fs _ _ _ _ _ Hm _ Hqb) as Hfs.
  all: destruct (Hdom (BBLOCK (q * BPB) k)) as [d Hd]; [unfold fs_block in Hfs; lia|].
  all: cbn [balloc_loop]; apply wp_bind, wp_gets; rewrite (ao_sb _ _ _ _ H);
    rewrite (proj2 (Z.ltb_lt _ _)) by lia; cbn [negb]; apply wp_bind.
  all: apply (txn_bread _ _ _ _ _ (ao_txn _ _ _ _ H) (BBLOCK (q * BPB) k));
    [unfold fs_block in Hfs; lia|by eapply ao_bitmap_free|right; eapply ao_inuse; [done|lia]|].
  all: intros bp s1 T1 F1; apply wp_bind.
  all: eapply (wp_buf_data _ _ (BBLOCK (q * BPB) k) bp d); [apply T1|apply lookup_insert_eq|done|].
  all: rewrite <- (blk_Some _ _ _ Hd).
  all: set (n := Z.to_nat (Z.min BPB (sb_size k - q * BPB))).
  all: pose proof (scan_group (c_view c) q n ltac:(unfold n; change BPB with 4096; lia)) as Hs.
  all: cbv zeta in Hs; destruct (balloc_scan _ n 0) as [bi|] eqn:Hscan.
  1, 3: destruct Hs as [Hu Hbi]; set (b := q * BPB + Z.of_nat bi) in *;
    assert (0 <= Z.of_nat bi < BPB) as Hbi' by (unfold n in Hbi; change BPB with 4096 in *; lia);
    assert (0 <= b < sb_size k) as Hb by (unfold b, n in *; change BPB with 4096 in *; lia);
    destruct (bblock_group k q (Z.of_nat bi) Hbi') as [Hg1 Hg2]; fold b in Hg1, Hg2;
    rewrite <- Hg1 in T1;
    pose proof (balloc_take s c bs b bp s1 H Hb Hu T1 F1) as Ht;
    rewrite Hg2, Nat2Z.id in Ht; eapply wp_mono; [exact Ht|];
    intros r s' (-> & T2 & F2); done.
  - exfalso. apply (Hs (b0 - q * BPB)); [unfold n; change BPB with 4096 in *; lia|].
    by replace (q * BPB + (b0 - q * BPB)) with b0 by lia.
  - assert (q * BPB + BPB <= b0) as Hnext.
    { destruct (decide (q * BPB + BPB <= b0)) as [|Hlt]; [done|]. exfalso.
      apply (Hs (b0 - q * BPB)); [unfold n; change BPB with 4096 in *; lia|].
      by replace (q * BPB + (b0 - q * BPB)) with b0 by lia. }
    apply wp_bind. eapply (txn_brelse _ _ _ _ _ T1 (BBLOCK (q * BPB) k) bp);
      [apply lookup_insert_eq| |].
    { apply (txn_clean start size s c bs); [apply H|by eapply ao_bitmap_free]. }
    intros s2 T2 F2. rewrite c_free_acquire in T2 by (by eapply ao_bitmap_free).
    assert (txn_frame s s2) as F12 by (etrans; by apply bio_txn_frame).
    replace (q * BPB + BPB) with ((q + 1) * BPB) in * by lia.
    eapply wp_mono; [apply (IH (q + 1) s2); try done|].
    + destruct H as [? ? ? ? ? ?]. split; try done. by rewrite (txn_frame_sb _ _ F12).
    + lia.
    + lia.
    + lia.
    + intros b s' (Hb & Hu & T3 & F3). split; [done|]. split; [done|]. split; [done|]. by etrans.
Qed.

(** [balloc] returns a free block, which it marks used and zeroes; no other
    block and no other bit of the bitmap changes. *)
Lemma balloc_spec s c bs b0 :
  alloc_ok 2 s c bs -> 0 <= b0 < sb_size k -> is_unused k (c_view c) b0 ->
  wp (balloc 1) s (fun b s' =>
    0 <= b < sb_size k /\ is_unused k (c_view c) b /\
    txn start size s' (c_alloc b c) (alloc_logged b bs) /\ txn_frame s s').
Proof.
  intros H Hb Hu. unfold balloc. apply wp_bind, wp_gets. rewrite (ao_sb _ _ _ _ H).
  apply (balloc_loop_spec _ 0 s c bs b0); try done; try lia.
  pose proof (Z.div_mod (sb_size k) BPB). pose proof (Z.mod_pos_bound (sb_size k) BPB).
  assert (0 <= sb_size k / BPB) by (apply Z.div_pos; change BPB with 4096; lia).
  change BPB with 4096 in *. rewrite Z2Nat.id by lia. lia.
Qed.

(** Reading block [n], which nobody holds, changes nothing. *)
Lemma txn_read s c bs n d (Q : block -> kstate -> Prop) :
  txn start size s c bs -> 0 <= n < c_size c -> c_busy c !! n = None ->
  n ∈ bs \/ (c_inuse c < NBUF)%nat -> c_view c !! n = Some d ->
  (forall s', txn start size s' c bs -> bio_frame s s' -> Q d s') ->
  wp (let! b := bread 1 n in let! d := buf_data b in do brelse b; ret d) s Q.
Proof.
  intros T Hn Hb Hu Hd HQ. apply wp_bind. apply (txn_bread _ _ _ _ _ T n); [done..|].
  intros b s1 T1 F1. apply wp_bind.
  eapply (wp_buf_data _ _ n b d); [apply T1|apply lookup_insert_eq|done|].
  apply wp_bind. eapply (txn_brelse _ _ _ _ _ T1 n b); [apply lookup_insert_eq| |].
  { by apply (txn_clean start size s c bs). }
  intros s2 T2 F2. rewrite c_free_acquire in T2 by done. apply wp_ret, HQ; [done|by etrans].
Qed.

Lemma load_sb_spec s c bs :
  alloc_ok 1 s c bs -> decode_sb (blk (c_view c) 1) = k ->
  wp (load_sb 1) s (fun _ s' => txn start size s' c bs /\ bio_frame s s').
Proof.
  intros H Hsb. pose proof (ao_map _ _ _ _ H) as Hm. destruct (ao_view _ _ _ _ H) as [Hbytes Hdom].
  assert (1 < c_size c) as Hc.
  { destruct (bo_fs _ _ _ _ _ Hm 0) as [? _]; [pose proof (bo_size _ _ _ _ _ Hm); lia|lia]. }
  destruct (Hdom 1) as [d Hd]; [lia|].
  assert (c_busy c !! 1 = None) as Hb1.
  { destruct (c_busy c !! 1) eqn:He; [|done].
    destruct (ao_busy _ _ _ _ H 1) as [[[? _] _] _]; [by eexists|lia]. }
  assert (wp (readsb 1) s (fun v s' => v = k /\ txn start size s' c bs /\ bio_frame s s')) as Hr.
  { unfold readsb. apply wp_bind. apply (txn_bread _ _ _ _ _ (ao_txn _ _ _ _ H) 1);
      [lia|done|right; by eapply ao_inuse|]. intros b s1 T1 F1. apply wp_bind.
    eapply (wp_buf_data _ _ 1 b d); [apply T1|apply lookup_insert_eq|done|].
    apply wp_bind. eapply (txn_brelse _ _ _ _ _ T1 1 b); [apply lookup_insert_eq| |].
    { apply (txn_clean start size s c bs); [apply H|done]. }
    intros s2 T2 F2. rewrite c_free_acquire in T2 by done. apply wp_ret.
    rewrite <- (blk_Some _ _ _ Hd), Hsb. split; [done|]. split; [done|by etrans]. }
  unfold load_sb. apply wp_bind. eapply wp_mono; [exact Hr|]. intros v s' (-> & T & F).
  apply wp_modify. replace (set_sb k s') with s'; [done|].
  rewrite <- (ao_sb _ _ _ _ H), <- (txn_frame_sb _ _ (bio_txn_frame _ _ F)). by destruct s'.
Qed.

(** [bfree] clears the bit of a used block and changes nothing else. *)
Lemma bfree_spec s c bs b :
  alloc_ok 1 s c bs -> decode_sb (blk (c_view c) 1) = k ->
  0 <= b < sb_size k -> ~ is_unused k (c_view c) b ->
  wp (bfree 1 b) s (fun _ s' =>
    txn start size s'
      (c_upd (BBLOCK b k) (unmark_bit (blk (c_view c) (BBLOCK b k)) (Z.to_nat (b mod BPB))) c)
      (logged (BBLOCK b k) bs) /\ txn_frame s s').
Proof.
  intros H Hsb Hb Hu. pose proof (ao_map _ _ _ _ H) as Hm.
  destruct (ao_view _ _ _ _ H) as [Hbytes Hdom].
  pose proof (bo_fs _ _ _ _ _ Hm b Hb) as Hbf. pose proof (ao_log _ _ _ _ H) as Hlog.
  pose proof (ao_bitmap_free _ _ _ _ _ H Hb) as Hbb.
  destruct (Hdom (BBLOCK b k)) as [d Hd]; [unfold fs_block in Hbf; lia|].
  unfold bfree. apply wp_bind. eapply wp_mono; [by apply (load_sb_spec s c bs)|].
  intros [] s0 [T0 F0]. apply wp_bind, wp_gets.
  rewrite (txn_frame_sb _ _ (bio_txn_frame _ _ F0)), (ao_sb _ _ _ _ H). apply wp_bind.
  apply (txn_bread _ _ _ _ _ T0 (BBLOCK b k)); [unfold fs_block in Hbf; lia|done|
    right; by eapply ao_inuse|]. intros bp s1 T1 F1. apply wp_bind.
  eapply (wp_buf_data _ _ (BBLOCK b k) bp d); [apply T1|apply lookup_insert_eq|done|].
  apply wp_if_false.
  { rewrite <- (blk_Some _ _ _ Hd). unfold is_unused in Hu. by apply not_true_is_false. }
  apply wp_bind. eapply (txn_store _ _ _ _ _ T1 (BBLOCK b k) bp _ d);
    [apply lookup_insert_eq|done|by eapply unmark_bit_ok, Hbytes|]. intros s2 T2 F2.
  apply wp_bind. eapply (txn_log _ _ _ _ _ T2 (BBLOCK b k) bp);
    [apply lookup_insert_eq|done|lia|]. intros s3 T3 F3.
  eapply (txn_brelse _ _ _ _ _ T3 (BBLOCK b k) bp);
    [apply lookup_insert_eq|left; apply logged_in|]. intros s4 T4 F4.
  rewrite c_upd_steps in T4 by done. rewrite (blk_Some _ _ _ Hd). split; [done|].
  etrans; [by apply bio_txn_frame|]. etrans; [by apply bio_txn_frame|].
  etrans; [by apply bio_txn_frame|]. etrans; [done|]. by apply bio_txn_frame.
Qed.
End Balloc.

(** ** The theorems *)
Section Theorems.
Context {Dev : BlockDev}.

(** C36: in a transaction with room for two blocks, as long as some block is
    free, [balloc] returns a free block; afterwards exactly that block has
    become used, it holds zeroes, and apart from it and the bitmap no block
    has changed.  The change is in the log, not on disk. *)
Theorem balloc_fresh start size k s c bs b0 :
  alloc_ok start size k 2 s c bs -> 0 <= b0 < sb_size k -> is_unused k (c_view c) b0 ->
  wp (balloc 1) s (fun b s' => exists c' bs',
    txn start size s' c' bs' /\ c_disk c' = c_disk c /\
    0 <= b < sb_size k /\ is_unused k (c_view c) b /\
    data_block k start size (c_size c) b /\ blk (c_view c') b = zero_block /\
    (forall b', 0 <= b' < sb_size k ->
       is_unused k (c_view c') b' <-> is_unused k (c_view c) b' /\ b' <> b) /\
    (forall n, n <> b -> n <> BBLOCK b k -> c_view c' !! n = c_view c !! n)).
Proof.
  intros H Hb0 Hu0. eapply wp_mono; [by apply (balloc_spec start size k s c bs b0)|].
  intros b s' (Hb & Hu & T & _). destruct (ao_view _ _ _ _ _ _ _ H) as [Hbytes Hdom].
  pose proof (ao_map _ _ _ _ _ _ _ H) as Hm.
  exists (c_alloc k b c), (alloc_logged k b bs). split; [done|]. split; [done|].
  split; [done|]. split; [done|]. split; [by apply (bo_free _ _ _ _ _ Hm)|].
  change (c_view (c_alloc k b c)) with (v_alloc k b (c_view c)).
  split; [unfold v_alloc; by rewrite blk_insert, decide_True|]. split.
  - intros b' Hb'. by apply (v_alloc_unused k start size (c_size c)).
  - intros n Hn1 Hn2. by apply v_alloc_other.
Qed.

(** [bfree] of a used block makes exactly that block free and changes no
    block but the bitmap. *)
Theorem bfree_frees start size k s c bs b :
  alloc_ok start size k 1 s c bs -> decode_sb (blk (c_view c) 1) = k ->
  0 <= b < sb_size k -> ~ is_unused k (c_view c) b ->
  wp (bfree 1 b) s (fun _ s' => exists c' bs',
    txn start size s' c' bs' /\ c_disk c' = c_disk c /\
    (forall b', 0 <= b' < sb_size k ->
       is_unused k (c_view c') b' <-> is_unused k (c_view c) b' \/ b' = b) /\
    (forall n, n <> BBLOCK b k -> c_view c' !! n = c_view c !! n)).
Proof.
  intros H Hsb Hb Hu. eapply wp_mono; [by apply (bfree_spec start size k s c bs b)|].
  intros [] s' [T _]. destruct (ao_view _ _ _ _ _ _ _ H) as [Hbytes Hdom].
  pose proof (ao_map _ _ _ _ _ _ _ H) as Hm.
  eexists _, _. split; [exact T|]. split; [done|].
  change (c_view (c_upd (BBLOCK b k) _ c)) with (v_free k b (c_view c)). split.
  - intros b' Hb'. by apply (v_free_unused k start size (c_size c)).
  - intros n Hn. unfold v_free. by rewrite lookup_insert_ne.
Qed.
End Theorems.

(** ** A small file system

    40 blocks: the log in blocks 2 to 21, the inodes in block 22, the bitmap in
    block 23; inode 1 is a file of 100 bytes in block 24. *)
Lemma fs_begun D dsize start size k ic :
  log_disk start size dsize D -> header_n (blk D start) = 0 -> sb_log start size D ->
  size <= LOGSIZE ->
  exists s c, txn start size s c [] /\ c_busy c = ∅ /\ c_size c = dsize /\
    sb s = k /\ icache s = ic /\ l_outstanding (klog s) = 1 /\
    l_committing (klog s) = false /\ sb_log start size (c_disk c) /\
    (forall n, 0 <= n < dsize -> ~ in_log start size n -> c_view c !! n = D !! n).
Proof.
  intros HD H0 Hsb Hsz.
  destruct (boot_fs_spec (reset_state D dsize [] 0) start size dsize D D)
    as (a & s & _ & c & Hl & Hb & Hs & Hvd & Hd & _ & Ho & Hc);
    [apply reset_boot|done|by apply recovers_empty|].
  pose proof (cr_disk _ _ (lr_cache _ _ _ _ _ Hl)) as Hdk.
  assert (forall n, 0 <= n < dsize -> ~ in_log start size n -> c_disk c !! n = D !! n) as HcD.
  { intros n Hn Hin. specialize (Hd n Hn Hin). rewrite Hdk in Hd. done. }
  set (g := set_l_outstanding (l_outstanding (klog s) + 1) (klog s)).
  exists (set_icache ic (set_sb k (set_klog g s))), c.
  split; [split|]; [|done|cbn; lia|].
  - assert (log_rep start size (set_ptable (ptable s) (set_klog g s)) c []) as Hl1.
    { apply log_rep_klog; [done|]. unfold same_log, g. by destruct (klog s). }
    destruct Hl1 as [L1 L2 L3 L4 L5 L6 L7]. split; try done. by destruct L1.
  - split; [done|]. split; [done|]. split; [done|]. split; [done|].
    unfold g. cbn. rewrite Ho. split; [done|]. split; [done|]. split.
    + unfold sb_log, blk. pose proof (ld_geom _ _ _ _ HD) as Hg.
      rewrite HcD; [done| |]; pose proof (lg_start _ _ _ _ Hg); pose proof (lg_area _ _ _ _ Hg);
        pose proof (lg_fit _ _ _ _ Hg); unfold in_log; lia.
    + intros n Hn Hin. rewrite Hvd. by apply HcD.
Qed.

Definition small_sb : superblock := mkSb 40 16 8 20 2 22 23.
Definition small_inode : inode :=
  mkInode 1 1 1 true true T_FILE 0 0 1 100 (24 :: replicate 12 0).

(** The superblock as mkfs lays it out. *)
Definition sb_block (k : superblock) : block :=
  splice zero_block 0 (concat (le_bytes 4 <$> [sb_size k; sb_nblocks k; sb_ninodes k;
    sb_nlog k; sb_logstart k; sb_inodestart k; sb_bmapstart k])).

Definition small_block (n : Z) : block :=
  if n =? 1 then sb_block small_sb
  else if n =? 22 then put_dinode zero_block (dinode_off 1) small_inode
  else if n =? 23 then splice zero_block 0 [255; 255; 255; 1]
  else if n =? 24 then splice zero_block 0 (seqZ 1 100)
  else zero_block.

Definition small_disk : gmap Z block :=
  list_to_map ((fun n => (n, small_block n)) <$> seqZ 0 40).

Lemma small_lookup n : 0 <= n < 40 -> small_disk !! n = Some (small_block n).
Proof.
  intros Hn. apply elem_of_list_to_map_1.
  - rewrite <- list_fmap_compose. rewrite (list_fmap_ext _ id); [|done].
    rewrite list_fmap_id. apply NoDup_seqZ.
  - apply list_elem_of_fmap. exists n. split; [done|]. apply elem_of_seqZ. lia.
Qed.

(** A block all of whose bytes are bytes, checked by evaluation. *)
Definition block_okb (d : block) : bool :=
  (length d =? 512)%nat && forallb (fun b => (0 <=? b) && (b <? 256)) d.

Lemma block_okb_ok d : block_okb d = true -> bytes_ok 512 d.
Proof.
  unfold block_okb. rewrite andb_true_iff, Nat.eqb_eq, forallb_forall.
  intros [Hl Hb]. split; [done|]. apply list.Forall_forall. intros b Hin.
  apply list_elem_of_In, Hb in Hin. unfold is_byte. lia.
Qed.

Lemma small_log_disk : log_disk 2 20 40 small_disk.
Proof.
  split.
  - intros n Hn. rewrite small_lookup by done. by eexists.
  - intros n d (n' & [= -> ->] & Hn%elem_of_seqZ)%elem_of_list_to_map_2%list_elem_of_fmap.
    apply block_okb_ok. assert (forallb (fun n => block_okb (small_block n)) (seqZ 0 40) = true) as H
      by (by vm_compute). rewrite forallb_forall in H. apply H, list_elem_of_In, elem_of_seqZ. lia.
  - unfold blk. rewrite small_lookup by lia. by vm_compute.
  - replace (header_blocks (blk small_disk 2)) with (@nil Z)
      by (unfold blk; rewrite small_lookup by lia; by vm_compute).
    split; cbn; try lia; try (change NBUF with 30%nat; lia); [constructor|set_solver].
Qed.

(** The small file system after [begin_op], with its file in the inode cache. *)
Lemma small_fs_begun : exists s c, txn 2 20 s c [] /\ c_busy c = ∅ /\ c_size c = 40 /\
  sb s = small_sb /\ icache s = [small_inode] /\ l_outstanding (klog s) = 1 /\
  l_committing (klog s) = false /\ sb_log 2 20 (c_disk c) /\
  (forall n, 0 <= n < 40 -> ~ in_log 2 20 n -> c_view c !! n = Some (small_block n)).
Proof.
  destruct (fs_begun small_disk 40 2 20 small_sb [small_inode])
    as (s & c & T & Hb & Hs & Hk & Hi & Ho & Hc & Hl & Hv).
  - apply small_log_disk.
  - unfold blk. rewrite small_lookup by lia. by vm_compute.
  - unfold sb_log, blk. rewrite small_lookup by lia. by vm_compute.
  - change LOGSIZE with 30. lia.
  - exists s, c. do 8 (split; [done|]). intros n Hn Hin. rewrite Hv by done. by apply small_lookup.
Qed.

(** Its blocks 25 to 39 are free. *)
Lemma small_unused V b :
  V !! 23 = Some (small_block 23) -> 0 <= b < 40 ->
  is_unused small_sb V b <-> 25 <= b.
Proof.
  intros HV Hb. unfold is_unused.
  assert (BBLOCK b small_sb = 23) as ->.
  { unfold BBLOCK. change BPB with 4096. rewrite Z.div_small by lia. done. }
  rewrite (blk_Some _ _ _ HV), Z.mod_small by (change BPB with 4096; lia).
  assert (forallb (fun b => Bool.eqb (bit_clear (small_block 23) (Z.to_nat b)) (25 <=? b))
    (seqZ 0 40) = true) as H by (by vm_compute).
  rewrite forallb_forall in H. specialize (H b). rewrite Bool.eqb_true_iff in H.
  rewrite H by (apply list_elem_of_In, elem_of_seqZ; lia). lia.
Qed.

Lemma small_bitmap V : V !! 23 = Some (small_block 23) -> bitmap_ok small_sb 2 20 40 V.
Proof.
  intros HV.
  assert (forall b, 0 <= b < 40 -> BBLOCK b small_sb = 23) as HB.
  { intros b Hb. unfold BBLOCK. change BPB with 4096. rewrite Z.div_small by lia. done. }
  assert (forall n, 0 <= n < 8 -> IBLOCK n small_sb = 22) as HI.
  { intros n Hn. unfold IBLOCK. change IPB with 8. rewrite Z.div_small by lia. done. }
  split; cbn.
  - lia.
  - intros b Hb. rewrite HB by done. unfold fs_block, in_log. lia.
  - intros n Hn. rewrite HI by done. split; [unfold fs_block, in_log; lia|].
    intros b Hb. rewrite HB by done. lia.
  - intros b Hb Hu. apply small_unused in Hu; [|done|done].
    unfold data_block. cbn. split; [unfold fs_block, in_log; lia|]. split; [lia|]. split.
    + intros b' Hb'. rewrite HB by done. lia.
    + intros n Hn. rewrite HI by done. lia.
Qed.

Lemma small_alloc_ok room s c :
  txn 2 20 s c [] -> c_busy c = ∅ -> c_size c = 40 -> sb s = small_sb ->
  (forall n, 0 <= n < 40 -> ~ in_log 2 20 n -> c_view c !! n = Some (small_block n)) ->
  (room < 20)%nat -> alloc_ok 2 20 small_sb room s c [].
Proof.
  intros T Hb Hs Hk Hv Hr. split; try done.
  - rewrite Hs. apply small_bitmap, Hv; unfold in_log; lia.
  - intros n. rewrite Hb, lookup_empty. by intros [].
  - cbn. lia.
  - rewrite Hb, map_size_empty. change NBUF with 30%nat. cbn. lia.
Qed.

Lemma balloc_fresh_witness : exists s c,
  is_unused small_sb (c_view c) 30 /\
  wp (balloc 1) s (fun b s' => is_unused small_sb (c_view c) b).
Proof.
  destruct small_fs_begun as (s & c & T & Hb & Hs & Hk & _ & _ & _ & _ & Hv).
  assert (is_unused small_sb (c_view c) 30) as Hu.
  { apply small_unused; [apply Hv; unfold in_log; lia|lia|lia]. }
  exists s, c. split; [done|].
  eapply wp_mono; [apply (balloc_fresh 2 20 small_sb s c [] 30)|].
  - apply small_alloc_ok; [done..|lia].
  - cbn. lia.
  - done.
  - by intros b s' (c' & bs' & _ & _ & _ & H & _).
Defined.

Lemma bfree_frees_witness : exists s c,
  ~ is_unused small_sb (c_view c) 24 /\
  wp (bfree 1 24) s (fun _ s' => exists c' bs', txn 2 20 s' c' bs' /\
    is_unused small_sb (c_view c') 24).
Proof.
  destruct small_fs_begun as (s & c & T & Hb & Hs & Hk & _ & _ & _ & _ & Hv).
  assert (~ is_unused small_sb (c_view c) 24) as Hu.
  { rewrite small_unused; [lia|apply Hv; unfold in_log; lia|lia]. }
  exists s, c. split; [done|].
  eapply wp_mono; [apply (bfree_frees 2 20 small_sb s c [] 24)|].
  - apply small_alloc_ok; [done..|lia].
  - unfold blk. rewrite (Hv 1) by (unfold in_log; lia). by vm_compute.
  - cbn. lia.
  - done.
  - intros ? s' (c' & bs' & T' & _ & H & _). exists c', bs'. split; [done|]. apply H; [cbn; lia|by right].
Defined.
