(* ===== verification/Content.v ===== *)
(** * File contents

    The bytes of a file, given by the addresses in its inode and in its
    indirect block, and the theorems that [bmap], [readi], [writei] and
    [iupdate] of fs.c implement reading and writing of that byte array inside
    a transaction, without disturbing any other file. *)

From S2P Require Import Prelude Bytes Cstring Kstate Sync Disk Bio Cache Log Commit Crash Txn Fs Dinode Alloc.
Import Str.
Local Open Scope Z_scope.

(** ** Block addresses

    Slots 0 to 11 are the direct addresses, slot 12 is the indirect block,
    slot [13 + i] is entry [i] of the indirect block. *)
Definition NSLOT : nat := 141.

Definition slot_addr (V : gmap Z block) (ip : inode) (j : nat) : Z :=
  if (j <=? 12)%nat then addr_at ip j
  else if addr_at ip 12 =? 0 then 0
  else get32 (blk V (addr_at ip 12)) (4 * (j - 13)).

(** The slot of block [bn] of the file. *)
Definition slot_of (bn : Z) : nat :=
  if bn <? NDIRECT then Z.to_nat bn else S (Z.to_nat bn).

(** Block [bn] of the file; blocks that are not allocated read as zero. *)
Definition file_block (V : gmap Z block) (ip : inode) (bn : Z) : block :=
  let a := slot_addr V ip (slot_of bn) in
  if a =? 0 then zero_block else blk V a.

Definition file_byte (V : gmap Z block) (ip : inode) (off : Z) : Z :=
  byte_at (file_block V ip (off / BSIZE)) (Z.to_nat (off mod BSIZE)).

Lemma get32_zero off : get32 zero_block off = 0.
Proof.
  unfold get32, slice, zero_block. rewrite drop_replicate, take_replicate.
  induction (4 `min` (512 - off))%nat as [|n IH]; [done|]. cbn [replicate le_value]. lia.
Qed.

Lemma addr_at_set ip j v j' :
  length (i_addrs ip) = 13%nat -> (j <= 12)%nat ->
  addr_at (set_i_addrs (<[j := v]> (i_addrs ip)) ip) j' =
    if decide (j' = j) then v else addr_at ip j'.
Proof.
  intros Hl Hj. unfold addr_at. cbn [i_addrs set_i_addrs]. case_decide as Hd.
  - subst. by rewrite list_lookup_insert_eq by lia.
  - by rewrite list_lookup_insert_ne.
Qed.

Section Content.
Context (k : superblock) (start size dsize : Z).

(** The addresses of an inode are used data blocks, each in one place. *)
Record inode_ok (V : gmap Z block) (ip : inode) : Prop := {
  no_dev : i_dev ip = 1;
  no_len : length (i_addrs ip) = 13%nat;
  no_slot j : (j < NSLOT)%nat -> slot_addr V ip j <> 0 ->
    data_block k start size dsize (slot_addr V ip j) /\
    ~ is_unused k V (slot_addr V ip j);
  no_inj j j' : (j < NSLOT)%nat -> (j' < NSLOT)%nat -> slot_addr V ip j <> 0 ->
    slot_addr V ip j = slot_addr V ip j' -> j = j'
}.

(** [V'], [ip']: the file system and the inode after some blocks were added to
    the file; the contents of the file and of every other file are the same. *)
Record grown (V : gmap Z block) (ip : inode) (V' : gmap Z block) (ip' : inode) : Prop := {
  gr_ok : inode_ok V' ip';
  gr_map : bitmap_ok k start size dsize V';
  gr_same : ip' = set_i_addrs (i_addrs ip') ip;
  gr_slots j : (j < NSLOT)%nat -> slot_addr V ip j <> 0 ->
    slot_addr V' ip' j = slot_addr V ip j;
  gr_fresh j : (j < NSLOT)%nat -> slot_addr V ip j = 0 -> slot_addr V' ip' j <> 0 ->
    is_unused k V (slot_addr V' ip' j);
  gr_blocks bn : 0 <= bn < MAXFILE -> file_block V' ip' bn = file_block V ip bn;
  gr_others n : data_block k start size dsize n -> ~ is_unused k V n ->
    n <> addr_at ip 12 -> V' !! n = V !! n;
  gr_used n : 0 <= n < sb_size k -> ~ is_unused k V n -> ~ is_unused k V' n;
  gr_inodes inum : 0 <= inum < sb_ninodes k -> V' !! IBLOCK inum k = V !! IBLOCK inum k
}.

Lemma slot_of_bound bn : 0 <= bn < MAXFILE -> (slot_of bn < NSLOT)%nat /\ slot_of bn <> 12%nat.
Proof.
  unfold slot_of, NSLOT. change MAXFILE with 140. change NDIRECT with 12.
  destruct (Z.ltb_spec bn 12); lia.
Qed.

Lemma slot_of_inj bn bn' : 0 <= bn -> 0 <= bn' -> slot_of bn = slot_of bn' -> bn = bn'.
Proof.
  unfold slot_of. change NDIRECT with 12.
  destruct (Z.ltb_spec bn 12), (Z.ltb_spec bn' 12); lia.
Qed.

Lemma grown_refl V ip : inode_ok V ip -> bitmap_ok k start size dsize V -> grown V ip V ip.
Proof. intros H1 H2. split; try done. by destruct ip. Qed.

Lemma data_block_range n : data_block k start size dsize n -> 0 <= n < sb_size k /\ 2 <= n.
Proof. intros ((H1 & _) & H2 & _). lia. Qed.

Lemma grown_trans V1 ip1 V2 ip2 V3 ip3 :
  inode_ok V1 ip1 -> grown V1 ip1 V2 ip2 -> grown V2 ip2 V3 ip3 -> grown V1 ip1 V3 ip3.
Proof.
  intros H1 G1 G2. split; try apply G2.
  - rewrite (gr_same _ _ _ _ G2), (gr_same _ _ _ _ G1). by destruct ip1.
  - intros j Hj Hs. pose proof (gr_slots _ _ _ _ G1 j Hj Hs) as E.
    rewrite (gr_slots _ _ _ _ G2 j Hj); [done|]. by rewrite E.
  - intros j Hj Hs Hs3. destruct (decide (slot_addr V2 ip2 j = 0)) as [H0|H0].
    + pose proof (gr_fresh _ _ _ _ G2 j Hj H0 Hs3) as Hu.
      destruct (no_slot _ _ (gr_ok _ _ _ _ G2) j Hj Hs3) as [Hd _].
      destruct (decide (bit_clear (blk V1 (BBLOCK (slot_addr V3 ip3 j) k))
        (Z.to_nat (slot_addr V3 ip3 j mod BPB)) = true)) as [|Hn]; [done|].
      exfalso. eapply (gr_used _ _ _ _ G1); [by apply data_block_range|exact Hn|done].
    + rewrite (gr_slots _ _ _ _ G2 j Hj H0). by apply (gr_fresh _ _ _ _ G1).
  - intros bn Hbn. rewrite (gr_blocks _ _ _ _ G2) by done. by apply (gr_blocks _ _ _ _ G1).
  - intros n Hd Hu Hn. pose proof (data_block_range _ Hd) as [Hr _].
    rewrite (gr_others _ _ _ _ G2 n Hd); [by apply (gr_others _ _ _ _ G1)|
      by apply (gr_used _ _ _ _ G1)|].
    intros ->. change (addr_at ip2 12) with (slot_addr V2 ip2 12) in *.
    change (addr_at ip1 12) with (slot_addr V1 ip1 12) in *.
    destruct (decide (slot_addr V1 ip1 12 = 0)) as [H0|H0].
    + apply Hu, (gr_fresh _ _ _ _ G1); [unfold NSLOT; lia|done|].
      destruct Hd as ((? & _) & _). lia.
    + rewrite (gr_slots _ _ _ _ G1) in Hn; [done|unfold NSLOT; lia|done].
  - intros n Hr Hu. apply (gr_used _ _ _ _ G2 n Hr), (gr_used _ _ _ _ G1 n Hr Hu).
  - intros inum Hi. rewrite (gr_inodes _ _ _ _ G2) by done. by apply (gr_inodes _ _ _ _ G1).
Qed.

(** ** One more block *)

(** Block [b], free in [V], becomes the block of slot [j]. *)
Lemma grow_slot V ip V' ip' b j :
  inode_ok V ip -> 0 <= b < sb_size k -> is_unused k V b ->
  data_block k start size dsize b ->
  (j < NSLOT)%nat -> slot_addr V ip j = 0 ->
  (forall j', (j' < NSLOT)%nat ->
     slot_addr V' ip' j' = if decide (j' = j) then b else slot_addr V ip j') ->
  (forall n, 0 <= n < sb_size k -> is_unused k V' n <-> is_unused k V n /\ n <> b) ->
  (forall n, data_block k start size dsize n -> ~ is_unused k V n ->
     n <> addr_at ip 12 -> V' !! n = V !! n) ->
  (forall inum, 0 <= inum < sb_ninodes k -> V' !! IBLOCK inum k = V !! IBLOCK inum k) ->
  bitmap_ok k start size dsize V' -> blk V' b = zero_block ->
  ip' = set_i_addrs (i_addrs ip') ip -> length (i_addrs ip') = 13%nat ->
  grown V ip V' ip'.
Proof.
  intros Hok Hb Hu Hd Hj H0 Hs Hun Hoth Hino Hmap Hz Hip Hlen.
  pose proof (data_block_range _ Hd) as [_ Hb2].
  assert (forall n, 0 <= n < sb_size k -> ~ is_unused k V n -> ~ is_unused k V' n) as Hused.
  { intros n Hn Hv Hv'. apply (Hun n Hn) in Hv' as [? _]. done. }
  split; try done.
  - split; [rewrite Hip; apply Hok|done| |].
    + intros j' Hj'. rewrite Hs by done. case_decide.
      * intros _. split; [done|]. intros Hv. apply (Hun b Hb) in Hv as [_ []]. done.
      * intros Hne. destruct (no_slot _ _ Hok j' Hj' Hne) as [Hd' Hu'].
        split; [done|]. apply Hused; [by apply data_block_range|done].
    + intros j1 j2 Hj1 Hj2. rewrite !Hs by done.
      assert (forall i, (i < NSLOT)%nat -> slot_addr V ip i <> b) as Hnb.
      { intros i Hi He. apply (no_slot _ _ Hok i Hi); [lia|]. by rewrite He. }
      destruct (decide (j1 = j)) as [->|], (decide (j2 = j)) as [->|]; intros Hne He;
        [done|by destruct (Hnb j2)|by destruct (Hnb j1)|by apply (no_inj _ _ Hok)].
  - intros j' Hj' Hne. rewrite Hs by done. case_decide; congruence.
  - intros j' Hj' He. rewrite Hs by done. case_decide; [done|congruence].
  - intros bn Hbn. destruct (slot_of_bound bn Hbn) as [Hsb H12]. unfold file_block.
    rewrite Hs by done. case_decide as Hd'.
    + rewrite (proj2 (Z.eqb_neq b 0)), Hz by lia. rewrite Hd', H0. done.
    + destruct (Z.eqb_spec (slot_addr V ip (slot_of bn)) 0) as [|Hne]; [done|].
      destruct (no_slot _ _ Hok _ Hsb Hne) as [Hd1 Hu1].
      unfold blk. rewrite Hoth; [done|done|done|].
      intros He. change (addr_at ip 12) with (slot_addr V ip 12) in He.
      apply H12. eapply (no_inj _ _ Hok); [done|unfold NSLOT; lia|done|done].
Qed.
Section Grow.
Context (V : gmap Z block) (ip : inode) (b : Z) (j : nat).
Context (Hok : inode_ok V ip) (Hmap : bitmap_ok k start size dsize V).
Context (Hbytes : forall n d, V !! n = Some d -> bytes_ok 512 d).
Context (Hdom : forall n, 0 <= n < dsize -> is_Some (V !! n)).
Context (Hb : 0 <= b < sb_size k) (Hu : is_unused k V b).
Context (H0 : slot_addr V ip j = 0).

(** Used data blocks are not touched by the allocation of [b]. *)
Lemma alloc_keeps n :
  data_block k start size dsize n -> ~ is_unused k V n -> v_alloc k b V !! n = V !! n.
Proof using Hb Hu.
  intros (_ & _ & Hn & _) Hnu. apply v_alloc_other; [by intros ->|by apply Hn].
Qed.

Lemma ind_keeps :
  addr_at ip 12 <> 0 -> v_alloc k b V !! addr_at ip 12 = V !! addr_at ip 12.
Proof using Hok Hb Hu.
  intros Hi. destruct (no_slot _ _ Hok 12) as [Hd Hnu]; [unfold NSLOT; lia|done|].
  by apply alloc_keeps.
Qed.

Lemma alloc_inodes inum :
  0 <= inum < sb_ninodes k -> v_alloc k b V !! IBLOCK inum k = V !! IBLOCK inum k.
Proof using Hmap Hb Hu.
  intros Hi. apply v_alloc_other.
  - destruct (bo_free _ _ _ _ _ Hmap b Hb Hu) as (_ & _ & _ & Hne). by apply not_eq_sym, Hne.
  - destruct (bo_inode _ _ _ _ _ Hmap inum Hi) as [_ Hne]. by apply Hne.
Qed.

Lemma alloc_zero : blk (v_alloc k b V) b = zero_block.
Proof using Type. unfold v_alloc. by rewrite blk_insert, decide_True. Qed.

Lemma grow_direct :
  (j <= 12)%nat ->
  grown V ip (v_alloc k b V) (set_i_addrs (<[j := b]> (i_addrs ip)) ip).
Proof using All.
  intros Hj. pose proof (bo_free _ _ _ _ _ Hmap b Hb Hu) as Hd.
  pose proof (data_block_range _ Hd) as [_ Hb2]. pose proof (no_len _ _ Hok) as Hl.
  eapply (grow_slot _ _ _ _ b j); try done.
  - unfold NSLOT. lia.
  - intros j' Hj'. unfold slot_addr. rewrite !addr_at_set by done.
    destruct (Nat.leb_spec j' 12) as [Hle|Hgt]; [done|].
    rewrite (decide_False (P := j' = j)) by lia.
    destruct (decide (12%nat = j)) as [E|Hne].
    + subst j. rewrite (proj2 (Z.eqb_neq b 0)) by lia. rewrite alloc_zero, get32_zero.
      unfold slot_addr in H0. cbn in H0. by rewrite H0.
    + destruct (Z.eqb_spec (addr_at ip 12) 0) as [|Hi]; [done|].
      unfold blk. by rewrite ind_keeps.
  - intros n Hn. by apply (v_alloc_unused k start size dsize).
  - intros n Hdn Hnu _. by apply alloc_keeps.
  - apply alloc_inodes.
  - by apply v_alloc_ok.
  - apply alloc_zero.
  - cbn. by rewrite length_insert.
Qed.

(** A new entry of the indirect block. *)
Lemma grow_indirect :
  dsize <= 2 ^ 31 -> (12 < j < NSLOT)%nat -> addr_at ip 12 <> 0 ->
  grown V ip
    (<[addr_at ip 12 := put32 (blk V (addr_at ip 12)) (4 * (j - 13)) b]> (v_alloc k b V)) ip.
Proof using All.
  intros Hds Hj Hi. pose proof (bo_free _ _ _ _ _ Hmap b Hb Hu) as Hd.
  pose proof (data_block_range _ Hd) as [_ Hb2].
  destruct (no_slot _ _ Hok 12) as [Hdi Hnu]; [unfold NSLOT; lia|done|].
  change (slot_addr V ip 12) with (addr_at ip 12) in Hdi, Hnu.
  set (ind := addr_at ip 12) in *.
  assert (length (blk V ind) = 512%nat) as Hl.
  { destruct (Hdom ind) as [d Hdd]; [destruct Hdi as ((? & _) & _); lia|].
    rewrite (blk_Some _ _ _ Hdd). by eapply Hbytes. }
  assert (ind <> b) as Hib by (by intros ->).
  assert (forall n, 0 <= n < sb_size k ->
    is_unused k (<[ind := put32 (blk V ind) (4 * (j - 13)) b]> (v_alloc k b V)) n <->
    is_unused k (v_alloc k b V) n) as Hsame.
  { intros n Hn. unfold is_unused. rewrite blk_insert.
    rewrite decide_False by (by apply Hdi). done. }
  pose proof (bo_size _ _ _ _ _ Hmap) as Hsz.
  assert (forall o, (o < 128)%nat -> get32 (put32 (blk V ind) (4 * (j - 13)) b) (4 * o) =
    if decide (o = j - 13)%nat then b else get32 (blk V ind) (4 * o)) as Hget.
  { intros o Ho. case_decide as Hdo; [subst o|].
    - unfold NSLOT in Hj. rewrite get_put32_same by lia. apply u32_small. lia.
    - apply get32_put32_other. lia. }
  eapply (grow_slot _ _ _ _ b j); try done.
  - lia.
  - intros j' Hj'. unfold slot_addr. fold ind.
    destruct (Nat.leb_spec j' 12) as [Hle|Hgt]; [by rewrite decide_False by lia|].
    rewrite (proj2 (Z.eqb_neq ind 0)) by done. rewrite blk_insert, decide_True by done.
    unfold NSLOT in Hj'. rewrite Hget by lia.
    destruct (decide (j' = j)) as [->|]; [by rewrite decide_True|].
    by rewrite decide_False by lia.
  - intros n Hn. rewrite Hsame by done. by apply (v_alloc_unused k start size dsize).
  - intros n Hdn Hnn Hne. rewrite lookup_insert_ne by done. by apply alloc_keeps.
  - intros inum Hinum. rewrite lookup_insert_ne by (by apply Hdi). by apply alloc_inodes.
  - pose proof (v_alloc_ok k start size dsize V b Hmap Hbytes Hdom Hb Hu) as Hm'.
    split; [apply Hm'|apply Hm'|apply Hm'|]. intros n Hn Hnu'.
    apply (bo_free _ _ _ _ _ Hm' n Hn). by apply Hsame.
  - rewrite blk_insert, decide_False by done. apply alloc_zero.
  - by destruct ip.
  - apply Hok.
Qed.
End Grow.
End Content.

(** ** Free blocks left *)
Definition enough_free (k : superblock) (V : gmap Z block) (n : nat) : Prop :=
  exists l, NoDup l /\ (n <= length l)%nat /\
    Forall (fun b => 0 <= b < sb_size k /\ is_unused k V b) l.

Lemma enough_free_some k V n :
  enough_free k V (S n) -> exists b, 0 <= b < sb_size k /\ is_unused k V b.
Proof.
  intros ([|b l] & _ & Hl & Hall); [cbn in Hl; lia|]. inversion Hall; subst. by exists b.
Qed.

Lemma enough_free_less k V n m : enough_free k V n -> (m <= n)%nat -> enough_free k V m.
Proof. intros (l & Hn & Hl & Hall) Hm. exists l. split; [done|]. split; [lia|done]. Qed.

Lemma enough_free_view k V V' n :
  (forall b, 0 <= b < sb_size k -> is_unused k V b -> is_unused k V' b) ->
  enough_free k V n -> enough_free k V' n.
Proof.
  intros H (l & Hn & Hl & Hall). exists l. split; [done|]. split; [done|].
  eapply list.Forall_impl; [done|]. intros b [Hb Hu]. split; [done|]. by apply H.
Qed.
Lemma enough_free_alloc k V V' b n :
  (forall b', 0 <= b' < sb_size k -> is_unused k V b' -> b' <> b -> is_unused k V' b') ->
  enough_free k V (S n) -> enough_free k V' n.
Proof.
  intros H (l & Hn & Hl & Hall). exists (filter (fun x => x <> b) l).
  split; [by apply list.NoDup_filter|]. rewrite list.Forall_forall in Hall. split.
  - destruct (decide (b ∈ l)) as [Hb|Hb].
    + pose proof (filter_ne_length b l Hn Hb). lia.
    + rewrite filter_ne_notin by done. lia.
  - apply list.Forall_forall. intros x [Hx Hin]%list_elem_of_filter.
    destruct (Hall x Hin). eauto.
Qed.

(** ** What the operations on inode [i] leave alone *)
Definition fs_frame (i : nat) (s s' : kstate) : Prop :=
  sb s' = sb s /\ l_outstanding (klog s') = l_outstanding (klog s) /\
  l_committing (klog s') = l_committing (klog s) /\
  forall i', i' <> i -> icache s' !! i' = icache s !! i'.

#[export] Instance fs_frame_preorder i : PreOrder (fs_frame i).
Proof.
  split; [done|]. intros s1 s2 s3 (A1 & A2 & A3 & A4) (B1 & B2 & B3 & B4).
  split; [congruence|]. split; [congruence|]. split; [congruence|].
  intros i' Hi. rewrite B4 by done. by apply A4.
Qed.

Lemma txn_frame_icache s s' : txn_frame s s' -> icache s' = icache s.
Proof. intros [H _]. apply log_frame_fields in H. tauto. Qed.

Lemma txn_fs_frame i s s' : txn_frame s s' -> fs_frame i s s'.
Proof.
  intros H. split; [by apply txn_frame_sb|]. pose proof (txn_frame_icache _ _ H) as Hi.
  destruct H as (_ & ? & ?). split; [done|]. split; [done|]. by rewrite Hi.
Qed.

Lemma icache_fs_frame i ip s : fs_frame i s (set_icache (<[i := ip]> (icache s)) s).
Proof.
  split; [done|]. split; [done|]. split; [done|]. intros i' Hi. cbn.
  by rewrite list_lookup_insert_ne.
Qed.

Lemma txn_icache start size s c bs ic :
  txn start size s c bs -> txn start size (set_icache ic s) c bs.
Proof.
  intros [[C G V S D L E] Z O]. split; [split|..]; try done. by destruct C.
Qed.

Lemma inode_at_runs i ip s : icache s !! i = Some ip -> runs (inode_at i) s ip s.
Proof. intros H e. unfold inode_at, bind, gets. by rewrite H. Qed.

Lemma upd_inode_runs i ip f s :
  icache s !! i = Some ip ->
  runs (upd_inode i f) s tt (set_icache (<[i := f ip]> (icache s)) s).
Proof.
  intros H. unfold upd_inode. eapply runs_bind; [by apply inode_at_runs|]. by intros e.
Qed.

Section Ops.
Context {Dev : BlockDev}.
Context (start size : Z) (k : superblock).

Lemma alloc_ok_less room room' s c bs :
  alloc_ok start size k room s c bs -> (room' <= room)%nat ->
  alloc_ok start size k room' s c bs.
Proof. intros [A B C D E F] Hr. split; try done; lia. Qed.

Lemma alloc_ok_icache room s c bs ic :
  alloc_ok start size k room s c bs -> alloc_ok start size k room (set_icache ic s) c bs.
Proof. intros [A B C D E F]. split; try done. by apply txn_icache. Qed.

Lemma balloc_step room n s c bs :
  alloc_ok start size k (room + 2) s c bs -> enough_free k (c_view c) (S n) ->
  wp (balloc 1) s (fun b s' =>
    0 <= b < sb_size k /\ is_unused k (c_view c) b /\
    alloc_ok start size k room s' (c_alloc k b c) (alloc_logged k b bs) /\
    enough_free k (v_alloc k b (c_view c)) n /\ txn_frame s s').
Proof.
  intros H Hf. destruct (enough_free_some _ _ _ Hf) as (b0 & Hb0 & Hu0).
  eapply wp_mono; [apply (balloc_spec start size k s c bs b0);
    [apply (alloc_ok_less (room + 2)); [done|lia]|done|done]|].
  intros b s' (Hb & Hu & T & F). destruct (ao_view _ _ _ _ _ _ _ H) as [Hbytes Hdom].
  pose proof (ao_map _ _ _ _ _ _ _ H) as Hm.
  pose proof (v_alloc_unused k start size (c_size c) (c_view c) b Hm Hbytes Hdom Hb) as Hun.
  pose proof (logged_length (BBLOCK b k) bs) as L1.
  pose proof (logged_length b (logged (BBLOCK b k) bs)) as L2. fold (alloc_logged k b bs) in L2.
  pose proof (ao_log _ _ _ _ _ _ _ H). pose proof (ao_bufs _ _ _ _ _ _ _ H).
  split; [done|]. split; [done|]. split; [|split; [|done]].
  - split; try done.
    + by rewrite (txn_frame_sb _ _ F), (ao_sb _ _ _ _ _ _ _ H).
    + by apply v_alloc_ok.
    + intros n' Hn'. destruct (ao_busy _ _ _ _ _ _ _ H n' Hn') as [Hd Hnu].
      split; [done|]. intros Hv. apply Hun in Hv as [? _]; [done|done|].
      by apply data_block_range in Hd as [? _].
    + lia.
    + cbn. lia.
  - eapply enough_free_alloc; [|done]. intros b' Hb' Hu' Hne. by apply Hun.
Qed.

(** The state in which inode [i] is read and written. *)
Record file_ok (room : nat) (s : kstate) (c : cache) (bs : list Z) (i : nat) (ip : inode)
  : Prop := {
  fo_alloc : alloc_ok start size k room s c bs;
  fo_busy : c_busy c = ∅;
  fo_inode : icache s !! i = Some ip;
  fo_addrs : inode_ok k start size (c_size c) (c_view c) ip
}.

(** [s'] is [s] after blocks were added to the file. *)
Definition file_grown (room n : nat) (s : kstate) (c : cache) (i : nat) (ip : inode)
    (s' : kstate) (c' : cache) (bs' : list Z) (ip' : inode) : Prop :=
  file_ok room s' c' bs' i ip' /\
  grown k start size (c_size c) (c_view c) ip (c_view c') ip' /\
  enough_free k (c_view c') n /\ c_size c' = c_size c /\ c_disk c' = c_disk c /\
  fs_frame i s s'.

Lemma file_ok_len room s c bs i ip :
  file_ok room s c bs i ip -> (i < length (icache s))%nat.
Proof. intros H. eapply lookup_lt_Some, H. Qed.

Lemma addr_or_alloc_spec room n s c bs i ip j :
  file_ok (room + 2) s c bs i ip -> enough_free k (c_view c) (S n) -> (j <= 12)%nat ->
  wp (addr_or_alloc i j) s (fun a s' => exists c' bs' ip',
    file_grown room n s c i ip s' c' bs' ip' /\ a = addr_at ip' j /\ a <> 0 /\
    (addr_at ip j <> 0 -> ip' = ip)).
Proof.
  intros H Hf Hj. pose proof (fo_alloc _ _ _ _ _ _ H) as Ha. pose proof (fo_addrs _ _ _ _ _ _ H) as Hok.
  unfold addr_or_alloc. eapply wp_bind_runs; [apply inode_at_runs, H|].
  destruct (Z.eqb_spec (addr_at ip j) 0) as [H0|H0].
  - rewrite (no_dev _ _ _ _ _ _ Hok). apply wp_bind.
    eapply wp_mono; [by apply (balloc_step room n)|]. intros b s1 (Hb & Hu & Ha1 & Hf1 & F1).
    pose proof (txn_frame_icache _ _ F1) as Hi1. unfold set_addr. apply wp_bind.
    eapply runs_wp; [apply (upd_inode_runs i ip); rewrite Hi1; apply H|]. apply wp_ret.
    destruct (ao_view _ _ _ _ _ _ _ Ha) as [Hbytes Hdom].
    assert (slot_addr (c_view c) ip j = 0) as Hs0.
    { unfold slot_addr. by rewrite (proj2 (Nat.leb_le _ _)). }
    pose proof (grow_direct k start size (c_size c) (c_view c) ip b j Hok
      (ao_map _ _ _ _ _ _ _ Ha) Hbytes Hdom Hb Hu Hs0 Hj) as G.
    set (ip1 := set_i_addrs _ ip) in *.
    exists (c_alloc k b c), (alloc_logged k b bs), ip1.
    pose proof (data_block_range _ _ _ _ _ (bo_free _ _ _ _ _ (ao_map _ _ _ _ _ _ _ Ha) b Hb Hu)) as [_ Hb2].
    split; [split|].
    + split; [by apply alloc_ok_icache|apply H| |apply G].
      cbn. rewrite Hi1, list_lookup_insert_eq by (by eapply file_ok_len). done.
    + split; [done|]. split; [done|]. split; [done|]. split; [done|].
      etrans; [by apply txn_fs_frame|]. apply icache_fs_frame.
    + unfold ip1. rewrite addr_at_set by (done || apply Hok). rewrite decide_True by done.
      split; [done|]. split; [lia|done].
  - apply wp_ret. exists c, bs, ip. split; [|done]. split; [|split; [|split]].
    + destruct H. split; try done. apply (alloc_ok_less (room + 2)); [done|lia].
    + apply grown_refl; [done|apply Ha].
    + eapply enough_free_less; [done|lia].
    + done.
Qed.
(** A used block of a file is held. *)
Lemma alloc_ok_acquire room s c bs n b s' :
  alloc_ok start size k (S room) s c bs -> c_busy c = ∅ ->
  data_block k start size (c_size c) n -> ~ is_unused k (c_view c) n ->
  txn start size s' (c_acquire n b c) bs -> bio_frame s s' ->
  alloc_ok start size k room s' (c_acquire n b c) bs.
Proof.
  intros [A B C D E F] Hb Hd Hu T Fr. split; try done.
  - by rewrite (txn_frame_sb _ _ (bio_txn_frame _ _ Fr)).
  - intros n' Hn'. cbn in Hn'. rewrite Hb, insert_empty in Hn'.
    destruct (decide (n' = n)) as [->|]; [done|].
    rewrite lookup_singleton_ne in Hn' by done. by destruct Hn'.
  - lia.
  - cbn. rewrite Hb in *. rewrite insert_empty, map_size_singleton, map_size_empty in *. lia.
Qed.

(** A block of the file nobody holds can be read. *)
Lemma slot_readable room s c bs i ip j :
  file_ok (S room) s c bs i ip -> (j < NSLOT)%nat -> slot_addr (c_view c) ip j <> 0 ->
  let a := slot_addr (c_view c) ip j in
  0 <= a < c_size c /\ c_busy c !! a = None /\ (c_inuse c < NBUF)%nat /\
  c_view c !! a = Some (blk (c_view c) a) /\ bytes_ok 512 (blk (c_view c) a) /\
  fs_block start size (c_size c) a.
Proof.
  intros H Hj Ha a. pose proof (fo_alloc _ _ _ _ _ _ H) as Hal.
  destruct (no_slot _ _ _ _ _ _ (fo_addrs _ _ _ _ _ _ H) j Hj Ha) as [[Hfs _] _].
  destruct (ao_view _ _ _ _ _ _ _ Hal) as [Hbytes Hdom]. fold a in Hfs.
  assert (0 <= a < c_size c) as Hr by (destruct Hfs; lia).
  destruct (Hdom a Hr) as [d Hd]. split; [done|]. rewrite (fo_busy _ _ _ _ _ _ H).
  split; [done|]. split; [eapply ao_inuse; [exact Hal|lia]|].
  rewrite (blk_Some _ _ _ Hd). split; [done|]. split; [by eapply Hbytes|done].
Qed.

(** The entry read back from the indirect block. *)
Lemma slot_indirect_insert v ip d j b :
  addr_at ip 12 <> 0 -> (12 < j < NSLOT)%nat -> length d = 512%nat -> 0 <= b < 2 ^ 32 ->
  slot_addr (<[addr_at ip 12 := put32 d (4 * (j - 13)) b]> v) ip j = b.
Proof.
  intros Hi Hj Hd Hb. unfold slot_addr. rewrite (proj2 (Nat.leb_gt _ _)) by lia.
  rewrite (proj2 (Z.eqb_neq _ _)) by done. rewrite blk_insert, decide_True by done.
  unfold NSLOT in Hj. rewrite get_put32_same by lia. by apply u32_small.
Qed.

(** Adding an entry to the indirect block, which the caller holds as [bp]. *)
Lemma new_entry room n s c bs i ip bp s1 j :
  file_ok (room + 4) s c bs i ip -> enough_free k (c_view c) (S n) ->
  addr_at ip 12 <> 0 -> (12 < j < NSLOT)%nat -> slot_addr (c_view c) ip j = 0 ->
  txn start size s1 (c_acquire (addr_at ip 12) bp c) bs -> bio_frame s s1 ->
  wp (let! addr :=
        (let! addr := balloc 1 in
         do upd_data bp (fun d => put32 d (4 * (j - 13)) addr);
         do log_write bp;
         ret addr) in
      do brelse bp; ret addr) s1
    (fun a s' => exists c' bs', file_grown room n s c i ip s' c' bs' ip /\
      a = slot_addr (c_view c') ip j /\ a <> 0).
Proof.
  intros H Hf Hi Hj H0 T1 F1. pose proof (fo_addrs _ _ _ _ _ _ H) as Hok.
  pose proof (fo_alloc _ _ _ _ _ _ H) as Ha. pose proof (fo_busy _ _ _ _ _ _ H) as Hbusy.
  destruct (no_slot _ _ _ _ _ _ Hok 12) as [Hdi Hui]; [unfold NSLOT; lia|done|].
  change (slot_addr (c_view c) ip 12) with (addr_at ip 12) in *.
  set (ind := addr_at ip 12) in *. replace (room + 4)%nat with (S (S room + 2)) in H, Ha by lia.
  pose proof (alloc_ok_acquire _ _ _ _ ind bp s1 Ha Hbusy Hdi Hui T1 F1) as Ha1.
  apply wp_bind, wp_bind. eapply wp_mono; [by apply (balloc_step (S room) n)|].
  intros b s2 (Hb & Hu & Ha2 & Hf2 & F2). change (c_view (c_acquire ind bp c)) with (c_view c) in *.
  destruct (ao_view _ _ _ _ _ _ _ Ha) as [Hbytes Hdom].
  pose proof (ao_map _ _ _ _ _ _ _ Ha) as Hm.
  assert (dsz : c_size c <= 2 ^ 31) by apply Ha.
  pose proof (grow_indirect k start size (c_size c) (c_view c) ip b j Hok Hm Hbytes Hdom Hb Hu
    H0 dsz Hj Hi) as G. fold ind in G.
  destruct (slot_readable (S room + 2) s c bs i ip 12 H) as (Hr & _ & _ & Hd & Hdok & Hfs);
    [unfold NSLOT; lia|done|]. change (slot_addr (c_view c) ip 12) with ind in *.
  assert (c_view (c_alloc k b (c_acquire ind bp c)) !! ind = Some (blk (c_view c) ind)) as Hd2.
  { change (v_alloc k b (c_view c) !! ind = Some (blk (c_view c) ind)).
    etrans; [exact (ind_keeps k start size (c_size c) (c_view c) ip b Hok Hb Hu Hi)|done]. }
  pose proof (ao_txn _ _ _ _ _ _ _ Ha2) as T2.
  apply wp_bind. eapply (txn_store _ _ _ _ _ T2 ind bp _ (blk (c_view c) ind));
    [apply lookup_insert_eq|done|by apply put32_ok|]. intros s3 T3 F3.
  pose proof (ao_log _ _ _ _ _ _ _ Ha2) as Hlog. pose proof (ao_bufs _ _ _ _ _ _ _ Ha2) as Hbf.
  apply wp_bind. eapply (txn_log _ _ _ _ _ T3 ind bp); [apply lookup_insert_eq|done|lia|].
  intros s4 T4 F4. apply wp_ret. apply wp_bind.
  eapply (txn_brelse _ _ _ _ _ T4 ind bp); [apply lookup_insert_eq|left; apply logged_in|].
  intros s5 T5 F5. apply wp_ret.
  set (c5 := c_free ind _) in T5. set (bs5 := logged ind _) in T5. exists c5, bs5.
  assert (c_busy c5 = ∅) as Hb5.
  { unfold c5. cbn. rewrite Hbusy. by rewrite delete_insert_eq, delete_empty. }
  assert (txn_frame s s5) as F.
  { etrans; [by apply bio_txn_frame|]. etrans; [exact F2|].
    etrans; [by apply bio_txn_frame|]. etrans; [exact F4|]. by apply bio_txn_frame. }
  pose proof (logged_length ind (alloc_logged k b bs)) as L. fold bs5 in L.
  assert (c_view c5 = <[ind := put32 (blk (c_view c) ind) (4 * (j - 13)) b]>
    (v_alloc k b (c_view c))) as Hv5 by done.
  assert (slot_addr (c_view c5) ip j = b) as Hsj.
  { rewrite Hv5. pose proof (bo_size _ _ _ _ _ Hm). apply slot_indirect_insert; [done|done|apply Hdok|lia]. }
  pose proof (data_block_range _ _ _ _ _ (bo_free _ _ _ _ _ Hm b Hb Hu)) as [_ Hb2].
  split; [|split; [done|lia]]. split; [split|].
  - split; [done| |apply G| | |].
    + by rewrite (txn_frame_sb _ _ F), (ao_sb _ _ _ _ _ _ _ Ha).
    + intros n'. rewrite Hb5, lookup_empty. by intros [].
    + lia.
    + rewrite Hb5, map_size_empty. lia.
  - done.
  - rewrite (txn_frame_icache _ _ F). apply H.
  - apply G.
  - split; [done|]. split; [|split; [done|split; [done|by apply txn_fs_frame]]].
    eapply enough_free_view; [|exact Hf2]. intros x Hx Hux.
    unfold is_unused in *. rewrite Hv5, blk_insert, decide_False; [done|]. by apply Hdi.
Qed.
Lemma file_ok_less room room' s c bs i ip :
  file_ok room s c bs i ip -> (room' <= room)%nat -> file_ok room' s c bs i ip.
Proof. intros [A B C D] Hr. split; try done. by eapply alloc_ok_less. Qed.

Lemma file_grown_trans room1 n1 room2 n2 s c i ip s1 c1 bs1 ip1 s2 c2 bs2 ip2 :
  inode_ok k start size (c_size c) (c_view c) ip ->
  file_grown room1 n1 s c i ip s1 c1 bs1 ip1 ->
  file_grown room2 n2 s1 c1 i ip1 s2 c2 bs2 ip2 ->
  file_grown room2 n2 s c i ip s2 c2 bs2 ip2.
Proof.
  intros Hok (_ & G1 & _ & S1 & D1 & F1) (O2 & G2 & E2 & S2 & D2 & F2).
  rewrite S1 in G2. split; [done|].
  split; [by eapply grown_trans|]. split; [done|].
  split; [congruence|]. split; [congruence|]. by etrans.
Qed.

(** The first lookup of [bmap]. *)
Lemma bmap_direct room n s c bs i ip bn :
  file_ok (room + 2) s c bs i ip -> enough_free k (c_view c) (S n) -> 0 <= bn < NDIRECT ->
  wp (addr_or_alloc i (Z.to_nat bn)) s (fun a s' => exists c' bs' ip',
    file_grown room n s c i ip s' c' bs' ip' /\
    a = slot_addr (c_view c') ip' (slot_of bn) /\ a <> 0 /\
    (slot_addr (c_view c) ip (slot_of bn) <> 0 -> ip' = ip)).
Proof.
  intros H Hf Hbn. change NDIRECT with 12 in Hbn.
  eapply wp_mono; [apply (addr_or_alloc_spec room n s c bs i ip (Z.to_nat bn)); [done|done|lia]|].
  intros a s' (c' & bs' & ip' & G & -> & Ha & Hsame). exists c', bs', ip'. split; [done|].
  unfold slot_of, slot_addr. rewrite (proj2 (Z.ltb_lt bn NDIRECT)) by (change NDIRECT with 12; lia).
  by rewrite (proj2 (Nat.leb_le _ _)) by lia.
Qed.

(** An entry that the indirect block has already. *)
Lemma old_entry room n s c bs i ip (a : Z) bp s1 x :
  file_ok (room + 4) s c bs i ip -> enough_free k (c_view c) (S n) ->
  txn start size s1 (c_acquire x bp c) bs -> bio_frame s s1 ->
  wp (do brelse bp; ret a) s1 (fun a' s' => a' = a /\ file_grown room n s c i ip s' c bs ip).
Proof.
  intros O Hf T F. pose proof (fo_busy _ _ _ _ _ _ O) as Hb. apply wp_bind.
  eapply (txn_brelse _ _ _ _ _ T x bp); [apply lookup_insert_eq|apply (txn_clean start size s c bs); [apply O|by rewrite Hb]|].
  intros s3 T3 F3. rewrite c_free_acquire in T3 by (by rewrite Hb). apply wp_ret. split; [done|].
  assert (txn_frame s s3) as F' by (etrans; by apply bio_txn_frame). split; [split|].
  - destruct (fo_alloc _ _ _ _ _ _ O) as [A B C D E Z]. split; try done; [by rewrite (txn_frame_sb _ _ F')|lia|lia].
  - done.
  - rewrite (txn_frame_icache _ _ F'). apply O.
  - apply O.
  - split; [apply grown_refl; apply O|]. split; [eapply enough_free_less; [done|lia]|]. split; [done|].
    split; [done|]. by apply txn_fs_frame.
Qed.

(** The two lookups of [bmap]. *)
Lemma bmap_spec room n s c bs i ip bn :
  file_ok (room + 6) s c bs i ip -> enough_free k (c_view c) (n + 2) -> 0 <= bn < MAXFILE ->
  wp (bmap i bn) s (fun a s' => exists c' bs' ip',
    file_grown room n s c i ip s' c' bs' ip' /\
    a = slot_addr (c_view c') ip' (slot_of bn) /\ a <> 0 /\
    (slot_addr (c_view c) ip (slot_of bn) <> 0 -> ip' = ip)).
Proof.
  intros H Hf Hbn. unfold bmap. destruct (Z.ltb_spec bn NDIRECT) as [Hd|Hd].
  { eapply bmap_direct; [eapply file_ok_less; [done|lia]|eapply enough_free_less; [done|lia]|lia]. }
  change MAXFILE with 140 in Hbn. change NDIRECT with 12 in *. change NINDIRECT with 128.
  rewrite (proj2 (Z.ltb_lt _ _)) by lia.
  set (j := slot_of bn). assert (j = S (Z.to_nat bn)) as Hj.
  { unfold j, slot_of. change NDIRECT with 12. by rewrite (proj2 (Z.ltb_ge _ _)) by lia. }
  assert (Z.to_nat (bn - 12) = (j - 13)%nat) as Hoff by lia.
  assert (12 < j < NSLOT)%nat as Hjr by (unfold NSLOT; lia). rewrite Hoff.
  apply wp_bind. eapply wp_mono; [apply (addr_or_alloc_spec (room + 4) (S n) s c bs i ip 12)|].
  { eapply file_ok_less; [done|lia]. } { eapply enough_free_less; [done|lia]. } { done. }
  intros ind s1 (c1 & bs1 & ip1 & G1 & -> & Hi & Hsame). pose proof G1 as (O1 & _ & E1 & _).
  pose proof (fo_addrs _ _ _ _ _ _ H) as Hok.
  destruct (slot_readable (room + 3) s1 c1 bs1 i ip1 12) as (Hr & Hb & Hu & Hv & _);
    [by replace (S (room + 3)) with (room + 4)%nat by lia|unfold NSLOT; lia|done|].
  change (slot_addr (c_view c1) ip1 12) with (addr_at ip1 12) in *.
  eapply wp_bind_runs; [apply inode_at_runs, O1|].
  pose proof (no_dev _ _ _ _ _ _ (fo_addrs _ _ _ _ _ _ O1)) as ->.
  apply wp_bind. apply (txn_bread _ _ _ _ _ (ao_txn _ _ _ _ _ _ _ (fo_alloc _ _ _ _ _ _ O1)) (addr_at ip1 12));
    [done|done|by right|]. intros bp s2 T2 F2. apply wp_bind.
  eapply (wp_buf_data _ _ (addr_at ip1 12) bp); [apply T2|apply lookup_insert_eq|done|].
  assert (get32 (blk (c_view c1) (addr_at ip1 12)) (4 * (j - 13)) =
    slot_addr (c_view c1) ip1 j) as ->.
  { unfold slot_addr. rewrite (proj2 (Nat.leb_gt _ _)) by lia.
    by rewrite (proj2 (Z.eqb_neq _ _)) by done. }
  assert (slot_addr (c_view c) ip j <> 0 -> ip1 = ip) as Hsame'.
  { intros Hs. apply Hsame. intros E. apply Hs. unfold slot_addr.
    rewrite (proj2 (Nat.leb_gt _ _)) by lia. by rewrite E. }
  destruct (Z.eqb_spec (slot_addr (c_view c1) ip1 j) 0) as [H0|H0].
  - eapply wp_mono; [by apply (new_entry room n s1 c1 bs1 i ip1 bp s2 j)|].
    intros a s' (c' & bs' & G2 & Ha & Ha0). exists c', bs', ip1. split; [|done].
    by eapply file_grown_trans.
  - apply wp_bind, wp_ret. eapply wp_mono; [by apply (old_entry room n s1 c1 bs1 i ip1 _ bp s2 (addr_at ip1 12))|].
    intros a s' [-> G2]. exists c1, bs1, ip1. split; [|done]. by eapply file_grown_trans.
Qed.

(** ** Writing *)

Lemma byte_at_splice d off src x :
  (off + length src <= length d)%nat ->
  byte_at (splice d off src) x =
    if decide (off <= x < off + length src)%nat then byte_at src (x - off) else byte_at d x.
Proof. intros H. unfold byte_at. rewrite splice_lookup by done. by case_decide. Qed.

(** Block [bn] has one of the bytes [off, off + len). *)
Definition touched (off len bn : Z) : Prop :=
  0 < len /\ bn * BSIZE < off + len /\ off < (bn + 1) * BSIZE.

(** Bytes [off, off + len) of the file are replaced by [src]. *)
Record rewritten (dsize off len : Z) (src : list Z) (V : gmap Z block) (ip : inode)
    (V' : gmap Z block) (ip' : inode) : Prop := {
  rw_ok : inode_ok k start size dsize V' ip';
  rw_map : bitmap_ok k start size dsize V';
  rw_same : ip' = set_i_addrs (i_addrs ip') ip;
  rw_bytes o : 0 <= o < MAXFILE * BSIZE ->
    file_byte V' ip' o =
      if decide (off <= o < off + len) then byte_at src (Z.to_nat (o - off))
      else file_byte V ip o;
  rw_others n : data_block k start size dsize n -> ~ is_unused k V n ->
    (forall j, (j < NSLOT)%nat -> n <> slot_addr V ip j) -> V' !! n = V !! n;
  rw_used n : 0 <= n < sb_size k -> ~ is_unused k V n -> ~ is_unused k V' n;
  rw_inodes inum : 0 <= inum < sb_ninodes k -> V' !! IBLOCK inum k = V !! IBLOCK inum k;
  rw_mapped bn : 0 <= bn < MAXFILE ->
    slot_addr V ip (slot_of bn) <> 0 \/ touched off len bn ->
    slot_addr V' ip' (slot_of bn) <> 0;
  rw_addrs :
    (forall bn, 0 <= bn < MAXFILE -> touched off len bn ->
       slot_addr V ip (slot_of bn) <> 0) -> ip' = ip
}.

(** One block of the file is overwritten. *)
Section Overwrite.
Context (dsize : Z) (V : gmap Z block) (ip : inode) (bn : Z) (d : block).
Context (Hok : inode_ok k start size dsize V ip).
Context (Hbn : 0 <= bn < MAXFILE).
Let a := slot_addr V ip (slot_of bn).
Context (Ha : slot_addr V ip (slot_of bn) <> 0).

Lemma overwrite_slots j : (j < NSLOT)%nat -> slot_addr (<[a := d]> V) ip j = slot_addr V ip j.
Proof using All.
  intros Hj. unfold slot_addr. destruct (j <=? 12)%nat; [done|].
  destruct (Z.eqb_spec (addr_at ip 12) 0) as [|Hi]; [done|].
  rewrite blk_insert, decide_False; [done|]. intros E.
  destruct (slot_of_bound bn Hbn) as [Hs H12]. apply H12.
  eapply (no_inj _ _ _ _ _ _ Hok); [done|unfold NSLOT; lia|done|exact E].
Qed.

Lemma overwrite_unused n : 0 <= n < sb_size k -> is_unused k (<[a := d]> V) n <-> is_unused k V n.
Proof using All.
  intros Hn. unfold is_unused. rewrite blk_insert, decide_False; [done|].
  destruct (slot_of_bound bn Hbn) as [Hs _].
  destruct (no_slot _ _ _ _ _ _ Hok _ Hs Ha) as [(_ & _ & Hd & _) _]. by apply Hd.
Qed.

Lemma overwrite_ok : inode_ok k start size dsize (<[a := d]> V) ip.
Proof using All.
  split; [apply Hok|apply Hok| |].
  - intros j Hj. rewrite overwrite_slots by done. intros Hne.
    destruct (no_slot _ _ _ _ _ _ Hok j Hj Hne) as [Hd Hu]. split; [done|].
    rewrite overwrite_unused; [done|]. by apply data_block_range in Hd as [? _].
  - intros j j' Hj Hj'. rewrite !overwrite_slots by done. by apply (no_inj _ _ _ _ _ _ Hok).
Qed.

Lemma overwrite_map : bitmap_ok k start size dsize V -> bitmap_ok k start size dsize (<[a := d]> V).
Proof using All.
  intros Hm. split; try apply Hm. intros b Hb Hu. apply (bo_free _ _ _ _ _ Hm b Hb).
  by apply overwrite_unused.
Qed.

Lemma overwrite_block bn' :
  0 <= bn' < MAXFILE ->
  file_block (<[a := d]> V) ip bn' = if decide (bn' = bn) then d else file_block V ip bn'.
Proof using All.
  intros Hbn'. destruct (slot_of_bound bn' Hbn') as [Hs' _]. unfold file_block.
  destruct (slot_of_bound bn Hbn) as [Hs _]. rewrite overwrite_slots by done.
  case_decide as Hd.
  - subst bn'. fold a. rewrite (proj2 (Z.eqb_neq a 0)) by done. by rewrite blk_insert, decide_True.
  - destruct (Z.eqb_spec (slot_addr V ip (slot_of bn')) 0) as [|Hne]; [done|].
    rewrite blk_insert, decide_False; [done|]. intros E. apply Hd.
    apply slot_of_inj; [lia|lia|]. symmetry.
    eapply (no_inj _ _ _ _ _ _ Hok); [done|done|done|exact E].
Qed.
End Overwrite.
Lemma rewritten_nil dsize off src V ip :
  inode_ok k start size dsize V ip -> bitmap_ok k start size dsize V ->
  rewritten dsize off 0 src V ip V ip.
Proof.
  intros Hok Hm. split; try done.
  - by destruct ip.
  - intros o Ho. by rewrite decide_False by lia.
  - intros bn Hbn [H|[H _]]; [done|lia].
Qed.

(** One pass of the loop of [writei], then the rest. *)
Section Pass.
Context (dsize off len m : Z) (src : list Z).
Context (V : gmap Z block) (ip : inode) (V1 : gmap Z block) (ip1 : inode).
Context (V3 : gmap Z block) (ip3 : inode).
Let bn := off / BSIZE.
Let a := slot_addr V1 ip1 (slot_of bn).
Let V2 := <[a := splice (blk V1 a) (Z.to_nat (off mod BSIZE)) (take (Z.to_nat m) src)]> V1.
Context (Hok : inode_ok k start size dsize V ip).
Context (G : grown k start size dsize V ip V1 ip1).
Context (Ha : slot_addr V1 ip1 (slot_of bn) <> 0).
Context (Hsame : slot_addr V ip (slot_of bn) <> 0 -> ip1 = ip).
Context (Hoff : 0 <= off) (Hend : off + len <= MAXFILE * BSIZE) (Hlen : 0 < len).
Context (Hm : m = Z.min len (BSIZE - off mod BSIZE)).
Context (Hsrc : len <= Z.of_nat (length src)).
Context (Hblk : length (blk V1 a) = 512%nat).
Context (R : rewritten dsize (off + m) (len - m) (drop (Z.to_nat m) src) V2 ip1 V3 ip3).

Lemma pass_facts : 0 <= off mod BSIZE < BSIZE /\ off = bn * BSIZE + off mod BSIZE /\
  0 <= bn < MAXFILE /\ 0 < m <= len /\ off mod BSIZE + m <= BSIZE.
Proof using Hoff Hend Hlen Hm.
  clear -Hoff Hend Hlen Hm. unfold bn. change BSIZE with 512 in *. change MAXFILE with 140 in *.
  pose proof (Z.mod_pos_bound off 512). pose proof (Z.div_mod off 512).
  assert (off / 512 < 140) by (apply Z.div_lt_upper_bound; lia).
  assert (0 <= off / 512) by (apply Z.div_pos; lia). lia.
Qed.

Lemma pass_slots j : (j < NSLOT)%nat -> slot_addr V2 ip1 j = slot_addr V1 ip1 j.
Proof using All.
  intros Hj. apply (overwrite_slots dsize V1 ip1 bn _ (gr_ok _ _ _ _ _ _ _ _ G)); [|done|done].
  apply pass_facts.
Qed.

Lemma pass_not_own n :
  data_block k start size dsize n -> ~ is_unused k V n ->
  (forall j, (j < NSLOT)%nat -> n <> slot_addr V ip j) ->
  forall j, (j < NSLOT)%nat -> n <> slot_addr V1 ip1 j.
Proof using All.
  intros Hd Hu Hn j Hj E. destruct (decide (slot_addr V ip j = 0)) as [H0|H0].
  - destruct (decide (slot_addr V1 ip1 j = 0)) as [H1|H1].
    + pose proof (data_block_range _ _ _ _ _ Hd). lia.
    + apply Hu. rewrite E. by apply (gr_fresh _ _ _ _ _ _ _ _ G).
  - apply (Hn j Hj). rewrite E. by apply (gr_slots _ _ _ _ _ _ _ _ G).
Qed.

Lemma pass_mapped bn' :
  0 <= bn' < MAXFILE -> slot_addr V ip (slot_of bn') <> 0 -> slot_addr V2 ip1 (slot_of bn') <> 0.
Proof using All.
  intros Hb H. destruct (slot_of_bound bn' Hb) as [Hs _]. rewrite pass_slots by done.
  by rewrite (gr_slots _ _ _ _ _ _ _ _ G).
Qed.

Lemma pass_bytes o :
  0 <= o < MAXFILE * BSIZE ->
  file_byte V2 ip1 o =
    if decide (off <= o < off + m) then byte_at src (Z.to_nat (o - off)) else file_byte V ip o.
Proof using All.
  intros Ho. destruct pass_facts as (Hmod & Hdiv & Hbn & Hm1 & Hm2).
  assert (0 <= o / BSIZE < MAXFILE) as Hob.
  { split; [apply Z.div_pos; change BSIZE with 512; lia|].
    apply Z.div_lt_upper_bound; [done|]. lia. }
  unfold file_byte. unfold V2.
  rewrite (overwrite_block dsize V1 ip1 bn _ (gr_ok _ _ _ _ _ _ _ _ G) Hbn Ha) by done.
  pose proof (Z.div_mod o BSIZE) as Hdo. pose proof (Z.mod_pos_bound o BSIZE) as Hmo.
  change BSIZE with 512 in *. destruct (decide (o / 512 = bn)) as [E|E].
  - rewrite byte_at_splice by (rewrite Hblk, length_take; lia). rewrite length_take.
    assert (blk V1 a = file_block V ip bn) as ->.
    { rewrite <- (gr_blocks _ _ _ _ _ _ _ _ G bn Hbn). unfold file_block. fold a.
      by rewrite (proj2 (Z.eqb_neq a 0)). }
    rewrite E. destruct (decide (off <= o < off + m)) as [Hin|Hin].
    + rewrite decide_True by lia. unfold byte_at. rewrite lookup_take_lt by lia.
      do 2 f_equal. lia.
    + by rewrite decide_False by lia.
  - rewrite decide_False by lia. by rewrite (gr_blocks _ _ _ _ _ _ _ _ G).
Qed.

Lemma rewritten_pass : rewritten dsize off len src V ip V3 ip3.
Proof using All.
  destruct pass_facts as (Hmod & Hdiv & Hbn & Hm1 & Hm2).
  assert (forall n, 0 <= n < sb_size k -> ~ is_unused k V n -> ~ is_unused k V2 n) as Hused.
  { intros n Hn Hu Hv.
    apply (overwrite_unused dsize V1 ip1 bn _ (gr_ok _ _ _ _ _ _ _ _ G) Hbn Ha n Hn) in Hv.
    by apply (gr_used _ _ _ _ _ _ _ _ G n). }
  split; try apply R.
  - rewrite (rw_same _ _ _ _ _ _ _ _ R), (gr_same _ _ _ _ _ _ _ _ G). by destruct ip.
  - intros o Ho. rewrite (rw_bytes _ _ _ _ _ _ _ _ R) by done.
    rewrite pass_bytes by done. destruct (decide (off + m <= o < off + m + (len - m))) as [H|H].
    + rewrite decide_True by lia. unfold byte_at. rewrite lookup_drop. do 2 f_equal. lia.
    + destruct (decide (off <= o < off + m)); [by rewrite decide_True by lia|].
      by rewrite decide_False by lia.
  - intros n Hd Hu Hn. pose proof (pass_not_own n Hd Hu Hn) as Hn1.
    rewrite (rw_others _ _ _ _ _ _ _ _ R n Hd).
    + unfold V2. rewrite lookup_insert_ne.
      * apply (gr_others _ _ _ _ _ _ _ _ G n Hd Hu). apply (Hn 12%nat). unfold NSLOT. lia.
      * apply not_eq_sym, Hn1. by apply slot_of_bound.
    + apply Hused; [by apply data_block_range in Hd as [? _]|done].
    + intros j Hj. rewrite pass_slots by done. by apply Hn1.
  - intros n Hn Hu. by apply (rw_used _ _ _ _ _ _ _ _ R), Hused.
  - intros inum Hi. rewrite (rw_inodes _ _ _ _ _ _ _ _ R) by done. unfold V2.
    rewrite lookup_insert_ne; [by apply (gr_inodes _ _ _ _ _ _ _ _ G)|].
    destruct (slot_of_bound bn Hbn) as [Hs _].
    destruct (no_slot _ _ _ _ _ _ (gr_ok _ _ _ _ _ _ _ _ G) _ Hs Ha) as [(_ & _ & _ & Hne) _].
    by apply Hne.
  - intros bn' Hb' Hor. apply (rw_mapped _ _ _ _ _ _ _ _ R bn' Hb').
    destruct (slot_of_bound bn' Hb') as [Hs _].
    unfold touched in *. destruct Hor as [H|(_ & H1 & H2)]; [left; by apply pass_mapped|].
    destruct (decide (bn' = bn)) as [->|Hne]; [left; by rewrite pass_slots|right].
    change BSIZE with 512 in *. nia.
  - intros Hall. assert (ip1 = ip) as E1.
    { apply Hsame, Hall; [done|]. unfold touched. change BSIZE with 512 in *. lia. }
    rewrite <- E1. apply (rw_addrs _ _ _ _ _ _ _ _ R). intros bn' Hb' Ht.
    apply pass_mapped; [done|]. apply Hall; [done|]. unfold touched in *. lia.
Qed.
End Pass.
(** Overwriting a block of the file in the cache and the log. *)
Lemma file_block_update room s c bs i ip bn f (Q : unit -> kstate -> Prop) :
  let a := slot_addr (c_view c) ip (slot_of bn) in
  file_ok (S room) s c bs i ip -> 0 <= bn < MAXFILE -> a <> 0 ->
  bytes_ok 512 (f (blk (c_view c) a)) ->
  (forall s' c' bs', file_ok room s' c' bs' i ip ->
     c_view c' = <[a := f (blk (c_view c) a)]> (c_view c) ->
     c_size c' = c_size c -> c_disk c' = c_disk c -> fs_frame i s s' -> Q tt s') ->
  wp (log_update 1 a f) s Q.
Proof.
  intros a H Hbn Ha Hf HQ. destruct (slot_of_bound bn Hbn) as [Hs _].
  destruct (slot_readable room s c bs i ip (slot_of bn) H Hs Ha)
    as (Hr & Hb & Hu & Hv & Hd & Hfs). fold a in Hr, Hb, Hv, Hd, Hfs.
  pose proof (fo_alloc _ _ _ _ _ _ H) as Hal. pose proof (fo_addrs _ _ _ _ _ _ H) as Hok.
  pose proof (ao_log _ _ _ _ _ _ _ Hal) as Hlog. pose proof (ao_bufs _ _ _ _ _ _ _ Hal) as Hbf.
  eapply wp_mono; [eapply (txn_update start size s c bs a f); [apply Hal|done|done|lia|by right|done|done]|].
  intros [] s' [T F]. pose proof (logged_length a bs) as L.
  apply (HQ s' (c_upd a (f (blk (c_view c) a)) c) (logged a bs));
    [|done|done|done|by apply txn_fs_frame].
  split; [|apply H| |by apply (overwrite_ok (c_size c) (c_view c) ip bn)].
  - split; [done| | | | |].
    + by rewrite (txn_frame_sb _ _ F), (ao_sb _ _ _ _ _ _ _ Hal).
    + apply (overwrite_map (c_size c) (c_view c) ip bn); [done|done|done|apply Hal].
    + intros n Hn. cbn in Hn. rewrite (fo_busy _ _ _ _ _ _ H), lookup_empty in Hn. by destruct Hn.
    + lia.
    + cbn. lia.
  - rewrite (txn_frame_icache _ _ F). apply H.
Qed.

Lemma wp_log_update_bind {A} n f (m : K A) s (Q : A -> kstate -> Prop) :
  wp (log_update 1 n f) s (fun _ s' => wp m s' Q) ->
  wp (let! b := bread 1 n in do upd_data b f; do log_write b; do brelse b; m) s Q.
Proof.
  intros ([] & s1 & H1 & a & s2 & H2 & HQ). exists a, s2. split; [|done].
  intros e. specialize (H1 e). unfold log_update, bind in *.
  destruct (bread 1 n s e) as [b s3 e3|?|?|?|?]; try done.
  destruct (upd_data b f s3 e3) as [? s4 e4|?|?|?|?]; try done.
  destruct (log_write b s4 e4) as [? s5 e5|?|?|?|?]; try done.
  rewrite H1. apply H2.
Qed.


(** A pass that does not end the loop ends at a block. *)
Lemma next_pass_aligned off m : m = BSIZE - off mod BSIZE -> (off + m) mod BSIZE = 0.
Proof.
  intros ->. rewrite (Z.div_mod off BSIZE) at 1 by done.
  replace (BSIZE * (off / BSIZE) + off mod BSIZE + (BSIZE - off mod BSIZE)) with ((off / BSIZE + 1) * BSIZE) by lia. by apply Z.mod_mul.
Qed.

(** The loop of [writei]: [blocks] blocks of the file are touched. *)
Lemma writei_loop_spec fuel room nf blocks s c bs i ip src off n tot :
  file_ok (room + 7 * blocks) s c bs i ip -> enough_free k (c_view c) (nf + 2 * blocks) ->
  0 <= off -> off + (n - tot) <= MAXFILE * BSIZE -> tot <= n ->
  (Z.to_nat (n - tot) <= fuel)%nat -> n - tot <= Z.of_nat (length src) -> Forall is_byte src ->
  n - tot = 0 \/ off mod BSIZE + (n - tot) <= BSIZE * Z.of_nat blocks ->
  wp (writei_loop fuel i src off n tot) s (fun r s' => exists c' bs' ip',
    r = off + (n - tot) /\ file_ok room s' c' bs' i ip' /\
    rewritten (c_size c) off (n - tot) src (c_view c) ip (c_view c') ip' /\
    enough_free k (c_view c') nf /\ c_size c' = c_size c /\ c_disk c' = c_disk c /\
    fs_frame i s s').
Proof.
  revert blocks s c bs ip src off tot. induction fuel as [|fuel IH];
    intros blocks s c bs ip src off tot H Hf Hoff Hend Htot Hfuel Hsrc Hbytes Hblocks;
    cbn [writei_loop]; destruct (Z.ltb_spec tot n) as [Hlt|Hge]; try lia.
  1, 3: cbn [negb]; apply wp_ret; exists c, bs, ip; replace (n - tot) with 0 by lia;
    split; [lia|]; split; [eapply file_ok_less; [done|lia]|];
    split; [apply rewritten_nil; apply H|]; split; [eapply enough_free_less; [done|lia]|done].
  destruct blocks as [|blocks]; [pose proof (Z.mod_pos_bound off BSIZE); change BSIZE with 512 in *; lia|].
  set (bn := off / BSIZE). set (m := Z.min (n - tot) (BSIZE - off mod BSIZE)).
  destruct (pass_facts off (n - tot) m Hoff Hend ltac:(lia) eq_refl) as (Hmod & Hdiv & Hbn & Hm1 & Hm2).
  fold bn in Hdiv, Hbn. cbn [negb]. apply wp_bind.
  eapply wp_mono; [apply (bmap_spec (S (room + 7 * blocks)) (nf + 2 * blocks) s c bs i ip bn)|].
  { eapply file_ok_less; [done|lia]. } { eapply enough_free_less; [done|lia]. } { done. }
  intros a s1 (c1 & bs1 & ip1 & (O1 & G1 & E1 & S1 & D1 & F1) & -> & Ha & Hsame).
  eapply wp_bind_runs; [apply inode_at_runs, O1|].
  rewrite (no_dev _ _ _ _ _ _ (fo_addrs _ _ _ _ _ _ O1)).
  destruct (slot_of_bound bn Hbn) as [Hs _].
  destruct (slot_readable _ s1 c1 bs1 i ip1 (slot_of bn) O1 Hs Ha) as (_ & _ & _ & _ & Hd & _).
  set (a := slot_addr (c_view c1) ip1 (slot_of bn)) in *.
  set (f := fun d : block => splice d (Z.to_nat (off mod BSIZE)) (take (Z.to_nat m) src)).
  assert (bytes_ok 512 (f (blk (c_view c1) a))) as Hfd.
  { apply splice_ok; [done|]. by apply Forall_take. }
  pose proof (file_block_update (room + 7 * blocks) s1 c1 bs1 i ip1 bn f) as Hup.
  cbv zeta in Hup. fold a in Hup.
  apply wp_log_update_bind. apply Hup; [done|done|done|done|]. clear Hup.
  intros s2 c2 bs2 O2 V2 S2 D2 F2. rewrite u32_small by (change MAXFILE with 140 in *;
    change BSIZE with 512 in *; lia).
  eapply wp_mono; [apply (IH blocks s2 c2 bs2 ip1 (drop (Z.to_nat m) src) (off + m) (tot + m) O2)|].
  - eapply enough_free_view; [|exact E1]. intros b Hb Hub. rewrite V2.
    by apply (overwrite_unused (c_size c1) (c_view c1) ip1 bn); [apply O1|..].
  - lia.
  - lia.
  - lia.
  - lia.
  - rewrite length_drop. lia.
  - by apply Forall_drop.
  - destruct (decide (m = n - tot)); [left; lia|right].
    rewrite next_pass_aligned by lia. lia.
  - intros r s' (c' & bs' & ip' & -> & O3 & R & E3 & S3 & D3 & F3). exists c', bs', ip'.
    split; [lia|]. split; [done|]. split; [|split; [done|]].
    + rewrite S2, S1 in R. rewrite V2 in R. replace (n - (tot + m)) with (n - tot - m) in R by lia.
      eapply (rewritten_pass _ _ _ m); [apply H|exact G1|exact Ha|exact Hsame|done|done|lia|done|done|
        apply Hd|exact R].
    + split; [congruence|]. split; [congruence|]. etrans; [exact F1|]. by etrans.
Qed.

(** ** Saving the inode *)

(** The inode block holds [ip]. *)
Definition inode_saved (V : gmap Z block) (ip : inode) : Prop :=
  load_dinode (blk V (IBLOCK (i_inum ip) k)) (dinode_off (i_inum ip)) ip = ip.

(** Storing an inode disturbs no block of a file and no bit of the bitmap. *)
Section InodeBlock.
Context (dsize : Z) (V : gmap Z block) (ip : inode) (inum : Z) (d : block).
Context (Hok : inode_ok k start size dsize V ip) (Hm : bitmap_ok k start size dsize V).
Context (Hi : 0 <= inum < sb_ninodes k).

Lemma iblock_unused n :
  0 <= n < sb_size k -> is_unused k (<[IBLOCK inum k := d]> V) n <-> is_unused k V n.
Proof using Hm Hi.
  intros Hn. unfold is_unused. rewrite blk_insert, decide_False; [done|].
  destruct (bo_inode _ _ _ _ _ Hm inum Hi) as [_ H]. by apply H.
Qed.

Lemma iblock_slots j :
  (j < NSLOT)%nat -> slot_addr (<[IBLOCK inum k := d]> V) ip j = slot_addr V ip j.
Proof using Hok Hi.
  intros Hj. unfold slot_addr. destruct (j <=? 12)%nat; [done|].
  destruct (Z.eqb_spec (addr_at ip 12) 0) as [|H0]; [done|].
  rewrite blk_insert, decide_False; [done|].
  destruct (no_slot _ _ _ _ _ _ Hok 12) as [(_ & _ & _ & H) _]; [unfold NSLOT; lia|done|].
  by apply not_eq_sym, H.
Qed.

Lemma iblock_ok : inode_ok k start size dsize (<[IBLOCK inum k := d]> V) ip.
Proof using All.
  split; [apply Hok|apply Hok| |].
  - intros j Hj. rewrite iblock_slots by done. intros Hne.
    destruct (no_slot _ _ _ _ _ _ Hok j Hj Hne) as [Hd Hu]. split; [done|].
    rewrite iblock_unused; [done|]. by apply data_block_range in Hd as [? _].
  - intros j j' Hj Hj'. rewrite !iblock_slots by done. by apply (no_inj _ _ _ _ _ _ Hok).
Qed.

Lemma iblock_map : bitmap_ok k start size dsize (<[IBLOCK inum k := d]> V).
Proof using Hm Hi.
  split; try apply Hm. intros b Hb Hu. apply (bo_free _ _ _ _ _ Hm b Hb).
  by apply iblock_unused.
Qed.

Lemma iblock_bytes o :
  0 <= o < MAXFILE * BSIZE -> file_byte (<[IBLOCK inum k := d]> V) ip o = file_byte V ip o.
Proof using All.
  intros Ho. unfold file_byte, file_block.
  assert (0 <= o / BSIZE < MAXFILE) as Hob.
  { split; [apply Z.div_pos; change BSIZE with 512; lia|].
    apply Z.div_lt_upper_bound; [done|lia]. }
  destruct (slot_of_bound _ Hob) as [Hs _]. rewrite iblock_slots by done.
  destruct (Z.eqb_spec (slot_addr V ip (slot_of (o / BSIZE))) 0) as [|Hne]; [done|].
  rewrite blk_insert, decide_False; [done|].
  destruct (no_slot _ _ _ _ _ _ Hok _ Hs Hne) as [(_ & _ & _ & H) _].
  by apply not_eq_sym, H.
Qed.
End InodeBlock.

Lemma iupdate_spec room s c bs i ip :
  file_ok (S room) s c bs i ip -> 0 <= i_inum ip < sb_ninodes k -> inode_ranges ip ->
  wp (iupdate i) s (fun _ s' => exists c' bs', file_ok room s' c' bs' i ip /\
    c_view c' = <[IBLOCK (i_inum ip) k :=
      put_dinode (blk (c_view c) (IBLOCK (i_inum ip) k)) (dinode_off (i_inum ip)) ip]> (c_view c) /\
    inode_saved (c_view c') ip /\
    c_size c' = c_size c /\ c_disk c' = c_disk c /\ fs_frame i s s').
Proof.
  intros H Hi Hr. pose proof (fo_alloc _ _ _ _ _ _ H) as Ha.
  pose proof (fo_addrs _ _ _ _ _ _ H) as Hok. pose proof (ao_map _ _ _ _ _ _ _ Ha) as Hm.
  destruct (ao_view _ _ _ _ _ _ _ Ha) as [Hbytes Hdom].
  destruct (bo_inode _ _ _ _ _ Hm _ Hi) as [Hfs _].
  destruct (Hdom (IBLOCK (i_inum ip) k)) as [d Hd]; [destruct Hfs; lia|].
  pose proof (Hbytes _ _ Hd) as Hdok.
  pose proof (ao_log _ _ _ _ _ _ _ Ha) as Hlog. pose proof (ao_bufs _ _ _ _ _ _ _ Ha) as Hbf.
  unfold iupdate. eapply wp_bind_runs; [apply inode_at_runs, H|]. apply wp_bind, wp_gets.
  rewrite (ao_sb _ _ _ _ _ _ _ Ha), (no_dev _ _ _ _ _ _ Hok).
  eapply wp_mono; [eapply (txn_update start size s c bs (IBLOCK (i_inum ip) k)
    (fun d => put_dinode d (dinode_off (i_inum ip)) ip) d); [apply Ha|..|done|by apply put_dinode_ok]|].
  { by rewrite (fo_busy _ _ _ _ _ _ H). } { done. } { lia. }
  { right. eapply ao_inuse; [exact Ha|lia]. }
  rewrite (blk_Some _ _ _ Hd). set (d' := put_dinode d _ ip).
  intros [] s' [T F]. exists (c_upd (IBLOCK (i_inum ip) k) d' c), (logged (IBLOCK (i_inum ip) k) bs).
  pose proof (logged_length (IBLOCK (i_inum ip) k) bs) as L.
  split; [split|split; [done|split; [|split; [done|split; [done|by apply txn_fs_frame]]]]].
  - split; [done| | | |lia|cbn; lia].
    + by rewrite (txn_frame_sb _ _ F), (ao_sb _ _ _ _ _ _ _ Ha).
    + by apply iblock_map.
    + intros n Hn. cbn in Hn. rewrite (fo_busy _ _ _ _ _ _ H), lookup_empty in Hn. by destruct Hn.
  - apply H.
  - rewrite (txn_frame_icache _ _ F). apply H.
  - by apply iblock_ok.
  - unfold inode_saved. change (c_view (c_upd _ d' c)) with (<[IBLOCK (i_inum ip) k := d']> (c_view c)).
    rewrite blk_insert, decide_True by done. unfold d'.
    pose proof (dinode_off_bound (i_inum ip)). rewrite load_put_dinode; [by destruct ip| |done].
    destruct Hdok. lia.
Qed.

(** ** Reading *)

(** Every block below the size of the file is allocated. *)
Definition no_holes (V : gmap Z block) (ip : inode) : Prop :=
  forall bn, 0 <= bn < MAXFILE -> bn * BSIZE < i_size ip -> slot_addr V ip (slot_of bn) <> 0.

Definition file_bytes (V : gmap Z block) (ip : inode) (off len : Z) : list Z :=
  (fun x => file_byte V ip (off + x)) <$> seqZ 0 len.

Lemma file_bytes_app V ip off m n :
  0 <= m -> 0 <= n -> file_bytes V ip off (m + n) = file_bytes V ip off m ++ file_bytes V ip (off + m) n.
Proof.
  intros Hm Hn. unfold file_bytes. rewrite seqZ_app, fmap_app by lia. f_equal.
  apply list_eq. intros j. rewrite !list_lookup_fmap.
  destruct (decide (Z.of_nat j < n)).
  - rewrite !lookup_seqZ_lt by lia. cbn. do 2 f_equal. lia.
  - rewrite !lookup_seqZ_ge by lia. done.
Qed.

Lemma file_bytes_slice V ip off m :
  0 <= off -> 0 <= m -> off mod BSIZE + m <= BSIZE ->
  length (file_block V ip (off / BSIZE)) = 512%nat ->
  slice (file_block V ip (off / BSIZE)) (Z.to_nat (off mod BSIZE)) (Z.to_nat m) =
    file_bytes V ip off m.
Proof.
  intros Hoff Hm Hend Hl. pose proof (Z.mod_pos_bound off BSIZE) as Hmod.
  change BSIZE with 512 in *. apply list_eq. intros j. unfold file_bytes.
  rewrite list_lookup_fmap. destruct (decide (Z.of_nat j < m)) as [Hj|Hj].
  - rewrite lookup_seqZ_lt by lia. rewrite slice_lookup by lia. cbn [fmap option_fmap option_map].
    assert ((off + (0 + Z.of_nat j)) / 512 = off / 512 /\
      (off + (0 + Z.of_nat j)) mod 512 = off mod 512 + Z.of_nat j) as [Hd Hmo].
    { pose proof (Z.div_mod off 512). assert (off + (0 + Z.of_nat j) =
        512 * (off / 512) + (off mod 512 + Z.of_nat j)) as E by lia.
      split; [symmetry; eapply Z.div_unique|symmetry; eapply Z.mod_unique]; [|exact E| |exact E]; lia. }
    unfold file_byte. change BSIZE with 512. rewrite Hd, Hmo. unfold byte_at.
    replace (Z.to_nat (off mod 512 + Z.of_nat j)) with (Z.to_nat (off mod 512) + j)%nat by lia.
    destruct (lookup_lt_is_Some_2 (file_block V ip (off / 512)) (Z.to_nat (off mod 512) + j)) as [x ->];
      [lia|done].
  - rewrite lookup_seqZ_ge by lia. apply lookup_ge_None_2. rewrite slice_length; lia.
Qed.

(** An inode whose file can be read, with nothing held in the cache. *)
Record readable (s : kstate) (c : cache) (i : nat) (ip : inode) : Prop := {
  rd_cache : cache_rep s c;
  rd_busy : c_busy c = ∅;
  rd_inuse : (c_inuse c < NBUF)%nat;
  rd_inode : icache s !! i = Some ip;
  rd_addrs : inode_ok k start size (c_size c) (c_view c) ip
}.

Lemma readable_frame s s' c i ip :
  readable s c i ip -> cache_rep s' c -> bio_frame s s' -> readable s' c i ip.
Proof.
  intros [A B C D E] Hc F. split; try done.
  by destruct (bio_frame_fields _ _ F) as (_ & _ & _ & -> & _).
Qed.

(** Reading block [a] of the file through the cache. *)
Lemma read_slot {A} s c i ip j (m : block -> nat -> K A) (Q : A -> kstate -> Prop) :
  let a := slot_addr (c_view c) ip j in
  readable s c i ip -> (j < NSLOT)%nat -> a <> 0 ->
  bytes_ok 512 (blk (c_view c) a) /\
  ((forall b s1, cache_rep s1 (c_acquire a b c) -> bio_frame s s1 ->
      wp (m (blk (c_view c) a) b) s1 Q) ->
   wp (let! b := bread 1 a in let! d := buf_data b in m d b) s Q).
Proof.
  intros a H Hj Ha. destruct (no_slot _ _ _ _ _ _ (rd_addrs _ _ _ _ H) j Hj Ha) as [[Hfs _] _].
  pose proof (cr_ok _ _ (rd_cache _ _ _ _ H)) as Hco. fold a in Hfs.
  assert (0 <= a < c_size c) as Hr by (destruct Hfs; lia).
  destruct (co_view _ Hco a Hr) as [d Hd]. rewrite (blk_Some _ _ _ Hd).
  split; [by eapply (co_view_bytes _ Hco)|]. intros Hm. apply wp_bind.
  apply (wp_bread s c a); [apply H|done|by rewrite (rd_busy _ _ _ _ H)|right; apply H|].
  intros b s1 R1 F1. apply wp_bind.
  eapply (wp_buf_data s1 _ a b d); [exact R1|apply lookup_insert_eq|done|]. by apply Hm.
Qed.

Lemma release_slot s c i ip j b s1 (Q : unit -> kstate -> Prop) :
  let a := slot_addr (c_view c) ip j in
  readable s c i ip -> cache_rep s1 (c_acquire a b c) -> bio_frame s s1 ->
  (forall s2, readable s2 c i ip -> bio_frame s s2 -> Q tt s2) -> wp (brelse b) s1 Q.
Proof.
  intros a H R1 F1 HQ. pose proof (rd_busy _ _ _ _ H) as Hb.
  eapply (wp_brelse s1 _ a b); [exact R1|apply lookup_insert_eq| |].
  - cbn. destruct (decide (a ∈ c_dirty c)); [by left|right].
    apply (co_clean _ (cr_ok _ _ (rd_cache _ _ _ _ H))); [done|]. by rewrite Hb.
  - intros s2 R2 F2. rewrite c_free_acquire in R2 by (by rewrite Hb).
    assert (bio_frame s s2) by (by etrans). apply HQ; [by eapply readable_frame|done].
Qed.

Lemma bmap_mapped s c i ip bn :
  readable s c i ip -> 0 <= bn < MAXFILE -> slot_addr (c_view c) ip (slot_of bn) <> 0 ->
  wp (bmap i bn) s (fun a s' => a = slot_addr (c_view c) ip (slot_of bn) /\
    readable s' c i ip /\ bio_frame s s').
Proof.
  intros H Hbn Ha. assert (forall j, addr_at ip j <> 0 ->
    runs (addr_or_alloc i j) s (addr_at ip j) s) as Hao.
  { intros j Hj. unfold addr_or_alloc. eapply runs_bind; [apply inode_at_runs, H|].
    rewrite (proj2 (Z.eqb_neq _ _)) by done. apply runs_ret. }
  unfold bmap, slot_of in *. change MAXFILE with 140 in Hbn. change NDIRECT with 12 in *.
  change NINDIRECT with 128. destruct (Z.ltb_spec bn 12) as [Hd|Hd].
  - unfold slot_addr in *. rewrite (proj2 (Nat.leb_le _ _)) in * by lia.
    eapply runs_wp; [by apply Hao|done].
  - rewrite (proj2 (Z.ltb_lt (bn - 12) 128)) by lia.
    assert (addr_at ip 12 <> 0) as Hi.
    { intros E. apply Ha. unfold slot_addr. rewrite E. by rewrite (proj2 (Nat.leb_gt _ _)) by lia. }
    eapply wp_bind_runs; [by apply Hao|]. eapply wp_bind_runs; [apply inode_at_runs, H|].
    rewrite (no_dev _ _ _ _ _ _ (rd_addrs _ _ _ _ H)).
    eapply (read_slot s c i ip 12); [done|unfold NSLOT; lia|done|].
    intros b s1 R1 F1. change (slot_addr (c_view c) ip 12) with (addr_at ip 12) in *.
    assert (get32 (blk (c_view c) (addr_at ip 12)) (4 * Z.to_nat (bn - 12)) =
      slot_addr (c_view c) ip (S (Z.to_nat bn))) as ->.
    { unfold slot_addr. rewrite (proj2 (Nat.leb_gt _ _)) by lia.
      rewrite (proj2 (Z.eqb_neq _ _)) by done. do 2 f_equal. lia. }
    rewrite (proj2 (Z.eqb_neq _ _)) by done. apply wp_bind, wp_ret. apply wp_bind.
    eapply (release_slot s c i ip 12); [done|exact R1|done|].
    intros s2 H2 F2. apply wp_ret. done.
Qed.

(** The loop of [readi] collects the bytes of the file. *)
Lemma readi_loop_spec fuel s c i ip off n tot :
  readable s c i ip -> no_holes (c_view c) ip ->
  0 <= off -> tot <= n -> off + (n - tot) <= i_size ip -> off + (n - tot) <= MAXFILE * BSIZE ->
  (Z.to_nat (n - tot) <= fuel)%nat ->
  wp (readi_loop fuel i off n tot) s (fun r s' =>
    r = file_bytes (c_view c) ip off (n - tot) /\ readable s' c i ip /\ bio_frame s s').
Proof.
  revert s off tot. induction fuel as [|fuel IH]; intros s off tot H Hh Hoff Htot Hsz Hend Hfuel;
    cbn [readi_loop]; destruct (Z.ltb_spec tot n) as [Hlt|Hge]; try lia.
  1, 3: cbn [negb]; apply wp_ret; replace (n - tot) with 0 by lia; done.
  set (bn := off / BSIZE). set (m := Z.min (n - tot) (BSIZE - off mod BSIZE)).
  destruct (pass_facts off (n - tot) m Hoff Hend ltac:(lia) eq_refl) as (Hmod & Hdiv & Hbn & Hm1 & Hm2).
  fold bn in Hdiv, Hbn.
  assert (slot_addr (c_view c) ip (slot_of bn) <> 0) as Ha.
  { apply Hh; [done|]. change BSIZE with 512 in *. lia. }
  destruct (slot_of_bound bn Hbn) as [Hs _]. cbn [negb]. apply wp_bind.
  eapply wp_mono; [by apply (bmap_mapped s c i ip bn)|]. intros a s1 (-> & H1 & F1).
  eapply wp_bind_runs; [apply inode_at_runs, H1|].
  rewrite (no_dev _ _ _ _ _ _ (rd_addrs _ _ _ _ H1)).
  destruct (read_slot s1 c i ip (slot_of bn)
    (fun d bp => do brelse bp;
       let! rest := readi_loop fuel i (u32 (off + m)) n (tot + m) in
       ret (slice d (Z.to_nat (off mod BSIZE)) (Z.to_nat m) ++ rest))
    (fun r s' => r = file_bytes (c_view c) ip off (n - tot) /\ readable s' c i ip /\ bio_frame s s'))
    as [Hd Hread]; [done|done|done|].
  apply Hread. intros b s2 R2 F2. apply wp_bind.
  eapply (release_slot s1 c i ip (slot_of bn)); [done|exact R2|done|]. intros s3 H3 F3.
  rewrite u32_small by (change MAXFILE with 140 in *; change BSIZE with 512 in *; lia).
  apply wp_bind. eapply wp_mono; [apply (IH s3 (off + m) (tot + m) H3 Hh); lia|].
  intros rest s4 (-> & H4 & F4). apply wp_ret.
  assert (blk (c_view c) (slot_addr (c_view c) ip (slot_of bn)) = file_block (c_view c) ip bn) as Hfb.
  { unfold file_block. by rewrite (proj2 (Z.eqb_neq _ _)). }
  rewrite Hfb in Hd |- *. unfold bn. rewrite file_bytes_slice by (try lia; apply Hd).
  split; [|split; [done|]].
  - rewrite <- file_bytes_app by lia. f_equal. lia.
  - etrans; [exact F1|]. by etrans.
Qed.
End Ops.
