(* ===== verification/File.v ===== *)
(** * Open files: file.c, and pipealloc of pipe.c

    The table of open files with its reference counts; reading and writing
    dispatch to pipes and inodes. *)

From stdpp Require Import functions.
From S2P Require Import Prelude Bytes Cstring Kstate Sync Kalloc Pipe Disk Bio Log Fs.
Local Open Scope Z_scope.

Definition file_at (f : nat) : K file :=
  let! t := gets ftable in deref "struct file" (t !! f).

Definition upd_file (f : nat) (g : file -> file) : K unit :=
  let! ff := file_at f in
  modify (fun s => set_ftable (<[f := g ff]> (ftable s)) s).

(** The loop of [filealloc]. *)
Fixpoint file_scan (t : list file) (i : nat) : option nat :=
  match t with
  | [] => None
  | f :: t' => if f_ref f =? 0 then Some i else file_scan t' (S i)
  end.

Definition filealloc : K (option nat) :=
  do acquire FtableLock;
  let! t := gets ftable in
  match file_scan t 0 with
  | Some i =>
      do upd_file i (set_f_ref 1);
      do release FtableLock;
      ret (Some i)
  | None =>
      do release FtableLock;
      ret None
  end.

Definition filedup (f : nat) : K nat :=
  do acquire FtableLock;
  let! ff := file_at f in
  if f_ref ff <? 1 then panic "filedup" else
  do upd_file f (fun ff => set_f_ref (f_ref ff + 1) ff);
  do release FtableLock;
  ret f.

Section File.
Context {Lay : Layout} {Dev : BlockDev} {Sw : DevSw}.

Definition fileclose (f : nat) : K unit :=
  do acquire FtableLock;
  let! ff := file_at f in
  if f_ref ff <? 1 then panic "fileclose" else
  do upd_file f (fun ff => set_f_ref (f_ref ff - 1) ff);
  let! ff := file_at f in
  if 0 <? f_ref ff then release FtableLock else
  do upd_file f (set_f_ref 0);
  do upd_file f (set_f_type FD_NONE);
  do release FtableLock;
  match f_type ff with
  | FD_PIPE => pipeclose (f_pipe ff) (f_writable ff)
  | FD_INODE =>
      do begin_op;
      do iput (f_ip ff);
      end_op
  | FD_NONE => ret tt
  end.

Definition filestat (f : nat) : K (Z * option stat) :=
  let! ff := file_at f in
  match f_type ff with
  | FD_INODE =>
      do ilock (f_ip ff);
      let! st := stati (f_ip ff) in
      do iunlock (f_ip ff);
      ret (0, Some st)
  | _ => ret (-1, None)
  end.

Definition fileread (f : nat) (n : Z) : K (Z * list Z) :=
  let! ff := file_at f in
  if negb (f_readable ff) then ret (-1, []) else
  match f_type ff with
  | FD_PIPE => piperead (f_pipe ff) n
  | FD_INODE =>
      do ilock (f_ip ff);
      let! ff := file_at f in
      let! ' (r, bytes) := readi (f_ip ff) (f_off ff) (u32 n) in
      do when (0 <? r) (upd_file f (fun ff => set_f_off (u32 (f_off ff + r)) ff));
      do iunlock (f_ip ff);
      ret (r, bytes)
  | FD_NONE => panic "fileread"
  end.

(** [max] of [filewrite]: the bytes written in one transaction. *)
Definition FILEWRITE_MAX : Z := ((LOGSIZE - 1 - 1 - 2) / 2) * 512.

(** The loop of [filewrite]; the result is [i] after it. *)
Fixpoint filewrite_loop (fuel f : nat) (addr : list Z) (n i : Z) : K Z :=
  if negb (i <? n) then ret i else
  let n1 := Z.min (n - i) FILEWRITE_MAX in
  do begin_op;
  let! ff := file_at f in
  do ilock (f_ip ff);
  let! ff := file_at f in
  let! r := writei (f_ip ff) (drop (Z.to_nat i) addr) (f_off ff) n1 in
  do when (0 <? r) (upd_file f (fun ff => set_f_off (u32 (f_off ff + r)) ff));
  do iunlock (f_ip ff);
  do end_op;
  if r <? 0 then ret i else
  if negb (r =? n1) then panic "short filewrite" else
  match fuel with O => hang | S k => filewrite_loop k f addr n (i + r) end.

Definition filewrite (f : nat) (addr : list Z) (n : Z) : K Z :=
  let! ff := file_at f in
  if negb (f_writable ff) then ret (-1) else
  match f_type ff with
  | FD_PIPE => pipewrite (f_pipe ff) addr n
  | FD_INODE =>
      let! i := filewrite_loop (Z.to_nat n) f addr n 0 in
      ret (if i =? n then n else -1)
  | FD_NONE => panic "filewrite"
  end.

(** ** pipealloc *)

(** The label [bad] of [pipealloc]. *)
Definition pipealloc_bad (p : Z) (f0 f1 : option nat) : K (option (nat * nat)) :=
  do when (negb (p =? 0)) (kfree p);
  do match f0 with Some f => fileclose f | None => ret tt end;
  do match f1 with Some f => fileclose f | None => ret tt end;
  ret None.

(** A pipe in the page at [p]; [kfree] left every byte of it 1. *)
Definition new_pipe : pipe := mkPipe (replicate (Z.to_nat PIPESIZE) 1) 0 0 true true.

Definition pipealloc : K (option (nat * nat)) :=
  let! f0 := filealloc in
  match f0 with
  | None => pipealloc_bad 0 None None
  | Some a =>
      let! f1 := filealloc in
      match f1 with
      | None => pipealloc_bad 0 (Some a) None
      | Some b =>
          let! p := kalloc in
          if p =? 0 then pipealloc_bad 0 (Some a) (Some b) else
          do modify (fun s => set_pipes (<[p := new_pipe]> (pipes s)) s);
          do upd_file a (fun f => mkFile FD_PIPE (f_ref f) true false p (f_ip f) (f_off f));
          do upd_file b (fun f => mkFile FD_PIPE (f_ref f) false true p (f_ip f) (f_off f));
          ret (Some (a, b))
      end
  end.
End File.

(** ** Reference counts *)

(** The file table and the references held elsewhere: [refs f] is how many
    descriptors refer to file [f]. *)
Definition ftable_ok (t : list file) (refs : nat -> nat) : Prop :=
  forall f ff, t !! f = Some ff -> f_ref ff = Z.of_nat (refs f).

Lemma file_scan_spec t i r :
  file_scan t i = Some r ->
  exists k f, r = (i + k)%nat /\ t !! k = Some f /\ f_ref f = 0 /\
    forall j g, (j < k)%nat -> t !! j = Some g -> f_ref g <> 0.
Proof.
  revert i. induction t as [|f t IH]; intros i; cbn; [done|].
  destruct (Z.eqb_spec (f_ref f) 0) as [H0|H0].
  - intros [= <-]. exists 0%nat, f. split; [lia|]. split; [done|]. split; [done|]. lia.
  - intros (k & g & -> & Hk & Hg & Hlt)%IH. exists (S k), g. split; [lia|].
    split; [done|]. split; [done|]. intros [|j] h Hj Hh; [by injection Hh as <-|].
    eapply Hlt; [|done]. lia.
Qed.

Lemma file_scan_None t i f ff : file_scan t i = None -> t !! f = Some ff -> f_ref ff <> 0.
Proof.
  revert i f. induction t as [|g t IH]; intros i f; cbn; [done|].
  destruct (Z.eqb_spec (f_ref g) 0) as [H0|H0]; [done|].
  intros Hs. destruct f as [|f]; cbn; [by intros [= <-]|]. by eapply IH.
Qed.

Lemma file_at_runs f ff s : ftable s !! f = Some ff -> runs (file_at f) s ff s.
Proof. intros H e. unfold file_at, bind, gets. by rewrite H. Qed.

Lemma upd_file_runs f ff g s :
  ftable s !! f = Some ff ->
  runs (upd_file f g) s tt (set_ftable (<[f := g ff]> (ftable s)) s).
Proof.
  intros H. unfold upd_file. eapply runs_bind; [by apply file_at_runs|]. by intros e.
Qed.

Lemma ftable_ok_insert t refs f ff g n :
  ftable_ok t refs -> t !! f = Some ff -> f_ref g = Z.of_nat n ->
  ftable_ok (<[f := g]> t) (<[f := n]> refs).
Proof.
  intros Ht Hf Hg f' ff'. destruct (decide (f' = f)) as [->|Hne].
  - rewrite list_lookup_insert_eq by (by eapply lookup_lt_Some).
    intros [= <-]. by rewrite fn_lookup_insert.
  - rewrite list_lookup_insert_ne by done. rewrite fn_lookup_insert_ne by done. apply Ht.
Qed.

(** [filealloc] returns a file no descriptor refers to, with one reference,
    and fails only when every file of the table is referred to. *)
Theorem filealloc_fresh s refs :
  ftable_ok (ftable s) refs -> FtableLock ∉ held s ->
  wp filealloc s (fun r s' => held s' = held s /\
    match r with
    | Some f => refs f = 0%nat /\ ftable_ok (ftable s') (<[f := 1%nat]> refs)
    | None => ftable s' = ftable s /\
        forall f, (f < length (ftable s))%nat -> refs f <> 0%nat
    end).
Proof.
  intros Ht Hh. unfold filealloc. apply wp_bind, wp_acquire; [done|].
  apply wp_bind, wp_gets. cbn [ftable set_held].
  destruct (file_scan (ftable s) 0) as [f|] eqn:Hs.
  - destruct (file_scan_spec _ _ _ Hs) as (k & ff & -> & Hk & H0 & _). cbn [Nat.add] in *.
    eapply wp_bind_runs; [by apply (upd_file_runs k ff)|]. apply wp_bind.
    apply (wp_release _ _ (held s)); [done|done|]. apply wp_ret. split; [done|].
    split; [|by apply (ftable_ok_insert _ _ _ ff)].
    pose proof (Ht k ff Hk). lia.
  - apply wp_bind. apply (wp_release _ _ (held s)); [done|done|]. apply wp_ret.
    split; [done|]. split; [done|]. intros f Hf.
    destruct (lookup_lt_is_Some_2 _ _ Hf) as [ff Hff].
    pose proof (file_scan_None _ _ _ _ Hs Hff). pose proof (Ht f ff Hff). lia.
Qed.

(** [filedup] adds exactly one reference. *)
Theorem filedup_counts s refs f :
  ftable_ok (ftable s) refs -> FtableLock ∉ held s ->
  (f < length (ftable s))%nat -> (0 < refs f)%nat ->
  wp (filedup f) s (fun r s' => r = f /\ held s' = held s /\
    ftable_ok (ftable s') (<[f := S (refs f)]> refs)).
Proof.
  intros Ht Hh Hf Hr. destruct (lookup_lt_is_Some_2 _ _ Hf) as [ff Hff].
  pose proof (Ht f ff Hff) as Href. unfold filedup. apply wp_bind, wp_acquire; [done|].
  eapply wp_bind_runs; [by apply (file_at_runs f ff)|]. apply wp_if_false; [lia|].
  eapply wp_bind_runs; [by apply (upd_file_runs f ff)|]. apply wp_bind.
  apply (wp_release _ _ (held s)); [done|done|]. apply wp_ret. split; [done|]. split; [done|].
  apply (ftable_ok_insert _ _ _ ff); [done..|]. cbn. lia.
Qed.

Lemma fileclose_runs `{Layout, BlockDev} f ff s :
  ftable s !! f = Some ff -> 1 < f_ref ff -> FtableLock ∉ held s ->
  runs (fileclose f) s tt (set_ftable (<[f := set_f_ref (f_ref ff - 1) ff]> (ftable s)) s).
Proof.
  intros Hff Hr Hh. unfold fileclose. eapply runs_bind; [by apply acquire_runs|].
  eapply runs_bind; [by apply (file_at_runs f ff)|]. rewrite (proj2 (Z.ltb_ge _ _)) by lia.
  eapply runs_bind; [by apply (upd_file_runs f ff)|]. eapply runs_bind.
  { apply (file_at_runs f (set_f_ref (f_ref ff - 1) ff)). apply list_lookup_insert_eq. by eapply lookup_lt_Some. }
  cbn [f_ref set_f_ref]. rewrite (proj2 (Z.ltb_lt _ _)) by lia. intros e. rewrite (release_runs _ _ (held s)) by done.
  by destruct s.
Qed.

(** [fileclose] of a file with other references only drops one. *)
Theorem fileclose_shared `{Layout, BlockDev} s refs f :
  ftable_ok (ftable s) refs -> FtableLock ∉ held s ->
  (f < length (ftable s))%nat -> (1 < refs f)%nat ->
  wp (fileclose f) s (fun _ s' => s' = set_ftable (ftable s') s /\
    ftable_ok (ftable s') (<[f := (refs f - 1)%nat]> refs)).
Proof.
  intros Ht Hh Hf Hr. destruct (lookup_lt_is_Some_2 _ _ Hf) as [ff Hff]. pose proof (Ht f ff Hff) as Href.
  eapply runs_wp; [apply (fileclose_runs f ff); [done|lia|done]|]. split; [done|].
  apply (ftable_ok_insert _ _ _ ff); [done..|]. cbn. lia.
Qed.

(** ** Examples *)

(** A table of two files, the first one open twice. *)
Definition two_files : list file :=
  [mkFile FD_PIPE 2 true false 4096 0 0; mkFile FD_NONE 0 false false 0 0 0].
Definition two_refs (f : nat) : nat := if (f =? 0)%nat then 2 else 0.
Definition files_state : kstate := set_ftable two_files (reset_state ∅ 0 [] 0).

Lemma two_files_ok : ftable_ok (ftable files_state) two_refs.
Proof. by intros [|[|f]] ff [= <-]. Qed.

Lemma filealloc_fresh_witness :
  wp filealloc files_state (fun r s' => r <> Some 0%nat).
Proof.
  eapply wp_mono; [apply (filealloc_fresh _ two_refs two_files_ok); cbn; set_solver|].
  intros [f|] s' [_ H]; [|done]. intros [= ->]. by destruct H.
Defined.

Lemma filedup_counts_witness :
  wp (filedup 0) files_state (fun r s' =>
    r = 0%nat /\ ftable_ok (ftable s') (<[0%nat := 3%nat]> two_refs)).
Proof.
  eapply wp_mono; [apply (filedup_counts _ two_refs 0 two_files_ok); cbn; [set_solver|lia|lia]|].
  by intros r s' (-> & _ & H).
Defined.

Lemma fileclose_shared_witness :
  wp (fileclose (Lay := small_layout) 0) files_state (fun _ s' =>
    ftable_ok (ftable s') (<[0%nat := 1%nat]> two_refs)).
Proof.
  eapply wp_mono; [apply (fileclose_shared (H := small_layout) _ two_refs 0
    two_files_ok); cbn; [set_solver|lia|lia]|].
  by intros r s' [_ ?].
Defined.
