(* ===== verification/Console.v ===== *)
(** * The console: console.c, uart.c, and procdump of proc.c

    Output goes to the serial line and to the CGA text screen; input comes
    from the keyboard or the serial line into a ring buffer that holds the
    lines already entered and the line being edited. *)

From S2P Require Import Prelude Bytes Cstring Kstate Sync Disk Bio Log Fs.
Import Str.
Local Open Scope Z_scope.

Definition BACKSPACE : Z := 256.
Definition INPUT_BUF : Z := 128.
Definition CONSOLE : Z := 1.

(** The bytes of a string literal. *)
Definition lit (s : string) : list Z :=
  (fun a => Z.of_N (Ascii.N_of_ascii a)) <$> String.list_ascii_of_string s.
Definition nl : Z := 10.

(** [C('D')] and the like. *)
Definition ctrl (x : Z) : Z := x - 64.

(** ** Output *)
Definition upd_console (f : consst -> consst) : K unit :=
  modify (fun s => set_console (f (console s)) s).

Definition uartputc (c : Z) : K unit :=
  upd_console (fun cn =>
    if cn_have_uart cn then set_cn_uart (cn_uart cn ++ [u8 c]) cn else cn).

(** [crt[pos] = v] *)
Definition crt_store (crt : list Z) (pos v : Z) : list Z := <[Z.to_nat pos := v]> crt.

(** The screen and cursor after [cgaputc]; [None] for the panic. *)
Definition cga_step (crt : list Z) (pos c : Z) : option (list Z * Z) :=
  let '(crt, pos) :=
    (if c =? nl then (crt, pos + (80 - pos mod 80))
     else if c =? BACKSPACE then (crt, if 0 <? pos then pos - 1 else pos)
     else (crt_store crt pos (Z.lor (Z.land c 255) 1792), pos + 1)) in
  if (pos <? 0) || (25 * 80 <? pos) then None else
  let '(crt, pos) :=
    (if 24 <=? pos / 80 then
       let crt := splice crt 0 (slice crt 80 (23 * 80)) in
       let pos := pos - 80 in
       (splice crt (Z.to_nat pos) (replicate (Z.to_nat (24 * 80 - pos)) 0), pos)
     else (crt, pos)) in
  Some (crt_store crt pos (Z.lor 32 1792), u16 pos).

Definition cgaputc (c : Z) : K unit :=
  let! cn := gets console in
  match cga_step (cn_crt cn) (cn_pos cn) c with
  | None => panic "pos under/overflow"
  | Some (crt, pos) => upd_console (fun cn => set_cn_crt crt (set_cn_pos pos cn))
  end.

Definition consputc (c : Z) : K unit :=
  let! cn := gets console in
  if cn_panicked cn then hang else
  do (if c =? BACKSPACE then
        do uartputc 8; do uartputc 32; uartputc 8
      else uartputc c);
  cgaputc c.

Fixpoint cputs (s : list Z) : K unit :=
  match s with
  | [] => ret tt
  | c :: s' => do consputc c; cputs s'
  end.

(** [digits[x % base]], least significant digit first; [x] has 32 bits, so
    there are at most 32 digits. *)
Definition digit (d : Z) : Z := byte_at (lit "0123456789abcdef") (Z.to_nat d).

Fixpoint digits_of (fuel : nat) (x base : Z) : list Z :=
  digit (x mod base) ::
    (if x / base =? 0 then [] else
     match fuel with O => [] | S f => digits_of f (x / base) base end).

Definition printint_chars (xx base : Z) (sign : bool) : list Z :=
  let neg := sign && (xx <? 0) in
  let x := if neg then u32 (- xx) else u32 xx in
  let buf := digits_of 31 x base in
  reverse (if neg then buf ++ [45] else buf).

Definition printint (xx base : Z) (sign : bool) : K unit :=
  cputs (printint_chars xx base sign).

(** The variable arguments of [cprintf]: words and string pointers. *)
Inductive parg : Type := AInt (z : Z) | AStr (s : option (list Z)).

Fixpoint cprintf_loop (fmt : list Z) (args : list parg) : K unit :=
  match fmt with
  | [] => ret tt
  | c :: fmt =>
      if c =? 0 then ret tt else
      if negb (c =? 37) then do consputc c; cprintf_loop fmt args else
      match fmt with
      | [] => ret tt
      | c :: fmt =>
          if c =? 0 then ret tt else
          if c =? 100 then
            match args with
            | AInt x :: args => do printint (i32 x) 10 true; cprintf_loop fmt args
            | _ => fault "cprintf: argument"
            end
          else if (c =? 120) || (c =? 112) then
            match args with
            | AInt x :: args => do printint x 16 false; cprintf_loop fmt args
            | _ => fault "cprintf: argument"
            end
          else if c =? 115 then
            match args with
            | AStr s :: args =>
                do cputs (cstr (default (lit "(null)") s));
                cprintf_loop fmt args
            | _ => fault "cprintf: argument"
            end
          else if c =? 37 then do consputc 37; cprintf_loop fmt args
          else
            do consputc 37;
            do consputc c;
            cprintf_loop fmt args
      end
  end.

Definition cprintf (fmt : list Z) (args : list parg) : K unit :=
  let! cn := gets console in
  let locking := cn_locking cn in
  do when locking (acquire ConsLock);
  do cprintf_loop fmt args;
  when locking (release ConsLock).

(** ** procdump *)
Definition state_name (st : procstate) : list Z :=
  match st with
  | UNUSED => lit "unused" | EMBRYO => lit "embryo" | SLEEPING => lit "sleep "
  | RUNNABLE => lit "runble" | RUNNING => lit "run   " | ZOMBIE => lit "zombie"
  end.

(** [for(i=0; i<10 && pc[i] != 0; i++) cprintf(" %p", pc[i]);] *)
Fixpoint dump_pcs (n : nat) (pc : list Z) : K unit :=
  match n, pc with
  | S n', x :: pc' =>
      if x =? 0 then ret tt else
      do cprintf (lit " %p") [AInt x]; dump_pcs n' pc'
  | _, _ => ret tt
  end.

(** [callerpcs i]: what [getcallerpcs] finds on the stack of process [i]. *)
Definition procdump (callerpcs : nat -> list Z) : K unit :=
  mfor NPROC 0 (fun i =>
    let! p := proc_at i in
    if bool_decide (p_state p = UNUSED) then ret tt else
    do cprintf (lit "%d %s %s")
         [AInt (p_pid p); AStr (Some (state_name (p_state p))); AStr (Some (p_name p))];
    do when (bool_decide (p_state p = SLEEPING)) (dump_pcs 10 (callerpcs i));
    cprintf [nl] []).

(** ** Input *)
Definition upd_input (f : inputst -> inputst) : K unit :=
  modify (fun s => set_input (f (input s)) s).

Definition in_at (inp : inputst) (k : Z) : Z :=
  byte_at (in_buf inp) (Z.to_nat (u32 k mod INPUT_BUF)).

(** [C('U')]: erase back to the start of the line; the fuel is the length of
    the unfinished line. *)
Fixpoint kill_line (fuel : nat) : K unit :=
  let! inp := gets input in
  if negb (in_e inp =? in_w inp) && negb (in_at inp (in_e inp - 1) =? nl) then
    do upd_input (fun inp => set_in_e (u32 (in_e inp - 1)) inp);
    do consputc BACKSPACE;
    match fuel with O => hang | S f => kill_line f end
  else ret tt.

(** The default case: one more character of the line. *)
Definition input_char (c : Z) : K unit :=
  let! inp := gets input in
  when (negb (c =? 0) && (u32 (in_e inp - in_r inp) <? INPUT_BUF))
    (let c := if c =? 13 then nl else c in
     do upd_input (fun inp =>
          set_in_e (u32 (in_e inp + 1))
            (set_in_buf (<[Z.to_nat (in_e inp mod INPUT_BUF) := u8 c]> (in_buf inp)) inp));
     do consputc c;
     let! inp := gets input in
     when ((c =? nl) || (c =? ctrl 68) || (in_e inp =? u32 (in_r inp + INPUT_BUF)))
       (do upd_input (fun inp => set_in_w (in_e inp) inp);
        wakeup ChInput)).

(** One pass of the loop of [consoleintr], except for [C('P')]. *)
Definition console_key (c : Z) : K unit :=
  if c =? ctrl 80 then ret tt
  else if c =? ctrl 85 then
    let! inp := gets input in
    kill_line (Z.to_nat (u32 (in_e inp - in_w inp)))
  else if (c =? ctrl 72) || (c =? 127) then
    let! inp := gets input in
    when (negb (in_e inp =? in_w inp))
      (do upd_input (fun inp => set_in_e (u32 (in_e inp - 1)) inp);
       consputc BACKSPACE)
  else input_char c.

Fixpoint console_keys (cs : list Z) : K unit :=
  match cs with
  | [] => ret tt
  | c :: cs' => do console_key c; console_keys cs'
  end.

(** [cs]: what [getc] returns before its first negative result. *)
Definition consoleintr (callerpcs : nat -> list Z) (cs : list Z) : K unit :=
  do acquire ConsLock;
  do console_keys cs;
  do release ConsLock;
  when (existsb (fun c => c =? ctrl 80) cs) (procdump callerpcs).

(** [bytes]: what the serial line has received. *)
Definition uartintr (callerpcs : nat -> list Z) (bytes : list Z) : K unit :=
  let! cn := gets console in
  consoleintr callerpcs (if cn_have_uart cn then bytes else []).

Section Console.
Context {Dev : BlockDev}.

(** [while(input.r == input.w)]: [true] when the process was killed. *)
Fixpoint consoleread_wait (fuel : nat) : K bool :=
  let! inp := gets input in
  if in_r inp =? in_w inp then
    let! p := myproc in
    if p_killed p then ret true else
    do sleep ChInput ConsLock;
    match fuel with O => hang | S f => consoleread_wait f end
  else ret false.

(** The loop of [consoleread]: whether the process was killed, and the bytes
    stored at [dst]; the fuel is [n]. *)
Fixpoint consoleread_loop (fuel : nat) (n target : Z) : K (bool * list Z) :=
  if negb (0 <? n) then ret (false, []) else
  let! k := pending in
  let! killed := consoleread_wait k in
  if killed then ret (true, []) else
  let! inp := gets input in
  let c := in_at inp (in_r inp) in
  do upd_input (fun inp => set_in_r (u32 (in_r inp + 1)) inp);
  if c =? ctrl 68 then
    do when (u32 n <? target)
         (upd_input (fun inp => set_in_r (u32 (in_r inp - 1)) inp));
    ret (false, [])
  else if c =? nl then ret (false, [c])
  else
    match fuel with
    | O => hang
    | S f =>
        let! ' (killed, cs) := consoleread_loop f (n - 1) target in
        ret (killed, c :: cs)
    end.

Definition consoleread (ip : nat) (n : Z) : K (Z * list Z) :=
  do iunlock ip;
  do acquire ConsLock;
  let! ' (killed, cs) := consoleread_loop (Z.to_nat n) n (u32 n) in
  do release ConsLock;
  do ilock ip;
  ret (if killed then -1 else Z.of_nat (length cs), cs).

Definition consolewrite (ip : nat) (buf : list Z) (n : Z) : K Z :=
  do iunlock ip;
  do acquire ConsLock;
  do cputs ((fun b => Z.land b 255) <$> take (Z.to_nat n) buf);
  do release ConsLock;
  do ilock ip;
  ret n.

(** [consoleinit] registers the console in devsw. *)
Definition console_devsw : DevSw := {|
  devsw_read := fun major => if major =? CONSOLE then Some consoleread else None;
  devsw_write := fun major => if major =? CONSOLE then Some consolewrite else None
|}.
End Console.

Definition consoleinit : K unit :=
  upd_console (fun cn =>
    mkCons (cn_crt cn) (cn_pos cn) (cn_have_uart cn) (cn_uart cn) true (cn_panicked cn)).
