(* ===== verification/Vm.v ===== *)
(** * Page tables: vm.c

    Page directories and page tables are pages of memory words; a walk returns
    the address of the entry for a virtual address.  The page table
    register and the segment descriptors are in [Segment]. *)

From S2P Require Import Prelude Bytes Cstring Kstate Sync Kalloc Disk Bio Log Fs Console.
Import Str.
Local Open Scope Z_scope.

(** ** mmu.h, memlayout.h *)
Definition EXTMEM : Z := 1048576.
Definition KERNLINK : Z := KERNBASE + EXTMEM.
Definition DEVSPACE : Z := 4261412864.
Definition NPDENTRIES : Z := 1024.
Definition NPTENTRIES : Z := 1024.
Definition PTE_P : Z := 1.
Definition PTE_W : Z := 2.
Definition PTE_U : Z := 4.
Definition PDX (va : Z) : Z := Z.land (Z.shiftr va 22) 1023.
Definition PTX (va : Z) : Z := Z.land (Z.shiftr va 12) 1023.
Definition PTE_ADDR (pte : Z) : Z := Z.land pte (Z.lnot 4095).
Definition PTE_FLAGS (pte : Z) : Z := Z.land pte 4095.
Definition has (pte flag : Z) : bool := negb (Z.land pte flag =? 0).

(** ** Bytes and pages of memory *)
Definition get_byte (m : gmap Z Z) (a : Z) : Z :=
  Z.land (Z.shiftr (word_at m (a - a mod 4)) (8 * (a mod 4))) 255.

Definition set_byte (m : gmap Z Z) (a b : Z) : gmap Z Z :=
  let w := word_at m (a - a mod 4) in
  let sh := 8 * (a mod 4) in
  <[a - a mod 4 := Z.lor (Z.ldiff w (Z.shiftl 255 sh)) (Z.shiftl (u8 b) sh)]> m.

(** [memmove(dst, buf, n)] from a buffer to memory. *)
Fixpoint set_bytes (m : gmap Z Z) (a : Z) (bytes : list Z) : gmap Z Z :=
  match bytes with
  | [] => m
  | b :: bytes' => set_bytes (set_byte m a b) (a + 1) bytes'
  end.

Fixpoint get_bytes (m : gmap Z Z) (a : Z) (n : nat) : list Z :=
  match n with
  | O => []
  | S n' => get_byte m a :: get_bytes m (a + 1) n'
  end.

Definition store_bytes (a : Z) (bytes : list Z) : K unit :=
  modify (fun s => set_mem (set_bytes (mem s) a bytes) s).

(** [memmove(dst, src, PGSIZE)] between two pages. *)
Definition copy_words (dst src : Z) (n : nat) (m : gmap Z Z) : gmap Z Z :=
  foldl (fun m' i => <[dst + 4 * Z.of_nat i := word_at m (src + 4 * Z.of_nat i)]> m')
    m (seq 0 n).
Definition copy_page (dst src : Z) : K unit :=
  modify (fun s => set_mem (copy_words dst src 1024 (mem s)) s).

Record kmap := mkKmap { k_virt : Z; k_phys_start : Z; k_phys_end : Z; k_perm : Z }.

Section Vm.
Context {Lay : Layout} {Dev : BlockDev} {Sw : DevSw}.

(** The address of the entry for [va], 0 when there is none. *)
Definition walkpgdir (pgdir va : Z) (alloc : bool) : K Z :=
  let pde := pgdir + 4 * PDX va in
  let! e := load pde in
  if has e PTE_P then ret (p2v (PTE_ADDR e) + 4 * PTX va) else
  if negb alloc then ret 0 else
  let! pgtab := kalloc in
  if pgtab =? 0 then ret 0 else
  do fill_page pgtab 0;
  do store pde (Z.lor (Z.lor (Z.lor (v2p pgtab) PTE_P) PTE_W) PTE_U);
  ret (pgtab + 4 * PTX va).

(** [fuel] is the number of pages after the first. *)
Fixpoint mappages_loop (fuel : nat) (pgdir a last pa perm : Z) : K Z :=
  let! pte := walkpgdir pgdir a true in
  if pte =? 0 then ret (-1) else
  let! e := load pte in
  if negb (e =? 0) then panic "*pte is 0" else
  if has e PTE_P then panic "remap" else
  do store pte (Z.lor (Z.lor pa perm) PTE_P);
  if a =? last then ret 0 else
  match fuel with
  | O => hang
  | S f => mappages_loop f pgdir (u32 (a + PGSIZE)) last (u32 (pa + PGSIZE)) perm
  end.

Definition mappages (pgdir va size pa perm : Z) : K Z :=
  let a := PGROUNDDOWN va in
  let last := PGROUNDDOWN (u32 (va + size - 1)) in
  mappages_loop (Z.to_nat (u32 (last - a) / PGSIZE)) pgdir a last pa perm.

Definition kmaps : list kmap :=
  [ mkKmap KERNBASE 0 EXTMEM PTE_W;
    mkKmap KERNLINK (v2p KERNLINK) (v2p kdata) 0;
    mkKmap kdata (v2p kdata) PHYSTOP PTE_W;
    mkKmap DEVSPACE DEVSPACE 0 PTE_W ].

Fixpoint setupkvm_loop (ks : list kmap) (pgdir : Z) : K Z :=
  match ks with
  | [] => ret pgdir
  | k :: ks' =>
      let! r := mappages pgdir (k_virt k) (u32 (k_phys_end k - k_phys_start k))
                  (k_phys_start k) (k_perm k) in
      if r <? 0 then ret 0 else setupkvm_loop ks' pgdir
  end.

Definition setupkvm : K Z :=
  let! pgdir := kalloc in
  if pgdir =? 0 then ret 0 else
  do fill_page pgdir 0;
  if DEVSPACE <? p2v PHYSTOP then panic "PHYSTOP too high" else
  setupkvm_loop kmaps pgdir.

Definition inituvm (pgdir : Z) (init : list Z) : K unit :=
  if PGSIZE <=? Z.of_nat (length init) then panic "inituvm: more than a page" else
  let! mem := kalloc in
  do fill_page mem 0;
  do mappages pgdir 0 PGSIZE (v2p mem) (Z.lor PTE_W PTE_U);
  store_bytes mem init.

Fixpoint loaduvm_loop (fuel : nat) (pgdir addr : Z) (ip : nat) (offset sz i : Z) : K Z :=
  if negb (i <? sz) then ret 0 else
  let! pte := walkpgdir pgdir (u32 (addr + i)) false in
  if pte =? 0 then panic "loaduvm: address should exist" else
  let! e := load pte in
  let n := if sz - i <? PGSIZE then sz - i else PGSIZE in
  let! ' (r, bytes) := readi ip (u32 (offset + i)) n in
  do store_bytes (p2v (PTE_ADDR e)) bytes;
  if negb (u32 r =? n) then ret (-1) else
  match fuel with
  | O => hang
  | S f => loaduvm_loop f pgdir addr ip offset sz (u32 (i + PGSIZE))
  end.

Definition loaduvm (pgdir addr : Z) (ip : nat) (offset sz : Z) : K Z :=
  if negb (addr mod PGSIZE =? 0) then panic "loaduvm: addr must be page aligned" else
  loaduvm_loop (Z.to_nat (sz / PGSIZE + 1)) pgdir addr ip offset sz 0.

Fixpoint deallocuvm_loop (fuel : nat) (pgdir oldsz a : Z) : K unit :=
  if negb (a <? oldsz) then ret tt else
  let! pte := walkpgdir pgdir a false in
  let! a :=
    (if pte =? 0 then ret (u32 (a + (NPTENTRIES - 1) * PGSIZE)) else
     let! e := load pte in
     do when (has e PTE_P)
       (if PTE_ADDR e =? 0 then panic "kfree" else
        do kfree (p2v (PTE_ADDR e));
        store pte 0);
     ret a) in
  match fuel with
  | O => hang
  | S f => deallocuvm_loop f pgdir oldsz (u32 (a + PGSIZE))
  end.

(** Every pass advances [a] by at least a page. *)
Definition deallocuvm (pgdir oldsz newsz : Z) : K Z :=
  if oldsz <=? newsz then ret oldsz else
  do deallocuvm_loop (Z.to_nat (2 ^ 20)) pgdir oldsz (PGROUNDUP newsz);
  ret newsz.

Fixpoint allocuvm_loop (fuel : nat) (pgdir oldsz newsz a : Z) : K Z :=
  if negb (a <? newsz) then ret newsz else
  let! mem := kalloc in
  if mem =? 0 then
    do cprintf (lit "allocuvm out of memory" ++ [nl]) [];
    do deallocuvm pgdir newsz oldsz;
    ret 0
  else
    do fill_page mem 0;
    do mappages pgdir a PGSIZE (v2p mem) (Z.lor PTE_W PTE_U);
    match fuel with
    | O => hang
    | S f => allocuvm_loop f pgdir oldsz newsz (u32 (a + PGSIZE))
    end.

Definition allocuvm (pgdir oldsz newsz : Z) : K Z :=
  if KERNBASE <=? newsz then ret 0 else
  if newsz <? oldsz then ret oldsz else
  allocuvm_loop (Z.to_nat (newsz / PGSIZE + 1)) pgdir oldsz newsz (PGROUNDUP oldsz).

Definition freevm_entry (pgdir : Z) (i : nat) : K unit :=
  let! e := load (pgdir + 4 * Z.of_nat i) in
  when (has e PTE_P) (kfree (p2v (PTE_ADDR e))).

Definition freevm (pgdir : Z) : K unit :=
  if pgdir =? 0 then panic "freevm: no pgdir" else
  do deallocuvm pgdir KERNBASE 0;
  do mfor (Z.to_nat NPDENTRIES) 0 (freevm_entry pgdir);
  kfree pgdir.

Definition clearpteu (pgdir uva : Z) : K unit :=
  let! pte := walkpgdir pgdir uva false in
  if pte =? 0 then panic "clearpteu" else
  let! e := load pte in
  store pte (Z.land e (Z.lnot PTE_U)).

(** The loop of [copyuvm]; [false] for [goto bad]. *)
Fixpoint copyuvm_loop (fuel : nat) (pgdir d sz i : Z) : K bool :=
  if negb (i <? sz) then ret true else
  let! pte := walkpgdir pgdir i false in
  if pte =? 0 then panic "copyuvm: pte should exist" else
  let! e := load pte in
  if negb (has e PTE_P) then panic "copyuvm: page not present" else
  let! mem := kalloc in
  if mem =? 0 then ret false else
  do copy_page mem (p2v (PTE_ADDR e));
  let! r := mappages d i PGSIZE (v2p mem) (PTE_FLAGS e) in
  if r <? 0 then ret false else
  match fuel with
  | O => hang
  | S f => copyuvm_loop f pgdir d sz (u32 (i + PGSIZE))
  end.

Definition copyuvm (pgdir sz : Z) : K Z :=
  let! d := setupkvm in
  if d =? 0 then ret 0 else
  let! ok := copyuvm_loop (Z.to_nat (sz / PGSIZE + 1)) pgdir d sz 0 in
  if ok then ret d else
  do freevm d;
  ret 0.

(** [*pte] with no page table for [uva] reads through a null pointer. *)
Definition uva2ka (pgdir uva : Z) : K Z :=
  let! pte := walkpgdir pgdir uva false in
  if pte =? 0 then fault "uva2ka: *pte" else
  let! e := load pte in
  if negb (has e PTE_P) then ret 0 else
  if negb (has e PTE_U) then ret 0 else
  ret (p2v (PTE_ADDR e)).

Fixpoint copyout_loop (fuel : nat) (pgdir va : Z) (buf : list Z) : K Z :=
  match buf with
  | [] => ret 0
  | _ =>
      let va0 := PGROUNDDOWN va in
      let! pa0 := uva2ka pgdir va0 in
      if pa0 =? 0 then ret (-1) else
      let n := Z.min (PGSIZE - (va - va0)) (Z.of_nat (length buf)) in
      do store_bytes (pa0 + (va - va0)) (take (Z.to_nat n) buf);
      match fuel with
      | O => hang
      | S f => copyout_loop f pgdir (u32 (va0 + PGSIZE)) (drop (Z.to_nat n) buf)
      end
  end.

(** Each pass copies at least one byte. *)
Definition copyout (pgdir va : Z) (p : list Z) : K Z :=
  copyout_loop (length p) pgdir va p.
End Vm.
