(* ===== verification/Dir.v ===== *)
(** * Directories and path names: fs.c, from namecmp

    A directory is a file of 16-byte entries (inode number, name of at most
    [DIRSIZ] characters); a path is resolved one element at a time. *)

From S2P Require Import Prelude Bytes Cstring Kstate Sync Disk Bio Log Fs.
Import Str.
Local Open Scope Z_scope.

Definition slash : Z := 47.

(** struct dirent *)
Definition DIRENT : Z := 16.
Definition de_inum (de : list Z) : Z := get16 de 0.
Definition de_name (de : list Z) : list Z := slice de 2 DIRSIZ.
Definition mk_dirent (inum : Z) (name : list Z) : list Z :=
  le_bytes 2 inum ++ strncpy name DIRSIZ.

Definition namecmp (s t : list Z) : Z := strncmp s t DIRSIZ.

(** ** Paths *)

(** [while( *path == '/') path++;] *)
Fixpoint skip_slashes (path : list Z) : list Z :=
  match path with
  | c :: path' => if c =? slash then skip_slashes path' else path
  | [] => []
  end.

(** [while( *path != '/' && *path != 0) path++;]: the element and the rest. *)
Fixpoint split_elem (path : list Z) : list Z * list Z :=
  match path with
  | c :: path' =>
      if (c =? slash) || (c =? 0) then ([], path) else
      let '(s, rest) := split_elem path' in (c :: s, rest)
  | [] => ([], [])
  end.

(** The rest of the path and the new contents of the array [name]. *)
Definition skipelem (path name : list Z) : option (list Z * list Z) :=
  let path := skip_slashes path in
  if peek path =? 0 then None else
  let '(s, path) := split_elem path in
  let len := length s in
  let name :=
    if (DIRSIZ <=? len)%nat then splice name 0 (take DIRSIZ s)
    else <[len := 0]> (splice name 0 s) in
  Some (skip_slashes path, name).

Section Dir.
Context {Dev : BlockDev} {Sw : DevSw}.

(** [readi(dp, (char* )&de, off, sizeof(de))], which must not be short. *)
Definition read_dirent (dp : nat) (off : Z) : K (list Z) :=
  let! ' (n, de) := readi dp off DIRENT in
  if negb (n =? DIRENT) then panic "dirlink read" else ret de.

Fixpoint dirlookup_loop (fuel dp : nat) (name : list Z) (off : Z)
  : K (option (nat * Z)) :=
  let! ip := inode_at dp in
  if negb (off <? i_size ip) then ret None else
  let! de := read_dirent dp off in
  if negb (de_inum de =? 0) && (namecmp name (de_name de) =? 0) then
    let! i := iget (i_dev ip) (de_inum de) in
    ret (Some (i, off))
  else
    match fuel with
    | O => hang
    | S f => dirlookup_loop f dp name (u32 (off + DIRENT))
    end.

(** The inode found, and the offset stored at [poff]. *)
Definition dirlookup (dp : nat) (name : list Z) : K (option (nat * Z)) :=
  let! ip := inode_at dp in
  if negb (i_type ip =? T_DIR) then panic "dirlookup not DIR" else
  dirlookup_loop (Z.to_nat (i_size ip)) dp name 0.

(** The offset of the first empty entry, or the end of the directory. *)
Fixpoint dirlink_slot (fuel dp : nat) (off : Z) : K Z :=
  let! ip := inode_at dp in
  if negb (off <? i_size ip) then ret off else
  let! de := read_dirent dp off in
  if de_inum de =? 0 then ret off else
  match fuel with
  | O => hang
  | S f => dirlink_slot f dp (off + DIRENT)
  end.

Definition dirlink (dp : nat) (name : list Z) (inum : Z) : K Z :=
  let! r := dirlookup dp name in
  match r with
  | Some (ip, _) =>
      do iput ip;
      ret (-1)
  | None =>
      let! ip := inode_at dp in
      let! off := dirlink_slot (Z.to_nat (i_size ip)) dp 0 in
      let! n := writei dp (mk_dirent inum name) off DIRENT in
      if negb (n =? DIRENT) then panic "dirlink" else ret 0
  end.

(** Each pass removes at least one character of the path. *)
Fixpoint namex_loop (fuel : nat) (ip : nat) (path : list Z) (nameiparent : bool)
    (name : list Z) : K (option nat * list Z) :=
  match skipelem path name with
  | None =>
      if nameiparent then
        do iput ip;
        ret (None, name)
      else ret (Some ip, name)
  | Some (path, name) =>
      do ilock ip;
      let! dp := inode_at ip in
      if negb (i_type dp =? T_DIR) then
        do iunlockput ip;
        ret (None, name)
      else if nameiparent && (peek path =? 0) then
        do iunlock ip;
        ret (Some ip, name)
      else
        let! r := dirlookup ip name in
        match r with
        | None =>
            do iunlockput ip;
            ret (None, name)
        | Some (next, _) =>
            do iunlockput ip;
            match fuel with
            | O => hang
            | S f => namex_loop f next path nameiparent name
            end
        end
  end.

Definition namex (path : list Z) (nameiparent : bool) (name : list Z)
  : K (option nat * list Z) :=
  let! ip :=
    (if peek path =? slash then iget ROOTDEV ROOTINO
     else
       let! p := myproc in
       let! cwd := deref "proc->cwd" (p_cwd p) in
       idup cwd) in
  namex_loop (length path) ip path nameiparent name.

(** [char name[DIRSIZ]] is uninitialised; see [skipelem_name]. *)
Definition namei (path : list Z) : K (option nat) :=
  let! ' (r, _) := namex path false (replicate DIRSIZ 0) in
  ret r.

Definition nameiparent (path name : list Z) : K (option nat * list Z) :=
  namex path true name.
End Dir.

(** ** skipelem *)

(** The elements of a path: the maximal runs without slashes. *)
Fixpoint elems (cur : list Z) (path : list Z) : list (list Z) :=
  match path with
  | [] => match cur with [] => [] | _ => [reverse cur] end
  | c :: path' =>
      if c =? slash
      then match cur with [] => elems [] path' | _ => reverse cur :: elems [] path' end
      else elems (c :: cur) path'
  end.
Definition path_elems (path : list Z) : list (list Z) := elems [] path.

(** The elements [skipelem] yields when it is iterated as in [namex]. *)
Fixpoint skip_all (fuel : nat) (path name : list Z) : option (list (list Z)) :=
  match skipelem path name with
  | None => Some []
  | Some (path, name) =>
      match fuel with
      | O => None
      | S f => (cons (cstr name)) <$> skip_all f path name
      end
  end.

Lemma skip_slashes_length p : (length (skip_slashes p) <= length p)%nat.
Proof. induction p as [|c p IH]; cbn; [lia|]. destruct (c =? slash); cbn; lia. Qed.

Lemma skip_slashes_suffix p : Forall (fun c => c <> 0) p -> Forall (fun c => c <> 0) (skip_slashes p).
Proof. induction 1 as [|c p Hc Hp IH]; cbn; [done|]. destruct (c =? slash); [done|by constructor]. Qed.

Lemma skip_slashes_elems p : path_elems (skip_slashes p) = path_elems p.
Proof.
  induction p as [|c p IH]; cbn; [done|].
  destruct (Z.eqb_spec c slash) as [->|Hne]; [apply IH|].
  unfold path_elems. cbn. by rewrite (proj2 (Z.eqb_neq _ _) Hne).
Qed.

Lemma split_elem_app p : (split_elem p).1 ++ (split_elem p).2 = p.
Proof.
  induction p as [|c p IH]; cbn; [done|]. destruct (_ || _); [done|].
  destruct (split_elem p). cbn in *. by rewrite IH.
Qed.

Lemma split_elem_elems cur p :
  Forall (fun c => c <> 0) p -> (split_elem p).1 <> [] \/ cur <> [] ->
  elems cur p = (reverse cur ++ (split_elem p).1) :: path_elems (split_elem p).2.
Proof.
  intros Hp. revert cur. induction Hp as [|c p Hc Hp IH]; intros cur Hne; cbn.
  - destruct cur; [cbn in Hne; by destruct Hne|]. by rewrite app_nil_r.
  - cbn in Hne. destruct (Z.eqb_spec c slash) as [->|Hs]; cbn in *.
    + destruct cur; [by destruct Hne|]. by rewrite app_nil_r.
    + rewrite (proj2 (Z.eqb_neq c 0)) in * by done.
      destruct (split_elem p) as [s r] eqn:E. cbn in *.
      rewrite IH by (by right). by rewrite reverse_cons, <- app_assoc.
Qed.

Lemma cstr_nonzero l r : Forall (fun c => c <> 0) l -> cstr (l ++ r) = l ++ cstr r.
Proof.
  induction 1 as [|c l Hc Hl IH]; cbn; [done|].
  by rewrite (proj2 (Z.eqb_neq c 0)), IH.
Qed.

Lemma splice_0 (name s : list Z) :
  (length s <= length name)%nat -> splice name 0 s = s ++ drop (length s) name.
Proof.
  intros H. apply list_eq. intros i. rewrite splice_lookup by lia. case_decide.
  - rewrite lookup_app_l by lia. f_equal. lia.
  - rewrite lookup_app_r, lookup_drop by lia. f_equal. lia.
Qed.

(** The name left by [skipelem], read as a string, is the element cut at
    [DIRSIZ] characters, whatever the array held before. *)
Lemma skipelem_name s name :
  Forall (fun c => c <> 0) s -> length name = DIRSIZ ->
  cstr (if (DIRSIZ <=? length s)%nat then splice name 0 (take DIRSIZ s)
        else <[length s := 0]> (splice name 0 s)) = take DIRSIZ s.
Proof.
  intros Hs Hn. destruct (Nat.leb_spec DIRSIZ (length s)) as [Hle|Hgt].
  - rewrite splice_0 by len. rewrite length_take, Nat.min_l, drop_ge by lia.
    rewrite cstr_nonzero by (by apply Forall_take). by rewrite app_nil_r.
  - rewrite splice_0 by lia. rewrite insert_app_r_alt, Nat.sub_diag by lia.
    rewrite cstr_nonzero by done. rewrite (take_ge s) by lia.
    destruct (drop (length s) name) as [|c l] eqn:Hd; cbn; by rewrite app_nil_r.
Qed.

Lemma skip_slashes_peek p : peek (skip_slashes p) <> slash.
Proof.
  induction p as [|c p IH]; cbn; [done|]. destruct (Z.eqb_spec c slash); done.
Qed.

Lemma split_elem_nonempty p :
  peek p <> 0 -> peek p <> slash -> (split_elem p).1 <> [].
Proof.
  destruct p as [|c p]; [done|]. unfold peek, byte_at. cbn. intros H0 Hs.
  rewrite (proj2 (Z.eqb_neq c slash)), (proj2 (Z.eqb_neq c 0)) by done. cbn.
  by destruct (split_elem p).
Qed.

Lemma skipelem_step path name rest name' :
  Forall (fun c => c <> 0) path -> length name = DIRSIZ ->
  skipelem path name = Some (rest, name') ->
  exists e, path_elems path = e :: path_elems rest /\ cstr name' = take DIRSIZ e /\
    Forall (fun c => c <> 0) rest /\ length name' = DIRSIZ /\
    (length rest < length path)%nat.
Proof.
  intros Hp Hn. unfold skipelem. rewrite <- (skip_slashes_elems path).
  apply skip_slashes_suffix in Hp. pose proof (skip_slashes_length path) as Hl.
  pose proof (skip_slashes_peek path) as Hs. revert Hs Hp Hl.
  generalize (skip_slashes path) as p. intros p Hs Hp Hl.
  destruct (Z.eqb_spec (peek p) 0) as [|H0]; [done|].
  pose proof (split_elem_app p) as Happ. pose proof (split_elem_nonempty p H0 Hs) as Hne.
  pose proof (split_elem_elems [] p Hp (or_introl Hne)) as He.
  destruct (split_elem p) as [s r] eqn:Hsp. cbn [fst snd] in *.
  rewrite <- Happ in Hp, Hl. apply Forall_app in Hp as [Hps Hpr].
  rewrite length_app in Hl. pose proof (skip_slashes_length r).
  assert (length (if (DIRSIZ <=? length s)%nat then splice name 0 (take DIRSIZ s)
    else <[length s := 0]> (splice name 0 s)) = DIRSIZ) as Hn'
    by (destruct (DIRSIZ <=? length s)%nat; by rewrite ?length_insert, splice_length).
  intros [= <- <-]. exists s. split; [|split; [|split; [|split]]].
  - unfold path_elems at 1. rewrite He. cbn. by rewrite skip_slashes_elems.
  - by apply skipelem_name.
  - by apply skip_slashes_suffix.
  - exact Hn'.
  - destruct s; [done|]. cbn in Hl. lia.
Qed.

(** Iterating [skipelem] as [namex] does ends after at most as many passes
    as the path has characters and yields the elements of the path in order,
    each cut at [DIRSIZ] characters. *)
Theorem skipelem_elems path name fuel :
  Forall (fun c => c <> 0) path -> length name = DIRSIZ -> (length path <= fuel)%nat ->
  skip_all fuel path name = Some (take DIRSIZ <$> path_elems path).
Proof.
  revert path name. induction fuel as [|fuel IH]; intros path name Hp Hn Hf; cbn.
  - destruct path; [done|cbn in Hf; lia].
  - destruct (skipelem path name) as [[rest name']|] eqn:Hs.
    + destruct (skipelem_step _ _ _ _ Hp Hn Hs) as (e & -> & -> & Hr & Hn' & Hl).
      rewrite IH by (done || lia). done.
    + unfold skipelem in Hs. rewrite <- skip_slashes_elems.
      apply skip_slashes_suffix in Hp.
      destruct (Z.eqb_spec (peek (skip_slashes path)) 0) as [H0|];
        [|by destruct (split_elem _)].
      destruct (skip_slashes path) as [|c p]; [done|].
      inversion Hp. unfold peek, byte_at in H0. cbn in H0. done.
Qed.

Lemma skipelem_elems_witness :
  skip_all 9 [47; 97; 47; 47; 98; 99; 47; 100; 47] (replicate DIRSIZ 0) =
    Some [[97]; [98; 99]; [100]].
Proof.
  rewrite (skipelem_elems [47; 97; 47; 47; 98; 99; 47; 100; 47] (replicate DIRSIZ 0) 9);
    [by vm_compute|by repeat constructor|done|cbn; lia].
Defined.
