(* ===== verification/Readwrite.v ===== *)
(** * Reading and writing files

    What [readi] and [writei] of fs.c promise: a file is an array of bytes with
    a size; a write inside a transaction is seen by the reads after it, leaves
    the other files alone, and leaves the inode on disk equal to the one in
    memory. *)

From S2P Require Import Prelude Bytes Cstring Kstate Sync Disk Bio Cache Log Commit Crash Txn Kalloc Pipe Fs Dinode Alloc Content File Console.
Import Str.
Local Open Scope Z_scope.

(** What [readi] returns for a file of the given size. *)
Definition read_result (V : gmap Z block) (ip : inode) (off n : Z) : Z * list Z :=
  if (i_size ip <? off) || (2 ^ 32 <=? off + n) then (-1, []) else
  let len := Z.min n (i_size ip - off) in (len, file_bytes V ip off len).

(** [ip2] has no block in common with [ip]. *)
Definition apart (V : gmap Z block) (ip ip2 : inode) : Prop :=
  forall j j2, (j < NSLOT)%nat -> (j2 < NSLOT)%nat -> slot_addr V ip2 j2 <> 0 ->
    slot_addr V ip2 j2 <> slot_addr V ip j.

Section Files.
Context {Dev : BlockDev} {Sw : DevSw}.
Context (start size : Z) (k : superblock).

Lemma readi_result s c i ip off n :
  readable start size k s c i ip -> no_holes (c_view c) ip -> i_type ip <> T_DEV ->
  0 <= i_size ip <= MAXFILE * BSIZE -> 0 <= off < 2 ^ 32 -> 0 <= n < 2 ^ 31 ->
  wp (readi i off n) s (fun r s' =>
    r = read_result (c_view c) ip off n /\
    readable start size k s' c i ip /\ bio_frame s s').
Proof.
  intros H Hh Ht Hsz Hoff Hn. unfold readi, read_result.
  change (MAXFILE * BSIZE) with 71680 in Hsz.
  eapply wp_bind_runs; [apply inode_at_runs, H|].
  rewrite (proj2 (Z.eqb_neq _ _)) by done.
  destruct (Z.ltb_spec (i_size ip) off) as [H1|H1]; cbn [orb]; [by apply wp_ret|].
  rewrite (u32_small (off + n)) by lia.
  rewrite (proj2 (Z.ltb_ge (off + n) off)), (proj2 (Z.leb_gt (2 ^ 32) (off + n))) by lia.
  set (len := Z.min n (i_size ip - off)).
  replace (if i_size ip <? off + n then i_size ip - off else n) with len
    by (unfold len; destruct (Z.ltb_spec (i_size ip) (off + n)); lia).
  apply wp_bind. eapply wp_mono; [eapply (readi_loop_spec start size k); [exact H|done|..]|].
  1-5: change (MAXFILE * BSIZE) with 71680; unfold len; lia.
  intros r s' (-> & H' & F). apply wp_ret. rewrite Z.sub_0_r, i32_small by (unfold len; lia). done.
Qed.

Lemma apart_others dsize off len src V ip V' ip' ip2 :
  inode_ok k start size dsize V ip2 -> apart V ip ip2 ->
  rewritten start size k dsize off len src V ip V' ip' ->
  forall j, (j < NSLOT)%nat -> slot_addr V ip2 j <> 0 ->
    V' !! slot_addr V ip2 j = V !! slot_addr V ip2 j.
Proof.
  intros H2 Ha R j Hj Hne. destruct (no_slot _ _ _ _ _ _ H2 j Hj Hne) as [Hd Hu].
  apply (rw_others _ _ _ _ _ _ _ _ _ _ _ R); [done|done|]. intros j' Hj'. by apply Ha.
Qed.

(** The addresses and the bytes of a file apart from the one written. *)
Lemma apart_bytes V V' ip2 o :
  (forall j, (j < NSLOT)%nat -> slot_addr V ip2 j <> 0 ->
     V' !! slot_addr V ip2 j = V !! slot_addr V ip2 j) ->
  0 <= o < MAXFILE * BSIZE -> file_byte V' ip2 o = file_byte V ip2 o.
Proof.
  intros HV Ho.
  assert (forall j, (j < NSLOT)%nat -> slot_addr V' ip2 j = slot_addr V ip2 j) as Hs.
  { intros j Hj. unfold slot_addr. destruct (j <=? 12)%nat; [done|].
    destruct (Z.eqb_spec (addr_at ip2 12) 0) as [|H0]; [done|].
    unfold blk. specialize (HV 12%nat). change (slot_addr V ip2 12) with (addr_at ip2 12) in HV.
    rewrite HV; [done|unfold NSLOT; lia|done]. }
  assert (0 <= o / BSIZE < MAXFILE) as Hob.
  { split; [apply Z.div_pos; change BSIZE with 512; lia|].
    apply Z.div_lt_upper_bound; [done|lia]. }
  destruct (slot_of_bound _ Hob) as [Hsb _]. unfold file_byte, file_block. rewrite Hs by done.
  destruct (Z.eqb_spec (slot_addr V ip2 (slot_of (o / BSIZE))) 0) as [|Hne]; [done|].
  unfold blk. by rewrite HV.
Qed.

(** The state a write needs: [blocks] blocks are touched, each may need two new
    blocks and seven log entries. *)
Record writable (blocks : nat) (s : kstate) (c : cache) (bs : list Z) (i : nat) (ip : inode)
  : Prop := {
  wr_file : file_ok start size k (S (7 * blocks)) s c bs i ip;
  wr_free : enough_free k (c_view c) (2 * blocks);
  wr_ranges : inode_ranges ip;
  wr_inum : 0 <= i_inum ip < sb_ninodes k;
  wr_type : i_type ip <> T_DEV;
  wr_size : 0 <= i_size ip <= MAXFILE * BSIZE;
  wr_holes : no_holes (c_view c) ip;
  wr_saved : inode_saved k (c_view c) ip
}.

(** The file after the write. *)
Record written (off n : Z) (src : list Z) (c : cache) (ip : inode)
    (s' : kstate) (c' : cache) (bs' : list Z) (i : nat) (ip' : inode) : Prop := {
  wn_file : file_ok start size k 0 s' c' bs' i ip';
  wn_size : i_size ip' = Z.max (i_size ip) (off + n);
  wn_type : i_type ip' = i_type ip;
  wn_bytes o : 0 <= o < MAXFILE * BSIZE ->
    file_byte (c_view c') ip' o =
      if decide (off <= o < off + n) then byte_at src (Z.to_nat (o - off))
      else file_byte (c_view c) ip o;
  wn_holes : no_holes (c_view c') ip';
  wn_saved : inode_saved k (c_view c') ip';
  wn_others ip2 o : inode_ok k start size (c_size c) (c_view c) ip2 ->
    apart (c_view c) ip ip2 -> 0 <= o < MAXFILE * BSIZE ->
    file_byte (c_view c') ip2 o = file_byte (c_view c) ip2 o;
  wn_disk : c_disk c' = c_disk c
}.

Lemma rewritten_ranges dsize off n src V ip V' ip' :
  dsize <= 2 ^ 31 -> inode_ranges ip ->
  rewritten start size k dsize off n src V ip V' ip' -> inode_ranges ip'.
Proof.
  intros Hds Hr R. pose proof (rw_same _ _ _ _ _ _ _ _ _ _ _ R) as E.
  pose proof (rw_ok _ _ _ _ _ _ _ _ _ _ _ R) as Hok.
  split; try (rewrite E; apply Hr); [apply Hok|].
  apply Forall_lookup. intros j a Hj. pose proof (lookup_lt_Some _ _ _ Hj) as Hlt.
  rewrite (no_len _ _ _ _ _ _ Hok) in Hlt.
  assert (slot_addr V' ip' j = a) as Hs.
  { unfold slot_addr. rewrite (proj2 (Nat.leb_le _ _)) by lia. unfold addr_at. by rewrite Hj. }
  destruct (decide (a = 0)) as [->|Hne]; [lia|]. rewrite <- Hs in Hne |- *.
  destruct (no_slot _ _ _ _ _ _ Hok j ltac:(unfold NSLOT; lia) Hne) as [[[? _] _] _]. lia.
Qed.

Lemma rewritten_holes dsize off n src V ip V' ip' sz :
  no_holes V ip -> 0 <= n -> off <= i_size ip -> sz = Z.max (i_size ip) (off + n) ->
  rewritten start size k dsize off n src V ip V' ip' ->
  no_holes V' (set_i_size sz ip').
Proof.
  intros Hh Hn Hoff -> R bn Hbn Hlt. cbn [i_size set_i_size] in Hlt.
  change (slot_addr V' (set_i_size _ ip')) with (slot_addr V' ip').
  apply (rw_mapped _ _ _ _ _ _ _ _ _ _ _ R bn Hbn).
  destruct (decide (bn * BSIZE < i_size ip)) as [H|H]; [left; by apply Hh|right].
  unfold touched. change BSIZE with 512 in *. lia.
Qed.
Lemma file_ok_size room s c bs i ip sz :
  file_ok start size k room s c bs i ip ->
  file_ok start size k room (set_icache (<[i := set_i_size sz ip]> (icache s)) s) c bs i
    (set_i_size sz ip).
Proof.
  intros H. pose proof (file_ok_len _ _ _ _ _ _ _ _ _ H) as Hlen. destruct H as [A B C D].
  split; [by apply alloc_ok_icache|done| |by destruct D].
  cbn. by rewrite list_lookup_insert_eq.
Qed.

(** The write needs no new blocks and leaves the inode as it is. *)
Lemma writei_inside off n src s' c bs' i ip c' ip' :
  no_holes (c_view c) ip -> inode_saved k (c_view c) ip -> 0 <= i_inum ip < sb_ninodes k ->
  0 <= off <= i_size ip -> 0 <= n -> n = 0 \/ off + n <= i_size ip ->
  file_ok start size k 1 s' c' bs' i ip' -> c_disk c' = c_disk c ->
  rewritten start size k (c_size c) off n src (c_view c) ip (c_view c') ip' ->
  written off n src c ip s' c' bs' i ip'.
Proof.
  intros Hh Hs Hi Hoff Hn Hin O D R. assert (ip' = ip) as ->.
  { apply (rw_addrs _ _ _ _ _ _ _ _ _ _ _ R). intros bn Hbn [Ht1 [Ht2 _]].
    apply Hh; [done|]. lia. }
  split; try done.
  - by apply (file_ok_less _ _ _ 1); [|lia].
  - lia.
  - apply (rw_bytes _ _ _ _ _ _ _ _ _ _ _ R).
  - intros bn Hbn Hlt. apply (rw_mapped _ _ _ _ _ _ _ _ _ _ _ R bn Hbn). left. by apply Hh.
  - unfold inode_saved, blk in *. by rewrite (rw_inodes _ _ _ _ _ _ _ _ _ _ _ R _ Hi).
  - intros ip2 o H2 Ha Ho. apply apart_bytes; [|done].
    by eapply apart_others.
Qed.

(** The file gets longer, and its inode is saved. *)
Lemma writei_longer off n src s' c bs' i ip c1 ip1 c' :
  no_holes (c_view c) ip -> 0 <= i_inum ip < sb_ninodes k ->
  0 <= off <= i_size ip -> i_size ip < off + n -> c_size c1 = c_size c -> c_disk c' = c_disk c ->
  inode_ok k start size (c_size c) (c_view c1) ip1 ->
  rewritten start size k (c_size c) off n src (c_view c) ip (c_view c1) ip1 ->
  let ip' := set_i_size (off + n) ip1 in
  file_ok start size k 0 s' c' bs' i ip' ->
  (exists d, c_view c' = <[IBLOCK (i_inum ip) k := d]> (c_view c1)) ->
  inode_saved k (c_view c') ip' ->
  written off n src c ip s' c' bs' i ip'.
Proof.
  intros Hh Hi Hoff Hlt S1 D Hok1 R ip' O [d HV] Hs.
  assert (inode_ok k start size (c_size c) (c_view c1) ip') as Hok' by (by destruct Hok1).
  pose proof (rw_map _ _ _ _ _ _ _ _ _ _ _ R) as Hm1.
  split; try done.
  - cbn. lia.
  - unfold ip'. rewrite (rw_same _ _ _ _ _ _ _ _ _ _ _ R). done.
  - intros o Ho. rewrite HV. rewrite (iblock_bytes start size k (c_size c)) by done.
    by apply (rw_bytes _ _ _ _ _ _ _ _ _ _ _ R).
  - intros bn Hbn Hb. destruct (slot_of_bound bn Hbn) as [Hsb _]. rewrite HV.
    rewrite (iblock_slots start size k (c_size c)) by done.
    eapply rewritten_holes; [exact Hh| |..|exact R|done|done]; cbn; lia.
  - intros ip2 o H2 Ha Ho. apply apart_bytes; [|done]. intros j Hj Hne. rewrite HV.
    rewrite lookup_insert_ne; [by eapply apart_others|].
    destruct (no_slot _ _ _ _ _ _ H2 j Hj Hne) as [(_ & _ & _ & Hd) _]. by apply not_eq_sym, Hd.
Qed.

Lemma writei_spec blocks s c bs i ip src off n :
  writable blocks s c bs i ip ->
  0 <= off <= i_size ip -> 0 <= n -> off + n <= MAXFILE * BSIZE ->
  n <= Z.of_nat (length src) -> Forall is_byte src ->
  n = 0 \/ off mod BSIZE + n <= BSIZE * Z.of_nat blocks ->
  wp (writei i src off n) s (fun r s' => r = n /\
    exists c' bs' ip', written off n src c ip s' c' bs' i ip' /\ fs_frame i s s' /\
      c_size c' = c_size c /\ ip' = set_i_size (i_size ip') (set_i_addrs (i_addrs ip') ip)).
Proof.
  intros [H Hf Hr Hi Ht Hsz Hh Hs] Hoff Hn Hend Hsrc Hb Hblocks. unfold writei.
  change (MAXFILE * BSIZE) with 71680 in *.
  eapply wp_bind_runs; [apply inode_at_runs, H|].
  rewrite (proj2 (Z.eqb_neq _ _)) by done.
  rewrite (proj2 (Z.ltb_ge (i_size ip) off)), u32_small by lia.
  rewrite (proj2 (Z.ltb_ge (off + n) off)), (proj2 (Z.ltb_ge 71680 (off + n))) by lia.
  cbn [orb]. apply wp_bind.
  eapply wp_mono; [apply (writei_loop_spec start size k (Z.to_nat n) 1 0 blocks s c bs i ip src off n 0)|].
  all: rewrite ?Z.sub_0_r; try done; try lia.
  intros r s1 (c1 & bs1 & ip1 & -> & O1 & R & E1 & S1 & D1 & F1). rewrite ?Z.sub_0_r in R |- *.
  eapply wp_bind_runs; [apply inode_at_runs, O1|].
  assert (i_size ip1 = i_size ip /\ i_inum ip1 = i_inum ip) as [Hsz1 Hi1].
  { rewrite (rw_same _ _ _ _ _ _ _ _ _ _ _ R). done. }
  rewrite Hsz1. apply wp_bind. rewrite i32_small by lia.
  destruct ((0 <? n) && (i_size ip <? off + n)) eqn:Hg; cbn [when].
  - apply andb_true_iff in Hg as [Hg1%Z.ltb_lt Hg2%Z.ltb_lt].
    apply wp_bind. eapply runs_wp; [by apply upd_inode_runs, O1|].
    pose proof (file_ok_size 1 s1 c1 bs1 i ip1 (off + n) O1) as O2.
    assert (c_size c <= 2 ^ 31) as Hds.
    { apply (fo_alloc _ _ _ _ _ _ _ _ _ H). }
    eapply wp_mono; [apply (iupdate_spec start size k 0 _ _ _ _ _ O2)|].
    + cbn. by rewrite Hi1.
    + destruct (rewritten_ranges _ _ _ _ _ _ _ _ Hds Hr R). split; try done. cbn. lia.
    + intros [] s3 (c3 & bs3 & O3 & V3 & Hs3 & S3 & D3 & F3). apply wp_ret. split; [done|].
      exists c3, bs3, (set_i_size (off + n) ip1). split; [|split; [by etrans; [exact F1|]; etrans; [apply icache_fs_frame|exact F3]|split; [congruence|]]].
      2: by rewrite (rw_same _ _ _ _ _ _ _ _ _ _ _ R).
      eapply (writei_longer off n src s3 c bs3 i ip c1 ip1 c3); try done; try lia.
      * congruence.
      * rewrite <- S1. apply O1.
      * eexists. rewrite V3. cbn [i_inum set_i_size]. by rewrite Hi1.
  - apply wp_ret, wp_ret. split; [done|]. exists c1, bs1, ip1. split; [|split; [done|split; [done|by rewrite Hsz1, (rw_same _ _ _ _ _ _ _ _ _ _ _ R)]]].
    eapply writei_inside; try done. apply andb_false_iff in Hg as [Hg|Hg]; lia.
Qed.
Lemma file_ok_readable room s c bs i ip :
  file_ok start size k room s c bs i ip -> readable start size k s c i ip.
Proof.
  intros H. pose proof (fo_alloc _ _ _ _ _ _ _ _ _ H) as Ha. pose proof (ao_txn _ _ _ _ _ _ _ Ha) as T.
  split; [apply T|apply H| |apply H|apply H]. eapply Nat.le_lt_trans; [by apply (c_inuse_bound _ _ _ _ _ T)|].
  rewrite (fo_busy _ _ _ _ _ _ _ _ _ H), map_size_empty.
  pose proof (ao_log _ _ _ _ _ _ _ Ha). pose proof (tx_size _ _ _ _ _ T) as Hs.
  change LOGSIZE with 30 in Hs. change NBUF with 30%nat. lia.
Qed.

(** The bytes of a file after [src] was written at [off], as [readi] returns
    them. *)
Definition updated_byte (V : gmap Z block) (ip : inode) (off n : Z) (src : list Z) (o : Z) : Z :=
  if decide (off <= o < off + n) then byte_at src (Z.to_nat (o - off)) else file_byte V ip o.

Definition updated_read (V : gmap Z block) (ip : inode) (off n : Z) (src : list Z)
    (off' n' : Z) : Z * list Z :=
  let sz := Z.max (i_size ip) (off + n) in
  if (sz <? off') || (2 ^ 32 <=? off' + n') then (-1, []) else
  let len := Z.min n' (sz - off') in
  (len, (fun x => updated_byte V ip off n src (off' + x)) <$> seqZ 0 len).

(** C3: a write inside a transaction, then a read anywhere in the file: the
    write returns its length, the read returns the bytes of the file with the
    written range replaced, up to the new end of the file.  The inode saved on
    disk is the new one, and no other file has changed. *)
Theorem write_then_read blocks s c bs i ip src off n off' n' :
  writable blocks s c bs i ip ->
  0 <= off <= i_size ip -> 0 <= n -> off + n <= MAXFILE * BSIZE ->
  n <= Z.of_nat (length src) -> Forall is_byte src ->
  n = 0 \/ off mod BSIZE + n <= BSIZE * Z.of_nat blocks ->
  0 <= off' < 2 ^ 32 -> 0 <= n' < 2 ^ 31 ->
  wp (let! r := writei i src off n in let! q := readi i off' n' in ret (r, q)) s
    (fun p s' => p = (n, updated_read (c_view c) ip off n src off' n') /\
      exists c' ip', readable start size k s' c' i ip' /\ inode_saved k (c_view c') ip' /\
        c_disk c' = c_disk c /\
        forall ip2 o, inode_ok k start size (c_size c) (c_view c) ip2 ->
          apart (c_view c) ip ip2 -> 0 <= o < MAXFILE * BSIZE ->
          file_byte (c_view c') ip2 o = file_byte (c_view c) ip2 o).
Proof.
  intros H Hoff Hn Hend Hsrc Hb Hblocks Hoff' Hn'. apply wp_bind.
  eapply wp_mono; [by apply (writei_spec blocks s c bs i ip src off n)|].
  intros r s1 (-> & c' & bs' & ip' & W & _). apply wp_bind.
  pose proof (file_ok_readable _ _ _ _ _ _ (wn_file _ _ _ _ _ _ _ _ _ _ W)) as Hrd.
  assert (0 <= i_size ip' <= MAXFILE * BSIZE) as Hsz.
  { rewrite (wn_size _ _ _ _ _ _ _ _ _ _ W). pose proof (wr_size _ _ _ _ _ _ H).
    change (MAXFILE * BSIZE) with 71680 in *. lia. }
  eapply wp_mono; [apply (readi_result s1 c' i ip' off' n' Hrd); try done; try apply W|].
  { rewrite (wn_type _ _ _ _ _ _ _ _ _ _ W). apply H. }
  intros q s2 (-> & Hrd2 & F2). apply wp_ret. split.
  - f_equal. unfold read_result, updated_read. rewrite (wn_size _ _ _ _ _ _ _ _ _ _ W) in *.
    destruct (_ || _) eqn:Hcase; [done|]. f_equal.
    apply orb_false_iff in Hcase as [Hc1%Z.ltb_ge Hc2].
    apply list_eq. intros j. unfold file_bytes. rewrite !list_lookup_fmap.
    destruct (seqZ 0 _ !! j) as [x|] eqn:Hx; [|done]. apply lookup_seqZ in Hx as [-> Hx].
    cbn. f_equal. apply (wn_bytes _ _ _ _ _ _ _ _ _ _ W). lia.
  - exists c', ip'. split; [done|]. split; [apply W|]. split; [apply W|]. apply W.
Qed.
End Files.

(** ** The file of the small file system *)
Lemma small_inode_ok V : V !! 23 = Some (small_block 23) -> inode_ok small_sb 2 20 40 V small_inode.
Proof.
  intros HV.
  assert (forall j, slot_addr V small_inode j = if decide (j = 0%nat) then 24 else 0) as Hs.
  { intros j. unfold slot_addr. destruct (Nat.leb_spec j 12) as [Hj|Hj].
    - do 13 (destruct j as [|j]; [done|]). lia.
    - by rewrite decide_False by lia. }
  split; [done|done| |].
  - intros j Hj. rewrite Hs. case_decide; [|done]. intros _. split.
    + pose proof (small_bitmap V HV) as Hm. unfold data_block. cbn.
      split; [unfold fs_block, in_log; lia|]. split; [lia|]. split.
      * intros b' Hb'. unfold BBLOCK. change BPB with 4096. rewrite Z.div_small by lia. done.
      * intros n Hn. unfold IBLOCK. change IPB with 8. rewrite Z.div_small by lia. done.
    + rewrite small_unused by (done || lia). lia.
  - intros j j' _ _. rewrite !Hs. by repeat case_decide; subst.
Qed.

Lemma small_free V n : V !! 23 = Some (small_block 23) -> (n <= 15)%nat -> enough_free small_sb V n.
Proof.
  intros HV Hn. exists (seqZ 25 15). split; [apply NoDup_seqZ|]. split; [done|].
  apply list.Forall_forall. intros b Hb%elem_of_seqZ. split; [cbn; lia|].
  apply small_unused; [done|lia|lia].
Qed.

Lemma small_writable : exists s c, writable 2 20 small_sb 1 s c [] 0 small_inode /\
  c_size c = 40 /\ (forall n, 0 <= n < 40 -> ~ in_log 2 20 n -> c_view c !! n = Some (small_block n)).
Proof.
  destruct small_fs_begun as (s & c & T & Hb & Hs & Hk & Hi & _ & _ & _ & Hv).
  assert (c_view c !! 23 = Some (small_block 23)) as HV by (apply Hv; unfold in_log; lia).
  exists s, c. split; [|done]. split.
  - split; [apply small_alloc_ok; [done..|lia]|done|by rewrite Hi|].
    rewrite Hs. by apply small_inode_ok.
  - apply small_free; [done|lia].
  - split; cbn [i_type i_major i_minor i_nlink i_size i_addrs small_inode];
      try (unfold T_FILE; lia); [done|].
    apply list.Forall_cons. split; [lia|]. apply Forall_replicate. lia.
  - cbn. lia.
  - done.
  - cbn. change (MAXFILE * BSIZE) with 71680. lia.
  - intros bn Hbn Hlt. cbn in Hlt. change BSIZE with 512 in Hlt. assert (bn = 0) as -> by lia. done.
  - unfold inode_saved, blk. replace (IBLOCK (i_inum small_inode) small_sb) with 22 by done.
    rewrite Hv by (unfold in_log; lia). by vm_compute.
Qed.

Lemma small_byte V o :
  (forall n, 0 <= n < 40 -> ~ in_log 2 20 n -> V !! n = Some (small_block n)) -> 0 <= o < 512 ->
  file_byte V small_inode o = byte_at (small_block 24) (Z.to_nat o).
Proof.
  intros Hv Ho. unfold file_byte, file_block. change BSIZE with 512.
  rewrite Z.div_small, Z.mod_small by lia. cbn [slot_of]. unfold blk.
  change (slot_addr V small_inode (slot_of 0)) with 24. cbn [Z.eqb].
  by rewrite Hv by (unfold in_log; lia).
Qed.

#[local] Existing Instance console_devsw.

Lemma write_then_read_witness : exists s,
  wp (let! r := writei 0 [201; 202; 203; 204] 98 4 in let! q := readi 0 96 10 in ret (r, q)) s
    (fun p s' => p = (4, (6, [97; 98; 201; 202; 203; 204]))).
Proof.
  destruct small_writable as (s & c & Hw & Hsz & Hv). exists s.
  eapply wp_mono; [apply (write_then_read 2 20 small_sb 1 s c [] 0 small_inode
    [201; 202; 203; 204] 98 4 96 10 Hw)|]; cbn [i_size small_inode length]; try lia.
  - change (MAXFILE * BSIZE) with 71680. lia.
  - repeat constructor; lia.
  - right. by vm_compute.
  - intros p s' [-> _]. unfold updated_read. cbn [i_size small_inode].
    unfold updated_byte. change (seqZ 0 (10 `min` (100 `max` (98 + 4) - 96))) with [0; 1; 2; 3; 4; 5].
    cbn [fmap list_fmap].
    rewrite !(small_byte _ _ Hv) by lia. by vm_compute.
Defined.

(** ** Reading through an open file *)
Lemma ilock_wait_free fuel i ip s :
  icache s !! i = Some ip -> i_busy ip = false -> runs (ilock_wait fuel i) s tt s.
Proof.
  intros Hi Hb. destruct fuel; cbn [ilock_wait];
    (eapply runs_bind; [by apply inode_at_runs|]; rewrite Hb; apply runs_ret).
Qed.

(** [ilock] of an inode that nobody holds and that is in memory. *)
Lemma ilock_runs `{BlockDev} i ip s :
  held s = [] -> icache s !! i = Some ip -> 1 <= i_ref ip -> i_busy ip = false ->
  i_valid ip = true ->
  runs (ilock i) s tt (set_icache (<[i := set_i_busy true ip]> (icache s)) s).
Proof.
  intros Hh Hi Hr Hb Hv e. unfold ilock. unfold bind at 1. rewrite (inode_at_runs i ip) by done.
  rewrite (proj2 (Z.ltb_ge _ _)) by lia.
  unfold bind at 1. rewrite acquire_runs by (rewrite Hh; set_solver).
  unfold bind at 1, pending at 1. unfold bind at 1. rewrite (ilock_wait_free _ i ip) by done.
  unfold bind at 1. rewrite (upd_inode_runs i ip) by done.
  unfold bind at 1. rewrite (release_runs IcacheLock _ []) by (cbn; rewrite ?Hh; set_solver).
  unfold bind at 1. rewrite (inode_at_runs i (set_i_busy true ip))
    by (cbn; apply list_lookup_insert_eq; by eapply lookup_lt_Some).
  cbn [i_valid set_i_busy]. rewrite Hv. cbn [negb when]. unfold ret.
  f_equal. destruct s; cbn in *. by subst.
Qed.

Lemma iunlock_runs i ip s :
  held s = [] -> icache s !! i = Some ip -> 1 <= i_ref ip -> i_busy ip = true ->
  runs (iunlock i) s tt (set_ptable (wakeup1 (Some (ChInode i)) (ptable s))
    (set_icache (<[i := set_i_busy false ip]> (icache s)) s)).
Proof.
  intros Hh Hi Hr Hb e. unfold iunlock. unfold bind at 1. rewrite (inode_at_runs i ip) by done.
  rewrite Hb, (proj2 (Z.ltb_ge _ _)) by lia. cbn [negb orb].
  unfold bind at 1. rewrite acquire_runs by (rewrite Hh; set_solver).
  unfold bind at 1. rewrite (upd_inode_runs i ip) by done.
  unfold bind at 1, wakeup. unfold bind at 1.
  rewrite acquire_runs by (cbn; rewrite Hh; set_solver). unfold bind at 1, modify at 1.
  rewrite (release_runs PtableLock _ [IcacheLock]) by (cbn; rewrite ?Hh; set_solver).
  rewrite (release_runs IcacheLock _ []) by (cbn; rewrite ?Hh; set_solver).
  f_equal. destruct s; cbn in *. by subst.
Qed.

Lemma cache_rep_icache s c ic : cache_rep s c -> cache_rep (set_icache ic s) c.
Proof. intros [A B C D E]. by split. Qed.

Lemma cache_rep_ptable s c P : cache_rep s c -> cache_rep (set_ptable P s) c.
Proof. intros [A B C D E]. by split. Qed.

Lemma cache_rep_ftable s c t : cache_rep s c -> cache_rep (set_ftable t s) c.
Proof. intros [A B C D E]. by split. Qed.

(** An inode in memory that nobody holds. *)
Definition idle_inode (ip : inode) : Prop :=
  1 <= i_ref ip /\ i_busy ip = false /\ i_valid ip = true.

(** [fileread] on a file that is an inode returns the bytes at the offset of
    the open file, advances the offset by their number, and changes neither
    another open file, nor any inode, nor the contents of any file. *)
Theorem fileread_advances `{BlockDev, DevSw} start size k s c f ff ip n :
  ftable s !! f = Some ff -> f_readable ff = true -> f_type ff = FD_INODE ->
  readable start size k s c (f_ip ff) ip -> idle_inode ip -> no_holes (c_view c) ip ->
  i_type ip <> T_DEV -> 0 <= i_size ip <= MAXFILE * BSIZE ->
  0 <= f_off ff < 2 ^ 32 -> 0 <= n < 2 ^ 31 ->
  wp (fileread f n) s (fun r s' =>
    r = read_result (c_view c) ip (f_off ff) n /\
    ftable s' = <[f := set_f_off (f_off ff + Z.max 0 r.1) ff]> (ftable s) /\
    icache s' = icache s /\ cache_rep s' c).
Proof.
  intros Hf Hrd Hty Hok (Hr & Hb & Hv) Hh Hdev Hsz Hoff Hn. set (i := f_ip ff) in *.
  pose proof (rd_inode _ _ _ _ _ _ _ Hok) as Hi. pose proof (rd_cache _ _ _ _ _ _ _ Hok) as Hc.
  pose proof (lookup_lt_Some _ _ _ Hi) as Hlen.
  unfold fileread. eapply wp_bind_runs; [by apply file_at_runs|]. rewrite Hrd, Hty. cbn [negb].
  eapply wp_bind_runs; [apply (ilock_runs i ip); [apply Hc|done..]|].
  set (s1 := set_icache _ s). set (ip1 := set_i_busy true ip).
  assert (readable start size k s1 c i ip1) as Hok1.
  { destruct Hok as [A B C D E]. split; [by apply cache_rep_icache|done|done| |by destruct E].
    cbn. by rewrite list_lookup_insert_eq. }
  eapply wp_bind_runs; [by apply (file_at_runs f ff)|]. fold i. rewrite (u32_small n) by lia.
  apply wp_bind. eapply wp_mono; [by apply (readi_result start size k s1 c i ip1 (f_off ff) n)|].
  intros [r bytes] s2 (Er & Hok2 & F2). change (read_result (c_view c) ip1) with
    (read_result (c_view c) ip) in Er.
  destruct (bio_frame_fields _ _ F2) as (_ & _ & _ & Hic & Hft & _). cbn [icache ftable s1 set_icache] in *.
  assert (-1 <= r <= i_size ip - f_off ff \/ r <= 0) as Hrr.
  { unfold read_result in Er. destruct (_ || _) eqn:E; injection Er as -> _; [by right|].
    left. apply orb_false_iff in E as [E%Z.ltb_ge _]. lia. }
  change (MAXFILE * BSIZE) with 71680 in Hsz.
  set (t := <[f := set_f_off (f_off ff + Z.max 0 r) ff]> (ftable s)).
  assert (runs (when (0 <? r) (upd_file f (fun ff => set_f_off (u32 (f_off ff + r)) ff))) s2 tt
    (set_ftable t s2)) as Hw.
  { destruct (Z.ltb_spec 0 r) as [Hr0|Hr0]; cbn [when].
    - unfold t. rewrite Z.max_r by lia. rewrite <- (u32_small (f_off ff + r)) by lia.
      rewrite <- Hft. apply (upd_file_runs f ff (fun ff => set_f_off (u32 (f_off ff + r)) ff)).
      by rewrite Hft.
    - intros e. unfold ret. f_equal. unfold t. rewrite Z.max_l, Z.add_0_r by lia.
      replace (set_f_off (f_off ff) ff) with ff by (by destruct ff).
      rewrite list_insert_id by done. rewrite <- Hft. by destruct s2. }
  eapply wp_bind_runs; [exact Hw|].
  eapply wp_bind_runs; [apply (iunlock_runs i ip1)|].
  - apply Hok2.
  - cbn. rewrite Hic. by rewrite list_lookup_insert_eq.
  - done.
  - done.
  - apply wp_ret. cbn [fst]. split; [done|]. cbn. split; [done|]. split.
    + rewrite Hic, list_insert_insert_eq. replace (set_i_busy false ip1) with ip by (by destruct ip; cbn in *; subst).
      by rewrite list_insert_id.
    + apply cache_rep_ptable, cache_rep_icache, cache_rep_ftable, Hok2.
Qed.

Lemma fileread_advances_witness : exists s,
  (f_off <$> ftable s !! 0%nat) = Some 97 /\
  wp (fileread 0 10) s (fun r s' => r = (3, [98; 99; 100]) /\
    (f_off <$> ftable s' !! 0%nat) = Some 100).
Proof.
  destruct small_writable as (s & c & Hw & Hsz & Hv).
  destruct (file_ok_readable _ _ _ _ _ _ _ _ _ (wr_file _ _ _ _ _ _ _ _ _ Hw)) as [A B C D E].
  set (ip := set_i_busy false small_inode). set (ff := mkFile FD_INODE 1 true true 0 0 97).
  exists (set_icache [ip] (set_ftable [ff] s)). split; [done|].
  eapply wp_mono; [apply (fileread_advances 2 20 small_sb _ c 0 ff ip 10)|]; try done.
  - split; [by apply cache_rep_icache, cache_rep_ftable|done|done|done|by destruct E].
  - apply (wr_holes _ _ _ _ _ _ _ _ _ Hw).
  - intros r s' (-> & -> & _).
    assert (read_result (c_view c) ip (f_off ff) 10 = (3, [98; 99; 100])) as ->; [|done].
    change (f_off ff) with 97.
    unfold read_result, file_bytes. cbn [i_size ip set_i_busy small_inode].
    change (seqZ 0 _) with [0; 1; 2]. cbn [fmap list_fmap].
    change (file_byte (c_view c) ip) with (file_byte (c_view c) small_inode).
    rewrite !(small_byte _ _ Hv) by lia. by vm_compute.
Defined.
