(* ===== verification/Directory.v ===== *)
(** * Directories as maps from names to inode numbers

    What [dirlookup] and [dirlink] of fs.c promise: the entries of a directory
    in use are a finite map, a lookup reads it and a link adds to it. *)

From S2P Require Import Prelude Bytes Cstring Kstate Sync Disk Bio Cache Log Commit Crash Txn Kalloc Pipe Fs Dinode Alloc Content File Dir Readwrite.
Import Str.
Local Open Scope Z_scope.

(** ** The entries of a directory *)

(** What the bytes of an entry say: the inode number, 0 for an entry not in use,
    and the name. *)
Definition entry_of (de : list Z) : Z * list Z := (de_inum de, cstr (de_name de)).

Definition dirents (V : gmap Z block) (ip : inode) : list (Z * list Z) :=
  (fun j => entry_of (file_bytes V ip (16 * j) 16)) <$> seqZ 0 (i_size ip / 16).

(** The name as a directory keeps it. *)
Definition dir_name (name : list Z) : list Z := take DIRSIZ (cstr name).

(** The first entry in use with the name. *)
Definition is_named (nm : list Z) (e : Z * list Z) : Prop := fst e <> 0 /\ snd e = nm.
#[export] Instance is_named_dec nm e : Decision (is_named nm e) := _ : Decision (_ /\ _).

(** The directory as a map; an earlier entry hides later ones. *)
Definition dir_map (es : list (Z * list Z)) : gmap (list Z) Z :=
  foldr (fun e m => if decide (fst e = 0) then m else <[snd e := fst e]> m) ∅ es.

Lemma dir_map_find nm es : dir_map es !! nm = (fun r => fst (snd r)) <$> list_find (is_named nm) es.
Proof.
  induction es as [|[n x] es IH]; [done|]. cbn [dir_map foldr list_find fst snd]. fold (dir_map es).
  destruct (decide (is_named nm (n, x))) as [[Hn Hx]|Hno]; cbn in *.
  - rewrite decide_False by done. subst. by rewrite lookup_insert_eq.
  - case_decide as Hn; [rewrite IH|rewrite lookup_insert_ne, IH by (intros ->; by apply Hno)]; by destruct (list_find _ es) as [[? [? ?]]|].
Qed.

(** Adding an entry with a new name, in place of one not in use or at the end. *)
Lemma dir_map_insert es j e nm inum : es !! j = Some e -> fst e = 0 -> inum <> 0 -> dir_map es !! nm = None ->
  dir_map (<[j := (inum, nm)]> es) = <[nm := inum]> (dir_map es).
Proof.
  revert j. induction es as [|[n x] es IH]; intros [|j] Hj He Hi Hnm; try done.
  - injection Hj as <-. cbn in He. subst n. change (<[0%nat := (inum, nm)]> ((0, x) :: es)) with ((inum, nm) :: es). cbn [dir_map foldr fst snd]. by rewrite decide_False, decide_True.
  - change (<[S j := (inum, nm)]> ((n, x) :: es)) with ((n, x) :: <[j := (inum, nm)]> es). cbn [dir_map foldr fst snd] in *.
    fold (dir_map (<[j := (inum, nm)]> es)) (dir_map es) in *. case_decide; [by apply IH|].
    destruct (decide (x = nm)) as [->|Hne]; [by rewrite lookup_insert_eq in Hnm|]. rewrite lookup_insert_ne in Hnm by done.
    rewrite IH by done. by apply insert_insert_ne.
Qed.

Lemma dir_map_snoc es nm inum : inum <> 0 -> dir_map es !! nm = None -> dir_map (es ++ [(inum, nm)]) = <[nm := inum]> (dir_map es).
Proof.
  intros Hi. induction es as [|[n x] es IH]; intros Hnm; cbn [app dir_map foldr fst snd] in *.
  - by rewrite decide_False by done.
  - fold (dir_map (es ++ [(inum, nm)])) (dir_map es) in *. case_decide; [by apply IH|].
    destruct (decide (x = nm)) as [->|Hne]; [by rewrite lookup_insert_eq in Hnm|]. rewrite lookup_insert_ne in Hnm by done.
    rewrite IH by done. by apply insert_insert_ne.
Qed.

(** Taking an entry out. *)
Lemma dir_map_clear es j n nm x : es !! j = Some (n, nm) -> (forall j' n', j' <> j -> es !! j' = Some (n', nm) -> n' = 0) ->
  dir_map (<[j := (0, x)]> es) = delete nm (dir_map es).
Proof.
  revert j. induction es as [|[n0 x0] es IH]; intros [|j] Hj Huniq; try done.
  - injection Hj as -> ->. change (<[0%nat := (0, x)]> ((n, nm) :: es)) with ((0, x) :: es). cbn [dir_map foldr fst snd]. fold (dir_map es).
    rewrite decide_True by done. assert (dir_map es !! nm = None) as Hnone.
    { rewrite dir_map_find. destruct (list_find (is_named nm) es) as [[j [n' y]]|] eqn:E; [|done]. apply list_find_Some in E as (E & [Hn' Hy] & _). cbn in *. subst y.
      destruct Hn'. by apply (Huniq (S j) n'). }
    case_decide; [by rewrite delete_id|]. by rewrite delete_insert_id.
  - change (<[S j := (0, x)]> ((n0, x0) :: es)) with ((n0, x0) :: <[j := (0, x)]> es). cbn [dir_map foldr fst snd]. fold (dir_map (<[j := (0, x)]> es)) (dir_map es).
    rewrite (IH j) by (try done; intros j' n' Hne; apply (Huniq (S j')); lia). case_decide as H0; [done|].
    rewrite delete_insert_ne; [done|]. intros <-. apply H0. by apply (Huniq 0%nat n0).
Qed.

(** ** The bytes of an entry *)
Lemma file_byte_ok (V : gmap Z block) ip o : (forall n d, V !! n = Some d -> bytes_ok 512 d) -> is_byte (file_byte V ip o).
Proof.
  intros HV. unfold file_byte, file_block, byte_at. set (a := slot_addr _ _ _). set (j := Z.to_nat _).
  assert (forall d, Forall is_byte d -> is_byte (default 0 (d !! j))) as Hd.
  { intros d Hd. destruct (d !! j) as [x|] eqn:E; [|cbn; unfold is_byte; lia]. by eapply (proj1 (Forall_lookup _ _) Hd). }
  apply Hd. destruct (a =? 0); [apply Forall_replicate; unfold is_byte; lia|]. unfold blk. destruct (V !! a) as [d|] eqn:E; [by apply (HV a d)|done].
Qed.

Lemma file_bytes_ok V ip off n : (forall n d, V !! n = Some d -> bytes_ok 512 d) -> Forall is_byte (file_bytes V ip off n).
Proof. intros HV. unfold file_bytes. apply Forall_fmap, Forall_true. intros x. by apply file_byte_ok. Qed.

Lemma cstr_strncpy name n : cstr (strncpy name n) = take n (cstr name).
Proof.
  revert name. induction n as [|n IH]; intros name; [done|]. cbn [strncpy]. destruct (Z.eqb_spec (peek name) 0) as [H|H].
  - by rewrite (cstr_peek0 name H).
  - rewrite (cstr_tail name H), peek_cstr, (proj2 (Z.eqb_neq _ _)) by done. cbn [take]. by rewrite IH.
Qed.

Lemma strncpy_bytes name n : Forall is_byte name -> Forall is_byte (strncpy name n).
Proof.
  revert name. induction n as [|n IH]; intros name Hn; [done|]. cbn [strncpy]. case_match.
  - constructor; [unfold is_byte; lia|]. apply Forall_replicate. unfold is_byte. lia.
  - constructor; [by apply peek_byte|]. by apply IH, Forall_tail.
Qed.

Lemma mk_dirent_entry inum name : 0 <= inum < 2 ^ 16 -> entry_of (mk_dirent inum name) = (inum, dir_name name).
Proof.
  intros Hi. unfold entry_of, mk_dirent, de_inum, de_name, get16, slice, dir_name. f_equal.
  - rewrite drop_0, take_app_le, take_ge by (rewrite le_bytes_length; done). rewrite le_value_bytes. by apply Z.mod_small.
  - rewrite drop_app_le, drop_ge, app_nil_l by (rewrite le_bytes_length; done). rewrite take_ge by (by rewrite strncpy_length). apply cstr_strncpy.
Qed.

Lemma mk_dirent_ok inum name : Forall is_byte name -> length (mk_dirent inum name) = 16%nat /\ Forall is_byte (mk_dirent inum name).
Proof.
  intros Hn. unfold mk_dirent. split; [by rewrite length_app, le_bytes_length, strncpy_length|]. apply Forall_app. split; [apply le_bytes_ok|by apply strncpy_bytes].
Qed.

Lemma cstr_length l : (length (cstr l) <= length l)%nat.
Proof. induction l as [|c l IH]; [done|]. rewrite peek_cstr. destruct (c =? 0); cbn; lia. Qed.

(** What [namecmp] compares. *)
Lemma namecmp_entry name de : Forall is_byte name -> Forall is_byte de ->
  (namecmp name (de_name de) =? 0) = bool_decide (snd (entry_of de) = dir_name name).
Proof.
  intros Hn Hd. unfold namecmp. apply eq_true_iff_eq. rewrite Z.eqb_eq, bool_decide_eq_true, strncmp_zero by (try done; by apply Forall_take, Forall_drop).
  cbn [snd entry_of]. unfold dir_name. rewrite (take_ge (cstr (de_name de))); [done|]. etrans; [apply cstr_length|]. unfold de_name, slice. rewrite length_take. lia.
Qed.

Lemma dirents_length V ip : 0 <= i_size ip -> length (dirents V ip) = Z.to_nat (i_size ip / 16).
Proof. intros H. unfold dirents. by rewrite length_fmap, length_seqZ. Qed.

Lemma dirents_lookup V ip j : Z.of_nat j < i_size ip / 16 -> dirents V ip !! j = Some (entry_of (file_bytes V ip (16 * Z.of_nat j) 16)).
Proof. intros H. unfold dirents. by rewrite list_lookup_fmap, lookup_seqZ_lt by lia. Qed.

(** ** The inode cache *)

(** [ip] is in use for inode [inum]. *)
Definition refers (dev inum : Z) (ip : inode) : Prop := 0 < i_ref ip /\ i_dev ip = dev /\ i_inum ip = inum.
#[export] Instance refers_dec dev inum ip : Decision (refers dev inum ip) := _ : Decision (_ /\ _).

(** There is an entry for the inode, or a free one. *)
Definition icache_room (dev inum : Z) (ic : list inode) : Prop :=
  exists j ip, ic !! j = Some ip /\ (refers dev inum ip \/ i_ref ip = 0).

(** A free entry taken over for another inode. *)
Definition claimed (dev inum : Z) (ip : inode) : inode :=
  mkInode dev inum 1 false false (i_type ip) (i_major ip) (i_minor ip) (i_nlink ip) (i_size ip) (i_addrs ip).

(** [iget] has found or made entry [i]. *)
Inductive igot (dev inum : Z) (ic : list inode) : nat -> list inode -> Prop :=
| igot_hit i ip : ic !! i = Some ip -> refers dev inum ip ->
    igot dev inum ic i (<[i := set_i_ref (i_ref ip + 1) ip]> ic)
| igot_new i ip : Forall (fun ip => ~ refers dev inum ip) ic -> ic !! i = Some ip -> i_ref ip = 0 ->
    igot dev inum ic i (<[i := claimed dev inum ip]> ic).

Lemma iget_scan_spec t i e dev inum :
  match list_find (refers dev inum) t with
  | Some (j, _) => exists e', iget_scan t i e dev inum = (Some (i + j)%nat, e')
  | None => iget_scan t i e dev inum =
      (None, match e with Some _ => e | None => (fun r => (i + fst r)%nat) <$> list_find (fun ip => i_ref ip = 0) t end)
  end.
Proof.
  revert i e. induction t as [|ip t IH]; intros i e; [by destruct e|]. cbn [list_find iget_scan].
  assert ((0 <? i_ref ip) && (i_dev ip =? dev) && (i_inum ip =? inum) = bool_decide (refers dev inum ip)) as ->.
  { apply eq_true_iff_eq. rewrite bool_decide_eq_true, !andb_true_iff, Z.ltb_lt, !Z.eqb_eq. unfold refers. tauto. }
  destruct (decide (refers dev inum ip)) as [Hr|Hr].
  - rewrite bool_decide_eq_true_2 by done. exists e. by rewrite Nat.add_0_r.
  - rewrite bool_decide_eq_false_2 by done. set (e1 := if _ && _ then _ else _). specialize (IH (S i) e1).
    destruct (list_find (refers dev inum) t) as [[j ?]|] eqn:E; cbn.
    + destruct IH as [e' IH]. exists e'. by rewrite IH, Nat.add_succ_r.
    + rewrite IH. f_equal. unfold e1. destruct e as [x|]; [done|]. rewrite bool_decide_eq_true_2 by done. cbn [andb].
      destruct (Z.eqb_spec (i_ref ip) 0) as [H0|H0]; [rewrite decide_True by done; cbn; by rewrite Nat.add_0_r|rewrite decide_False by done].
      destruct (list_find (fun ip => i_ref ip = 0) t) as [[j ?]|]; cbn; [by rewrite Nat.add_succ_r|done].
Qed.

Lemma iget_runs dev inum s : held s = [] -> icache_room dev inum (icache s) ->
  exists i ic', igot dev inum (icache s) i ic' /\ runs (iget dev inum) s i (set_icache ic' s).
Proof.
  intros Hh (j & ip & Hj & Hroom). pose proof (iget_scan_spec (icache s) 0 None dev inum) as Hs. cbn [Nat.add] in Hs.
  assert (forall i x f, icache s !! i = Some x -> forall e,
    (do upd_inode i f; do release IcacheLock; ret i) (set_held [IcacheLock] s) e = Ok i (set_icache (<[i := f x]> (icache s)) s) e) as Hend.
  { intros i x f Hi e. unfold bind at 1. rewrite (upd_inode_runs i x f) by done. unfold bind at 1.
    rewrite (release_runs IcacheLock _ []) by (done || set_solver). unfold ret. f_equal. destruct s; cbn in *. by subst. }
  destruct (list_find (refers dev inum) (icache s)) as [[i x]|] eqn:E.
  - destruct Hs as [e' Hs]. apply list_find_Some in E as (Hi & Hr & _). eexists i, _. split; [by apply (igot_hit _ _ _ i x)|].
    intros e. unfold iget. unfold bind at 1. rewrite acquire_runs by (rewrite Hh; set_solver). unfold bind at 1, gets at 1. cbn [icache set_held].
    rewrite Hs, Hh. by apply (Hend i x (fun ip => set_i_ref (i_ref ip + 1) ip)).
  - assert (Forall (fun ip => ~ refers dev inum ip) (icache s)) as Hno by (by apply (proj1 (list_find_None _ _))).
    destruct (list_find (fun ip => i_ref ip = 0) (icache s)) as [[i x]|] eqn:E2.
    + apply list_find_Some in E2 as (Hi & Hr & _). eexists i, _. split; [by apply (igot_new _ _ _ i x)|].
      intros e. unfold iget. unfold bind at 1. rewrite acquire_runs by (rewrite Hh; set_solver). unfold bind at 1, gets at 1. cbn [icache set_held].
      rewrite Hs, Hh. cbn [fmap option_fmap option_map fst]. by apply (Hend i x (claimed dev inum)).
    + exfalso. apply (proj1 (list_find_None _ _)) in E2. rewrite list.Forall_forall in E2, Hno. assert (ip ∈ icache s) as Hin by (by eapply list_elem_of_lookup_2).
      destruct Hroom as [Hr|Hr]; [by apply (Hno ip)|by apply (E2 ip)].
Qed.

Lemma igot_entry dev inum ic i ic' : igot dev inum ic i ic' ->
  exists x, ic' !! i = Some x /\ refers dev inum x /\ forall j, j <> i -> ic' !! j = ic !! j.
Proof.
  intros [? ip Hi (Hr & Hd & Hn)|? ip Hno Hi H0]; pose proof (lookup_lt_Some _ _ _ Hi); eexists;
    (split; [by apply list_lookup_insert_eq|split; [|intros j Hj; by rewrite list_lookup_insert_ne]]); unfold refers; cbn; lia.
Qed.

(** ** Looking a name up *)
Section Directory.
Context {Dev : BlockDev} {Sw : DevSw}.
Context (start size : Z) (k : superblock).

(** A directory in memory. *)
Record directory (V : gmap Z block) (ip : inode) : Prop := {
  di_type : i_type ip = T_DIR;
  di_size : 0 <= i_size ip <= MAXFILE * BSIZE;
  di_whole : i_size ip mod 16 = 0;
  di_holes : no_holes V ip
}.

Lemma readable_bytes s c i ip : readable start size k s c i ip -> forall n d, c_view c !! n = Some d -> bytes_ok 512 d.
Proof. intros H. apply (cr_ok _ _ (rd_cache _ _ _ _ _ _ _ H)). Qed.

Lemma read_dirent_spec s c i ip j : readable start size k s c i ip -> directory (c_view c) ip -> 0 <= j -> 16 * j < i_size ip ->
  wp (read_dirent i (16 * j)) s (fun de s' => de = file_bytes (c_view c) ip (16 * j) 16 /\ readable start size k s' c i ip /\ bio_frame s s').
Proof.
  intros H [Ht Hsz Hw Hh] Hj Hlt. change (MAXFILE * BSIZE) with 71680 in Hsz. unfold read_dirent. apply wp_bind.
  eapply wp_mono; [apply (readi_result start size k s c i ip); try done; try lia|].
  - by rewrite Ht.
  - intros r s' (-> & H' & F). unfold read_result. change DIRENT with 16. rewrite (proj2 (Z.ltb_ge _ _)), (proj2 (Z.leb_gt _ _)) by lia. cbn [orb].
    rewrite Z.min_l by (pose proof (Z.div_mod (i_size ip) 16 ltac:(lia)); lia). rewrite Z.eqb_refl. by apply wp_ret.
Qed.

(** The entry at which a loop over the directory stands. *)
Lemma dirents_drop V ip j : 16 * Z.of_nat j < i_size ip -> i_size ip mod 16 = 0 ->
  drop j (dirents V ip) = entry_of (file_bytes V ip (16 * Z.of_nat j) 16) :: drop (S j) (dirents V ip).
Proof.
  intros Hlt Hw. apply drop_S. apply dirents_lookup. pose proof (Z.div_mod (i_size ip) 16 ltac:(lia)). lia.
Qed.

(** [dirlookup] has found what the entries say. *)
Definition looked_up (s : kstate) (c : cache) (i : nat) (ip : inode) (off : nat) (found : option (nat * (Z * list Z)))
    (r : option (nat * Z)) (s' : kstate) : Prop :=
  match found with
  | None => r = None /\ readable start size k s' c i ip /\ bio_frame s s'
  | Some (j, (inum, _)) => exists s1 i' ic', r = Some (i', 16 * Z.of_nat (off + j)) /\
      readable start size k s1 c i ip /\ bio_frame s s1 /\
      igot (i_dev ip) inum (icache s) i' ic' /\ s' = set_icache ic' s1
  end.

Lemma dirlookup_loop_spec name fuel : forall s c i ip j, readable start size k s c i ip -> directory (c_view c) ip -> Forall is_byte name ->
  (forall inum, icache_room (i_dev ip) inum (icache s)) -> (length (dirents (c_view c) ip) <= j + fuel)%nat ->
  (j <= length (dirents (c_view c) ip))%nat ->
  wp (dirlookup_loop fuel i name (16 * Z.of_nat j)) s
    (looked_up s c i ip j (list_find (is_named (dir_name name)) (drop j (dirents (c_view c) ip)))).
Proof.
  induction fuel as [|fuel IH]; intros s c i ip j H D Hn Hroom Hf Hj; pose proof D as [Ht Hsz Hw Hh]; change (MAXFILE * BSIZE) with 71680 in Hsz;
    rewrite dirents_length in Hf, Hj by lia; pose proof (Z.div_mod (i_size ip) 16 ltac:(lia)) as Hdm; cbn [dirlookup_loop];
    (eapply wp_bind_runs; [apply inode_at_runs, H|]); destruct (Z.ltb_spec (16 * Z.of_nat j) (i_size ip)) as [Hlt|Hge]; cbn [negb].
  1: lia.
  1, 3: rewrite drop_ge by (rewrite dirents_length by lia; lia); by apply wp_ret.
  apply wp_bind. eapply wp_mono; [apply (read_dirent_spec s c i ip (Z.of_nat j)); [done|done|lia|lia]|]. intros de s1 (-> & H1 & F1).
  set (de := file_bytes _ _ _ _). rewrite (dirents_drop _ _ _ Hlt Hw). fold de. cbn [list_find].
  rewrite namecmp_entry by (try done; apply file_bytes_ok; by eapply readable_bytes).
  assert (icache s1 = icache s) as Hic by (by destruct F1 as (? & ? & ? & _ & ->)).
  assert (negb (de_inum de =? 0) && bool_decide (snd (entry_of de) = dir_name name) = bool_decide (is_named (dir_name name) (entry_of de))) as ->.
  { apply eq_true_iff_eq. rewrite andb_true_iff, negb_true_iff, Z.eqb_neq, !bool_decide_eq_true. done. }
  destruct (decide (is_named (dir_name name) (entry_of de))) as [Hm|Hm].
  - rewrite bool_decide_eq_true_2 by done. destruct (iget_runs (i_dev ip) (de_inum de) s1) as (i' & ic' & Hg & Hrun).
    { apply (cr_held _ _ (rd_cache _ _ _ _ _ _ _ H1)). } { rewrite Hic. apply Hroom. }
    eapply wp_bind_runs; [exact Hrun|]. apply wp_ret. rewrite Hic in Hg. exists s1, i', ic'. by rewrite Nat.add_0_r.
  - rewrite bool_decide_eq_false_2 by done. rewrite u32_small by (change DIRENT with 16; lia).
    replace (16 * Z.of_nat j + DIRENT) with (16 * Z.of_nat (S j)) by (change DIRENT with 16; lia).
    eapply wp_mono; [apply (IH s1 c i ip (S j)); try done; [by rewrite Hic|rewrite dirents_length by lia; lia..]|].
    intros r s2. unfold looked_up. destruct (list_find _ (drop (S j) _)) as [[j' [inum x]]|]; cbn.
    + intros (s3 & i' & ic' & -> & H3 & F3 & Hg & ->). exists s3, i', ic'. rewrite Hic in Hg. split; [do 2 f_equal; lia|]. split; [done|]. split; [by etrans|done].
    + intros (-> & H2 & F2). split; [done|]. split; [done|]. by etrans.
Qed.

Lemma dirlookup_spec name s c i ip : readable start size k s c i ip -> directory (c_view c) ip -> Forall is_byte name ->
  (forall inum, icache_room (i_dev ip) inum (icache s)) ->
  wp (dirlookup i name) s (looked_up s c i ip 0 (list_find (is_named (dir_name name)) (dirents (c_view c) ip))).
Proof.
  intros H D Hn Hroom. unfold dirlookup. eapply wp_bind_runs; [apply inode_at_runs, H|]. rewrite (di_type _ _ D). cbn [negb Z.eqb T_DIR].
  rewrite <- (drop_0 (dirents (c_view c) ip)). pose proof (di_size _ _ D) as Hsz.
  apply (dirlookup_loop_spec name _ s c i ip 0); try done; rewrite dirents_length by lia; [|lia].
  cbn [Nat.add]. apply Z2Nat.inj_le; [apply Z.div_pos; lia|lia|]. apply Z.div_le_upper_bound; lia.
Qed.

(** ** Adding an entry *)
Definition dir_slot (es : list (Z * list Z)) : nat :=
  match list_find (fun e => fst e = 0) es with Some (j, _) => j | None => length es end.

Lemma dirlink_slot_spec fuel : forall s c i ip j, readable start size k s c i ip -> directory (c_view c) ip ->
  (length (dirents (c_view c) ip) <= j + fuel)%nat -> (j <= length (dirents (c_view c) ip))%nat ->
  wp (dirlink_slot fuel i (16 * Z.of_nat j)) s (fun off s' => off = 16 * Z.of_nat (j + dir_slot (drop j (dirents (c_view c) ip))) /\
    readable start size k s' c i ip /\ bio_frame s s').
Proof.
  induction fuel as [|fuel IH]; intros s c i ip j H D Hf Hj; pose proof D as [Ht Hsz Hw Hh]; change (MAXFILE * BSIZE) with 71680 in Hsz;
    rewrite dirents_length in Hf, Hj by lia; pose proof (Z.div_mod (i_size ip) 16 ltac:(lia)) as Hdm; cbn [dirlink_slot];
    (eapply wp_bind_runs; [apply inode_at_runs, H|]); destruct (Z.ltb_spec (16 * Z.of_nat j) (i_size ip)) as [Hlt|Hge]; cbn [negb].
  1: lia.
  1, 3: rewrite drop_ge by (rewrite dirents_length by lia; lia); apply wp_ret; cbn; by rewrite Nat.add_0_r.
  apply wp_bind. eapply wp_mono; [apply (read_dirent_spec s c i ip (Z.of_nat j)); [done|done|lia|lia]|]. intros de s1 (-> & H1 & F1).
  set (de := file_bytes _ _ _ _). rewrite (dirents_drop _ _ _ Hlt Hw). fold de. unfold dir_slot. cbn [list_find].
  change (fst (entry_of de)) with (de_inum de). destruct (Z.eqb_spec (de_inum de) 0) as [H0|H0].
  - rewrite decide_True by done. apply wp_ret. split; [f_equal; lia|done].
  - rewrite decide_False by done. replace (16 * Z.of_nat j + DIRENT) with (16 * Z.of_nat (S j)) by (change DIRENT with 16; lia).
    eapply wp_mono; [apply (IH s1 c i ip (S j)); try done; rewrite dirents_length by lia; lia|].
    intros r s2 (-> & H2 & F2). split; [|split; [done|by etrans]]. unfold dir_slot. destruct (list_find _ (drop (S j) _)) as [[j' x]|]; cbn; lia.
Qed.

Lemma file_ok_frame room s c bs i ip s' : file_ok start size k room s c bs i ip -> cache_rep s' c -> bio_frame s s' -> file_ok start size k room s' c bs i ip.
Proof.
  intros [A B C D] Hc F. pose proof F as (t & dk & P & _ & ->). split; [|done..]. destruct A as [T E1 E2 E3 E4 E5]. split; [|done..].
  destruct T as [L M N]. split; [|done..]. by eapply log_rep_step.
Qed.

Lemma writable_frame blocks s c bs i ip s' : writable start size k blocks s c bs i ip -> cache_rep s' c -> bio_frame s s' ->
  writable start size k blocks s' c bs i ip.
Proof. intros [A1 A2 A3 A4 A5 A6 A7 A8] Hc F. split; [|done..]. by eapply file_ok_frame. Qed.

(** The entries after one was written. *)
Lemma written_entries c ip s' c' bs' i ip' j de : written start size k (16 * Z.of_nat j) 16 de c ip s' c' bs' i ip' ->
  directory (c_view c) ip -> length de = 16%nat -> (j <= length (dirents (c_view c) ip))%nat -> 16 * Z.of_nat j + 16 <= MAXFILE * BSIZE ->
  dirents (c_view c') ip' =
    if decide (j < length (dirents (c_view c) ip))%nat then <[j := entry_of de]> (dirents (c_view c) ip) else dirents (c_view c) ip ++ [entry_of de].
Proof.
  intros W [Ht Hsz Hw Hh] Hde Hj Hend. change (MAXFILE * BSIZE) with 71680 in *. rewrite dirents_length in * by lia.
  pose proof (wn_size _ _ _ _ _ _ _ _ _ _ _ _ _ W) as Hsz'. pose proof (Z.div_mod (i_size ip) 16 ltac:(lia)) as Hdm. set (n := i_size ip / 16) in *.
  assert (i_size ip' / 16 = Z.max n (Z.of_nat j + 1)) as Hn'. { rewrite Hsz'. symmetry. apply (Z.div_unique _ 16 _ 0); lia. }
  assert (forall j', Z.of_nat j' < i_size ip' / 16 -> file_bytes (c_view c') ip' (16 * Z.of_nat j') 16 =
    if decide (j' = j) then de else file_bytes (c_view c) ip (16 * Z.of_nat j') 16) as Hb.
  { intros j' Hj'. apply list_eq_same_length with 16%nat; [destruct (decide (j' = j)); [done|unfold file_bytes; by rewrite length_fmap]|unfold file_bytes; by rewrite length_fmap|].
    intros x a b Hx. unfold file_bytes at 1. rewrite list_lookup_fmap, lookup_seqZ_lt by lia. cbn.
    rewrite (wn_bytes _ _ _ _ _ _ _ _ _ _ _ _ _ W) by (change (MAXFILE * BSIZE) with 71680; lia). intros [= <-]. destruct (decide (j' = j)) as [->|Hne].
    - rewrite decide_True by lia. replace (Z.to_nat _) with x by lia. unfold byte_at. by intros ->.
    - rewrite decide_False by lia. unfold file_bytes. rewrite list_lookup_fmap, lookup_seqZ_lt by lia. by intros [= <-]. }
  apply list_eq. intros j'. destruct (decide (Z.of_nat j' < i_size ip' / 16)) as [Hlt|Hge].
  - rewrite dirents_lookup, (Hb j' Hlt) by done. destruct (decide (j < Z.to_nat n)%nat) as [Hc|Hc].
    + destruct (decide (j' = j)) as [->|Hne]; [by rewrite list_lookup_insert_eq by (rewrite dirents_length by lia; lia)|].
      rewrite list_lookup_insert_ne, dirents_lookup by (done || lia). done.
    + destruct (decide (j' = j)) as [->|Hne]; [rewrite lookup_app_r by (rewrite dirents_length by lia; lia)|rewrite lookup_app_l by (rewrite dirents_length by lia; lia)].
      * rewrite dirents_length by lia. by replace (j - Z.to_nat (i_size ip / 16))%nat with 0%nat by lia.
      * by rewrite dirents_lookup by lia.
  - rewrite !lookup_ge_None_2; [done| |]; [case_decide; rewrite ?length_insert, ?length_app, dirents_length by lia; cbn; lia|rewrite dirents_length by lia; lia].
Qed.

(** [iput] of a reference that is not the last one to an unlinked inode. *)
Lemma iput_runs i x s : held s = [] -> icache s !! i = Some x -> (i_ref x = 1 -> i_valid x = true -> i_nlink x <> 0) ->
  runs (iput i) s tt (set_icache (<[i := set_i_ref (i_ref x - 1) x]> (icache s)) s).
Proof.
  intros Hh Hi Hn e. unfold iput. unfold bind at 1. rewrite acquire_runs by (rewrite Hh; set_solver). unfold bind at 1. rewrite (inode_at_runs i x) by done.
  assert ((i_ref x =? 1) && i_valid x && (i_nlink x =? 0) = false) as ->.
  { destruct (Z.eqb_spec (i_ref x) 1) as [H1|]; [|done]. destruct (i_valid x); [|done]. cbn [andb]. apply Z.eqb_neq. by apply Hn. }
  cbn [when]. unfold bind at 1, ret at 1. unfold bind at 1. rewrite (upd_inode_runs i x) by done. rewrite (release_runs IcacheLock _ []) by (cbn; rewrite ?Hh; set_solver).
  f_equal. destruct s; cbn in *. by subst.
Qed.

(** Getting an inode and putting it back changes no entry in use. *)
Lemma iget_iput s dev inum i ic' : held s = [] -> igot dev inum (icache s) i ic' ->
  exists ic2, runs (iput i) (set_icache ic' s) tt (set_icache ic2 s) /\ forall j y, icache s !! j = Some y -> 0 < i_ref y -> ic2 !! j = Some y.
Proof.
  intros Hh Hg. destruct Hg as [i x Hi (Hr & Hd & Hn)|i x Hno Hi H0]; pose proof (lookup_lt_Some _ _ _ Hi) as Hlt.
  - exists (icache s). split; [|done]. set (x1 := set_i_ref (i_ref x + 1) x). pose proof (iput_runs i x1 (set_icache (<[i := x1]> (icache s)) s) Hh) as Hp.
    cbn [icache set_icache] in Hp. rewrite list_lookup_insert_eq in Hp by done. specialize (Hp eq_refl ltac:(unfold x1; cbn; lia)). rewrite list_insert_insert_eq in Hp.
    change (set_i_ref (i_ref x1 - 1) x1) with (set_i_ref (i_ref x + 1 - 1) x) in Hp. replace (i_ref x + 1 - 1) with (i_ref x) in Hp by lia.
    replace (set_i_ref (i_ref x) x) with x in Hp by (by destruct x). rewrite (list_insert_id (icache s) i x Hi) in Hp. exact Hp.
  - set (x1 := claimed dev inum x). exists (<[i := set_i_ref 0 x1]> (icache s)). pose proof (iput_runs i x1 (set_icache (<[i := x1]> (icache s)) s) Hh) as Hp.
    cbn [icache set_icache] in Hp. rewrite list_lookup_insert_eq in Hp by done. specialize (Hp eq_refl ltac:(unfold x1; cbn; done)). rewrite list_insert_insert_eq in Hp.
    split; [exact Hp|]. intros j y Hj Hy. rewrite list_lookup_insert_ne; [done|]. intros <-. rewrite Hi in Hj. injection Hj as <-. lia.
Qed.

Lemma dir_slot_bound es : (dir_slot es <= length es)%nat.
Proof. unfold dir_slot. destruct (list_find _ es) as [[j e]|] eqn:E; [|done]. apply list_find_Some in E as (E & _). apply lookup_lt_Some in E. lia. Qed.

(** The entry [dirlink] writes. *)
Lemma dirlink_map es nm inum : inum <> 0 -> dir_map es !! nm = None ->
  dir_map (if decide (dir_slot es < length es)%nat then <[dir_slot es := (inum, nm)]> es else es ++ [(inum, nm)]) = <[nm := inum]> (dir_map es).
Proof.
  intros Hi Hn. unfold dir_slot. destruct (list_find _ es) as [[j e]|] eqn:E.
  - apply list_find_Some in E as (E & He & _). rewrite decide_True by (by eapply lookup_lt_Some). by eapply dir_map_insert.
  - rewrite decide_False by lia. by apply dir_map_snoc.
Qed.

(** The directory after [dirlink] has added the name. *)
Record linked (s : kstate) (c : cache) (i : nat) (ip : inode) (nm : list Z) (inum : Z) (s' : kstate) (c' : cache) (bs' : list Z) (ip' : inode) : Prop := {
  ln_file : file_ok start size k 0 s' c' bs' i ip';
  ln_dir : directory (c_view c') ip';
  ln_map : dir_map (dirents (c_view c') ip') = <[nm := inum]> (dir_map (dirents (c_view c) ip));
  ln_saved : inode_saved k (c_view c') ip';
  ln_same : ip' = set_i_size (i_size ip') (set_i_addrs (i_addrs ip') ip);
  ln_frame : fs_frame i s s';
  ln_others ip2 o : inode_ok k start size (c_size c) (c_view c) ip2 -> apart (c_view c) ip ip2 -> 0 <= o < MAXFILE * BSIZE ->
    file_byte (c_view c') ip2 o = file_byte (c_view c) ip2 o
}.

Lemma dirlink_new s c bs i ip name inum : writable start size k 1 s c bs i ip -> directory (c_view c) ip -> Forall is_byte name -> 0 < inum < 2 ^ 16 ->
  16 * Z.of_nat (dir_slot (dirents (c_view c) ip)) + 16 <= MAXFILE * BSIZE -> (forall n, icache_room (i_dev ip) n (icache s)) ->
  dir_map (dirents (c_view c) ip) !! dir_name name = None ->
  wp (dirlink i name inum) s (fun r s' => r = 0 /\ exists c' bs' ip', linked s c i ip (dir_name name) inum s' c' bs' ip').
Proof.
  intros Hw D Hn Hinum Hend Hroom Hnone. unfold dirlink. pose proof (file_ok_readable _ _ _ _ _ _ _ _ _ (wr_file _ _ _ _ _ _ _ _ _ Hw)) as Hrd.
  pose proof (di_size _ _ D) as Hsz. set (es := dirents (c_view c) ip) in *. pose proof (dir_slot_bound es) as Hsl.
  apply wp_bind. eapply wp_mono; [by apply (dirlookup_spec name s c i ip Hrd D Hn)|]. intros r s1. fold es. pose proof Hnone as Hm. rewrite dir_map_find in Hnone. apply fmap_None in Hnone. rewrite Hnone.
  intros (-> & H1 & F1). eapply wp_bind_runs; [apply inode_at_runs, H1|]. apply wp_bind.
  eapply wp_mono; [apply (dirlink_slot_spec (Z.to_nat (i_size ip)) s1 c i ip 0 H1 D); fold es; unfold es; rewrite dirents_length by lia; [|lia]|].
  { cbn [Nat.add]. apply Z2Nat.inj_le; [apply Z.div_pos; lia|lia|]. apply Z.div_le_upper_bound; lia. }
  fold es. rewrite drop_0. cbn [Nat.add]. intros off s2 (-> & H2 & F2). destruct (mk_dirent_ok inum name Hn) as [Hdl Hdb]. apply wp_bind.
  assert (bio_frame s s2) as F by (by etrans).
  eapply wp_mono; [apply (writei_spec start size k 1 s2 c bs i ip); [eapply writable_frame; [exact Hw|apply H2|done]|..]|].
  - unfold es in Hsl. rewrite dirents_length in Hsl by lia. fold es in Hsl. pose proof (Z.div_mod (i_size ip) 16 ltac:(lia)). pose proof (di_whole _ _ D). lia.
  - done.
  - done.
  - by rewrite Hdl.
  - done.
  - right. change BSIZE with 512. change DIRENT with 16. change (512 * Z.of_nat 1) with 512. pose proof (Z.mod_pos_bound (16 * Z.of_nat (dir_slot es)) 512 ltac:(lia)).
    pose proof (Z.div_mod (16 * Z.of_nat (dir_slot es)) 512 ltac:(lia)). lia.
  - intros n s3 (-> & c' & bs' & ip' & W & F3 & S3 & E3). cbn [negb]. change DIRENT with 16 in *. rewrite Z.eqb_refl. apply wp_ret. split; [done|]. exists c', bs', ip'.
    pose proof (written_entries c ip s3 c' bs' i ip' _ _ W D Hdl Hsl Hend) as Hes. fold es in Hes. rewrite mk_dirent_entry in Hes by lia.
    split; [apply W| | |apply W|done| |apply W].
    + pose proof (wn_size _ _ _ _ _ _ _ _ _ _ _ _ _ W) as Hsz'. pose proof D as [D1 D2 D3 D4]. split.
      * by rewrite (wn_type _ _ _ _ _ _ _ _ _ _ _ _ _ W).
      * rewrite Hsz'. lia.
      * rewrite Hsz'. destruct (Z.max_spec (i_size ip) (16 * Z.of_nat (dir_slot es) + 16)) as [[_ ->]|[_ ->]]; [|done].
        replace (_ + 16) with ((Z.of_nat (dir_slot es) + 1) * 16) by lia. apply Z_mod_mult.
      * apply W.
    + rewrite Hes. apply dirlink_map; [lia|exact Hm].
    + etrans; [|exact F3]. destruct F as (t & dk & P & _ & ->). done.
Qed.

Lemma dirlink_taken s c bs i ip name inum : writable start size k 1 s c bs i ip -> directory (c_view c) ip -> Forall is_byte name -> 1 <= i_ref ip ->
  (forall n, icache_room (i_dev ip) n (icache s)) -> is_Some (dir_map (dirents (c_view c) ip) !! dir_name name) ->
  wp (dirlink i name inum) s (fun r s' => r = -1 /\ readable start size k s' c i ip /\
    forall j y, icache s !! j = Some y -> 0 < i_ref y -> icache s' !! j = Some y).
Proof.
  intros Hw D Hn Href Hroom Hsome. unfold dirlink. pose proof (file_ok_readable _ _ _ _ _ _ _ _ _ (wr_file _ _ _ _ _ _ _ _ _ Hw)) as Hrd.
  apply wp_bind. eapply wp_mono; [by apply (dirlookup_spec name s c i ip Hrd D Hn)|]. intros r s'. rewrite dir_map_find in Hsome.
  destruct (list_find _ _) as [[j [n x]]|]; [|by destruct Hsome]. intros (s1 & i' & ic' & -> & H1 & F1 & Hg & ->). cbn [looked_up].
  assert (icache s1 = icache s) as Hic by (by destruct F1 as (? & ? & ? & _ & ->)). rewrite <- Hic in Hg.
  destruct (iget_iput s1 _ _ _ _ (cr_held _ _ (rd_cache _ _ _ _ _ _ _ H1)) Hg) as (ic2 & Hrun & Hkeep). rewrite Hic in Hkeep. eapply wp_bind_runs; [exact Hrun|].
  apply wp_ret. split; [done|]. split; [|exact Hkeep]. destruct H1 as [A B C E G]. split; [by apply cache_rep_icache|done|done| |done]. cbn. apply Hkeep; [|lia]. by rewrite <- Hic.
Qed.

Lemma free_entry_room ic dev n : Exists (fun y => i_ref y = 0) ic -> icache_room dev n ic.
Proof. intros (y & Hy & H0)%list.Exists_exists. apply list_elem_of_lookup in Hy as [j Hj]. exists j, y. split; [done|by right]. Qed.

Lemma linked_free s c i ip nm inum s' c' bs' ip' : linked s c i ip nm inum s' c' bs' ip' -> icache s !! i = Some ip -> 1 <= i_ref ip ->
  Exists (fun y => i_ref y = 0) (icache s) -> Exists (fun y => i_ref y = 0) (icache s').
Proof.
  intros L Hi Hr (y & Hy & H0)%list.Exists_exists. apply list_elem_of_lookup in Hy as [j Hj]. apply list.Exists_exists. exists y. split; [|done].
  apply (list_elem_of_lookup_2 _ j). destruct (ln_frame _ _ _ _ _ _ _ _ _ _ L) as (_ & _ & _ & Hf). rewrite Hf; [done|]. intros ->. rewrite Hi in Hj. injection Hj as <-. lia.
Qed.

(** C6: a directory is a map from names to inodes, and [dirlink] and [dirlookup]
    are its insertion and lookup: after a new name is linked, in a transaction
    with room for one block, a lookup of any name gives what the updated map
    says, as an entry of the inode cache; the inode of the directory is saved
    and the contents of the other files are as before. *)
Theorem dirlink_lookup s c bs i ip name inum name' : writable start size k 1 s c bs i ip -> directory (c_view c) ip -> 1 <= i_ref ip ->
  Exists (fun y => i_ref y = 0) (icache s) -> Forall is_byte name -> Forall is_byte name' -> 0 < inum < 2 ^ 16 ->
  16 * Z.of_nat (dir_slot (dirents (c_view c) ip)) + 16 <= MAXFILE * BSIZE -> dir_map (dirents (c_view c) ip) !! dir_name name = None ->
  wp (let! r := dirlink i name inum in let! q := dirlookup i name' in ret (r, q)) s (fun p s' => fst p = 0 /\
    match <[dir_name name := inum]> (dir_map (dirents (c_view c) ip)) !! dir_name name' with
    | None => snd p = None
    | Some n => exists i' off x, snd p = Some (i', off) /\ icache s' !! i' = Some x /\ refers (i_dev ip) n x
    end /\ exists c' ip', cache_rep s' c' /\ inode_saved k (c_view c') ip' /\
      dir_map (dirents (c_view c') ip') = <[dir_name name := inum]> (dir_map (dirents (c_view c) ip)) /\
      forall ip2 o, inode_ok k start size (c_size c) (c_view c) ip2 -> apart (c_view c) ip ip2 -> 0 <= o < MAXFILE * BSIZE ->
        file_byte (c_view c') ip2 o = file_byte (c_view c) ip2 o).
Proof.
  intros Hw D Href Hfree Hn Hn' Hinum Hend Hnone. pose proof (fo_inode _ _ _ _ _ _ _ _ _ (wr_file _ _ _ _ _ _ _ _ _ Hw)) as Hi.
  apply wp_bind. eapply wp_mono; [apply (dirlink_new s c bs i ip name inum); try done; intros n; by apply free_entry_room|].
  intros r s1 (-> & c1 & bs1 & ip1 & L). pose proof (file_ok_readable _ _ _ _ _ _ _ _ _ (ln_file _ _ _ _ _ _ _ _ _ _ L)) as Hrd.
  apply wp_bind. eapply wp_mono; [apply (dirlookup_spec name' s1 c1 i ip1 Hrd (ln_dir _ _ _ _ _ _ _ _ _ _ L) Hn'); intros n; apply free_entry_room; by eapply linked_free|].
  intros q s2 Hq. apply wp_ret. split; [done|]. rewrite <- (ln_map _ _ _ _ _ _ _ _ _ _ L), dir_map_find.
  assert (i_dev ip1 = i_dev ip) as Hdev by (rewrite (ln_same _ _ _ _ _ _ _ _ _ _ L); done).
  destruct (list_find _ _) as [[j [n y]]|]; cbn in *.
  - destruct Hq as (s3 & i' & ic' & -> & H3 & F3 & Hg & ->). split.
    + destruct (igot_entry _ _ _ _ _ Hg) as (x & Hx & Hrf & _). exists i', (16 * Z.of_nat j), x. rewrite <- Hdev. done.
    + exists c1, ip1. split; [apply cache_rep_icache, H3|]. split; [apply L|]. split; [done|apply L].
  - destruct Hq as (-> & H2 & F2). split; [done|]. exists c1, ip1. split; [apply H2|]. split; [apply L|]. split; [done|apply L].
Qed.
End Directory.
