(* ===== verification/Namei.v ===== *)
(** * Path names

    What [namei] and [nameiparent] of fs.c promise: on a well-formed file system
    whose inodes nobody has locked, a path leads where the directories say, the
    caller gets one reference to the inode, and every other reference count is
    as before. *)

From S2P Require Import Prelude Bytes Cstring Kstate Sync Disk Bio Cache Log Commit Crash Txn Kalloc Pipe Fs Dinode Alloc Content File Dir Readwrite Directory.
Import Str.
Local Open Scope Z_scope.

(** ** Reference counts *)
Definition refs (ic : list inode) : list Z := i_ref <$> ic.
Definition bump (i : nat) (R : list Z) : list Z := alter (Z.add 1) i R.

Lemma refs_insert d ic i x y : ic !! i = Some x -> i_ref y = d + i_ref x -> refs (<[i := y]> ic) = alter (Z.add d) i (refs ic).
Proof.
  intros Hi Hy. unfold refs. rewrite list_fmap_insert. apply list_eq. intros j. destruct (decide (j = i)) as [->|Hne].
  - rewrite list_lookup_insert_eq by (rewrite length_fmap; by eapply lookup_lt_Some). rewrite list_lookup_alter_eq, list_lookup_fmap, Hi. cbn. by f_equal.
  - by rewrite list_lookup_insert_ne, list_lookup_alter_ne.
Qed.

Lemma refs_keep ic i x y : ic !! i = Some x -> i_ref y = i_ref x -> refs (<[i := y]> ic) = refs ic.
Proof. intros Hi Hr. unfold refs. rewrite list_fmap_insert, Hr. apply list_insert_id. by rewrite list_lookup_fmap, Hi. Qed.

Lemma igot_refs dev inum ic i ic' : igot dev inum ic i ic' -> refs ic' = bump i (refs ic).
Proof. intros [? x Hi (Hr & Hd & Hn)|? x Hno Hi H0]; apply (refs_insert 1 _ _ x); cbn; try done; lia. Qed.

(** A reference moves from entry [i] to entry [i']. *)
Lemma bump_move i i' R : alter (Z.add (-1)) i (bump i' (bump i R)) = bump i' R.
Proof.
  unfold bump. apply list_eq. intros j. destruct (decide (j = i)) as [->|Hne].
  - rewrite list_lookup_alter_eq. destruct (decide (i = i')) as [->|Hne']; rewrite ?list_lookup_alter_eq, ?(list_lookup_alter_ne _ _ i') by done;
      rewrite ?list_lookup_alter_eq; destruct (R !! _) as [r|]; cbn; f_equal; lia.
  - rewrite list_lookup_alter_ne by done. destruct (decide (j = i')) as [->|Hne']; [rewrite !list_lookup_alter_eq, list_lookup_alter_ne by done; done|].
    by rewrite !list_lookup_alter_ne by done.
Qed.

Lemma bump_drop i R : alter (Z.add (-1)) i (bump i R) = R.
Proof.
  unfold bump. apply list_eq. intros j. destruct (decide (j = i)) as [->|Hne]; [|by rewrite !list_lookup_alter_ne].
  rewrite !list_lookup_alter_eq. destruct (R !! i) as [r|]; cbn; [f_equal; lia|done].
Qed.

(** Reference counts with which two entries of the cache are free. *)
Definition two_free (R : list Z) : Prop :=
  Forall (Z.le 0) R /\ exists j1 j2, j1 <> j2 /\ R !! j1 = Some 0 /\ R !! j2 = Some 0.

Lemma two_free_room R ic i dev n : two_free R -> refs ic = bump i R -> icache_room dev n ic.
Proof.
  intros (_ & j1 & j2 & Hne & H1 & H2) Hr. assert (exists j, j <> i /\ R !! j = Some 0) as (j & Hj & H0).
  { destruct (decide (j1 = i)) as [->|]; [by exists j2|by exists j1]. }
  assert (refs ic !! j = Some 0) as Hz by (rewrite Hr; unfold bump; by rewrite list_lookup_alter_ne).
  unfold refs in Hz. rewrite list_lookup_fmap in Hz. destruct (ic !! j) as [x|] eqn:E; [|done]. injection Hz as Hz. exists j, x. split; [done|by right].
Qed.

(** The path code changes nothing but buffers, disk and the inode cache; processes
    that wait for one of them are woken. *)
Definition moves (s s' : kstate) : Prop := exists ic, bio_frame (set_icache ic s) s'.

#[export] Instance moves_preorder : PreOrder moves.
Proof.
  split.
  - intros s. exists (icache s). by destruct s.
  - intros s1 s2 s3 [ic1 (t1 & k1 & P1 & W1 & ->)] [ic2 (t2 & k2 & P2 & W2 & ->)]. exists ic2, t2, k2, P2. split; [by etrans|done].
Qed.

Lemma moves_icache ic s : moves s (set_icache ic s).
Proof. exists ic. reflexivity. Qed.

Lemma moves_bio s s' : bio_frame s s' -> moves s s'.
Proof. intros F. exists (icache s). destruct F as (t & dk & P & W & ->). exists t, dk, P. by destruct s. Qed.

(** ** The file system *)
Section Namei.
Context {Dev : BlockDev} {Sw : DevSw}.
Context (start size : Z) (k : superblock).

(** The inode on disk, with the bookkeeping fields of [ip0]. *)
Definition dinode (V : gmap Z block) (inum : Z) (ip0 : inode) : inode :=
  load_dinode (blk V (IBLOCK inum k)) (dinode_off inum) ip0.

Definition no_inode : inode := mkInode 0 0 0 false false 0 0 0 0 0 [].

Definition dtype (V : gmap Z block) (inum : Z) : Z := i_type (dinode V inum no_inode).
Definition ddir (V : gmap Z block) (inum : Z) : gmap (list Z) Z := dir_map (dirents V (dinode V inum no_inode)).

(** [L] is a set of inodes in use, linked, whose directories lead to inodes of
    [L] only. *)
Record fs_tree (dsize : Z) (V : gmap Z block) (L : gset Z) : Prop := {
  ft_range inum : inum ∈ L -> 0 < inum < sb_ninodes k /\ 0 <= IBLOCK inum k < dsize;
  ft_type inum : inum ∈ L -> dtype V inum <> 0;
  ft_linked inum : inum ∈ L -> i_nlink (dinode V inum no_inode) <> 0;
  ft_inode inum ip0 : inum ∈ L -> i_dev ip0 = 1 -> inode_ok k start size dsize V (dinode V inum ip0);
  ft_dir inum : inum ∈ L -> dtype V inum = T_DIR -> directory V (dinode V inum no_inode);
  ft_entry inum nm n : inum ∈ L -> dtype V inum = T_DIR -> ddir V inum !! nm = Some n -> n ∈ L
}.

(** Where the elements of a path lead, or the directory of the last one. *)
Fixpoint walk (V : gmap Z block) (parent : bool) (inum : Z) (path : list (list Z)) : option Z :=
  match path with
  | [] => if parent then None else Some inum
  | e :: rest =>
      if negb (dtype V inum =? T_DIR) then None
      else if parent && match rest with [] => true | _ => false end then Some inum
      else match ddir V inum !! take DIRSIZ e with Some n => walk V parent n rest | None => None end
  end.

(** A kernel in which no buffer and no inode is locked; inodes in memory are as
    on disk. *)
Record quiet (s : kstate) (c : cache) : Prop := {
  qu_cache : cache_rep s c;
  qu_busy : c_busy c = ∅;
  qu_inuse : (c_inuse c < NBUF)%nat;
  qu_sb : sb s = k
}.

Definition saved_inode (V : gmap Z block) (x : inode) : Prop :=
  0 < i_ref x -> i_busy x = false /\ (i_valid x = true -> i_dev x = 1 -> inode_saved k V x).

Definition icache_ok (V : gmap Z block) (ic : list inode) : Prop := Forall (saved_inode V) ic.

Lemma icache_ok_insert V ic i x : icache_ok V ic -> saved_inode V x -> icache_ok V (<[i := x]> ic).
Proof. intros H Hx. by apply Forall_insert. Qed.

Lemma quiet_icache s c ic : quiet s c -> quiet (set_icache ic s) c.
Proof. intros [A B C D]. split; [by apply cache_rep_icache|done..]. Qed.

Lemma quiet_frame s c s' : quiet s c -> cache_rep s' c -> bio_frame s s' -> quiet s' c.
Proof. intros [A B C D] Hc F. split; [done..|]. by destruct F as (? & ? & ? & _ & ->). Qed.

(** Reading a block. *)
Lemma read_block {A} s c n (m : block -> nat -> K A) (Q : A -> kstate -> Prop) : quiet s c -> 0 <= n < c_size c ->
  (forall b s1, cache_rep s1 (c_acquire n b c) -> bio_frame s s1 -> wp (m (blk (c_view c) n) b) s1 Q) ->
  wp (let! b := bread 1 n in let! d := buf_data b in m d b) s Q.
Proof.
  intros H Hr Hm. destruct (co_view _ (cr_ok _ _ (qu_cache _ _ H)) n Hr) as [d Hd]. rewrite (blk_Some _ _ _ Hd) in Hm. apply wp_bind.
  apply (wp_bread s c n); [apply H|done|by rewrite (qu_busy _ _ H)|right; apply H|].
  intros b s1 R1 F1. apply wp_bind. eapply (wp_buf_data s1 _ n b d); [exact R1|apply lookup_insert_eq|done|]. by apply Hm.
Qed.

Lemma release_block c n b s1 (Q : unit -> kstate -> Prop) : cache_ok c -> c_busy c = ∅ -> cache_rep s1 (c_acquire n b c) ->
  (forall s2, cache_rep s2 c -> bio_frame s1 s2 -> Q tt s2) -> wp (brelse b) s1 Q.
Proof.
  intros Hco Hb R1 HQ. eapply (wp_brelse s1 _ n b); [exact R1|apply lookup_insert_eq| |].
  - cbn. destruct (decide (n ∈ c_dirty c)); [by left|right]. apply (co_clean _ Hco); [done|]. by rewrite Hb.
  - intros s2 R2 F2. rewrite c_free_acquire in R2 by (by rewrite Hb). by apply HQ.
Qed.

(** ** Locking an inode *)

(** The inode as it is once it is locked. *)
Definition locked_inode (V : gmap Z block) (inum : Z) (x : inode) : inode :=
  dinode V inum (set_i_busy true (set_i_valid true x)).

Lemma locked_valid V inum x : i_inum x = inum -> i_valid x = true -> inode_saved k V x -> locked_inode V inum x = set_i_busy true x.
Proof.
  intros Hn Hv Hs. unfold locked_inode, dinode. unfold inode_saved in Hs. rewrite Hn in Hs.
  replace (set_i_valid true x) with x by (by destruct x; cbn in *; subst). by rewrite <- Hs at 2.
Qed.

Lemma ilock_spec s c L i x inum : quiet s c -> fs_tree (c_size c) (c_view c) L -> inum ∈ L -> icache s !! i = Some x -> refers 1 inum x -> saved_inode (c_view c) x ->
  wp (ilock i) s (fun _ s' => exists s1, quiet s1 c /\ bio_frame s s1 /\
    s' = set_icache (<[i := locked_inode (c_view c) inum x]> (icache s)) s1).
Proof.
  intros Hq T HL Hi (Hr & Hd & Hn) Hs. destruct (Hs Hr) as [Hb Hsv]. pose proof (cr_held _ _ (qu_cache _ _ Hq)) as Hh.
  destruct (i_valid x) eqn:Hv.
  { rewrite (locked_valid _ _ x) by auto. eapply runs_wp; [by apply (ilock_runs i x); [| |lia|..]|]. exists s. split; [done|]. split; [reflexivity|done]. }
  set (x1 := set_i_busy true x). pose proof (lookup_lt_Some _ _ _ Hi) as Hlt.
  set (s0 := set_icache (<[i := x1]> (icache s)) s). assert (quiet s0 c) as Hq0 by (by apply quiet_icache).
  assert (wp (let! ip := inode_at i in when (negb (i_valid ip))
     (let! sb := gets sb in let! bp := bread (i_dev ip) (IBLOCK (i_inum ip) sb) in let! d := buf_data bp in do upd_inode i (load_dinode d (dinode_off (i_inum ip)));
      do brelse bp; do upd_inode i (set_i_valid true); let! ip := inode_at i in when (i_type ip =? 0) (panic "ilock: no type"))) s0
     (fun _ s' => exists s1, quiet s1 c /\ bio_frame s s1 /\ s' = set_icache (<[i := locked_inode (c_view c) inum x]> (icache s)) s1)) as ([] & s' & Hrun & HQ).
  { eapply wp_bind_runs; [apply (inode_at_runs i x1); by apply list_lookup_insert_eq|]. cbn [i_valid x1 set_i_busy]. rewrite Hv. cbn [negb when].
    apply wp_bind, wp_gets. change (i_dev x1) with (i_dev x). change (i_inum x1) with (i_inum x). rewrite (qu_sb _ _ Hq0), Hd, Hn.
    apply (read_block s0 c); [done|by apply (ft_range _ _ _ T)|]. intros b s2 R2 F2. assert (icache s2 = <[i := x1]> (icache s)) as Hic2 by (by destruct F2 as (? & ? & ? & _ & ->)).
    apply wp_bind. eapply runs_wp; [apply (upd_inode_runs i x1); rewrite Hic2; by apply list_lookup_insert_eq|]. rewrite Hic2, list_insert_insert_eq.
    set (x2 := load_dinode _ _ x1). apply wp_bind. eapply (release_block c (IBLOCK inum k)); [apply (cr_ok _ _ (qu_cache _ _ Hq))|apply Hq|by apply cache_rep_icache|].
    intros s3 R3 F3. assert (icache s3 = <[i := x2]> (icache s)) as Hic3 by (by destruct F3 as (? & ? & ? & _ & ->)).
    apply wp_bind. eapply runs_wp; [apply (upd_inode_runs i x2); rewrite Hic3; by apply list_lookup_insert_eq|]. rewrite Hic3, list_insert_insert_eq.
    change (set_i_valid true x2) with (locked_inode (c_view c) inum x). eapply wp_bind_runs; [apply inode_at_runs; cbn; by apply list_lookup_insert_eq|].
    pose proof (ft_type _ _ _ T inum HL) as Hty. unfold dtype in Hty. change (i_type (locked_inode (c_view c) inum x)) with (i_type (dinode (c_view c) inum no_inode)).
    rewrite (proj2 (Z.eqb_neq _ _)) by done. cbn [when]. apply wp_ret. exists (set_icache (icache s) s3).
    assert (bio_frame s (set_icache (icache s) s3)) as F. { destruct F2 as (t2 & k2 & P2 & W2 & ->). destruct F3 as (t3 & k3 & P3 & W3 & ->). exists t3, k3, P3. split; [by etrans|by destruct s]. }
    split; [|split; [done|by destruct s3]]. apply (quiet_frame s); [done|by apply cache_rep_icache|done]. }
  exists tt, s'. split; [|done]. intros e. unfold ilock. unfold bind at 1. rewrite (inode_at_runs i x) by done. rewrite (proj2 (Z.ltb_ge _ _)) by lia.
  unfold bind at 1. rewrite acquire_runs by (rewrite Hh; set_solver). unfold bind at 1, pending at 1. unfold bind at 1. rewrite (ilock_wait_free _ i x) by done.
  unfold bind at 1. rewrite (upd_inode_runs i x) by done. unfold bind at 1. rewrite (release_runs IcacheLock _ []) by (cbn; rewrite ?Hh; set_solver).
  rewrite <- (Hrun e). f_equal. unfold s0. destruct s; cbn in *. by subst.
Qed.

(** ** Steps of a walk *)

(** A reference to an inode of [L] that is not needed any more. *)
Lemma saved_linked s c L i x inum : fs_tree (c_size c) (c_view c) L -> inum ∈ L -> refers 1 inum x -> saved_inode (c_view c) x ->
  icache s !! i = Some x -> i_ref x = 1 -> i_valid x = true -> i_nlink x <> 0.
Proof.
  intros T HL (Hr & Hd & Hn) Hs Hi H1 Hv. destruct (Hs Hr) as [_ Hsv]. specialize (Hsv Hv Hd). unfold inode_saved in Hsv. rewrite Hn in Hsv. rewrite <- Hsv. apply (ft_linked _ _ _ T inum HL).
Qed.

Record walking (R : list Z) (s : kstate) (c : cache) (i : nat) (inum : Z) : Prop := {
  wk_quiet : quiet s c;
  wk_icache : icache_ok (c_view c) (icache s);
  wk_entry : exists x, icache s !! i = Some x /\ refers 1 inum x;
  wk_refs : refs (icache s) = bump i R
}.

(** The walk is over without an inode. *)
Record stopped (R : list Z) (s : kstate) (c : cache) : Prop := {
  sp_quiet : quiet s c;
  sp_icache : icache_ok (c_view c) (icache s);
  sp_refs : refs (icache s) = R
}.

Lemma saved_put V x : saved_inode V x -> saved_inode V (set_i_ref (i_ref x - 1) x).
Proof.
  intros Hs Hr. cbn in Hr. destruct (Hs ltac:(lia)) as [Hb Hsv]. split; [done|]. intros Hv Hd. specialize (Hsv Hv Hd). unfold inode_saved in *. cbn.
  change (load_dinode (blk V (IBLOCK (i_inum x) k)) (dinode_off (i_inum x)) (set_i_ref (i_ref x - 1) x)) with (set_i_ref (i_ref x - 1) (load_dinode (blk V (IBLOCK (i_inum x) k)) (dinode_off (i_inum x)) x)).
  by rewrite Hsv.
Qed.

Lemma walking_iput R s c L i inum : fs_tree (c_size c) (c_view c) L -> inum ∈ L -> walking R s c i inum ->
  wp (iput i) s (fun _ s' => moves s s' /\ stopped R s' c).
Proof.
  intros T HL [Hq Hok (x & Hi & Hx) Hr]. assert (saved_inode (c_view c) x) as Hs by (by eapply (proj1 (Forall_lookup _ _) Hok)).
  eapply runs_wp; [apply (iput_runs i x); [apply Hq|done|by eapply saved_linked]|]. split; [apply moves_icache|]. split; cbn.
  - by apply quiet_icache.
  - apply icache_ok_insert; [done|]. by apply saved_put.
  - rewrite (refs_insert (-1) _ _ x), Hr by (done || (cbn; lia)). apply bump_drop.
Qed.

(** An inode of [L] locked by the walk; the others are not. *)
Record locked (s : kstate) (c : cache) (i : nat) (inum : Z) (y : inode) : Prop := {
  lk_quiet : quiet s c;
  lk_entry : icache s !! i = Some y;
  lk_refers : refers 1 inum y;
  lk_busy : i_busy y = true;
  lk_valid : i_valid y = true;
  lk_saved : dinode (c_view c) inum y = y;
  lk_others : icache_ok (c_view c) (<[i := set_i_busy false y]> (icache s))
}.

Lemma walking_ilock R s c L i inum : fs_tree (c_size c) (c_view c) L -> inum ∈ L -> walking R s c i inum ->
  wp (ilock i) s (fun _ s' => exists y, moves s s' /\ locked s' c i inum y /\ refs (icache s') = bump i R).
Proof.
  intros T HL [Hq Hok (x & Hi & Hx) Hr]. assert (saved_inode (c_view c) x) as Hs by (by eapply (proj1 (Forall_lookup _ _) Hok)).
  eapply wp_mono; [by apply (ilock_spec s c L i x inum)|]. intros [] s' (s1 & Hq1 & F1 & ->). exists (locked_inode (c_view c) inum x).
  pose proof (lookup_lt_Some _ _ _ Hi) as Hlt. split; [|split].
  - etrans; [by apply moves_bio|apply moves_icache].
  - split; cbn; try done; [by apply quiet_icache|by apply list_lookup_insert_eq|]. rewrite list_insert_insert_eq. apply icache_ok_insert; [done|].
    intros _. split; [done|]. intros _ _. unfold inode_saved. cbn. destruct Hx as (_ & _ & ->). done.
  - cbn. by rewrite (refs_keep _ _ x).
Qed.

Lemma locked_unlock s c i inum y : locked s c i inum y ->
  wp (iunlock i) s (fun _ s' => moves s s' /\ quiet s' c /\ icache s' = <[i := set_i_busy false y]> (icache s)).
Proof.
  intros [Hq Hi (Hr & Hd & Hn) Hb Hv Hs Ho]. eapply runs_wp; [apply (iunlock_runs i y); [apply Hq|done|lia|done]|]. cbn. split.
  - exists (<[i := set_i_busy false y]> (icache s)). exists (bufs s), (disk s), (wakeup1 (Some (ChInode i)) (ptable s)). split; [apply wakeup1_woken|by destruct s].
  - split; [|done]. destruct Hq as [A B C D]. split; [by apply cache_rep_ptable, cache_rep_icache|done..].
Qed.

Lemma unlocked_saved V inum y : refers 1 inum y -> i_valid y = true -> dinode V inum y = y -> saved_inode V (set_i_busy false y).
Proof.
  intros (Hr & Hd & Hn) Hv Hs _. split; [done|]. intros _ _. unfold inode_saved. cbn. rewrite Hn.
  change (load_dinode (blk V (IBLOCK inum k)) (dinode_off inum) (set_i_busy false y)) with (set_i_busy false (dinode V inum y)). by rewrite Hs.
Qed.

Lemma locked_unlockput R s c L i inum y : fs_tree (c_size c) (c_view c) L -> inum ∈ L -> locked s c i inum y -> refs (icache s) = R ->
  wp (iunlockput i) s (fun _ s' => moves s s' /\ stopped (alter (Z.add (-1)) i R) s' c /\
    icache s' = <[i := set_i_ref (i_ref y - 1) (set_i_busy false y)]> (icache s)).
Proof.
  intros T HL Hl HR. pose proof Hl as [Hq Hi Hx Hb Hv Hs Ho]. pose proof (lookup_lt_Some _ _ _ Hi) as Hlt. unfold iunlockput.
  apply wp_bind. eapply wp_mono; [by eapply locked_unlock|]. intros [] s1 (M1 & Q1 & E1). set (y1 := set_i_busy false y) in *.
  assert (icache s1 !! i = Some y1) as Hi1 by (rewrite E1; by apply list_lookup_insert_eq).
  assert (saved_inode (c_view c) y1) as Hs1 by (by eapply unlocked_saved).
  eapply runs_wp; [apply (iput_runs i y1); [apply Q1|done|by eapply (saved_linked s1 c L i y1 inum)]|].
  split; [etrans; [exact M1|apply moves_icache]|]. cbn. rewrite E1, list_insert_insert_eq. split; [|done]. split; cbn.
  - by apply quiet_icache.
  - rewrite <- (list_insert_insert_eq (icache s) i _ y1). apply icache_ok_insert; [done|]. exact (saved_put _ y1 Hs1).
  - by rewrite (refs_insert (-1) _ _ y), HR by (done || (cbn; lia)).
Qed.

Lemma locked_readable s c L i inum y : fs_tree (c_size c) (c_view c) L -> inum ∈ L -> locked s c i inum y -> readable start size k s c i y.
Proof.
  intros T HL [Hq Hi (Hr & Hd & Hn) Hb Hv Hs Ho]. destruct Hq as [A B C D]. split; try done. rewrite <- Hs. by apply (ft_inode _ _ _ T).
Qed.

Lemma locked_directory s c L i inum y : fs_tree (c_size c) (c_view c) L -> inum ∈ L -> locked s c i inum y ->
  i_type y = dtype (c_view c) inum /\ (dtype (c_view c) inum = T_DIR -> directory (c_view c) y /\ dir_map (dirents (c_view c) y) = ddir (c_view c) inum).
Proof.
  intros T HL Hl. rewrite <- (lk_saved _ _ _ _ _ Hl). split; [done|]. intros Ht. split; [|done]. by destruct (ft_dir _ _ _ T inum HL Ht).
Qed.
End Namei.

(** ** Path elements *)
Definition path_char (c : Z) : Prop := 0 < c < 256.

Lemma path_nonzero path : Forall path_char path -> Forall (fun c => c <> 0) path.
Proof. intros H. eapply list.Forall_impl; [exact H|]. unfold path_char. lia. Qed.

Lemma skipelem_none path name : Forall (fun c => c <> 0) path -> skipelem path name = None -> path_elems path = [].
Proof.
  intros Hp Hs. unfold skipelem in Hs. rewrite <- skip_slashes_elems. apply skip_slashes_suffix in Hp.
  destruct (Z.eqb_spec (peek (skip_slashes path)) 0) as [H0|]; [|by destruct (split_elem _)].
  destruct (skip_slashes path) as [|c p]; [done|]. inversion Hp. unfold peek, byte_at in H0. cbn in H0. done.
Qed.

Lemma skip_slashes_sub P path : Forall P path -> Forall P (skip_slashes path).
Proof. induction 1 as [|c p Hc Hp IH]; cbn; [done|]. destruct (c =? slash); [done|by constructor]. Qed.

Lemma split_elem_sub (P : Z -> Prop) path : Forall P path -> Forall P (fst (split_elem path)) /\ Forall P (snd (split_elem path)).
Proof.
  induction 1 as [|c p Hc Hp IH]; cbn; [done|]. destruct (_ || _); cbn; [split; [done|by constructor]|].
  destruct (split_elem p) as [a b]; cbn in *. destruct IH. split; [by constructor|done].
Qed.

Lemma skipelem_sub path name rest name' : Forall path_char path -> Forall is_byte name -> skipelem path name = Some (rest, name') ->
  Forall path_char rest /\ Forall is_byte name'.
Proof.
  intros Hp Hn. unfold skipelem. destruct (peek _ =? 0); [done|]. pose proof (split_elem_sub _ _ (skip_slashes_sub _ _ Hp)) as [H1 H2].
  destruct (split_elem (skip_slashes path)) as [e r]; cbn in *. intros [= <- <-]. split; [by apply skip_slashes_sub|].
  assert (Forall is_byte e) as He by (eapply list.Forall_impl; [exact H1|]; unfold path_char, is_byte; lia).
  assert (forall src, Forall is_byte src -> Forall is_byte (splice name 0 src)) as Hsp.
  { intros src Hsrc. by apply (splice_ok (length name)). }
  case_match; [by apply Hsp, Forall_take|]. apply Forall_insert; [by apply Hsp|unfold is_byte; lia].
Qed.

(** After an element and the slashes behind it, the path is at its end exactly
    when there is no element left. *)
Lemma skipelem_rest path name rest name' : Forall (fun c => c <> 0) path -> length name = DIRSIZ -> skipelem path name = Some (rest, name') ->
  (peek rest =? 0) = match path_elems rest with [] => true | _ => false end.
Proof.
  intros Hp Hn Hs. destruct (skipelem_step path name rest name' Hp Hn Hs) as (_ & _ & _ & Hr & _).
  assert (peek rest <> slash) as Hns.
  { unfold skipelem in Hs. destruct (peek _ =? 0); [done|]. destruct (split_elem _) as [e r]. injection Hs as <- _. apply skip_slashes_peek. }
  destruct rest as [|c rest]; [done|]. unfold peek, byte_at in *. cbn in Hns |- *. inversion Hr as [|? ? Hc Hr']; subst.
  rewrite (proj2 (Z.eqb_neq _ _)) by done. unfold path_elems. cbn. rewrite (proj2 (Z.eqb_neq _ _)) by done.
  assert (forall l cur, cur <> [] -> elems cur l <> []) as Hne.
  { clear. induction l as [|d l IH]; intros cur Hc; cbn; [by destruct cur|]. destruct (d =? slash); [by destruct cur|by apply IH]. }
  specialize (Hne rest [c] ltac:(done)). by destruct (elems [c] rest).
Qed.

(** ** The walk *)
Section Walk.
Context {Dev : BlockDev} {Sw : DevSw}.
Context (start size : Z) (k : superblock).

Lemma saved_got V x : saved_inode k V x -> 0 < i_ref x -> saved_inode k V (set_i_ref (i_ref x + 1) x).
Proof.
  intros Hs Hr _. destruct (Hs Hr) as [Hb Hsv]. split; [done|]. intros Hv Hd. specialize (Hsv Hv Hd). unfold inode_saved in *. cbn.
  change (load_dinode (blk V (IBLOCK (i_inum x) k)) (dinode_off (i_inum x)) (set_i_ref (i_ref x + 1) x)) with
    (set_i_ref (i_ref x + 1) (load_dinode (blk V (IBLOCK (i_inum x) k)) (dinode_off (i_inum x)) x)). by rewrite Hsv.
Qed.

(** [iget] while an inode is locked. *)
Lemma locked_iget s c i inum y n i' ic' : locked k s c i inum y -> igot 1 n (icache s) i' ic' ->
  exists y', locked k (set_icache ic' s) c i inum y' /\ exists x, ic' !! i' = Some x /\ refers 1 n x.
Proof.
  intros [Hq Hi Hx Hb Hv Hs Ho] Hg. pose proof (lookup_lt_Some _ _ _ Hi) as Hlt.
  destruct (igot_entry _ _ _ _ _ Hg) as (x & Hx' & Hrx & Hother). destruct (decide (i' = i)) as [->|Hne].
  - assert (ic' = <[i := set_i_ref (i_ref y + 1) y]> (icache s)) as ->.
    { inversion Hg as [? z Hz Hrz E1 E2|? z Hno Hz H0 E1 E2]; subst; rewrite Hi in Hz; injection Hz as <-; [done|]. destruct Hx; lia. }
    exists (set_i_ref (i_ref y + 1) y). split; [|by exists x]. destruct Hx as (Hr & Hd & Hn).
    assert (forall r, dinode k (c_view c) inum (set_i_ref r y) = set_i_ref r y) as Hs'.
    { intros r. change (dinode k (c_view c) inum (set_i_ref r y)) with (set_i_ref r (dinode k (c_view c) inum y)). by rewrite Hs. }
    split; cbn; try done; [by apply quiet_icache|by apply list_lookup_insert_eq|unfold refers; cbn; lia|]. rewrite list_insert_insert_eq.
    rewrite <- (list_insert_insert_eq (icache s) i _ (set_i_busy false y)). apply icache_ok_insert; [done|].
    apply (unlocked_saved k _ inum); [unfold refers; cbn; lia|done|done].
  - exists y. split; [|by exists x]. split; cbn; try done; [by apply quiet_icache|by rewrite Hother|].
    assert (exists z, ic' = <[i' := z]> (icache s) /\ saved_inode k (c_view c) z) as (z & -> & Hz).
    { inversion Hg as [? z Hz Hrz E1 E2|? z Hno Hz H0 E1 E2]; subst; eexists; (split; [done|]).
      - apply saved_got; [|apply Hrz]. apply (proj1 (Forall_lookup _ _) Ho i'). by rewrite list_lookup_insert_ne.
      - intros _. done. }
    rewrite list_insert_insert_ne by done. by apply icache_ok_insert.
Qed.

Lemma locked_bio s c i inum y s' : locked k s c i inum y -> cache_rep s' c -> bio_frame s s' -> locked k s' c i inum y.
Proof.
  intros [Hq Hi Hx Hb Hv Hs Ho] Hc F. assert (icache s' = icache s) as Hic by (by destruct F as (? & ? & ? & _ & ->)).
  split; rewrite ?Hic; try done. by eapply quiet_frame.
Qed.

(** Looking a name up in the locked directory and unlocking it. *)
Lemma walking_descend R s c L i inum y name : fs_tree start size k (c_size c) (c_view c) L -> inum ∈ L -> two_free R -> locked k s c i inum y ->
  refs (icache s) = bump i R -> dtype k (c_view c) inum = T_DIR -> Forall is_byte name ->
  wp (dirlookup i name) s (fun r s' => match ddir k (c_view c) inum !! dir_name name with
    | None => r = None /\ moves s s' /\ locked k s' c i inum y /\ refs (icache s') = bump i R
    | Some n => exists i' off y', r = Some (i', off) /\ moves s s' /\ locked k s' c i inum y' /\
        refs (icache s') = bump i' (bump i R) /\ exists x, icache s' !! i' = Some x /\ refers 1 n x
    end).
Proof.
  intros T HL Hfree Hl Hr Ht Hn. pose proof (locked_readable _ _ _ _ _ _ _ _ _ T HL Hl) as Hrd.
  destruct (locked_directory _ _ _ _ _ _ _ _ _ T HL Hl) as [_ [D Hm]]; [done|]. pose proof (lk_refers _ _ _ _ _ _ Hl) as (_ & Hdev & _).
  eapply wp_mono; [apply (dirlookup_spec start size k name s c i y Hrd D Hn); intros n; by eapply two_free_room|].
  intros r s'. rewrite <- Hm, dir_map_find. destruct (list_find _ _) as [[j [n z]]|]; cbn.
  - intros (s1 & i' & ic' & -> & H1 & F1 & Hg & ->). rewrite Hdev in Hg. assert (icache s1 = icache s) as Hic by (by destruct F1 as (? & ? & ? & _ & ->)).
    assert (locked k s1 c i inum y) as Hl1 by (by eapply locked_bio; [|apply H1|]). rewrite <- Hic in Hg.
    destruct (locked_iget s1 c i inum y n i' ic' Hl1 Hg) as (y' & Hl' & Hx). exists i', (16 * Z.of_nat j), y'. split; [done|].
    split; [etrans; [by apply moves_bio|apply moves_icache]|]. split; [done|]. split; [|done]. change (icache (set_icache ic' s1)) with ic'. by rewrite (igot_refs _ _ _ _ _ Hg), Hic, Hr.
  - intros (-> & H2 & F2). split; [done|]. split; [by apply moves_bio|]. split; [by eapply locked_bio; [|apply H2|]|].
    destruct F2 as (? & ? & ? & _ & ->). done.
Qed.

(** What a walk from [inum] along [path] ends with. *)
Definition resolved (R : list Z) (s : kstate) (c : cache) (parent : bool) (inum : Z) (path : list (list Z)) (r : option nat * list Z) (s' : kstate) : Prop :=
  moves s s' /\
  match walk k (c_view c) parent inum path with
  | Some n => exists i, fst r = Some i /\ walking k R s' c i n /\
      (parent = true -> exists e, list.last path = Some e /\ dir_name (snd r) = take DIRSIZ e)
  | None => fst r = None /\ stopped k R s' c
  end.

Lemma walking_next R s c L i inum y i' n x : fs_tree start size k (c_size c) (c_view c) L -> inum ∈ L -> two_free R -> locked k s c i inum y ->
  refs (icache s) = bump i' (bump i R) -> icache s !! i' = Some x -> refers 1 n x ->
  wp (iunlockput i) s (fun _ s' => moves s s' /\ walking k R s' c i' n).
Proof.
  intros T HL [Hpos _] Hl Hr Hx Hrx. pose proof (lk_entry _ _ _ _ _ _ Hl) as Hi. pose proof (lookup_lt_Some _ _ _ Hi) as Hlt.
  eapply wp_mono; [by apply (locked_unlockput start size k (bump i' (bump i R)) s c L i inum y)|]. intros [] s' (M & [Q Ok Rf] & Hic). split; [done|].
  split; [done|done| |by rewrite Rf, bump_move]. rewrite Hic. destruct (decide (i' = i)) as [->|Hne]; [|exists x; by rewrite list_lookup_insert_ne].
  rewrite Hi in Hx. injection Hx as <-. rewrite list_lookup_insert_eq by done. eexists. split; [done|]. destruct Hrx as (H1 & H2 & H3). unfold refers; cbn. split; [|done].
  assert (refs (icache s) !! i = Some (i_ref y)) as Hry by (unfold refs; by rewrite list_lookup_fmap, Hi).
  rewrite Hr in Hry. unfold bump in Hry. rewrite !list_lookup_alter_eq in Hry. destruct (R !! i) as [r|] eqn:E; [|done]. cbn in Hry. injection Hry as Hry.
  pose proof (proj1 (Forall_lookup _ _) Hpos i r E). cbn in *. lia.
Qed.

Lemma namex_loop_spec R c L parent : fs_tree start size k (c_size c) (c_view c) L -> two_free R -> forall fuel path name s i inum,
  Forall path_char path -> length name = DIRSIZ -> Forall is_byte name -> (length path <= fuel)%nat -> inum ∈ L -> walking k R s c i inum ->
  wp (namex_loop fuel i path parent name) s (resolved R s c parent inum (path_elems path)).
Proof.
  intros T Hfree fuel. induction fuel as [|fuel IH]; intros path name s i inum Hp Hn Hb Hf HL Hw;
    pose proof (path_nonzero _ Hp) as Hp0; cbn [namex_loop]; destruct (skipelem path name) as [[rest name']|] eqn:Hs.
  1: destruct path; [by vm_compute in Hs|cbn in Hf; lia].
  1, 3: rewrite (skipelem_none _ _ Hp0 Hs); unfold resolved; cbn [walk]; destruct parent.
  1, 3: apply wp_bind; eapply wp_mono; [by eapply walking_iput|]; intros [] s' [M St]; by apply wp_ret.
  1, 2: apply wp_ret; split; [reflexivity|]; by exists i.
  destruct (skipelem_step _ _ _ _ Hp0 Hn Hs) as (e & He & Hce & Hr0 & Hn' & Hlen). destruct (skipelem_sub _ _ _ _ Hp Hb Hs) as [Hrc Hb'].
  pose proof (skipelem_rest _ _ _ _ Hp0 Hn Hs) as Hend. assert (dir_name name' = take DIRSIZ e) as Hdn by (unfold dir_name; by rewrite Hce, take_take, Nat.min_id).
  apply wp_bind. eapply wp_mono; [by eapply walking_ilock|]. intros [] s1 (y & M1 & Hl & Hr1).
  eapply wp_bind_runs; [apply inode_at_runs, Hl|]. destruct (locked_directory _ _ _ _ _ _ _ _ _ T HL Hl) as [Hty Hdir]. rewrite Hty, He. unfold resolved. cbn [walk].
  destruct (Z.eqb_spec (dtype k (c_view c) inum) T_DIR) as [Ht|Ht]; cbn [negb].
  - rewrite Hend. destruct (parent && _) eqn:Hpar.
    + apply wp_bind. eapply wp_mono; [by eapply locked_unlock|]. intros [] s2 (M2 & Q2 & E2). apply wp_ret. split; [by etrans|]. exists i. split; [done|].
      apply andb_true_iff in Hpar as [-> Hnil]. destruct (path_elems rest); [|done]. split; [|intros _; by exists e]. destruct Hl as [A1 A2 A3 A4 A5 A6 A7].
      split; [done|by rewrite E2| |]; rewrite E2.
      * exists (set_i_busy false y). split; [apply list_lookup_insert_eq; by eapply lookup_lt_Some|done].
      * by rewrite (refs_keep _ _ y).
    + apply wp_bind. eapply wp_mono; [by eapply (walking_descend R s1 c L i inum y name')|]. intros r s2. rewrite Hdn.
      destruct (ddir k (c_view c) inum !! take DIRSIZ e) as [n|] eqn:Hent.
      * intros (i' & off & y' & -> & M2 & Hl2 & Hr2 & x & Hx & Hrx). apply wp_bind. eapply wp_mono; [by eapply (walking_next R s2 c L i inum y' i' n x)|].
        intros [] s3 [M3 Hw3]. assert (n ∈ L) as HnL by (by eapply (ft_entry _ _ _ _ _ _ T inum)).
        eapply wp_mono; [apply (IH rest name' s3 i' n Hrc Hn' Hb' ltac:(lia) HnL Hw3)|]. intros q s4 [M4 Hq]. split; [do 3 (etrans; [eassumption|]); done|].
        destruct (walk k (c_view c) parent n (path_elems rest)) as [m|] eqn:Ew; [|done]. destruct Hq as (i4 & Hq1 & Hq2 & Hq3). exists i4. split; [done|]. split; [done|].
        intros Hpt. destruct (Hq3 Hpt) as (e' & He' & Hd'). exists e'. split; [|done]. rewrite last_cons, He'. done.
      * intros (-> & M2 & Hl2 & Hr2). apply wp_bind. eapply wp_mono; [by eapply (locked_unlockput start size k _ s2 c L i inum y)|].
        intros [] s3 (M3 & St & _). apply wp_ret. split; [do 2 (etrans; [eassumption|]); done|]. split; [done|]. by rewrite bump_drop in St.
  - apply wp_bind. eapply wp_mono; [by eapply (locked_unlockput start size k _ s1 c L i inum y)|]. intros [] s2 (M2 & St & _). apply wp_ret.
    split; [by etrans|]. split; [done|]. by rewrite bump_drop in St.
Qed.

(** ** namei *)

(** The directory a path starts from. *)
Definition starts_at (s : kstate) (path : list Z) (n0 : Z) : Prop :=
  if peek path =? slash then n0 = ROOTINO
  else exists me p j x, curproc s = Some me /\ ptable s !! me = Some p /\ p_cwd p = Some j /\ icache s !! j = Some x /\ refers 1 n0 x.

Lemma idup_runs s i x : held s = [] -> icache s !! i = Some x ->
  runs (idup i) s i (set_icache (<[i := set_i_ref (i_ref x + 1) x]> (icache s)) s).
Proof.
  intros Hh Hi e. unfold idup. unfold bind at 1. rewrite acquire_runs by (rewrite Hh; set_solver). unfold bind at 1. rewrite (upd_inode_runs i x) by done.
  unfold bind at 1. rewrite (release_runs IcacheLock _ []) by (cbn; rewrite ?Hh; set_solver). unfold ret. f_equal. destruct s; cbn in *. by subst.
Qed.

Lemma got_walking s c n i ic' : quiet k s c -> icache_ok k (c_view c) (icache s) -> igot 1 n (icache s) i ic' -> walking k (refs (icache s)) (set_icache ic' s) c i n.
Proof.
  intros Hq Hok Hg. destruct (igot_entry _ _ _ _ _ Hg) as (x & Hx & Hr & _). split; cbn; [by apply quiet_icache| |by exists x|by apply (igot_refs _ _ _ _ _ Hg)].
  inversion Hg as [? z Hz Hrz E1 E2|? z Hno Hz H0 E1 E2]; subst; (apply icache_ok_insert; [done|]).
  - apply saved_got; [|apply Hrz]. by eapply (proj1 (Forall_lookup _ _) Hok).
  - intros _. done.
Qed.

Lemma namex_spec s c L parent path name n0 : quiet k s c -> icache_ok k (c_view c) (icache s) -> two_free (refs (icache s)) ->
  fs_tree start size k (c_size c) (c_view c) L -> n0 ∈ L -> starts_at s path n0 -> Forall path_char path -> length name = DIRSIZ -> Forall is_byte name ->
  wp (namex path parent name) s (resolved (refs (icache s)) s c parent n0 (path_elems path)).
Proof.
  intros Hq Hok Hfree T HL Hst Hp Hn Hb. pose proof (cr_held _ _ (qu_cache _ _ _ Hq)) as Hh.
  assert (exists i ic', igot 1 n0 (icache s) i ic' /\ runs (if peek path =? slash then iget ROOTDEV ROOTINO else
    let! p := myproc in let! cwd := deref "proc->cwd" (p_cwd p) in idup cwd) s i (set_icache ic' s)) as (i & ic' & Hg & Hrun).
  { unfold starts_at in Hst. destruct (peek path =? slash).
    - subst n0. apply iget_runs; [done|]. destruct Hfree as (_ & j & _ & _ & Hj & _). unfold refs in Hj. rewrite list_lookup_fmap in Hj.
      destruct (icache s !! j) as [x|] eqn:E; [|done]. injection Hj as Hj. exists j, x. split; [done|by right].
    - destruct Hst as (me & p & j & x & Hme & Hpt & Hcwd & Hj & Hrx). eexists j, _. split; [by apply (igot_hit _ _ _ j x)|].
      intros e. unfold bind at 1. assert (myproc s e = Ok p s e) as ->.
      { unfold myproc, curproc_idx, proc_at, deref, bind, gets. rewrite Hme. cbn. by rewrite Hpt. }
      unfold bind at 1, deref. rewrite Hcwd. cbn. by apply idup_runs. }
  unfold namex. eapply wp_bind_runs; [exact Hrun|]. pose proof (got_walking s c n0 i ic' Hq Hok Hg) as Hw.
  eapply wp_mono; [apply (namex_loop_spec _ c L parent T Hfree (length path) path name _ i n0 Hp Hn Hb ltac:(lia) HL Hw)|].
  intros r s' [M H]. split; [|exact H]. etrans; [apply moves_icache|exact M].
Qed.

(** C5: in a well-formed file system, with no inode and no buffer locked by anyone
    else and two entries of the inode cache free, [namei] returns, without
    sleeping, for every path.  It leads where the directories say, element by
    element, from the root or from the current directory: then exactly one
    reference is added, to an entry for that inode.  When an element does not
    exist or is looked up in something that is not a directory, the result is
    null and all reference counts are as before.  Nothing changes but the buffers
    and the inode cache, and that processes asleep may be woken; the contents of
    the disk and of the cache are as before. *)
Theorem namei_resolves s c L path n0 : quiet k s c -> icache_ok k (c_view c) (icache s) -> two_free (refs (icache s)) ->
  fs_tree start size k (c_size c) (c_view c) L -> n0 ∈ L -> starts_at s path n0 -> Forall path_char path ->
  wp (namei path) s (fun r s' => moves s s' /\ quiet k s' c /\ icache_ok k (c_view c) (icache s') /\
    match walk k (c_view c) false n0 (path_elems path) with
    | Some n => exists i x, r = Some i /\ icache s' !! i = Some x /\ refers 1 n x /\ refs (icache s') = bump i (refs (icache s))
    | None => r = None /\ refs (icache s') = refs (icache s)
    end).
Proof.
  intros Hq Hok Hfree T HL Hst Hp. unfold namei. apply wp_bind.
  eapply wp_mono; [apply (namex_spec s c L false path (replicate DIRSIZ 0) n0); try done; apply Forall_replicate; unfold is_byte; lia|].
  intros [r name] s' [M H]. apply wp_ret. split; [done|]. destruct (walk _ _ _ _ _) as [n|].
  - destruct H as (i & Hi & [A1 A2 (x & A3 & A4) A5] & _). cbn in Hi. subst r. do 2 (split; [done|]). by exists i, x.
  - destruct H as (Hr & [A1 A2 A3]). cbn in Hr. by subst r.
Qed.
End Walk.
