(* ===== verification/Mkfs.v ===== *)
(** * The image builder: mkfs.c

    mkfs runs on the host and writes the disk image the kernel starts from.  Its
    state is the image, a map from block numbers to blocks, and the next inode
    and block to hand out; [None] is an exit with an error.  [xint] and [xshort]
    store an integer in the byte order of the target; the host is little-endian
    too.  A file to copy comes as the blocks [read] returns for it, however the
    host cuts it. *)

From S2P Require Import Prelude Bytes Cstring Kstate Sync Disk Bio Cache Log Commit Crash Txn Fs Dinode Alloc Content Readwrite Dir.
Import Str.
Local Open Scope Z_scope.

(** ** The layout of the disk *)
Definition NINODES : Z := 200.
Definition nbitmap : Z := FSSIZE / (BSIZE * 8) + 1.
Definition ninodeblocks : Z := NINODES / IPB + 1.
Definition nlog : Z := LOGSIZE.
Definition nmeta : Z := 2 + nlog + ninodeblocks + nbitmap.
Definition nblocks : Z := FSSIZE - nmeta.

Definition xshort (x : Z) : Z := le_value (le_bytes 2 x).
Definition xint (x : Z) : Z := le_value (le_bytes 4 x).

Definition sb : superblock :=
  mkSb (xint FSSIZE) (xint nblocks) (xint NINODES) (xint nlog) (xint 2) (xint (2 + nlog))
    (xint (2 + nlog + ninodeblocks)).

(** ** The image *)
Record mkst := mkMk { m_img : gmap Z block; m_freeinode : Z; m_freeblock : Z }.

Definition rsect (sec : Z) (st : mkst) : option block := m_img st !! sec.
Definition wsect (sec : Z) (b : block) (st : mkst) : mkst :=
  mkMk (<[sec := b]> (m_img st)) (m_freeinode st) (m_freeblock st).

(** [freeblock++] *)
Definition take_block (st : mkst) : mkst := mkMk (m_img st) (m_freeinode st) (m_freeblock st + 1).

Definition winode (inum : Z) (ip : inode) (st : mkst) : option mkst :=
  let bn := IBLOCK inum sb in
  buf ← rsect bn st;
  Some (wsect bn (put_dinode buf (dinode_off inum) ip) st).

(** A zeroed struct dinode; the kernel's bookkeeping fields are not stored. *)
Definition din0 : inode := mkInode 0 0 0 false false 0 0 0 0 0 (replicate 13 0).

Definition rinode (inum : Z) (st : mkst) : option inode :=
  let bn := IBLOCK inum sb in
  buf ← rsect bn st;
  Some (load_dinode buf (dinode_off inum) din0).

Definition ialloc (type : Z) (st : mkst) : option (Z * mkst) :=
  let inum := m_freeinode st in
  let st := mkMk (m_img st) (inum + 1) (m_freeblock st) in
  let din := mkInode 0 0 0 false false (xshort type) 0 0 (xshort 1) (xint 0) (replicate 13 0) in
  st ← winode inum din st;
  Some (inum, st).

Definition balloc (used : Z) (st : mkst) : option mkst :=
  if used <? BSIZE * 8 then
    Some (wsect (sb_bmapstart sb) (foldl mark_bit zero_block (seq 0 (Z.to_nat used))) st)
  else None.

(** ** iappend *)

(** The address of block [fbn] of the file, allocated if there is none. *)
Definition iappend_block (fbn : Z) (din : inode) (st : mkst) : option (Z * inode * mkst) :=
  if negb (fbn <? MAXFILE) then None
  else if fbn <? NDIRECT then
    let '(din, st) :=
      if xint (addr_at din (Z.to_nat fbn)) =? 0 then
        (set_i_addrs (<[Z.to_nat fbn := xint (m_freeblock st)]> (i_addrs din)) din, take_block st)
      else (din, st) in
    Some (xint (addr_at din (Z.to_nat fbn)), din, st)
  else
    let '(din, st) :=
      if xint (addr_at din 12) =? 0 then
        (set_i_addrs (<[12%nat := xint (m_freeblock st)]> (i_addrs din)) din, take_block st)
      else (din, st) in
    indirect ← rsect (xint (addr_at din 12)) st;
    let e := (4 * Z.to_nat (fbn - NDIRECT))%nat in
    let '(indirect, st) :=
      if get32 indirect e =? 0 then
        let indirect := put32 indirect e (xint (m_freeblock st)) in
        (indirect, wsect (xint (addr_at din 12)) indirect (take_block st))
      else (indirect, st) in
    Some (xint (get32 indirect e), din, st).

(** The loop; [p] is what is left to append. *)
Fixpoint iappend_loop (fuel : nat) (p : list Z) (off : Z) (din : inode) (st : mkst)
    : option (Z * inode * mkst) :=
  match fuel with
  | O => None
  | S f =>
      let n := Z.of_nat (length p) in
      if negb (0 <? n) then Some (off, din, st) else
      let fbn := off / BSIZE in
      '(x, din, st) ← iappend_block fbn din st;
      let n1 := Z.min n ((fbn + 1) * BSIZE - off) in
      buf ← rsect x st;
      let buf := splice buf (Z.to_nat (off - fbn * BSIZE)) (take (Z.to_nat n1) p) in
      iappend_loop f (drop (Z.to_nat n1) p) (off + n1) din (wsect x buf st)
  end.

(** Every pass appends a byte at least. *)
Definition iappend (inum : Z) (p : list Z) (st : mkst) : option mkst :=
  din ← rinode inum st;
  '(off, din, st) ← iappend_loop (S (length p)) p (xint (i_size din)) din st;
  winode inum (set_i_size (xint off) din) st.

(** ** main *)

(** struct dirent, zeroed and filled in with [strncpy] or [strcpy]. *)
Definition dirent (inum : Z) (name : list Z) : list Z := le_bytes 2 (xshort inum) ++ strncpy name DIRSIZ.

(** A file to copy: its name, and what [read] returns until its end unless it
    cannot be opened. *)
Record infile := mkFile { f_name : list Z; f_chunks : option (list (list Z)) }.

Definition iappend_all (inum : Z) (chunks : list (list Z)) (st : mkst) : option mkst :=
  foldl (fun r c => st ← r; iappend inum c st) (Some st) chunks.

(** [if(argv[i][0] == '_') ++argv[i];] *)
Definition strip (name : list Z) : list Z :=
  match name with c :: name' => if c =? 95 then name' else name | [] => [] end.

Definition copy_file (f : infile) (st : mkst) : option mkst :=
  if bool_decide (47 ∈ cstr (f_name f)) then None else
  chunks ← f_chunks f;
  let name := strip (f_name f) in
  '(inum, st) ← ialloc T_FILE st;
  st ← iappend ROOTINO (dirent inum name) st;
  iappend_all inum chunks st.

Definition sb_bytes : list Z :=
  le_bytes 4 (sb_size sb) ++ le_bytes 4 (sb_nblocks sb) ++ le_bytes 4 (sb_ninodes sb) ++
  le_bytes 4 (sb_nlog sb) ++ le_bytes 4 (sb_logstart sb) ++ le_bytes 4 (sb_inodestart sb) ++
  le_bytes 4 (sb_bmapstart sb).

(** [for(i = 0; i < FSSIZE; i++) wsect(i, zeroes);] *)
Definition zero_blocks (n : nat) (st : mkst) : mkst :=
  foldl (fun st i => wsect (Z.of_nat i) zero_block st) st (seq 0 n).

(** The image of zero blocks with the superblock. *)
Definition zeroed : mkst := zero_blocks (Z.to_nat FSSIZE) (mkMk ∅ 1 nmeta).
Definition blank : mkst := wsect 1 (splice zero_block 0 sb_bytes) zeroed.

Definition mkfs (files : list infile) : option mkst :=
  '(rootino, st) ← ialloc T_DIR blank;
  if negb (rootino =? ROOTINO) then None else
  st ← iappend rootino (dirent rootino [46]) st;
  st ← iappend rootino (dirent rootino [46; 46]) st;
  st ← foldl (fun r f => st ← r; copy_file f st) (Some st) files;
  din ← rinode rootino st;
  let off := xint (i_size din) in
  let off := (off / BSIZE + 1) * BSIZE in
  st ← winode rootino (set_i_size (xint off) din) st;
  balloc (m_freeblock st) st.

(** ** The image as a set of files

    File [i] has inode [ips !! i] and contents [cs !! i]; its first [ns !! i]
    slots are allocated.  Blocks below [fb] have been handed out: each is in
    exactly one slot of one file. *)
Record image (V : gmap Z block) (fb : Z) (ips : list inode) (cs : list (list Z)) (ns : list nat) : Prop := {
  im_blocks n : 0 <= n < FSSIZE -> is_Some (V !! n) /\ bytes_ok 512 (blk V n);
  im_fb : nmeta <= fb <= FSSIZE;
  im_fresh n : fb <= n < FSSIZE -> V !! n = Some zero_block;
  im_cs : length cs = length ips;
  im_ns : length ns = length ips;
  im_addrs i ip : ips !! i = Some ip -> length (i_addrs ip) = 13%nat;
  im_slot i ip n j : ips !! i = Some ip -> ns !! i = Some n -> (j < NSLOT)%nat ->
    if decide (j < n)%nat then nmeta <= slot_addr V ip j < fb else slot_addr V ip j = 0;
  im_inj i i' ip ip' j j' : ips !! i = Some ip -> ips !! i' = Some ip' -> (j < NSLOT)%nat -> (j' < NSLOT)%nat ->
    slot_addr V ip j <> 0 -> slot_addr V ip j = slot_addr V ip' j' -> i = i' /\ j = j';
  im_cover b : nmeta <= b < fb -> exists i ip j, ips !! i = Some ip /\ (j < NSLOT)%nat /\ slot_addr V ip j = b;
  im_bytes i ip c off : ips !! i = Some ip -> cs !! i = Some c -> 0 <= off < MAXFILE * BSIZE ->
    file_byte V ip off = byte_at c (Z.to_nat off)
}.

Lemma nmeta_eq : nmeta = 59.
Proof. by vm_compute. Qed.

Lemma im_slot_range V fb ips cs ns i ip j : image V fb ips cs ns -> ips !! i = Some ip -> (j < NSLOT)%nat ->
  slot_addr V ip j <> 0 -> nmeta <= slot_addr V ip j < fb.
Proof.
  intros I Hi Hj H0. assert (is_Some (ns !! i)) as [n Hn].
  { apply lookup_lt_is_Some. rewrite (im_ns _ _ _ _ _ I). by eapply lookup_lt_Some. }
  pose proof (im_slot _ _ _ _ _ I i ip n j Hi Hn Hj) as Hs. by destruct (decide _).
Qed.

Lemma file_byte_block V V' ip ip' off :
  file_block V' ip' (off / BSIZE) = file_block V ip (off / BSIZE) -> file_byte V' ip' off = file_byte V ip off.
Proof. unfold file_byte. by intros ->. Qed.

Lemma block_index off : 0 <= off < MAXFILE * BSIZE -> 0 <= off / BSIZE < MAXFILE.
Proof. change MAXFILE with 140. change BSIZE with 512. intros H. split; [apply Z.div_pos; lia|apply Z.div_lt_upper_bound; lia]. Qed.

(** Bytes appended within a block: read from that block, and from another. *)
Lemma byte_at_append_block (d c src : list Z) off (o := Z.to_nat (Z.of_nat (length c) mod BSIZE)) :
  length d = 512%nat -> 0 <= off -> off / BSIZE = Z.of_nat (length c) / BSIZE -> (o + length src <= 512)%nat ->
  byte_at d (Z.to_nat (off mod BSIZE)) = byte_at c (Z.to_nat off) ->
  byte_at (splice d o src) (Z.to_nat (off mod BSIZE)) = byte_at (c ++ src) (Z.to_nat off).
Proof.
  intros Hd H0 Eb Ho Hold. rewrite byte_at_splice by lia. unfold o in *. change BSIZE with 512 in *.
  pose proof (Z.div_mod off 512 ltac:(lia)). pose proof (Z.div_mod (Z.of_nat (length c)) 512 ltac:(lia)).
  pose proof (Z.mod_pos_bound off 512 ltac:(lia)). pose proof (Z.mod_pos_bound (Z.of_nat (length c)) 512 ltac:(lia)). unfold byte_at in *.
  case_decide as D; [rewrite lookup_app_r by lia; do 2 f_equal; lia|].
  rewrite Hold. destruct (decide (Z.to_nat off < length c)%nat); [by rewrite lookup_app_l by lia|].
  rewrite !lookup_ge_None_2; [done|rewrite length_app; lia|lia].
Qed.

Lemma byte_at_append_other (c src : list Z) off :
  0 <= off -> off / BSIZE <> Z.of_nat (length c) / BSIZE -> (Z.to_nat (Z.of_nat (length c) mod BSIZE) + length src <= 512)%nat ->
  byte_at (c ++ src) (Z.to_nat off) = byte_at c (Z.to_nat off).
Proof.
  intros H0 Hne Ho. unfold byte_at. destruct (decide (Z.to_nat off < length c)%nat); [by rewrite lookup_app_l|].
  rewrite (lookup_ge_None_2 c) by lia. rewrite lookup_ge_None_2; [done|]. rewrite length_app. change BSIZE with 512 in *.
  pose proof (Z.div_mod off 512 ltac:(lia)). pose proof (Z.div_mod (Z.of_nat (length c)) 512 ltac:(lia)).
  pose proof (Z.mod_pos_bound off 512 ltac:(lia)). pose proof (Z.mod_pos_bound (Z.of_nat (length c)) 512 ltac:(lia)).
  assert (Z.of_nat (length c) / 512 <= off / 512) by (apply Z.div_le_mono; lia). lia.
Qed.

Section Grow.
Context (V : gmap Z block) (fb : Z) (ips : list inode) (cs : list (list Z)) (ns : list nat).
Hypothesis I : image V fb ips cs ns.
Context (i : nat) (ip : inode).
Hypothesis Hi : ips !! i = Some ip.

Lemma grow_case ip' i2 ip2 : <[i := ip']> ips !! i2 = Some ip2 -> i2 = i /\ ip2 = ip' \/ i2 <> i /\ ips !! i2 = Some ip2.
Proof. intros [(-> & -> & _)|(Hne & H)]%list_lookup_insert_Some; [by left|right; by split]. Qed.

(** With a new block in slot [j] of file [i] the slots still have different blocks. *)
Lemma image_alloc_inj V' ip' j :
  (forall j', (j' < NSLOT)%nat -> slot_addr V' ip' j' = if decide (j' = j) then fb else slot_addr V ip j') ->
  (forall i2 ip2 j', i2 <> i -> ips !! i2 = Some ip2 -> (j' < NSLOT)%nat -> slot_addr V' ip2 j' = slot_addr V ip2 j') -> 0 < fb ->
  forall i1 i2 ip1 ip2 j1 j2, <[i := ip']> ips !! i1 = Some ip1 -> <[i := ip']> ips !! i2 = Some ip2 -> (j1 < NSLOT)%nat -> (j2 < NSLOT)%nat ->
  slot_addr V' ip1 j1 <> 0 -> slot_addr V' ip1 j1 = slot_addr V' ip2 j2 -> i1 = i2 /\ j1 = j2.
Proof.
  intros Hs Ho Hfb i1 i2 ip1 ip2 j1 j2 [[-> ->]|[Hne1 H1]]%grow_case [[-> ->]|[Hne2 H2]]%grow_case Hj1 Hj2; rewrite ?Hs, ?(Ho i1 ip1), ?(Ho i2 ip2) by done.
  - destruct (decide (j1 = j)) as [->|D1], (decide (j2 = j)) as [->|D2]; intros H0 E; try (by auto).
    + pose proof (im_slot_range V fb ips cs ns i ip j2 I Hi Hj2 ltac:(lia)). lia.
    + pose proof (im_slot_range V fb ips cs ns i ip j1 I Hi Hj1 ltac:(lia)). lia.
    + by apply (im_inj _ _ _ _ _ I i i ip ip).
  - destruct (decide (j1 = j)) as [->|D1]; intros H0 E; [|by apply (im_inj _ _ _ _ _ I i i2 ip ip2)].
    pose proof (im_slot_range V fb ips cs ns i2 ip2 j2 I H2 Hj2 ltac:(lia)). lia.
  - destruct (decide (j2 = j)) as [->|D2]; intros H0 E; [|by apply (im_inj _ _ _ _ _ I i1 i ip1 ip)].
    pose proof (im_slot_range V fb ips cs ns i1 ip1 j1 I H1 Hj1 ltac:(lia)). lia.
  - intros H0 E. by apply (im_inj _ _ _ _ _ I i1 i2 ip1 ip2).
Qed.

(** Slot [j] of file [i] gets the next block. *)
Lemma image_alloc V' ip' j : ns !! i = Some j -> (j < NSLOT)%nat -> fb < FSSIZE ->
  length (i_addrs ip') = 13%nat ->
  (forall j', (j' < NSLOT)%nat -> slot_addr V' ip' j' = if decide (j' = j) then fb else slot_addr V ip j') ->
  (forall i2 ip2 j', i2 <> i -> ips !! i2 = Some ip2 -> (j' < NSLOT)%nat -> slot_addr V' ip2 j' = slot_addr V ip2 j') ->
  (forall n, (n <> slot_addr V ip 12 \/ slot_addr V ip 12 = 0) -> V' !! n = V !! n) ->
  (forall n, 0 <= n < FSSIZE -> is_Some (V' !! n) /\ bytes_ok 512 (blk V' n)) ->
  image V' (fb + 1) (<[i := ip']> ips) cs (<[i := S j]> ns).
Proof.
  intros Hn Hj Hfb Hlen Hs Ho Hb Hok. pose proof nmeta_eq as Em. pose proof (im_fb _ _ _ _ _ I) as Hfb0.
  pose proof (lookup_lt_Some _ _ _ Hi) as Hlt.
  assert (slot_addr V ip j = 0) as Hj0.
  { pose proof (im_slot _ _ _ _ _ I i ip j j Hi Hn Hj) as H. by rewrite decide_False in H by lia. }
  assert (forall b, slot_addr V ip 12 = b -> b <> 0 -> b < fb) as H12.
  { intros b <- Hb0. apply (im_slot_range V fb ips cs ns i ip 12 I Hi); [unfold NSLOT; lia|done]. }
  assert (forall i2 ip2 bn, ips !! i2 = Some ip2 -> 0 <= bn < MAXFILE -> slot_addr V ip2 (slot_of bn) <> 0 ->
    V' !! slot_addr V ip2 (slot_of bn) = V !! slot_addr V ip2 (slot_of bn)) as Hdata.
  { intros i2 ip2 bn Hi2 Hbn H0. destruct (slot_of_bound bn Hbn) as [Hsb Hs12]. apply Hb. left. intros E.
    destruct (im_inj _ _ _ _ _ I i2 i ip2 ip (slot_of bn) 12 Hi2 Hi Hsb ltac:(unfold NSLOT; lia) H0 E) as [_ ?]. done. }
  split; [done|lia| |by rewrite length_insert; apply I|by rewrite !length_insert; apply I| | | | |].
  - intros n Hr. rewrite Hb; [apply (im_fresh _ _ _ _ _ I); lia|]. destruct (decide (slot_addr V ip 12 = 0)) as [|H0]; [by right|left].
    specialize (H12 _ eq_refl H0). lia.
  - intros i2 ip2 [[-> ->]|[Hne H]]%grow_case; [done|by apply (im_addrs _ _ _ _ _ I i2)].
  - intros i2 ip2 n j' [[-> ->]|[Hne H]]%grow_case Hn2 Hj'.
    + rewrite list_lookup_insert_eq in Hn2 by (rewrite (im_ns _ _ _ _ _ I); done). injection Hn2 as <-. rewrite Hs by done.
      pose proof (im_slot _ _ _ _ _ I i ip j j' Hi Hn Hj') as H. destruct (decide (j' = j)) as [->|Hne]; [rewrite decide_True by lia; lia|].
      destruct (decide (j' < j)%nat); [rewrite decide_True by lia; lia|rewrite decide_False by lia; done].
    + rewrite list_lookup_insert_ne in Hn2 by done. rewrite (Ho i2 ip2 j' Hne H Hj').
      pose proof (im_slot _ _ _ _ _ I i2 ip2 n j' H Hn2 Hj') as Hsl. destruct (decide (j' < n)%nat); lia.
  - apply (image_alloc_inj V' ip' j Hs Ho). lia.
  - intros b Hbr. destruct (decide (b = fb)) as [->|Hne].
    + exists i, ip', j. rewrite list_lookup_insert_eq by done. split; [done|]. split; [done|]. by rewrite Hs, decide_True by done.
    + destruct (im_cover _ _ _ _ _ I b ltac:(lia)) as (i2 & ip2 & j2 & H2 & Hj2 & E). destruct (decide (i2 = i)) as [->|Hne2].
      * rewrite Hi in H2. injection H2 as <-. exists i, ip', j2. rewrite list_lookup_insert_eq by done. split; [done|]. split; [done|].
        rewrite Hs, decide_False; [done|intros ->; lia|done].
      * exists i2, ip2, j2. rewrite list_lookup_insert_ne by done. split; [done|]. split; [done|]. by rewrite (Ho i2 ip2).
  - intros i2 ip2 c off [[-> ->]|[Hne H]]%grow_case Hc Hoff; pose proof (block_index off Hoff) as Hbn; destruct (slot_of_bound _ Hbn) as [Hsb _].
    + rewrite <- (im_bytes _ _ _ _ _ I i ip c off Hi Hc Hoff). apply file_byte_block. unfold file_block. rewrite Hs by done. case_decide as Hd.
      * rewrite (proj2 (Z.eqb_neq fb 0)) by lia. rewrite Hd, Hj0, Z.eqb_refl. unfold blk. rewrite Hb; [by rewrite (im_fresh _ _ _ _ _ I) by lia|].
        destruct (decide (slot_addr V ip 12 = 0)) as [|H0]; [by right|left]. specialize (H12 _ eq_refl H0). lia.
      * destruct (Z.eqb_spec (slot_addr V ip (slot_of (off / BSIZE))) 0); [done|]. unfold blk. by rewrite (Hdata i).
    + rewrite <- (im_bytes _ _ _ _ _ I i2 ip2 c off H Hc Hoff). apply file_byte_block. unfold file_block. rewrite (Ho i2 ip2) by done.
      destruct (Z.eqb_spec (slot_addr V ip2 (slot_of (off / BSIZE))) 0); [done|]. unfold blk. by rewrite (Hdata i2).
Qed.

Lemma i_in : (i < length ips)%nat.
Proof. by eapply lookup_lt_Some. Qed.

(** A direct address, or the indirect block. *)
Lemma alloc_direct j : ns !! i = Some j -> (j <= 12)%nat -> fb < FSSIZE ->
  image V (fb + 1) (<[i := set_i_addrs (<[j := fb]> (i_addrs ip)) ip]> ips) cs (<[i := S j]> ns).
Proof.
  intros Hn Hj Hfb. pose proof (im_addrs _ _ _ _ _ I i ip Hi) as Hlen.
  assert (forall j', (j' < NSLOT)%nat -> ~ (j' < j)%nat -> slot_addr V ip j' = 0) as Hz.
  { intros j' Hj' Hge. pose proof (im_slot _ _ _ _ _ I i ip j j' Hi Hn Hj') as H. by rewrite decide_False in H. }
  apply (image_alloc V (set_i_addrs (<[j := fb]> (i_addrs ip)) ip) j); try done.
  - unfold NSLOT. lia.
  - cbn. by rewrite length_insert.
  - intros j' Hj'. unfold slot_addr at 1. rewrite !addr_at_set by done. destruct (Nat.leb_spec j' 12) as [H12|H12].
    + case_decide; [done|]. unfold slot_addr. by rewrite (proj2 (Nat.leb_le j' 12)).
    + rewrite (decide_False (P := j' = j)) by lia. destruct (decide (12 = j)%nat) as [<-|Hne].
      * pose proof nmeta_eq. pose proof (im_fb _ _ _ _ _ I). rewrite (proj2 (Z.eqb_neq fb 0)) by lia.
        unfold blk. rewrite (im_fresh _ _ _ _ _ I) by lia. cbn [default from_option id]. rewrite get32_zero. by rewrite Hz by lia.
      * rewrite Hz by lia. pose proof (Hz 12%nat ltac:(unfold NSLOT; lia) ltac:(lia)) as H0. unfold slot_addr in H0. cbn in H0. by rewrite H0.
  - apply (im_blocks _ _ _ _ _ I).
Qed.

(** An entry of the indirect block. *)
Lemma alloc_entry j : ns !! i = Some j -> (12 < j < NSLOT)%nat -> fb < FSSIZE ->
  let a := addr_at ip 12 in
  image (<[a := put32 (blk V a) (4 * (j - 13)) fb]> V) (fb + 1) ips cs (<[i := S j]> ns) /\ nmeta <= a < fb.
Proof.
  intros Hn Hj Hfb a. pose proof nmeta_eq as Em. pose proof (im_fb _ _ _ _ _ I) as Hfb0. change FSSIZE with 1000 in *.
  assert (nmeta <= a < fb) as Ha.
  { pose proof (im_slot _ _ _ _ _ I i ip j 12 Hi Hn ltac:(unfold NSLOT; lia)) as H. by rewrite decide_True in H by lia. }
  split; [|done]. rewrite <- (list_insert_id ips i ip Hi). destruct (im_blocks _ _ _ _ _ I a ltac:(change FSSIZE with 1000; lia)) as [_ Hok].
  pose proof Hok as [Hl _]. assert (slot_addr V ip 12 = a) as Ea by done.
  apply (image_alloc _ ip j); [done|lia|done|by apply (im_addrs _ _ _ _ _ I i)| | | |].
  - intros j' Hj'. unfold slot_addr. destruct (Nat.leb_spec j' 12); [by rewrite decide_False by lia|]. fold a.
    rewrite (proj2 (Z.eqb_neq a 0)) by lia. rewrite blk_insert, decide_True by done.
    destruct (decide (j' = j)) as [->|Hne].
    + rewrite get_put32_same by (unfold NSLOT in *; lia). apply u32_small. lia.
    + apply get32_put32_other. unfold NSLOT in *. lia.
  - intros i2 ip2 j' Hne H2 Hj'. unfold slot_addr. destruct (Nat.leb_spec j' 12); [done|].
    destruct (Z.eqb_spec (addr_at ip2 12) 0); [done|]. rewrite blk_insert, decide_False; [done|]. intros E.
    by destruct (im_inj _ _ _ _ _ I i2 i ip2 ip 12 12 H2 Hi ltac:(unfold NSLOT; lia) ltac:(unfold NSLOT; lia) n (eq_sym E)) as [? _].
  - intros n [Hne|H0]; [by rewrite lookup_insert_ne|lia].
  - intros n Hr. destruct (decide (n = a)) as [->|Hne].
    + rewrite blk_insert, decide_True, lookup_insert_eq by done. split; [done|]. by apply put32_ok.
    + rewrite blk_insert, decide_False, lookup_insert_ne by done. by apply (im_blocks _ _ _ _ _ I).
Qed.

(** Appending [src] inside the last allocated block. *)
Lemma image_append c n src : cs !! i = Some c -> ns !! i = Some n ->
  let bn := Z.of_nat (length c) / BSIZE in
  let o := Z.to_nat (Z.of_nat (length c) mod BSIZE) in
  let x := slot_addr V ip (slot_of bn) in
  bn < MAXFILE -> (slot_of bn < n)%nat -> (o + length src <= 512)%nat -> Forall is_byte src ->
  image (<[x := splice (blk V x) o src]> V) fb ips (<[i := c ++ src]> cs) ns /\ nmeta <= x < fb.
Proof.
  intros Hc Hn bn o x Hbn Hsl Hlen Hsrc. pose proof nmeta_eq as Em. pose proof (im_fb _ _ _ _ _ I) as Hfb0. change FSSIZE with 1000 in *.
  assert (0 <= bn < MAXFILE) as Hbn' by (split; [apply Z.div_pos; [lia|done]|done]). destruct (slot_of_bound bn Hbn') as [Hsb Hs12].
  assert (nmeta <= x < fb) as Hx.
  { pose proof (im_slot _ _ _ _ _ I i ip n (slot_of bn) Hi Hn Hsb) as H. by rewrite decide_True in H. }
  split; [|done]. destruct (im_blocks _ _ _ _ _ I x ltac:(change FSSIZE with 1000; lia)) as [_ Hok]. pose proof Hok as [Hl _].
  set (V' := <[x := splice (blk V x) o src]> V).
  assert (forall i2 ip2 j, ips !! i2 = Some ip2 -> (j < NSLOT)%nat -> slot_addr V' ip2 j = slot_addr V ip2 j) as Hs.
  { intros i2 ip2 j H2 Hj. unfold slot_addr. destruct (Nat.leb_spec j 12); [done|]. destruct (Z.eqb_spec (addr_at ip2 12) 0); [done|].
    unfold V'. rewrite blk_insert, decide_False; [done|]. intros E.
    assert (x <> 0) as Hx0 by lia. by destruct (im_inj _ _ _ _ _ I i i2 ip ip2 (slot_of bn) 12 Hi H2 Hsb ltac:(unfold NSLOT; lia) Hx0 E) as [_ ?]. }
  destruct I as [A1 A2 A3 A4 A5 A6 A7 A8 A9 A10]. split; try done.
  - intros m Hr. destruct (decide (m = x)) as [->|Hne].
    + unfold V'. rewrite blk_insert, decide_True, lookup_insert_eq by done. split; [done|]. by apply splice_ok.
    + unfold V'. rewrite blk_insert, decide_False, lookup_insert_ne by done. by apply A1.
  - intros m Hr. unfold V'. rewrite lookup_insert_ne by lia. by apply A3.
  - by rewrite length_insert.
  - intros i2 ip2 m j H2 Hm Hj. rewrite (Hs i2) by done. by apply (A7 i2).
  - intros i1 i2 ip1 ip2 j1 j2 H1 H2 Hj1 Hj2. rewrite (Hs i1), (Hs i2) by done. by apply A8.
  - intros b Hb. destruct (A9 b Hb) as (i2 & ip2 & j & H2 & Hj & E). exists i2, ip2, j. by rewrite (Hs i2).
  - intros i2 ip2 c2 off H2 Hc2 Hoff. pose proof (block_index off Hoff) as Hbo. destruct (slot_of_bound _ Hbo) as [Hsbo _].
    assert (slot_addr V ip2 (slot_of (off / BSIZE)) = x -> i2 = i /\ off / BSIZE = bn) as Hsame.
    { intros E. destruct (A8 i i2 ip ip2 (slot_of bn) (slot_of (off / BSIZE)) Hi H2 Hsb Hsbo ltac:(fold x; lia) (eq_sym E)) as [-> Hsl2].
      split; [done|]. by apply slot_of_inj; [lia..|]. }
    destruct (decide (i2 = i /\ off / BSIZE = bn)) as [[-> Eb]|Hne].
    + rewrite Hi in H2. injection H2 as <-. rewrite list_lookup_insert_eq in Hc2 by (by eapply lookup_lt_Some). injection Hc2 as <-.
      pose proof (A10 i ip c off Hi Hc Hoff) as Hold. unfold file_byte, file_block in Hold |- *. rewrite (Hs i), Eb in * by done. fold x in Hold |- *.
      rewrite (proj2 (Z.eqb_neq x 0)) in * by lia. unfold V'. rewrite blk_insert, decide_True by done.
      by apply byte_at_append_block; [|lia|..].
    + assert (file_byte V' ip2 off = file_byte V ip2 off) as ->.
      { apply file_byte_block. unfold file_block. rewrite (Hs i2) by done. destruct (Z.eqb_spec (slot_addr V ip2 (slot_of (off / BSIZE))) 0); [done|].
        unfold V'. rewrite blk_insert, decide_False; [done|]. intros E. by apply Hne, Hsame. }
      destruct (decide (i2 = i)) as [->|Hi2].
      * rewrite Hi in H2. injection H2 as <-. rewrite list_lookup_insert_eq in Hc2 by (by eapply lookup_lt_Some). injection Hc2 as <-.
        rewrite (A10 i ip c off Hi Hc Hoff). symmetry. apply byte_at_append_other; [lia| |done]. intros E. by apply Hne.
      * rewrite list_lookup_insert_ne in Hc2 by done. by apply (A10 i2).
Qed.
End Grow.

(** ** Appending to a file *)

(** The slots a file of [len] bytes needs: one for each block, and one for the
    indirect block. *)
Definition nslots (len : nat) : nat :=
  let nb := ((len + 511) / 512)%nat in if (nb <=? 12)%nat then nb else S nb.

Lemma xint_small v : 0 <= v < 2 ^ 32 -> xint v = v.
Proof. intros Hv. unfold xint. rewrite le_value_bytes. apply Z.mod_small. done. Qed.

Lemma xshort_small v : 0 <= v < 2 ^ 16 -> xshort v = v.
Proof. intros Hv. unfold xshort. rewrite le_value_bytes. apply Z.mod_small. done. Qed.

(** The slots needed before and after one more byte. *)
Lemma nslots_step len bn : Z.of_nat len / BSIZE = bn -> bn < MAXFILE ->
  0 <= bn /\
  if decide (Z.of_nat len mod BSIZE = 0) then
    nslots len = (if bn <=? 12 then Z.to_nat bn else S (Z.to_nat bn)) /\ nslots (S len) = S (slot_of bn)
  else nslots len = S (slot_of bn) /\ nslots (S len) = S (slot_of bn).
Proof.
  intros Hbn Hm. change BSIZE with 512 in *. change MAXFILE with 140 in *.
  assert (bn = Z.of_nat (len / 512)) as E1 by (by rewrite Nat2Z.inj_div). assert (Z.of_nat len mod 512 = Z.of_nat (len mod 512)) as -> by (by rewrite Nat2Z.inj_mod).
  assert (forall k r, (r < 512)%nat -> ((512 * k + r + 511) / 512 = if decide (r = 0) then k else S k)%nat) as Hdiv.
  { intros k r Hr. symmetry. case_decide; [subst r; apply (Nat.div_unique _ _ _ 511); lia|apply (Nat.div_unique _ _ _ (r - 1)); lia]. }
  pose proof (Nat.div_mod_eq len 512) as Hd. pose proof (Nat.mod_upper_bound len 512 ltac:(lia)) as Hr.
  set (q := (len / 512)%nat) in *. set (r := (len mod 512)%nat) in *. split; [lia|].
  assert ((len + 511) / 512 = if decide (r = 0) then q else S q)%nat as D1 by (rewrite Hd; by apply Hdiv).
  assert ((S len + 511) / 512 = S q)%nat as D2. { symmetry. apply (Nat.div_unique _ _ _ r); lia. }
  unfold nslots. rewrite D1, D2. unfold slot_of. change NDIRECT with 12. clear Hbn. subst bn. rewrite Nat2Z.id.
  destruct (Z.ltb_spec (Z.of_nat q) 12), (decide (Z.of_nat r = 0)) as [R|R], (decide (r = 0)%nat); try lia;
    repeat match goal with
    | |- context [Nat.leb ?a ?b] => destruct (Nat.leb_spec a b)
    | |- context [Z.leb ?a ?b] => destruct (Z.leb_spec a b)
    end; try lia; split; lia.
Qed.

(** What appending leaves alone: the fields of the inode other than the
    addresses, and the blocks before the data. *)
Definition same_meta (V V' : gmap Z block) : Prop := forall n, n < nmeta -> V' !! n = V !! n.

Section Append.
Context (i : nat) (fi : Z).

Record grows (V : gmap Z block) (fb : Z) (ips : list inode) (cs : list (list Z)) (ns : list nat) (din : inode)
    (V' : gmap Z block) (fb' : Z) (cs' : list (list Z)) (n n' : nat) (din' : inode) : Prop := {
  gw_image : image V' fb' (<[i := din']> ips) cs' (<[i := n']> ns);
  gw_fb : fb' = fb + Z.of_nat n' - Z.of_nat n;
  gw_din : din' = set_i_addrs (i_addrs din') din;
  gw_meta : same_meta V V'
}.

Context (V : gmap Z block) (fb : Z) (ips : list inode) (cs : list (list Z)) (ns : list nat) (din : inode) (c : list Z).
Hypothesis I : image V fb ips cs ns.
Hypothesis Hi : ips !! i = Some din.
Hypothesis Hc : cs !! i = Some c.

(** Allocating slot [n] by changing the inode. *)
Lemma grows_direct n : ns !! i = Some n -> (n <= 12)%nat -> fb < FSSIZE ->
  grows V fb ips cs ns din V (fb + 1) cs n (S n) (set_i_addrs (<[n := fb]> (i_addrs din)) din).
Proof.
  intros Hn Hle Hfb. split; [by apply (alloc_direct V fb ips cs ns I i din Hi)|lia|by destruct din|done].
Qed.

Lemma addr_xint n j : ns !! i = Some n -> (j <= 12)%nat ->
  xint (addr_at din j) = slot_addr V din j /\ (slot_addr V din j = 0 <-> (n <= j)%nat) /\ addr_at din j = slot_addr V din j.
Proof.
  intros Hn Hj. pose proof (im_slot _ _ _ _ _ I i din n j Hi Hn ltac:(unfold NSLOT; lia)) as Hs. pose proof nmeta_eq. pose proof (im_fb _ _ _ _ _ I).
  assert (addr_at din j = slot_addr V din j) as E. { unfold slot_addr. by rewrite (proj2 (Nat.leb_le j 12)). }
  change FSSIZE with 1000 in *. rewrite E, xint_small; [|destruct (decide _); lia]. split; [done|]. split; [|done]. destruct (decide _); lia.
Qed.

Lemma iappend_block_direct n fbn : ns !! i = Some n -> 0 <= fbn < NDIRECT ->
  (n = Z.to_nat fbn /\ fb < FSSIZE \/ n = S (Z.to_nat fbn)) ->
  exists din' fb', iappend_block fbn din (mkMk V fi fb) = Some (slot_addr V din' (slot_of fbn), din', mkMk V fi fb') /\
    grows V fb ips cs ns din V fb' cs n (S (Z.to_nat fbn)) din'.
Proof.
  intros Hn Hf Hcase. change NDIRECT with 12 in *. destruct (addr_xint n (Z.to_nat fbn) Hn ltac:(lia)) as (E & Hz & _).
  pose proof nmeta_eq. pose proof (im_fb _ _ _ _ _ I). pose proof (im_addrs _ _ _ _ _ I i din Hi) as Hlen. change FSSIZE with 1000 in *.
  assert (slot_of fbn = Z.to_nat fbn) as Es. { unfold slot_of. change NDIRECT with 12. by rewrite (proj2 (Z.ltb_lt fbn 12)) by lia. }
  unfold iappend_block. change MAXFILE with 140. change NDIRECT with 12. rewrite (proj2 (Z.ltb_lt fbn 140)), (proj2 (Z.ltb_lt fbn 12)) by lia.
  cbn [negb]. rewrite E, Es. destruct Hcase as [[-> Hfb]| ->].
  - rewrite (proj2 (Z.eqb_eq _ _)) by (apply Hz; lia). cbn [m_freeblock take_block m_img m_freeinode]. rewrite (xint_small fb) by lia.
    pose proof (grows_direct (Z.to_nat fbn) Hn ltac:(lia) Hfb) as G. eexists _, _. split; [|exact G].
    unfold slot_addr. rewrite (proj2 (Nat.leb_le (Z.to_nat fbn) 12)) by lia. rewrite addr_at_set, decide_True by (done || lia). by rewrite xint_small by lia.
  - rewrite (proj2 (Z.eqb_neq _ _)) by (intros Hx%Hz; lia). exists din, fb. rewrite E. split; [done|]. split; [|lia|by destruct din|done].
    rewrite !list_insert_id; done.
Qed.

(** A block beyond the direct ones: the indirect block is allocated with it if
    it is the first. *)
Lemma iappend_block_indirect n fbn : ns !! i = Some n -> NDIRECT <= fbn < MAXFILE ->
  (n = 12%nat /\ fbn = 12 /\ fb + 1 < FSSIZE \/ n = S (Z.to_nat fbn) /\ (13 <= n)%nat /\ fb < FSSIZE \/ n = S (S (Z.to_nat fbn))) ->
  exists V' din' fb', iappend_block fbn din (mkMk V fi fb) = Some (slot_addr V' din' (slot_of fbn), din', mkMk V' fi fb') /\
    grows V fb ips cs ns din V' fb' cs n (S (S (Z.to_nat fbn))) din'.
Proof.
  intros Hn Hf Hcase. change NDIRECT with 12 in *. change MAXFILE with 140 in *. destruct (addr_xint n 12 Hn ltac:(lia)) as (E & Hz & E').
  pose proof nmeta_eq as Em. pose proof (im_fb _ _ _ _ _ I) as Hfb. change FSSIZE with 1000 in *.
  (* the indirect block *)
  assert (exists din1 fb1 n1, (if xint (addr_at din 12) =? 0 then
      (set_i_addrs (<[12%nat := xint fb]> (i_addrs din)) din, mkMk V fi (fb + 1)) else (din, mkMk V fi fb)) = (din1, mkMk V fi fb1) /\
    grows V fb ips cs ns din V fb1 cs n n1 din1 /\ (n1 = S (Z.to_nat fbn) /\ fb1 < 1000 \/ n1 = S (S (Z.to_nat fbn)))) as (din1 & fb1 & n1 & E1 & G1 & Hcase1).
  { rewrite E. destruct Hcase as [(-> & -> & Hroom)|Hcase].
    - rewrite (proj2 (Z.eqb_eq _ _)) by (apply Hz; lia). rewrite xint_small by lia. eexists _, _, _. split; [reflexivity|].
      split; [by apply grows_direct; [|lia|change FSSIZE with 1000; lia]|]. left. split; [done|lia].
    - rewrite (proj2 (Z.eqb_neq _ _)) by (intros Hx%Hz; lia). exists din, fb, n. split; [done|].
      split; [split; [by rewrite !list_insert_id|lia|by destruct din|done]|]. naive_solver. }
  destruct G1 as [I1 F1 D1 M1]. assert (<[i := din1]> ips !! i = Some din1) as Hi1 by (apply list_lookup_insert_eq; by eapply lookup_lt_Some).
  assert (<[i := n1]> ns !! i = Some n1) as Hn1 by (apply list_lookup_insert_eq; rewrite (im_ns _ _ _ _ _ I); by eapply lookup_lt_Some).
  unfold iappend_block. change MAXFILE with 140. change NDIRECT with 12. rewrite (proj2 (Z.ltb_lt fbn 140)), (proj2 (Z.ltb_ge fbn 12)) by lia.
  cbn [negb]. change (take_block (mkMk V fi fb)) with (mkMk V fi (fb + 1)). change (m_freeblock (mkMk V fi fb)) with fb. rewrite E1. clear E1.
  pose proof (im_slot _ _ _ _ _ I1 i din1 n1 12 Hi1 Hn1 ltac:(unfold NSLOT; lia)) as Ha. rewrite decide_True in Ha by (destruct Hcase1; lia).
  change (slot_addr V din1 12) with (addr_at din1 12) in Ha. pose proof (im_fb _ _ _ _ _ I1) as Hfb1. change FSSIZE with 1000 in *. set (a := addr_at din1 12) in *.
  rewrite (xint_small a) by lia. unfold rsect. cbn [m_img]. destruct (im_blocks _ _ _ _ _ I1 a ltac:(change FSSIZE with 1000; lia)) as [Hsome Hok].
  rewrite (lookup_blk V a Hsome). cbn [mbind option_bind].
  assert (slot_of fbn = (13 + Z.to_nat (fbn - 12))%nat) as Es. { unfold slot_of. change NDIRECT with 12. rewrite (proj2 (Z.ltb_ge fbn 12)) by lia. lia. }
  assert (forall W, slot_addr W din1 (slot_of fbn) = get32 (blk W a) (4 * Z.to_nat (fbn - 12))) as Hslot.
  { intros W. rewrite Es. unfold slot_addr. rewrite (proj2 (Nat.leb_gt _ 12)) by lia. fold a. rewrite (proj2 (Z.eqb_neq a 0)) by lia. do 2 f_equal. lia. }
  pose proof (im_slot _ _ _ _ _ I1 i din1 n1 (slot_of fbn) Hi1 Hn1 ltac:(unfold NSLOT; lia)) as Hsl. rewrite Hslot in Hsl.
  destruct Hcase1 as [[-> Hroom]| ->].
  - rewrite decide_False in Hsl by lia. rewrite Hsl, Z.eqb_refl. cbn [m_freeblock]. rewrite (xint_small fb1) by lia.
    destruct (alloc_entry V fb1 _ cs _ I1 i din1 Hi1 (S (Z.to_nat fbn)) Hn1 ltac:(unfold NSLOT; lia) Hroom) as [I2 _]. fold a in I2.
    replace (S (Z.to_nat fbn) - 13)%nat with (Z.to_nat (fbn - 12)) in I2 by lia. rewrite list_insert_insert_eq in I2.
    exists (<[a := put32 (blk V a) (4 * Z.to_nat (fbn - 12)) fb1]> V), din1, (fb1 + 1). split.
    + rewrite Hslot, blk_insert, decide_True by done. pose proof Hok as [Hl _]. rewrite get_put32_same by lia.
      rewrite xint_small by (split; [apply Z.mod_pos_bound|apply Z.mod_pos_bound]; lia). done.
    + split; [done|lia|done|]. intros m Hm. rewrite lookup_insert_ne by lia. by apply M1.
  - rewrite decide_True in Hsl by lia. rewrite (proj2 (Z.eqb_neq _ 0)) by lia. exists V, din1, fb1. rewrite Hslot, xint_small by lia.
    split; [done|]. by split.
Qed.

Lemma iappend_block_spec : let len := length c in let fbn := Z.of_nat len / BSIZE in
  ns !! i = Some (nslots len) -> fbn < MAXFILE -> fb + Z.of_nat (nslots (S len)) - Z.of_nat (nslots len) <= FSSIZE ->
  exists V' din' fb', iappend_block fbn din (mkMk V fi fb) = Some (slot_addr V' din' (slot_of fbn), din', mkMk V' fi fb') /\
    grows V fb ips cs ns din V' fb' cs (nslots len) (nslots (S len)) din' /\ (slot_of fbn < nslots (S len))%nat.
Proof.
  intros len fbn Hn Hm Hroom. destruct (nslots_step len fbn eq_refl Hm) as [H0 Hst]. unfold slot_of in Hst |- *. change NDIRECT with 12 in *. change MAXFILE with 140 in *.
  destruct (Z.ltb_spec fbn 12) as [Hd|Hd].
  - destruct (iappend_block_direct (nslots len) fbn Hn ltac:(change NDIRECT with 12; lia)) as (din' & fb' & E & G).
    { destruct (decide _); destruct Hst as [H1 H2]; [|by right]. left. rewrite (proj2 (Z.leb_le fbn 12)) in H1 by lia. lia. }
    assert (nslots (S len) = S (Z.to_nat fbn)) as E2 by (by destruct (decide _); destruct Hst).
    exists V, din', fb'. rewrite E2. unfold slot_of in E. change NDIRECT with 12 in E. rewrite (proj2 (Z.ltb_lt fbn 12)) in E by done.
    split; [done|]. split; [done|lia].
  - destruct (iappend_block_indirect (nslots len) fbn Hn ltac:(change NDIRECT with 12; change MAXFILE with 140; lia)) as (V' & din' & fb' & E & G).
    { destruct (decide _); destruct Hst as [H1 H2]; [|by right; right]. destruct (Z.leb_spec fbn 12); [left|right; left]; lia. }
    assert (nslots (S len) = S (S (Z.to_nat fbn))) as E2 by (by destruct (decide _); destruct Hst).
    exists V', din', fb'. rewrite E2. unfold slot_of in E. change NDIRECT with 12 in E. rewrite (proj2 (Z.ltb_ge fbn 12)) in E by done.
    split; [done|]. split; [done|lia].
Qed.
End Append.

Lemma nslots_block len n1 : (0 < n1)%nat -> Z.of_nat len mod BSIZE + Z.of_nat n1 <= BSIZE -> nslots (len + n1) = nslots (S len).
Proof.
  change BSIZE with 512. intros H0 H1. assert (Z.of_nat len mod 512 = Z.of_nat (len mod 512)) as E by (by rewrite Nat2Z.inj_mod). rewrite E in H1.
  pose proof (Nat.div_mod_eq len 512). unfold nslots. assert ((len + n1 + 511) / 512 = (S len + 511) / 512)%nat as ->; [|done].
  trans (S (len / 512)); [symmetry|]; [apply (Nat.div_unique _ _ _ (len mod 512 + n1 - 1)); lia|apply (Nat.div_unique _ _ _ (len mod 512)); lia].
Qed.

Lemma nslots_mono len len' : (len <= len')%nat -> (nslots len <= nslots len')%nat.
Proof.
  intros H. unfold nslots. assert ((len + 511) / 512 <= (len' + 511) / 512)%nat by (apply Nat.Div0.div_le_mono; lia).
  destruct (Nat.leb_spec ((len + 511) / 512) 12), (Nat.leb_spec ((len' + 511) / 512) 12); lia.
Qed.

Lemma iappend_loop_spec i fi fuel : forall p V fb ips cs ns din c,
  image V fb ips cs ns -> ips !! i = Some din -> cs !! i = Some c -> ns !! i = Some (nslots (length c)) ->
  (length p < fuel)%nat -> Forall is_byte p -> Z.of_nat (length c + length p) <= MAXFILE * BSIZE ->
  fb + Z.of_nat (nslots (length c + length p)) - Z.of_nat (nslots (length c)) <= FSSIZE ->
  exists V' fb' din', iappend_loop fuel p (Z.of_nat (length c)) din (mkMk V fi fb) = Some (Z.of_nat (length c + length p), din', mkMk V' fi fb') /\
    grows i V fb ips cs ns din V' fb' (<[i := c ++ p]> cs) (nslots (length c)) (nslots (length c + length p)) din'.
Proof.
  induction fuel as [|fuel IH]; intros p V fb ips cs ns din c I Hi Hc Hn Hfuel Hp Hsz Hroom; [lia|]. cbn [iappend_loop].
  destruct (decide (length p = 0)%nat) as [Hp0|Hp0].
  { destruct p; [|done]. cbn [length]. rewrite Nat.add_0_r, app_nil_r. exists V, fb, din. split; [done|].
    split; [by rewrite !list_insert_id|lia|by destruct din|done]. }
  rewrite (proj2 (Z.ltb_lt 0 _)) by lia. cbn [negb]. set (len := length c) in *. set (fbn := Z.of_nat len / BSIZE).
  change (MAXFILE * BSIZE) with 71680 in *. change FSSIZE with 1000 in *.
  pose proof (Z.mod_pos_bound (Z.of_nat len) 512 ltac:(lia)) as Hmod. pose proof (Z.div_mod (Z.of_nat len) 512 ltac:(lia)) as Hdm.
  assert (fbn < MAXFILE) as Hfbn by (unfold fbn; change BSIZE with 512; change MAXFILE with 140; apply Z.div_lt_upper_bound; lia).
  pose proof (nslots_mono (S len) (len + length p) ltac:(lia)) as Hmono.
  destruct (iappend_block_spec i fi V fb ips cs ns din c I Hi Hn Hfbn ltac:(change FSSIZE with 1000; fold len; lia)) as (V1 & din1 & fb1 & E1 & G1 & Hsl).
  fold len in E1, G1, Hsl. fold fbn in E1, Hsl. rewrite E1. cbn [mbind option_bind].
  set (n1 := Z.min (Z.of_nat (length p)) ((fbn + 1) * BSIZE - Z.of_nat len)).
  assert (0 < n1 <= Z.of_nat (length p) /\ Z.of_nat len mod 512 + n1 <= 512) as [Hn1 Hn2] by (unfold n1, fbn; change BSIZE with 512; lia).
  set (k := Z.to_nat n1). assert (length (take k p) = k) as Hk by (rewrite length_take; lia).
  destruct G1 as [I1 F1 D1 M1]. set (x := slot_addr V1 din1 (slot_of fbn)) in *.
  assert (<[i := din1]> ips !! i = Some din1) as Hi1 by (apply list_lookup_insert_eq; by eapply lookup_lt_Some).
  assert (<[i := nslots (S len)]> ns !! i = Some (nslots (S len))) as Hns1 by (apply list_lookup_insert_eq; rewrite (im_ns _ _ _ _ _ I); by eapply lookup_lt_Some).
  destruct (image_append V1 fb1 _ cs _ I1 i din1 Hi1 c (nslots (S len)) (take k p) Hc Hns1 Hfbn Hsl) as [I2 Hx].
  { change BSIZE with 512. fold len. lia. } { by apply Forall_take. }
  fold len fbn x in I2, Hx. pose proof (im_fb _ _ _ _ _ I1) as Hfb1. change FSSIZE with 1000 in *. pose proof nmeta_eq as Em.
  destruct (im_blocks _ _ _ _ _ I1 x ltac:(change FSSIZE with 1000; lia)) as [Hsome _]. unfold rsect. cbn [m_img]. rewrite (lookup_blk _ _ Hsome). cbn [mbind option_bind].
  replace (Z.of_nat len - fbn * BSIZE) with (Z.of_nat len mod BSIZE) by (unfold fbn; change BSIZE with 512; lia).
  replace (Z.of_nat len + n1) with (Z.of_nat (length (c ++ take k p))) by (rewrite length_app, Hk; fold len; lia).
  unfold wsect. cbn [m_img m_freeinode m_freeblock].
  assert (nslots (S len) = nslots (length (c ++ take k p))) as En.
  { rewrite length_app, Hk. fold len. symmetry. apply nslots_block; change BSIZE with 512; lia. }
  assert (length (c ++ take k p) + length (drop k p) = len + length p)%nat as Elen by (rewrite length_app, Hk, length_drop; fold len; lia).
  destruct (IH (drop k p) _ fb1 _ _ _ din1 (c ++ take k p) I2 Hi1) as (V3 & fb3 & din3 & E3 & [I3 F3 D3 M3]).
  { apply list_lookup_insert_eq. by eapply lookup_lt_Some. } { by rewrite <- En. } { rewrite length_drop. lia. }
  { by apply Forall_drop. } { rewrite Elen. change (MAXFILE * BSIZE) with 71680. lia. } { rewrite Elen, <- En. change FSSIZE with 1000. lia. }
  rewrite Elen in E3, F3, I3. rewrite !list_insert_insert_eq, <- app_assoc, take_drop in I3. rewrite <- En in F3.
  exists V3, fb3, din3. split; [exact E3|]. split; [done|lia| |].
  - rewrite D3, D1. by destruct din.
  - intros m Hm. rewrite M3, lookup_insert_ne by lia. by apply M1.
Qed.

(** ** Inodes *)

(** Only the stored fields of the inode are set. *)
Definition stored_only (ip : inode) : Prop := stored_fields ip din0 = ip.

(** The number and the block of inode [i], counting from 0. *)
Definition inum_of (i : nat) : Z := Z.of_nat i + 1.

(** The inode blocks hold [ips]. *)
Definition inodes_saved (V : gmap Z block) (ips : list inode) : Prop :=
  forall i ip, ips !! i = Some ip -> load_dinode (blk V (IBLOCK (inum_of i) sb)) (dinode_off (inum_of i)) din0 = ip.

Lemma iblock_range inum : 0 <= inum < 208 -> 32 <= IBLOCK inum sb < 58.
Proof.
  intros H. unfold IBLOCK. change IPB with 8. change (sb_inodestart sb) with 32.
  assert (0 <= inum / 8 < 26); [|lia]. split; [apply Z.div_pos; lia|apply Z.div_lt_upper_bound; lia].
Qed.

(** The data of the image does not depend on the blocks before it. *)
Lemma image_meta V V' fb ips cs ns : image V fb ips cs ns -> (forall n, nmeta <= n -> V' !! n = V !! n) ->
  (forall n, 0 <= n < nmeta -> is_Some (V' !! n) /\ bytes_ok 512 (blk V' n)) -> image V' fb ips cs ns.
Proof.
  intros I Hs Hok. pose proof nmeta_eq as Em.
  assert (forall i ip j, ips !! i = Some ip -> (j < NSLOT)%nat -> slot_addr V' ip j = slot_addr V ip j) as Hsl.
  { intros i ip j Hi Hj. unfold slot_addr. destruct (Nat.leb_spec j 12); [done|]. destruct (Z.eqb_spec (addr_at ip 12) 0) as [|H0]; [done|].
    unfold blk. rewrite Hs; [done|]. by apply (im_slot_range V fb ips cs ns i ip 12 I Hi); [unfold NSLOT; lia|]. }
  pose proof I as [A1 A2 A3 A4 A5 A6 A7 A8 A9 A10]. split; try done.
  - intros n Hn. destruct (Z.lt_ge_cases n nmeta); [apply Hok; lia|]. unfold blk. rewrite Hs by done. by apply A1.
  - intros n Hn. rewrite Hs by lia. by apply A3.
  - intros i ip n j Hi Hn Hj. rewrite (Hsl i) by done. by apply (A7 i).
  - intros i i' ip ip' j j' H1 H2 Hj Hj'. rewrite (Hsl i), (Hsl i') by done. by apply A8.
  - intros b Hb. destruct (A9 b Hb) as (i & ip & j & Hi & Hj & E). exists i, ip, j. by rewrite (Hsl i).
  - intros i ip c off Hi Hc Hoff. rewrite <- (A10 i ip c off Hi Hc Hoff). apply file_byte_block. unfold file_block.
    destruct (slot_of_bound _ (block_index off Hoff)) as [Hsb _]. rewrite (Hsl i) by done.
    destruct (Z.eqb_spec (slot_addr V ip (slot_of (off / BSIZE))) 0) as [|H0]; [done|]. unfold blk. rewrite Hs; [done|].
    by apply (im_slot_range V fb ips cs ns i ip (slot_of (off / BSIZE)) I Hi).
Qed.

(** [winode] stores one inode and keeps the others. *)
Lemma winode_spec V fi fb ips cs ns i ip : image V fb ips cs ns -> (i < 207)%nat -> inode_ranges ip -> stored_only ip ->
  exists V', winode (inum_of i) ip (mkMk V fi fb) = Some (mkMk V' fi fb) /\ image V' fb ips cs ns /\
    (forall n, ~ (32 <= n < 58) -> V' !! n = V !! n) /\
    forall i', (i' < 207)%nat -> load_dinode (blk V' (IBLOCK (inum_of i') sb)) (dinode_off (inum_of i')) din0 =
      if decide (i' = i) then ip else load_dinode (blk V (IBLOCK (inum_of i') sb)) (dinode_off (inum_of i')) din0.
Proof.
  intros I Hi Hr Hst. pose proof (iblock_range (inum_of i) ltac:(unfold inum_of; lia)) as Hb. pose proof nmeta_eq as Em.
  set (bn := IBLOCK (inum_of i) sb) in *. destruct (im_blocks _ _ _ _ _ I bn ltac:(change FSSIZE with 1000; lia)) as [Hsome Hok].
  unfold winode, rsect, wsect. cbn [m_img m_freeinode m_freeblock]. fold bn. rewrite (lookup_blk _ _ Hsome). cbn [mbind option_bind].
  pose proof Hok as [Hl Hby]. pose proof (dinode_off_bound (inum_of i)) as Hoff.
  exists (<[bn := put_dinode (blk V bn) (dinode_off (inum_of i)) ip]> V). split; [done|]. split; [|split].
  - apply (image_meta V); [done|intros n Hn; rewrite lookup_insert_ne by lia; done|]. intros n Hn. rewrite blk_insert.
    destruct (decide (bn = n)) as [<-|Hne]; [rewrite lookup_insert_eq; split; [done|by apply put_dinode_ok]|].
    rewrite lookup_insert_ne by done. apply (im_blocks _ _ _ _ _ I). change FSSIZE with 1000. lia.
  - intros n Hn. apply lookup_insert_ne. lia.
  - intros i' Hi'. rewrite blk_insert. case_decide as Hbn.
    + destruct (decide (i' = i)) as [->|Hne]; [rewrite load_put_dinode; [done|lia|done]|]. rewrite <- Hbn.
      apply put_dinode_other; [lia|done|]. apply dinode_off_apart; [|unfold inum_of; lia]. unfold bn, IBLOCK in Hbn. lia.
    + rewrite decide_False; [done|]. intros ->. done.
Qed.
