(* ===== verification/Mkimage.v ===== *)
(** * The image mkfs writes

    The state of mkfs after each of its steps, and the theorem that the finished
    image is a file system the kernel can use. *)

From S2P Require Import Prelude Bytes Cstring Kstate Sync Disk Bio Cache Log Commit Crash Txn Fs Dinode Alloc Content Readwrite Dir Mkfs.
Import Str.
Local Open Scope Z_scope.

(** ** The file system being built *)
Definition slots_of (cs : list (list Z)) : list nat := (fun c => nslots (length c)) <$> cs.

(** The blocks all the files need. *)
Definition total (cs : list (list Z)) : nat := sum_list (slots_of cs).

Lemma total_cons c cs : total (c :: cs) = (nslots (length c) + total cs)%nat.
Proof. done. Qed.

Lemma total_app cs cs' : total (cs ++ cs') = (total cs + total cs')%nat.
Proof. unfold total, slots_of. rewrite fmap_app. apply sum_list_with_app. Qed.

(** The blocks before the inodes: the superblock and an empty log. *)
Definition front (n : Z) : block := if n =? 1 then splice zero_block 0 sb_bytes else zero_block.

Record built (st : mkst) (ips : list inode) (cs : list (list Z)) : Prop := {
  bt_image : image (m_img st) (m_freeblock st) ips cs (slots_of cs);
  bt_next : m_freeinode st = Z.of_nat (length ips) + 1;
  bt_few : (length ips <= 200)%nat;
  bt_saved : inodes_saved (m_img st) ips;
  bt_ranges i ip : ips !! i = Some ip -> inode_ranges ip;
  bt_stored i ip : ips !! i = Some ip -> stored_only ip;
  bt_size i ip c : ips !! i = Some ip -> cs !! i = Some c -> i_size ip = Z.of_nat (length c) /\ i_size ip <= MAXFILE * BSIZE;
  bt_count : m_freeblock st = nmeta + Z.of_nat (total cs);
  bt_front n : 0 <= n < 32 -> m_img st !! n = Some (front n)
}.

Lemma slots_of_insert cs i c : slots_of (<[i := c]> cs) = <[i := nslots (length c)]> (slots_of cs).
Proof. exact (list_fmap_insert (fun c => nslots (length c)) cs i c). Qed.

Lemma total_insert cs i c c' : cs !! i = Some c -> (total (<[i := c']> cs) + nslots (length c) = total cs + nslots (length c'))%nat.
Proof.
  intros H. rewrite <- (take_drop_middle cs i c H) at 2. rewrite insert_take_drop by (by eapply lookup_lt_Some).
  rewrite !total_app, !total_cons. lia.
Qed.

Lemma slots_of_lookup cs i c : cs !! i = Some c -> slots_of cs !! i = Some (nslots (length c)).
Proof. intros H. unfold slots_of. by rewrite list_lookup_fmap, H. Qed.

(** The addresses in an inode of the image fit. *)
Lemma image_addrs V fb ips cs ns i ip : image V fb ips cs ns -> ips !! i = Some ip -> Forall (fun a => 0 <= a < 2 ^ 32) (i_addrs ip).
Proof.
  intros I Hi. pose proof (im_addrs _ _ _ _ _ I i ip Hi) as Hl. pose proof (im_fb _ _ _ _ _ I) as Hfb. pose proof nmeta_eq. change FSSIZE with 1000 in *.
  apply Forall_lookup. intros j a Ha. pose proof (lookup_lt_Some _ _ _ Ha) as Hj.
  assert (slot_addr V ip j = a) as E. { unfold slot_addr, addr_at. rewrite (proj2 (Nat.leb_le j 12)) by lia. by rewrite Ha. }
  destruct (decide (a = 0)) as [->|H0]; [lia|]. pose proof (im_slot_range V fb ips cs ns i ip j I Hi ltac:(unfold NSLOT; lia)) as Hr. rewrite E in Hr. specialize (Hr H0). lia.
Qed.

(** The size of an inode does not matter for the image. *)
Lemma image_set_size V fb ips cs ns i ip1 sz : (i < length ips)%nat -> image V fb (<[i := ip1]> ips) cs ns ->
  image V fb (<[i := set_i_size sz ip1]> ips) cs ns.
Proof.
  set (ip2 := set_i_size sz ip1). intros Hlt [A1 A2 A3 A4 A5 A6 A7 A8 A9 A10]. rewrite length_insert in A4. rewrite length_insert in A5.
  assert (forall i' ip', <[i := ip2]> ips !! i' = Some ip' -> exists ip0, <[i := ip1]> ips !! i' = Some ip0 /\ i_addrs ip' = i_addrs ip0) as Hx.
  { intros i' ip' [(-> & <- & _)|(Hne & H)]%list_lookup_insert_Some; [exists ip1; by rewrite list_lookup_insert_eq|exists ip'; by rewrite list_lookup_insert_ne]. }
  assert (forall ip' ip0 j, i_addrs ip' = i_addrs ip0 -> slot_addr V ip' j = slot_addr V ip0 j) as Hsl. { intros ip' ip0 j Ea. unfold slot_addr, addr_at. by rewrite Ea. }
  split; rewrite ?length_insert; try done.
  - intros i' ip' (ip0 & H0 & ->)%Hx. by apply (A6 i').
  - intros i' ip' n j (ip0 & H0 & Ea)%Hx. rewrite (Hsl ip' ip0 j Ea). by apply A7.
  - intros i' i3 ip' ip3 j j' (ip0 & H0 & Ea)%Hx (ip4 & H4 & Eb)%Hx. rewrite (Hsl ip' ip0 j Ea), (Hsl ip3 ip4 j' Eb). by apply A8.
  - intros b Hb. destruct (A9 b Hb) as (i' & ip' & j & H' & Hj & Ej). destruct (decide (i' = i)) as [->|Hne].
    + rewrite list_lookup_insert_eq in H' by done. injection H' as <-. exists i, ip2, j. rewrite list_lookup_insert_eq by done. done.
    + exists i', ip', j. rewrite list_lookup_insert_ne in * by done. done.
  - intros i' ip' c' off (ip0 & H0 & Ea)%Hx Hc' Hoff. rewrite <- (A10 i' ip0 c' off H0 Hc' Hoff). apply file_byte_block. unfold file_block. by rewrite (Hsl ip' ip0 _ Ea).
Qed.

Lemma rinode_spec st ips cs i ip : built st ips cs -> ips !! i = Some ip -> rinode (inum_of i) st = Some ip.
Proof.
  intros B Hi. pose proof (bt_few _ _ _ B). pose proof (lookup_lt_Some _ _ _ Hi).
  unfold rinode, rsect. pose proof (iblock_range (inum_of i) ltac:(unfold inum_of; lia)) as Hb.
  destruct (im_blocks _ _ _ _ _ (bt_image _ _ _ B) (IBLOCK (inum_of i) sb) ltac:(change FSSIZE with 1000; lia)) as [Hsome _].
  rewrite (lookup_blk _ _ Hsome). cbn. f_equal. by apply (bt_saved _ _ _ B).
Qed.

Lemma iappend_spec st ips cs i ip c p : built st ips cs -> ips !! i = Some ip -> cs !! i = Some c -> Forall is_byte p ->
  Z.of_nat (length c + length p) <= MAXFILE * BSIZE ->
  m_freeblock st + Z.of_nat (nslots (length c + length p)) - Z.of_nat (nslots (length c)) <= FSSIZE ->
  exists st' ip', iappend (inum_of i) p st = Some st' /\ built st' (<[i := ip']> ips) (<[i := c ++ p]> cs) /\
    i_type ip' = i_type ip /\ i_nlink ip' = i_nlink ip.
Proof.
  intros B Hi Hc Hp Hsz Hroom. pose proof (lookup_lt_Some _ _ _ Hi) as Hlt. pose proof (bt_few _ _ _ B) as Hfew. pose proof nmeta_eq as Em.
  unfold iappend. rewrite (rinode_spec st ips cs i ip B Hi). cbn [mbind option_bind]. destruct (bt_size _ _ _ B i ip c Hi Hc) as [Es Hs]. change (MAXFILE * BSIZE) with 71680 in *.
  rewrite xint_small, Es by lia. destruct st as [V fi fb]. cbn [m_freeblock] in Hroom.
  destruct (iappend_loop_spec i fi (S (length p)) p V fb ips cs (slots_of cs) ip c (bt_image _ _ _ B) Hi Hc (slots_of_lookup _ _ _ Hc)) as (V1 & fb1 & ip1 & E & [I1 F1 D1 M1]); [lia|done|done|done|].
  rewrite E. cbn [mbind option_bind]. rewrite xint_small by lia. set (ip2 := set_i_size (Z.of_nat (length c + length p)) ip1).
  assert (image V1 fb1 (<[i := ip2]> ips) (<[i := c ++ p]> cs) (slots_of (<[i := c ++ p]> cs))) as I2.
  { rewrite slots_of_insert, length_app. by apply (image_set_size _ _ _ _ _ _ ip1). }
  assert (stored_only ip2) as Hst2. { pose proof (bt_stored _ _ _ B i ip Hi) as H. unfold ip2, stored_only in *. rewrite D1, <- H. done. }
  assert (inode_ranges ip2) as Hr2.
  { destruct (bt_ranges _ _ _ B i ip Hi) as [R1 R2 R3 R4 R5 R6 R7]. unfold ip2. rewrite D1. split; try done; cbn.
    - lia.
    - rewrite <- (im_addrs _ _ _ _ _ I1 i ip1); [done|]. by apply list_lookup_insert_eq.
    - eapply (image_addrs V1 fb1 _ _ _ i ip1 I1). by apply list_lookup_insert_eq. }
  destruct (winode_spec V1 fi fb1 _ _ _ i ip2 I2 ltac:(lia) Hr2 Hst2) as (V2 & E2 & I3 & Hsame & Hload).
  exists (mkMk V2 fi fb1), ip2. split; [exact E2|]. split; [|unfold ip2; by rewrite D1]. split; cbn [m_img m_freeblock m_freeinode].
  - done.
  - rewrite length_insert. apply (bt_next _ _ _ B).
  - by rewrite length_insert.
  - intros i' ip' H'. pose proof (lookup_lt_Some _ _ _ H') as Hi'. rewrite length_insert in Hi'. rewrite Hload by lia.
    apply list_lookup_insert_Some in H' as [(-> & <- & _)|(Hne & H')]; [by rewrite decide_True|]. rewrite decide_False by congruence.
    rewrite <- (bt_saved _ _ _ B i' ip' H'). unfold blk. rewrite M1; [done|]. pose proof (iblock_range (inum_of i') ltac:(unfold inum_of; lia)). lia.
  - intros i' ip' [(-> & <- & _)|(Hne & H')]%list_lookup_insert_Some; [done|by apply (bt_ranges _ _ _ B i')].
  - intros i' ip' [(-> & <- & _)|(Hne & H')]%list_lookup_insert_Some; [done|by apply (bt_stored _ _ _ B i')].
  - intros i' ip' c' [(-> & <- & _)|(Hne & H')]%list_lookup_insert_Some Hc'.
    + rewrite list_lookup_insert_eq in Hc' by (by eapply lookup_lt_Some). injection Hc' as <-. rewrite length_app. cbn. change (MAXFILE * BSIZE) with 71680. lia.
    + rewrite list_lookup_insert_ne in Hc' by done. by apply (bt_size _ _ _ B i' ip').
  - pose proof (total_insert cs i c (c ++ p) Hc) as Hsum. rewrite length_app in Hsum.
    pose proof (bt_count _ _ _ B) as Hcount. cbn in Hcount. lia.
  - intros n Hn. cbn. rewrite Hsame, M1 by lia. by apply (bt_front _ _ _ B).
Qed.

(** A new file has no blocks. *)
Lemma image_new V fb ips cs ns ip : image V fb ips cs ns -> i_addrs ip = replicate 13 0 ->
  image V fb (ips ++ [ip]) (cs ++ [[]]) (ns ++ [0%nat]).
Proof.
  intros [A1 A2 A3 A4 A5 A6 A7 A8 A9 A10] Ea.
  assert (forall j, slot_addr V ip j = 0) as Hz.
  { intros j. unfold slot_addr, addr_at. rewrite Ea. destruct (Nat.leb_spec j 12); rewrite lookup_replicate_2 by lia; done. }
  assert (forall i ip', (ips ++ [ip]) !! i = Some ip' -> ips !! i = Some ip' \/ i = length ips /\ ip' = ip) as Hx.
  { intros i ip' [H|[Hge H]]%lookup_app_Some; [by left|right]. destruct (i - length ips)%nat eqn:E; [|done]. injection H as ->. split; [lia|done]. }
  split; rewrite ?length_app; cbn [length]; try done; try lia.
  - intros i ip' [H|[-> ->]]%Hx; [by apply (A6 i)|by rewrite Ea].
  - intros i ip' n j [H|[-> ->]]%Hx Hn Hj.
    + rewrite lookup_app_l in Hn by (rewrite A5; by eapply lookup_lt_Some). by apply (A7 i).
    + rewrite Hz. rewrite lookup_app_r, A5, Nat.sub_diag in Hn by lia. injection Hn as <-. by rewrite decide_False by lia.
  - intros i i' ip1 ip2 j j' [H|[-> ->]]%Hx [H'|[-> ->]]%Hx Hj Hj' H0 E; rewrite ?Hz in *; try done. by apply (A8 i i' ip1 ip2).
  - intros b Hb. destruct (A9 b Hb) as (i & ip' & j & H & Hj & E). exists i, ip', j. by rewrite lookup_app_l by (by eapply lookup_lt_Some).
  - intros i ip' c off [H|[-> ->]]%Hx Hc Hoff.
    + rewrite lookup_app_l in Hc by (rewrite A4; by eapply lookup_lt_Some). by apply (A10 i).
    + rewrite lookup_app_r, A4, Nat.sub_diag in Hc by lia. injection Hc as <-. unfold file_byte, file_block. rewrite Hz. cbn [Z.eqb].
      unfold byte_at, zero_block. pose proof (Z.mod_pos_bound off BSIZE eq_refl). change BSIZE with 512 in *. rewrite lookup_replicate_2 by lia. done.
Qed.

Lemma new_ranges type : 0 <= type < 2 ^ 15 ->
  let ip := mkInode 0 0 0 false false (xshort type) 0 0 (xshort 1) (xint 0) (replicate 13 0) in
  inode_ranges ip /\ stored_only ip /\ i_type ip = type /\ i_nlink ip = 1.
Proof.
  intros Ht ip. unfold ip. rewrite xshort_small by lia. change (xshort 1) with 1. change (xint 0) with 0.
  split; [|done]. split; cbn; try lia. repeat constructor; lia.
Qed.

Lemma ialloc_spec st ips cs type : built st ips cs -> (length ips < 200)%nat -> 0 <= type < 2 ^ 15 ->
  exists st' ip, ialloc type st = Some (inum_of (length ips), st') /\ built st' (ips ++ [ip]) (cs ++ [[]]) /\
    i_type ip = type /\ i_nlink ip = 1 /\ m_freeblock st' = m_freeblock st.
Proof.
  intros B Hlt Ht. destruct (new_ranges type Ht) as (Hr & Hst & Ety & Enl). set (ip := mkInode _ _ _ _ _ _ _ _ _ _ _) in *.
  pose proof (image_new _ _ _ _ _ ip (bt_image _ _ _ B) eq_refl) as I. unfold ialloc. rewrite (bt_next _ _ _ B). fold (inum_of (length ips)). fold ip.
  destruct (winode_spec _ (inum_of (length ips) + 1) _ _ _ _ (length ips) ip I ltac:(lia) Hr Hst) as (V' & E & I' & Hsame & Hload).
  rewrite E. cbn [mbind option_bind]. exists (mkMk V' (inum_of (length ips) + 1) (m_freeblock st)), ip. split; [done|].
  assert (forall i ip', (ips ++ [ip]) !! i = Some ip' -> ips !! i = Some ip' \/ i = length ips /\ ip' = ip) as Hx.
  { intros i ip' [H|[Hge H]]%lookup_app_Some; [by left|right]. destruct (i - length ips)%nat eqn:Ei; [|done]. injection H as ->. split; [lia|done]. }
  split; [|done]. pose proof (im_cs _ _ _ _ _ (bt_image _ _ _ B)) as Hcs. split; cbn [m_img m_freeblock m_freeinode].
  - unfold slots_of. rewrite fmap_app. exact I'.
  - rewrite length_app. unfold inum_of. cbn. lia.
  - rewrite length_app. cbn. lia.
  - intros i ip' H. pose proof (lookup_lt_Some _ _ _ H) as Hi. rewrite length_app in Hi. cbn in Hi. rewrite Hload by lia.
    apply Hx in H as [H|[-> ->]]; [|by rewrite decide_True]. rewrite decide_False by (apply lookup_lt_Some in H; lia). by apply (bt_saved _ _ _ B).
  - intros i ip' [H|[-> ->]]%Hx; [by apply (bt_ranges _ _ _ B i)|done].
  - intros i ip' [H|[-> ->]]%Hx; [by apply (bt_stored _ _ _ B i)|done].
  - intros i ip' c [H|[-> ->]]%Hx Hc.
    + rewrite lookup_app_l in Hc by (rewrite Hcs; by eapply lookup_lt_Some). by apply (bt_size _ _ _ B i).
    + rewrite lookup_app_r, Hcs, Nat.sub_diag in Hc by lia. injection Hc as <-. done.
  - rewrite (bt_count _ _ _ B), total_app, total_cons. change (total []) with 0%nat. change (nslots (length [])) with 0%nat. lia.
  - intros n Hn. rewrite Hsame by lia. by apply (bt_front _ _ _ B).
Qed.

(** ** The empty image *)
Lemma zero_image n : forall a st z,
  let st' := foldl (fun st i => wsect (Z.of_nat i) zero_block st) st (seq a n) in
  m_img st' !! z = (if decide (Z.of_nat a <= z < Z.of_nat (a + n)) then Some zero_block else m_img st !! z) /\
  m_freeinode st' = m_freeinode st /\ m_freeblock st' = m_freeblock st.
Proof.
  induction n as [|n IH]; intros a st z; cbn [seq foldl]; [by rewrite decide_False by lia|].
  destruct (IH (S a) (wsect (Z.of_nat a) zero_block st) z) as (H1 & H2 & H3). rewrite H1, H2, H3. split; [|done].
  cbn [wsect m_img]. destruct (decide (z = Z.of_nat a)) as [->|Hne].
  - rewrite decide_False, lookup_insert_eq, decide_True by lia. done.
  - rewrite lookup_insert_ne by done. repeat case_decide; try done; lia.
Qed.

Lemma zeroed_spec z : m_img zeroed !! z = (if decide (0 <= z < FSSIZE) then Some zero_block else None) /\
  m_freeinode zeroed = 1 /\ m_freeblock zeroed = nmeta.
Proof.
  unfold zeroed, zero_blocks. destruct (zero_image (Z.to_nat FSSIZE) 0 (mkMk ∅ 1 nmeta) z) as [H HF]. split; [|exact HF]. rewrite H.
  rewrite Nat.add_0_l, Z2Nat.id by done. done.
Qed.
#[local] Opaque zeroed.

Lemma built_blank st : (forall z, 0 <= z < FSSIZE -> m_img st !! z = Some (front z)) ->
  m_freeinode st = 1 -> m_freeblock st = nmeta -> built st [] [].
Proof.
  intros Himg E1 E2. split; rewrite ?E1, ?E2; try done.
  - split; try done.
    + intros n Hn. unfold blk. rewrite Himg by done. split; [done|]. cbn [default from_option id].
      assert (bytes_ok 512 zero_block) as Hz. { split; [done|]. apply Forall_replicate. unfold is_byte. lia. }
      unfold front. destruct (n =? 1); [|done]. apply splice_ok; [done|]. unfold sb_bytes. repeat (apply Forall_app; split); apply le_bytes_ok.
    + rewrite nmeta_eq. intros n Hn. rewrite Himg by lia. unfold front. by rewrite (proj2 (Z.eqb_neq _ _)) by lia.
    + lia.
  - cbn. lia.
  - intros n Hn. apply Himg. change FSSIZE with 1000. lia.
Qed.

Lemma wsect_fields sec b st : m_img (wsect sec b st) = <[sec := b]> (m_img st) /\
  m_freeinode (wsect sec b st) = m_freeinode st /\ m_freeblock (wsect sec b st) = m_freeblock st.
Proof. done. Qed.

Lemma blank_built : built blank [] [].
Proof.
  destruct (wsect_fields 1 (splice zero_block 0 sb_bytes) zeroed) as (E1 & E2 & E3). destruct (zeroed_spec 0) as (_ & H1 & H2). unfold blank.
  apply built_blank; [intros z Hz; rewrite E1|by rewrite E2, H1|by rewrite E3, H2]. destruct (zeroed_spec z) as [H _].
  unfold front. destruct (Z.eqb_spec z 1) as [->|Hne]; [by rewrite lookup_insert_eq|]. by rewrite lookup_insert_ne, H, decide_True by done.
Qed.

(** ** Copying files *)
Definition contents_of (f : infile) : list Z := concat (default [] (f_chunks f)).

Record valid_file (f : infile) : Prop := {
  vf_open : is_Some (f_chunks f);
  vf_slash : (47 ∉ cstr (f_name f));
  vf_name : Forall is_byte (f_name f);
  vf_bytes : Forall is_byte (contents_of f);
  vf_size : Z.of_nat (length (contents_of f)) <= MAXFILE * BSIZE
}.

Lemma cstr_bytes l : Forall is_byte l -> Forall is_byte (cstr l).
Proof. induction 1 as [|c l Hc Hl IH]; cbn; [constructor|]. destruct (c =? 0); constructor; done. Qed.

Lemma dirent_length inum name : length (dirent inum name) = 16%nat.
Proof. unfold dirent. by rewrite length_app, le_bytes_length, strncpy_length. Qed.

Lemma dirent_bytes inum name : Forall is_byte name -> Forall is_byte (dirent inum name).
Proof.
  intros H. unfold dirent. apply Forall_app. split; [apply le_bytes_ok|]. rewrite strncpy_spec. apply Forall_app. split.
  - by apply Forall_take, cstr_bytes.
  - apply Forall_replicate. unfold is_byte. lia.
Qed.

Lemma strip_bytes name : Forall is_byte name -> Forall is_byte (strip name).
Proof. destruct 1 as [|c l Hc Hl]; cbn; [constructor|]. destruct (c =? 95); [done|by constructor]. Qed.

(** The room for appending [p] to file [i], and for the files that follow. *)
Lemma iappend_all_spec i chunks : forall st ips cs ip c, built st ips cs -> ips !! i = Some ip -> cs !! i = Some c ->
  Forall is_byte (concat chunks) -> Z.of_nat (length c + length (concat chunks)) <= MAXFILE * BSIZE ->
  m_freeblock st + Z.of_nat (nslots (length c + length (concat chunks))) - Z.of_nat (nslots (length c)) <= FSSIZE ->
  exists st' ip', iappend_all (inum_of i) chunks st = Some st' /\ built st' (<[i := ip']> ips) (<[i := c ++ concat chunks]> cs) /\
    i_type ip' = i_type ip /\ i_nlink ip' = i_nlink ip.
Proof.
  induction chunks as [|p chunks IH]; intros st ips cs ip c B Hi Hc Hb Hsz Hroom; cbn [concat] in *.
  - exists st, ip. rewrite app_nil_r, !list_insert_id by done. done.
  - apply Forall_app in Hb as [Hb1 Hb2]. rewrite length_app in *. pose proof (nslots_mono (length c + length p) (length c + (length p + length (concat chunks))) ltac:(lia)).
    destruct (iappend_spec st ips cs i ip c p B Hi Hc Hb1) as (st1 & ip1 & E1 & B1 & T1 & N1); [lia|lia|].
    pose proof (bt_count _ _ _ B) as C0. pose proof (bt_count _ _ _ B1) as C1.
    pose proof (total_insert cs i c (c ++ p) Hc) as Hsum. rewrite length_app in Hsum.
    pose proof (lookup_lt_Some _ _ _ Hi) as L1. pose proof (lookup_lt_Some _ _ _ Hc) as L2.
    destruct (IH st1 _ _ ip1 (c ++ p) B1) as (st2 & ip2 & E2 & B2 & T2 & N2).
    { by apply list_lookup_insert_eq. } { by apply list_lookup_insert_eq. } { done. } { rewrite length_app. lia. }
    { rewrite length_app, <- Nat.add_assoc. lia. }
    exists st2, ip2. rewrite !list_insert_insert_eq, <- app_assoc in B2. split; [|split; [done|split; congruence]].
    unfold iappend_all in *. cbn [foldl mbind option_bind]. rewrite E1. exact E2.
Qed.

Definition is_file (ip : inode) : Prop := i_type ip = T_FILE /\ i_nlink ip = 1.

(** A file gets the next inode, an entry in the root directory and its contents. *)
Lemma copy_file_spec f st rip fips root fcs : built st (rip :: fips) (root :: fcs) -> valid_file f -> (length fips < 199)%nat ->
  Z.of_nat (length root + 16) <= MAXFILE * BSIZE ->
  m_freeblock st + Z.of_nat (nslots (length root + 16)) - Z.of_nat (nslots (length root)) + Z.of_nat (nslots (length (contents_of f))) <= FSSIZE ->
  exists st' rip' ip, copy_file f st = Some st' /\
    built st' (rip' :: fips ++ [ip]) ((root ++ dirent (inum_of (S (length fips))) (strip (f_name f))) :: fcs ++ [contents_of f]) /\
    is_file ip /\ i_type rip' = i_type rip /\ i_nlink rip' = i_nlink rip.
Proof.
  intros B Hf Hlt Hsz Hroom. unfold copy_file. rewrite bool_decide_eq_false_2 by apply (vf_slash _ Hf).
  destruct (vf_open _ Hf) as [chunks Hch]. rewrite Hch. cbn [mbind option_bind].
  assert (contents_of f = concat chunks) as Ec by (unfold contents_of; by rewrite Hch).
  destruct (ialloc_spec st _ _ T_FILE B) as (st1 & ip & E1 & B1 & T1 & N1 & F1); [cbn; lia|unfold T_FILE; lia|]. cbn [length] in E1. rewrite E1. cbn [mbind option_bind].
  set (inum := inum_of (S (length fips))) in *. pose proof (dirent_length inum (strip (f_name f))) as Hdl.
  change ((rip :: fips) ++ [ip]) with (rip :: fips ++ [ip]) in B1. change ((root :: fcs) ++ [[]]) with (root :: fcs ++ [[]]) in B1.
  destruct (iappend_spec st1 _ _ 0 rip root (dirent inum (strip (f_name f))) B1 eq_refl eq_refl) as (st2 & rip' & E2 & B2 & T2 & N2).
  { apply dirent_bytes, strip_bytes, Hf. } { by rewrite Hdl. } { rewrite Hdl. lia. }
  change ROOTINO with (inum_of 0). rewrite E2. cbn [mbind option_bind]. cbn [insert list_insert] in B2.
  pose proof (bt_count _ _ _ B1) as C1. pose proof (bt_count _ _ _ B2) as C2. rewrite total_cons in C1, C2. rewrite length_app, Hdl in C2.
  pose proof (im_cs _ _ _ _ _ (bt_image _ _ _ B)) as Hcs. cbn in Hcs. injection Hcs as Hcs.
  destruct (iappend_all_spec (S (length fips)) chunks st2 _ _ ip [] B2) as (st3 & ip' & E3 & B3 & T3 & N3).
  { change ((fips ++ [ip]) !! length fips = Some ip). by rewrite lookup_app_r, Nat.sub_diag by lia. }
  { change ((fcs ++ [[]]) !! length fips = Some ([] : list Z)). by rewrite lookup_app_r, <- Hcs, Nat.sub_diag by lia. }
  { rewrite <- Ec. apply Hf. } { cbn [length]. rewrite <- Ec. apply Hf. } { cbn [length]. rewrite <- Ec, Nat.add_0_l. change (nslots 0) with 0%nat. lia. }
  exists st3, rip', ip'. split; [exact E3|]. split; [|split; [by split; congruence|done]].
  change (<[S (length fips) := ip']> (rip' :: fips ++ [ip])) with (rip' :: <[length fips := ip']> (fips ++ [ip])) in B3.
  rewrite (insert_app_r_alt fips), Nat.sub_diag in B3 by lia. cbn [app] in B3. rewrite <- Ec in B3.
  set (r := root ++ _) in *. change (<[S (length fips) := contents_of f]> (r :: fcs ++ [[]])) with (r :: <[length fips := contents_of f]> (fcs ++ [[]])) in B3.
  rewrite (insert_app_r_alt fcs), <- Hcs, Nat.sub_diag in B3 by lia. exact B3.
Qed.

(** The entries for [files], the first of which has inode [k + 1]. *)
Fixpoint entries (k : nat) (files : list infile) : list Z :=
  match files with
  | [] => []
  | f :: files' => dirent (inum_of k) (strip (f_name f)) ++ entries (S k) files'
  end.

Lemma entries_length files : forall k, length (entries k files) = (16 * length files)%nat.
Proof. induction files as [|f files IH]; intros k; cbn [entries length]; [done|]. rewrite length_app, dirent_length, IH. lia. Qed.

Definition file_slots (files : list infile) : nat := total (contents_of <$> files).

Lemma copy_all_spec files : forall st rip fips root fcs, built st (rip :: fips) (root :: fcs) -> Forall valid_file files ->
  (length fips + length files <= 199)%nat -> Z.of_nat (length root + 16 * length files) <= MAXFILE * BSIZE ->
  m_freeblock st + Z.of_nat (nslots (length root + 16 * length files)) - Z.of_nat (nslots (length root)) + Z.of_nat (file_slots files) <= FSSIZE ->
  exists st' rip' ips', foldl (fun r f => st ← r; copy_file f st) (Some st) files = Some st' /\
    built st' (rip' :: fips ++ ips') ((root ++ entries (S (length fips)) files) :: fcs ++ (contents_of <$> files)) /\
    Forall is_file ips' /\ i_type rip' = i_type rip /\ i_nlink rip' = i_nlink rip.
Proof.
  induction files as [|f files IH]; intros st rip fips root fcs B Hv Hn Hsz Hroom.
  - exists st, rip, []. cbn [entries fmap list_fmap]. rewrite !app_nil_r. done.
  - apply list.Forall_cons in Hv as [Hf Hv]. cbn [length] in *. unfold file_slots in Hroom. rewrite fmap_cons, total_cons in Hroom. fold (file_slots files) in Hroom.
    pose proof (nslots_mono (length root) (length root + 16) ltac:(lia)). pose proof (nslots_mono (length root + 16) (length root + 16 * S (length files)) ltac:(lia)) as Hm.
    destruct (copy_file_spec f st rip fips root fcs B Hf ltac:(lia)) as (st1 & rip1 & ip & E1 & B1 & Hip & T1 & N1); [lia|lia|].
    pose proof (bt_count _ _ _ B) as C0. pose proof (bt_count _ _ _ B1) as C1. rewrite total_cons in C0, C1.
    rewrite total_app, total_cons, length_app, dirent_length in C1. change (total []) with 0%nat in C1.
    destruct (IH st1 rip1 (fips ++ [ip]) _ _ B1 Hv) as (st2 & rip2 & ips2 & E2 & B2 & Hips & T2 & N2).
    { rewrite length_app. cbn. lia. } { rewrite length_app, dirent_length. lia. }
    { rewrite length_app, dirent_length. replace (length root + 16 + 16 * length files)%nat with (length root + 16 * S (length files))%nat by lia. lia. }
    exists st2, rip2, (ip :: ips2). split; [cbn [foldl mbind option_bind]; rewrite E1; exact E2|].
    rewrite length_app in B2. cbn [length] in B2. replace (length fips + 1)%nat with (S (length fips)) in B2 by lia. rewrite <- !app_assoc in B2.
    split; [exact B2|]. split; [by constructor|]. split; congruence.
Qed.

(** ** The finished image *)

(** A block of the file below its length has a slot, and only those have. *)
Lemma slot_used len bn : 0 <= bn < MAXFILE -> (slot_of bn < nslots len)%nat <-> bn * BSIZE < Z.of_nat len.
Proof.
  change BSIZE with 512. change MAXFILE with 140. intros Hbn. unfold slot_of, nslots. change NDIRECT with 12.
  pose proof (Nat.div_mod_eq (len + 511) 512). pose proof (Nat.mod_upper_bound (len + 511) 512 ltac:(lia)).
  destruct (Z.ltb_spec bn 12), (Nat.leb_spec ((len + 511) / 512) 12); lia.
Qed.

Lemma mark_bits n : forall a d j, length d = 512%nat -> (a + n <= 4096)%nat ->
  bit_clear (foldl mark_bit d (seq a n)) j = (if decide (a <= j < a + n)%nat then false else bit_clear d j) /\
  length (foldl mark_bit d (seq a n)) = 512%nat.
Proof.
  induction n as [|n IH]; intros a d j Hd Hn; cbn [seq foldl]; [by rewrite decide_False by lia|].
  assert (length (mark_bit d a) = 512%nat) as Hl by (unfold mark_bit; by rewrite length_insert).
  destruct (IH (S a) (mark_bit d a) j Hl ltac:(lia)) as [-> ->]. split; [|done].
  rewrite mark_bit_clear by (rewrite Hd; apply Nat.Div0.div_lt_upper_bound; lia). repeat case_decide; try done; lia.
Qed.

Lemma zero_clear j : bit_clear zero_block j = true.
Proof.
  unfold bit_clear, byte_at, zero_block. apply Z.eqb_eq. destruct (decide (j / 8 < 512)%nat); [by rewrite lookup_replicate_2|].
  rewrite lookup_ge_None_2; [done|]. rewrite length_replicate. lia.
Qed.

Lemma mark_bits_bytes l : forall d, bytes_ok 512 d -> bytes_ok 512 (foldl mark_bit d l).
Proof. induction l as [|x l IH]; intros d Hd; cbn [foldl]; [done|]. apply IH. by apply mark_bit_ok. Qed.

Section Final.
Context (V0 : gmap Z block) (fb : Z) (ips : list inode) (cs : list (list Z)).
Hypothesis I0 : image V0 fb ips cs (slots_of cs).

(** The image with its bitmap. *)
Definition with_bitmap : gmap Z block := <[58 := foldl mark_bit zero_block (seq 0 (Z.to_nat fb))]> V0.

Lemma with_bitmap_image : image with_bitmap fb ips cs (slots_of cs).
Proof.
  pose proof nmeta_eq as Em. apply (image_meta V0); [done| |].
  - intros n Hn. unfold with_bitmap. by rewrite lookup_insert_ne by lia.
  - intros n Hn. unfold with_bitmap. rewrite blk_insert. destruct (decide (58 = n)) as [<-|Hne].
    + rewrite lookup_insert_eq. split; [done|]. apply mark_bits_bytes. split; [done|]. apply Forall_replicate. unfold is_byte. lia.
    + rewrite lookup_insert_ne by done. apply (im_blocks _ _ _ _ _ I0). change FSSIZE with 1000. lia.
Qed.

Lemma with_bitmap_unused b : 0 <= b < FSSIZE -> is_unused sb with_bitmap b <-> fb <= b.
Proof.
  intros Hb. pose proof (im_fb _ _ _ _ _ I0) as Hfb. change FSSIZE with 1000 in *. unfold is_unused, BBLOCK. change BPB with 4096. change (sb_bmapstart sb) with 58.
  rewrite Z.div_small, Z.mod_small by lia. change (0 + 58) with 58. unfold with_bitmap. rewrite blk_insert, decide_True by done.
  pose proof nmeta_eq. destruct (mark_bits (Z.to_nat fb) 0 zero_block (Z.to_nat b) eq_refl ltac:(lia)) as [-> _].
  rewrite zero_clear. case_decide; split; try done; lia.
Qed.

Lemma bmap_block b : 0 <= b < FSSIZE -> BBLOCK b sb = 58.
Proof. intros Hb. change FSSIZE with 1000 in Hb. unfold BBLOCK. change BPB with 4096. by rewrite Z.div_small by lia. Qed.

Lemma data_block_mkfs b : nmeta <= b < FSSIZE -> data_block sb 2 nlog FSSIZE b.
Proof.
  pose proof nmeta_eq as Em. change FSSIZE with 1000. intros Hb. split; [|split; [|split]].
  - split; [lia|]. unfold in_log. change nlog with 30. lia.
  - change (sb_size sb) with 1000. lia.
  - intros b' Hb'. change (sb_size sb) with 1000 in Hb'. rewrite bmap_block by (change FSSIZE with 1000; lia). lia.
  - intros inum Hi. change (sb_ninodes sb) with 200 in Hi. pose proof (iblock_range inum ltac:(lia)). lia.
Qed.

Lemma with_bitmap_ok : bitmap_ok sb 2 nlog FSSIZE with_bitmap.
Proof.
  pose proof nmeta_eq as Em. pose proof (im_fb _ _ _ _ _ I0) as Hfb. change FSSIZE with 1000 in *. split; change (sb_size sb) with 1000; change (sb_ninodes sb) with 200.
  - lia.
  - intros b Hb. rewrite bmap_block by done. split; [lia|]. unfold in_log. change nlog with 30. lia.
  - intros inum Hi. pose proof (iblock_range inum ltac:(lia)) as Hr. split; [split; [lia|]; unfold in_log; change nlog with 30; lia|].
    intros b Hb. rewrite bmap_block by done. lia.
  - intros b Hb Hu. apply with_bitmap_unused in Hu; [|done]. apply data_block_mkfs. change FSSIZE with 1000. lia.
Qed.

(** An inode of the image, with the fields the kernel keeps in memory. *)
Lemma mkfs_inode_ok i ip ip0 : ips !! i = Some ip -> i_dev ip0 = 1 -> inode_ok sb 2 nlog FSSIZE with_bitmap (stored_fields ip ip0).
Proof.
  intros Hi Hdev. pose proof with_bitmap_image as I. pose proof (im_fb _ _ _ _ _ I) as Hfb. pose proof nmeta_eq as Em.
  assert (forall j, slot_addr with_bitmap (stored_fields ip ip0) j = slot_addr with_bitmap ip j) as Hs by done. split.
  - done.
  - exact (im_addrs _ _ _ _ _ I i ip Hi).
  - intros j Hj H0. rewrite Hs in *. pose proof (im_slot_range _ _ _ _ _ i ip j I Hi Hj H0) as Hr. change FSSIZE with 1000 in *. split.
    + apply data_block_mkfs. change FSSIZE with 1000. lia.
    + intros Hu. apply with_bitmap_unused in Hu; [lia|]. change FSSIZE with 1000. lia.
  - intros j j' Hj Hj' H0 E. rewrite !Hs in *. by destruct (im_inj _ _ _ _ _ I i i ip ip j j' Hi Hi Hj Hj' H0 E).
Qed.

Lemma mkfs_slot_used i ip c bn : ips !! i = Some ip -> cs !! i = Some c -> 0 <= bn < MAXFILE ->
  slot_addr with_bitmap ip (slot_of bn) <> 0 <-> bn * BSIZE < Z.of_nat (length c).
Proof.
  intros Hi Hc Hbn. pose proof nmeta_eq. rewrite <- slot_used by done. destruct (slot_of_bound bn Hbn) as [Hsb _].
  pose proof (im_slot _ _ _ _ _ with_bitmap_image i ip _ (slot_of bn) Hi (slots_of_lookup _ _ _ Hc) Hsb) as Hs. destruct (decide _); lia.
Qed.
End Final.

(** The inode a kernel reads from the image. *)
Definition disk_inode (V : gmap Z block) (inum : Z) (ip0 : inode) : inode :=
  load_dinode (blk V (IBLOCK inum sb)) (dinode_off inum) ip0.

(** Inode [inum] of the image is a file the kernel can use, with the bytes
    [data] followed by zeros. *)
Record holds (V : gmap Z block) (inum type size : Z) (data : list Z) : Prop := {
  ho_type ip0 : i_type (disk_inode V inum ip0) = type;
  ho_nlink ip0 : i_nlink (disk_inode V inum ip0) = 1;
  ho_size ip0 : i_size (disk_inode V inum ip0) = size;
  ho_ok ip0 : i_dev ip0 = 1 -> inode_ok sb 2 nlog FSSIZE V (disk_inode V inum ip0);
  ho_bytes ip0 off : 0 <= off < MAXFILE * BSIZE -> file_byte V (disk_inode V inum ip0) off = byte_at data (Z.to_nat off);
  ho_blocks ip0 bn : 0 <= bn < MAXFILE ->
    slot_addr V (disk_inode V inum ip0) (slot_of bn) <> 0 <-> bn * BSIZE < Z.of_nat (length data)
}.

Lemma load_fields d off ip0 : load_dinode d off ip0 = stored_fields (load_dinode d off din0) ip0.
Proof. done. Qed.

(** The root directory. *)
Definition root_dir (files : list infile) : list Z :=
  dirent ROOTINO [46] ++ dirent ROOTINO [46; 46] ++ entries 1 files.

Definition blocks_needed (files : list infile) : Z :=
  nmeta + Z.of_nat (nslots (length (root_dir files)) + file_slots files).

Lemma root_dir_length files : length (root_dir files) = (32 + 16 * length files)%nat.
Proof. unfold root_dir. rewrite !length_app, !dirent_length, entries_length. lia. Qed.

(** The two entries of the empty root directory. *)
Lemma root_spec : exists st rip, ialloc T_DIR blank = Some (ROOTINO, st) /\
  (exists st1 st2 rip2, iappend ROOTINO (dirent ROOTINO [46]) st = Some st1 /\ iappend ROOTINO (dirent ROOTINO [46; 46]) st1 = Some st2 /\
    built st2 [rip2] [dirent ROOTINO [46] ++ dirent ROOTINO [46; 46]] /\ i_type rip2 = T_DIR /\ i_nlink rip2 = 1) /\ i_type rip = T_DIR.
Proof.
  destruct (ialloc_spec blank [] [] T_DIR blank_built) as (st & rip & E & B & T & N & _); [cbn; lia|unfold T_DIR; lia|]. exists st, rip.
  split; [exact E|]. split; [|done]. pose proof nmeta_eq. pose proof (bt_count _ _ _ B) as C0. cbn [app] in *.
  change (total [[]]) with 0%nat in C0. change (length ([] : list inode)) with 0%nat in E.
  destruct (iappend_spec st [rip] [[]] 0 rip [] (dirent ROOTINO [46]) B eq_refl eq_refl) as (st1 & rip1 & E1 & B1 & T1 & N1).
  { apply dirent_bytes. repeat constructor; lia. } { by vm_compute. } { rewrite dirent_length. cbn [length Nat.add]. change (nslots 16) with 1%nat. change (nslots 0) with 0%nat. change FSSIZE with 1000. lia. }
  pose proof (bt_count _ _ _ B1) as C1. cbn [insert list_insert app] in B1, C1. rewrite total_cons, dirent_length in C1. change (total []) with 0%nat in C1. change (nslots 16) with 1%nat in C1.
  destruct (iappend_spec st1 [rip1] _ 0 rip1 _ (dirent ROOTINO [46; 46]) B1 eq_refl eq_refl) as (st2 & rip2 & E2 & B2 & T2 & N2).
  { apply dirent_bytes. repeat constructor; lia. } { by vm_compute. } { rewrite !dirent_length. change (nslots (16 + 16)) with 1%nat. change (nslots 16) with 1%nat. change FSSIZE with 1000. lia. }
  exists st1, st2, rip2. split; [exact E1|]. split; [exact E2|]. cbn [insert list_insert] in B2. split; [exact B2|]. split; congruence.
Qed.

Definition fixed_size (len : Z) : Z := (len / BSIZE + 1) * BSIZE.

(** The last steps: the size of the root directory is rounded up and the bitmap
    is written. *)
Lemma finish_spec st rip ips cs root : built st (rip :: ips) (root :: cs) ->
  exists st' ip1, (din ← rinode ROOTINO st;
    st ← winode ROOTINO (set_i_size (xint ((xint (i_size din) / BSIZE + 1) * BSIZE)) din) st; balloc (m_freeblock st) st) = Some st' /\
  ip1 = set_i_size (fixed_size (Z.of_nat (length root))) rip /\
  (exists V0, image V0 (m_freeblock st) (ip1 :: ips) (root :: cs) (slots_of (root :: cs)) /\ m_img st' = with_bitmap V0 (m_freeblock st)) /\
  (forall n, 0 <= n < 32 -> m_img st' !! n = Some (front n)) /\
  forall i ip, (ip1 :: ips) !! i = Some ip -> load_dinode (blk (m_img st') (IBLOCK (inum_of i) sb)) (dinode_off (inum_of i)) din0 = ip.
Proof.
  intros B. destruct (bt_size _ _ _ B 0 rip root eq_refl eq_refl) as [Es Hs]. change (MAXFILE * BSIZE) with 71680 in Hs. pose proof nmeta_eq as Em.
  change ROOTINO with (inum_of 0). rewrite (rinode_spec st _ _ 0 rip B eq_refl). cbn [mbind option_bind]. rewrite (xint_small (i_size rip)), Es by lia.
  assert (0 <= fixed_size (Z.of_nat (length root)) < 2 ^ 17) as Hfs.
  { unfold fixed_size. change BSIZE with 512. assert (0 <= Z.of_nat (length root) / 512 <= 140); [|lia]. split; [apply Z.div_pos; lia|].
    change 140 with (71680 / 512). apply Z.div_le_mono; lia. }
  fold (fixed_size (Z.of_nat (length root))). rewrite xint_small by lia. set (ip1 := set_i_size _ rip).
  assert (inode_ranges ip1) as Hr. { destruct (bt_ranges _ _ _ B 0 rip eq_refl) as [R1 R2 R3 R4 R5 R6 R7]. split; try done. cbn. lia. }
  assert (stored_only ip1) as Hst. { pose proof (bt_stored _ _ _ B 0 rip eq_refl) as Hx. unfold ip1, stored_only in *. rewrite <- Hx. done. }
  destruct st as [V fi fb]. pose proof (image_set_size V fb (rip :: ips) _ _ 0 rip (fixed_size (Z.of_nat (length root))) ltac:(cbn; lia) (bt_image _ _ _ B)) as I1.
  cbn [insert list_insert] in I1. fold ip1 in I1. destruct (winode_spec V fi fb _ _ _ 0 ip1 I1 ltac:(lia) Hr Hst) as (V1 & E1 & I2 & Hsame & Hload).
  rewrite E1. cbn [mbind option_bind]. unfold balloc. pose proof (im_fb _ _ _ _ _ I2) as Hfb. cbn [m_freeblock]. change FSSIZE with 1000 in Hfb.
  rewrite (proj2 (Z.ltb_lt fb (BSIZE * 8))) by (change (BSIZE * 8) with 4096; lia). eexists _, ip1. split; [reflexivity|]. split; [done|].
  split; [by exists V1|]. cbn [wsect m_img]. change (sb_bmapstart sb) with 58. split.
  - intros n Hn. rewrite lookup_insert_ne, Hsame by lia. by apply (bt_front _ _ _ B).
  - intros i ip Hi. pose proof (lookup_lt_Some _ _ _ Hi) as Hlt. cbn [length] in Hlt. pose proof (bt_few _ _ _ B) as Hfew. cbn [length] in Hfew.
    pose proof (iblock_range (inum_of i) ltac:(unfold inum_of; lia)). rewrite blk_insert, decide_False, Hload by lia.
    destruct i as [|i]; [by injection Hi as <-|]. rewrite decide_False by lia. by apply (bt_saved _ _ _ B (S i)).
Qed.

(** The inodes of an image are files. *)
Lemma image_holds V0 fb ips cs : image V0 fb ips cs (slots_of cs) -> let V := with_bitmap V0 fb in
  forall i ip c, load_dinode (blk V (IBLOCK (inum_of i) sb)) (dinode_off (inum_of i)) din0 = ip ->
    ips !! i = Some ip -> cs !! i = Some c -> i_nlink ip = 1 -> holds V (inum_of i) (i_type ip) (i_size ip) c.
Proof.
  intros I0 V i ip c Hload Hi Hc Hnl. assert (forall ip0, disk_inode V (inum_of i) ip0 = stored_fields ip ip0) as Hd.
  { intros ip0. unfold disk_inode. by rewrite load_fields, Hload. }
  split; intros ip0; [by rewrite Hd|by rewrite Hd|by rewrite Hd|intros Hdev|intros off Hoff|intros bn Hbn]; rewrite Hd.
  - by apply (mkfs_inode_ok V0 fb _ cs I0 i).
  - by apply (im_bytes _ _ _ _ _ (with_bitmap_image V0 _ _ _ I0) i ip).
  - by apply (mkfs_slot_used V0 fb _ _ I0 i ip).
Qed.

(** A file without blocks missing below its size. *)
Lemma holds_no_holes V inum type size data ip0 : holds V inum type size data ->
  no_holes V (disk_inode V inum ip0) <-> forall bn, 0 <= bn < MAXFILE -> bn * BSIZE < size -> bn * BSIZE < Z.of_nat (length data).
Proof.
  intros H. unfold no_holes. rewrite (ho_size _ _ _ _ _ H). split; intros Hb bn Hbn Hlt.
  - apply (ho_blocks _ _ _ _ _ H ip0 bn Hbn). by apply Hb.
  - apply (ho_blocks _ _ _ _ _ H ip0 bn Hbn). by apply Hb.
Qed.

(** The rounding of the size of the root directory leaves a block out exactly
    when the entries fill their last block. *)
Lemma fixed_size_hole len : 0 <= len -> len < MAXFILE * BSIZE ->
  (forall bn, 0 <= bn < MAXFILE -> bn * BSIZE < fixed_size len -> bn * BSIZE < len) <-> len mod BSIZE <> 0.
Proof.
  unfold fixed_size. change MAXFILE with 140. change BSIZE with 512. intros H0 H1. pose proof (Z.div_mod len 512 ltac:(lia)) as Hdm.
  pose proof (Z.mod_pos_bound len 512 ltac:(lia)) as Hm. split.
  - intros Hb Hz. assert (0 <= len / 512) by (apply Z.div_pos; lia). specialize (Hb (len / 512)). lia.
  - intros Hz bn Hbn Hlt. lia.
Qed.

(** The file system on the image for [files]. *)
Record fs_image (files : list infile) (V : gmap Z block) : Prop := {
  fi_blocks n : 0 <= n < FSSIZE -> is_Some (V !! n) /\ bytes_ok 512 (blk V n);
  fi_front n : 0 <= n < 32 -> V !! n = Some (front n);
  fi_bitmap : bitmap_ok sb 2 nlog FSSIZE V;
  fi_unused b : 0 <= b < FSSIZE -> is_unused sb V b <-> blocks_needed files <= b;
  fi_root : holds V ROOTINO T_DIR (fixed_size (Z.of_nat (length (root_dir files)))) (root_dir files);
  fi_files i f : files !! i = Some f ->
    holds V (Z.of_nat i + 2) T_FILE (Z.of_nat (length (contents_of f))) (contents_of f);
  fi_apart i i' j j' : (i <= length files)%nat -> (i' <= length files)%nat -> (j < NSLOT)%nat -> (j' < NSLOT)%nat ->
    let a i j := slot_addr V (disk_inode V (inum_of i) din0) j in a i j <> 0 -> a i j = a i' j' -> i = i' /\ j = j'
}.

Lemma mkfs_image files : Forall valid_file files -> (length files <= 198)%nat -> blocks_needed files <= FSSIZE ->
  exists st, mkfs files = Some st /\ fs_image files (m_img st).
Proof.
  intros Hv Hn Hroom. destruct root_spec as (st0 & _ & E0 & (st1 & st2 & rip & E1 & E2 & B2 & T2 & N2) & _). pose proof (bt_count _ _ _ B2) as C2.
  set (root := dirent ROOTINO [46] ++ dirent ROOTINO [46; 46]) in *. assert (length root = 32%nat) as Hrl by done.
  unfold blocks_needed in *. rewrite root_dir_length in Hroom. rewrite total_cons, Hrl in C2. change (total []) with 0%nat in C2.
  destruct (copy_all_spec files st2 rip [] root [] B2 Hv) as (st3 & rip3 & ips & E3 & B3 & Hips & T3 & N3); [cbn; lia|rewrite Hrl; change (MAXFILE * BSIZE) with 71680; lia|rewrite Hrl; lia|].
  cbn [app length] in B3. change (root ++ entries 1 files) with (root_dir files) in B3.
  assert (length ips = length files) as Hil. { pose proof (im_cs _ _ _ _ _ (bt_image _ _ _ B3)) as H. cbn in H. rewrite length_fmap in H. lia. }
  pose proof (bt_count _ _ _ B3) as C3. rewrite total_cons in C3. fold (file_slots files) in C3.
  destruct (finish_spec st3 rip3 ips _ _ B3) as (st & ip1 & E4 & Eip & (V0 & I0 & EV) & Hsb & Hload).
  exists st. split.
  { unfold mkfs. rewrite E0. cbn [mbind option_bind]. rewrite Z.eqb_refl. cbn [negb]. rewrite E1. cbn [mbind option_bind]. rewrite E2. cbn [mbind option_bind].
    rewrite E3. exact E4. }
  pose proof (image_holds V0 _ _ _ I0) as Hholds. rewrite <- EV in Hholds.
  assert (holds (m_img st) ROOTINO T_DIR (fixed_size (Z.of_nat (length (root_dir files)))) (root_dir files)) as Hroot.
  { assert (i_type ip1 = T_DIR /\ i_nlink ip1 = 1 /\ i_size ip1 = fixed_size (Z.of_nat (length (root_dir files)))) as (Ht & Hl & Hz) by (subst ip1; cbn; split; [congruence|split; [congruence|done]]).
    rewrite <- Ht, <- Hz. apply (Hholds 0%nat); [by apply Hload|done|done|done]. }
  assert (forall i f, files !! i = Some f -> holds (m_img st) (Z.of_nat i + 2) T_FILE (Z.of_nat (length (contents_of f))) (contents_of f)) as Hfiles.
  { intros i f Hf. destruct (lookup_lt_is_Some_2 ips i) as [ip Hi]; [rewrite Hil; by eapply lookup_lt_Some|].
    rewrite list.Forall_forall in Hips. destruct (Hips ip) as [Ht Hl]; [by eapply list_elem_of_lookup_2|].
    assert ((contents_of <$> files) !! i = Some (contents_of f)) as Hc by (by rewrite list_lookup_fmap, Hf).
    destruct (bt_size _ _ _ B3 (S i) ip (contents_of f) Hi Hc) as [<- _]. rewrite <- Ht. replace (Z.of_nat i + 2) with (inum_of (S i)) by (unfold inum_of; lia).
    apply (Hholds (S i)); [by apply Hload|done|done|done]. }
  split; [| |by rewrite EV; eapply with_bitmap_ok| |done|done|].
  - intros n Hnb. rewrite EV. by apply (im_blocks _ _ _ _ _ (with_bitmap_image V0 _ _ _ I0)).
  - done.
  - intros b Hb. rewrite EV, (with_bitmap_unused V0 _ _ _ I0 b Hb), C3. unfold blocks_needed. clear. split; lia.
  - intros i i' j j' Hi Hi' Hj Hj'. destruct (lookup_lt_is_Some_2 (ip1 :: ips) i) as [ip Eip1]; [cbn; lia|].
    destruct (lookup_lt_is_Some_2 (ip1 :: ips) i') as [ip' Eip2]; [cbn; lia|]. unfold disk_inode. rewrite (Hload i ip), (Hload i' ip'), EV by done.
    by apply (im_inj _ _ _ _ _ (with_bitmap_image V0 _ _ _ I0)).
Qed.

Lemma front_decodes : decode_sb (front 1) = sb.
Proof. by vm_compute. Qed.

(** C12: mkfs succeeds when the files fit, and the image it writes is a file system
    that satisfies what the theorems about the kernel assume: its superblock is
    the one described, exactly the blocks of the metadata and of the files are
    marked as used, the root directory lists the files with their inodes, every
    file has the contents it was copied from, and no block belongs to two
    places.  The files have no holes; the root directory has one exactly when its
    entries fill their last block, because its size is rounded up all the same. *)
Theorem mkfs_builds files : Forall valid_file files -> (length files <= 198)%nat -> blocks_needed files <= FSSIZE ->
  exists st, mkfs files = Some st /\ let V := m_img st in
    decode_sb (blk V 1) = sb /\ (forall n, 2 <= n < 2 + nlog -> V !! n = Some zero_block) /\ bitmap_ok sb 2 nlog FSSIZE V /\
    (forall b, 0 <= b < FSSIZE -> is_unused sb V b <-> blocks_needed files <= b) /\
    holds V ROOTINO T_DIR (fixed_size (Z.of_nat (length (root_dir files)))) (root_dir files) /\
    (forall i f, files !! i = Some f -> holds V (Z.of_nat i + 2) T_FILE (Z.of_nat (length (contents_of f))) (contents_of f)) /\
    (forall i i' j j', (i <= length files)%nat -> (i' <= length files)%nat -> (j < NSLOT)%nat -> (j' < NSLOT)%nat ->
       let a i j := slot_addr V (disk_inode V (inum_of i) din0) j in a i j <> 0 -> a i j = a i' j' -> i = i' /\ j = j') /\
    (forall i ip0, (i < length files)%nat -> no_holes V (disk_inode V (Z.of_nat i + 2) ip0)) /\
    (forall ip0, no_holes V (disk_inode V ROOTINO ip0) <-> (Z.of_nat (length files) + 2) mod 32 <> 0).
Proof.
  intros Hv Hn Hroom. destruct (mkfs_image files Hv Hn Hroom) as (st & E & [F1 F2 F3 F4 F5 F6 F7]). exists st. split; [exact E|].
  cbn zeta. split; [rewrite (blk_Some _ _ _ (F2 1 ltac:(lia))); apply front_decodes|]. split.
  { intros n Hb. change nlog with 30 in Hb. rewrite F2 by lia. unfold front. by rewrite (proj2 (Z.eqb_neq _ _)) by lia. }
  do 5 (split; [done|]). split.
  - intros i ip0 Hi. destruct (lookup_lt_is_Some_2 files i Hi) as [f Hf]. by apply (holds_no_holes _ _ _ _ _ ip0 (F6 i f Hf)).
  - intros ip0. rewrite (holds_no_holes _ _ _ _ _ ip0 F5), root_dir_length, fixed_size_hole by (change (MAXFILE * BSIZE) with 71680; lia).
    replace (Z.of_nat (32 + 16 * length files)) with (16 * (Z.of_nat (length files) + 2)) by lia. change BSIZE with (16 * 32). rewrite Z.mul_mod_distr_l by lia. clear. lia.
Qed.

(** An image with one program of three bytes. *)
Definition ex_file : infile := {| f_name := [95; 99; 97; 116; 0]; f_chunks := Some [[7; 8]; [9]] |}.

Lemma mkfs_builds_witness : exists st, mkfs [ex_file] = Some st /\ holds (m_img st) 2 T_FILE 3 [7; 8; 9] /\
  forall ip0, no_holes (m_img st) (disk_inode (m_img st) ROOTINO ip0).
Proof.
  destruct (mkfs_builds [ex_file]) as (st & E & _ & _ & _ & _ & _ & Hf & _ & _ & Hh).
  - apply list.Forall_cons. split; [|done]. split; [by eexists|by vm_compute; set_solver|repeat constructor; by vm_compute|repeat constructor; by vm_compute|by vm_compute].
  - cbn. lia.
  - by vm_compute.
  - exists st. split; [exact E|]. split; [exact (Hf 0%nat ex_file eq_refl)|]. intros ip0. apply Hh. by vm_compute.
Defined.
