(* ===== verification/Mount.v ===== *)
(** * The kernel on the image of mkfs

    The image mkfs writes for a list of files, seen by the kernel: it is a
    well-formed file system, and a kernel that boots from it finds every file by
    its name and reads what mkfs copied. *)

From S2P Require Import Prelude Bytes Cstring Kstate Sync Disk Bio Cache Log Commit Crash Txn Kalloc Pipe Fs Dinode Alloc Content File Console Dir Readwrite Directory Namei Mkfs Mkimage.
Import Str.
Local Open Scope Z_scope.

(** ** The blocks of the file system proper *)

(** The kernel's view may differ from the image in the log. *)
Definition agree (V V' : gmap Z block) : Prop := forall n, 32 <= n < FSSIZE -> V' !! n = V !! n.

Lemma agree_inode V V' inum ip0 : agree V V' -> 0 <= inum < 208 -> disk_inode V' inum ip0 = disk_inode V inum ip0.
Proof.
  intros A Hi. pose proof (iblock_range inum Hi) as Hb. unfold disk_inode, blk. rewrite A; [done|]. change FSSIZE with 1000. lia.
Qed.

Lemma agree_unused V V' b : agree V V' -> 0 <= b < FSSIZE -> is_unused sb V' b <-> is_unused sb V b.
Proof.
  intros A Hb. unfold is_unused. rewrite bmap_block by done. unfold blk. rewrite A; [done|]. change FSSIZE with 1000. lia.
Qed.

Lemma data_block_high b : data_block sb 2 nlog FSSIZE b -> 32 <= b < FSSIZE.
Proof. intros ((H1 & H2) & _). unfold in_log in H2. change nlog with 30 in H2. lia. Qed.

Lemma agree_slot V V' ip j : agree V V' -> (addr_at ip 12 <> 0 -> 32 <= addr_at ip 12 < FSSIZE) -> slot_addr V' ip j = slot_addr V ip j.
Proof.
  intros A H. unfold slot_addr. destruct (j <=? 12)%nat; [done|]. destruct (Z.eqb_spec (addr_at ip 12) 0) as [|Hne]; [done|]. unfold blk. by rewrite A by auto.
Qed.

Lemma agree_slots V V' ip : agree V V' -> inode_ok sb 2 nlog FSSIZE V ip ->
  (forall j, slot_addr V' ip j = slot_addr V ip j) /\ inode_ok sb 2 nlog FSSIZE V' ip /\
  forall off, 0 <= off < MAXFILE * BSIZE -> file_byte V' ip off = file_byte V ip off.
Proof.
  intros A [O1 O2 O3 O4]. assert (forall j, slot_addr V' ip j = slot_addr V ip j) as Hs.
  { intros j. apply agree_slot; [done|]. intros Hne. by apply data_block_high, (O3 12%nat ltac:(unfold NSLOT; lia)). }
  split; [done|]. split.
  - split; try done.
    + intros j Hj. rewrite Hs. intros Hne. destruct (O3 j Hj Hne) as [Hd Hu]. split; [done|]. pose proof (data_block_high _ Hd). rewrite (agree_unused V) by (done || lia). done.
    + intros j j' Hj Hj'. rewrite !Hs. by apply O4.
  - intros off Hoff. unfold file_byte, file_block. rewrite Hs. destruct (Z.eqb_spec (slot_addr V ip (slot_of (off / BSIZE))) 0) as [|Hne]; [done|].
    assert (0 <= off / BSIZE < MAXFILE) as Hob. { change (MAXFILE * BSIZE) with 71680 in Hoff. change BSIZE with 512. change MAXFILE with 140. split; [apply Z.div_pos; lia|apply Z.div_lt_upper_bound; lia]. }
    destruct (slot_of_bound _ Hob) as [Hj _]. unfold blk. rewrite A; [done|]. by apply data_block_high, O3.
Qed.

Lemma agree_holds V V' inum type size data : agree V V' -> 0 <= inum < 208 -> holds V inum type size data -> holds V' inum type size data.
Proof.
  intros A Hi [H1 H2 H3 H4 H5 H6].
  assert (forall ip0, inode_ok sb 2 nlog FSSIZE V (disk_inode V inum (mkInode 1 (i_inum ip0) (i_ref ip0) (i_busy ip0) (i_valid ip0) 0 0 0 0 0 []))) as Hok by (intros; by apply H4).
  split; intros ip0; rewrite (agree_inode V) by done; try done.
  - intros Hd. by apply (agree_slots V), H4.
  - intros off Hoff. rewrite <- (H5 ip0 off Hoff). destruct (agree_slots V V' _ A (Hok ip0)) as (_ & _ & Hb). exact (Hb off Hoff).
  - intros bn Hbn. rewrite <- (H6 ip0 bn Hbn). destruct (agree_slots V V' _ A (Hok ip0)) as (Hs & _). specialize (Hs (slot_of bn)).
    change (slot_addr V' (disk_inode V inum ip0) (slot_of bn) = slot_addr V (disk_inode V inum ip0) (slot_of bn)) in Hs. by rewrite Hs.
Qed.

(** ** The root directory *)
Definition root_entries (files : list infile) : list (Z * list Z) :=
  (ROOTINO, [46]) :: (ROOTINO, [46; 46]) :: imap (fun i f => (Z.of_nat i + 2, dir_name (strip (f_name f)))) files.

Lemma byte_at_concat (n : nat) cs : forall j x c, Forall (fun c => length c = n) cs -> cs !! j = Some c -> (x < n)%nat -> byte_at (concat cs) (n * j + x) = byte_at c x.
Proof.
  induction cs as [|c0 cs IH]; intros j x c Hall Hj Hx; [done|]. apply list.Forall_cons in Hall as [Hc0 Hcs]. cbn [concat]. unfold byte_at.
  destruct j as [|j].
  - injection Hj as <-. rewrite Nat.mul_0_r, Nat.add_0_l, lookup_app_l by lia. done.
  - rewrite lookup_app_r by lia. replace (n * S j + x - length c0)%nat with (n * j + x)%nat by lia. by apply IH.
Qed.

Lemma entries_concat files : forall k, entries k files = concat (imap (fun i f => dirent (inum_of (k + i)) (strip (f_name f))) files).
Proof.
  induction files as [|f files IH]; intros k; [done|]. cbn [entries imap concat]. rewrite Nat.add_0_r, IH. f_equal. f_equal. apply imap_ext. intros i f' _. cbn. by rewrite Nat.add_succ_r.
Qed.

Lemma dirent_entry inum name : 0 <= inum < 2 ^ 16 -> entry_of (dirent inum name) = (inum, dir_name name).
Proof.
  intros Hi. unfold dirent. rewrite xshort_small by done. by apply mk_dirent_entry.
Qed.

(** The entries in the root directory of the image; the rest of its last block
    is zero. *)
Lemma root_dirents V files ip0 : (length files <= 198)%nat -> holds V ROOTINO T_DIR (fixed_size (Z.of_nat (length (root_dir files)))) (root_dir files) ->
  exists m, dirents V (disk_inode V ROOTINO ip0) = root_entries files ++ replicate m (0, []).
Proof.
  intros Hn H. set (cs := dirent ROOTINO [46] :: dirent ROOTINO [46; 46] :: imap (fun i f => dirent (inum_of (1 + i)) (strip (f_name f))) files).
  assert (root_dir files = concat cs) as Hrd. { unfold root_dir. rewrite entries_concat. done. }
  assert (Forall (fun c => length c = 16%nat) cs) as Hcs.
  { repeat (apply list.Forall_cons; split; [apply dirent_length|]). apply list.Forall_forall. intros c (i & f & -> & _)%elem_of_lookup_imap. apply dirent_length. }
  assert (length cs = (2 + length files)%nat) as Hcl by (cbn; by rewrite length_imap).
  assert (entry_of <$> cs = root_entries files) as Hes.
  { unfold cs, root_entries. cbn [fmap list_fmap]. rewrite !dirent_entry by (unfold ROOTINO; lia). change (dir_name [46]) with [46]. change (dir_name [46; 46]) with [46; 46]. do 2 f_equal. rewrite fmap_imap. apply imap_ext.
    intros i f Hf%lookup_lt_Some. transitivity (entry_of (dirent (inum_of (1 + i)) (strip (f_name f)))); [done|]. rewrite dirent_entry by (unfold inum_of; lia). f_equal. unfold inum_of. lia. }
  pose proof (root_dir_length files) as Hl. set (sz := fixed_size (Z.of_nat (length (root_dir files)))) in *.
  assert (sz = (Z.of_nat (2 + length files) / 32 + 1) * 512) as Hsz.
  { unfold sz, fixed_size. rewrite Hl. change BSIZE with (16 * 32). replace (Z.of_nat (32 + 16 * length files)) with (16 * Z.of_nat (2 + length files)) by lia.
    by rewrite Z.div_mul_cancel_l by lia. }
  pose proof (Z.div_mod (Z.of_nat (2 + length files)) 32 ltac:(lia)) as Hdm. pose proof (Z.mod_pos_bound (Z.of_nat (2 + length files)) 32 ltac:(lia)) as Hmb.
  set (q := Z.of_nat (2 + length files) / 32) in *. exists (Z.to_nat (32 * (q + 1)) - (2 + length files))%nat.
  assert (i_size (disk_inode V ROOTINO ip0) = 512 * (q + 1)) as Hisz by (rewrite (ho_size _ _ _ _ _ H); lia).
  assert (i_size (disk_inode V ROOTINO ip0) / 16 = 32 * (q + 1)) as Hcount. { rewrite Hisz. symmetry. apply (Z.div_unique _ 16 _ 0); lia. }
  apply list_eq. intros j. destruct (decide (Z.of_nat j < 32 * (q + 1))) as [Hj|Hj].
  - rewrite dirents_lookup by lia.
    assert (file_bytes V (disk_inode V ROOTINO ip0) (16 * Z.of_nat j) 16 = (fun x => byte_at (root_dir files) (16 * j + x)) <$> seq 0 16) as ->.
    { unfold file_bytes. change (seqZ 0 16) with (Z.of_nat <$> seq 0 16). rewrite <- list_fmap_compose. apply list_fmap_ext. intros i x Hx%lookup_seq. cbn.
      rewrite (ho_bytes _ _ _ _ _ H) by (change (MAXFILE * BSIZE) with 71680; lia). f_equal. lia. }
    destruct (decide (j < length cs)%nat) as [Hlt|Hge].
    + destruct (lookup_lt_is_Some_2 cs j Hlt) as [c Hc]. rewrite lookup_app_l by (rewrite <- Hes, length_fmap; done). rewrite <- Hes, list_lookup_fmap, Hc. change (entry_of <$> Some c) with (Some (entry_of c)). do 2 f_equal.
      pose proof (proj1 (Forall_lookup _ _) Hcs j c Hc) as Hlc. apply list_eq_same_length with 16%nat; [done|done|]. intros x a b Hx. rewrite list_lookup_fmap, lookup_seq_lt by done.
      cbn [fmap option_fmap option_map]. rewrite Nat.add_0_l, Hrd, (byte_at_concat 16 cs j x c) by done. unfold byte_at. by intros [= <-] ->.
    + rewrite lookup_app_r by (rewrite <- Hes, length_fmap; lia). rewrite <- Hes, length_fmap, lookup_replicate_2 by lia. f_equal.
      rewrite (list_fmap_ext _ (fun _ => 0)); [by vm_compute|]. intros i x Hx%lookup_seq. unfold byte_at. rewrite lookup_ge_None_2; [done|]. rewrite Hl. lia.
  - rewrite lookup_ge_None_2, lookup_ge_None_2; [done| |].
    + rewrite <- Hes, length_app, length_fmap, length_replicate. lia.
    + rewrite dirents_length by lia. lia.
Qed.

Lemma dir_map_free es m : dir_map (es ++ replicate m (0, [])) = dir_map es.
Proof.
  induction es as [|[n x] es IH]; cbn [app dir_map foldr].
  - induction m as [|m IHm]; [done|]. cbn [replicate foldr fst]. by rewrite decide_True.
  - fold (dir_map (es ++ replicate m (0, []))) (dir_map es). by rewrite IH.
Qed.

Lemma dir_map_lookup es j n nm : NoDup (snd <$> es) -> es !! j = Some (n, nm) -> n <> 0 -> dir_map es !! nm = Some n.
Proof.
  intros Hnd Hj Hn. rewrite dir_map_find. destruct (list_find (is_named nm) es) as [[j' [n' nm']]|] eqn:E.
  - apply list_find_Some in E as (E & [Hn' Hnm'] & _). cbn in *. subst nm'. f_equal.
    assert (j' = j) as ->; [|congruence]. eapply NoDup_lookup; [exact Hnd|by rewrite list_lookup_fmap, E|by rewrite list_lookup_fmap, Hj].
  - apply (proj1 (list_find_None _ _)) in E. rewrite list.Forall_forall in E. exfalso. apply (E (n, nm)); [by eapply list_elem_of_lookup_2|done].
Qed.

Lemma dir_map_value es nm n : dir_map es !! nm = Some n -> n <> 0 /\ n ∈ fst <$> es.
Proof.
  rewrite dir_map_find. destruct (list_find (is_named nm) es) as [[j [n' nm']]|] eqn:E; [|done]. intros [= <-].
  apply list_find_Some in E as (E & [Hn _] & _). split; [done|]. apply list_elem_of_fmap. eexists. split; [|by eapply list_elem_of_lookup_2]. done.
Qed.

(** ** The image as a file system *)
Definition live_inodes (files : list infile) : gset Z := list_to_set (seqZ 1 (Z.of_nat (length files) + 1)).

Lemma elem_of_live files n : n ∈ live_inodes files <-> 1 <= n < Z.of_nat (length files) + 2.
Proof. unfold live_inodes. rewrite elem_of_list_to_set, elem_of_seqZ. lia. Qed.

Section Image.
Context (files : list infile) (V V' : gmap Z block).
Hypothesis (I : fs_image files V) (A : agree V V') (Hn : (length files <= 198)%nat).
Hypothesis (Hblocks : (Z.of_nat (length files) + 2) mod 32 <> 0).

Lemma live_holds n : n ∈ live_inodes files -> exists type size data, holds V' n type size data /\ (n = ROOTINO /\ type = T_DIR \/ n <> ROOTINO /\ type = T_FILE).
Proof using I A Hn.
  intros H%elem_of_live. destruct (decide (n = ROOTINO)) as [->|Hne].
  - eexists _, _, _. split; [eapply agree_holds; [exact A|unfold ROOTINO; lia|apply I]|]. by left.
  - unfold ROOTINO in Hne. destruct (lookup_lt_is_Some_2 files (Z.to_nat (n - 2))) as [f Hf]; [lia|]. pose proof (fi_files _ _ I _ _ Hf) as H1.
    replace (Z.of_nat (Z.to_nat (n - 2)) + 2) with n in H1 by lia. eexists _, _, _. split; [eapply agree_holds; [exact A|lia|exact H1]|]. by right.
Qed.

Lemma image_root : exists m, dirents V' (disk_inode V' ROOTINO no_inode) = root_entries files ++ replicate m (0, []).
Proof using I A Hn. apply root_dirents; [done|]. eapply agree_holds; [exact A|unfold ROOTINO; lia|apply I]. Qed.

Lemma image_ddir : ddir sb V' ROOTINO = dir_map (root_entries files).
Proof using I A Hn. destruct image_root as [m Hm]. unfold ddir. change (dinode sb V' ROOTINO no_inode) with (disk_inode V' ROOTINO no_inode). by rewrite Hm, dir_map_free. Qed.

Lemma image_tree : fs_tree 2 nlog sb FSSIZE V' (live_inodes files).
Proof using I A Hn Hblocks.
  assert (forall n, n ∈ live_inodes files -> dtype sb V' n = T_DIR -> n = ROOTINO) as Hdir.
  { intros n HL Ht. destruct (live_holds n HL) as (ty & sz & data & H & [[-> _]|[_ ->]]); [done|].
    assert (dtype sb V' n = T_FILE) as Ht2 by exact (ho_type _ _ _ _ _ H no_inode). by rewrite Ht in Ht2. }
  split.
  - intros n HL. pose proof (proj1 (elem_of_live _ _) HL). change (sb_ninodes sb) with 200. split; [lia|]. pose proof (iblock_range n ltac:(lia)). change FSSIZE with 1000. lia.
  - intros n HL. destruct (live_holds n HL) as (ty & sz & data & H & Hty). intros H0. assert (ty = 0) as -> by (rewrite <- (ho_type _ _ _ _ _ H no_inode); exact H0).
    by destruct Hty as [[_ ?]|[_ ?]].
  - intros n HL. destruct (live_holds n HL) as (ty & sz & data & H & _). intros H0. pose proof (ho_nlink _ _ _ _ _ H no_inode) as H1. change (disk_inode V' n no_inode) with (dinode sb V' n no_inode) in H1. lia.
  - intros n ip0 HL Hd. destruct (live_holds n HL) as (ty & sz & data & H & _). by apply (ho_ok _ _ _ _ _ H).
  - intros n HL Ht. rewrite (Hdir n HL Ht). assert (holds V' ROOTINO T_DIR (fixed_size (Z.of_nat (length (root_dir files)))) (root_dir files)) as H.
    { eapply agree_holds; [exact A|unfold ROOTINO; lia|apply I]. }
    change (dinode sb V' ROOTINO no_inode) with (disk_inode V' ROOTINO no_inode). rewrite root_dir_length in H. split.
    + apply (ho_type _ _ _ _ _ H).
    + rewrite (ho_size _ _ _ _ _ H). unfold fixed_size. change (MAXFILE * BSIZE) with 71680. change BSIZE with 512.
      pose proof (Z.div_mod (Z.of_nat (32 + 16 * length files)) 512 ltac:(lia)). pose proof (Z.mod_pos_bound (Z.of_nat (32 + 16 * length files)) 512 ltac:(lia)). lia.
    + rewrite (ho_size _ _ _ _ _ H). unfold fixed_size. change BSIZE with (32 * 16). rewrite Z.mul_assoc. apply Z_mod_mult.
    + apply (holds_no_holes _ _ _ _ _ no_inode H). rewrite root_dir_length, fixed_size_hole by (change (MAXFILE * BSIZE) with 71680; lia).
      replace (Z.of_nat (32 + 16 * length files)) with (16 * (Z.of_nat (length files) + 2)) by lia. change BSIZE with (16 * 32). rewrite Z.mul_mod_distr_l by lia. lia.
  - intros n nm m HL Ht. rewrite (Hdir n HL Ht), image_ddir. intros [Hm0 Hm]%dir_map_value. apply elem_of_live.
    unfold root_entries in Hm. cbn [fmap list_fmap fst] in Hm. rewrite !elem_of_cons in Hm. destruct Hm as [->|[->|Hm]]; [unfold ROOTINO; lia..|].
    apply list_elem_of_fmap in Hm as ([n' x] & -> & Hx). apply elem_of_lookup_imap in Hx as (i & f & [= -> ->] & Hi%lookup_lt_Some). cbn. lia.
Qed.

(** Every file is found by its name. *)
Lemma image_lookup i f : NoDup (snd <$> root_entries files) -> files !! i = Some f ->
  ddir sb V' ROOTINO !! dir_name (strip (f_name f)) = Some (Z.of_nat i + 2).
Proof using I A Hn.
  intros Hnd Hf. rewrite image_ddir. apply (dir_map_lookup _ (S (S i))); [done| |lia]. change (root_entries files !! S (S i)) with (imap (fun i f => (Z.of_nat i + 2, dir_name (strip (f_name f)))) files !! i). by rewrite list_lookup_imap, Hf.
Qed.
End Image.

(** ** Booting from the image *)

(** A disk of FSSIZE blocks with the image on it. *)
Definition image_disk (V : gmap Z block) : gmap Z block := filter (fun kv => 0 <= fst kv < FSSIZE) V.

Lemma image_disk_lookup V n : image_disk V !! n = if decide (0 <= n < FSSIZE) then V !! n else None.
Proof.
  unfold image_disk. destruct (decide (0 <= n < FSSIZE)) as [H|H].
  - destruct (V !! n) as [d|] eqn:E; [by apply map_lookup_filter_Some|]. apply map_lookup_filter_None. by left.
  - apply map_lookup_filter_None. right. intros d _ Hd. by apply H.
Qed.

Lemma image_blk V n : 0 <= n < FSSIZE -> blk (image_disk V) n = blk V n.
Proof. intros H. unfold blk. by rewrite image_disk_lookup, decide_True. Qed.

Lemma front_header : header_n (front 2) = 0.
Proof. by vm_compute. Qed.

Lemma image_log files V : fs_image files V -> log_disk 2 nlog FSSIZE (image_disk V) /\ header_n (blk (image_disk V) 2) = 0 /\
  sb_log 2 nlog (image_disk V) /\ decode_sb (blk (image_disk V) 1) = sb.
Proof.
  intros I. assert (0 <= 2 < FSSIZE /\ 0 <= 1 < FSSIZE) as [R2 R1] by (change FSSIZE with 1000; lia).
  assert (header_n (blk (image_disk V) 2) = 0) as H0 by (rewrite image_blk, (blk_Some _ _ _ (fi_front _ _ I 2 ltac:(lia))) by done; apply front_header).
  assert (decode_sb (blk (image_disk V) 1) = sb) as H1 by (rewrite image_blk, (blk_Some _ _ _ (fi_front _ _ I 1 ltac:(lia))) by done; apply front_decodes).
  split; [|split; [done|split; [|done]]].
  - split.
    + intros n Hn. rewrite image_disk_lookup, decide_True by done. by apply (fi_blocks _ _ I).
    + intros n d. rewrite image_disk_lookup. case_decide as Hn; [|done]. intros Hd. destruct (fi_blocks _ _ I n Hn) as [_ Hb]. by rewrite (blk_Some _ _ _ Hd) in Hb.
    + rewrite H0. change LOGSIZE with 30. lia.
    + rewrite header_blocks_nil by done. split; try done; try (change nlog with 30; change FSSIZE with 1000; cbn; lia).
      * change NBUF with 30%nat. cbn. lia.
      * constructor.
      * intros h Hh. by apply not_elem_of_nil in Hh.
  - unfold sb_log. rewrite H1. by vm_compute.
Qed.

(** [binit] in [main]; [iinit] and [initlog] in the first [forkret]; then a
    system call that opens the file at [path] and reads [n] bytes of it. *)
Section Boot.
Context {Dev : BlockDev} {Sw : DevSw}.

Definition boot_kernel : K unit :=
  do binit;
  do iinit ROOTDEV;
  initlog ROOTDEV.

Definition read_path (path : list Z) (n : Z) : K (option (list Z)) :=
  do begin_op;
  let! r := namei path in
  match r with
  | None => do end_op; ret None
  | Some i =>
      do ilock i;
      let! q := readi i 0 n in
      do iunlockput i;
      do end_op;
      ret (Some (snd q))
  end.

Lemma cache_rep_sb v s c : cache_rep s c -> cache_rep (set_sb v s) c.
Proof. intros [A B C D E]. by split. Qed.

(** The kernel after it has booted. *)
Lemma boot_kernel_spec files V s : fs_image files V -> boot_state s (image_disk V) FSSIZE ->
  wp boot_kernel s (fun _ s' => exists c, log_rep 2 nlog s' c [] /\ c_busy c = ∅ /\ c_size c = FSSIZE /\ agree V (c_view c) /\ quiet sb s' c /\
    l_outstanding (klog s') = 0 /\ l_committing (klog s') = false /\ icache s' = icache s).
Proof.
  intros I Hb. destruct (image_log files V I) as (HD & H0 & Hsb & Hdec). unfold boot_kernel. apply wp_bind.
  eapply wp_mono; [apply (boot_cache s (image_disk V) FSSIZE); [done|apply HD..]|]. intros ? s1 (ws & Hws & R1 & Hs1). apply wp_bind. unfold iinit, load_sb. apply wp_bind.
  eapply wp_mono; [apply (readsb_spec _ _ R1); cbn; [done|done|change FSSIZE with 1000; lia]|]. intros v s2 (-> & R2 & F2). cbn [clean_cache c_view]. rewrite Hdec. apply wp_modify.
  assert (klog s2 = klog s) as Hk2 by (rewrite (bio_frame_klog _ _ F2), Hs1; done).
  assert (icache s2 = icache s) as Hi2. { destruct F2 as (t & dk & P & _ & ->). by rewrite Hs1. }
  eapply wp_mono; [apply (initlog_spec (set_sb sb s2) 2 nlog FSSIZE (image_disk V) (image_disk V) ws); [by apply cache_rep_sb|cbn; rewrite Hk2; apply Hb|done|by apply recovers_empty]|].
  intros ? s3 (c & L & B3 & S3 & Vd & D3 & _ & O3 & C3 & F3). exists c. destruct (log_frame_fields _ _ F3) as (Hsb3 & Hi3 & _). cbn in Hsb3, Hi3, O3, C3. rewrite Hk2 in O3, C3.
  destruct (bt_outstanding _ _ _ Hb) as [Ho Hc]. rewrite Ho in O3. rewrite Hc in C3. rewrite Hi2 in Hi3. do 3 (split; [done|]). split; [|split; [|done]].
  - intros n Hn. rewrite Vd. assert (~ in_log 2 nlog n) as Hin by (unfold in_log; change nlog with 30; lia). specialize (D3 n ltac:(lia) Hin).
    rewrite (cr_disk _ _ (lr_cache _ _ _ _ _ L)) in D3. cbn in D3. rewrite D3, image_disk_lookup, decide_True by lia. done.
  - split; [apply L|done| |done]. pose proof (lr_dirty _ _ _ _ _ L) as Hd. rewrite c_inuse_clean, Hd by done. change (list_to_set [] : gset Z) with (∅ : gset Z). rewrite size_empty. change NBUF with 30%nat. lia.
Qed.

Lemma log_rep_moves s c bs s' : log_rep 2 nlog s c bs -> moves s s' -> cache_rep s' c -> log_rep 2 nlog s' c bs.
Proof. intros [L1 L2 L3 L4 L5 L6 L7] [ic (t & dk & P & _ & ->)] Hc. by split. Qed.

(** A path of one element. *)
Lemma root_path nm : nm <> [] -> (slash ∉ nm) -> path_elems (slash :: nm) = [nm].
Proof.
  intros Hne Hs. unfold path_elems. cbn. assert (forall l cur, (slash ∉ l) -> elems cur l = match reverse cur ++ l with [] => [] | w => [w] end) as H.
  { induction l as [|c l IH]; intros cur Hl; cbn.
    - rewrite app_nil_r. destruct cur as [|c cur]; [done|]. rewrite reverse_cons. by destruct (reverse cur).
    - apply not_elem_of_cons in Hl as [Hc Hl]. rewrite (proj2 (Z.eqb_neq _ _)) by done. rewrite IH, reverse_cons, <- app_assoc by done. done. }
  rewrite H by done. cbn. by destruct nm.
Qed.

(** What reading the file of a directory entry returns. *)
Lemma file_take V n0 type size data ip0 n : holds V n0 type size data -> size = Z.of_nat (length data) -> size <= MAXFILE * BSIZE -> 0 <= n < 2 ^ 31 ->
  snd (read_result V (disk_inode V n0 ip0) 0 n) = take (Z.to_nat n) data.
Proof.
  intros H Hs Hm Hn. change (MAXFILE * BSIZE) with 71680 in Hm. unfold read_result. rewrite (ho_size _ _ _ _ _ H). rewrite (proj2 (Z.ltb_ge _ _)), (proj2 (Z.leb_gt _ _)) by lia.
  cbn [orb snd]. rewrite Z.sub_0_r. apply list_eq. intros j. unfold file_bytes. rewrite list_lookup_fmap. destruct (decide (Z.of_nat j < Z.min n size)) as [Hj|Hj].
  - rewrite lookup_seqZ_lt, lookup_take_lt by lia. destruct (lookup_lt_is_Some_2 data j) as [b Hb]; [lia|]. rewrite Hb. cbn. f_equal.
    rewrite (ho_bytes _ _ _ _ _ H) by (change (MAXFILE * BSIZE) with 71680; lia). unfold byte_at. replace (Z.to_nat _) with j by lia. by rewrite Hb.
  - rewrite lookup_seqZ_ge by lia. rewrite lookup_ge_None_2; [done|]. rewrite length_take. lia.
Qed.

Lemma begin_op_boot s c : log_rep 2 nlog s c [] -> l_outstanding (klog s) = 0 -> l_committing (klog s) = false ->
  runs begin_op s tt (set_klog (set_l_outstanding 1 (klog s)) s).
Proof.
  intros L Ho Hc. pose proof (begin_op_now s) as H. rewrite Ho in H. apply H; [|done|].
  - rewrite (cr_held _ _ (lr_cache _ _ _ _ _ L)). set_solver.
  - rewrite (lv_n _ _ _ (lr_vars _ _ _ _ _ L)). change LOGSIZE with 30. change MAXOPBLOCKS with 10. cbn. lia.
Qed.

Lemma begun_rep s c : log_rep 2 nlog s c [] -> quiet sb s c -> let s1 := set_klog (set_l_outstanding 1 (klog s)) s in
  log_rep 2 nlog s1 c [] /\ quiet sb s1 c.
Proof.
  intros L Q s1. assert (log_rep 2 nlog (set_ptable (ptable s) s1) c []) as L1. { apply log_rep_klog; [done|]. unfold same_log. by destruct (klog s). }
  destruct L1 as [A1 A2 A3 A4 A5 A6 A7]. assert (cache_rep s1 c) as Hc by (by destruct A1). split; [by split|]. destruct Q as [Q1 Q2 Q3 Q4]. by split.
Qed.

Lemma end_op_read s c : log_rep 2 nlog s c [] -> c_busy c = ∅ -> l_outstanding (klog s) = 1 -> l_committing (klog s) = false -> wp end_op s (fun _ _ => True).
Proof. intros L Hb Ho Hc. eapply wp_mono; [by apply (end_op_last 2 nlog s c [] L)|]. done. Qed.

(** The file of that name among those copied to the image. *)
Definition find_file (nm : list Z) (files : list infile) : option (nat * infile) :=
  list_find (fun f => dir_name (strip (f_name f)) = take DIRSIZ nm) files.

(** Where the path leads on the image. *)
Lemma image_walk files V V' nm : fs_image files V -> agree V V' -> (length files <= 198)%nat -> NoDup (snd <$> root_entries files) ->
  walk sb V' false ROOTINO [nm] = match find_file nm files with
    | Some (i, _) => Some (Z.of_nat i + 2)
    | None => if decide (take DIRSIZ nm = [46] \/ take DIRSIZ nm = [46; 46]) then Some ROOTINO else None
    end.
Proof.
  intros I A Hn Hnd. cbn [walk andb]. assert (dtype sb V' ROOTINO = T_DIR) as Ht.
  { exact (ho_type _ _ _ _ _ (agree_holds V V' ROOTINO _ _ _ A ltac:(unfold ROOTINO; lia) (fi_root _ _ I)) no_inode). }
  rewrite Ht. change (negb (T_DIR =? T_DIR)) with false. cbv iota. unfold find_file. destruct (list_find _ files) as [[i f]|] eqn:E.
  - apply list_find_Some in E as (Hf & <- & _). by rewrite (image_lookup files V V' I A Hn i f Hnd Hf).
  - rewrite (image_ddir files V V' I A Hn). apply (proj1 (list_find_None _ _)) in E. rewrite list.Forall_forall in E.
    destruct (decide (take DIRSIZ nm = [46] \/ take DIRSIZ nm = [46; 46])) as [[Hd|Hd]|Hd].
    + rewrite Hd. by rewrite (dir_map_lookup _ 0 ROOTINO).
    + rewrite Hd. by rewrite (dir_map_lookup _ 1 ROOTINO).
    + destruct (dir_map (root_entries files) !! take DIRSIZ nm) as [m|] eqn:Em; [|done]. rewrite dir_map_find in Em.
      destruct (list_find _ (root_entries files)) as [[j [n x]]|] eqn:Ej; [|done]. apply list_find_Some in Ej as (Ej & [_ Hx] & _). cbn in Hx. subst x. exfalso.
      destruct j as [|[|j]]; [injection Ej as _ Ex; apply Hd; left; symmetry; exact Ex|injection Ej as _ Ex; apply Hd; right; symmetry; exact Ex|].
      change (root_entries files !! S (S j)) with (imap (fun i f => (Z.of_nat i + 2, dir_name (strip (f_name f)))) files !! j) in Ej.
      rewrite list_lookup_imap in Ej. destruct (files !! j) as [f|] eqn:Hf; [|done]. injection Ej as _ Hx. apply (E f); [by eapply list_elem_of_lookup_2|done].
Qed.

Lemma zero_refs ic : Forall (fun x => i_ref x = 0) ic -> (2 <= length ic)%nat -> two_free (refs ic) /\ forall V, icache_ok sb V ic.
Proof.
  intros H Hl. split; [split|].
  - unfold refs. apply Forall_fmap. eapply list.Forall_impl; [exact H|]. intros x Hx. change (0 <= i_ref x). cbn in Hx. lia.
  - exists 0%nat, 1%nat. split; [done|]. unfold refs. rewrite !list_lookup_fmap. destruct ic as [|x [|y ic]]; cbn in Hl; try lia. cbn.
    apply list.Forall_cons in H as [-> H]. apply list.Forall_cons in H as [-> H]. done.
  - intros V. eapply list.Forall_impl; [exact H|]. intros x Hx Hr. cbn in Hx. lia.
Qed.

(** Opening and reading a file of the image, with the kernel up. *)
Lemma read_path_spec files V s c nm n : Forall valid_file files -> (length files <= 198)%nat -> (Z.of_nat (length files) + 2) mod 32 <> 0 -> NoDup (snd <$> root_entries files) ->
  fs_image files V -> log_rep 2 nlog s c [] -> c_busy c = ∅ -> c_size c = FSSIZE -> agree V (c_view c) -> quiet sb s c -> l_outstanding (klog s) = 0 -> l_committing (klog s) = false ->
  Forall (fun x => i_ref x = 0) (icache s) -> (2 <= length (icache s))%nat -> Forall path_char nm -> nm <> [] -> (slash ∉ nm) -> 0 <= n < 2 ^ 31 ->
  take DIRSIZ nm <> [46] -> take DIRSIZ nm <> [46; 46] ->
  wp (read_path (slash :: nm) n) s (fun r s' => r = (fun r => take (Z.to_nat n) (contents_of (snd r))) <$> find_file nm files).
Proof.
  intros Hv Hn Hb Hnd I L B S A Q Ho Hc Hz Hl Hp Hne Hs Hnn Hd1 Hd2. destruct (zero_refs _ Hz Hl) as [Hfree Hok]. specialize (Hok (c_view c)).
  pose proof (image_tree files V (c_view c) I A Hn Hb) as T. rewrite <- S in T. unfold read_path. eapply wp_bind_runs; [by eapply begin_op_boot|]. destruct (begun_rep s c L Q) as [L1 Q1].
  set (s1 := set_klog _ s) in *. assert (ROOTINO ∈ live_inodes files) as HL by (apply elem_of_live; unfold ROOTINO; lia).
  apply wp_bind. unfold namei. apply wp_bind. eapply wp_mono; [apply (namex_spec 2 nlog sb s1 c (live_inodes files) false (slash :: nm) (replicate DIRSIZ 0) ROOTINO); try done|].
  { apply list.Forall_cons. split; [unfold path_char, slash; lia|done]. } { apply Forall_replicate. unfold is_byte. lia. }
  intros [r name] s2 [M2 H2]. apply wp_ret. rewrite root_path, (image_walk files V _ nm I A Hn Hnd) in H2 by done.
  assert (forall s', moves s1 s' -> cache_rep s' c -> forall X (x : X) (P : X -> Prop), P x -> wp (do end_op; ret x) s' (fun r _ => P r)) as Hend.
  { intros s' M' Hc' X x P HP. apply wp_bind. eapply wp_mono; [apply (end_op_read s' c); [by eapply log_rep_moves|done|..]|intros ? ? _; by apply wp_ret];
      destruct M' as [ic (t & dk & Pt & _ & ->)]; done. }
  destruct (find_file nm files) as [[i f]|] eqn:Ef; cbn [fmap option_fmap option_map snd] in *.
  2: { rewrite decide_False in H2 by tauto. destruct H2 as [Hr [Q2 _ _]]. cbn in Hr. subst r. apply (Hend s2 M2 (qu_cache _ _ _ Q2) _ None (fun r => r = None)). done. }
  destruct H2 as (j & Hr & Hw & _). cbn in Hr. subst r. apply list_find_Some in Ef as (Hf & _ & _). pose proof (lookup_lt_Some _ _ _ Hf) as Hi.
  assert (Z.of_nat i + 2 ∈ live_inodes files) as HLi by (apply elem_of_live; lia).
  pose proof (agree_holds V (c_view c) (Z.of_nat i + 2) _ _ _ A ltac:(lia) (fi_files _ _ I _ _ Hf)) as Hh. pose proof (proj1 (Forall_lookup _ _) Hv _ _ Hf) as Hvf.
  pose proof (vf_size _ Hvf) as Hsz. apply wp_bind. eapply wp_mono; [by apply (walking_ilock 2 nlog sb (refs (icache s1)) s2 c (live_inodes files) j)|]. intros [] s3 (y & M3 & Hlk & Hr3).
  pose proof (lk_saved _ _ _ _ _ _ Hlk) as Hy. change (dinode sb) with disk_inode in Hy.
  apply wp_bind. eapply wp_mono; [apply (readi_result 2 nlog sb s3 c j y); try done|].
  - by eapply locked_readable.
  - rewrite <- Hy. by apply (holds_no_holes _ _ _ _ _ y Hh).
  - rewrite <- Hy, (ho_type _ _ _ _ _ Hh). done.
  - rewrite <- Hy, (ho_size _ _ _ _ _ Hh). lia.
  - intros q s4 (-> & H4 & F4). apply wp_bind. pose proof (locked_bio _ _ _ _ _ _ _ Hlk (rd_cache _ _ _ _ _ _ _ H4) F4) as Hl4.
    eapply wp_mono; [by eapply (locked_unlockput 2 nlog sb _ s4 c (live_inodes files) j)|]. intros [] s5 (M5 & [Q5 _ _] & _).
    apply (Hend s5); [do 3 (etrans; [eassumption || (by apply moves_bio)|]); done|apply Q5|]. rewrite <- Hy. f_equal. by eapply file_take.
Qed.

(** C2: from the files on the host to a read on the booted kernel: for files that
    fit, with distinct names and a root directory without a hole, a kernel that
    boots from the image mkfs writes and opens [/nm] reads the contents of the
    file of that name, or finds that there is none. *)
Theorem mkfs_boot_read files st s nm n : Forall valid_file files -> (length files <= 198)%nat -> blocks_needed files <= FSSIZE ->
  (Z.of_nat (length files) + 2) mod 32 <> 0 -> NoDup (snd <$> root_entries files) -> mkfs files = Some st -> boot_state s (image_disk (m_img st)) FSSIZE ->
  Forall (fun x => i_ref x = 0) (icache s) -> (2 <= length (icache s))%nat ->
  Forall path_char nm -> nm <> [] -> (slash ∉ nm) -> take DIRSIZ nm <> [46] -> take DIRSIZ nm <> [46; 46] -> 0 <= n < 2 ^ 31 ->
  wp (do boot_kernel; read_path (slash :: nm) n) s (fun r s' => r = (fun r => take (Z.to_nat n) (contents_of (snd r))) <$> find_file nm files).
Proof.
  intros Hv Hn Hb Hm Hnd Hst Hboot Hz Hl Hp Hne Hs Hd1 Hd2 Hnn. destruct (mkfs_image files Hv Hn Hb) as (st' & E & I).
  assert (st' = st) as -> by congruence. apply wp_bind. eapply wp_mono; [by eapply boot_kernel_spec|].
  intros [] s1 (c & L & B & S & A & Q & Ho & Hc & Hic). clear E Hst Hboot. rewrite <- Hic in Hz, Hl.
  by eapply (read_path_spec files (m_img st) s1 c nm n).
Qed.
End Boot.

(** ** A kernel on a small image *)
Lemma ex_valid : Forall valid_file [ex_file] /\ blocks_needed [ex_file] <= FSSIZE /\ NoDup (snd <$> root_entries [ex_file]).
Proof.
  split; [|split].
  - apply list.Forall_cons. split; [|done]. split; [by eexists|by vm_compute; set_solver|repeat constructor; by vm_compute|repeat constructor; by vm_compute|by vm_compute].
  - by vm_compute.
  - apply (bool_decide_unpack _). by vm_compute.
Qed.

Definition free_inode : inode := mkInode 0 0 0 false false 0 0 0 0 0 (replicate 13 0).

#[local] Existing Instance console_devsw.

Definition ex_boot (V : gmap Z block) : kstate := set_icache (replicate 50 free_inode) (reset_state (image_disk V) FSSIZE [] 0).

Lemma ex_boot_state V : boot_state (ex_boot V) (image_disk V) FSSIZE /\ Forall (fun x => i_ref x = 0) (icache (ex_boot V)) /\ (2 <= length (icache (ex_boot V)))%nat.
Proof.
  split; [|split; [by apply Forall_replicate|cbn; lia]]. destruct (reset_boot (image_disk V) FSSIZE [] 0) as [A1 A2 A3 A4 A5 A6]. by split.
Qed.

Lemma mkfs_boot_read_witness : exists st s, mkfs [ex_file] = Some st /\
  wp (do boot_kernel; read_path (slash :: [99; 97; 116]) 2) s (fun r s' => r = Some [7; 8]).
Proof.
  destruct ex_valid as (Hv & Hb & Hnd). destruct (mkfs_image [ex_file] Hv ltac:(cbn; lia) Hb) as (st & E & _). destruct (ex_boot_state (m_img st)) as (B1 & B2 & B3).
  exists st, (ex_boot (m_img st)). split; [exact E|].
  eapply wp_mono; [apply (mkfs_boot_read [ex_file] st (ex_boot (m_img st)) [99; 97; 116] 2 Hv ltac:(cbn; lia) Hb ltac:(by vm_compute) Hnd E B1 B2 B3)|].
  - repeat constructor; by vm_compute.
  - done.
  - apply (bool_decide_unpack _). by vm_compute.
  - by vm_compute.
  - by vm_compute.
  - lia.
  - intros r s' ->. by vm_compute.
Defined.

Lemma namei_resolves_witness : exists s, wp (namei (slash :: [99; 97; 116])) s (fun r s' => exists i x, r = Some i /\ icache s' !! i = Some x /\ refers 1 2 x).
Proof.
  destruct ex_valid as (Hv & Hb & Hnd). destruct (mkfs_image [ex_file] Hv ltac:(cbn; lia) Hb) as (st & _ & I). set (V := m_img st) in *. clearbody V. clear st.
  destruct (ex_boot_state V) as (B1 & B2 & B3). destruct (boot_kernel_spec _ _ _ I B1) as ([] & s1 & _ & c & L & B & S & A & Q & _ & _ & Hic).
  rewrite <- Hic in B2, B3. destruct (zero_refs _ B2 B3) as [Hfree Hok]. pose proof (image_tree [ex_file] V (c_view c) I A ltac:(cbn; lia) ltac:(by vm_compute)) as T. rewrite <- S in T.
  exists s1. eapply wp_mono; [apply (namei_resolves 2 nlog sb s1 c (live_inodes [ex_file]) (slash :: [99; 97; 116]) ROOTINO Q (Hok _) Hfree T)|].
  - apply elem_of_live. unfold ROOTINO. cbn. lia.
  - done.
  - repeat constructor; by vm_compute.
  - intros r s' (_ & _ & _ & H). rewrite root_path, (image_walk [ex_file] V _ _ I A ltac:(cbn; lia) Hnd) in H by (done || (apply (bool_decide_unpack _); by vm_compute)).
    change (find_file [99; 97; 116] [ex_file]) with (Some (0%nat, ex_file)) in H. cbn in H. destruct H as (i & x & -> & Hx & Hr & _). by exists i, x.
Defined.

(** An inode read from a block of bytes has fields in their ranges. *)
Lemma load_ranges d off ip0 : Forall is_byte d -> inode_ranges (load_dinode d off ip0).
Proof.
  intros Hd. assert (forall z, - 2 ^ 15 <= i16 z < 2 ^ 15) as H16.
  { intros z. unfold i16. pose proof (Z.mod_pos_bound z (2 ^ 16) ltac:(lia)). destruct (Z.leb_spec (2 ^ 15) (z mod 2 ^ 16)); lia. }
  split; cbn; try apply H16; [by apply get32_range|done|]. repeat (constructor; [by apply get32_range|]). done.
Qed.

Lemma agree_bitmap V V' : agree V V' -> bitmap_ok sb 2 nlog FSSIZE V -> bitmap_ok sb 2 nlog FSSIZE V'.
Proof. intros A [H1 H2 H3 H4]. split; try done. intros b Hb Hu. apply H4; [done|]. by apply (agree_unused V V'). Qed.

(** The root directory of the image, locked in a transaction. *)
Lemma ex_root : exists s c ip, writable 2 nlog sb 1 s c [] 0 ip /\ directory (c_view c) ip /\ i_ref ip = 1 /\ i_dev ip = 1 /\
  icache s = [ip; free_inode] /\ exists m, dirents (c_view c) ip = root_entries [ex_file] ++ replicate m (0, []).
Proof.
  destruct ex_valid as (Hv & Hb & Hnd). destruct (mkfs_image [ex_file] Hv ltac:(cbn; lia) Hb) as (st & _ & I). set (V := m_img st) in *. clearbody V. clear st.
  destruct (image_log _ _ I) as (HD & H0 & Hsb & Hdec). set (ip := disk_inode V ROOTINO (mkInode 1 ROOTINO 1 true true 0 0 0 0 0 [])).
  destruct (fs_begun (image_disk V) FSSIZE 2 nlog sb [ip; free_inode]) as (s & c & T & Hbs & Hs & Hk & Hi & _ & _ & _ & Hview); [done|done|done|by vm_compute|].
  assert (agree V (c_view c)) as A.
  { intros n Hn. rewrite Hview, image_disk_lookup, decide_True; [done|lia|change FSSIZE with 1000 in *; lia|unfold in_log; change nlog with 30; lia]. }
  pose proof (agree_holds _ _ ROOTINO _ _ _ A ltac:(unfold ROOTINO; lia) (fi_root _ _ I)) as Hh.
  assert (disk_inode (c_view c) ROOTINO (mkInode 1 ROOTINO 1 true true 0 0 0 0 0 []) = ip) as Eip by (apply agree_inode; [done|unfold ROOTINO; lia]).
  pose proof (image_tree [ex_file] V (c_view c) I A ltac:(cbn; lia) ltac:(by vm_compute)) as Tr.
  assert (ROOTINO ∈ live_inodes [ex_file]) as HL by (apply elem_of_live; unfold ROOTINO; cbn; lia).
  assert (directory (c_view c) ip) as D. { pose proof (ft_dir _ _ _ _ _ _ Tr ROOTINO HL (ho_type _ _ _ _ _ Hh no_inode)) as [D1 D2 D3 D4]. rewrite <- Eip. by split. }
  exists s, c, ip. split; [|split; [done|split; [done|split; [done|split; [done|]]]]].
  - split.
    + split; [|done|by rewrite Hi|].
      * split; [exact T|exact Hk|rewrite Hs; eapply agree_bitmap; [exact A|apply I]|rewrite Hbs; intros n [? Hx]; by rewrite lookup_empty in Hx|
          change nlog with 30; cbn; lia|rewrite Hbs, map_size_empty; change NBUF with 30%nat; cbn; lia].
      * rewrite Hs, <- Eip. by apply (ft_inode _ _ _ _ _ _ Tr ROOTINO).
    + exists [998; 999]. split; [apply (bool_decide_unpack _); by vm_compute|]. split; [done|].
      assert (forall b, 998 <= b < 1000 -> 0 <= b < sb_size sb /\ is_unused sb (c_view c) b) as Hun.
      { intros b Hbb. change (sb_size sb) with 1000. split; [lia|]. apply (agree_unused V); [done|change FSSIZE with 1000; lia|]. apply (fi_unused _ _ I); [change FSSIZE with 1000; lia|].
        change (blocks_needed [ex_file]) with 61. lia. }
      repeat (apply list.Forall_cons; split; [apply Hun; lia|]). done.
    + apply load_ranges. destruct (fi_blocks _ _ I 32) as [_ [_ Hbb]]; [change FSSIZE with 1000; lia|]. exact Hbb.
    + change (sb_ninodes sb) with 200. cbn. unfold ROOTINO. lia.
    + rewrite (di_type _ _ D). done.
    + apply D.
    + apply D.
    + unfold inode_saved. change (i_inum ip) with ROOTINO. rewrite <- Eip. done.
  - rewrite <- Eip. by apply (root_dirents (c_view c) [ex_file]); [cbn; lia|].
Qed.

Lemma dirlink_lookup_witness : exists s, wp (let! r := dirlink 0 [97] 7 in let! q := dirlookup 0 [97; 0; 5] in ret (r, q)) s (fun p s' => fst p = 0 /\
  exists i x, fst <$> snd p = Some i /\ icache s' !! i = Some x /\ refers 1 7 x).
Proof.
  destruct ex_root as (s & c & ip & Hw & D & Hr & Hd & Hic & m & Hes). exists s.
  assert (dir_map (dirents (c_view c) ip) = dir_map (root_entries [ex_file])) as Hm by (by rewrite Hes, dir_map_free).
  assert (dir_slot (dirents (c_view c) ip) <= 3)%nat as Hsl. { rewrite Hes. destruct m; by vm_compute. }
  eapply wp_mono; [apply (dirlink_lookup 2 nlog sb s c [] 0 ip [97] 7 [97; 0; 5] Hw D)|].
  - lia.
  - rewrite Hic. by apply Exists_cons_tl, Exists_cons_hd.
  - repeat constructor; by vm_compute.
  - repeat constructor; by vm_compute.
  - lia.
  - change (MAXFILE * BSIZE) with 71680. lia.
  - rewrite Hm. by vm_compute.
  - intros p s' (H0 & H & _). split; [done|]. change (dir_name [97; 0; 5]) with (dir_name [97]) in H. rewrite lookup_insert_eq in H. destruct H as (i & off & x & -> & Hx & Hrx).
    rewrite Hd in Hrx. by exists i, x.
Defined.
