(* ===== verification/Tty.v ===== *)
(** * The terminal

    What console.c promises to the processes that use the console: output
    never runs off the screen and goes to the serial line in order; input is
    a queue of finished lines and a line being edited, on which the interrupt
    handler and [consoleread] act as an editor and a reader would. *)

From S2P Require Import Prelude Bytes Cstring Kstate Sync Disk Bio Log Fs Console Readwrite.
Import Str.
Local Open Scope Z_scope.

(** ** Specification *)

(** The cursor is on one of the first 24 rows and the kernel has not panicked. *)
Record console_ok (cn : consst) : Prop := {
  co_crt : length (cn_crt cn) = 2000%nat;
  co_pos : 0 <= cn_pos cn < 1920;
  co_live : cn_panicked cn = false
}.

(** What one [consputc] sends on the serial line. *)
Definition sent (cn : consst) (c : Z) : list Z :=
  if cn_have_uart cn then if c =? BACKSPACE then [8; 32; 8] else [u8 c] else [].

(** The terminal as its users see it. *)
Record tty := mkTty { t_ready : list Z; t_line : list Z }.

Definition kill_key (c : Z) : bool := c =? ctrl 85.
Definition erase_key (c : Z) : bool := (c =? ctrl 72) || (c =? 127).
Definition end_key (c : Z) : bool := (c =? nl) || (c =? ctrl 68).

(** A key: [C('U')] drops the line, backspace its last character, another
    character is added if there is room, and ends the line if it is a newline,
    [C('D')] or the last one that fits. *)
Definition tty_key (t : tty) (c : Z) : tty :=
  let n := length (t_ready t ++ t_line t) in
  if c =? ctrl 80 then t
  else if kill_key c then mkTty (t_ready t) []
  else if erase_key c then mkTty (t_ready t) (removelast (t_line t))
  else if (c =? 0) || (128 <=? n)%nat then t
  else
    let c := if c =? 13 then nl else c in
    let line := t_line t ++ [c] in
    if end_key c || (n =? 127)%nat then mkTty (t_ready t ++ line) [] else mkTty (t_ready t) line.

(** What a read of [n] bytes takes from the finished lines: up to the end of
    a line; [C('D')] is the end of file, left in the queue when bytes before
    it were read.  [None]: it would have to wait. *)
Fixpoint tty_read (first : bool) (n : nat) (ready : list Z) : option (list Z * list Z) :=
  match n, ready with
  | O, _ => Some ([], ready)
  | S _, [] => None
  | S n', c :: ready' =>
      if c =? ctrl 68 then Some ([], if first then ready' else ready)
      else if c =? nl then Some ([c], ready')
      else '(bs, rest) ← tty_read false n' ready'; Some (c :: bs, rest)
  end.

(** The ring buffer: counters modulo 2^32 into [INPUT_BUF] cells. *)
Record tty_rep (t : tty) (inp : inputst) : Prop := {
  tr_len : length (in_buf inp) = 128%nat;
  tr_r : 0 <= in_r inp < 2 ^ 32;
  tr_w : in_w inp = u32 (in_r inp + Z.of_nat (length (t_ready t)));
  tr_e : in_e inp = u32 (in_r inp + Z.of_nat (length (t_ready t ++ t_line t)));
  tr_room : (length (t_ready t ++ t_line t) <= 128)%nat;
  tr_cells : forall k x, (t_ready t ++ t_line t) !! k = Some x ->
    in_buf inp !! Z.to_nat ((in_r inp + Z.of_nat k) mod 128) = Some x;
  tr_line : nl ∉ t_line t
}.

(** ** Output *)
Lemma cga_step_ok crt pos c :
  length crt = 2000%nat -> 0 <= pos < 1920 ->
  exists crt' pos', cga_step crt pos c = Some (crt', pos') /\
    length crt' = 2000%nat /\ 0 <= pos' < 1920.
Proof.
  intros Hl Hp. pose proof (Z.mod_pos_bound pos 80). unfold cga_step.
  assert (exists crt1 pos1, (if c =? nl then (crt, pos + (80 - pos mod 80))
      else if c =? BACKSPACE then (crt, if 0 <? pos then pos - 1 else pos)
      else (crt_store crt pos (Z.lor (Z.land c 255) 1792), pos + 1)) = (crt1, pos1) /\
    length crt1 = 2000%nat /\ 0 <= pos1 <= 1920) as (crt1 & pos1 & -> & Hl1 & Hp1).
  { destruct (c =? nl); [|destruct (c =? BACKSPACE)]; do 2 eexists; (split; [done|]);
      (split; [unfold crt_store; rewrite ?length_insert; done|]).
    - assert (pos = 80 * (pos / 80) + pos mod 80) by (apply Z.div_mod; lia).
      assert (pos / 80 < 24) by (apply Z.div_lt_upper_bound; lia). lia.
    - destruct (Z.ltb_spec 0 pos); lia.
    - lia. }
  rewrite (proj2 (Z.ltb_ge pos1 0)), (proj2 (Z.ltb_ge (25 * 80) pos1)) by lia. cbn [orb].
  unfold crt_store. destruct (Z.leb_spec 24 (pos1 / 80)) as [H24|H24].
  - do 2 eexists. split; [done|]. split.
    + by rewrite length_insert, !splice_length.
    + pose proof (Z.mul_div_le pos1 80 eq_refl). unfold u16. rewrite Z.mod_small; lia.
  - do 2 eexists. split; [done|]. split; [by rewrite length_insert|].
    assert (pos1 <> 1920) by (by intros ->). unfold u16. rewrite Z.mod_small; lia.
Qed.

(** [m] returns and changes nothing but the console, on which it sends
    [bytes]. *)
Definition prints (m : K unit) (s : kstate) (bytes : list Z) : Prop :=
  exists cn, runs m s tt (set_console cn s) /\ console_ok cn /\
    cn_have_uart cn = cn_have_uart (console s) /\ cn_locking cn = cn_locking (console s) /\
    cn_uart cn = cn_uart (console s) ++ bytes.

Lemma consputc_prints c s :
  console_ok (console s) -> prints (consputc c) s (sent (console s) c).
Proof.
  intros [Hl Hp Hv].
  destruct (cga_step_ok (cn_crt (console s)) (cn_pos (console s)) c Hl Hp)
    as (crt & pos & E & Hl' & Hp').
  exists (mkCons crt pos (cn_have_uart (console s)) (cn_uart (console s) ++ sent (console s) c)
    (cn_locking (console s)) (cn_panicked (console s))).
  split; [|by split; [split|]].
  intros e. unfold consputc, cgaputc, uartputc, upd_console, modify, gets, bind. rewrite Hv.
  unfold sent. destruct s as [? ? ? ? ? ? ? ? ? ? ? ? ? ? ? ? cn ? ? ?], cn as [? ? have ? ? ?];
    cbn in *. subst.
  destruct (c =? BACKSPACE), have; cbn; rewrite E; cbn; by rewrite <- ?app_assoc, ?app_nil_r.
Qed.

Lemma prints_bind m1 m2 s b1 b2 :
  prints m1 s b1 ->
  (forall cn, console_ok cn -> cn_have_uart cn = cn_have_uart (console s) ->
     cn_locking cn = cn_locking (console s) -> prints m2 (set_console cn s) b2) ->
  prints (do m1; m2) s (b1 ++ b2).
Proof.
  intros (cn & R & Hok & Hh & Hl & Hu) H.
  destruct (H cn Hok Hh Hl) as (cn' & R' & Hok' & Hh' & Hl' & Hu'). cbn in *.
  exists cn'. split; [eapply runs_bind; [exact R|]; by destruct s|].
  rewrite Hh', Hl', Hu', Hu, app_assoc. done.
Qed.

Lemma prints_ret s : console_ok (console s) -> prints (ret tt) s [].
Proof.
  intros H. exists (console s). split; [intros e; by destruct s|]. by rewrite app_nil_r.
Qed.

(** Printing a string keeps the cursor on the screen and sends its
    characters on the serial line in order; it never panics. *)
Lemma cputs_prints cs s :
  console_ok (console s) -> prints (cputs cs) s (cs ≫= sent (console s)).
Proof.
  revert s. induction cs as [|c cs IH]; intros s Hok; cbn [cputs mbind list_bind];
    [by apply prints_ret|].
  apply prints_bind; [by apply consputc_prints|]. intros cn Hcn Hh _.
  replace (cs ≫= sent (console s)) with (cs ≫= sent (console (set_console cn s))); [by apply IH|].
  apply list_bind_ext; [|done]. intros x. unfold sent. cbn. by rewrite Hh.
Qed.

(** The arguments a format takes are there. *)
Fixpoint fmt_ok (fmt : list Z) (args : list parg) : bool :=
  match fmt with
  | [] => true
  | c :: fmt =>
      if c =? 0 then true else
      if negb (c =? 37) then fmt_ok fmt args else
      match fmt with
      | [] => true
      | c :: fmt =>
          if c =? 0 then true else
          if (c =? 100) || (c =? 120) || (c =? 112) then
            match args with AInt _ :: args => fmt_ok fmt args | _ => false end
          else if c =? 115 then
            match args with AStr _ :: args => fmt_ok fmt args | _ => false end
          else fmt_ok fmt args
      end
  end.

(** Prints some bytes. *)
Definition prints_some (m : K unit) (s : kstate) : Prop := exists bytes, prints m s bytes.

Lemma prints_some_bind m1 m2 s :
  prints_some m1 s ->
  (forall cn, console_ok cn -> cn_locking cn = cn_locking (console s) ->
    prints_some m2 (set_console cn s)) ->
  prints_some (do m1; m2) s.
Proof.
  intros (b1 & cn & R & Hok & Hh & Hl & Hu) H.
  destruct (H cn Hok Hl) as (b2 & cn' & R' & Hok' & Hh' & Hl' & Hu'). cbn in *.
  exists (b1 ++ b2), cn'. split; [eapply runs_bind; [exact R|]; by destruct s|].
  rewrite Hh', Hl', Hu', Hu, app_assoc. done.
Qed.

Lemma cputs_some cs s : console_ok (console s) -> prints_some (cputs cs) s.
Proof. intros H. eexists. by apply cputs_prints. Qed.

Lemma consputc_some c s : console_ok (console s) -> prints_some (consputc c) s.
Proof. intros H. eexists. by apply consputc_prints. Qed.

Lemma ret_some s : console_ok (console s) -> prints_some (ret tt) s.
Proof. intros H. eexists. by apply prints_ret. Qed.

Lemma cprintf_loop_some k fmt args s :
  (length fmt <= k)%nat -> fmt_ok fmt args = true -> console_ok (console s) ->
  prints_some (cprintf_loop fmt args) s.
Proof.
  revert fmt args s. induction k as [|k IH]; intros [|c fmt] args s Hk Hf Hok;
    cbn [cprintf_loop fmt_ok length] in *; try (by apply ret_some); try lia.
  destruct (c =? 0); [by apply ret_some|].
  destruct (negb (c =? 37)).
  { apply prints_some_bind; [by apply consputc_some|]. intros. apply IH; [lia|done|done]. }
  destruct fmt as [|c' fmt]; [by apply ret_some|]. cbn [length] in Hk.
  destruct (c' =? 0); [by apply ret_some|].
  assert (forall args s, fmt_ok fmt args = true -> console_ok (console s) ->
    prints_some (cprintf_loop fmt args) s) as IH' by (intros; apply IH; [lia|done|done]).
  unfold printint.
  destruct (c' =? 100), (c' =? 120), (c' =? 112), (c' =? 115); cbn [orb] in *;
    try (destruct args as [|[] args]; try done; apply prints_some_bind;
      [by apply cputs_some|intros; by apply IH']).
  destruct (c' =? 37); repeat (apply prints_some_bind; [by apply consputc_some|intros]); by apply IH'.
Qed.

Lemma cprintf_some fmt args s :
  fmt_ok fmt args = true -> console_ok (console s) -> ConsLock ∉ held s ->
  prints_some (cprintf fmt args) s.
Proof.
  intros Hf Hok Hl. unfold prints_some, prints, cprintf.
  destruct (cn_locking (console s)) eqn:E.
  - destruct (cprintf_loop_some (length fmt) fmt args (set_held (ConsLock :: held s) s))
      as (b & cn & R & Hcn & H1 & H2 & H3); [done..|]. cbn in *.
    exists b, cn. rewrite <- E. split; [|done]. intros e. unfold gets, bind at 1. rewrite E. cbn [when].
    unfold bind at 1. rewrite acquire_runs by done. unfold bind at 1. rewrite R.
    rewrite (release_runs _ _ (held s)) by done. by destruct s.
  - destruct (cprintf_loop_some (length fmt) fmt args s) as (b & cn & R & Hcn & H1 & H2 & H3);
      [done..|]. exists b, cn. rewrite <- E. split; [|done]. intros e.
    unfold gets, bind at 1. rewrite E. cbn [when]. unfold bind, ret. by rewrite R.
Qed.

Lemma dump_pcs_some n pc s :
  console_ok (console s) -> ConsLock ∉ held s -> prints_some (dump_pcs n pc) s.
Proof.
  revert pc s. induction n as [|n IH]; intros [|x pc] s Hok Hl; cbn [dump_pcs];
    try by apply ret_some.
  destruct (x =? 0); [by apply ret_some|].
  apply prints_some_bind; [by apply cprintf_some|]. intros. by apply IH.
Qed.

Lemma mfor_some k i body s :
  (forall j cn, (i <= j < i + k)%nat -> console_ok cn -> prints_some (body j) (set_console cn s)) ->
  console_ok (console s) -> prints_some (mfor k i body) s.
Proof.
  revert i s. induction k as [|k IH]; intros i s Hb Hok; cbn [mfor]; [by apply ret_some|].
  apply prints_some_bind.
  - replace s with (set_console (console s) s) by (by destruct s). apply Hb; [lia|done].
  - intros cn Hcn _. apply IH; [|done]. intros j cn' Hj Hcn'.
    replace (set_console cn' (set_console cn s)) with (set_console cn' s) by (by destruct s).
    apply Hb; [lia|done].
Qed.

Lemma procdump_some pcs s :
  length (ptable s) = NPROC -> console_ok (console s) -> ConsLock ∉ held s ->
  prints_some (procdump pcs) s.
Proof.
  intros Ht Hok Hl. apply mfor_some; [|done]. intros j cn Hj Hcn.
  destruct (lookup_lt_is_Some_2 (ptable s) j) as [p Hp]; [lia|].
  assert (forall m : proc -> K unit, prints_some (m p) (set_console cn s) ->
    prints_some (let! p := proc_at j in m p) (set_console cn s)) as Hb.
  { intros m (b & cn' & R & H). exists b, cn'. split; [|done]. intros e. unfold bind at 1, proc_at.
    unfold gets, bind. cbn [ptable set_console]. rewrite Hp. cbn. apply R. }
  apply Hb. case_bool_decide; [by apply ret_some|].
  apply prints_some_bind; [by apply cprintf_some|]. intros cn' Hcn' _.
  apply prints_some_bind; [|intros; by apply cprintf_some].
  case_bool_decide; [by apply dump_pcs_some|by apply ret_some].
Qed.

(** ** The ring buffer *)
Lemma u32_mod_128 k : u32 k mod 128 = k mod 128.
Proof. unfold u32. apply Z.mod_mod_divide. by exists (2 ^ 25). Qed.

Lemma u32_sub r a b : 0 <= a - b < 2 ^ 32 -> u32 (u32 (r + a) - u32 (r + b)) = a - b.
Proof.
  intros H. unfold u32. rewrite <- Zminus_mod. rewrite Z.mod_small by lia. lia.
Qed.

Lemma u32_add_eq r a b : 0 <= a < 2 ^ 32 -> 0 <= b < 2 ^ 32 -> u32 (r + a) = u32 (r + b) -> a = b.
Proof.
  intros Ha Hb H. assert (u32 (u32 (r + a) - u32 (r + b)) = 0) as E by (by rewrite H, Z.sub_diag).
  destruct (decide (b <= a)) as [Hl|Hl].
  - rewrite u32_sub in E by lia. lia.
  - assert (u32 (u32 (r + b) - u32 (r + a)) = 0) as E' by (by rewrite H, Z.sub_diag).
    rewrite u32_sub in E' by lia. lia.
Qed.

(** Cells of the ring that are at most its length apart are different. *)
Lemma ring_cell_ne r a b : 0 <= a < b -> b - a < 128 -> (r + a) mod 128 <> (r + b) mod 128.
Proof.
  intros H1 H2 E. assert ((b - a) mod 128 = 0) as E'.
  { replace (b - a) with ((r + b) - (r + a)) by lia. rewrite Zminus_mod, E, Z.sub_diag. done. }
  rewrite Z.mod_small in E' by lia. lia.
Qed.

Section Rep.
Context (t : tty) (inp : inputst) (R : tty_rep t inp).

Lemma rep_counts : u32 (in_e inp - in_r inp) = Z.of_nat (length (t_ready t ++ t_line t)).
Proof.
  pose proof (tr_room _ _ R) as Hr. rewrite (tr_e _ _ R).
  rewrite <- (u32_small (in_r inp)) at 2 by apply R.
  rewrite <- (Z.add_0_r (in_r inp)) at 2. rewrite u32_sub; lia.
Qed.

Lemma rep_line : u32 (in_e inp - in_w inp) = Z.of_nat (length (t_line t)).
Proof.
  pose proof (tr_room _ _ R) as Hr. rewrite length_app in Hr.
  rewrite (tr_e _ _ R), (tr_w _ _ R), length_app, u32_sub; lia.
Qed.

Lemma rep_line_empty : (in_e inp =? in_w inp) = bool_decide (t_line t = []).
Proof.
  pose proof (tr_room _ _ R) as Hr. rewrite length_app in Hr.
  apply eq_bool_prop_intro. rewrite Is_true_true, Z.eqb_eq, bool_decide_spec.
  rewrite (tr_e _ _ R), (tr_w _ _ R), length_app. split.
  - intros E%u32_add_eq; [|lia|lia]. apply length_zero_iff_nil. lia.
  - intros ->. cbn. by rewrite Nat.add_0_r.
Qed.

Lemma rep_ready_empty : (in_r inp =? in_w inp) = bool_decide (t_ready t = []).
Proof.
  pose proof (tr_room _ _ R) as Hr. rewrite length_app in Hr.
  apply eq_bool_prop_intro. rewrite Is_true_true, Z.eqb_eq, bool_decide_spec.
  rewrite (tr_w _ _ R). rewrite <- (u32_small (in_r inp)) at 1 by apply R.
  rewrite <- (Z.add_0_r (in_r inp)) at 1. split.
  - intros E%u32_add_eq; [|lia|lia]. apply length_zero_iff_nil. lia.
  - by intros ->.
Qed.

Lemma rep_cell k x : (t_ready t ++ t_line t) !! k = Some x -> in_at inp (in_r inp + Z.of_nat k) = x.
Proof.
  intros H%(tr_cells _ _ R). unfold in_at, byte_at. change INPUT_BUF with 128.
  rewrite u32_mod_128. by rewrite H.
Qed.
End Rep.

(** Dropping the last character of the line. *)
Lemma rep_erase ready line c inp :
  tty_rep (mkTty ready (line ++ [c])) inp ->
  in_at inp (in_e inp - 1) = c /\
  tty_rep (mkTty ready line) (set_in_e (u32 (in_e inp - 1)) inp).
Proof.
  intros R. pose proof R as [A B C D E F G]. cbn [t_ready t_line] in *.
  rewrite app_assoc, length_app in D, E. cbn [length] in D, E.
  set (n := length (ready ++ line)) in *.
  assert (u32 (in_e inp - 1) = u32 (in_r inp + Z.of_nat n)) as He.
  { rewrite D. rewrite <- Z.add_opp_r, u32_add_l. f_equal. lia. }
  split.
  - rewrite <- (rep_cell (mkTty ready (line ++ [c])) inp) with (k := n).
    + unfold in_at. by rewrite He.
    + exact R.
    + cbn. rewrite app_assoc. by apply list_lookup_middle.
  - split; cbn; try done; [lia| |].
    + intros k x Hk. apply F. rewrite app_assoc. by apply lookup_app_l_Some.
    + set_solver.
Qed.

(** Adding a character. *)
Definition in_put (c : Z) (inp : inputst) : inputst :=
  set_in_e (u32 (in_e inp + 1))
    (set_in_buf (<[Z.to_nat (in_e inp mod INPUT_BUF) := c]> (in_buf inp)) inp).

Lemma in_put_cells t c inp k x :
  tty_rep t inp -> (length (t_ready t ++ t_line t) < 128)%nat ->
  (t_ready t ++ t_line t ++ [c]) !! k = Some x ->
  in_buf (in_put c inp) !! Z.to_nat ((in_r inp + Z.of_nat k) mod 128) = Some x.
Proof.
  intros [A B C D E F G] Hn Hk. unfold in_put. cbn. change INPUT_BUF with 128.
  rewrite D, u32_mod_128. rewrite app_assoc in Hk.
  assert (forall z, 0 <= z mod 128 < 128) as Hm by (intros; by apply Z.mod_pos_bound).
  apply lookup_app_Some in Hk as [Hk|[Hk1 Hk2]].
  - pose proof (lookup_lt_Some _ _ _ Hk). rewrite list_lookup_insert_ne; [by apply F|].
    intros H0%Z2Nat.inj; [|apply Hm..]. symmetry in H0. revert H0. apply ring_cell_ne; lia.
  - apply list_lookup_singleton_Some in Hk2 as [Hk2 <-].
    replace k with (length (t_ready t ++ t_line t)) by lia. apply list_lookup_insert_eq.
    rewrite A. specialize (Hm (in_r inp + Z.of_nat (length (t_ready t ++ t_line t)))). lia.
Qed.

Lemma in_put_e t c inp :
  tty_rep t inp ->
  in_e (in_put c inp) = u32 (in_r inp + Z.of_nat (length (t_ready t ++ t_line t ++ [c]))).
Proof.
  intros R. cbn. rewrite (tr_e _ _ R), u32_add_l. f_equal. rewrite !length_app. cbn. lia.
Qed.

Lemma rep_add t c inp :
  tty_rep t inp -> (length (t_ready t ++ t_line t) < 128)%nat -> c <> nl ->
  tty_rep (mkTty (t_ready t) (t_line t ++ [c])) (in_put c inp).
Proof.
  intros R Hn Hc. pose proof R as [A B C D E F G]. rewrite length_app in Hn.
  split; cbn [t_ready t_line]; change (in_r (in_put c inp)) with (in_r inp).
  - cbn. by rewrite length_insert.
  - done.
  - done.
  - by apply in_put_e.
  - rewrite !length_app. cbn. lia.
  - intros k x. apply in_put_cells; [done|]. rewrite length_app. lia.
  - set_solver.
Qed.

Lemma rep_end t c inp :
  tty_rep t inp -> (length (t_ready t ++ t_line t) < 128)%nat ->
  tty_rep (mkTty (t_ready t ++ t_line t ++ [c]) [])
    (set_in_w (in_e (in_put c inp)) (in_put c inp)).
Proof.
  intros R Hn. pose proof R as [A B C D E F G]. split; cbn [t_ready t_line]; rewrite ?app_nil_r;
    change (in_r (set_in_w _ _)) with (in_r inp).
  - cbn. by rewrite length_insert.
  - done.
  - by apply in_put_e.
  - by apply in_put_e.
  - rewrite length_app in Hn. rewrite !length_app. cbn. lia.
  - intros k x. by apply in_put_cells.
  - set_solver.
Qed.

(** ** The interrupt handler edits lines *)

(** From [s] to [s'] the terminal went from [t] to [t']; processes that wait
    for input were woken if there is more of it, and the rest is unchanged. *)
Record tty_steps (s : kstate) (t : tty) (s' : kstate) (t' : tty) : Prop := {
  ts_console : console_ok (console s');
  ts_rep : tty_rep t' (input s');
  ts_frame : exists cn inp pt, s' = set_console cn (set_input inp (set_ptable pt s)) /\
    (t_ready t' = t_ready t /\ pt = ptable s \/ pt = wakeup1 (Some ChInput) (ptable s))
}.

Lemma wakeup1_idemp ch T : wakeup1 ch (wakeup1 ch T) = wakeup1 ch T.
Proof.
  unfold wakeup1. rewrite <- list_fmap_compose. apply list_fmap_ext. intros i p _. cbn.
  destruct (bool_decide (p_state p = SLEEPING /\ p_chan p = ch)) eqn:E; [|by rewrite E].
  by rewrite bool_decide_eq_false_2 by (by intros [[=] ?]).
Qed.

Lemma tty_steps_trans s t s1 t1 s2 t2 :
  tty_steps s t s1 t1 -> tty_steps s1 t1 s2 t2 -> tty_steps s t s2 t2.
Proof.
  intros [A B (cn1 & inp1 & pt1 & -> & H1)] [A' B' (cn2 & inp2 & pt2 & -> & H2)]. cbn in *.
  split; [done|done|]. exists cn2, inp2, pt2. split; [by destruct s|].
  destruct H1 as [[E1 ->]| ->], H2 as [[E2 ->]| ->].
  - left. split; [congruence|done].
  - by right.
  - by right.
  - right. apply wakeup1_idemp.
Qed.

(** A change of the line and its echo. *)
Lemma echo_runs f c s t t' :
  console_ok (console s) -> tty_rep t' (f (input s)) -> t_ready t' = t_ready t ->
  exists s1 s2, runs (upd_input f) s tt s1 /\ runs (consputc c) s1 tt s2 /\
    tty_steps s t s2 t' /\ input s2 = f (input s) /\ held s2 = held s.
Proof.
  intros Hok R Hr. destruct (consputc_prints c (set_input (f (input s)) s) Hok) as (cn & Rn & Hcn & _).
  do 2 eexists. split; [by intros e|]. split; [exact Rn|]. split; [|done].
  split; [done|done|]. exists cn, (f (input s)), (ptable s). split; [by destruct s|by left].
Qed.

Lemma tty_steps_refl s t : console_ok (console s) -> tty_rep t (input s) -> tty_steps s t s t.
Proof.
  intros H R. split; [done|done|]. exists (console s), (input s), (ptable s).
  split; [by destruct s|by left].
Qed.

Lemma kill_line_spec k s t :
  console_ok (console s) -> tty_rep t (input s) -> (length (t_line t) <= k)%nat ->
  wp (kill_line k) s (fun _ s' => tty_steps s t s' (mkTty (t_ready t) [])).
Proof.
  revert s t. induction k as [|k IH]; intros s [ready line] Hok R Hk; cbn [t_line t_ready] in *;
    (destruct line as [|c line _] using rev_ind;
     [|rewrite length_app in Hk; cbn in Hk; try lia]); cbn [kill_line];
    apply wp_bind, wp_gets; rewrite (rep_line_empty _ _ R); cbn [t_line].
  1, 2: apply wp_ret; by apply tty_steps_refl.
  rewrite bool_decide_eq_false_2 by (intros [_ [=]]%app_eq_nil).
  destruct (rep_erase ready line c (input s) R) as [Hc R'].
  rewrite Hc. rewrite (proj2 (Z.eqb_neq c nl)) by (pose proof (tr_line _ _ R); cbn in *; set_solver).
  cbn [negb andb].
  destruct (echo_runs (fun i => set_in_e (u32 (in_e i - 1)) i) BACKSPACE s
    (mkTty ready (line ++ [c])) (mkTty ready line) Hok R' eq_refl) as (s1 & s2 & H1 & H2 & Hst & _).
  eapply wp_bind_runs; [exact H1|]. eapply wp_bind_runs; [exact H2|].
  eapply wp_mono; [apply (IH _ (mkTty ready line)); [apply Hst|apply Hst|cbn; lia]|].
  intros ? s' H. by eapply tty_steps_trans.
Qed.

Lemma input_char_spec c s t :
  console_ok (console s) -> tty_rep t (input s) -> PtableLock ∉ held s -> 0 <= c < 256 ->
  c <> ctrl 80 -> kill_key c = false -> erase_key c = false ->
  wp (input_char c) s (fun _ s' => tty_steps s t s' (tty_key t c)).
Proof.
  intros Hok R Hl Hc H1 H2 H3. unfold input_char, tty_key.
  rewrite (proj2 (Z.eqb_neq _ _) H1), H2, H3.
  apply wp_bind, wp_gets. rewrite (rep_counts _ _ R). change INPUT_BUF with 128.
  set (n := length (t_ready t ++ t_line t)).
  assert ((Z.of_nat n <? 128) = negb (128 <=? n)%nat) as ->.
  { destruct (Z.ltb_spec (Z.of_nat n) 128), (Nat.leb_spec 128 n); (done || lia). }
  destruct (c =? 0); cbn [negb andb orb when]; [by apply wp_ret, tty_steps_refl|].
  destruct (Nat.leb_spec 128 n) as [Hn|Hn]; cbn [negb when]; [by apply wp_ret, tty_steps_refl|].
  set (c' := if c =? 13 then nl else c).
  assert (0 <= c' < 256) as Hc' by (unfold c'; destruct (c =? 13); unfold nl; lia).
  assert (u8 c' = c') as -> by (unfold u8; by apply Z.mod_small).
  unfold upd_input at 1. apply wp_bind, wp_modify. cbn [input set_input].
  destruct (consputc_prints c' (set_input (in_put c' (input s)) s) Hok) as (cn & Rn & Hcn & _).
  eapply wp_bind_runs; [exact Rn|]. apply wp_bind, wp_gets. cbn [input set_console set_input].
  assert ((in_e (in_put c' (input s)) =? u32 (in_r (in_put c' (input s)) + 128)) = (n =? 127)%nat) as ->.
  { rewrite (in_put_e t) by done. change (in_r (in_put c' (input s))) with (in_r (input s)).
    apply eq_bool_prop_intro. rewrite !Is_true_true, Z.eqb_eq, Nat.eqb_eq.
    rewrite app_assoc, length_app. fold n. cbn [length]. split.
    - intros E%u32_add_eq; lia.
    - intros ->. done. }
  fold (end_key c'). destruct (end_key c' || (n =? 127)%nat) eqn:E; cbn [when].
  - apply wp_bind, wp_modify, wp_wakeup; [done|]. split; [done|by apply rep_end|].
    exists cn, (set_in_w (in_e (in_put c' (input s))) (in_put c' (input s))),
      (wakeup1 (Some ChInput) (ptable s)). split; [by destruct s|by right].
  - apply wp_ret. split; [done|apply rep_add; [done|done|]|].
    + intros ->. done.
    + exists cn, (in_put c' (input s)), (ptable s). split; [by destruct s|by left].
Qed.

Lemma console_key_spec c s t :
  console_ok (console s) -> tty_rep t (input s) -> PtableLock ∉ held s -> 0 <= c < 256 ->
  wp (console_key c) s (fun _ s' => tty_steps s t s' (tty_key t c)).
Proof.
  intros Hok R Hl Hc. unfold console_key, tty_key.
  destruct (Z.eqb_spec c (ctrl 80)) as [->|Hp]; [by apply wp_ret, tty_steps_refl|].
  fold (kill_key c). destruct (kill_key c) eqn:Hk.
  { apply wp_bind, wp_gets. rewrite (rep_line _ _ R), Nat2Z.id. by apply kill_line_spec. }
  fold (erase_key c). destruct (erase_key c) eqn:He.
  - apply wp_bind, wp_gets. rewrite (rep_line_empty _ _ R). destruct t as [ready line].
    cbn [t_ready t_line]. destruct line as [|x line _] using rev_ind; [by apply wp_ret, tty_steps_refl|].
    rewrite bool_decide_eq_false_2 by (intros [_ [=]]%app_eq_nil). cbn [negb when].
    rewrite removelast_last.
    destruct (echo_runs (fun i => set_in_e (u32 (in_e i - 1)) i) BACKSPACE s
      (mkTty ready (line ++ [x])) (mkTty ready line) Hok (proj2 (rep_erase _ _ _ _ R)) eq_refl)
      as (s1 & s2 & H1 & H2 & Hst & _).
    eapply wp_bind_runs; [exact H1|]. by eapply runs_wp.
  - pose proof (input_char_spec c s t Hok R Hl Hc Hp Hk He) as H. unfold tty_key in H.
    by rewrite (proj2 (Z.eqb_neq _ _) Hp), Hk, He in H.
Qed.

Lemma tty_steps_held s t s' t' : tty_steps s t s' t' -> held s' = held s.
Proof. by intros [_ _ (cn & inp & pt & -> & _)]. Qed.

Lemma tty_steps_ptable s t s' t' : tty_steps s t s' t' -> length (ptable s') = length (ptable s).
Proof.
  intros [_ _ (cn & inp & pt & -> & [[_ ->]| ->])]; [done|]. apply wakeup1_length.
Qed.

Lemma console_keys_spec cs s t :
  console_ok (console s) -> tty_rep t (input s) -> PtableLock ∉ held s ->
  Forall is_byte cs ->
  wp (console_keys cs) s (fun _ s' => tty_steps s t s' (foldl tty_key t cs)).
Proof.
  revert s t. induction cs as [|c cs IH]; intros s t Hok R Hl Hcs; cbn [console_keys foldl];
    [by apply wp_ret, tty_steps_refl|].
  apply list.Forall_cons in Hcs as [Hc Hcs].
  apply wp_bind. eapply wp_mono; [apply (console_key_spec c s t); [done..|exact Hc]|]. intros ? s1 H1.
  eapply wp_mono; [apply (IH s1 (tty_key t c)); [apply H1|apply H1| |done]|].
  - by rewrite (tty_steps_held _ _ _ _ H1).
  - intros ? s2 H2. exact (tty_steps_trans _ _ _ _ _ _ H1 H2).
Qed.

(** C21: the console interrupt handler edits the line as the keys say, echoes
    it without leaving the screen, wakes the readers when there is more to
    read, and returns with the locks as they were. *)
Theorem consoleintr_edits pcs cs s t :
  console_ok (console s) -> tty_rep t (input s) -> held s = [] ->
  length (ptable s) = NPROC -> Forall is_byte cs ->
  wp (consoleintr pcs cs) s (fun _ s' => tty_steps s t s' (foldl tty_key t cs)).
Proof.
  intros Hok R Hl Ht Hcs. unfold consoleintr.
  apply wp_bind, wp_acquire; [rewrite Hl; set_solver|].
  apply wp_bind. eapply wp_mono; [apply (console_keys_spec cs _ t); [done|done| |done]|].
  { cbn. rewrite Hl. set_solver. }
  intros ? s1 H1. apply wp_bind, (wp_release _ _ []); [|set_solver|].
  { rewrite (tty_steps_held _ _ _ _ H1). cbn. by rewrite Hl. }
  assert (tty_steps s t (set_held [] s1) (foldl tty_key t cs)) as Hst.
  { destruct H1 as [A B (cn & inp & pt & -> & H)]. split; [done|done|].
    exists cn, inp, pt. split; [|done]. destruct s; cbn in *. by subst. }
  destruct (existsb _ cs); [|by apply wp_ret].
  destruct (procdump_some pcs (set_held [] s1)) as (b & cn & Rn & Hcn & _).
  - rewrite (tty_steps_ptable _ _ _ _ Hst). done.
  - apply Hst.
  - set_solver.
  - eapply runs_wp; [exact Rn|]. destruct Hst as [A B (cn' & inp & pt & E & H)].
    split; [done|done|]. exists cn, inp, pt. split; [|done]. rewrite E. by destruct s.
Qed.

(** ** The reader *)
Lemma rep_next c ready line inp :
  tty_rep (mkTty (c :: ready) line) inp ->
  in_at inp (in_r inp) = c /\
  tty_rep (mkTty ready line) (set_in_r (u32 (in_r inp + 1)) inp).
Proof.
  intros R. pose proof R as [A B C D E F G]. cbn [t_ready t_line length app] in *. split.
  - rewrite <- (rep_cell _ _ R 0 c eq_refl). by rewrite Z.add_0_r.
  - assert (forall k, u32 (u32 (in_r inp + 1) + Z.of_nat k) = u32 (in_r inp + Z.of_nat (S k))) as Hk.
    { intros k. rewrite u32_add_l. f_equal. lia. }
    split; cbn; try done; rewrite ?Hk; try done.
    + apply u32_range.
    + lia.
    + intros k x Hx. specialize (F (S k) x Hx). rewrite <- u32_mod_128 in F.
      by rewrite <- u32_mod_128, Hk.
Qed.

(** Counting back after [C('D')] was seen too early. *)
Lemma input_back inp : 0 <= in_r inp < 2 ^ 32 ->
  set_in_r (u32 (in_r (set_in_r (u32 (in_r inp + 1)) inp) - 1)) (set_in_r (u32 (in_r inp + 1)) inp) = inp.
Proof.
  intros H. destruct inp as [b r w e]; cbn in *.
  replace (u32 (u32 (r + 1) - 1)) with r; [done|].
  rewrite <- Z.add_opp_r, u32_add_l. rewrite <- Z.add_assoc, Z.add_0_r. by rewrite u32_small.
Qed.

Lemma consoleread_wait_ready k s t :
  tty_rep t (input s) -> t_ready t <> [] -> runs (consoleread_wait k) s false s.
Proof.
  intros R Hr e. destruct k; cbn [consoleread_wait]; unfold gets, bind;
    rewrite (rep_ready_empty _ _ R), bool_decide_eq_false_2 by done; done.
Qed.

(** The rest of a pass of [consoleread_loop] once [c] was taken. *)
Definition read_char (c : Z) (n : nat) (target : Z) : K (bool * list Z) :=
  if c =? ctrl 68 then
    do when (u32 (Z.of_nat (S n)) <? target)
      (upd_input (fun inp => set_in_r (u32 (in_r inp - 1)) inp));
    ret (false, [])
  else if c =? nl then ret (false, [c])
  else
    let! ' (killed, cs) := consoleread_loop n (Z.of_nat n) target in
    ret (killed, c :: cs).

Lemma consoleread_pass c ready line n target s r s' :
  tty_rep (mkTty (c :: ready) line) (input s) ->
  runs (read_char c n target) (set_input (set_in_r (u32 (in_r (input s) + 1)) (input s)) s) r s' ->
  runs (consoleread_loop (S n) (Z.of_nat (S n)) target) s r s'.
Proof.
  intros R H e. cbn [consoleread_loop]. rewrite (proj2 (Z.ltb_lt _ _)) by lia. cbn [negb].
  unfold bind at 1, pending at 1. unfold bind at 1.
  rewrite (consoleread_wait_ready _ s _ R) by done. cbn [when].
  unfold bind at 1, gets at 1. rewrite (proj1 (rep_next _ _ _ _ R)).
  unfold bind at 1, upd_input at 1, modify at 1.
  replace (Z.of_nat (S n) - 1) with (Z.of_nat n) by lia. apply H.
Qed.

(** The loop of [consoleread] takes from the queue what [tty_read] says. *)
Lemma consoleread_loop_spec n target ready line s bs rest :
  tty_rep (mkTty ready line) (input s) ->
  (n <= target)%nat -> Z.of_nat target < 2 ^ 31 ->
  tty_read (n =? target)%nat n ready = Some (bs, rest) ->
  exists inp, tty_rep (mkTty rest line) inp /\
    runs (consoleread_loop n (Z.of_nat n) (Z.of_nat target)) s (false, bs) (set_input inp s).
Proof.
  revert ready s bs. induction n as [|n IH]; intros ready s bs R Hn Ht Hr.
  { cbn in Hr. destruct ready; injection Hr as <- <-;
      (exists (input s); split; [done|]; intros e; by destruct s). }
  destruct ready as [|c ready]; [done|].
  remember (S n =? target)%nat as first eqn:Hf. cbn [tty_read] in Hr.
  destruct (rep_next c ready line (input s) R) as [Hc R'].
  set (inp1 := set_in_r (u32 (in_r (input s) + 1)) (input s)) in *.
  assert (forall x, set_input x s = set_input x (set_input inp1 s)) as Hs by (by destruct s).
  destruct (c =? ctrl 68) eqn:E1; [|destruct (c =? nl) eqn:E2].
  - injection Hr as <- <-. destruct first; symmetry in Hf;
      [apply Nat.eqb_eq in Hf|apply Nat.eqb_neq in Hf].
    + exists inp1. split; [done|]. eapply consoleread_pass; [done|]. intros e. unfold read_char.
      rewrite E1, u32_small, (proj2 (Z.ltb_ge _ _)) by lia. done.
    + exists (input s). split; [done|]. eapply consoleread_pass; [done|]. intros e. unfold read_char.
      rewrite E1, u32_small, (proj2 (Z.ltb_lt _ _)) by lia. cbn -[set_in_r].
      rewrite input_back by apply R. by destruct s.
  - injection Hr as <- <-. exists inp1. split; [done|]. eapply consoleread_pass; [done|].
    intros e. unfold read_char. by rewrite E1, E2.
  - destruct (tty_read false n ready) as [[bs' rest']|] eqn:Hr'; [|done]. injection Hr as <- <-.
    destruct (IH ready (set_input inp1 s) bs') as (inp & Ri & H); [done|lia|done| |].
    { by rewrite (proj2 (Nat.eqb_neq n target)) by lia. }
    exists inp. split; [done|]. eapply consoleread_pass; [done|]. intros e. unfold read_char, bind.
    rewrite E1, E2, H. by rewrite <- Hs.
Qed.

(** A read from the console that need not wait returns the next bytes of
    the finished lines, up to and including a newline or up to the end of
    file mark, leaves the rest and the line being edited, and returns with
    the inode locked as before. *)
Theorem consoleread_lines `{BlockDev} ip i s t n bs rest :
  tty_rep t (input s) -> tty_read true n (t_ready t) = Some (bs, rest) -> Z.of_nat n < 2 ^ 31 ->
  held s = [] -> icache s !! i = Some ip -> 1 <= i_ref ip -> i_busy ip = true -> i_valid ip = true ->
  wp (consoleread i (Z.of_nat n)) s (fun r s' =>
    r = (Z.of_nat (length bs), bs) /\ tty_rep (mkTty rest (t_line t)) (input s') /\
    icache s' = icache s /\ held s' = []).
Proof.
  intros R Hr Hn Hh Hi Href Hb Hv. pose proof (lookup_lt_Some _ _ _ Hi) as Hlen. unfold consoleread.
  eapply wp_bind_runs; [by apply (iunlock_runs i ip)|]. set (s1 := set_ptable _ _).
  apply wp_bind, wp_acquire; [cbn; rewrite Hh; set_solver|]. set (s2 := set_held _ s1).
  destruct (consoleread_loop_spec n n (t_ready t) (t_line t) s2 bs rest) as (inp & Ri & H1);
    [by destruct t|done|done|by rewrite Nat.eqb_refl|].
  rewrite Nat2Z.id, u32_small by lia. eapply wp_bind_runs; [exact H1|]. cbv beta iota.
  apply wp_bind, (wp_release _ _ []); [cbn; by rewrite Hh|set_solver|].
  eapply wp_bind_runs; [apply (ilock_runs i (set_i_busy false ip))|].
  - done.
  - cbn. by apply list_lookup_insert_eq.
  - done.
  - done.
  - done.
  - apply wp_ret. split; [done|]. split; [done|]. split; [|done]. cbn.
    rewrite list_insert_insert_eq. apply list_insert_id. rewrite Hi. by destruct ip; cbn in *; subst.
Qed.

(** A write to the console sends its bytes on the serial line in order,
    keeps the cursor on the screen, never panics, and returns the number of
    bytes with the inode locked as before. *)
Theorem consolewrite_sends `{BlockDev} ip i s buf n :
  console_ok (console s) -> cn_have_uart (console s) = true ->
  Forall is_byte buf -> 0 <= n <= Z.of_nat (length buf) ->
  held s = [] -> icache s !! i = Some ip -> 1 <= i_ref ip -> i_busy ip = true -> i_valid ip = true ->
  wp (consolewrite i buf n) s (fun r s' =>
    r = n /\ console_ok (console s') /\
    cn_uart (console s') = cn_uart (console s) ++ take (Z.to_nat n) buf /\
    icache s' = icache s /\ held s' = []).
Proof.
  intros Hok Hu Hbuf Hn Hh Hi Href Hb Hv. pose proof (lookup_lt_Some _ _ _ Hi) as Hlen.
  unfold consolewrite.
  eapply wp_bind_runs; [by apply (iunlock_runs i ip)|]. set (s1 := set_ptable _ _).
  apply wp_bind, wp_acquire; [cbn; rewrite Hh; set_solver|]. set (s2 := set_held _ s1).
  set (cs := _ <$> take (Z.to_nat n) buf).
  destruct (cputs_prints cs s2 Hok) as (cn & Rn & Hcn & _ & _ & Hs).
  eapply wp_bind_runs; [exact Rn|].
  apply wp_bind, (wp_release _ _ []); [cbn; by rewrite Hh|set_solver|].
  eapply wp_bind_runs; [apply (ilock_runs i (set_i_busy false ip))|].
  - done.
  - cbn. by apply list_lookup_insert_eq.
  - done.
  - done.
  - done.
  - apply wp_ret. split; [done|]. split; [done|]. split; [|split; [|done]]; cbn.
    + rewrite Hs. cbn. f_equal. unfold cs. clear -Hu Hbuf.
      apply (Forall_take _ (Z.to_nat n)) in Hbuf.
      induction Hbuf as [|b l Hb _ IH]; [done|]. cbn [fmap list_fmap mbind list_bind]. rewrite IH.
      unfold sent. rewrite Hu. unfold is_byte in Hb.
      change 255 with (Z.ones 8). rewrite Z.land_ones, Z.mod_small by lia.
      rewrite (proj2 (Z.eqb_neq b BACKSPACE)) by (unfold BACKSPACE; lia).
      unfold u8. by rewrite Z.mod_small by lia.
    + rewrite list_insert_insert_eq. apply list_insert_id. rewrite Hi. by destruct ip; cbn in *; subst.
Qed.

(** ** Examples *)
Definition tty_state : kstate :=
  set_icache [mkInode 1 3 1 true true T_DEV 1 1 1 0 (replicate 13 0)]
    (reset_state ∅ 0 (replicate NPROC zero_proc) 0).

Lemma tty_state_console : console_ok (console tty_state).
Proof. by split. Qed.

Lemma tty_state_rep : tty_rep (mkTty [] []) (input tty_state).
Proof. split; try done; cbn; try lia. set_solver. Qed.

(** Typing "ls", a wrong character, a backspace, "x", a newline and "e". *)
Lemma consoleintr_edits_witness : exists s,
  wp (consoleintr (fun _ => []) [108; 115; 113; 127; 120; 13; 101]) s (fun _ s' =>
    tty_rep (mkTty [108; 115; 120; 10] [101]) (input s')).
Proof.
  exists tty_state. eapply wp_mono; [apply (consoleintr_edits _ _ _ (mkTty [] []))|].
  - apply tty_state_console.
  - apply tty_state_rep.
  - done.
  - apply length_replicate.
  - repeat constructor; lia.
  - intros ? s' H. exact (ts_rep _ _ _ _ H).
Defined.

(** A read of 10 bytes with "ab" and the end of file mark typed. *)
Lemma consoleread_lines_witness : exists s,
  wp (consoleread (Dev := memide_dev) 0 10) s (fun r s' =>
    r = (2, [97; 98]) /\ tty_rep (mkTty [4] []) (input s')).
Proof.
  exists (set_input (mkInput (97 :: 98 :: 4 :: replicate 125 0) 0 3 3) tty_state).
  eapply wp_mono; [apply (consoleread_lines (mkInode 1 3 1 true true T_DEV 1 1 1 0 (replicate 13 0))
    0 _ (mkTty [97; 98; 4] []) 10 [97; 98] [4])|]; try done.
  - split; try done; cbn; try lia; [|set_solver].
    intros [|[|[|k]]] x [= <-]; done.
  - intros r s' (-> & H & _). done.
Defined.

Lemma consolewrite_sends_witness : exists s,
  wp (consolewrite (Dev := memide_dev) 0 [104; 105; 10] 3) s (fun r s' =>
    r = 3 /\ cn_uart (console s') = [104; 105; 10]).
Proof.
  exists tty_state. eapply wp_mono; [apply (consolewrite_sends
    (mkInode 1 3 1 true true T_DEV 1 1 1 0 (replicate 13 0)) 0 _ [104; 105; 10] 3)|]; try done.
  - repeat constructor; lia.
  - by intros r s' (-> & _ & -> & _).
Defined.
