(* ===== verification/Pagetable.v ===== *)
(** * Address spaces

    What the page table code of vm.c promises: a page directory and its page
    tables represent a map from virtual page numbers to entries; mapping pages
    changes the entries asked for and no others, and takes its page tables
    from the free list; the pages of an address space, its tables and the free
    list are never mixed up. *)

From S2P Require Import Prelude Bytes Cstring Kstate Sync Kalloc Disk Bio Log Fs Vm.
Local Open Scope Z_scope.

(** ** Entries *)

(** The entry [mappages] stores. *)
Definition mk_pte (pa perm : Z) : Z := Z.lor (Z.lor pa perm) PTE_P.

Lemma land_4095 x : Z.land x 4095 = x mod 4096.
Proof. change 4095 with (Z.ones 12). by rewrite Z.land_ones. Qed.

Lemma land_not_4095 x : Z.land x (Z.lnot 4095) = x - x mod 4096.
Proof. rewrite <- Z.sub_land_same_l. by rewrite land_4095. Qed.

Lemma land_aligned pa f : pa mod 4096 = 0 -> 0 <= f < 4096 -> Z.land pa f = 0.
Proof.
  intros Hpa Hf. rewrite <- (Z.mod_small f 4096) by lia. rewrite <- land_4095, (Z.land_comm f).
  rewrite Z.land_assoc, land_4095, Hpa. apply Z.land_0_l.
Qed.

Lemma lor_aligned pa f : pa mod 4096 = 0 -> 0 <= f < 4096 -> Z.lor pa f = pa + f.
Proof. intros Hpa Hf. rewrite <- Z.add_lor_land, land_aligned by done. lia. Qed.

Section Entry.
Context (pa fl : Z) (Hpa : pa mod 4096 = 0) (Hfl : 0 <= fl < 4096).

Lemma entry_mod : (pa + fl) mod 4096 = fl.
Proof. rewrite Z.add_mod, Hpa, Z.add_0_l, Z.mod_mod by lia. by apply Z.mod_small. Qed.

Lemma entry_addr : PTE_ADDR (pa + fl) = pa.
Proof. unfold PTE_ADDR. rewrite land_not_4095, entry_mod. lia. Qed.

Lemma entry_flags : PTE_FLAGS (pa + fl) = fl.
Proof. unfold PTE_FLAGS. by rewrite land_4095, entry_mod. Qed.

Lemma entry_has f : 0 <= f < 4096 -> has (pa + fl) f = has fl f.
Proof.
  intros Hf. unfold has. rewrite <- lor_aligned by done. rewrite Z.land_lor_distr_l.
  by rewrite (land_aligned pa f) by done.
Qed.

Lemma mk_pte_eq : mk_pte pa fl = pa + Z.lor fl 1.
Proof.
  unfold mk_pte, PTE_P. rewrite <- Z.lor_assoc. apply lor_aligned; [done|].
  pose proof (Z.add_lor_land fl 1). assert (0 <= Z.lor fl 1) by (apply Z.lor_nonneg; lia).
  assert (0 <= Z.land fl 1) by (apply Z.land_nonneg; lia).
  destruct (decide (fl = 4095)) as [->|]; [done|lia].
Qed.
End Entry.

Lemma PDX_div va : 0 <= va < 2 ^ 32 -> PDX va = va / 4096 / 1024.
Proof.
  intros H. unfold PDX. change 1023 with (Z.ones 10). rewrite Z.land_ones, Z.shiftr_div_pow2 by lia.
  rewrite Z.div_div by lia. change (2 ^ 22) with (4096 * 1024). apply Z.mod_small.
  split; [apply Z.div_pos; lia|apply Z.div_lt_upper_bound; lia].
Qed.

Lemma PTX_mod va : PTX va = (va / 4096) mod 1024.
Proof.
  unfold PTX. change 1023 with (Z.ones 10). by rewrite Z.land_ones, Z.shiftr_div_pow2 by lia.
Qed.

Lemma PGROUNDDOWN_eq a : PGROUNDDOWN a = a / 4096 * 4096.
Proof.
  unfold PGROUNDDOWN, PGSIZE. rewrite land_not_4095. pose proof (Z.div_mod a 4096). lia.
Qed.

(** ** Representation *)
Section Uvm.
Context {Lay : Layout}.

(** The entry for virtual page [n]. *)
Definition pt (m : gmap Z Z) (tabs : gmap Z Z) (n : Z) : Z :=
  match tabs !! (n / 1024) with
  | Some t => word_at m (t + 4 * (n mod 1024))
  | None => 0
  end.

Definition values (g : gmap Z Z) : list Z := (map_to_list g).*2.

(** Page directory [d] with the page tables [tabs], next to the free list [l]. *)
Record vm_ok (s : kstate) (l : list Z) (d : Z) (tabs : gmap Z Z) : Prop := {
  vk_free : kmem_rep s l;
  vk_lock : KmemLock ∉ held s;
  vk_dir : page d;
  vk_tab : forall i t, tabs !! i = Some t -> 0 <= i < 1024 /\ page t;
  vk_pde : forall i, 0 <= i < 1024 ->
    word_at (mem s) (d + 4 * i) = match tabs !! i with Some t => v2p t + 7 | None => 0 end;
  vk_nodup : NoDup (d :: values tabs ++ l)
}.

(** Nothing but memory and the allocator changed. *)
Definition vm_frame (s s' : kstate) : Prop := s' = set_mem (mem s') (set_kmem (kmem s') s).

(** Memory is the same outside the pages [ps]. *)
Definition same_outside (ps : list Z) (m m' : gmap Z Z) : Prop :=
  forall a, (forall p, p ∈ ps -> ~ p <= a < p + 4096) -> m' !! a = m !! a.

(** ** Lemmas on pages *)
Lemma page_word p q i j :
  page p -> page q -> 0 <= i < 1024 -> 0 <= j < 1024 -> p + 4 * i = q + 4 * j -> p = q /\ i = j.
Proof.
  intros [Hp _] [Hq _] Hi Hj E. unfold PGSIZE in *.
  assert ((p + 4 * i) mod 4096 = (q + 4 * j) mod 4096) as Em by (by rewrite E).
  rewrite !entry_mod in Em by (done || lia). lia.
Qed.

Lemma page_in p q i : page p -> page q -> 0 <= i < 1024 -> q <= p + 4 * i < q + 4096 -> p = q.
Proof.
  intros [Hp _] [Hq _] Hi H. unfold PGSIZE in *.
  pose proof (Z.div_mod p 4096). pose proof (Z.div_mod q 4096). lia.
Qed.

Lemma page_v2p p : page p -> v2p p = p - KERNBASE /\ v2p p mod 4096 = 0 /\ p2v (v2p p) = p /\ 0 < v2p p < PHYSTOP.
Proof.
  intros [Hp Hr]. pose proof kend_range. unfold v2p, p2v, PGSIZE, KERNBASE, PHYSTOP in *.
  rewrite u32_small by lia. split; [done|]. split; [|split; [rewrite u32_small; lia|lia]].
  change (2 ^ 31) with (524288 * 4096). rewrite Zminus_mod, Hp, Z.mod_mul by lia. done.
Qed.

Lemma pde_present t f : page t -> 0 <= f < 4096 -> PTE_ADDR (v2p t + f) = v2p t /\ p2v (v2p t) = t.
Proof. intros Ht Hf. destruct (page_v2p t Ht) as (_ & Hm & Hv & _). by rewrite entry_addr. Qed.

Lemma values_lookup g i t : g !! i = Some t -> t ∈ values g.
Proof.
  intros H. apply list_elem_of_fmap. exists (i, t). split; [done|]. by apply elem_of_map_to_list.
Qed.

Lemma values_inj g i j t : NoDup (values g) -> g !! i = Some t -> g !! j = Some t -> i = j.
Proof.
  unfold values. intros Hn Hi%elem_of_map_to_list Hj%elem_of_map_to_list.
  apply list_elem_of_lookup in Hi as [x Hx], Hj as [y Hy].
  assert (x = y) as ->; [|congruence].
  eapply NoDup_lookup; [exact Hn|rewrite list_lookup_fmap, Hx|rewrite list_lookup_fmap, Hy]; done.
Qed.

Lemma values_insert g i t : g !! i = None -> values (<[i := t]> g) ≡ₚ t :: values g.
Proof. intros H. unfold values. by rewrite map_to_list_insert. Qed.

Lemma word_at_same ps m m' p i :
  same_outside ps m m' -> page p -> 0 <= i < 1024 -> (forall q, q ∈ ps -> page q) -> p ∉ ps ->
  word_at m' (p + 4 * i) = word_at m (p + 4 * i).
Proof.
  intros H Hp Hi Hps Hn. unfold word_at. rewrite H; [done|]. intros q Hq Hin.
  assert (p = q) as -> by (eapply page_in; eauto). done.
Qed.

Lemma same_outside_trans ps qs m1 m2 m3 :
  same_outside ps m1 m2 -> same_outside qs m2 m3 -> same_outside (ps ++ qs) m1 m3.
Proof. intros H1 H2 a Ha. rewrite H2, H1; [done|set_solver|set_solver]. Qed.

Lemma same_outside_weaken ps qs m m' :
  same_outside ps m m' -> (forall p, p ∈ ps -> p ∈ qs) -> same_outside qs m m'.
Proof. intros H Hs a Ha. apply H. intros p Hp. by apply Ha, Hs. Qed.

Lemma vm_frame_trans s1 s2 s3 : vm_frame s1 s2 -> vm_frame s2 s3 -> vm_frame s1 s3.
Proof. unfold vm_frame. intros H1 H2. rewrite H2, H1. by destruct s1, s2, s3. Qed.

(** ** walkpgdir *)
Lemma dir_index va : 0 <= va < 2 ^ 32 -> 0 <= va / 4096 / 1024 < 1024.
Proof.
  intros H. split; [apply Z.div_pos; [apply Z.div_pos|]; lia|].
  do 2 (apply Z.div_lt_upper_bound; [lia|]). lia.
Qed.

Lemma walk_present s l d tabs va alloc t :
  vm_ok s l d tabs -> 0 <= va < 2 ^ 32 -> tabs !! (va / 4096 / 1024) = Some t ->
  runs (walkpgdir d va alloc) s (t + 4 * ((va / 4096) mod 1024)) s.
Proof.
  intros V Hva Ht e. destruct (vk_tab _ _ _ _ V _ _ Ht) as [Hi Hp].
  unfold walkpgdir, bind at 1, load at 1, gets.
  rewrite PDX_div, (vk_pde _ _ _ _ V), Ht by done.
  destruct (page_v2p t Hp) as (_ & Hm & Hv & _). rewrite entry_has by done.
  change (has 7 PTE_P) with true. by rewrite entry_addr, Hv, PTX_mod.
Qed.

Lemma walk_absent s l d tabs va :
  vm_ok s l d tabs -> 0 <= va < 2 ^ 32 -> tabs !! (va / 4096 / 1024) = None ->
  runs (walkpgdir d va false) s 0 s.
Proof.
  intros V Hva Ht e. unfold walkpgdir, bind at 1, load at 1, gets.
  rewrite PDX_div, (vk_pde _ _ _ _ V), Ht by (done || by apply dir_index). done.
Qed.

(** The state after [walkpgdir] has taken page [t] as a page table. *)
Definition add_table (d i t : Z) (s : kstate) : kstate :=
  set_mem (<[d + 4 * i := v2p t + 7]> (fill_words t 0 1024 (mem s))) (popped s).

Lemma walk_alloc s l d tabs va t :
  vm_ok s (t :: l) d tabs -> 0 <= va < 2 ^ 32 -> tabs !! (va / 4096 / 1024) = None ->
  runs (walkpgdir d va true) s (t + 4 * ((va / 4096) mod 1024)) (add_table d (va / 4096 / 1024) t s).
Proof.
  intros V Hva Ht e. pose proof (vk_free _ _ _ _ V) as Hk.
  destruct (kalloc_spec s _ Hk) as [_ Hf]. cbn in Hf.
  assert (page t) as Hp by (eapply free_list_pages; [apply Hk|by left]).
  pose proof (dir_index va Hva) as Hi.
  unfold walkpgdir, bind at 1, load at 1, gets.
  rewrite PDX_div, (vk_pde _ _ _ _ V), Ht by done.
  change (has 0 PTE_P) with false. cbn [negb]. unfold bind at 1.
  rewrite kalloc_runs by apply V. rewrite Hf.
  destruct (page_v2p t Hp) as (_ & Hm & _ & Hr).
  rewrite (proj2 (Z.eqb_neq t 0)) by (pose proof (page_pos t Hp); lia).
  unfold bind at 1, fill_page, modify. unfold bind at 1, store, modify. unfold ret.
  rewrite PTX_mod. f_equal. unfold add_table. rewrite Z.mul_0_l.
  replace (u32 (Z.lor (Z.lor (Z.lor (v2p t) PTE_P) PTE_W) PTE_U)) with (v2p t + 7); [by destruct s|].
  rewrite <- !Z.lor_assoc. change (Z.lor PTE_P (Z.lor PTE_W PTE_U)) with 7.
  rewrite lor_aligned by done. rewrite u32_small; [done|]. unfold PHYSTOP in Hr. lia.
Qed.

Lemma walk_alloc_none s d tabs va :
  vm_ok s [] d tabs -> 0 <= va < 2 ^ 32 -> tabs !! (va / 4096 / 1024) = None ->
  runs (walkpgdir d va true) s 0 (popped s) /\ vm_ok (popped s) [] d tabs.
Proof.
  intros V Hva Ht. pose proof (vk_free _ _ _ _ V) as Hk.
  destruct (kalloc_spec s _ Hk) as [Hk' Hf]. cbn in Hf.
  pose proof (dir_index va Hva) as Hi.
  split.
  - intros e. unfold walkpgdir, bind at 1, load at 1, gets.
    rewrite PDX_div, (vk_pde _ _ _ _ V), Ht by done.
    change (has 0 PTE_P) with false. cbn [negb]. unfold bind at 1.
    rewrite kalloc_runs by apply V. by rewrite Hf.
  - destruct V. by split.
Qed.

(** ** Changing one entry, adding a table *)
Lemma vm_ok_pages s l d tabs p :
  vm_ok s l d tabs -> p ∈ d :: values tabs ++ l -> page p.
Proof.
  intros V Hp. apply elem_of_cons in Hp as [->|Hp]; [apply V|].
  apply elem_of_app in Hp as [Hp|Hp].
  - unfold values in Hp. apply list_elem_of_fmap in Hp as ([i t] & -> & Hit%elem_of_map_to_list).
    by apply (vk_tab _ _ _ _ V i).
  - eapply free_list_pages; [apply V|done].
Qed.

Lemma word_at_insert m a v b : word_at (<[a := v]> m) b = if decide (a = b) then v else word_at m b.
Proof. unfold word_at. rewrite lookup_insert. by case_decide. Qed.

Lemma vm_ok_mem s l d tabs ps m' :
  vm_ok s l d tabs -> same_outside ps (mem s) m' -> (forall p, p ∈ ps -> page p) ->
  d ∉ ps -> (forall p, p ∈ l -> p ∉ ps) -> vm_ok (set_mem m' s) l d tabs.
Proof.
  intros V Hs Hps Hd Hl. pose proof V as [[A A'] B C D E F]. split; try done.
  - split; [|done]. cbn. apply (free_list_ext (mem s)); [|done]. intros v Hv. apply Hs.
    intros p Hp Hin. assert (v = p) as ->; [|by apply (Hl p)].
    apply (page_in v p 0); [by eapply free_list_pages|by apply Hps|lia|lia].
  - intros i Hi. cbn [mem set_mem]. by rewrite (word_at_same ps (mem s)), E.
Qed.

Lemma pt_same s l d tabs ps m' n :
  vm_ok s l d tabs -> same_outside ps (mem s) m' -> (forall p, p ∈ ps -> page p) ->
  (forall p, p ∈ values tabs -> p ∉ ps) -> pt m' tabs n = pt (mem s) tabs n.
Proof.
  intros V Hs Hps Ht. unfold pt. destruct (tabs !! (n / 1024)) as [t|] eqn:E; [|done].
  apply (word_at_same ps); [done|by apply (vk_tab _ _ _ _ V (n / 1024))|by apply Z.mod_pos_bound|done|].
  apply Ht. by eapply values_lookup.
Qed.

Lemma insert_same p i v m : 0 <= i < 1024 -> same_outside [p] m (<[p + 4 * i := v]> m).
Proof. intros Hi a Ha. apply lookup_insert_ne. intros <-. apply (Ha p); [by left|lia]. Qed.

Lemma fill_same p w m : same_outside [p] m (fill_words p w 1024 m).
Proof.
  intros a Ha. apply fill_words_other. intros i Hi ->. apply (Ha p); [by left|lia].
Qed.

Lemma fill_word p w k i m :
  (i < k)%nat -> word_at (fill_words p w k m) (p + 4 * Z.of_nat i) = w.
Proof.
  unfold fill_words. induction k as [|k IH]; intros Hi; [lia|].
  rewrite seq_S, foldl_snoc, word_at_insert. case_decide; [done|]. apply IH.
  assert (i <> k) by (intros ->; done). lia.
Qed.

(** Storing entry [e] of page [n]. *)
Lemma store_entry s l d tabs t n e :
  vm_ok s l d tabs -> 0 <= n -> tabs !! (n / 1024) = Some t ->
  let m' := <[t + 4 * (n mod 1024) := e]> (mem s) in
  vm_ok (set_mem m' s) l d tabs /\
  forall n', 0 <= n' -> pt m' tabs n' = if decide (n' = n) then e else pt (mem s) tabs n'.
Proof.
  intros V Hn Ht m'. destruct (vk_tab _ _ _ _ V _ _ Ht) as [Hi Hp].
  assert (0 <= n mod 1024 < 1024) as Hm by (by apply Z.mod_pos_bound).
  pose proof (vk_nodup _ _ _ _ V) as Hnd. pose proof (values_lookup _ _ _ Ht) as Hv.
  apply list.NoDup_cons in Hnd as [Hd Hnd]. apply list.NoDup_app in Hnd as (Hn1 & Hn2 & _).
  split.
  - apply (vm_ok_mem s l d tabs [t]); [done|by apply insert_same|set_solver|set_solver|set_solver].
  - intros n' Hn'. unfold pt. assert (0 <= n' mod 1024 < 1024) by (by apply Z.mod_pos_bound).
    case_decide as Hd'.
    + subst n'. rewrite Ht. unfold m'. by rewrite word_at_insert, decide_True.
    + destruct (tabs !! (n' / 1024)) as [t'|] eqn:E; [|done]. unfold m'.
      rewrite word_at_insert, decide_False; [done|]. intros Eq.
      destruct (vk_tab _ _ _ _ V _ _ E) as [_ Hp'].
      apply page_word in Eq as [-> Em]; [|done..].
      pose proof (values_inj _ _ _ _ Hn1 Ht E) as Ed.
      pose proof (Z.div_mod n 1024). pose proof (Z.div_mod n' 1024). lia.
Qed.

(** A new page table has no entries. *)
Lemma add_table_ok s l d tabs t i :
  vm_ok s (t :: l) d tabs -> 0 <= i < 1024 -> tabs !! i = None ->
  vm_ok (add_table d i t s) l d (<[i := t]> tabs) /\
  same_outside [d; t] (mem s) (mem (add_table d i t s)) /\
  forall n, 0 <= n -> pt (mem (add_table d i t s)) (<[i := t]> tabs) n = pt (mem s) tabs n.
Proof.
  intros V Hi Ht. pose proof V as [A B C D E F].
  assert (page t) as Hp by (eapply (vm_ok_pages _ _ _ _ _ V); set_solver).
  assert (same_outside [t] (mem s) (fill_words t 0 1024 (mem s))) as Hf by apply fill_same.
  assert (same_outside [d; t] (mem s) (mem (add_table d i t s))) as Hs.
  { apply (same_outside_weaken ([t] ++ [d])); [|set_solver].
    eapply same_outside_trans; [exact Hf|]. by apply insert_same. }
  apply list.NoDup_cons in F as [F1 F2]. apply list.NoDup_app in F2 as (F2 & F3 & F4).
  apply list.NoDup_cons in F4 as [F4 F5].
  destruct (kalloc_spec s _ A) as [[Hfl _] _]. cbn [tail] in Hfl.
  split; [split|split; [done|]].
  - split; [|done]. change (kmem (add_table d i t s)) with (kmem (popped s)).
    apply (free_list_ext (mem (popped s))); [|done]. intros v Hv. apply Hs. intros p Hpin Hin.
    assert (v = p) as ->; [|set_solver].
    apply (page_in v p 0); [by eapply free_list_pages| |lia|lia].
    apply elem_of_cons in Hpin as [->|Hpin]; [done|]. by apply list_elem_of_singleton in Hpin as ->.
  - done.
  - done.
  - intros j t' [[-> ->]|[Hne Hj]]%lookup_insert_Some; [done|by apply D].
  - intros j Hj. cbn [mem add_table set_mem]. rewrite word_at_insert.
    destruct (decide (j = i)) as [->|Hne].
    + rewrite decide_True by done. by rewrite lookup_insert_eq.
    + rewrite decide_False by lia. rewrite lookup_insert_ne by done.
      rewrite (word_at_same [t] (mem s)); [by apply E|done|done|done|set_solver|set_solver].
  - rewrite values_insert by done. cbn [app]. rewrite Permutation_middle. apply V.
  - intros n Hn. unfold pt. destruct (decide (n / 1024 = i)) as [<-|Hne].
    + rewrite lookup_insert_eq, Ht. cbn [mem add_table set_mem].
      assert (0 <= n mod 1024 < 1024) by (by apply Z.mod_pos_bound).
      rewrite word_at_insert, decide_False.
      * rewrite <- (Z2Nat.id (n mod 1024)) by lia. apply fill_word. lia.
      * intros Eq. apply page_word in Eq as [-> _]; [set_solver|done..].
    + rewrite lookup_insert_ne by done. destruct (tabs !! (n / 1024)) as [t'|] eqn:Et; [|done].
      pose proof (values_lookup _ _ _ Et). apply (word_at_same [d; t]); [done|by eapply D| | |].
      * by apply Z.mod_pos_bound.
      * set_solver.
      * set_solver.
Qed.

(** ** mappages *)

(** [s'] has more page tables than [s], taken from the free list; nothing but
    the directory and the tables has changed. *)
Record extended (d : Z) (s : kstate) (l : list Z) (tabs : gmap Z Z)
    (s' : kstate) (l' : list Z) (tabs' : gmap Z Z) : Prop := {
  ex_ok : vm_ok s' l' d tabs';
  ex_used : exists used, l = used ++ l' /\ values tabs' ≡ₚ used ++ values tabs;
  ex_sub : tabs ⊆ tabs';
  ex_frame : vm_frame s s';
  ex_mem : same_outside (d :: values tabs') (mem s) (mem s')
}.

Lemma extended_refl d s l tabs : vm_ok s l d tabs -> extended d s l tabs s l tabs.
Proof. intros V. split; [done|by exists []|done|by destruct s|done]. Qed.

Lemma extended_trans d s l tabs s1 l1 tabs1 s2 l2 tabs2 :
  extended d s l tabs s1 l1 tabs1 -> extended d s1 l1 tabs1 s2 l2 tabs2 ->
  extended d s l tabs s2 l2 tabs2.
Proof.
  intros [A1 (u1 & -> & B1) C1 D1 E1] [A2 (u2 & -> & B2) C2 D2 E2]. split.
  - done.
  - exists (u1 ++ u2). split; [by rewrite app_assoc|]. rewrite B2, B1. solve_Permutation.
  - by etrans.
  - by eapply vm_frame_trans.
  - eapply same_outside_weaken; [by eapply same_outside_trans|]. intros p. rewrite B2. set_solver.
Qed.

(** The page tables that mapping the [k] pages from [n] takes, when those with
    an index in [I] exist. *)
Fixpoint tables_needed (I : gset Z) (n : Z) (k : nat) : nat :=
  match k with
  | O => 0
  | S k' =>
      if decide (n / 1024 ∈ I) then tables_needed I (n + 1) k'
      else S (tables_needed ({[n / 1024]} ∪ I) (n + 1) k')
  end.

(** The first part of a pass: the table for page [n] is there. *)
Lemma walk_ensures s l d tabs n :
  vm_ok s l d tabs -> 0 <= n < 2 ^ 20 -> (tables_needed (dom tabs) n 1 <= length l)%nat ->
  exists t s' l' tabs', runs (walkpgdir d (n * 4096) true) s (t + 4 * (n mod 1024)) s' /\
    extended d s l tabs s' l' tabs' /\ tabs' !! (n / 1024) = Some t /\
    dom tabs' = {[n / 1024]} ∪ dom tabs /\
    length l = (tables_needed (dom tabs) n 1 + length l')%nat /\
    forall n', 0 <= n' -> pt (mem s') tabs' n' = pt (mem s) tabs n'.
Proof.
  intros V Hn Hl. cbn [tables_needed] in Hl.
  assert (0 <= n * 4096 < 2 ^ 32) as Hva by lia.
  assert (n * 4096 / 4096 = n) as Hd by (by apply Z.div_mul).
  destruct (tabs !! (n / 1024)) as [t|] eqn:Et.
  - exists t, s, l, tabs. split.
    { rewrite <- Hd at 2. apply (walk_present s l d tabs); [done|done|by rewrite Hd]. }
    split; [by apply extended_refl|]. assert (n / 1024 ∈ dom tabs) by (by apply elem_of_dom_2 in Et).
    split; [done|]. split; [set_solver|]. split; [|done]. cbn. by case_decide.
  - assert (n / 1024 ∉ dom tabs) by (by apply not_elem_of_dom).
    assert (tables_needed (dom tabs) n 1 = 1%nat) as -> by (cbn; by case_decide).
    destruct l as [|t l]; [case_decide; [done|cbn in Hl; lia]|].
    assert (0 <= n / 1024 < 1024) as Hi.
    { split; [by apply Z.div_pos; lia|]. apply Z.div_lt_upper_bound; lia. }
    destruct (add_table_ok s l d tabs t (n / 1024) V Hi Et) as (V' & Hs & Hpt).
    exists t, (add_table d (n / 1024) t s), l, (<[n / 1024 := t]> tabs). split.
    { rewrite <- Hd at 2 3. apply (walk_alloc s l d tabs); [done|done|by rewrite Hd]. }
    split; [split|].
    + done.
    + exists [t]. split; [done|]. by rewrite values_insert.
    + by apply insert_subseteq.
    + unfold vm_frame. by destruct s.
    + eapply same_outside_weaken; [exact Hs|]. intros p. rewrite values_insert by done. set_solver.
    + split; [apply lookup_insert_eq|]. split; [by rewrite dom_insert_L|]. done.
Qed.

Lemma mk_pte_range pa perm :
  pa mod 4096 = 0 -> 0 <= pa < 2 ^ 32 -> 0 <= perm < 4096 -> u32 (mk_pte pa perm) = mk_pte pa perm.
Proof.
  intros Hm Hpa Hperm. rewrite mk_pte_eq by done. apply u32_small.
  pose proof (Z.add_lor_land perm 1). assert (0 <= Z.land perm 1) by (apply Z.land_nonneg; lia).
  assert (0 <= Z.lor perm 1) by (apply Z.lor_nonneg; lia).
  pose proof (Z.div_mod pa 4096). assert (pa / 4096 < 2 ^ 20) by (apply Z.div_lt_upper_bound; lia).
  destruct (decide (perm = 4095)) as [->|]; [|lia].
  change (Z.lor 4095 1) with 4095. lia.
Qed.

(** One pass: page [n] gets its entry. *)
Lemma map_one s l d tabs n e :
  vm_ok s l d tabs -> 0 <= n < 2 ^ 20 -> (tables_needed (dom tabs) n 1 <= length l)%nat ->
  exists t s1 s' l' tabs', runs (walkpgdir d (n * 4096) true) s (t + 4 * (n mod 1024)) s1 /\
    word_at (mem s1) (t + 4 * (n mod 1024)) = pt (mem s) tabs n /\ t <> 0 /\ 0 <= t /\
    s' = set_mem (<[t + 4 * (n mod 1024) := e]> (mem s1)) s1 /\
    extended d s l tabs s' l' tabs' /\ dom tabs' = {[n / 1024]} ∪ dom tabs /\
    length l = (tables_needed (dom tabs) n 1 + length l')%nat /\
    forall n', 0 <= n' -> pt (mem s') tabs' n' = if decide (n' = n) then e else pt (mem s) tabs n'.
Proof.
  intros V Hn Hl. destruct (walk_ensures s l d tabs n V Hn Hl)
    as (t & s1 & l' & tabs' & R & X & Ht & Hdom & Hlen & Hpt).
  destruct (store_entry s1 l' d tabs' t n e (ex_ok _ _ _ _ _ _ _ X)) as [V' Hpt']; [lia|done|].
  destruct (vk_tab _ _ _ _ (ex_ok _ _ _ _ _ _ _ X) _ _ Ht) as [_ Hp]. pose proof (page_pos t Hp).
  do 5 eexists. split; [exact R|]. split.
  { rewrite <- Hpt by lia. unfold pt. by rewrite Ht. }
  split; [lia|]. split; [lia|]. split; [done|]. split; [|split; [done|split; [done|]]].
  - eapply extended_trans; [exact X|]. split.
    + exact V'.
    + by exists [].
    + done.
    + by destruct s1.
    + eapply same_outside_weaken; [apply insert_same; by apply Z.mod_pos_bound|].
      pose proof (values_lookup _ _ _ Ht). set_solver.
  - intros n' Hn'. cbn [mem set_mem]. rewrite Hpt' by done. by rewrite Hpt.
Qed.

(** The entry of page [j] after mapping [k] pages from [n] to [pa]. *)
Definition mapped_pt (n k pa perm : Z) (old : Z -> Z) (j : Z) : Z :=
  if decide (n <= j < n + k) then mk_pte (pa + (j - n) * 4096) perm else old j.

Lemma tables_needed_S I n k :
  tables_needed I n (S k) =
    Nat.add (tables_needed I n 1) (tables_needed ({[n / 1024]} ∪ I) (n + 1) k).
Proof.
  cbn [tables_needed]. case_decide as H; [|done]. by replace ({[n / 1024]} ∪ I) with I by set_solver.
Qed.

Lemma mappages_loop_spec k : forall s l d tabs n pa perm,
  vm_ok s l d tabs -> 0 <= n -> n + Z.of_nat (S k) <= 2 ^ 20 ->
  (forall j, n <= j < n + Z.of_nat (S k) -> pt (mem s) tabs j = 0) ->
  (tables_needed (dom tabs) n (S k) <= length l)%nat ->
  pa mod 4096 = 0 -> 0 <= pa -> pa + Z.of_nat k * 4096 < 2 ^ 32 -> 0 <= perm < 4096 ->
  wp (mappages_loop k d (n * 4096) ((n + Z.of_nat k) * 4096) pa perm) s (fun r s' =>
    r = 0 /\ exists l' tabs', extended d s l tabs s' l' tabs' /\
      length l = (tables_needed (dom tabs) n (S k) + length l')%nat /\
      forall j, 0 <= j -> pt (mem s') tabs' j = mapped_pt n (Z.of_nat (S k)) pa perm (pt (mem s) tabs) j).
Proof.
  induction k as [|k IH]; intros s l d tabs n pa perm V Hn Hend Hz Hl Hm Hpa Hpae Hperm;
    (destruct (map_one s l d tabs n (mk_pte pa perm) V) as
      (t & s1 & s' & l' & tabs' & R & Hw & Ht & Ht' & Es & X & Hdom & Hlen & Hpt);
      [lia|rewrite tables_needed_S in Hl; lia|]); cbn [mappages_loop];
    (eapply wp_bind_runs; [exact R|]);
    assert (0 <= n mod 1024) by (by apply Z.mod_pos_bound);
    rewrite (proj2 (Z.eqb_neq (t + 4 * (n mod 1024)) 0)) by lia;
    apply wp_bind, wp_gets; rewrite Hw, Hz by lia; cbn [Z.eqb negb];
    change (has 0 PTE_P) with false; cbv iota;
    apply wp_bind, wp_modify; fold (mk_pte pa perm); rewrite mk_pte_range by (done || lia);
    rewrite <- Es.
  - rewrite Z.add_0_r, Z.eqb_refl. apply wp_ret. split; [done|]. exists l', tabs'. split; [done|].
    split; [done|]. intros j Hj. rewrite Hpt by done. unfold mapped_pt. 
    case_decide as Hd; [|by rewrite decide_False by lia]. rewrite decide_True by lia. subst j.
    by rewrite Z.sub_diag, Z.mul_0_l, Z.add_0_r.
  - rewrite (proj2 (Z.eqb_neq (n * 4096) _)) by lia.
    rewrite (u32_small (n * 4096 + PGSIZE)), (u32_small (pa + PGSIZE)) by (unfold PGSIZE; lia).
    replace (n * 4096 + PGSIZE) with ((n + 1) * 4096) by (unfold PGSIZE; lia).
    replace ((n + Z.of_nat (S k)) * 4096) with ((n + 1 + Z.of_nat k) * 4096) by lia.
    rewrite tables_needed_S in Hl.
    eapply wp_mono; [apply (IH s' l' d tabs' (n + 1) (pa + PGSIZE) perm)|].
    + apply X.
    + lia.
    + lia.
    + intros j Hj. rewrite Hpt by lia. rewrite decide_False by lia. apply Hz. lia.
    + rewrite Hdom. lia.
    + unfold PGSIZE. rewrite Z.add_mod, Hm by lia. done.
    + unfold PGSIZE. lia.
    + unfold PGSIZE. lia.
    + done.
    + intros r s2 (-> & l2 & tabs2 & X2 & Hlen2 & Hpt2). split; [done|].
      exists l2, tabs2. split; [by eapply extended_trans|]. rewrite Hdom in Hlen2.
      rewrite tables_needed_S. split; [lia|]. intros j Hj. rewrite Hpt2 by done.
      unfold mapped_pt, PGSIZE. rewrite Hpt by done.
      repeat case_decide; try lia; f_equal; lia.
Qed.

(** [mappages] of [k] pages from page [n]. *)
Lemma mappages_spec s l d tabs n k pa perm :
  vm_ok s l d tabs -> 0 <= n -> (0 < k)%nat -> n + Z.of_nat k <= 2 ^ 20 ->
  (forall j, n <= j < n + Z.of_nat k -> pt (mem s) tabs j = 0) ->
  (tables_needed (dom tabs) n k <= length l)%nat ->
  pa mod 4096 = 0 -> 0 <= pa -> pa + Z.of_nat k * 4096 <= 2 ^ 32 -> 0 <= perm < 4096 ->
  wp (mappages d (n * 4096) (Z.of_nat k * 4096) pa perm) s (fun r s' =>
    r = 0 /\ exists l' tabs', extended d s l tabs s' l' tabs' /\
      length l = (tables_needed (dom tabs) n k + length l')%nat /\
      forall j, 0 <= j -> pt (mem s') tabs' j = mapped_pt n (Z.of_nat k) pa perm (pt (mem s) tabs) j).
Proof.
  intros V Hn Hk Hend Hz Hl Hm Hpa Hpae Hperm. destruct k as [|k]; [lia|].
  unfold mappages. rewrite !PGROUNDDOWN_eq, Z.div_mul by done.
  rewrite (u32_small (n * 4096 + _ - 1)) by lia.
  replace ((n * 4096 + Z.of_nat (S k) * 4096 - 1) / 4096) with (n + Z.of_nat k).
  2: { apply (Z.div_unique _ _ _ 4095); lia. }
  replace (Z.to_nat (u32 ((n + Z.of_nat k) * 4096 - n * 4096) / PGSIZE)) with k.
  2: { rewrite u32_small by lia. replace ((n + Z.of_nat k) * 4096 - n * 4096) with (Z.of_nat k * PGSIZE)
         by (unfold PGSIZE; lia). rewrite Z.div_mul by done. lia. }
  apply mappages_loop_spec; (done || lia).
Qed.

Lemma tables_needed_bound k : forall I n,
  Z.of_nat (tables_needed I n (S k)) <=
    (n + Z.of_nat k) / 1024 - n / 1024 + (if decide (n / 1024 ∈ I) then 0 else 1).
Proof.
  induction k as [|k IH]; intros I n; rewrite tables_needed_S;
    (assert (tables_needed I n 1 = if decide (n / 1024 ∈ I) then 0%nat else 1%nat) as ->
       by (cbn; by case_decide)).
  - cbn [tables_needed]. rewrite Z.add_0_r. case_decide; lia.
  - specialize (IH ({[n / 1024]} ∪ I) (n + 1)). rewrite Nat2Z.inj_add.
    replace (n + 1 + Z.of_nat k) with (n + Z.of_nat (S k)) in IH by lia.
    assert ((n + 1) / 1024 = n / 1024 \/ (n + 1) / 1024 = n / 1024 + 1) as [E|E].
    { pose proof (Z.div_mod n 1024 ltac:(lia)). pose proof (Z.div_mod (n + 1) 1024 ltac:(lia)).
      pose proof (Z.mod_pos_bound n 1024 eq_refl).
      pose proof (Z.mod_pos_bound (n + 1) 1024 eq_refl). lia. }
    + rewrite E in IH. rewrite decide_True in IH by set_solver. case_decide; lia.
    + repeat case_decide; lia.
Qed.

Lemma tables_needed_le I n k :
  (0 < k)%nat -> Z.of_nat (tables_needed I n k) <= (n + Z.of_nat k - 1) / 1024 - n / 1024 + 1.
Proof.
  intros Hk. destruct k as [|k]; [lia|]. pose proof (tables_needed_bound k I n) as H.
  replace (n + Z.of_nat (S k) - 1) with (n + Z.of_nat k) by lia. case_decide; lia.
Qed.

(** A zeroed page is an empty directory. *)
Lemma new_dir s l d :
  kmem_rep s (d :: l) -> KmemLock ∉ held s ->
  exists s', runs (do kalloc; fill_page d 0) s tt s' /\ runs kalloc s d (popped s) /\
    s' = set_mem (fill_words d 0 1024 (mem s)) (popped s) /\ vm_ok s' l d ∅ /\
    vm_frame s s' /\ same_outside [d] (mem s) (mem s') /\ page d.
Proof.
  intros Hk Hh. destruct (kalloc_spec s _ Hk) as [[Hl Hn] Hf]. cbn [tail head default from_option] in *.
  pose proof (kr_nodup _ _ Hk) as [Hd _]%list.NoDup_cons.
  assert (page d) as Hp by (eapply free_list_pages; [apply Hk|by left]).
  eexists. split; [|split; [rewrite <- Hf at 1; by apply kalloc_runs|split; [reflexivity|]]].
  { intros e. unfold bind, fill_page, modify. rewrite kalloc_runs by done. by destruct s. }
  split; [|split; [by destruct s|split; [cbn [mem set_mem]; apply fill_same|done]]]. split.
  - split; [|done]. apply (free_list_ext (mem (popped s))); [|exact Hl]. intros v Hv.
    cbn [mem set_mem popped set_kmem]. apply fill_same.
    intros p ->%list_elem_of_singleton Hin. assert (v = d) as ->; [|done].
    apply (page_in v d 0); [by eapply free_list_pages|done|lia|lia].
  - done.
  - done.
  - intros i t H. by rewrite lookup_empty in H.
  - intros i Hi. rewrite lookup_empty. cbn [mem set_mem].
    rewrite <- (Z2Nat.id i) by lia. apply fill_word. lia.
  - unfold values. rewrite map_to_list_empty. cbn. by constructor.
Qed.

(** ** The kernel part of an address space *)

(** Page [n] of the kernel: physical memory from KERNBASE on, read-only where
    the kernel's code is, and the devices. *)
Definition kernel_pt (n : Z) : Z :=
  if decide (524288 <= n < 581632) then
    mk_pte ((n - 524288) * 4096) (if decide (524544 <= n < kdata / 4096) then 0 else PTE_W)
  else if decide (1040384 <= n < 1048576) then mk_pte (n * 4096) PTE_W
  else 0.

Lemma setupkvm_step ks d s0 l0 tabs0 s l tabs (f : Z -> Z) n k pa perm virt pstart pend
    (Q : Z -> kstate -> Prop) :
  extended d s0 l0 tabs0 s l tabs -> (forall j, 0 <= j -> pt (mem s) tabs j = f j) ->
  virt = n * 4096 -> u32 (pend - pstart) = k * 4096 -> pstart = pa ->
  0 <= n -> 0 < k -> n + k <= 2 ^ 20 -> (forall j, n <= j < n + k -> f j = 0) ->
  (n + k - 1) / 1024 - n / 1024 + 1 <= Z.of_nat (length l) ->
  pa mod 4096 = 0 -> 0 <= pa -> pa + k * 4096 <= 2 ^ 32 -> 0 <= perm < 4096 ->
  (forall s' l' tabs', extended d s0 l0 tabs0 s' l' tabs' ->
    Z.of_nat (length l) <= (n + k - 1) / 1024 - n / 1024 + 1 + Z.of_nat (length l') ->
    (forall j, 0 <= j -> pt (mem s') tabs' j = mapped_pt n k pa perm f j) ->
    wp (setupkvm_loop ks d) s' Q) ->
  wp (setupkvm_loop (mkKmap virt pstart pend perm :: ks) d) s Q.
Proof.
  intros X Hf -> Hsz -> Hn Hk Hend Hz Hl Hm Hpa Hpae Hperm HQ.
  cbn [setupkvm_loop k_virt k_phys_start k_phys_end k_perm]. rewrite Hsz.
  replace k with (Z.of_nat (Z.to_nat k)) in * by lia. set (kn := Z.to_nat k) in *. clearbody kn.
  pose proof (tables_needed_le (dom tabs) n kn ltac:(lia)) as Hle.
  apply wp_bind. eapply wp_mono; [apply (mappages_spec s l d tabs n kn pa perm); try done; try lia|].
  - apply X.
  - intros j Hj. rewrite Hf by lia. by apply Hz.
  - intros r s' (-> & l' & tabs' & X' & Hlen & Hpt). cbn [Z.ltb Z.compare].
    apply (HQ s' l' tabs'); [by eapply extended_trans|lia|]. intros j Hj. rewrite Hpt by done.
    unfold mapped_pt. case_decide; [done|]. by apply Hf.
Qed.

Lemma kdata_pages : kdata = kdata / 4096 * 4096 /\ 524544 < kdata / 4096 < 581632.
Proof.
  pose proof kdata_page as Hp. pose proof kdata_range as Hr. pose proof kend_range as He.
  unfold PGSIZE, KERNBASE, PHYSTOP in *. pose proof (Z.div_mod kdata 4096 ltac:(lia)). lia.
Qed.

Lemma setupkvm_spec s l d :
  kmem_rep s (d :: l) -> KmemLock ∉ held s -> (66 <= length l)%nat ->
  wp setupkvm s (fun r s' => r = d /\ exists s1 l' tabs, extended d s1 l ∅ s' l' tabs /\
    (length l <= 66 + length l')%nat /\ vm_frame s s1 /\ same_outside [d] (mem s) (mem s1) /\
    forall j, 0 <= j < 2 ^ 20 -> pt (mem s') tabs j = kernel_pt j).
Proof.
  intros Hk Hh Hl. destruct (new_dir s l d Hk Hh) as (s1 & _ & R & -> & V & F & Hs & Hp).
  set (s1 := set_mem _ _) in *. unfold setupkvm. eapply wp_bind_runs; [exact R|].
  pose proof (page_pos d Hp) as [Hd0 _]. rewrite (proj2 (Z.eqb_neq d 0)) by done.
  apply wp_bind, wp_modify. rewrite Z.mul_0_l. change (mem (popped s)) with (mem s).
  fold s1. clearbody s1. change (DEVSPACE <? p2v PHYSTOP) with false. cbv iota.
  destruct kdata_pages as [Hkd Hkr]. set (kd := kdata / 4096) in *.
  assert (v2p kdata = (kd - 524288) * 4096) as Hvk.
  { unfold v2p, KERNBASE. rewrite Hkd, u32_small; lia. }
  assert (kd / 1024 < 568) by (apply Z.div_lt_upper_bound; lia).
  assert ((kd - 1) / 1024 <= kd / 1024) by (apply Z.div_le_mono; lia).
  assert (512 <= (kd - 1) / 1024) by (apply Z.div_le_lower_bound; lia).
  unfold kmaps.
  eapply (setupkvm_step _ d s1 l ∅ s1 l ∅ (fun _ => 0) 524288 256 0 PTE_W);
    [by apply extended_refl|done|done|done|done|lia|lia|lia|done| |done|lia|lia|done|];
    change ((524288 + 256 - 1) / 1024 - 524288 / 1024 + 1) with 1; [lia|]. intros s2 l2 tabs2 X2 L2 P2.
  eapply (setupkvm_step _ d s1 l ∅ s2 l2 tabs2 _ 524544 (kd - 524544) 1048576 0);
    [exact X2|exact P2|done| |done|lia|lia|lia| | |done|lia|lia|done|];
    replace (524544 + (kd - 524544) - 1) with (kd - 1) by lia; change (524544 / 1024) with 512.
  { rewrite Hvk. change (v2p KERNLINK) with 1048576. rewrite u32_small; lia. }
  { intros j Hj. unfold mapped_pt. by rewrite decide_False by lia. }
  { lia. }
  intros s3 l3 tabs3 X3 L3 P3.
  eapply (setupkvm_step _ d s1 l ∅ s3 l3 tabs3 _ kd (581632 - kd) (v2p kdata) PTE_W);
    [exact X3|exact P3|done| |done|lia|lia|lia| | | |lia|lia|done|];
    replace (kd + (581632 - kd) - 1) with 581631 by lia; change (581631 / 1024) with 567.
  { rewrite Hvk. unfold PHYSTOP. rewrite u32_small; lia. }
  { intros j Hj. unfold mapped_pt. by rewrite !decide_False by lia. }
  { lia. }
  { rewrite Hvk. by apply Z.mod_mul. }
  intros s4 l4 tabs4 X4 L4 P4.
  eapply (setupkvm_step _ d s1 l ∅ s4 l4 tabs4 _ 1040384 8192 DEVSPACE PTE_W);
    [exact X4|exact P4|done|done|done|lia|lia|lia| | |done|done|done|done|];
    change ((1040384 + 8192 - 1) / 1024 - 1040384 / 1024 + 1) with 8.
  { intros j Hj. unfold mapped_pt. by rewrite !decide_False by lia. }
  { lia. }
  intros s5 l5 tabs5 X5 L5 P5. cbn [setupkvm_loop]. apply wp_ret. split; [done|].
  exists s1, l5, tabs5. split; [done|]. split; [lia|]. split; [done|]. split; [done|].
  intros j Hj. rewrite P5 by lia. unfold mapped_pt, kernel_pt. fold kd.
  rewrite Hvk. unfold DEVSPACE. repeat case_decide; try lia; try done; f_equal; lia.
Qed.
End Uvm.
