(* ===== verification/Uvm.v ===== *)
(** * User memory

    What vm.c promises about the user part of an address space: growing adds
    zeroed pages and changes none of the old ones, shrinking and freeing give
    exactly the pages of the address space back, and the copy made for a child
    has the same contents in pages of its own. *)

From S2P Require Import Prelude Bytes Cstring Kstate Sync Kalloc Disk Bio Log Fs Vm Pagetable.
Local Open Scope Z_scope.

Section Uvm.
Context {Lay : Layout}.

(** ** User pages *)

(** Page directory [d] with the page tables [tabs], the user pages [us] (page
    number to frame), next to the free list [l]; no page is used twice. *)
Record uvm_ok (s : kstate) (l : list Z) (d : Z) (tabs us : gmap Z Z) : Prop := {
  uk_vm : vm_ok s l d tabs;
  uk_frame : forall n p, us !! n = Some p -> 0 <= n < 2 ^ 19 /\ page p /\
    exists fl, 0 <= fl < 4096 /\ has fl PTE_P = true /\ pt (mem s) tabs n = v2p p + fl;
  uk_none : forall n, 0 <= n < 2 ^ 19 -> us !! n = None -> pt (mem s) tabs n = 0;
  uk_nodup : NoDup (d :: values tabs ++ values us ++ l)
}.

Lemma kmem_rep_mem s l ps m' :
  kmem_rep s l -> same_outside ps (mem s) m' -> (forall p, p ∈ ps -> page p) ->
  (forall p, p ∈ l -> p ∉ ps) -> kmem_rep (set_mem m' s) l.
Proof.
  intros [A B] Hs Hps Hl. split; [|done]. cbn. apply (free_list_ext (mem s)); [|done].
  intros v Hv. apply Hs. intros p Hp Hin. assert (v = p) as ->; [|by apply (Hl p)].
  apply (page_in v p 0); [by eapply free_list_pages|by apply Hps|lia|lia].
Qed.

(** The free page [q] is taken and its contents changed. *)
Lemma take_page s l d tabs us q m' :
  uvm_ok s (q :: l) d tabs us -> same_outside [q] (mem s) m' ->
  let s' := set_mem m' (popped s) in
  uvm_ok s' l d tabs us /\ page q /\ q <> d /\ (q ∉ values tabs) /\ (q ∉ values us) /\ (q ∉ l) /\
  runs kalloc s q (popped s) /\ q <> 0.
Proof.
  intros U Hs s'. pose proof U as [V F N D]. pose proof V as [K L P T E _].
  assert (page q) as Hq by (eapply free_list_pages; [apply K|by left]).
  apply list.NoDup_cons in D as [D1 D2]. apply list.NoDup_app in D2 as (D2 & D3 & D4).
  apply list.NoDup_app in D4 as (D4 & D5 & D6). apply list.NoDup_cons in D6 as [D6 D7].
  destruct (kalloc_spec s _ K) as [K' Hf]. cbn [tail head default from_option] in *.
  assert (forall n, pt m' tabs n = pt (mem s) tabs n) as Hpt.
  { intros n. eapply (pt_same s _ d tabs [q]); [done|done|set_solver|set_solver]. }
  split; [|split; [done|split; [set_solver|split; [set_solver|split; [set_solver|split; [done|]]]]]].
  - split; [split|..].
    + eapply kmem_rep_mem; [exact K'|exact Hs|set_solver|set_solver].
    + done.
    + done.
    + done.
    + intros i Hi. cbn [mem set_mem s']. rewrite (word_at_same [q] (mem s)); [by apply E|done..|set_solver|set_solver].
    + apply list.NoDup_cons. split; [set_solver|]. apply list.NoDup_app. set_solver.
    + intros n p Hn. cbn [mem set_mem s']. rewrite Hpt. by apply F.
    + intros n Hn Hn'. cbn [mem set_mem s']. rewrite Hpt. by apply N.
    + apply list.NoDup_cons. split; [set_solver|]. apply list.NoDup_app. split; [done|]. split; [set_solver|].
      apply list.NoDup_app. set_solver.
  - split; [rewrite <- Hf at 1; by apply kalloc_runs|]. by apply page_pos.
Qed.

Lemma has_present fl : 0 <= fl < 4096 -> has fl PTE_P = true -> Z.lor fl 1 = fl.
Proof.
  intros Hf H. unfold has, PTE_P in H. pose proof (Z.add_lor_land fl 1) as E.
  apply negb_true_iff, Z.eqb_neq in H.
  assert (Z.land fl 1 = fl mod 2) as E2 by (change 1 with (Z.ones 1); by rewrite Z.land_ones).
  pose proof (Z.mod_pos_bound fl 2). lia.
Qed.

Lemma tables_needed_1 I n : (tables_needed I n 1 <= 1)%nat.
Proof. cbn. case_decide; lia. Qed.

(** Mapping the page [q], just taken, as user page [n]. *)
Lemma map_user s l d tabs us n q fl :
  uvm_ok s l d tabs us -> page q -> q <> d -> q ∉ values tabs -> q ∉ values us -> q ∉ l ->
  0 <= n < 2 ^ 19 -> us !! n = None -> 0 <= fl < 4096 ->
  (tables_needed (dom tabs) n 1 <= length l)%nat ->
  wp (mappages d (n * 4096) PGSIZE (v2p q) fl) s (fun r s' => r = 0 /\ exists l' tabs',
    uvm_ok s' l' d tabs' (<[n := q]> us) /\ extended d s l tabs s' l' tabs' /\
    (length l <= 1 + length l')%nat /\
    forall j, 0 <= j -> pt (mem s') tabs' j =
      if decide (j = n) then v2p q + Z.lor fl 1 else pt (mem s) tabs j).
Proof.
  intros U Hq Hqd Hqt Hqu Hql Hn Hu Hfl Hl. pose proof U as [V F N D].
  destruct (page_v2p q Hq) as (_ & Hqm & _ & Hqr). unfold PHYSTOP in Hqr.
  pose proof (tables_needed_1 (dom tabs) n) as Hneed.
  change PGSIZE with (Z.of_nat 1 * 4096).
  eapply wp_mono; [apply (mappages_spec s l d tabs n 1 (v2p q) fl); try done; try lia|].
  { intros j Hj. assert (j = n) as -> by lia. by apply N. }
  intros r s' (-> & l' & tabs' & X & Hlen & Hpt). split; [done|]. exists l', tabs'.
  assert (forall j, 0 <= j -> pt (mem s') tabs' j =
      if decide (j = n) then v2p q + Z.lor fl 1 else pt (mem s) tabs j) as Hpt'.
  { intros j Hj. rewrite Hpt by done. unfold mapped_pt. destruct (decide (j = n)) as [->|].
    - rewrite decide_True by lia. rewrite Z.sub_diag, Z.mul_0_l, Z.add_0_r. by rewrite mk_pte_eq.
    - by rewrite decide_False by lia. }
  split; [|split; [done|split; [lia|done]]].
  destruct (ex_used _ _ _ _ _ _ _ X) as (used & -> & Hval).
  split.
  - apply X.
  - intros j p [[-> ->]|[Hne Hj]]%lookup_insert_Some.
    + split; [done|]. split; [done|]. exists (Z.lor fl 1).
      assert (has (Z.lor fl 1) PTE_P = true) as Hh.
      { unfold has, PTE_P. rewrite Z.land_lor_distr_l. change (Z.land 1 1) with 1.
        apply negb_true_iff, Z.eqb_neq. intros [_ ?]%Z.lor_eq_0_iff. done. }
      assert (0 <= Z.lor fl 1 < 4096) as Hr.
      { pose proof (Z.add_lor_land fl 1). assert (0 <= Z.lor fl 1) by (apply Z.lor_nonneg; lia).
        assert (0 <= Z.land fl 1) by (apply Z.land_nonneg; lia).
        destruct (decide (fl = 4095)) as [->|]; [done|lia]. }
      split; [done|]. split; [done|]. rewrite Hpt' by lia. by rewrite decide_True.
    + destruct (F j p Hj) as (Hj' & Hp & fl' & H1 & H2 & H3). split; [done|]. split; [done|].
      exists fl'. split; [done|]. split; [done|]. rewrite Hpt' by lia. by rewrite decide_False.
  - intros j Hj [Hj' Hne]%lookup_insert_None. rewrite Hpt' by lia. rewrite decide_False by done. by apply N.
  - rewrite Hval, values_insert by done.
    assert (d :: (used ++ values tabs) ++ (q :: values us) ++ l' ≡ₚ q :: d :: values tabs ++ values us ++ used ++ l')
      as -> by solve_Permutation.
    apply list.NoDup_cons. split; [|done]. set_solver.
Qed.

(** ** Growing *)

(** [s'] has more user pages than [s]; only the directory, the tables and pages
    that were free have changed. *)
Record uvm_grows (d : Z) (s : kstate) (l : list Z) (tabs us : gmap Z Z)
    (s' : kstate) (l' : list Z) (tabs' us' : gmap Z Z) : Prop := {
  ug_ok : uvm_ok s' l' d tabs' us';
  ug_sub : us ⊆ us';
  ug_used : exists used, l = used ++ l' /\
    values tabs' ++ values us' ≡ₚ used ++ values tabs ++ values us;
  ug_sub_tabs : tabs ⊆ tabs';
  ug_tabs : forall p, p ∈ values tabs' -> p ∈ values tabs ++ l;
  ug_frame : vm_frame s s';
  ug_mem : same_outside (d :: values tabs ++ l) (mem s) (mem s');
  ug_pt : forall j, 0 <= j -> us' !! j = us !! j -> pt (mem s') tabs' j = pt (mem s) tabs j
}.

Lemma uvm_grows_refl d s l tabs us : uvm_ok s l d tabs us -> uvm_grows d s l tabs us s l tabs us.
Proof.
  intros U. split; try done; [by exists []|set_solver|by destruct s].
Qed.

Lemma map_between (us us1 us2 : gmap Z Z) j :
  us ⊆ us1 -> us1 ⊆ us2 -> us2 !! j = us !! j -> us1 !! j = us !! j.
Proof.
  intros H1 H2 E. destruct (us1 !! j) as [x|] eqn:E1.
  - rewrite <- E. symmetry. by eapply lookup_weaken.
  - destruct (us !! j) as [y|] eqn:E0; [|done].
    by rewrite (lookup_weaken _ _ _ _ E0 H1) in E1.
Qed.

Lemma uvm_grows_trans d s l tabs us s1 l1 tabs1 us1 s2 l2 tabs2 us2 :
  uvm_grows d s l tabs us s1 l1 tabs1 us1 -> uvm_grows d s1 l1 tabs1 us1 s2 l2 tabs2 us2 ->
  uvm_grows d s l tabs us s2 l2 tabs2 us2.
Proof.
  intros [A1 B1 (u1 & E1 & P1) S1 T1 F1 M1 Q1] [A2 B2 (u2 & E2 & P2) S2 T2 F2 M2 Q2].
  assert (forall p, p ∈ l1 -> p ∈ l) as Hl by (intros p; rewrite E1; set_solver).
  split.
  - done.
  - by etrans.
  - exists (u1 ++ u2). split; [by rewrite E1, E2, app_assoc|]. rewrite P2, P1. solve_Permutation.
  - by etrans.
  - intros p [Hp|Hp]%T2%elem_of_app; [by apply T1|]. apply elem_of_app. right. by apply Hl.
  - by eapply vm_frame_trans.
  - eapply same_outside_weaken; [by eapply same_outside_trans|]. intros p [Hp|Hp]%elem_of_app; [done|].
    apply elem_of_cons in Hp as [->|Hp]; [by left|]. right.
    apply elem_of_app in Hp as [Hp|Hp]; [by apply T1|]. apply elem_of_app. right. by apply Hl.
  - intros j Hj E. pose proof (map_between _ _ _ _ B1 B2 E) as E'.
    rewrite Q2, Q1; [done|done|done|done|congruence].
Qed.

(** The page [q] is taken, filled and mapped as user page [n]. *)
Lemma add_user_page s l d tabs us q m' n fl :
  uvm_ok s (q :: l) d tabs us -> same_outside [q] (mem s) m' -> us !! n = None -> 0 <= n < 2 ^ 19 ->
  (tables_needed (dom tabs) n 1 <= length l)%nat -> 0 <= fl < 4096 ->
  wp (mappages d (n * 4096) PGSIZE (v2p q) fl) (set_mem m' (popped s)) (fun r s' => r = 0 /\
    exists l' tabs', uvm_grows d s (q :: l) tabs us s' l' tabs' (<[n := q]> us) /\
    (length l' <= length l <= 1 + length l')%nat /\ pt (mem s') tabs' n = v2p q + Z.lor fl 1 /\
    forall i, 0 <= i < 1024 -> word_at (mem s') (q + 4 * i) = word_at m' (q + 4 * i)).
Proof.
  intros U Hm Hn Hr Hl Hfl. destruct (take_page _ _ _ _ _ _ _ U Hm) as (U' & Hq & Q1 & Q2 & Q3 & Q4 & _).
  eapply wp_mono; [by apply (map_user _ l d tabs us n q fl U')|].
  intros r s' (-> & l' & tabs' & U2 & X & Hlen & Hpt). split; [done|]. exists l', tabs'.
  destruct (ex_used _ _ _ _ _ _ _ X) as (used & El & Hval).
  assert (forall p, p ∈ values tabs' -> p ∈ values tabs ++ q :: l) as Ht.
  { intros p. rewrite Hval, El. set_solver. }
  split; [split|split; [rewrite El, length_app in *; lia|split]].
  - done.
  - by apply insert_subseteq.
  - exists (q :: used). split; [by rewrite El|]. rewrite Hval, values_insert by done. solve_Permutation.
  - apply X.
  - done.
  - pose proof (ex_frame _ _ _ _ _ _ _ X) as F. unfold vm_frame in *. rewrite F. by destruct s, s'.
  - eapply same_outside_weaken; [eapply same_outside_trans; [exact Hm|apply X]|]. set_solver.
  - intros j Hj E. rewrite Hpt by done. rewrite decide_False.
    + eapply (pt_same s (q :: l) d tabs [q]); [apply U|done|set_solver|set_solver].
    + intros ->. by rewrite lookup_insert_eq, Hn in E.
  - rewrite Hpt by lia. by rewrite decide_True.
  - intros i Hi. eapply (word_at_same (d :: values tabs')); [apply X|done|done| |].
    + intros p Hp. eapply (vm_ok_pages _ _ _ _ _ (ex_ok _ _ _ _ _ _ _ X)). set_solver.
    + rewrite Hval. set_solver.
Qed.

Lemma frame_word d s l tabs us s' l' tabs' us' n p i :
  uvm_ok s l d tabs us -> uvm_grows d s l tabs us s' l' tabs' us' -> us !! n = Some p ->
  0 <= i < 1024 -> word_at (mem s') (p + 4 * i) = word_at (mem s) (p + 4 * i).
Proof.
  intros U G Hn Hi. pose proof (uk_nodup _ _ _ _ _ U) as D. pose proof (values_lookup _ _ _ Hn) as Hp.
  apply list.NoDup_cons in D as [D1 D2]. apply list.NoDup_app in D2 as (D2 & D3 & D4).
  apply list.NoDup_app in D4 as (D4 & D5 & D6).
  apply (word_at_same (d :: values tabs ++ l)); [apply G|by apply (uk_frame _ _ _ _ _ U n)|done| |].
  - intros q Hq. by apply (vm_ok_pages _ _ _ _ _ (uk_vm _ _ _ _ _ U)).
  - set_solver.
Qed.

(** The user pages are exactly the first [n]. *)
Definition contiguous (us : gmap Z Z) (n : Z) : Prop :=
  forall j, is_Some (us !! j) <-> 0 <= j < n.

(** A page of user memory, readable and writable, all zero. *)
Definition zero_page (s : kstate) (tabs us : gmap Z Z) (j : Z) : Prop :=
  exists q, us !! j = Some q /\ pt (mem s) tabs j = v2p q + 7 /\
    forall i, 0 <= i < 1024 -> word_at (mem s) (q + 4 * i) = 0.

Lemma zero_page_grows d s l tabs us s' l' tabs' us' j :
  uvm_ok s l d tabs us -> uvm_grows d s l tabs us s' l' tabs' us' ->
  zero_page s tabs us j -> zero_page s' tabs' us' j.
Proof.
  intros U G (q & Hq & Hpt & Hz). pose proof (uk_frame _ _ _ _ _ U _ _ Hq) as ((Hj & _) & _).
  pose proof (lookup_weaken _ _ _ _ Hq (ug_sub _ _ _ _ _ _ _ _ _ G)) as Hq'.
  exists q. split; [done|]. split.
  - rewrite (ug_pt _ _ _ _ _ _ _ _ _ G); [done|done|by rewrite Hq, Hq'].
  - intros i Hi. rewrite (frame_word _ _ _ _ _ _ _ _ _ _ _ _ U G Hq Hi). by apply Hz.
Qed.

Lemma allocuvm_loop_spec d oldsz newsz k : forall fuel s l tabs us n,
  (k <= fuel)%nat -> uvm_ok s l d tabs us -> contiguous us n -> 0 <= n ->
  (n + Z.of_nat k) * 4096 - 4096 < newsz <= (n + Z.of_nat k) * 4096 -> newsz < 2 ^ 31 ->
  (k + k <= length l)%nat ->
  wp (allocuvm_loop fuel d oldsz newsz (n * 4096)) s (fun r s' => r = newsz /\
    exists l' tabs' us', uvm_grows d s l tabs us s' l' tabs' us' /\
      contiguous us' (n + Z.of_nat k) /\ (length l <= k + k + length l')%nat /\
      forall j, n <= j < n + Z.of_nat k -> zero_page s' tabs' us' j).
Proof.
  induction k as [|k IH]; intros fuel s l tabs us n Hfuel U C Hn Hsz Hmax Hl.
  - assert (negb (n * 4096 <? newsz) = true) as E by (apply negb_true_iff, Z.ltb_ge; lia).
    destruct fuel; cbn [allocuvm_loop]; rewrite E; apply wp_ret; (split; [done|]);
      exists l, tabs, us; (split; [by apply uvm_grows_refl|]); rewrite Z.add_0_r;
      (split; [done|]); (split; [lia|]); lia.
  - destruct fuel as [|fuel]; [lia|]. cbn [allocuvm_loop].
    rewrite (proj2 (Z.ltb_lt (n * 4096) newsz)) by lia. cbn [negb].
    destruct l as [|q l]; [cbn in Hl; lia|]. cbn [length] in Hl.
    destruct (take_page _ _ _ _ _ _ (fill_words q 0 1024 (mem s)) U (fill_same q 0 _))
      as (_ & Hq & _ & _ & _ & _ & Rk & Hq0).
    eapply wp_bind_runs; [exact Rk|]. rewrite (proj2 (Z.eqb_neq q 0)) by done.
    apply wp_bind, wp_modify. rewrite Z.mul_0_l. change (mem (popped s)) with (mem s).
    change (Z.lor PTE_W PTE_U) with 6. apply wp_bind.
    assert (us !! n = None) as Hun.
    { destruct (us !! n) eqn:E; [|done]. assert (is_Some (us !! n)) as Hs by (by eexists).
      apply C in Hs. lia. }
    eapply wp_mono; [apply (add_user_page s l d tabs us q _ n 6 U (fill_same q 0 _) Hun); [lia| |done]|].
    { pose proof (tables_needed_1 (dom tabs) n). lia. }
    intros r s1 (_ & l1 & tabs1 & G1 & Hl1 & Hpt1 & Hw1).
    assert (zero_page s1 tabs1 (<[n := q]> us) n) as Hz.
    { exists q. rewrite lookup_insert_eq. split; [done|]. split; [done|]. intros i Hi.
      rewrite Hw1 by done. rewrite <- (Z2Nat.id i) by lia. apply fill_word. lia. }
    rewrite u32_small by (unfold PGSIZE; lia).
    replace (n * 4096 + PGSIZE) with ((n + 1) * 4096) by (unfold PGSIZE; lia).
    eapply wp_mono; [apply (IH fuel s1 l1 tabs1 (<[n := q]> us) (n + 1))|].
    + lia.
    + apply G1.
    + intros j. rewrite lookup_insert_is_Some. rewrite (C j). lia.
    + lia.
    + lia.
    + done.
    + lia.
    + intros r' s2 (-> & l2 & tabs2 & us2 & G2 & C2 & Hl2 & Z2). split; [done|].
      exists l2, tabs2, us2. split; [by eapply uvm_grows_trans|].
      split; [by replace (n + Z.of_nat (S k)) with (n + 1 + Z.of_nat k) by lia|].
      split; [cbn [length]; lia|]. intros j Hj. destruct (decide (j = n)) as [->|].
      * eapply zero_page_grows; [apply G1|exact G2|done].
      * apply Z2. lia.
Qed.

Lemma word_at_same1 q m m' p i :
  same_outside [q] m m' -> page p -> page q -> p <> q -> 0 <= i < 1024 ->
  word_at m' (p + 4 * i) = word_at m (p + 4 * i).
Proof.
  intros H Hp Hq Hne Hi. apply (word_at_same [q]); [done..| |].
  - by intros x ->%list_elem_of_singleton.
  - by rewrite list_elem_of_singleton.
Qed.

Lemma pt_same1 s l d tabs q m' n :
  vm_ok s l d tabs -> same_outside [q] (mem s) m' -> page q -> q ∉ values tabs ->
  pt m' tabs n = pt (mem s) tabs n.
Proof.
  intros V H Hq Hn. apply (pt_same s l d tabs [q]); [done|done| |].
  - by intros x ->%list_elem_of_singleton.
  - intros x Hx ->%list_elem_of_singleton. done.
Qed.

Lemma pushed_frame p s : vm_frame s (pushed p s).
Proof. unfold vm_frame, pushed. generalize (fill_words p (1 * 16843009) 1024 (mem s)). by destruct s. Qed.

Lemma vm_frame_mem s s1 m : vm_frame s s1 -> vm_frame s (set_mem m s1).
Proof. unfold vm_frame. intros ->. by destruct s. Qed.

Definition npages (sz : Z) : Z := (sz + 4095) / 4096.

Lemma npages_bound sz : npages sz * 4096 - 4096 < sz <= npages sz * 4096.
Proof.
  unfold npages. pose proof (Z.div_mod (sz + 4095) 4096 ltac:(lia)).
  pose proof (Z.mod_pos_bound (sz + 4095) 4096 eq_refl). lia.
Qed.

Lemma PGROUNDUP_eq sz : 0 <= sz < 2 ^ 31 -> PGROUNDUP sz = npages sz * 4096.
Proof.
  intros H. unfold PGROUNDUP, PGSIZE, npages. rewrite u32_small by lia.
  replace (sz + 4096 - 1) with (sz + 4095) by lia. rewrite land_not_4095.
  pose proof (Z.div_mod (sz + 4095) 4096 ltac:(lia)). lia.
Qed.

(** ** Shrinking *)

(** [s'] has fewer user pages than [s]; the pages gone are free. *)
Record uvm_shrinks (d : Z) (tabs : gmap Z Z) (s : kstate) (l : list Z) (us : gmap Z Z)
    (s' : kstate) (l' : list Z) (us' : gmap Z Z) : Prop := {
  uh_ok : uvm_ok s' l' d tabs us';
  uh_sub : us' ⊆ us;
  uh_perm : values us' ++ l' ≡ₚ values us ++ l;
  uh_frame : vm_frame s s';
  uh_mem : same_outside (values tabs ++ l') (mem s) (mem s');
  uh_pt : forall j, 0 <= j -> us' !! j = us !! j -> pt (mem s') tabs j = pt (mem s) tabs j
}.

Lemma uvm_shrinks_refl d tabs s l us : uvm_ok s l d tabs us -> uvm_shrinks d tabs s l us s l us.
Proof. intros U. split; try done. by destruct s. Qed.

Lemma values_subseteq (g g' : gmap Z Z) p : g' ⊆ g -> p ∈ values g' -> p ∈ values g.
Proof.
  intros Hs (x & -> & Hx)%list_elem_of_fmap. destruct x as [i t]. apply elem_of_map_to_list in Hx.
  cbn. eapply values_lookup. by eapply lookup_weaken.
Qed.

Lemma uvm_shrinks_trans d tabs s l us s1 l1 us1 s2 l2 us2 :
  uvm_shrinks d tabs s l us s1 l1 us1 -> uvm_shrinks d tabs s1 l1 us1 s2 l2 us2 ->
  uvm_shrinks d tabs s l us s2 l2 us2.
Proof.
  intros [A1 B1 P1 F1 M1 Q1] [A2 B2 P2 F2 M2 Q2]. split.
  - done.
  - by etrans.
  - by etrans.
  - by eapply vm_frame_trans.
  - eapply same_outside_weaken; [by eapply same_outside_trans|]. intros p [Hp|Hp]%elem_of_app; [|done].
    apply elem_of_app in Hp as [Hp|Hp]; apply elem_of_app; [by left|right].
    pose proof (uk_nodup _ _ _ _ _ A1) as [_ D]%list.NoDup_cons. apply list.NoDup_app in D as (_ & _ & D).
    assert (p ∈ values us2 ++ l2) as [Hp'|Hp']%elem_of_app by (rewrite P2, elem_of_app; by right); [|done].
    apply list.NoDup_app in D as (_ & D & _). destruct (D p); [by eapply values_subseteq|done].
  - intros j Hj E. assert (us1 !! j = us2 !! j) as E1 by (by eapply map_between; [..|symmetry]).
    rewrite Q2, Q1; [done|done|congruence|done|congruence].
Qed.

Lemma values_delete (g : gmap Z Z) i t : g !! i = Some t -> values g ≡ₚ t :: values (delete i g).
Proof. intros H. unfold values. by rewrite <- (map_to_list_delete g i t H). Qed.

Lemma user_table s l d tabs us n p :
  uvm_ok s l d tabs us -> us !! n = Some p ->
  exists t fl, tabs !! (n / 1024) = Some t /\ 0 <= fl < 4096 /\ has fl PTE_P = true /\
    word_at (mem s) (t + 4 * (n mod 1024)) = v2p p + fl /\ pt (mem s) tabs n = v2p p + fl.
Proof.
  intros U Hn. destruct (uk_frame _ _ _ _ _ U n p Hn) as (Hr & Hp & fl & Hf & Hh & Hpt).
  destruct (page_v2p p Hp) as (_ & _ & _ & Hv). pose proof Hpt as Hpt'. unfold pt in Hpt.
  destruct (tabs !! (n / 1024)) as [t|] eqn:E; [|lia]. by exists t, fl.
Qed.

Lemma free_user_page s l d tabs us n p t :
  uvm_ok s l d tabs us -> us !! n = Some p -> tabs !! (n / 1024) = Some t ->
  uvm_shrinks d tabs s l us
    (set_mem (<[t + 4 * (n mod 1024) := 0]> (mem (pushed p s))) (pushed p s))
    (p :: l) (delete n us).
Proof.
  intros U Hn Ht. pose proof U as [V F N D].
  destruct (F n p Hn) as (Hr & Hp & _). pose proof (values_lookup _ _ _ Hn) as Hpv.
  apply list.NoDup_cons in D as [D1 D2]. apply list.NoDup_app in D2 as (D2 & D3 & D4).
  apply list.NoDup_app in D4 as (D4 & D5 & D6).
  assert (p ∉ l) as Hpl by set_solver. assert (p <> d) as Hpd by set_solver.
  assert (p ∉ values tabs) as Hpt by set_solver.
  assert (same_outside [p] (mem s) (mem (pushed p s))) as Hs.
  { intros a Ha. apply pushed_mem. apply Ha. by left. }
  assert (vm_ok (pushed p s) (p :: l) d tabs) as V1.
  { pose proof V as [K L P T E DD]. split; try done.
    - by apply kfree_spec.
    - intros i Hi. rewrite (word_at_same1 p (mem s)); [by apply E|done..].
    - assert (d :: values tabs ++ p :: l ≡ₚ p :: d :: values tabs ++ l) as -> by solve_Permutation.
      apply list.NoDup_cons. split; [|done].
      rewrite elem_of_cons, elem_of_app. tauto. }
  destruct (store_entry (pushed p s) (p :: l) d tabs t n 0 V1) as [V2 Hpt2]; [lia|done|].
  cbv zeta in *. set (s2 := set_mem _ (pushed p s)) in *.
  assert (forall j, 0 <= j -> pt (mem s2) tabs j = if decide (j = n) then 0 else pt (mem s) tabs j) as Hpt3.
  { intros j Hj. unfold s2. cbn [mem set_mem]. rewrite Hpt2 by done. case_decide; [done|].
    by apply (pt_same1 s l d tabs p). }
  split; [split|..].
  - done.
  - intros j q [Hne Hj]%lookup_delete_Some. destruct (F j q Hj) as (Hjr & Hq & fl & H1 & H2 & H3).
    split; [done|]. split; [done|]. exists fl. split; [done|]. split; [done|].
    rewrite Hpt3 by lia. by rewrite decide_False by congruence.
  - intros j Hj Hjn. rewrite Hpt3 by lia. case_decide as Hd; [done|].
    apply N; [done|]. by rewrite lookup_delete_ne in Hjn by congruence.
  - assert (d :: values tabs ++ values (delete n us) ++ p :: l ≡ₚ d :: values tabs ++ values us ++ l) as ->;
      [|apply U]. rewrite (values_delete us n p Hn). solve_Permutation.
  - apply delete_subseteq.
  - rewrite (values_delete us n p Hn). solve_Permutation.
  - apply vm_frame_mem, pushed_frame.
  - eapply same_outside_weaken;
      [eapply (same_outside_trans [p] [t]); [exact Hs|apply insert_same; by apply Z.mod_pos_bound]|].
    intros x [Hx|Hx]%elem_of_app; apply list_elem_of_singleton in Hx as ->; apply elem_of_app;
      [right; by left|left]. by eapply values_lookup.
  - intros j Hj E. rewrite Hpt3 by done. rewrite decide_False; [done|]. intros ->.
    by rewrite lookup_delete_eq, Hn in E.
Qed.

Section Dealloc.
Context (d : Z) (tabs : gmap Z Z) (oldsz n0 N : Z).
Context (HN : N <= npages oldsz) (Hmax : npages oldsz <= 2 ^ 19) (Hn0 : 0 <= n0).

(** The pages below [n0], and those from [n] on that are still to be freed. *)
Definition remaining (us : gmap Z Z) (n : Z) : Prop :=
  forall j, is_Some (us !! j) <-> 0 <= j < n0 \/ n <= j < N.

Lemma remaining_none us n : remaining us n -> us !! n = None -> n0 <= n -> N <= n.
Proof.
  intros R Hn Hle. destruct (decide (N <= n)); [done|].
  assert (is_Some (us !! n)) as [x Hx] by (apply R; lia). congruence.
Qed.

Lemma dealloc_page s l us n p fuel (Q : unit -> kstate -> Prop) :
  uvm_ok s l d tabs us -> us !! n = Some p -> 0 <= n < npages oldsz ->
  (forall s' l', uvm_shrinks d tabs s l us s' l' (delete n us) ->
     wp (deallocuvm_loop fuel d oldsz ((n + 1) * 4096)) s' Q) ->
  wp (deallocuvm_loop (S fuel) d oldsz (n * 4096)) s Q.
Proof using Hmax.
  intros U Hp Hn HQ. pose proof (npages_bound oldsz) as Hb. cbn [deallocuvm_loop].
  rewrite (proj2 (Z.ltb_lt (n * 4096) oldsz)) by lia. cbn [negb].
  destruct (user_table _ _ _ _ _ _ _ U Hp) as (t & fl & Ht & Hf & Hh & Hw & _).
  destruct (uk_frame _ _ _ _ _ U n p Hp) as (_ & Hpp & _).
  destruct (page_v2p p Hpp) as (_ & Hm & Hpv & Hv).
  destruct (vk_tab _ _ _ _ (uk_vm _ _ _ _ _ U) _ _ Ht) as [_ Htp]. pose proof (page_pos t Htp).
  assert (0 <= n mod 1024) by (by apply Z.mod_pos_bound).
  assert (n * 4096 / 4096 = n) as Hd by (by apply Z.div_mul).
  eapply wp_bind_runs; [apply (walk_present s l d tabs (n * 4096) false t); [apply U|lia|by rewrite Hd]|].
  rewrite Hd, (proj2 (Z.eqb_neq (t + 4 * (n mod 1024)) 0)) by lia.
  apply wp_bind, wp_bind, wp_gets. rewrite Hw, entry_has, Hh, entry_addr by done. cbn [when].
  rewrite (proj2 (Z.eqb_neq (v2p p) 0)), Hpv by lia.
  apply wp_bind. eapply wp_bind_runs; [apply kfree_runs; [done|apply U]|].
  apply wp_modify, wp_ret. change (u32 0) with 0.
  rewrite u32_small by (unfold PGSIZE; lia).
  replace (n * 4096 + PGSIZE) with ((n + 1) * 4096) by (unfold PGSIZE; lia).
  apply (HQ _ (p :: l)). by apply free_user_page.
Qed.

Lemma dealloc_skip s l us n fuel (Q : unit -> kstate -> Prop) :
  uvm_ok s l d tabs us -> us !! n = None -> 0 <= n < npages oldsz ->
  (forall n', n < n' -> wp (deallocuvm_loop fuel d oldsz (n' * 4096)) s Q) ->
  wp (deallocuvm_loop (S fuel) d oldsz (n * 4096)) s Q.
Proof using Hmax.
  intros U Hp Hn HQ. pose proof (npages_bound oldsz) as Hb. cbn [deallocuvm_loop].
  rewrite (proj2 (Z.ltb_lt (n * 4096) oldsz)) by lia. cbn [negb].
  assert (n * 4096 / 4096 = n) as Hd by (by apply Z.div_mul).
  pose proof (uk_none _ _ _ _ _ U n) as Hz. unfold pt in Hz.
  destruct (tabs !! (n / 1024)) as [t|] eqn:Ht.
  - destruct (vk_tab _ _ _ _ (uk_vm _ _ _ _ _ U) _ _ Ht) as [_ Htp]. pose proof (page_pos t Htp).
    assert (0 <= n mod 1024) by (by apply Z.mod_pos_bound).
    eapply wp_bind_runs; [apply (walk_present s l d tabs (n * 4096) false t); [apply U|lia|by rewrite Hd]|].
    rewrite Hd, (proj2 (Z.eqb_neq (t + 4 * (n mod 1024)) 0)) by lia.
    apply wp_bind, wp_bind, wp_gets. rewrite Hz by (done || lia).
    change (has 0 PTE_P) with false. cbn [when]. apply wp_bind, wp_ret, wp_ret.
    rewrite u32_small by (unfold PGSIZE; lia).
    replace (n * 4096 + PGSIZE) with ((n + 1) * 4096) by (unfold PGSIZE; lia). apply HQ. lia.
  - eapply wp_bind_runs; [apply (walk_absent s l d tabs (n * 4096)); [apply U|lia|by rewrite Hd]|].
    cbn [Z.eqb]. apply wp_bind, wp_ret. unfold NPTENTRIES, PGSIZE.
    rewrite (u32_small (n * 4096 + (1024 - 1) * 4096)), u32_small by lia.
    replace (n * 4096 + (1024 - 1) * 4096 + 4096) with ((n + 1024) * 4096) by lia. apply HQ. lia.
Qed.

Lemma deallocuvm_loop_spec fuel : forall s l us n,
  npages oldsz - n <= Z.of_nat fuel -> uvm_ok s l d tabs us -> n0 <= n -> remaining us n ->
  wp (deallocuvm_loop fuel d oldsz (n * 4096)) s (fun _ s' =>
    exists l' us', uvm_shrinks d tabs s l us s' l' us' /\ contiguous us' n0).
Proof using All.
  pose proof (npages_bound oldsz) as Hb.
  assert (forall s l us n, uvm_ok s l d tabs us -> remaining us n -> npages oldsz <= n ->
    exists l' us', uvm_shrinks d tabs s l us s l' us' /\ contiguous us' n0) as Hend.
  { intros s l us n U R Hn. exists l, us. split; [by apply uvm_shrinks_refl|].
    intros j. rewrite (R j). lia. }
  induction fuel as [|fuel IH]; intros s l us n Hf U Hn R.
  - cbn [deallocuvm_loop]. rewrite (proj2 (Z.ltb_ge (n * 4096) oldsz)) by lia. cbn [negb].
    apply wp_ret. apply (Hend _ _ _ n); [done|done|lia].
  - destruct (decide (npages oldsz <= n)) as [Hge|Hlt].
    { cbn [deallocuvm_loop]. rewrite (proj2 (Z.ltb_ge (n * 4096) oldsz)) by lia. cbn [negb].
      apply wp_ret. by apply (Hend _ _ _ n). }
    destruct (us !! n) as [p|] eqn:Hp.
    + apply (dealloc_page s l us n p); [done|done|lia|]. intros s1 l1 H1.
      eapply wp_mono; [apply (IH s1 l1 (delete n us) (n + 1)); [lia|apply H1|lia|]|].
      * intros j. rewrite lookup_delete_is_Some, (R j). lia.
      * intros ? s2 (l2 & us2 & H2 & C2). exists l2, us2. split; [by eapply uvm_shrinks_trans|done].
    + pose proof (remaining_none us n R Hp Hn) as HNn.
      apply (dealloc_skip s l us n); [done|done|lia|]. intros n' Hn'. apply IH; [lia|done|lia|].
      intros j. rewrite (R j). lia.
Qed.
End Dealloc.

Lemma deallocuvm_spec s l d tabs us oldsz newsz N :
  uvm_ok s l d tabs us -> contiguous us N -> N <= npages oldsz ->
  0 <= newsz < oldsz -> oldsz <= 2 ^ 31 -> npages newsz <= N ->
  wp (deallocuvm d oldsz newsz) s (fun r s' => r = newsz /\
    exists l' us', uvm_shrinks d tabs s l us s' l' us' /\ contiguous us' (npages newsz)).
Proof.
  intros U C HN Hsz Hmax Hnew. unfold deallocuvm. rewrite (proj2 (Z.leb_gt oldsz newsz)) by lia.
  assert (npages oldsz <= 2 ^ 19).
  { unfold npages. assert (oldsz + 4095 < 4096 * (2 ^ 19 + 1)) as H by lia.
    apply Z.div_lt_upper_bound in H; lia. }
  assert (0 <= npages newsz) by (unfold npages; apply Z.div_pos; lia).
  rewrite PGROUNDUP_eq by lia. apply wp_bind.
  assert (npages oldsz - npages newsz <= Z.of_nat (Z.to_nat (2 ^ 20))) as Hfuel
    by (rewrite Z2Nat.id; lia).
  revert Hfuel. generalize (Z.to_nat (2 ^ 20)) as fuel. intros fuel Hfuel.
  eapply wp_mono; [apply (deallocuvm_loop_spec d tabs oldsz (npages newsz) N HN)|].
  - done.
  - done.
  - done.
  - exact U.
  - lia.
  - intros j. rewrite (C j). lia.
  - intros ? s' H'. by apply wp_ret.
Qed.

(** ** Freeing an address space *)
Lemma pushed_same p s : same_outside [p] (mem s) (mem (pushed p s)).
Proof. intros a Ha. apply pushed_mem. apply Ha. by left. Qed.

(** The tables with an index below [i] are free. *)
Definition tables_freed (s : kstate) (l : list Z) (tabs : gmap Z Z) (i : nat) (s1 : kstate) : Prop :=
  exists li gone, kmem_rep s1 li /\ li ≡ₚ values gone ++ l /\ gone ⊆ tabs /\
    (forall k, is_Some (gone !! k) <-> is_Some (tabs !! k) /\ k < Z.of_nat i) /\
    vm_frame s s1 /\ same_outside (values tabs) (mem s) (mem s1).

Lemma free_table s l d tabs i s1 :
  vm_ok s l d tabs -> (i < 1024)%nat -> tables_freed s l tabs i s1 ->
  wp (freevm_entry d i) s1 (fun _ s2 => tables_freed s l tabs (S i) s2).
Proof.
  intros V Hi (li & gone & K & P & Hsub & Hg & F & M). pose proof V as [_ L Pd T E D].
  apply list.NoDup_cons in D as [D1 D2]. apply list.NoDup_app in D2 as (D2 & D3 & D4).
  unfold freevm_entry. apply wp_bind, wp_gets.
  rewrite (word_at_same (values tabs) (mem s)), E; [|lia|done|done|lia| |].
  2: { intros q Hq. apply (vm_ok_pages _ _ _ _ _ V). apply elem_of_cons. right. apply elem_of_app. by left. }
  2: { intros H. apply D1, elem_of_app. by left. }
  destruct (tabs !! Z.of_nat i) as [t|] eqn:Ht.
  - destruct (T _ _ Ht) as [_ Hp]. destruct (page_v2p t Hp) as (_ & Hm & Hv & _).
    rewrite entry_has by done. change (has 7 PTE_P) with true. cbn [when].
    rewrite entry_addr, Hv by done.
    assert (gone !! Z.of_nat i = None) as Hgi.
    { destruct (gone !! Z.of_nat i) eqn:G; [|done]. assert (is_Some (gone !! Z.of_nat i)) as Hs by (by eexists).
      apply Hg in Hs. lia. }
    assert (t ∉ li) as Hli.
    { rewrite P. intros [H|H]%elem_of_app; [|by apply (D3 t); [eapply values_lookup|]].
      apply list_elem_of_fmap in H as ([k t'] & -> & Hk%elem_of_map_to_list). cbn in *.
      pose proof (lookup_weaken _ _ _ _ Hk Hsub) as Hk'.
      rewrite (values_inj _ _ _ _ D2 Hk' Ht) in Hk. congruence. }
    eapply runs_wp; [apply kfree_runs; [done|]|].
    { rewrite F. exact L. }
    exists (t :: li), (<[Z.of_nat i := t]> gone). split; [by apply kfree_spec|].
    split; [by rewrite values_insert, P by done|]. split; [by apply insert_subseteq_l|]. split.
    { intros k. rewrite lookup_insert_is_Some, Hg. split.
      - intros [<-|[Hne [H1 H2]]]; [rewrite Ht; split; [by eexists|lia]|split; [done|lia]].
      - intros [H1 H2]. destruct (decide (Z.of_nat i = k)); [by left|]. right. split; [done|]. split; [done|lia]. }
    split; [eapply vm_frame_trans; [exact F|apply pushed_frame]|].
    eapply same_outside_weaken; [eapply same_outside_trans; [exact M|apply pushed_same]|].
    intros q [Hq|Hq]%elem_of_app; [done|]. apply list_elem_of_singleton in Hq as ->. by eapply values_lookup.
  - change (has 0 PTE_P) with false. apply wp_ret. exists li, gone. do 3 (split; [done|]). split; [|done].
    intros k. rewrite Hg. split; intros [[x Hx] H2]; (split; [by eexists|]); [lia|].
    destruct (decide (k = Z.of_nat i)) as [->|]; [congruence|lia].
Qed.

Lemma free_tables s l d tabs :
  vm_ok s l d tabs ->
  wp (mfor (Z.to_nat NPDENTRIES) 0 (freevm_entry d)) s (fun _ s' => exists l',
    kmem_rep s' l' /\ l' ≡ₚ values tabs ++ l /\ vm_frame s s' /\
    same_outside (values tabs) (mem s) (mem s')).
Proof.
  intros V. apply (wp_mfor (tables_freed s l tabs)).
  - exists l, ∅. split; [apply V|]. split; [by unfold values; rewrite map_to_list_empty|].
    split; [apply map_empty_subseteq|]. split; [|split; [by destruct s|done]].
    intros k. rewrite lookup_empty. split; [by intros []|]. intros [[t Ht] H].
    destruct (vk_tab _ _ _ _ V _ _ Ht). lia.
  - intros i s1 Hi. apply (free_table s l d tabs); [done|]. unfold NPDENTRIES in Hi. lia.
  - intros s1 (li & gone & K & P & Hsub & Hg & F & M). exists li.
    assert (gone = tabs) as ->; [|done]. apply map_eq. intros k.
    destruct (tabs !! k) as [t|] eqn:Ht.
    + assert (is_Some (gone !! k)) as [x Hx].
      { apply Hg. split; [by eexists|]. destruct (vk_tab _ _ _ _ V _ _ Ht). unfold NPDENTRIES. lia. }
      rewrite Hx. symmetry. rewrite <- Ht. by apply (lookup_weaken gone).
    + destruct (gone !! k) eqn:G; [|done]. by rewrite (lookup_weaken _ _ _ _ G Hsub) in Ht.
Qed.

Lemma freevm_spec s l d tabs us N :
  uvm_ok s l d tabs us -> contiguous us N -> 0 <= N ->
  wp (freevm d) s (fun _ s' => exists l',
    kmem_rep s' l' /\ l' ≡ₚ d :: values tabs ++ values us ++ l /\ vm_frame s s' /\
    same_outside l' (mem s) (mem s')).
Proof.
  intros U C HN. pose proof (vk_dir _ _ _ _ (uk_vm _ _ _ _ _ U)) as Hd. unfold freevm.
  rewrite (proj2 (Z.eqb_neq d 0)) by (by apply page_pos).
  assert (N <= 2 ^ 19) as HN'.
  { destruct (decide (N <= 2 ^ 19)); [done|]. assert (is_Some (us !! (2 ^ 19))) as [p Hp] by (apply C; lia).
    destruct (uk_frame _ _ _ _ _ U _ _ Hp). lia. }
  apply wp_bind. eapply wp_mono; [apply (deallocuvm_spec s l d tabs us KERNBASE 0 N); try done|].
  intros r s1 (-> & l1 & us1 & H1 & C1).
  assert (us1 = ∅) as ->.
  { apply map_empty. intros j. destruct (us1 !! j) eqn:E; [|done].
    assert (is_Some (us1 !! j)) as Hs by (by eexists). apply C1 in Hs.
    change (npages 0) with 0 in Hs. lia. }
  pose proof (uh_perm _ _ _ _ _ _ _ _ H1) as P1. unfold values at 1 in P1.
  rewrite map_to_list_empty in P1. cbn [fmap list_fmap app] in P1.
  apply wp_bind. eapply wp_mono; [apply (free_tables s1 l1 d tabs), H1|].
  intros ? s2 (l2 & K2 & P2 & F2 & M2).
  pose proof (uk_nodup _ _ _ _ _ U) as [D1 _]%list.NoDup_cons.
  assert (d ∉ l2) as Hdl by (rewrite P2, P1; done).
  eapply runs_wp; [apply kfree_runs; [done|]|].
  { rewrite F2, (uh_frame _ _ _ _ _ _ _ _ H1). apply U. }
  exists (d :: l2). split; [by apply kfree_spec|]. split; [by rewrite P2, P1|]. split.
  - eapply vm_frame_trans; [apply H1|]. eapply vm_frame_trans; [exact F2|apply pushed_frame].
  - eapply same_outside_weaken;
      [eapply same_outside_trans; [apply H1|eapply same_outside_trans; [exact M2|apply pushed_same]]|].
    intros q. rewrite !elem_of_app, !elem_of_cons, elem_of_nil, P2, elem_of_app. tauto.
Qed.
End Uvm.
