(* ===== verification/Space.v ===== *)
(** * Address spaces

    What the operations of vm.c do to the memory a process sees.  [mmu] is the
    translation the processor makes with a page directory; the theorems say
    which addresses translate and which bytes are read through them after
    setupkvm, allocuvm, deallocuvm, copyuvm, copyout and freevm, and that every
    page taken from the allocator comes back. *)

From S2P Require Import Prelude Bytes Cstring Kstate Sync Kalloc Disk Bio Log Fs Console Tty Vm Pagetable Uvm.
Import Str.
Local Open Scope Z_scope.

Section Space.
Context {Lay : Layout} {Dev : BlockDev} {Sw : DevSw}.

(** ** Translation *)

(** The two-level walk of the processor: the physical address and the access
    rights both levels allow. *)
Definition mmu (m : gmap Z Z) (d va : Z) : option (Z * Z) :=
  let pde := word_at m (d + 4 * (va / 4194304)) in
  let pte := word_at m (p2v (PTE_ADDR pde) + 4 * ((va / 4096) mod 1024)) in
  if has pde PTE_P && has pte PTE_P
  then Some (PTE_ADDR pte + va mod 4096, Z.land (PTE_FLAGS pde) (PTE_FLAGS pte))
  else None.

(** The byte a user program reads at [va]. *)
Definition user_byte (m : gmap Z Z) (d va : Z) : option Z :=
  match mmu m d va with
  | Some (pa, fl) => if has fl PTE_U then Some (get_byte m (p2v pa)) else None
  | None => None
  end.

Lemma mmu_pt s l d tabs va :
  vm_ok s l d tabs -> 0 <= va < 2 ^ 32 ->
  mmu (mem s) d va = let e := pt (mem s) tabs (va / 4096) in
    if has e PTE_P then Some (PTE_ADDR e + va mod 4096, Z.land 7 (PTE_FLAGS e)) else None.
Proof.
  intros V Hva. pose proof (dir_index va Hva) as Hi. unfold mmu, pt.
  assert (va / 4194304 = va / 4096 / 1024) as -> by (by rewrite Z.div_div by lia).
  rewrite (vk_pde _ _ _ _ V _ Hi). destruct (tabs !! (va / 4096 / 1024)) as [t|] eqn:E; [|done].
  destruct (vk_tab _ _ _ _ V _ _ E) as [_ Hp]. destruct (page_v2p t Hp) as (_ & Hm & Hv & _).
  rewrite entry_has, entry_addr, entry_flags, Hv by done. by change (has 7 PTE_P) with true.
Qed.

(** A present entry translates to its frame. *)
Lemma mmu_entry s l d tabs va pa fl :
  vm_ok s l d tabs -> 0 <= va < 2 ^ 32 -> pa mod 4096 = 0 -> 0 <= fl < 4096 -> has fl PTE_P = true ->
  pt (mem s) tabs (va / 4096) = pa + fl -> mmu (mem s) d va = Some (pa + va mod 4096, Z.land 7 fl).
Proof.
  intros V Hva Hm Hf Hh He. rewrite (mmu_pt _ _ _ _ _ V Hva), He. cbv zeta.
  by rewrite entry_has, Hh, entry_addr, entry_flags.
Qed.

Lemma mmu_none s l d tabs va :
  vm_ok s l d tabs -> 0 <= va < 2 ^ 32 -> pt (mem s) tabs (va / 4096) = 0 -> mmu (mem s) d va = None.
Proof. intros V Hva He. rewrite (mmu_pt _ _ _ _ _ V Hva), He. done. Qed.

Lemma page_byte m p o :
  page p -> 0 <= o < 4096 ->
  get_byte m (p + o) = Z.land (Z.shiftr (word_at m (p + 4 * (o / 4))) (8 * (o mod 4))) 255.
Proof.
  intros [Hp _] Ho. unfold get_byte, PGSIZE in *.
  assert ((p + o) mod 4 = o mod 4) as ->.
  { rewrite Z.add_mod by lia. replace (p mod 4) with 0; [by rewrite Z.add_0_l, Z.mod_mod|].
    symmetry. apply Z.mod_divide; [lia|]. apply Z.mod_divide in Hp as [z ->]; [|lia].
    exists (z * 1024). lia. }
  pose proof (Z.div_mod o 4 ltac:(lia)). by replace (p + o - o mod 4) with (p + 4 * (o / 4)) by lia.
Qed.

Lemma page_byte_same m m' p p' o :
  page p -> page p' -> 0 <= o < 4096 ->
  (forall i, 0 <= i < 1024 -> word_at m' (p' + 4 * i) = word_at m (p + 4 * i)) ->
  get_byte m' (p' + o) = get_byte m (p + o).
Proof.
  intros Hp Hp' Ho H. rewrite !page_byte by done. rewrite H; [done|].
  split; [apply Z.div_pos; lia|apply Z.div_lt_upper_bound; lia].
Qed.

Lemma p2v_page p o : page p -> 0 <= o < 4096 -> p2v (v2p p + o) = p + o.
Proof.
  intros [Hm Hr] Ho. destruct (page_v2p p (conj Hm Hr)) as (-> & _). unfold p2v.
  unfold PHYSTOP, KERNBASE, PGSIZE in *. pose proof kend_range. unfold KERNBASE in *.
  pose proof (Z.div_mod p 4096 ltac:(lia)). rewrite u32_small; lia.
Qed.

(** The byte of a user page. *)
Lemma user_byte_page s l d tabs us va p fl :
  uvm_ok s l d tabs us -> 0 <= va -> us !! (va / 4096) = Some p ->
  pt (mem s) tabs (va / 4096) = v2p p + fl -> 0 <= fl < 4096 -> has fl PTE_P = true ->
  mmu (mem s) d va = Some (v2p p + va mod 4096, Z.land 7 fl) /\
  user_byte (mem s) d va = if has fl PTE_U then Some (get_byte (mem s) (p + va mod 4096)) else None.
Proof.
  intros U Hva Hu Hpt Hf Hh. destruct (uk_frame _ _ _ _ _ U _ _ Hu) as (Hn & Hp & _).
  destruct (page_v2p p Hp) as (_ & Hm & _). pose proof (Z.mod_pos_bound va 4096 ltac:(lia)).
  assert (0 <= va < 2 ^ 32) as Hva' by (pose proof (Z.div_mod va 4096 ltac:(lia)); lia).
  pose proof (mmu_entry s l d tabs va _ fl (uk_vm _ _ _ _ _ U) Hva' Hm Hf Hh Hpt) as E.
  split; [done|]. unfold user_byte. rewrite E, p2v_page by done.
  assert (has (Z.land 7 fl) PTE_U = has fl PTE_U) as ->; [|done].
  unfold has, PTE_U. do 2 f_equal. rewrite <- Z.land_assoc, (Z.land_comm fl), Z.land_assoc. done.
Qed.

(** ** The kernel's part *)

(** memlayout.h: physical memory at KERNBASE, read-only where the kernel's code
    is, and the devices at their own addresses; nothing for user programs. *)
Definition kernel_map (va : Z) : option (Z * Z) :=
  if decide (KERNBASE <= va < KERNBASE + PHYSTOP) then
    Some (va - KERNBASE, if decide (KERNLINK <= va < kdata) then PTE_P else PTE_P + PTE_W)
  else if decide (DEVSPACE <= va) then Some (va, PTE_P + PTE_W) else None.

Lemma mmu_kernel s l d tabs va :
  vm_ok s l d tabs -> 0 <= va < 2 ^ 32 -> pt (mem s) tabs (va / 4096) = kernel_pt (va / 4096) ->
  mmu (mem s) d va = kernel_map va.
Proof.
  intros V Hva He. destruct kdata_pages as [Hkd Hkr]. unfold kernel_pt in He. unfold kernel_map.
  pose proof (Z.div_mod va 4096 ltac:(lia)) as Ed. pose proof (Z.mod_pos_bound va 4096 ltac:(lia)) as Em.
  set (n := va / 4096) in *. set (kd := kdata / 4096) in *.
  change KERNBASE with (524288 * 4096). change PHYSTOP with (57344 * 4096).
  change KERNLINK with (524544 * 4096). change DEVSPACE with (1040384 * 4096).
  repeat case_decide; try lia; try by apply (mmu_none _ _ _ _ _ V).
  all: rewrite mk_pte_eq in He by (done || by apply Z.mod_mul).
  all: erewrite mmu_entry; [|exact V|exact Hva| | | |exact He]; [|by apply Z.mod_mul|done|done].
  all: fold n; f_equal; f_equal; lia.
Qed.

Lemma kernel_pt_user n : n < 524288 -> kernel_pt n = 0.
Proof. intros Hn. unfold kernel_pt. by rewrite !decide_False by lia. Qed.

Lemma extended_uvm d s l s' l' tabs :
  extended d s l ∅ s' l' tabs -> (forall j, 0 <= j < 2 ^ 20 -> pt (mem s') tabs j = kernel_pt j) ->
  uvm_ok s' l' d tabs ∅.
Proof.
  intros X Hk. split; [apply X|by intros n p H; rewrite lookup_empty in H| |].
  - intros n Hn _. rewrite Hk, kernel_pt_user; lia.
  - unfold values at 2. rewrite map_to_list_empty. apply (vk_nodup _ _ _ _ (ex_ok _ _ _ _ _ _ _ X)).
Qed.

(** A new address space with the kernel's part in it. *)
Record fresh_space (s : kstate) (l : list Z) (d : Z) (s' : kstate) (l' : list Z) (tabs : gmap Z Z) : Prop := {
  fs_ok : uvm_ok s' l' d tabs ∅;
  fs_kernel : forall j, 0 <= j < 2 ^ 20 -> pt (mem s') tabs j = kernel_pt j;
  fs_used : exists used, l = used ++ l' /\ values tabs ≡ₚ used;
  fs_len : (length l <= 66 + length l')%nat;
  fs_frame : vm_frame s s';
  fs_mem : same_outside (d :: values tabs) (mem s) (mem s')
}.

Lemma setup_space s l d :
  kmem_rep s (d :: l) -> KmemLock ∉ held s -> (66 <= length l)%nat ->
  wp setupkvm s (fun r s' => r = d /\ exists l' tabs, fresh_space s l d s' l' tabs).
Proof.
  intros K L Hl. eapply wp_mono; [by apply setupkvm_spec|].
  intros r s' (-> & s1 & l' & tabs & X & Hlen & F & M & Hk). split; [done|]. exists l', tabs.
  split; try done.
  - by apply (extended_uvm _ s1 l).
  - destruct (ex_used _ _ _ _ _ _ _ X) as (used & E & P). exists used. split; [done|].
    rewrite P. unfold values. rewrite map_to_list_empty. by rewrite app_nil_r.
  - eapply vm_frame_trans; [exact F|apply X].
  - eapply same_outside_weaken; [eapply same_outside_trans; [exact M|apply X]|].
    intros p [Hp|Hp]%elem_of_app; [|done]. apply list_elem_of_singleton in Hp as ->. by left.
Qed.

(** C37: setupkvm builds, in pages taken from the allocator, a page directory with
    which every kernel address translates as memlayout.h says (the direct map of
    physical memory, the kernel's code read-only, the devices) and no user
    address translates; it changes nothing else. *)
Theorem setupkvm_maps s l d :
  kmem_rep s (d :: l) -> KmemLock ∉ held s -> (66 <= length l)%nat ->
  wp setupkvm s (fun r s' => r = d /\ exists used l',
    l = used ++ l' /\ kmem_rep s' l' /\ vm_frame s s' /\ same_outside (d :: used) (mem s) (mem s') /\
    forall va, 0 <= va < 2 ^ 32 -> mmu (mem s') d va = kernel_map va).
Proof.
  intros K L Hl. eapply wp_mono; [by apply setup_space|].
  intros r s' (-> & l' & tabs & [U Hk (used & E & P) _ F M]). split; [done|]. exists used, l'.
  split; [done|]. split; [apply U|]. split; [done|]. split.
  - eapply same_outside_weaken; [exact M|]. intros p. by rewrite P.
  - intros va Hva. apply (mmu_kernel s' l' d tabs); [apply U|done|]. apply Hk.
    split; [apply Z.div_pos; lia|apply Z.div_lt_upper_bound; lia].
Qed.

(** ** Growing *)
Lemma npages_mono a b : a <= b -> npages a <= npages b.
Proof. intros H. apply Z.div_le_mono; lia. Qed.

Lemma npages_fuel a b : 0 <= a <= b -> (Z.to_nat (npages b - npages a) <= Z.to_nat (b / PGSIZE + 1))%nat.
Proof.
  intros H. change PGSIZE with 4096. pose proof (npages_bound b). pose proof (npages_bound a).
  pose proof (Z.div_mod b 4096 ltac:(lia)). pose proof (Z.mod_pos_bound b 4096 ltac:(lia)). lia.
Qed.

Lemma alloc_space s l d tabs us oldsz newsz :
  uvm_ok s l d tabs us -> contiguous us (npages oldsz) -> 0 <= oldsz <= newsz -> newsz < KERNBASE ->
  2 * (npages newsz - npages oldsz) <= Z.of_nat (length l) ->
  wp (allocuvm d oldsz newsz) s (fun r s' => r = newsz /\
    exists l' tabs' us', uvm_grows d s l tabs us s' l' tabs' us' /\ contiguous us' (npages newsz) /\
      Z.of_nat (length l) <= 2 * (npages newsz - npages oldsz) + Z.of_nat (length l') /\
      forall j, npages oldsz <= j < npages newsz -> zero_page s' tabs' us' j).
Proof.
  intros U C Hsz Hk Hl. unfold allocuvm. rewrite (proj2 (Z.leb_gt _ _)) by done.
  rewrite (proj2 (Z.ltb_ge newsz oldsz)) by lia. unfold KERNBASE in Hk. rewrite PGROUNDUP_eq by lia.
  pose proof (npages_mono oldsz newsz ltac:(lia)) as Hm.
  pose proof (npages_bound oldsz). pose proof (npages_bound newsz).
  pose proof (npages_fuel oldsz newsz Hsz) as Hfuel.
  set (k := Z.to_nat (npages newsz - npages oldsz)) in *.
  assert (npages newsz = npages oldsz + Z.of_nat k) as Ek by lia. clearbody k.
  eapply wp_mono; [apply (allocuvm_loop_spec d oldsz newsz k _ s l tabs us (npages oldsz)); try done; lia|].
  intros r s' (-> & l' & tabs' & us' & G & C' & Hl' & Hz). split; [done|]. exists l', tabs', us'.
  rewrite Ek. split; [done|]. split; [done|]. split; [lia|done].
Qed.

Lemma mmu_grows d s l tabs us s' l' tabs' us' va :
  uvm_ok s l d tabs us -> uvm_grows d s l tabs us s' l' tabs' us' -> 0 <= va < 2 ^ 32 ->
  us' !! (va / 4096) = us !! (va / 4096) -> mmu (mem s') d va = mmu (mem s) d va.
Proof.
  intros U G Hva E. rewrite (mmu_pt s' l' d tabs'), (mmu_pt s l d tabs) by (done || apply U || apply G).
  rewrite (ug_pt _ _ _ _ _ _ _ _ _ G (va / 4096)); [done|apply Z.div_pos; lia|done].
Qed.

Lemma user_byte_grows d s l tabs us s' l' tabs' us' va :
  uvm_ok s l d tabs us -> uvm_grows d s l tabs us s' l' tabs' us' -> 0 <= va ->
  is_Some (us !! (va / 4096)) -> user_byte (mem s') d va = user_byte (mem s) d va.
Proof.
  intros U G Hva [p Hp]. destruct (uk_frame _ _ _ _ _ U _ _ Hp) as (Hn & Hpp & fl & Hf & Hh & Hpt).
  pose proof (lookup_weaken _ _ _ _ Hp (ug_sub _ _ _ _ _ _ _ _ _ G)) as Hp'.
  destruct (user_byte_page s l d tabs us va p fl) as [_ ->]; [done..|].
  destruct (user_byte_page s' l' d tabs' us' va p fl) as [_ ->]; try done; [apply G| |].
  - rewrite (ug_pt _ _ _ _ _ _ _ _ _ G); [done|lia|by rewrite Hp, Hp'].
  - destruct (has fl PTE_U); [|done]. f_equal. apply page_byte_same; try done.
    { by apply Z.mod_pos_bound. }
    intros i Hi. by apply (frame_word _ _ _ _ _ _ _ _ _ _ _ _ U G Hp).
Qed.

Lemma user_byte_zero s l d tabs us va :
  uvm_ok s l d tabs us -> 0 <= va -> zero_page s tabs us (va / 4096) -> user_byte (mem s) d va = Some 0.
Proof.
  intros U Hva (q & Hq & Hpt & Hz). destruct (user_byte_page s l d tabs us va q 7) as [_ ->]; [done..|].
  change (has 7 PTE_U) with true. cbv iota. pose proof (Z.mod_pos_bound va 4096 ltac:(lia)) as Hm.
  destruct (uk_frame _ _ _ _ _ U _ _ Hq) as (_ & Hp & _). rewrite page_byte by done.
  rewrite Hz, Z.shiftr_0_l; [done|]. split; [apply Z.div_pos; lia|apply Z.div_lt_upper_bound; lia].
Qed.

(** C31: allocuvm with enough free pages grows the process: every byte it had
    reads as before, every new byte reads as zero, nothing else becomes
    accessible, and only pages that were free, the directory and its tables
    have changed. *)
Theorem allocuvm_grows s l d tabs us oldsz newsz :
  uvm_ok s l d tabs us -> contiguous us (npages oldsz) -> 0 <= oldsz <= newsz -> newsz < KERNBASE ->
  2 * (npages newsz - npages oldsz) <= Z.of_nat (length l) ->
  wp (allocuvm d oldsz newsz) s (fun r s' => r = newsz /\ exists l' tabs' us',
    uvm_ok s' l' d tabs' us' /\ contiguous us' (npages newsz) /\ vm_frame s s' /\
    same_outside (d :: values tabs ++ l) (mem s) (mem s') /\
    (forall va, 0 <= va < npages oldsz * 4096 -> user_byte (mem s') d va = user_byte (mem s) d va) /\
    (forall va, npages oldsz * 4096 <= va < npages newsz * 4096 -> user_byte (mem s') d va = Some 0) /\
    forall va, npages newsz * 4096 <= va < 2 ^ 32 -> mmu (mem s') d va = mmu (mem s) d va).
Proof.
  intros U C Hsz Hk Hl. eapply wp_mono; [by apply (alloc_space s l d tabs us)|].
  intros r s' (-> & l' & tabs' & us' & G & C' & _ & Hz). split; [done|]. exists l', tabs', us'.
  pose proof (npages_bound oldsz). pose proof (npages_mono oldsz newsz ltac:(lia)).
  split; [apply G|]. split; [done|]. split; [apply G|]. split; [apply G|]. split; [|split].
  - intros va Hva. apply (user_byte_grows d s l tabs us s' l' tabs' us'); [done|done|lia|].
    apply C. split; [apply Z.div_pos; lia|apply Z.div_lt_upper_bound; lia].
  - intros va Hva. apply (user_byte_zero s' l' d tabs' us'); [apply G|lia|]. apply Hz.
    split; [apply Z.div_le_lower_bound; lia|apply Z.div_lt_upper_bound; lia].
  - intros va Hva. apply (mmu_grows d s l tabs us s' l' tabs' us'); [done|done|lia|].
    assert (npages newsz <= va / 4096) as Hd by (apply Z.div_le_lower_bound; lia).
    destruct (us' !! (va / 4096)) eqn:E1; [|destruct (us !! (va / 4096)) eqn:E2; [|done]].
    + assert (is_Some (us' !! (va / 4096))) as Hs%C' by (by eexists). lia.
    + assert (is_Some (us !! (va / 4096))) as Hs%C by (by eexists). lia.
Qed.

(** ** Address spaces do not disturb each other *)
Lemma mmu_apart s l d tabs us ps m' va :
  uvm_ok s l d tabs us -> same_outside ps (mem s) m' -> (forall p, p ∈ ps -> page p) ->
  (forall p, p ∈ ps -> p ∉ d :: values tabs ++ values us) -> 0 <= va < 2 ^ 32 ->
  mmu m' d va = mmu (mem s) d va.
Proof.
  intros U Hs Hps Hd Hva. pose proof (uk_vm _ _ _ _ _ U) as V. pose proof (dir_index va Hva) as Hi.
  unfold mmu. assert (va / 4194304 = va / 4096 / 1024) as -> by (by rewrite Z.div_div by lia).
  rewrite (word_at_same ps (mem s)), (vk_pde _ _ _ _ V _ Hi); [|done|apply V|done|done|].
  2: { intros H. apply (Hd _ H). by left. }
  destruct (tabs !! (va / 4096 / 1024)) as [t|] eqn:E; [|done].
  destruct (vk_tab _ _ _ _ V _ _ E) as [_ Hp]. destruct (page_v2p t Hp) as (_ & Hm & Hv & _).
  rewrite entry_addr, Hv by done. rewrite (word_at_same ps (mem s)); [done|done|done|by apply Z.mod_pos_bound|done|].
  intros H. apply (Hd _ H), elem_of_cons. right. apply elem_of_app. left. by eapply values_lookup.
Qed.

Lemma user_byte_apart s l d tabs us ps m' va :
  uvm_ok s l d tabs us -> same_outside ps (mem s) m' -> (forall p, p ∈ ps -> page p) ->
  (forall p, p ∈ ps -> p ∉ d :: values tabs ++ values us) -> 0 <= va < KERNBASE ->
  user_byte m' d va = user_byte (mem s) d va.
Proof.
  intros U Hs Hps Hd Hva. unfold KERNBASE in Hva. pose proof (Z.mod_pos_bound va 4096 ltac:(lia)) as Hm.
  unfold user_byte. rewrite (mmu_apart s l d tabs us ps) by (done || lia).
  assert (0 <= va / 4096 < 2 ^ 19) as Hn.
  { split; [apply Z.div_pos; lia|apply Z.div_lt_upper_bound; lia]. }
  destruct (us !! (va / 4096)) as [p|] eqn:E.
  - destruct (uk_frame _ _ _ _ _ U _ _ E) as (_ & Hp & fl & Hf & Hh & Hpt).
    destruct (user_byte_page s l d tabs us va p fl) as [-> _]; try done; [lia|].
    destruct (has (Z.land 7 fl) PTE_U); [|done]. f_equal. rewrite p2v_page by done. apply page_byte_same; try done.
    intros i Hi. apply (word_at_same ps); try done. intros H. apply (Hd _ H), elem_of_cons. right.
    apply elem_of_app. right. by eapply values_lookup.
  - rewrite (mmu_none s l d tabs); [done|apply U|lia|by apply U].
Qed.

(** ** Shrinking and freeing *)
Lemma user_byte_shrinks d tabs s l us s' l' us' va :
  uvm_ok s l d tabs us -> uvm_shrinks d tabs s l us s' l' us' -> 0 <= va ->
  is_Some (us' !! (va / 4096)) -> user_byte (mem s') d va = user_byte (mem s) d va.
Proof.
  intros U H Hva [p Hp']. pose proof (uh_ok _ _ _ _ _ _ _ _ H) as U'.
  pose proof (lookup_weaken _ _ _ _ Hp' (uh_sub _ _ _ _ _ _ _ _ H)) as Hp.
  destruct (uk_frame _ _ _ _ _ U _ _ Hp) as (Hn & Hpp & fl & Hf & Hh & Hpt).
  destruct (user_byte_page s l d tabs us va p fl) as [_ ->]; [done..|].
  destruct (user_byte_page s' l' d tabs us' va p fl) as [_ ->]; try done.
  { rewrite (uh_pt _ _ _ _ _ _ _ _ H); [done|lia|by rewrite Hp, Hp']. }
  destruct (has fl PTE_U); [|done]. f_equal. apply page_byte_same; try done; [by apply Z.mod_pos_bound|].
  intros i Hi. apply (word_at_same (values tabs ++ l')); try done; [apply H| |].
  - intros q Hq. apply (vm_ok_pages _ _ _ _ _ (uk_vm _ _ _ _ _ U')). by right.
  - pose proof (uk_nodup _ _ _ _ _ U') as [_ D]%list.NoDup_cons. pose proof (values_lookup _ _ _ Hp') as Hv.
    apply list.NoDup_app in D as (_ & D1 & D2). apply list.NoDup_app in D2 as (_ & D2 & _).
    intros [Hq|Hq]%elem_of_app; [|by apply (D2 p)]. apply (D1 p); [done|]. apply elem_of_app. by left.
Qed.

(** Deallocuvm takes the process down to [newsz]: the bytes of the remaining
    pages read as before, the addresses above fault, and the pages given up are
    exactly the ones added to the free list. *)
Theorem deallocuvm_shrinks s l d tabs us oldsz newsz :
  uvm_ok s l d tabs us -> contiguous us (npages oldsz) -> 0 <= newsz < oldsz -> oldsz <= KERNBASE ->
  wp (deallocuvm d oldsz newsz) s (fun r s' => r = newsz /\ exists l' us',
    uvm_ok s' l' d tabs us' /\ contiguous us' (npages newsz) /\ values us' ++ l' ≡ₚ values us ++ l /\
    us' ⊆ us /\ vm_frame s s' /\
    (forall va, 0 <= va < npages newsz * 4096 -> user_byte (mem s') d va = user_byte (mem s) d va) /\
    forall va, npages newsz * 4096 <= va < KERNBASE -> mmu (mem s') d va = None).
Proof.
  intros U C Hsz Hk. pose proof (npages_mono newsz oldsz ltac:(lia)).
  eapply wp_mono; [by apply (deallocuvm_spec s l d tabs us oldsz newsz (npages oldsz))|].
  intros r s' (-> & l' & us' & H' & C'). split; [done|]. exists l', us'. pose proof (npages_bound newsz).
  split; [apply H'|]. split; [done|]. split; [apply H'|]. split; [apply H'|]. split; [apply H'|]. split.
  - intros va Hva. apply (user_byte_shrinks d tabs s l us s' l' us'); [done|done|lia|]. apply C'.
    split; [apply Z.div_pos; lia|apply Z.div_lt_upper_bound; lia].
  - intros va Hva. unfold KERNBASE in Hva. apply (mmu_none s' l' d tabs); [apply H'|lia|].
    assert (npages newsz <= va / 4096) as Hd by (apply Z.div_le_lower_bound; lia).
    apply (uk_none _ _ _ _ _ (uh_ok _ _ _ _ _ _ _ _ H')).
    { split; [lia|apply Z.div_lt_upper_bound; lia]. }
    destruct (us' !! (va / 4096)) eqn:E; [|done].
    assert (is_Some (us' !! (va / 4096))) as Hs%C' by (by eexists). lia.
Qed.

(** C32: freevm gives every page of an address space back to the allocator, the
    user pages, the page tables and the directory, and does not change what a
    process with another address space reads. *)
Theorem freevm_returns s l d tabs us N d2 tabs2 us2 :
  uvm_ok s l d tabs us -> contiguous us N -> 0 <= N ->
  uvm_ok s l d2 tabs2 us2 ->
  (forall p, p ∈ d :: values tabs ++ values us -> p ∉ d2 :: values tabs2 ++ values us2) ->
  wp (freevm d) s (fun _ s' => exists l',
    kmem_rep s' l' /\ l' ≡ₚ d :: values tabs ++ values us ++ l /\ vm_frame s s' /\
    forall va, 0 <= va < KERNBASE -> user_byte (mem s') d2 va = user_byte (mem s) d2 va).
Proof.
  intros U C HN U2 A. eapply wp_mono; [by apply (freevm_spec s l d tabs us N)|].
  intros r s' (l' & K & P & F & M). exists l'. split; [done|]. split; [done|]. split; [done|].
  intros va Hva. apply (user_byte_apart s l d2 tabs2 us2 l'); try done.
  - intros p Hp. eapply free_list_pages; [apply K|done].
  - intros p. rewrite P, elem_of_cons, !elem_of_app. intros H H2.
    assert (p ∈ l \/ p ∈ d :: values tabs ++ values us) as [Hl|Ho].
    { rewrite elem_of_cons, elem_of_app. tauto. }
    + pose proof (uk_nodup _ _ _ _ _ U2) as D. rewrite app_assoc in D.
      change (d2 :: (values tabs2 ++ values us2) ++ l) with ((d2 :: values tabs2 ++ values us2) ++ l) in D.
      apply list.NoDup_app in D as (_ & D & _). by apply (D p).
    + by apply (A p).
Qed.

(** ** Copying *)
Lemma copy_same dst src m : same_outside [dst] m (copy_words dst src 1024 m).
Proof.
  intros a Ha. unfold copy_words.
  assert (forall k, (k <= 1024)%nat -> foldl (fun m' i => <[dst + 4 * Z.of_nat i :=
    word_at m (src + 4 * Z.of_nat i)]> m') m (seq 0 k) !! a = m !! a) as H; [|by apply H].
  induction k as [|k IH]; intros Hk; [done|]. rewrite seq_S, foldl_snoc, lookup_insert_ne; [apply IH; lia|].
  intros <-. apply (Ha dst); [by left|lia].
Qed.

Lemma copy_word dst src k i m :
  (i < k)%nat -> word_at (copy_words dst src k m) (dst + 4 * Z.of_nat i) = word_at m (src + 4 * Z.of_nat i).
Proof.
  unfold copy_words. induction k as [|k IH]; intros Hi; [lia|].
  rewrite seq_S, foldl_snoc, word_at_insert. case_decide as E.
  - by replace (0 + k)%nat with i by lia.
  - apply IH. assert (i <> k) by (intros ->; done). lia.
Qed.

(** An address space is not affected by what happens in pages that are not its own. *)
Lemma uvm_apart s l d tabs us ps s' l' used :
  uvm_ok s l d tabs us -> kmem_rep s' l' -> KmemLock ∉ held s' -> l = used ++ l' ->
  same_outside ps (mem s) (mem s') -> (forall p, p ∈ ps -> page p) ->
  (forall p, p ∈ ps -> p ∉ d :: values tabs ++ values us) ->
  uvm_ok s' l' d tabs us /\ (forall n, pt (mem s') tabs n = pt (mem s) tabs n) /\
  forall n p i, us !! n = Some p -> 0 <= i < 1024 ->
    word_at (mem s') (p + 4 * i) = word_at (mem s) (p + 4 * i).
Proof.
  intros U K L -> Hs Hps Hd. pose proof U as [V F N D]. pose proof V as [_ _ P T E D'].
  assert (forall n, pt (mem s') tabs n = pt (mem s) tabs n) as Hpt.
  { intros n. apply (pt_same s _ d tabs ps _ n V Hs Hps). intros p Hp Hp'. apply (Hd p Hp').
    apply elem_of_cons. right. apply elem_of_app. by left. }
  split; [|split; [done|]].
  - split; [split; try done|..].
    + intros i Hi. rewrite (word_at_same ps (mem s)); [by apply E|done..|].
      intros H. apply (Hd d H). by left.
    + apply (sublist_NoDup _ _ D'). by apply sublist_skip, sublist_app, sublist_inserts_l.
    + intros n p Hn. rewrite Hpt. by apply F.
    + intros n Hn Hn'. rewrite Hpt. by apply N.
    + apply (sublist_NoDup _ _ D). by apply sublist_skip, sublist_app, sublist_app, sublist_inserts_l.
  - intros n p i Hn Hi. apply (word_at_same ps); [done|by apply (F n)|done|done|].
    intros H. apply (Hd p H). apply elem_of_cons. right. apply elem_of_app. right. by eapply values_lookup.
Qed.

(** Page [j] of two address spaces: different frames with the same contents and
    the same protection. *)
Definition same_page (s : kstate) (ptabs pus tabs us : gmap Z Z) (j : Z) : Prop :=
  exists p q fl, pus !! j = Some p /\ us !! j = Some q /\
    pt (mem s) ptabs j = v2p p + fl /\ pt (mem s) tabs j = v2p q + fl /\
    forall i, 0 <= i < 1024 -> word_at (mem s) (q + 4 * i) = word_at (mem s) (p + 4 * i).

Section Copy.
Context (pd d : Z) (ptabs pus : gmap Z Z).

(** The parent's address space and the child's, sharing no page. *)
Record two_spaces (s : kstate) (l : list Z) (tabs us : gmap Z Z) : Prop := {
  two_parent : uvm_ok s l pd ptabs pus;
  two_child : uvm_ok s l d tabs us;
  two_apart : forall p, p ∈ d :: values tabs ++ values us ++ l -> p ∉ pd :: values ptabs ++ values pus
}.

Lemma uvm_grows_pages s l tabs us s' l' tabs' us' :
  uvm_grows d s l tabs us s' l' tabs' us' ->
  d :: values tabs' ++ values us' ++ l' ≡ₚ d :: values tabs ++ values us ++ l.
Proof.
  intros [_ _ (used & -> & P) _ _ _ _ _]. constructor.
  rewrite (app_assoc (values tabs')), P. solve_Permutation.
Qed.

Lemma two_spaces_grow s l tabs us s' l' tabs' us' :
  two_spaces s l tabs us -> uvm_grows d s l tabs us s' l' tabs' us' ->
  two_spaces s' l' tabs' us' /\ (forall n, pt (mem s') ptabs n = pt (mem s) ptabs n) /\
  forall n p i, pus !! n = Some p -> 0 <= i < 1024 ->
    word_at (mem s') (p + 4 * i) = word_at (mem s) (p + 4 * i).
Proof.
  intros [U1 U2 A] G. pose proof (ug_ok _ _ _ _ _ _ _ _ _ G) as [[K L _ _ _ _] _ _ _].
  destruct (ug_used _ _ _ _ _ _ _ _ _ G) as (used & El & _).
  destruct (uvm_apart s l pd ptabs pus (d :: values tabs ++ l) s' l' used U1 K L El) as (U1' & B & C).
  - apply G.
  - intros p Hp. by apply (vm_ok_pages _ _ _ _ _ (uk_vm _ _ _ _ _ U2)).
  - intros p Hp. apply A. rewrite elem_of_cons, elem_of_app in *. rewrite elem_of_app. tauto.
  - split; [|done]. split; [done|apply G|]. intros p. rewrite (uvm_grows_pages _ _ _ _ _ _ _ _ G). apply A.
Qed.

Lemma same_page_grows s l tabs us s' l' tabs' us' j :
  two_spaces s l tabs us -> uvm_grows d s l tabs us s' l' tabs' us' ->
  same_page s ptabs pus tabs us j -> same_page s' ptabs pus tabs' us' j.
Proof.
  intros W G (p & q & fl & Hp & Hq & Pp & Pq & Hw). destruct (two_spaces_grow _ _ _ _ _ _ _ _ W G) as (_ & B & C).
  pose proof (two_child _ _ _ _ W) as U. destruct (uk_frame _ _ _ _ _ U _ _ Hq) as ((Hj & _) & _).
  pose proof (lookup_weaken _ _ _ _ Hq (ug_sub _ _ _ _ _ _ _ _ _ G)) as Hq'.
  exists p, q, fl. split; [done|]. split; [done|]. split; [by rewrite B|]. split.
  - rewrite (ug_pt _ _ _ _ _ _ _ _ _ G); [done|done|by rewrite Hq, Hq'].
  - intros i Hi. rewrite (frame_word _ _ _ _ _ _ _ _ _ _ _ _ U G Hq Hi), (C _ _ _ Hp Hi). by apply Hw.
Qed.

(** A page of the parent is found through its page table. *)
Lemma walk_user s l n p :
  uvm_ok s l pd ptabs pus -> pus !! n = Some p ->
  exists t fl, runs (walkpgdir pd (n * 4096) false) s (t + 4 * (n mod 1024)) s /\ t + 4 * (n mod 1024) <> 0 /\
    word_at (mem s) (t + 4 * (n mod 1024)) = v2p p + fl /\ 0 <= fl < 4096 /\ has fl PTE_P = true /\ page p /\
    pt (mem s) ptabs n = v2p p + fl.
Proof.
  intros U Hn. destruct (user_table _ _ _ _ _ _ _ U Hn) as (t & fl & Ht & Hfl & Hh & Hw & Hpt).
  destruct (uk_frame _ _ _ _ _ U _ _ Hn) as (Hr & Hp & _).
  destruct (vk_tab _ _ _ _ (uk_vm _ _ _ _ _ U) _ _ Ht) as [_ Htp].
  assert (n * 4096 / 4096 = n) as Ed by (by apply Z.div_mul).
  exists t, fl. split.
  { pose proof (walk_present s l pd ptabs (n * 4096) false t (uk_vm _ _ _ _ _ U)) as W.
    rewrite Ed in W. apply W; [lia|done]. }
  pose proof (Z.mod_pos_bound n 1024 ltac:(lia)). pose proof (page_pos t Htp). split; [lia|done].
Qed.

Lemma copyuvm_loop_spec sz k : forall fuel s l tabs us n,
  (k <= fuel)%nat -> two_spaces s l tabs us -> contiguous us n -> 0 <= n ->
  (forall j, 0 <= j < n + Z.of_nat k -> is_Some (pus !! j)) ->
  (n + Z.of_nat k) * 4096 - 4096 < sz <= (n + Z.of_nat k) * 4096 -> sz < 2 ^ 31 ->
  (k + k <= length l)%nat ->
  wp (copyuvm_loop fuel pd d sz (n * 4096)) s (fun r s' => r = true /\
    exists l' tabs' us', uvm_grows d s l tabs us s' l' tabs' us' /\ two_spaces s' l' tabs' us' /\
      contiguous us' (n + Z.of_nat k) /\
      forall j, n <= j < n + Z.of_nat k -> same_page s' ptabs pus tabs' us' j).
Proof.
  induction k as [|k IH]; intros fuel s l tabs us n Hfuel W C Hn HP Hsz Hmax Hl.
  - assert (negb (n * 4096 <? sz) = true) as E by (apply negb_true_iff, Z.ltb_ge; lia).
    destruct fuel; cbn [copyuvm_loop]; rewrite E; apply wp_ret; (split; [done|]);
      exists l, tabs, us; (split; [by apply uvm_grows_refl, W|]); (split; [done|]); rewrite Z.add_0_r;
      (split; [done|]); lia.
  - destruct fuel as [|fuel]; [lia|]. cbn [copyuvm_loop].
    rewrite (proj2 (Z.ltb_lt (n * 4096) sz)) by lia. cbn [negb].
    destruct (HP n) as [p Hpn]; [lia|].
    destruct (walk_user s l n p (two_parent _ _ _ _ W) Hpn) as (t & fl & Rw & Ht0 & Hw & Hfl & Hh & Hpp & Hpt).
    eapply wp_bind_runs; [exact Rw|]. rewrite (proj2 (Z.eqb_neq _ 0)) by done.
    apply wp_bind, wp_gets. rewrite Hw. destruct (page_v2p p Hpp) as (_ & Hpm & Hpv & _).
    rewrite entry_has, Hh, entry_addr, entry_flags, Hpv by done. cbn [negb].
    destruct l as [|q l]; [cbn in Hl; lia|]. cbn [length] in Hl.
    pose proof (two_child _ _ _ _ W) as U.
    destruct (take_page _ _ _ _ _ _ _ U (copy_same q p _)) as (_ & Hq & _ & _ & _ & _ & Rk & Hq0).
    eapply wp_bind_runs; [exact Rk|]. rewrite (proj2 (Z.eqb_neq q 0)) by done.
    apply wp_bind, wp_modify. change (mem (popped s)) with (mem s). apply wp_bind.
    assert (us !! n = None) as Hun.
    { destruct (us !! n) eqn:E; [|done]. assert (is_Some (us !! n)) as Hs by (by eexists).
      apply C in Hs. lia. }
    eapply wp_mono; [apply (add_user_page s l d tabs us q _ n fl U (copy_same q p _) Hun); [lia| |done]|].
    { pose proof (tables_needed_1 (dom tabs) n). lia. }
    intros r s1 (-> & l1 & tabs1 & G1 & Hl1 & Hpt1 & Hw1). cbn [Z.ltb Z.compare].
    destruct (two_spaces_grow _ _ _ _ _ _ _ _ W G1) as (W1 & B1 & C1).
    assert (same_page s1 ptabs pus tabs1 (<[n := q]> us) n) as Hs.
    { exists p, q, fl. rewrite lookup_insert_eq, B1, Hpt1, has_present by done. do 4 (split; [done|]).
      intros i Hi. rewrite Hw1, (C1 _ _ _ Hpn) by done. rewrite <- (Z2Nat.id i) by lia. apply copy_word. lia. }
    rewrite u32_small by (unfold PGSIZE; lia).
    replace (n * 4096 + PGSIZE) with ((n + 1) * 4096) by (unfold PGSIZE; lia).
    eapply wp_mono; [apply (IH fuel s1 l1 tabs1 (<[n := q]> us) (n + 1)); try done; try lia|].
    + intros j. rewrite lookup_insert_is_Some. rewrite (C j). lia.
    + intros j Hj. apply HP. lia.
    + intros r' s2 (-> & l2 & tabs2 & us2 & G2 & W2 & C2 & Z2). split; [done|].
      exists l2, tabs2, us2. split; [by eapply uvm_grows_trans|]. split; [done|].
      split; [by replace (n + Z.of_nat (S k)) with (n + 1 + Z.of_nat k) by lia|].
      intros j Hj. destruct (decide (j = n)) as [->|].
      * eapply same_page_grows; [exact W1|exact G2|done].
      * apply Z2. lia.
Qed.
End Copy.

Lemma set_byte_same p o b m : page p -> 0 <= o < 4096 -> same_outside [p] m (set_byte m (p + o) b).
Proof.
  intros [Hp _] Ho a Ha. unfold set_byte. apply lookup_insert_ne. intros <-. apply (Ha p); [by left|].
  unfold PGSIZE in Hp. pose proof (Z.mod_pos_bound (p + o) 4 ltac:(lia)). split; [|lia].
  assert (p mod 4 = 0) as H4.
  { apply Z.mod_divide; [lia|]. apply Z.mod_divide in Hp as [z ->]; [|lia]. exists (z * 1024). lia. }
  pose proof (Z.div_mod (p + o) 4 ltac:(lia)). pose proof (Z.div_mod p 4 ltac:(lia)).
  assert (p / 4 <= (p + o) / 4) by (apply Z.div_le_mono; lia). lia.
Qed.

(** The state after copyuvm of [sz] bytes of the address space at [pd]. *)
Record copied (pd sz : Z) (ptabs pus : gmap Z Z) (s : kstate) (l : list Z) (d : Z)
    (s' : kstate) (l' : list Z) (tabs us : gmap Z Z) : Prop := {
  cp_two : two_spaces pd d ptabs pus s' l' tabs us;
  cp_size : contiguous us (npages sz);
  cp_page : forall j, 0 <= j < npages sz -> same_page s' ptabs pus tabs us j;
  cp_kernel : forall j, npages sz <= j < 2 ^ 20 -> pt (mem s') tabs j = kernel_pt j;
  cp_pages : d :: values tabs ++ values us ++ l' ≡ₚ d :: l;
  cp_frame : vm_frame s s';
  cp_mem : same_outside (d :: l) (mem s) (mem s')
}.

Lemma setup_two pd ptabs pus s l d s' l' tabs :
  uvm_ok s (d :: l) pd ptabs pus -> fresh_space s l d s' l' tabs ->
  two_spaces pd d ptabs pus s' l' tabs ∅.
Proof.
  intros U [U' _ (used & -> & P) _ _ M]. pose proof (uk_nodup _ _ _ _ _ U) as D. rewrite app_assoc in D.
  change (NoDup ((pd :: values ptabs ++ values pus) ++ d :: used ++ l')) in D.
  apply list.NoDup_app in D as (_ & D & _).
  assert (forall p, p ∈ d :: values tabs ++ values ∅ ++ l' -> p ∉ pd :: values ptabs ++ values pus) as A.
  { intros p Hp Hq. apply (D p Hq). revert Hp. unfold values at 2.
    rewrite map_to_list_empty, P, !elem_of_cons, !elem_of_app, elem_of_nil. tauto. }
  split; [|done|done].
  apply (uvm_apart s (d :: used ++ l') pd ptabs pus (d :: values tabs) s' l' (d :: used)); try done.
  - apply U'.
  - apply U'.
  - intros p Hp. apply (vm_ok_pages _ _ _ _ _ (uk_vm _ _ _ _ _ U')). revert Hp.
    rewrite !elem_of_cons, elem_of_app. tauto.
  - intros p Hp. apply A. revert Hp. rewrite !elem_of_cons, elem_of_app. tauto.
Qed.

Lemma copy_space s l d pd ptabs pus sz :
  uvm_ok s (d :: l) pd ptabs pus -> (forall j, 0 <= j < npages sz -> is_Some (pus !! j)) ->
  0 <= sz < KERNBASE -> 66 + 2 * npages sz <= Z.of_nat (length l) ->
  wp (copyuvm pd sz) s (fun r s' => r = d /\ exists l' tabs us, copied pd sz ptabs pus s l d s' l' tabs us).
Proof.
  intros U C Hsz Hl. unfold copyuvm. pose proof (npages_bound sz) as Hb.
  pose proof (npages_fuel 0 sz ltac:(lia)) as Hfuel. change (npages 0) with 0 in Hfuel.
  set (k := Z.to_nat (npages sz)). assert (npages sz = Z.of_nat k) as Ek by lia.
  apply wp_bind. eapply wp_mono; [apply setup_space; [apply U|apply U|lia]|].
  intros r s1 (-> & l1 & tabs1 & FS). pose proof (setup_two _ _ _ _ _ _ _ _ _ U FS) as W.
  destruct FS as [U1 Hk (used & -> & P) Hlen F M].
  rewrite (proj2 (Z.eqb_neq d 0)) by (apply page_pos, U1). apply wp_bind. unfold KERNBASE in Hsz.
  change 0 with (0 * 4096) at 2. rewrite length_app in Hl, Hlen.
  eapply wp_mono; [apply (copyuvm_loop_spec pd d ptabs pus sz k _ s1 l1 tabs1 ∅ 0); try done; try lia|].
  { intros j. rewrite lookup_empty. split; [by intros []|lia]. }
  { intros j Hj. apply C. lia. }
  intros r s2 (-> & l2 & tabs2 & us2 & G & W2 & C2 & Hp). apply wp_ret. split; [done|].
  exists l2, tabs2, us2. rewrite Z.add_0_l in *. pose proof (uvm_grows_pages _ _ _ _ _ _ _ _ _ G) as GP.
  unfold values at 4 in GP. rewrite map_to_list_empty, P in GP. split; try done.
  - by rewrite Ek.
  - rewrite Ek. done.
  - intros j Hj. rewrite <- Hk by lia. apply (ug_pt _ _ _ _ _ _ _ _ _ G); [lia|]. rewrite lookup_empty.
    destruct (us2 !! j) eqn:E; [|done]. assert (is_Some (us2 !! j)) as Hs%C2 by (by eexists). lia.
  - eapply vm_frame_trans; [exact F|apply G].
  - eapply same_outside_weaken; [eapply same_outside_trans; [exact M|apply G]|].
    intros p. rewrite !elem_of_app, !elem_of_cons, !elem_of_app, P. tauto.
Qed.

Lemma same_page_byte pd d ptabs pus s l tabs us va :
  two_spaces pd d ptabs pus s l tabs us -> 0 <= va -> same_page s ptabs pus tabs us (va / 4096) ->
  user_byte (mem s) d va = user_byte (mem s) pd va.
Proof.
  intros [U1 U2 _] Hva (p & q & fl & Hp & Hq & Pp & Pq & Hw).
  destruct (uk_frame _ _ _ _ _ U1 _ _ Hp) as (_ & Hpp & fl' & Hf & Hh & Hpt).
  assert (fl' = fl) as -> by lia. destruct (uk_frame _ _ _ _ _ U2 _ _ Hq) as (_ & Hqq & _).
  destruct (user_byte_page s l pd ptabs pus va p fl) as [_ ->]; [done..|].
  destruct (user_byte_page s l d tabs us va q fl) as [_ ->]; [done..|].
  destruct (has fl PTE_U); [|done]. f_equal. apply page_byte_same; try done. by apply Z.mod_pos_bound.
Qed.

(** A process keeps its memory while a copy is made. *)
Lemma copied_parent pd sz ptabs pus s l d s' l' tabs us va :
  uvm_ok s (d :: l) pd ptabs pus -> copied pd sz ptabs pus s l d s' l' tabs us -> 0 <= va < KERNBASE ->
  user_byte (mem s') pd va = user_byte (mem s) pd va.
Proof.
  intros U Cp Hva. apply (user_byte_apart s (d :: l) pd ptabs pus (d :: l)); [done|apply Cp| | |done].
  - intros p Hp. eapply free_list_pages; [apply U|done].
  - intros p. rewrite <- (cp_pages _ _ _ _ _ _ _ _ _ _ _ Cp). apply Cp.
Qed.

(** C16: copyuvm, with enough free pages, returns a directory through which the
    child reads in its first [sz] bytes what the parent reads, and above them
    what setupkvm maps.  The parent's memory does not change, and no store the
    child can make changes what the parent reads. *)
Theorem copyuvm_copies s l d pd ptabs pus sz :
  uvm_ok s (d :: l) pd ptabs pus -> (forall j, 0 <= j < npages sz -> is_Some (pus !! j)) ->
  0 <= sz < KERNBASE -> 66 + 2 * npages sz <= Z.of_nat (length l) ->
  wp (copyuvm pd sz) s (fun r s' => r = d /\ vm_frame s s' /\
    (forall va, 0 <= va < npages sz * 4096 -> user_byte (mem s') d va = user_byte (mem s) pd va) /\
    (forall va, npages sz * 4096 <= va < 2 ^ 32 -> mmu (mem s') d va = kernel_map va) /\
    (forall va, 0 <= va < KERNBASE -> user_byte (mem s') pd va = user_byte (mem s) pd va) /\
    (forall va pa fl b vb, 0 <= va < npages sz * 4096 -> 0 <= vb < KERNBASE ->
      mmu (mem s') d va = Some (pa, fl) ->
      user_byte (set_byte (mem s') (p2v pa) b) pd vb = user_byte (mem s') pd vb)).
Proof.
  intros U C Hsz Hl. eapply wp_mono; [by apply (copy_space s l d pd ptabs pus sz)|].
  intros r s' (-> & l' & tabs & us & Cp). split; [done|]. split; [apply Cp|].
  pose proof (npages_bound sz) as Hb. unfold KERNBASE in Hsz.
  assert (forall va, 0 <= va < npages sz * 4096 -> 0 <= va / 4096 < npages sz) as Hd.
  { intros va Hva. split; [apply Z.div_pos; lia|apply Z.div_lt_upper_bound; lia]. }
  pose proof (fun va => copied_parent pd sz ptabs pus s l d s' l' tabs us va U Cp) as Hpar.
  destruct (cp_two _ _ _ _ _ _ _ _ _ _ _ Cp) as [Up Uc Ap]. split; [|split; [|split]].
  - intros va Hva. rewrite <- Hpar by (unfold KERNBASE; lia).
    apply (same_page_byte pd d ptabs pus s' l' tabs us); [apply Cp|lia|]. by apply Cp, Hd.
  - intros va Hva. apply (mmu_kernel s' l' d tabs); [apply Uc|lia|].
    apply (cp_kernel _ _ _ _ _ _ _ _ _ _ _ Cp).
    split; [apply Z.div_le_lower_bound; lia|apply Z.div_lt_upper_bound; lia].
  - done.
  - intros va pa fl b vb Hva Hvb Hm.
    destruct (proj2 (cp_size _ _ _ _ _ _ _ _ _ _ _ Cp _) (Hd va Hva)) as [q Hq].
    destruct (uk_frame _ _ _ _ _ Uc _ _ Hq) as (_ & Hqp & fq & Hf & Hh & Hpt).
    destruct (user_byte_page s' l' d tabs us va q fq) as [E _]; try done; [lia|].
    rewrite E in Hm. injection Hm as <- _. pose proof (Z.mod_pos_bound va 4096 ltac:(lia)).
    rewrite p2v_page by done.
    apply (user_byte_apart s' l' pd ptabs pus [q]); [done|by apply set_byte_same| | |done].
    + by intros p ->%list_elem_of_singleton.
    + intros p ->%list_elem_of_singleton. apply Ap. apply elem_of_cons. right. apply elem_of_app. right.
      apply elem_of_app. left. by eapply values_lookup.
Qed.

(** Making a copy of an address space and freeing it gives every page back:
    the free list holds the same pages as before, and the parent's memory is
    what it was. *)
Theorem copyuvm_freevm s l d pd ptabs pus sz :
  uvm_ok s (d :: l) pd ptabs pus -> (forall j, 0 <= j < npages sz -> is_Some (pus !! j)) ->
  0 <= sz < KERNBASE -> 66 + 2 * npages sz <= Z.of_nat (length l) ->
  wp (let! c := copyuvm pd sz in freevm c) s (fun _ s' => exists l',
    kmem_rep s' l' /\ l' ≡ₚ d :: l /\ vm_frame s s' /\
    forall va, 0 <= va < KERNBASE -> user_byte (mem s') pd va = user_byte (mem s) pd va).
Proof.
  intros U C Hsz Hl. apply wp_bind. eapply wp_mono; [by apply (copy_space s l d pd ptabs pus sz)|].
  intros r s1 (-> & l1 & tabs & us & Cp). pose proof (npages_bound sz) as Hb.
  destruct (cp_two _ _ _ _ _ _ _ _ _ _ _ Cp) as [Up Uc Ap].
  eapply wp_mono; [apply (freevm_spec s1 l1 d tabs us (npages sz)); [done|apply Cp|lia]|].
  intros ? s2 (l2 & K2 & P2 & F2 & M2). exists l2. split; [done|].
  split; [by rewrite P2, (cp_pages _ _ _ _ _ _ _ _ _ _ _ Cp)|].
  split; [eapply vm_frame_trans; [apply Cp|done]|]. intros va Hva.
  rewrite <- (copied_parent pd sz ptabs pus s l d s1 l1 tabs us va U Cp Hva).
  apply (user_byte_apart s1 l1 pd ptabs pus l2); try done.
  - intros p Hp. eapply free_list_pages; [apply K2|done].
  - intros p. rewrite P2. apply Ap.
Qed.

(** ** Running out of memory *)
Lemma uvm_ok_frame s l d tabs us s' :
  uvm_ok s l d tabs us -> mem s' = mem s -> km_freelist (kmem s') = km_freelist (kmem s) ->
  held s' = held s -> uvm_ok s' l d tabs us.
Proof.
  intros [[[A A'] B C D E F] G H I] Em Ef Eh. split; [split|..]; rewrite ?Em, ?Eh; try done.
  split; [|done]. by rewrite Em, Ef.
Qed.

(** From [s] to [s'] the address space at [d] has grown as far as it could and
    then shrunk to [n] pages. *)
Definition grown_back (d : Z) (s : kstate) (l : list Z) (tabs us : gmap Z Z) (n : Z) (s' : kstate) : Prop :=
  exists s1 l1 tabs1 us1 s2 l2 us2,
    uvm_grows d s l tabs us s1 l1 tabs1 us1 /\ mem s2 = mem s1 /\ uvm_ok s2 l1 d tabs1 us1 /\
    uvm_shrinks d tabs1 s2 l1 us1 s' l2 us2 /\ contiguous us2 n.

Lemma allocuvm_fails d oldsz newsz fuel s tabs us n :
  uvm_ok s [] d tabs us -> contiguous us n -> 0 <= oldsz <= n * 4096 -> n * 4096 < newsz -> newsz < KERNBASE ->
  npages oldsz <= n -> console_ok (console s) -> ConsLock ∉ held s ->
  wp (allocuvm_loop fuel d oldsz newsz (n * 4096)) s (fun r s' =>
    r = 0 /\ grown_back d s [] tabs us (npages oldsz) s').
Proof.
  intros U C Hold Hn Hk Hp Hc Hl. unfold KERNBASE in Hk.
  destruct (kalloc_spec s _ (vk_free _ _ _ _ (uk_vm _ _ _ _ _ U))) as [_ Hf]. cbn in Hf.
  assert (runs kalloc s 0 (popped s)) as R by (rewrite <- Hf; apply kalloc_runs, U).
  destruct (cprintf_some (lit "allocuvm out of memory" ++ [nl]) [] (popped s)) as (b & cn & Rc & _); try done.
  pose proof (npages_bound newsz) as Hb.
  assert (uvm_ok (set_console cn (popped s)) [] d tabs us) as U2.
  { apply (uvm_ok_frame s); try done. unfold popped. rewrite Hf. done. }
  destruct fuel; cbn [allocuvm_loop]; rewrite (proj2 (Z.ltb_lt (n * 4096) newsz)) by lia; cbn [negb];
    (eapply wp_bind_runs; [exact R|]); rewrite Z.eqb_refl; (eapply wp_bind_runs; [exact Rc|]);
    apply wp_bind; (eapply wp_mono; [apply (deallocuvm_spec _ [] d tabs us newsz oldsz n); try done; lia|]);
    intros r s' (-> & l' & us' & H & C'); apply wp_ret; (split; [done|]);
    exists s, [], tabs, us, (set_console cn (popped s)), l', us';
    (split; [by apply uvm_grows_refl|]); done.
Qed.

Lemma grown_back_grows d s l tabs us s1 l1 tabs1 us1 n s' :
  uvm_grows d s l tabs us s1 l1 tabs1 us1 -> grown_back d s1 l1 tabs1 us1 n s' ->
  grown_back d s l tabs us n s'.
Proof.
  intros G (s2 & l2 & tabs2 & us2 & s3 & l3 & us3 & G2 & H). exists s2, l2, tabs2, us2, s3, l3, us3.
  split; [by eapply uvm_grows_trans|done].
Qed.

Lemma allocuvm_loop_oom d oldsz newsz : newsz < KERNBASE -> forall m fuel s l tabs us n,
  (length l <= m)%nat -> (length l <= fuel)%nat ->
  uvm_ok s l d tabs us -> contiguous us n -> 0 <= oldsz <= n * 4096 -> npages oldsz <= n ->
  (n + Z.of_nat (length l)) * 4096 < newsz -> (forall j, n <= j < npages newsz -> is_Some (tabs !! (j / 1024))) ->
  console_ok (console s) -> ConsLock ∉ held s ->
  wp (allocuvm_loop fuel d oldsz newsz (n * 4096)) s (fun r s' =>
    r = 0 /\ grown_back d s l tabs us (npages oldsz) s').
Proof.
  intros Hk m. induction m as [|m IH]; intros fuel s l tabs us n Hm Hfuel U C Hold Hp Hn HT Hc Hl.
  { destruct l; [|cbn in Hm; lia]. apply allocuvm_fails; try done; cbn in Hn; lia. }
  destruct l as [|q l]; [apply allocuvm_fails; try done; cbn in Hn; lia|].
  cbn [length] in *. destruct fuel as [|fuel]; [lia|]. cbn [allocuvm_loop]. pose proof (npages_bound newsz).
  rewrite (proj2 (Z.ltb_lt (n * 4096) newsz)) by lia. cbn [negb]. unfold KERNBASE in Hk.
  destruct (take_page _ _ _ _ _ _ (fill_words q 0 1024 (mem s)) U (fill_same q 0 _))
    as (_ & Hq & _ & _ & _ & _ & Rk & Hq0).
  eapply wp_bind_runs; [exact Rk|]. rewrite (proj2 (Z.eqb_neq q 0)) by done.
  apply wp_bind, wp_modify. rewrite Z.mul_0_l. change (mem (popped s)) with (mem s).
  change (Z.lor PTE_W PTE_U) with 6. apply wp_bind.
  assert (us !! n = None) as Hun.
  { destruct (us !! n) eqn:E; [|done]. assert (is_Some (us !! n)) as Hs%C by (by eexists). lia. }
  assert (tables_needed (dom tabs) n 1 = 0%nat) as H0.
  { cbn. by rewrite decide_True by (apply elem_of_dom, HT; lia). }
  eapply wp_mono; [apply (add_user_page s l d tabs us q _ n 6 U (fill_same q 0 _) Hun); [lia|lia|done]|].
  intros r s1 (_ & l1 & tabs1 & G1 & Hl1 & _ & _).
  rewrite u32_small by (unfold PGSIZE; lia).
  replace (n * 4096 + PGSIZE) with ((n + 1) * 4096) by (unfold PGSIZE; lia).
  pose proof (ug_frame _ _ _ _ _ _ _ _ _ G1) as F1.
  eapply wp_mono; [apply (IH fuel s1 l1 tabs1 (<[n := q]> us) (n + 1)); try lia|].
  - apply G1.
  - intros j. rewrite lookup_insert_is_Some. rewrite (C j). lia.
  - intros j Hj. destruct (HT j) as [t Ht]; [lia|]. exists t.
    by apply (lookup_weaken _ _ _ _ Ht (ug_sub_tabs _ _ _ _ _ _ _ _ _ G1)).
  - by rewrite F1.
  - by rewrite F1.
  - intros r' s2 (-> & B). split; [done|]. by eapply grown_back_grows.
Qed.

Lemma contiguous_eq us us1 us' n :
  contiguous us n -> contiguous us' n -> us ⊆ us1 -> us' ⊆ us1 -> us' = us.
Proof.
  intros C C' S S'. apply map_eq. intros j. destruct (us !! j) as [p|] eqn:E.
  - assert (is_Some (us' !! j)) as [q Hq] by (apply C', C; by eexists).
    rewrite Hq, <- (lookup_weaken _ _ _ _ Hq S'). by apply (lookup_weaken us us1).
  - destruct (us' !! j) eqn:E'; [|done]. assert (is_Some (us !! j)) as [q Hq] by (apply C, C'; by eexists).
    congruence.
Qed.

(** Allocuvm without enough free pages (the page tables for the range being
    there) reports the failure and undoes what it did: it returns 0, the process
    reads at every address what it read before, and the allocator has as many
    pages as before for the tables and the free list together. *)
Theorem allocuvm_oom s l d tabs us oldsz newsz :
  uvm_ok s l d tabs us -> contiguous us (npages oldsz) -> 0 <= oldsz <= newsz -> newsz < KERNBASE ->
  (npages oldsz + Z.of_nat (length l)) * 4096 < newsz ->
  (forall j, npages oldsz <= j < npages newsz -> is_Some (tabs !! (j / 1024))) ->
  console_ok (console s) -> ConsLock ∉ held s ->
  wp (allocuvm d oldsz newsz) s (fun r s' => r = 0 /\ exists l' tabs',
    uvm_ok s' l' d tabs' us /\ tabs ⊆ tabs' /\ values tabs' ++ l' ≡ₚ values tabs ++ l /\
    forall va, 0 <= va < KERNBASE -> user_byte (mem s') d va = user_byte (mem s) d va).
Proof.
  intros U C Hsz Hk Hl HT Hc Hh. unfold allocuvm. rewrite (proj2 (Z.leb_gt _ _)) by done.
  rewrite (proj2 (Z.ltb_ge newsz oldsz)) by lia. pose proof Hk as Hk'. unfold KERNBASE in Hk'.
  rewrite PGROUNDUP_eq by lia.
  pose proof (npages_bound oldsz). pose proof (npages_bound newsz). pose proof (npages_fuel oldsz newsz Hsz).
  eapply wp_mono; [apply (allocuvm_loop_oom d oldsz newsz Hk (length l) _ s l tabs us (npages oldsz)); try done; lia|].
  intros r s' (-> & s1 & l1 & tabs1 & us1 & s2 & l2 & us2 & G & Em & U2 & Sh & C2). split; [done|].
  assert (us2 = us) as ->.
  { eapply contiguous_eq; [exact C|exact C2|apply G|apply Sh]. }
  exists l2, tabs1. split; [apply Sh|]. split; [apply G|]. split.
  - destruct (ug_used _ _ _ _ _ _ _ _ _ G) as (used & -> & P). pose proof (uh_perm _ _ _ _ _ _ _ _ Sh) as P2.
    apply (Permutation_app_inv_l (values us)). rewrite app_assoc, (Permutation_app_comm (values us)), <- app_assoc.
    rewrite P2, app_assoc, P. solve_Permutation.
  - intros va Hva. unfold KERNBASE in Hva. assert (0 <= va / 4096 < 2 ^ 19) as Hd.
    { split; [apply Z.div_pos; lia|apply Z.div_lt_upper_bound; lia]. }
    destruct (us !! (va / 4096)) eqn:E.
    + rewrite (user_byte_shrinks d tabs1 s2 l1 us1 s' l2 us), Em by (done || lia || by eexists).
      apply (user_byte_grows d s l tabs us s1 l1 tabs1 us1); [done|done|lia|by eexists].
    + unfold user_byte. rewrite (mmu_none s l d tabs), (mmu_none s' l2 d tabs1); [done|apply Sh|lia| |apply U|lia|by apply U].
      by apply (uk_none _ _ _ _ _ (uh_ok _ _ _ _ _ _ _ _ Sh)).
Qed.

Lemma mappages_no_table s d tabs n pa perm :
  vm_ok s [] d tabs -> 0 <= n < 2 ^ 20 -> tabs !! (n / 1024) = None ->
  runs (mappages d (n * 4096) PGSIZE pa perm) s (-1) (popped s) /\ vm_ok (popped s) [] d tabs.
Proof.
  intros V Hn Ht. assert (n * 4096 / 4096 = n) as Ed by (by apply Z.div_mul).
  destruct (walk_alloc_none s d tabs (n * 4096) V) as [R V']; [lia|by rewrite Ed|].
  split; [|done]. intros e. unfold mappages. rewrite !PGROUNDDOWN_eq, Ed.
  set (k := Z.to_nat _). destruct k; cbn [mappages_loop]; unfold bind; by rewrite R.
Qed.

(** When the last free page goes to user memory and the page table for it is
    missing, allocuvm reports success although the new page is not mapped, and
    the page is neither mapped nor free any more. *)
Theorem allocuvm_unmapped s d tabs us n q :
  uvm_ok s [q] d tabs us -> contiguous us n -> 0 <= n -> n + 1 < 2 ^ 19 -> tabs !! (n / 1024) = None ->
  wp (allocuvm d (n * 4096) ((n + 1) * 4096)) s (fun r s' =>
    r = (n + 1) * 4096 /\ uvm_ok s' [] d tabs us /\ (q ∉ values us) /\
    forall va, n * 4096 <= va < (n + 1) * 4096 -> mmu (mem s') d va = None).
Proof.
  intros U C Hn Hn' Ht. unfold allocuvm, KERNBASE. rewrite (proj2 (Z.leb_gt _ _)) by lia.
  rewrite (proj2 (Z.ltb_ge _ _)) by lia. rewrite PGROUNDUP_eq by lia.
  assert (npages (n * 4096) = n) as -> by (symmetry; apply (Z.div_unique _ _ _ 4095); lia).
  rewrite Z.div_mul by done. replace (Z.to_nat (n + 1 + 1)) with (S (S (Z.to_nat n))) by lia. cbn [allocuvm_loop].
  rewrite (proj2 (Z.ltb_lt (n * 4096) _)) by lia. cbn [negb].
  destruct (take_page _ _ _ _ _ _ (fill_words q 0 1024 (mem s)) U (fill_same q 0 _))
    as (U' & Hq & _ & _ & Hqu & _ & Rk & Hq0).
  eapply wp_bind_runs; [exact Rk|]. rewrite (proj2 (Z.eqb_neq q 0)) by done.
  apply wp_bind, wp_modify. rewrite Z.mul_0_l. change (mem (popped s)) with (mem s).
  set (s1 := set_mem _ _) in *. clearbody s1.
  destruct (mappages_no_table s1 d tabs n (v2p q) (Z.lor PTE_W PTE_U) (uk_vm _ _ _ _ _ U')) as [R V]; [lia|done|].
  eapply wp_bind_runs; [exact R|]. rewrite u32_small by (unfold PGSIZE; lia).
  rewrite (proj2 (Z.ltb_ge (n * 4096 + PGSIZE) _)) by (unfold PGSIZE; lia). apply wp_ret.
  split; [done|]. split; [by destruct U'; split|]. split; [done|].
  intros va Hva. apply (mmu_none (popped s1) [] d tabs); [done|lia|].
  unfold pt. assert (va / 4096 = n) as -> by (symmetry; apply (Z.div_unique _ _ _ (va - n * 4096)); lia).
  by rewrite Ht.
Qed.

(** ** Writing to user memory *)
Lemma byte_bit x i : Z.testbit (Z.land x 255) i = (0 <=? i) && (i <? 8) && Z.testbit x i.
Proof.
  change 255 with (Z.ones 8). rewrite Z.land_spec. destruct (Z.leb_spec 0 i).
  - rewrite Z.testbit_ones by lia. rewrite (proj2 (Z.leb_le 0 i)) by lia. cbn. by rewrite andb_comm.
  - by rewrite !Z.testbit_neg_r by lia.
Qed.

Lemma u8_bit b i : Z.testbit (u8 b) i = (0 <=? i) && (i <? 8) && Z.testbit b i.
Proof.
  rewrite <- byte_bit. unfold u8. change 255 with (Z.ones 8). by rewrite Z.land_ones.
Qed.

Lemma get_set_byte m a b a' :
  get_byte (set_byte m a b) a' = if decide (a = a') then u8 b else get_byte m a'.
Proof.
  unfold get_byte, set_byte. rewrite word_at_insert.
  pose proof (Z.mod_pos_bound a 4 ltac:(lia)) as Ha. pose proof (Z.mod_pos_bound a' 4 ltac:(lia)) as Ha'.
  destruct (decide (a - a mod 4 = a' - a' mod 4)) as [E|E].
  2: { by rewrite decide_False by (intros ->; done). }
  rewrite E. set (w := word_at m _). apply Z.bits_inj'. intros i Hi. rewrite byte_bit, Z.shiftr_spec by lia.
  rewrite Z.lor_spec, Z.ldiff_spec, !Z.shiftl_spec by lia.
  replace 255 with (Z.land 255 255) by done. rewrite byte_bit, u8_bit.
  rewrite (proj2 (Z.leb_le 0 i)) by lia. cbn [andb]. destruct (Z.ltb_spec i 8) as [H8|H8].
  - case_decide as Hd.
    + subst a'. replace (i + 8 * (a mod 4) - 8 * (a mod 4)) with i by lia. rewrite u8_bit.
      rewrite (proj2 (Z.leb_le 0 i)), (proj2 (Z.ltb_lt i 8)) by lia. cbn [andb].
      change 255 with (Z.ones 8). rewrite Z.testbit_ones by lia.
      rewrite (proj2 (Z.leb_le 0 i)), (proj2 (Z.ltb_lt i 8)) by lia. cbn. by rewrite andb_false_r.
    + rewrite byte_bit, Z.shiftr_spec by lia.
      rewrite (proj2 (Z.leb_le 0 i)), (proj2 (Z.ltb_lt i 8)) by lia. cbn [andb].
      assert ((0 <=? i + 8 * (a' mod 4) - 8 * (a mod 4)) && (i + 8 * (a' mod 4) - 8 * (a mod 4) <? 8) = false) as ->.
      { apply andb_false_iff. rewrite Z.leb_gt, Z.ltb_ge. lia. }
      cbn. by rewrite andb_true_r, orb_false_r.
  - case_decide; [rewrite u8_bit|rewrite byte_bit]; rewrite (proj2 (Z.ltb_ge i 8)) by lia;
      by rewrite andb_false_r.
Qed.

(** The bytes at [a] on, as written. *)
Definition written (a : Z) (bs : list Z) (x : Z) : option Z :=
  if decide (a <= x) then u8 <$> bs !! Z.to_nat (x - a) else None.

Lemma written_cons a b bs x :
  written a (b :: bs) x = if decide (a = x) then Some (u8 b) else written (a + 1) bs x.
Proof.
  unfold written. destruct (decide (a = x)) as [->|].
  - rewrite decide_True by lia. by rewrite Z.sub_diag.
  - repeat case_decide; try lia; try done.
    replace (Z.to_nat (x - a)) with (S (Z.to_nat (x - (a + 1)))) by lia. done.
Qed.

Lemma get_set_bytes bs : forall m a x,
  get_byte (set_bytes m a bs) x = default (get_byte m x) (written a bs x).
Proof.
  induction bs as [|b bs IH]; intros m a x; cbn [set_bytes].
  - unfold written. case_decide; [by rewrite lookup_nil|done].
  - rewrite IH, get_set_byte, written_cons. case_decide; [|done]. subst x.
    unfold written. by rewrite decide_False by lia.
Qed.

Lemma set_bytes_same p bs : page p -> forall o m, 0 <= o -> o + Z.of_nat (length bs) <= 4096 ->
  same_outside [p] m (set_bytes m (p + o) bs).
Proof.
  intros Hp. induction bs as [|b bs IH]; intros o m Ho Hl; [done|]. cbn [set_bytes length] in *.
  rewrite <- Z.add_assoc. eapply same_outside_weaken; [eapply same_outside_trans;
    [apply (set_byte_same p o b m Hp); lia|apply IH; lia]|].
  intros q [H|H]%elem_of_app; done.
Qed.

Lemma written_bound a bs x : is_Some (written a bs x) <-> a <= x < a + Z.of_nat (length bs).
Proof.
  unfold written. case_decide; [|split; [by intros []|lia]].
  rewrite fmap_is_Some, lookup_lt_is_Some. lia.
Qed.

(** A readable user address lies in a page with PTE_U. *)
Lemma user_byte_some s l d tabs us va :
  uvm_ok s l d tabs us -> 0 <= va < KERNBASE -> is_Some (user_byte (mem s) d va) ->
  exists p fl, us !! (va / 4096) = Some p /\ page p /\ pt (mem s) tabs (va / 4096) = v2p p + fl /\
    0 <= fl < 4096 /\ has fl PTE_P = true /\ has fl PTE_U = true.
Proof.
  intros U Hva [b Hb]. unfold KERNBASE in Hva. destruct (us !! (va / 4096)) as [p|] eqn:E.
  - destruct (uk_frame _ _ _ _ _ U _ _ E) as (_ & Hp & fl & Hf & Hh & Hpt). exists p, fl.
    destruct (user_byte_page s l d tabs us va p fl) as [_ Hu]; try done; [lia|]. rewrite Hu in Hb.
    by destruct (has fl PTE_U).
  - unfold user_byte in Hb. rewrite (mmu_none s l d tabs) in Hb; [done|apply U|lia|].
    apply U; [|done]. split; [apply Z.div_pos; lia|apply Z.div_lt_upper_bound; lia].
Qed.

Lemma uva2ka_runs s l d tabs us n p fl :
  uvm_ok s l d tabs us -> us !! n = Some p -> pt (mem s) tabs n = v2p p + fl -> 0 <= fl < 4096 ->
  has fl PTE_U = true -> runs (uva2ka d (n * 4096)) s p s.
Proof.
  intros U Hn Hpt Hf Hu e.
  destruct (walk_user d tabs us s l n p U Hn) as (t & fl' & Rw & Ht0 & Hw & Hf' & Hh & Hp & Hpt').
  assert (fl' = fl) as -> by lia. destruct (page_v2p p Hp) as (_ & Hm & Hv & _).
  unfold uva2ka, bind, load, gets, ret. rewrite Rw, (proj2 (Z.eqb_neq _ 0)) by done.
  rewrite Hw, !entry_has, Hh, Hu, entry_addr, Hv by done. done.
Qed.

(** A store to a user page changes the bytes of that page only. *)
Lemma store_user s l d tabs us n p m' :
  uvm_ok s l d tabs us -> us !! n = Some p -> same_outside [p] (mem s) m' ->
  uvm_ok (set_mem m' s) l d tabs us /\ forall j, pt m' tabs j = pt (mem s) tabs j.
Proof.
  intros U Hn Hs. pose proof U as [V F N D]. pose proof (values_lookup _ _ _ Hn) as Hv.
  destruct (F n p Hn) as (_ & Hp & _).
  assert (forall q, q ∈ [p] -> page q) as Hps by (by intros q ->%list_elem_of_singleton).
  pose proof D as D'. apply list.NoDup_cons in D as [D1 D2]. apply list.NoDup_app in D2 as (D2 & D3 & D4).
  apply list.NoDup_app in D4 as (D4 & D5 & _).
  assert (forall j, pt m' tabs j = pt (mem s) tabs j) as Hpt.
  { intros j. apply (pt_same s l d tabs [p] m' j V Hs Hps). intros q Hq ->%list_elem_of_singleton.
    apply (D3 p Hq), elem_of_app. by left. }
  split; [|done]. split; [|by setoid_rewrite Hpt|by setoid_rewrite Hpt|done].
  apply (vm_ok_mem s l d tabs [p]); try done.
  - intros ->%list_elem_of_singleton. apply D1, elem_of_app. right. apply elem_of_app. by left.
  - intros q Hq ->%list_elem_of_singleton. by apply (D5 p).
Qed.

Lemma store_user_byte s l d tabs us n p fl o bs a :
  uvm_ok s l d tabs us -> us !! n = Some p -> pt (mem s) tabs n = v2p p + fl -> 0 <= fl < 4096 ->
  has fl PTE_P = true -> has fl PTE_U = true ->
  0 <= o -> o + Z.of_nat (length bs) <= 4096 -> 0 <= a < KERNBASE ->
  let m' := set_bytes (mem s) (p + o) bs in
  user_byte m' d a = match written (n * 4096 + o) bs a with
                     | Some b => Some b | None => user_byte (mem s) d a end.
Proof.
  intros U Hn Hpt Hf Hh Hu Ho Hl Ha m'. unfold KERNBASE in Ha.
  destruct (uk_frame _ _ _ _ _ U _ _ Hn) as (Hr & Hp & _).
  assert (same_outside [p] (mem s) m') as Hs by (by apply set_bytes_same).
  destruct (store_user s l d tabs us n p m' U Hn Hs) as [U' Hpt'].
  pose proof (Z.div_mod a 4096 ltac:(lia)) as Hd. pose proof (Z.mod_pos_bound a 4096 ltac:(lia)) as Hm.
  destruct (decide (a / 4096 = n)) as [E|E].
  - destruct (user_byte_page s l d tabs us a p fl) as [_ ->]; try done; [lia|by rewrite E..|].
    destruct (user_byte_page _ l d tabs us a p fl U') as [_ Hb]; try done; [lia|by rewrite E| |].
    { cbn [mem set_mem]. by rewrite Hpt', E. }
    cbn [mem set_mem] in Hb. rewrite Hb, Hu. unfold m'. rewrite get_set_bytes.
    assert (written (p + o) bs (p + a mod 4096) = written (n * 4096 + o) bs a) as ->; [|by destruct (written _ _ _)].
    unfold written. repeat case_decide; try lia; [|done]. do 2 f_equal. lia.
  - assert (written (n * 4096 + o) bs a = None) as ->.
    { destruct (written _ _ _) eqn:W; [|done].
      assert (is_Some (written (n * 4096 + o) bs a)) as Hw by (by eexists). apply written_bound in Hw.
      destruct E. symmetry. apply (Z.div_unique _ _ _ (a - n * 4096)); lia. }
    destruct (us !! (a / 4096)) as [q|] eqn:Eq.
    + destruct (uk_frame _ _ _ _ _ U _ _ Eq) as (_ & Hq & fq & Hfq & Hhq & Hptq).
      destruct (user_byte_page s l d tabs us a q fq) as [_ ->]; try done; [lia|].
      destruct (user_byte_page _ l d tabs us a q fq U') as [_ Hb]; try done; [lia|cbn [mem set_mem]; by rewrite Hpt'|].
      cbn [mem set_mem] in Hb. rewrite Hb. destruct (has fq PTE_U); [|done]. f_equal. apply page_byte_same; try done.
      intros i Hi. apply (word_at_same [p]); try done; [by intros x ->%list_elem_of_singleton|].
      intros ->%list_elem_of_singleton. apply E. pose proof (uk_nodup _ _ _ _ _ U) as [_ D]%list.NoDup_cons.
      apply list.NoDup_app in D as (_ & _ & D). apply list.NoDup_app in D as (D & _).
      by apply (values_inj us _ _ p D).
    + assert (0 <= a / 4096 < 2 ^ 19) as Hn'.
      { split; [apply Z.div_pos; lia|apply Z.div_lt_upper_bound; lia]. }
      unfold user_byte. rewrite (mmu_none s l d tabs); [|apply U|lia|by apply U].
      pose proof (mmu_none _ l d tabs a (uk_vm _ _ _ _ _ U')) as Hb. cbn [mem set_mem] in Hb.
      rewrite Hb; [done|lia|]. rewrite Hpt'. by apply U.
Qed.

Lemma written_app a bs bs' x :
  written a (bs ++ bs') x =
  match written a bs x with Some b => Some b | None => written (a + Z.of_nat (length bs)) bs' x end.
Proof.
  unfold written. destruct (decide (a <= x)); [|by rewrite decide_False by lia].
  destruct (decide (x - a < Z.of_nat (length bs))).
  - rewrite lookup_app_l by lia. destruct (lookup_lt_is_Some_2 bs (Z.to_nat (x - a))) as [b Hb]; [lia|].
    by rewrite Hb.
  - rewrite lookup_app_r, (lookup_ge_None_2 bs) by lia. rewrite decide_True by lia. cbn. do 2 f_equal. lia.
Qed.

Lemma copyout_loop_spec d tabs us l : forall fuel s va buf,
  uvm_ok s l d tabs us -> (length buf <= fuel)%nat -> 0 <= va -> va + Z.of_nat (length buf) <= KERNBASE ->
  (forall a, va <= a < va + Z.of_nat (length buf) -> is_Some (user_byte (mem s) d a)) ->
  wp (copyout_loop fuel d va buf) s (fun r s' => r = 0 /\ uvm_ok s' l d tabs us /\ s' = set_mem (mem s') s /\
    forall a, 0 <= a < KERNBASE -> user_byte (mem s') d a =
      match written va buf a with Some b => Some b | None => user_byte (mem s) d a end).
Proof.
  induction fuel as [|fuel IH]; intros s va buf U Hf Hva Hend Hb.
  all: destruct buf as [|b0 buf']; [cbn [copyout_loop]; apply wp_ret; split; [done|]; split; [done|];
    split; [by destruct s|]; intros a Ha; unfold written; by case_decide|].
  { cbn in Hf. lia. }
  cbn [copyout_loop]. set (buf := b0 :: buf') in *. assert (0 < length buf)%nat as Hlen by (cbn; lia).
  clearbody buf. unfold KERNBASE in Hend.
  destruct (user_byte_some s l d tabs us va U) as (p & fl & Hu & Hp & Hpt & Hfl & Hh & HU);
    [unfold KERNBASE; lia|apply Hb; lia|].
  pose proof (Z.div_mod va 4096 ltac:(lia)) as Hd. pose proof (Z.mod_pos_bound va 4096 ltac:(lia)) as Hm.
  rewrite PGROUNDDOWN_eq. set (n := va / 4096) in *. assert (0 <= n) by (apply Z.div_pos; lia).
  replace (va - n * 4096) with (va mod 4096) by lia. set (o := va mod 4096) in *. clearbody o n.
  eapply wp_bind_runs; [by apply (uva2ka_runs s l d tabs us n p fl)|].
  rewrite (proj2 (Z.eqb_neq p 0)) by (by apply page_pos). unfold PGSIZE.
  set (k := Z.to_nat (Z.min (4096 - o) (Z.of_nat (length buf)))).
  assert (1 <= k <= length buf)%nat as Hk by lia.
  assert (length (take k buf) = k) as Hlt by (rewrite length_take; lia).
  apply wp_bind, wp_modify.
  assert (same_outside [p] (mem s) (set_bytes (mem s) (p + o) (take k buf))) as Hs.
  { apply set_bytes_same; [done|lia|]. rewrite Hlt. lia. }
  destruct (store_user s l d tabs us n p _ U Hu Hs) as [U1 _].
  assert (forall a, 0 <= a < KERNBASE -> user_byte (set_bytes (mem s) (p + o) (take k buf)) d a =
    match written va (take k buf) a with Some b => Some b | None => user_byte (mem s) d a end) as H1.
  { intros a Ha. replace va with (n * 4096 + o) by lia.
    apply (store_user_byte s l d tabs us n p fl); try done; [lia|]. rewrite Hlt. lia. }
  set (s1 := set_mem _ s) in *. change (set_bytes _ _ _) with (mem s1) in H1.
  assert (s1 = set_mem (mem s1) s) as F1 by done. clearbody s1. clear Hs.
  rewrite u32_small by lia.
  destruct (decide (k = length buf)) as [Ek|Ek].
  - rewrite drop_ge by lia. rewrite take_ge in H1 by lia.
    destruct fuel; cbn [copyout_loop]; apply wp_ret; split; done.
  - assert (n * 4096 + 4096 = va + Z.of_nat k) as -> by lia.
    assert (length (drop k buf) = length buf - k)%nat as Hld by (by rewrite length_drop).
    eapply wp_mono; [apply (IH s1 (va + Z.of_nat k) (drop k buf)); try done; try (unfold KERNBASE; lia)|].
    + intros a Ha. rewrite H1 by (unfold KERNBASE; lia). destruct (written _ _ _); [done|]. apply Hb. lia.
    + intros r s2 (-> & U2 & F2 & H2). split; [done|]. split; [done|].
      split; [rewrite F2, F1; by destruct s, s1, s2|]. intros a Ha. rewrite H2, H1 by done.
      replace (written va buf a) with (written va (take k buf ++ drop k buf) a) by (by rewrite take_drop).
      rewrite written_app, Hlt.
      destruct (written va (take k buf) a) eqn:W; [|done].
      assert (is_Some (written va (take k buf) a)) as Hw by (by eexists). apply written_bound in Hw.
      assert (written (va + Z.of_nat k) (drop k buf) a = None) as ->; [|done].
      unfold written. by rewrite decide_False by lia.
Qed.

(** Copyout to addresses the process can read succeeds; afterwards the
    process reads the bytes of the buffer there and at every other address what
    it read before. *)
Theorem copyout_writes s l d tabs us va buf :
  uvm_ok s l d tabs us -> 0 <= va -> va + Z.of_nat (length buf) <= KERNBASE ->
  (forall a, va <= a < va + Z.of_nat (length buf) -> is_Some (user_byte (mem s) d a)) ->
  wp (copyout d va buf) s (fun r s' => r = 0 /\ uvm_ok s' l d tabs us /\ s' = set_mem (mem s') s /\
    forall a, 0 <= a < KERNBASE -> user_byte (mem s') d a =
      if decide (va <= a < va + Z.of_nat (length buf)) then u8 <$> buf !! Z.to_nat (a - va)
      else user_byte (mem s) d a).
Proof.
  intros U Hva Hend Hb. eapply wp_mono; [by apply (copyout_loop_spec d tabs us l (length buf) s va buf)|].
  intros r s' (-> & U' & F & H). split; [done|]. split; [done|]. split; [done|]. intros a Ha.
  rewrite H by done. destruct (decide (va <= a < va + Z.of_nat (length buf))) as [Hd|Hd];
    rewrite <- (written_bound va buf a) in Hd.
  - destruct Hd as [b Hb']. rewrite Hb'. unfold written in Hb'. by case_decide.
  - destruct (written va buf a) eqn:E; [|done]. destruct Hd. by eexists.
Qed.
End Space.

(** ** Examples *)

(** [n] free pages after the kernel. *)
Definition page_list (n : nat) : list Z := (fun i => 2148597760 + 4096 * Z.of_nat i) <$> seq 0 n.
Definition pages_state (n : nat) : kstate :=
  set_mem (list_to_map (zip (page_list n) (tail (page_list n) ++ [0])))
    (set_kmem (mkKmem true 2148597760 (Z.of_nat n)) (reset_state ∅ 0 [] 0)).

Lemma pages_state_rep : kmem_rep (Lay := small_layout) (pages_state 150) (page_list 150).
Proof.
  split; [by vm_compute; repeat split|]. apply (bool_decide_unpack _). by vm_compute.
Qed.

(** A process of 5000 bytes in a fresh address space. *)
Definition new_space : K Z :=
  let! d := setupkvm (Lay := small_layout) in
  do allocuvm (Lay := small_layout) d 0 5000;
  ret d.

Lemma new_space_ok :
  wp new_space (pages_state 150) (fun d s' => exists q l tabs us,
    uvm_ok (Lay := small_layout) s' (q :: l) d tabs us /\ contiguous us 2 /\ (76 <= length l)%nat /\
    vm_frame (pages_state 150) s' /\ (forall a, 0 <= a < 8192 -> user_byte (mem s') d a = Some 0) /\
    forall a, 0 <= a < 8192 -> exists pa, mmu (mem s') d a = Some (pa, 7)).
Proof.
  assert (KmemLock ∉ held (pages_state 150)) as HL by (cbn; set_solver).
  pose proof pages_state_rep as K. set (s := pages_state 150) in *. clearbody s.
  change (page_list 150) with (2148597760 :: tail (page_list 150)) in K.
  assert (length (tail (page_list 150)) = 149%nat) as Hl by done. set (l0 := tail (page_list 150)) in *. clearbody l0.
  unfold new_space. apply wp_bind.
  eapply wp_mono; [apply (setup_space (Lay := small_layout) s l0 _ K HL); lia|].
  intros d s1 (-> & l1 & tabs1 & [U _ _ Hlen F _]). apply wp_bind.
  eapply wp_mono; [apply (alloc_space (Lay := small_layout) s1 l1 _ tabs1 ∅ 0 5000 U)|].
  - intros j. rewrite lookup_empty. split; [by intros []|]. change (npages 0) with 0. lia.
  - lia.
  - done.
  - change (npages 5000 - npages 0) with 2. lia.
  - intros r s2 (_ & l2 & tabs2 & us2 & G & C & Hl2 & Hz). apply wp_ret.
    change (npages 5000) with 2 in *. change (npages 0) with 0 in *.
    destruct l2 as [|q l2]; [cbn in Hl2; lia|]. exists q, l2, tabs2, us2.
    split; [apply G|]. split; [done|]. split; [cbn [length] in Hl2; lia|].
    split; [eapply vm_frame_trans; [exact F|apply G]|].
    assert (forall a, 0 <= a < 8192 -> zero_page s2 tabs2 us2 (a / 4096)) as Ha.
    { intros a Ha. apply Hz. split; [apply Z.div_pos; lia|apply Z.div_lt_upper_bound; lia]. }
    split; intros a Hr.
    + apply (user_byte_zero (Lay := small_layout) s2 (q :: l2) _ tabs2 us2); [apply G|lia|by apply Ha].
    + destruct (Ha a Hr) as (x & Hx & Hpt & _). eexists.
      apply (user_byte_page (Lay := small_layout) s2 (q :: l2) _ tabs2 us2 a x 7); try done; [apply G|lia].
Qed.

Lemma setupkvm_maps_witness :
  wp (setupkvm (Lay := small_layout)) (pages_state 150) (fun d s' =>
    mmu (mem s') d KERNBASE = Some (0, 3) /\ mmu (mem s') d KERNLINK = Some (1048576, 1) /\
    mmu (mem s') d 4096 = None).
Proof.
  eapply wp_mono; [apply (setupkvm_maps (Lay := small_layout) _ (tail (page_list 150)) 2148597760)|].
  - apply pages_state_rep.
  - cbn. set_solver.
  - cbn. lia.
  - intros r s' (-> & used & l' & _ & _ & _ & _ & H). by rewrite !H.
Defined.

Lemma allocuvm_grows_witness :
  wp (let! d := new_space in do allocuvm (Lay := small_layout) d 5000 9000; ret d) (pages_state 150)
    (fun d s' => user_byte (mem s') d 4096 = Some 0 /\ user_byte (mem s') d 9000 = Some 0).
Proof.
  apply wp_bind. eapply wp_mono; [apply new_space_ok|]. intros d s (q & l & tabs & us & U & C & Hl & F & Z & _).
  apply wp_bind. eapply wp_mono; [apply (allocuvm_grows (Lay := small_layout) s (q :: l) d tabs us 5000 9000 U C)|].
  - lia.
  - done.
  - change (npages 9000 - npages 5000) with 1. cbn. lia.
  - intros r s' (_ & l' & tabs' & us' & _ & _ & _ & _ & H1 & H2 & _). apply wp_ret.
    rewrite H1, H2 by (by vm_compute). split; [|done]. by apply Z.
Defined.

Lemma deallocuvm_shrinks_witness :
  wp (let! d := new_space in do deallocuvm (Lay := small_layout) d 5000 100; ret d) (pages_state 150)
    (fun d s' => user_byte (mem s') d 99 = Some 0 /\ user_byte (mem s') d 4096 = None).
Proof.
  apply wp_bind. eapply wp_mono; [apply new_space_ok|]. intros d s (q & l & tabs & us & U & C & Hl & F & Z & _).
  apply wp_bind. eapply wp_mono; [apply (deallocuvm_shrinks (Lay := small_layout) s (q :: l) d tabs us 5000 100 U C)|].
  - lia.
  - done.
  - intros r s' (_ & l' & us' & _ & _ & _ & _ & _ & H1 & H2). apply wp_ret.
    split; [rewrite H1 by (by vm_compute); by apply Z|]. unfold user_byte. by rewrite H2 by (by vm_compute).
Defined.

Lemma in_two us j : contiguous us 2 -> 0 <= j < npages 5000 -> is_Some (us !! j).
Proof. intros C Hj. by apply C. Qed.

Lemma copyuvm_copies_witness :
  wp (let! d := new_space in let! c := copyuvm (Lay := small_layout) d 5000 in ret c) (pages_state 150)
    (fun c s' => user_byte (mem s') c 5000 = Some 0 /\ user_byte (mem s') c 8192 = None).
Proof.
  apply wp_bind. eapply wp_mono; [apply new_space_ok|]. intros d s (q & l & tabs & us & U & C & Hl & F & Z & _).
  apply wp_bind. eapply wp_mono; [apply (copyuvm_copies (Lay := small_layout) s l q d tabs us 5000 U)|].
  - intros j Hj. by apply in_two.
  - by vm_compute.
  - change (npages 5000) with 2. lia.
  - intros r s' (-> & _ & H1 & H2 & _). apply wp_ret. rewrite H1 by (by vm_compute). split; [by apply Z|].
    unfold user_byte. by rewrite H2 by (by vm_compute).
Defined.

Lemma copyuvm_freevm_witness :
  wp (let! d := new_space in let! c := copyuvm (Lay := small_layout) d 5000 in freevm (Lay := small_layout) c)
    (pages_state 150) (fun _ s' => exists l, kmem_rep (Lay := small_layout) s' l /\ (71 <= length l)%nat).
Proof.
  apply wp_bind. eapply wp_mono; [apply new_space_ok|]. intros d s (q & l & tabs & us & U & C & Hl & F & Z & _).
  eapply wp_mono; [apply (copyuvm_freevm (Lay := small_layout) s l q d tabs us 5000 U)|].
  - intros j Hj. by apply in_two.
  - by vm_compute.
  - change (npages 5000) with 2. lia.
  - intros r s' (l' & K & P & _). exists l'. split; [done|]. rewrite P. cbn. lia.
Defined.

Lemma freevm_returns_witness :
  wp (let! d := new_space in let! c := copyuvm (Lay := small_layout) d 5000 in
      do freevm (Lay := small_layout) c; ret d) (pages_state 150)
    (fun d s' => user_byte (mem s') d 4999 = Some 0).
Proof.
  apply wp_bind. eapply wp_mono; [apply new_space_ok|]. intros d s (q & l & tabs & us & U & C & Hl & F & Z & _).
  apply wp_bind. eapply wp_mono; [apply (copy_space (Lay := small_layout) s l q d tabs us 5000 U)|].
  - intros j Hj. by apply in_two.
  - by vm_compute.
  - change (npages 5000) with 2. lia.
  - intros r s1 (-> & l1 & tabs1 & us1 & Cp).
    pose proof (copied_parent (Lay := small_layout) _ _ _ _ _ _ _ _ _ _ _ 4999 U Cp) as Hp.
    destruct Cp as [[Up Uc A] C1 _ _ _ _ _]. apply wp_bind.
    eapply wp_mono; [apply (freevm_returns (Lay := small_layout) s1 l1 q tabs1 us1 2 d tabs us Uc C1)|].
    + lia.
    + done.
    + intros p Hin. apply A. revert Hin. rewrite !elem_of_cons, !elem_of_app. tauto.
    + intros r s2 (l2 & _ & _ & _ & H). apply wp_ret. rewrite H, Hp by (by vm_compute). by apply Z.
Defined.

Lemma copyout_writes_witness :
  wp (let! d := new_space in do copyout d 4094 [7; 8; 9]; ret d) (pages_state 150)
    (fun d s' => user_byte (mem s') d 4095 = Some 8 /\ user_byte (mem s') d 4096 = Some 9 /\
      user_byte (mem s') d 4097 = Some 0).
Proof.
  apply wp_bind. eapply wp_mono; [apply new_space_ok|]. intros d s (q & l & tabs & us & U & C & Hl & F & Z & _).
  apply wp_bind.
  eapply wp_mono; [apply (copyout_writes (Lay := small_layout) s (q :: l) d tabs us 4094 [7; 8; 9] U)|].
  - lia.
  - by vm_compute.
  - intros a Ha. cbn in Ha. rewrite Z by lia. by eexists.
  - intros r s' (_ & _ & _ & H). apply wp_ret. rewrite !H by (by vm_compute). cbn [length].
    rewrite !(decide_True (P := _ <= _ < _)) by lia. rewrite decide_False by lia.
    split; [done|]. split; [done|]. by apply Z.
Defined.

(** One free page, a directory with one empty table. *)
Definition one_table : kstate :=
  set_mem {[ 2148601856 := v2p 2148605952 + 7 ]}
    (set_kmem (mkKmem true 2148597760 1) (reset_state ∅ 0 [] 0)).

Lemma one_table_ok :
  uvm_ok (Lay := small_layout) one_table [2148597760] 2148601856 {[ 0 := 2148605952 ]} ∅.
Proof.
  split; [split|..].
  - split; [by vm_compute; repeat split|]. repeat constructor. set_solver.
  - cbn. set_solver.
  - by vm_compute.
  - intros i t [<- <-]%lookup_singleton_Some. split; [lia|by vm_compute].
  - intros i Hi. unfold word_at. cbn [mem one_table set_mem]. destruct (decide (i = 0)) as [->|Hne].
    + by vm_compute.
    + by rewrite !lookup_singleton_ne by lia.
  - apply (bool_decide_unpack _). by vm_compute.
  - intros n p H. by rewrite lookup_empty in H.
  - intros n Hn _. unfold pt. destruct (decide (n / 1024 = 0)) as [->|Hne].
    + rewrite lookup_singleton_eq. unfold word_at. cbn [mem one_table set_mem].
      pose proof (Z.mod_pos_bound n 1024 ltac:(lia)). by rewrite lookup_singleton_ne by lia.
    + by rewrite lookup_singleton_ne by lia.
  - apply (bool_decide_unpack _). by vm_compute.
Qed.

Lemma allocuvm_oom_witness :
  wp (allocuvm (Lay := small_layout) 2148601856 0 8192) one_table (fun r s' => r = 0).
Proof.
  eapply wp_mono; [apply (allocuvm_oom (Lay := small_layout) _ [2148597760] _ {[ 0 := 2148605952 ]} ∅)|].
  - apply one_table_ok.
  - intros j. rewrite lookup_empty. split; [by intros []|]. change (npages 0) with 0. lia.
  - lia.
  - done.
  - by vm_compute.
  - change (npages 8192) with 2. intros j Hj. rewrite Z.div_small by (change (npages 0) with 0 in Hj; lia).
    by eexists.
  - split; [done|cbn; lia|done].
  - cbn. set_solver.
  - by intros r s' [-> _].
Defined.

Lemma allocuvm_unmapped_witness :
  wp (allocuvm (Lay := small_layout) 2148601856 0 4096)
    (set_mem ∅ one_table)
    (fun r s' => r = 4096 /\ mmu (mem s') 2148601856 0 = None).
Proof.
  eapply wp_mono; [apply (allocuvm_unmapped (Lay := small_layout) _ 2148601856 ∅ ∅ 0 2148597760)|].
  - split; [split|..]; try (intros; by rewrite lookup_empty in * ); try by vm_compute.
    + split; [by vm_compute; repeat split|]. repeat constructor. set_solver.
    + cbn. set_solver.
    + apply (bool_decide_unpack _). by vm_compute.
    + apply (bool_decide_unpack _). by vm_compute.
  - intros j. rewrite lookup_empty. split; [by intros []|lia].
  - done.
  - done.
  - done.
  - intros r s' (-> & _ & _ & H). split; [done|]. by apply H.
Defined.
