(* ===== verification/Kbd.v ===== *)
(** * The keyboard: kbd.c, kbd.h

    Scan codes to characters, with the modifier state kept in [shift]. *)

From S2P Require Import Prelude Bytes Cstring Kstate Sync Disk Bio Log Fs Console.
Import Str.
Local Open Scope Z_scope.

Definition NO : Z := 0.
Definition SHIFT : Z := 1.
Definition CTL : Z := 2.
Definition ALT : Z := 4.
Definition CAPSLOCK : Z := 8.
Definition NUMLOCK : Z := 16.
Definition SCROLLLOCK : Z := 32.
Definition E0ESC : Z := 64.

Definition KEY_HOME : Z := 224.
Definition KEY_END : Z := 225.
Definition KEY_UP : Z := 226.
Definition KEY_DN : Z := 227.
Definition KEY_LF : Z := 228.
Definition KEY_RT : Z := 229.
Definition KEY_PGUP : Z := 230.
Definition KEY_PGDN : Z := 231.
Definition KEY_INS : Z := 232.
Definition KEY_DEL : Z := 233.

(** A [uchar] table of 256 entries: leading entries, then designated ones. *)
Definition key_table (l : list Z) (des : list (nat * Z)) : list Z :=
  foldr (fun d t => <[d.1 := u8 d.2]> t)
    ((u8 <$> l) ++ replicate (256 - length l) 0) des.

Definition shiftcode : list Z :=
  key_table [] [
    (29%nat, CTL); (42%nat, SHIFT); (54%nat, SHIFT); (56%nat, ALT); (157%nat, CTL);
    (184%nat, ALT)
  ].

Definition togglecode : list Z :=
  key_table [] [
    (58%nat, CAPSLOCK); (69%nat, NUMLOCK); (70%nat, SCROLLLOCK)
  ].

Definition normalmap : list Z :=
  key_table [
    NO; 27; 49; 50; 51; 52; 53; 54;
    55; 56; 57; 48; 45; 61; 8; 9;
    113; 119; 101; 114; 116; 121; 117; 105;
    111; 112; 91; 93; 10; NO; 97; 115;
    100; 102; 103; 104; 106; 107; 108; 59;
    39; 96; NO; 92; 122; 120; 99; 118;
    98; 110; 109; 44; 46; 47; NO; 42;
    NO; 32; NO; NO; NO; NO; NO; NO;
    NO; NO; NO; NO; NO; NO; NO; 55;
    56; 57; 45; 52; 53; 54; 43; 49;
    50; 51; 48; 46; NO; NO; NO; NO
  ] [
    (156%nat, 10); (181%nat, 47); (200%nat, KEY_UP); (208%nat, KEY_DN); (201%nat, KEY_PGUP);
    (209%nat, KEY_PGDN); (203%nat, KEY_LF); (205%nat, KEY_RT); (151%nat, KEY_HOME); (207%nat, KEY_END);
    (210%nat, KEY_INS); (211%nat, KEY_DEL)
  ].

Definition shiftmap : list Z :=
  key_table [
    NO; 27; 33; 64; 35; 36; 37; 94;
    38; 42; 40; 41; 95; 43; 8; 9;
    81; 87; 69; 82; 84; 89; 85; 73;
    79; 80; 123; 125; 10; NO; 65; 83;
    68; 70; 71; 72; 74; 75; 76; 58;
    34; 126; NO; 124; 90; 88; 67; 86;
    66; 78; 77; 60; 62; 63; NO; 42;
    NO; 32; NO; NO; NO; NO; NO; NO;
    NO; NO; NO; NO; NO; NO; NO; 55;
    56; 57; 45; 52; 53; 54; 43; 49;
    50; 51; 48; 46; NO; NO; NO; NO
  ] [
    (156%nat, 10); (181%nat, 47); (200%nat, KEY_UP); (208%nat, KEY_DN); (201%nat, KEY_PGUP);
    (209%nat, KEY_PGDN); (203%nat, KEY_LF); (205%nat, KEY_RT); (151%nat, KEY_HOME); (207%nat, KEY_END);
    (210%nat, KEY_INS); (211%nat, KEY_DEL)
  ].

Definition ctlmap : list Z :=
  key_table [
    NO; NO; NO; NO; NO; NO; NO; NO;
    NO; NO; NO; NO; NO; NO; NO; NO;
    ctrl 81; ctrl 87; ctrl 69; ctrl 82; ctrl 84; ctrl 89; ctrl 85; ctrl 73;
    ctrl 79; ctrl 80; NO; NO; 13; NO; ctrl 65; ctrl 83;
    ctrl 68; ctrl 70; ctrl 71; ctrl 72; ctrl 74; ctrl 75; ctrl 76; NO;
    NO; NO; NO; ctrl 92; ctrl 90; ctrl 88; ctrl 67; ctrl 86;
    ctrl 66; ctrl 78; ctrl 77; NO; NO; ctrl 47; NO; NO
  ] [
    (156%nat, 13); (181%nat, ctrl 47); (200%nat, KEY_UP); (208%nat, KEY_DN); (201%nat, KEY_PGUP);
    (209%nat, KEY_PGDN); (203%nat, KEY_LF); (205%nat, KEY_RT); (151%nat, KEY_HOME); (207%nat, KEY_END);
    (210%nat, KEY_INS); (211%nat, KEY_DEL)
  ].

Definition charcode (m : Z) : list Z :=
  if m =? 0 then normalmap else if m =? 1 then shiftmap else ctlmap.

(** [kbdgetc] when the controller has the byte [data]: the result and the new
    [shift]. *)
Definition kbdgetc (shift data : Z) : Z * Z :=
  if data =? 224 then (0, Z.lor shift E0ESC)
  else if negb (Z.land data 128 =? 0) then
    let data := if negb (Z.land shift E0ESC =? 0) then data else Z.land data 127 in
    (0, Z.ldiff shift (Z.lor (byte_at shiftcode (Z.to_nat data)) E0ESC))
  else
    let '(data, shift) :=
      (if negb (Z.land shift E0ESC =? 0)
       then (Z.lor data 128, Z.ldiff shift E0ESC) else (data, shift)) in
    let shift := Z.lor shift (byte_at shiftcode (Z.to_nat data)) in
    let shift := Z.lxor shift (byte_at togglecode (Z.to_nat data)) in
    let c := byte_at (charcode (Z.land shift (Z.lor CTL SHIFT))) (Z.to_nat data) in
    let c :=
      (if negb (Z.land shift CAPSLOCK =? 0) then
         if (97 <=? c) && (c <=? 122) then c + (65 - 97)
         else if (65 <=? c) && (c <=? 90) then c + (97 - 65)
         else c
       else c) in
    (c, shift).

(** The bytes waiting in the controller, drained by [kbdgetc] until it is
    empty and returns -1: the characters and the new [shift]. *)
Fixpoint kbd_drain (shift : Z) (bytes : list Z) : list Z * Z :=
  match bytes with
  | [] => ([], shift)
  | b :: bytes' =>
      let '(c, shift) := kbdgetc shift b in
      let '(cs, shift) := kbd_drain shift bytes' in
      (c :: cs, shift)
  end.

(** [kbdintr] with [bytes] waiting in the controller. *)
Definition kbdintr (callerpcs : nat -> list Z) (bytes : list Z) : K unit :=
  let! shift := gets kbd_shift in
  let '(cs, shift) := kbd_drain shift bytes in
  do modify (set_kbd_shift shift);
  consoleintr callerpcs cs.

(** ** The modifier state *)

(** A check of every 7-bit [shift] and every byte. *)
Definition all_keys (P : Z -> Z -> bool) : bool :=
  forallb (fun s => forallb (P s) (seqZ 0 256)) (seqZ 0 128).

Lemma all_keys_spec P s k :
  all_keys P = true -> 0 <= s < 128 -> 0 <= k < 256 -> P s k = true.
Proof.
  unfold all_keys. rewrite forallb_forall. intros H Hs Hk.
  specialize (H s). rewrite forallb_forall in H.
  apply H; apply list_elem_of_In, elem_of_seqZ; lia.
Qed.

(** What pressing and then releasing key [k] does, with no escape pending. *)
Definition press_release_ok (s k : Z) : bool :=
  if (128 <=? k) || (k =? 96) || (64 <=? s) then true else
  let '(c, s1) := kbdgetc s k in
  let '(c', s2) := kbdgetc s1 (Z.lor k 128) in
  (0 <=? c) && (c <? 256) && (c' =? 0) &&
  (s2 =? Z.lxor (Z.ldiff s (byte_at shiftcode (Z.to_nat k)))
           (byte_at togglecode (Z.to_nat k))).

Lemma press_release_all : all_keys press_release_ok = true.
Proof. vm_compute. reflexivity. Qed.

(** Pressing and releasing a key delivers one character and one 0, leaves
    the locks of the toggle keys flipped and every other modifier as it was,
    except that the key's own modifier is up. *)
Theorem kbd_press_release s k :
  0 <= s < 64 -> 0 <= k < 128 -> k <> 96 ->
  exists c, is_byte c /\
    kbd_drain s [k; Z.lor k 128] =
      ([c; 0], Z.lxor (Z.ldiff s (byte_at shiftcode (Z.to_nat k)))
                 (byte_at togglecode (Z.to_nat k))).
Proof.
  intros Hs Hk Hne.
  pose proof (all_keys_spec _ s k press_release_all ltac:(lia) ltac:(lia)) as H.
  unfold press_release_ok in H.
  rewrite (proj2 (Z.leb_gt 128 k)), (proj2 (Z.eqb_neq k 96)),
    (proj2 (Z.leb_gt 64 s)) in H by lia. cbn [orb] in H.
  unfold kbd_drain. destruct (kbdgetc s k) as [c s1].
  destruct (kbdgetc s1 (Z.lor k 128)) as [c' s2].
  rewrite !andb_true_iff, Z.leb_le, Z.ltb_lt, !Z.eqb_eq in H.
  destruct H as [[[H1 H2] ->] ->]. exists c. by split.
Qed.

Lemma kbd_press_release_witness :
  exists c, is_byte c /\
    kbd_drain 1 [58; Z.lor 58 128] =
      ([c; 0], Z.lxor (Z.ldiff 1 (byte_at shiftcode 58)) (byte_at togglecode 58)).
Proof. apply (kbd_press_release 1 58); lia. Defined.
