(* ===== verification/Proc.v ===== *)
(** * Processes and threads: proc.c, thread.c

    Creation, exit and waiting of processes and of the threads that share a
    process's memory, over the process table.  The saved kernel contexts are
    not modelled, and the registers [switchuvm] sets are in [Segment]: which
    process runs is [curproc], and what happens while a process is switched away from is interference. *)

From S2P Require Import Prelude Bytes Cstring Kstate Sync Kalloc Pipe Disk Bio Log Fs File Vm Dir.
Import Str.
Local Open Scope Z_scope.

(** ** Selectors and flags of mmu.h *)
Definition DPL_USER : Z := 3.
Definition SEG_UCODE : Z := 4.
Definition SEG_UDATA : Z := 5.
Definition FL_IF : Z := 512.

(** The trap frame [userinit] builds. *)
Definition init_tf : trapframe :=
  let cs := Z.lor (Z.shiftl SEG_UCODE 3) DPL_USER in
  let ds := Z.lor (Z.shiftl SEG_UDATA 3) DPL_USER in
  mkTrapframe 0 0 0 0 0 0 0 0 0 ds ds 0 0 0 cs FL_IF PGSIZE ds.

(** ** Scans of the process table *)
Fixpoint find_proc (test : proc -> bool) (t : list proc) (i : nat) : option nat :=
  match t with
  | [] => None
  | p :: t' => if test p then Some i else find_proc test t' (S i)
  end.

Definition in_state (st : procstate) (p : proc) : bool := bool_decide (p_state p = st).
Definition child_of (me : nat) (p : proc) : bool := bool_decide (p_parent p = Some me).

(** [wakeup1(p)] for a process pointer, null included. *)
Definition wake_proc (p : option nat) : K unit :=
  modify (fun s => set_ptable (wakeup1 (ChProc <$> p) (ptable s)) s).

(** [safestrcpy(np->name, name, sizeof(np->name))] *)
Definition copy_name (name : list Z) (p : proc) : proc :=
  set_p_name (splice (p_name p) 0 (safestrcpy name 16)) p.

Section Proc.
Context {Lay : Layout} {Dev : BlockDev} {Sw : DevSw}.

Definition allocproc : K (option nat) :=
  do acquire PtableLock;
  let! t := gets ptable in
  match find_proc (in_state UNUSED) t 0 with
  | None =>
      do release PtableLock;
      ret None
  | Some i =>
      let! pid := gets nextpid in
      do upd_proc i (fun p =>
           set_p_numOfThread 0 (set_p_tid 0 (set_p_is_thread 0
             (set_p_pid pid (set_p_state EMBRYO p)))));
      do modify (set_nextpid (i32 (pid + 1)));
      do release PtableLock;
      let! k := kalloc in
      do upd_proc i (set_p_kstack k);
      if k =? 0 then
        do upd_proc i (set_p_state UNUSED);
        ret None
      else ret (Some i)
  end.

Definition userinit (initcode : list Z) : K unit :=
  let! r := allocproc in
  do modify (set_initproc r);
  let! i := deref "userinit: p" r in
  let! pgdir := setupkvm in
  do upd_proc i (set_p_pgdir pgdir);
  if pgdir =? 0 then panic "userinit: out of memory?" else
  do inituvm pgdir initcode;
  do upd_proc i (fun p => set_p_tf init_tf (set_p_sz PGSIZE p));
  do upd_proc i (copy_name [105; 110; 105; 116; 99; 111; 100; 101]);
  let! cwd := namei [slash] in
  do upd_proc i (set_p_cwd cwd);
  upd_proc i (set_p_state RUNNABLE).

(** Loading a process's address space fails only without a page table. *)
Definition switchuvm (p : proc) : K unit :=
  when (p_pgdir p =? 0) (panic "switchuvm: no pgdir").

Definition growproc (n : Z) : K Z :=
  let! p := myproc in
  let! r :=
    (if 0 <? n then
       let! sz := allocuvm (p_pgdir p) (p_sz p) (u32 (p_sz p + n)) in
       ret (if sz =? 0 then None else Some sz)
     else if n <? 0 then
       let! sz := deallocuvm (p_pgdir p) (p_sz p) (u32 (p_sz p + n)) in
       ret (if sz =? 0 then None else Some sz)
     else ret (Some (p_sz p))) in
  match r with
  | None => ret (-1)
  | Some sz =>
      do upd_myproc (set_p_sz sz);
      let! p := myproc in
      do switchuvm p;
      ret 0
  end.

(** The loop that shares the caller's open files with [np]. *)
Definition dup_files (np : nat) : K unit :=
  mfor NOFILE 0 (fun i =>
    let! p := myproc in
    match p_ofile p !! i with
    | Some (Some f) =>
        let! f := filedup f in
        upd_proc np (fun q => set_p_ofile (<[i := Some f]> (p_ofile q)) q)
    | _ => ret tt
    end).

Definition dup_cwd (np : nat) : K unit :=
  let! p := myproc in
  let! cwd := deref "proc->cwd" (p_cwd p) in
  let! cwd := idup cwd in
  upd_proc np (set_p_cwd (Some cwd)).

Definition fork : K Z :=
  let! r := allocproc in
  match r with
  | None => ret (-1)
  | Some np =>
      let! me := curproc_idx in
      let! p := myproc in
      let! d := copyuvm (p_pgdir p) (p_sz p) in
      do upd_proc np (set_p_pgdir d);
      if d =? 0 then
        let! q := proc_at np in
        do kfree (p_kstack q);
        do upd_proc np (fun q => set_p_state UNUSED (set_p_kstack 0 q));
        ret (-1)
      else
        do upd_proc np (fun q =>
             set_p_is_thread (p_is_thread p)
               (set_p_tf (set_tf_eax 0 (p_tf p))
                 (set_p_parent (Some me) (set_p_sz (p_sz p) q))));
        do dup_files np;
        do dup_cwd np;
        do upd_proc np (copy_name (p_name p));
        let! q := proc_at np in
        do acquire PtableLock;
        do upd_proc np (set_p_state RUNNABLE);
        do release PtableLock;
        ret (p_pid q)
  end.

(** A store of the kernel through an address of the current address space:
    each byte goes through the page table, and needs a present and writable
    page. *)
Definition user_put (va b : Z) : K unit :=
  let! p := myproc in
  let! pte := walkpgdir (p_pgdir p) va false in
  if pte =? 0 then fault "page fault" else
  let! e := load pte in
  if negb (has e PTE_P && has e PTE_W) then fault "page fault" else
  store_bytes (p2v (PTE_ADDR e) + va mod PGSIZE) [b].

Fixpoint user_puts (va : Z) (bs : list Z) : K unit :=
  match bs with
  | [] => ret tt
  | b :: bs => do user_put va b; user_puts (u32 (va + 1)) bs
  end.

Definition user_store (va v : Z) : K unit := user_puts va (le_bytes 4 v).

(** The scan for the main thread of the process. *)
Definition is_main (pid : Z) (p : proc) : bool :=
  (p_pid p =? pid) && (p_is_thread p =? 0).

Definition clone (function arg stack : Z) : K Z :=
  let! p := myproc in
  if p_numOfThread p =? 7 then ret (-1) else
  let! r := allocproc in
  match r with
  | None => ret (-1)
  | Some np =>
      let! me := curproc_idx in
      let! p := myproc in
      do upd_proc np (fun q =>
           set_p_tf (set_tf_eax 0 (p_tf p))
             (set_p_is_thread 1 (set_p_parent (Some me)
               (set_p_sz (p_sz p) (set_p_pgdir (p_pgdir p) q)))));
      do dup_files np;
      do dup_cwd np;
      do upd_proc np (copy_name (p_name p));
      do upd_proc np (set_p_pid (p_pid p));
      do modify (fun s => set_nextpid (i32 (nextpid s - 1)) s);
      let! t := gets ptable in
      let! tid :=
        match find_proc (is_main (p_pid p)) t 0 with
        | Some i =>
            do upd_proc i (fun q => set_p_numOfThread (p_numOfThread q + 1) q);
            let! q := proc_at i in
            ret (p_numOfThread q)
        | None => ret (p_tid p)
        end in
      do upd_proc np (set_p_tid tid);
      let stack := u32 (stack - 4) in
      do user_store stack arg;
      let stack := u32 (stack - 4) in
      do user_store stack 4294967295;
      do upd_proc np (fun q =>
           set_p_tf (set_tf_ebp stack (set_tf_esp stack
             (set_tf_eip function (p_tf q)))) q);
      do acquire PtableLock;
      do upd_proc np (set_p_state RUNNABLE);
      do upd_myproc (set_p_state RUNNABLE);
      do sched;
      do release PtableLock;
      let! q := proc_at np in
      ret (p_tid q)
  end.

(** ** exit *)
Definition close_files : K unit :=
  mfor NOFILE 0 (fun fd =>
    let! p := myproc in
    match p_ofile p !! fd with
    | Some (Some f) =>
        do fileclose f;
        upd_myproc (fun q => set_p_ofile (<[fd := None]> (p_ofile q)) q)
    | _ => ret tt
    end).

Definition drop_cwd : K unit :=
  let! p := myproc in
  do begin_op;
  let! cwd := deref "proc->cwd" (p_cwd p) in
  do iput cwd;
  do end_op;
  upd_myproc (set_p_cwd None).

(** [exit] of a thread: one pass of its loop over the table. *)
Definition exit_group_one (me i : nat) : K unit :=
  let! m := proc_at me in
  let! p := proc_at i in
  if (p_pid p =? p_pid m) && (p_is_thread p =? 0) then
    do upd_proc i (set_p_state ZOMBIE);
    wake_proc (p_parent p)
  else if (p_pid p =? p_pid m) && (p_is_thread p =? 1) then
    upd_proc i (fun p => set_p_state ZOMBIE (set_p_parent None p))
  else ret tt.

(** One pass of the loop that passes on or ends the children. *)
Definition exit_child_one (me i : nat) : K unit :=
  let! m := proc_at me in
  let! p := proc_at i in
  when (child_of me p)
    (if negb (p_pgdir p =? p_pgdir m) then
       let! ini := gets initproc in
       do upd_proc i (set_p_parent ini);
       when (in_state ZOMBIE p) (wake_proc ini)
     else upd_proc i (fun p => set_p_state ZOMBIE (set_p_parent None p))).

Definition exit : K unit :=
  let! me := curproc_idx in
  let! ini := gets initproc in
  if bool_decide (ini = Some me) then panic "init exiting" else
  do close_files;
  do drop_cwd;
  do acquire PtableLock;
  let! p := proc_at me in
  do wake_proc (p_parent p);
  do when (p_is_thread p =? 1)
    (do mfor NPROC 0 (exit_group_one me);
     do upd_myproc (set_p_state ZOMBIE);
     sched);
  do mfor NPROC 0 (exit_child_one me);
  do upd_myproc (set_p_state ZOMBIE);
  do sched;
  panic "zombie exit".

Definition exit_thread_child (me i : nat) : K unit :=
  let! p := proc_at i in
  when (child_of me p)
    (let! ini := gets initproc in
     do upd_proc i (set_p_parent ini);
     when (in_state ZOMBIE p) (wake_proc ini)).

Definition exit_thread (retval : Z) : K unit :=
  do upd_myproc (set_p_exit_status retval);
  let! me := curproc_idx in
  let! ini := gets initproc in
  if bool_decide (ini = Some me) then panic "init exiting" else
  do acquire PtableLock;
  let! p := proc_at me in
  do wake_proc (p_parent p);
  do mfor NPROC 0 (exit_thread_child me);
  do upd_myproc (set_p_state ZOMBIE);
  do sched;
  panic "zombie exit".

(** ** wait *)

(** The scan of [wait]: is there a child, and the first zombie one. *)
Definition wait_scan (me : nat) (t : list proc) : bool * option nat :=
  (existsb (child_of me) t, find_proc (fun p => child_of me p && in_state ZOMBIE p) t 0).

Definition clear_name (p : proc) : proc := set_p_name (<[0%nat := 0]> (p_name p)) p.

Definition reap (i : nat) : K Z :=
  let! p := proc_at i in
  do kfree (p_kstack p);
  do upd_proc i (set_p_kstack 0);
  do freevm (p_pgdir p);
  do upd_proc i (fun p =>
       set_p_killed false (clear_name (set_p_parent None (set_p_pid 0
         (set_p_state UNUSED p)))));
  do release PtableLock;
  ret (p_pid p).

Fixpoint wait_loop (fuel me : nat) : K Z :=
  let! t := gets ptable in
  let '(havekids, z) := wait_scan me t in
  match z with
  | Some i => reap i
  | None =>
      let! p := proc_at me in
      if negb havekids || p_killed p then
        do release PtableLock;
        ret (-1)
      else
        do sleep (ChProc me) PtableLock;
        match fuel with O => hang | S f => wait_loop f me end
  end.

Definition wait : K Z :=
  let! me := curproc_idx in
  do acquire PtableLock;
  let! n := pending in
  wait_loop n me.

Definition thread_child (me : nat) (tid : Z) (p : proc) : bool :=
  child_of me p && (p_tid p =? tid) && (p_is_thread p =? 1).

Definition reap_thread (me i : nat) (retval : Z) : K Z :=
  do upd_proc me (fun q => set_p_numOfThread (p_numOfThread q - 1) q);
  let! p := proc_at i in
  do kfree (p_kstack p);
  do upd_proc i (fun p =>
       set_p_is_thread 0 (set_p_killed false (clear_name
         (set_p_parent None (set_p_pid 0 (set_p_state UNUSED
           (set_p_kstack 0 p)))))));
  do user_store retval (p_exit_status p);
  do upd_proc i (set_p_exit_status 0);
  do release PtableLock;
  ret (p_tid p).

Fixpoint wait_thread_loop (fuel me : nat) (tid retval : Z) : K Z :=
  let! t := gets ptable in
  match find_proc (fun p => thread_child me tid p && in_state ZOMBIE p) t 0 with
  | Some i => reap_thread me i retval
  | None =>
      let! p := proc_at me in
      if negb (existsb (thread_child me tid) t) || p_killed p then
        do release PtableLock;
        ret (-1)
      else
        do sleep (ChProc me) PtableLock;
        match fuel with O => hang | S f => wait_thread_loop f me tid retval end
  end.

Definition wait_thread (tid retval : Z) : K Z :=
  let! me := curproc_idx in
  do acquire PtableLock;
  let! n := pending in
  wait_thread_loop n me tid retval.

(** ** Scheduling *)

(** One process's turn in [scheduler]: [interfere] is the process running until
    it switches back, holding the lock as [sched] requires. *)
Definition scheduler_turn (i : nat) : K unit :=
  let! p := proc_at i in
  when (in_state RUNNABLE p)
    (do modify (set_curproc (Some i));
     do switchuvm p;
     do upd_proc i (set_p_state RUNNING);
     do interfere;
     modify (set_curproc None)).

(** One round of the endless loop of [scheduler]. *)
Definition scheduler_round : K unit :=
  do acquire PtableLock;
  do mfor NPROC 0 scheduler_turn;
  release PtableLock.

Definition forkret : K unit :=
  do release PtableLock;
  let! first := gets forkret_first in
  when first
    (do modify (set_forkret_first false);
     do iinit ROOTDEV;
     initlog ROOTDEV).

Definition kill (pid : Z) : K Z :=
  do acquire PtableLock;
  let! t := gets ptable in
  match find_proc (fun p => p_pid p =? pid) t 0 with
  | Some i =>
      do upd_proc i (fun p =>
           let p := set_p_killed true p in
           if in_state SLEEPING p then set_p_state RUNNABLE p else p);
      do release PtableLock;
      ret 0
  | None =>
      do release PtableLock;
      ret (-1)
  end.

Definition getpid : K Z := let! p := myproc in ret (p_pid p).

(** ** thread.c *)

(** [while(xchg(lock, 0) == 0);]: while the lock is taken, others run. *)
Fixpoint lock_spin (fuel : nat) : K unit :=
  let! v := gets thread_lock in
  do modify (set_thread_lock 0);
  if negb (v =? 0) then ret tt else
  do interfere;
  match fuel with O => hang | S f => lock_spin f end.

Definition lockinit : K unit := modify (set_thread_lock 1).
Definition lock_acquire : K unit := let! n := pending in lock_spin n.
Definition lock_release : K unit := modify (set_thread_lock 1).

Definition thread_create (function priority arg stack : Z) : K Z :=
  clone function arg stack.

Definition thread_exit (retval : Z) : K unit := exit_thread retval.

Definition thread_join (tid retval : Z) : K Z :=
  do lock_acquire;
  let! r := wait_thread tid retval in
  if r <? 0 then ret (-1) else
  do lock_release;
  ret 0.

Definition gettid : K Z := let! p := myproc in ret (p_tid p).
End Proc.
