(* ===== verification/Lifecycle.v ===== *)
(** * The life of a process

    What proc.c and thread.c promise about a process from its creation to the
    moment its parent collects it: fork makes a copy that shares nothing but
    the open files and the working directory, wait gives back everything the
    child had, kill reaches its target, and a thread's result goes to the
    thread that joins it. *)

From S2P Require Import Prelude Bytes Cstring Kstate Sync Kalloc Pipe Disk Bio Log Fs Content File Vm Dir Pagetable Uvm Space Proc.
Import Str.
Local Open Scope Z_scope.

(** A lock is not among the locks of a known short list. *)
Ltac nolock := cbn; first [apply not_elem_of_nil | by intros ?%list_elem_of_singleton].

(** ** The process table *)
Lemma proc_at_runs i p s : ptable s !! i = Some p -> runs (proc_at i) s p s.
Proof. intros H e. unfold proc_at, bind, gets, deref. by rewrite H. Qed.

Lemma upd_proc_runs i p f s :
  ptable s !! i = Some p -> runs (upd_proc i f) s tt (set_ptable (<[i := f p]> (ptable s)) s).
Proof. intros H. unfold upd_proc. eapply runs_bind; [by apply proc_at_runs|]. by intros e. Qed.

Lemma curproc_idx_runs i s : curproc s = Some i -> runs curproc_idx s i s.
Proof. intros H e. unfold curproc_idx, bind, gets, deref. by rewrite H. Qed.

Lemma myproc_runs i p s : curproc s = Some i -> ptable s !! i = Some p -> runs myproc s p s.
Proof. intros H Hp. eapply runs_bind; [by apply curproc_idx_runs|]. by apply proc_at_runs. Qed.

Lemma upd_myproc_runs i p f s :
  curproc s = Some i -> ptable s !! i = Some p ->
  runs (upd_myproc f) s tt (set_ptable (<[i := f p]> (ptable s)) s).
Proof. intros H Hp. eapply runs_bind; [by apply curproc_idx_runs|]. by apply upd_proc_runs. Qed.

Lemma find_proc_some test t : forall i r, find_proc test t i = Some r ->
  exists k p, r = (i + k)%nat /\ t !! k = Some p /\ test p = true /\
    forall j q, (j < k)%nat -> t !! j = Some q -> test q = false.
Proof.
  induction t as [|p t IH]; intros i r; cbn; [done|]. destruct (test p) eqn:E.
  - intros [= <-]. exists 0%nat, p. split; [lia|]. split; [done|]. split; [done|]. lia.
  - intros (k & q & -> & Hk & Hq & Hlt)%IH. exists (S k), q. split; [lia|]. split; [done|].
    split; [done|]. intros [|j] x Hj Hx; [by injection Hx as <-|]. eapply Hlt; [|done]. lia.
Qed.

Lemma find_proc_first test t k p :
  t !! k = Some p -> test p = true -> (forall j q, (j < k)%nat -> t !! j = Some q -> test q = false) ->
  forall i, find_proc test t i = Some (i + k)%nat.
Proof.
  revert k. induction t as [|q t IH]; intros [|k] Hk Hp Hlt i; try done; cbn in *.
  - injection Hk as ->. rewrite Hp. f_equal. lia.
  - rewrite (Hlt 0%nat q); [|lia|done]. rewrite (IH k); [f_equal; lia|done|done|].
    intros j x Hj Hx. apply (Hlt (S j)); [lia|done].
Qed.

Lemma find_proc_none test t : forall i, find_proc test t i = None <-> Forall (fun p => test p = false) t.
Proof.
  induction t as [|p t IH]; intros i; cbn; [done|]. rewrite list.Forall_cons.
  destruct (test p) eqn:E; [|rewrite IH; naive_solver]. split; [done|]. by intros [? _].
Qed.

(** ** allocproc *)

(** A table entry just taken. *)
Definition embryo (pid k : Z) (q : proc) : proc :=
  set_p_kstack k (set_p_numOfThread 0 (set_p_tid 0 (set_p_is_thread 0
    (set_p_pid pid (set_p_state EMBRYO q))))).

Section Lifecycle.
Context {Lay : Layout} {Dev : BlockDev} {Sw : DevSw}.

Lemma allocproc_runs s i q k l :
  held s = [] -> find_proc (in_state UNUSED) (ptable s) 0 = Some i -> ptable s !! i = Some q ->
  kmem_rep s (k :: l) ->
  runs allocproc s (Some i)
    (set_nextpid (i32 (nextpid s + 1)) (set_ptable (<[i := embryo (nextpid s) k q]> (ptable s)) (popped s))).
Proof.
  intros Hh Hf Hq K. destruct (kalloc_spec s _ K) as [_ Hk]. cbn in Hk.
  pose proof (free_list_pages _ _ _ _ (kr_list _ _ K) (list_elem_of_here _ _)) as Hp.
  unfold allocproc. eapply runs_bind; [apply acquire_runs; rewrite Hh; nolock|].
  eapply (runs_bind _ _ _ (ptable s)); [by intros e|]. rewrite Hf.
  eapply (runs_bind _ _ _ (nextpid s)); [by intros e|].
  eapply runs_bind; [by apply (upd_proc_runs i q)|].
  eapply (runs_bind _ _ _ tt); [by intros e|].
  eapply runs_bind; [apply (release_runs _ _ []); cbn; [by rewrite Hh|nolock]|].
  eapply runs_bind; [apply kalloc_runs; cbn; nolock|]. cbn [kmem set_kmem set_held set_nextpid set_ptable].
  rewrite Hk. eapply runs_bind.
  { apply (upd_proc_runs i). cbn. apply list_lookup_insert_eq. by eapply lookup_lt_Some. }
  rewrite (proj2 (Z.eqb_neq k 0)) by (by apply page_pos). intros e. unfold ret. f_equal.
  unfold popped. cbn. rewrite Hk, list_insert_insert_eq. destruct s; cbn in *. by subst.
Qed.

(** ** fork *)

(** The files a new process gets: those of its creator, and where the creator
    has none what the table entry already held. *)
Definition child_files (from to : list (option nat)) : list (option nat) := zip_with (∪) from to.

(** How often [f] is among [fs]. *)
Definition uses (f : nat) (fs : list (option nat)) : nat := length (filter (fun o => o = Some f) fs).

Lemma uses_snoc f fs o : uses f (fs ++ [o]) = (uses f fs + if decide (o = Some f) then 1 else 0)%nat.
Proof.
  unfold uses. rewrite list.filter_app, length_app. f_equal. rewrite filter_cons. by case_decide.
Qed.

Lemma filedup_runs f ff s :
  ftable s !! f = Some ff -> 1 <= f_ref ff -> FtableLock ∉ held s ->
  runs (filedup f) s f (set_ftable (<[f := set_f_ref (f_ref ff + 1) ff]> (ftable s)) s).
Proof.
  intros Hf Hr Hh. unfold filedup. eapply runs_bind; [by apply acquire_runs|].
  eapply runs_bind; [by apply (file_at_runs f ff)|]. rewrite (proj2 (Z.ltb_ge _ _)) by lia.
  eapply runs_bind; [by apply (upd_file_runs f ff)|].
  eapply runs_bind; [by apply (release_runs _ _ (held s))|]. intros e. by destruct s.
Qed.

(** After [n] passes of the loop that shares the open files. *)
Definition files_dupped (s : kstate) (np : nat) (p q : proc) (refs : nat -> nat) (n : nat) (s1 : kstate) : Prop :=
  exists t fs, s1 = set_ftable t (set_ptable (<[np := set_p_ofile fs q]> (ptable s)) s) /\
    length t = length (ftable s) /\ ftable_ok t (fun f => refs f + uses f (take n (p_ofile p)))%nat /\
    length fs = length (p_ofile q) /\
    forall j, fs !! j = if decide (j < n)%nat then child_files (p_ofile p) (p_ofile q) !! j else p_ofile q !! j.

Lemma dup_files_spec s me np p q refs :
  curproc s = Some me -> ptable s !! me = Some p -> ptable s !! np = Some q -> me <> np ->
  FtableLock ∉ held s -> length (p_ofile p) = NOFILE -> length (p_ofile q) = NOFILE ->
  ftable_ok (ftable s) refs ->
  (forall f, Some f ∈ p_ofile p -> (f < length (ftable s))%nat /\ (0 < refs f)%nat) ->
  wp (dup_files np) s (fun _ s' => files_dupped s np p q refs NOFILE s').
Proof.
  intros Hc Hp Hq Hne Hh Lp Lq Ht Hf.
  apply (wp_mfor (files_dupped s np p q refs)); [| |done].
  - exists (ftable s), (p_ofile q). split.
    { rewrite list_insert_id; [by destruct s|]. rewrite Hq. by destruct q. }
    split; [done|]. split; [intros f ff Hff; rewrite (Ht f ff Hff), take_0; change (uses f []) with 0%nat; lia|].
    split; [done|]. intros j. by rewrite decide_False by lia.
  - intros n s1 Hn (t & fs & -> & Lt & Ht1 & Lf & Hfs). cbn [Nat.add] in *.
    destruct (lookup_lt_is_Some_2 (p_ofile p) n) as [o Ho]; [lia|].
    destruct (lookup_lt_is_Some_2 (p_ofile q) n) as [o' Ho']; [lia|].
    assert (child_files (p_ofile p) (p_ofile q) !! n = Some (o ∪ o')) as Hz.
    { unfold child_files. by rewrite lookup_zip_with, Ho, Ho'. }
    eapply wp_bind_runs; [apply (myproc_runs me p); [done|cbn; by rewrite list_lookup_insert_ne]|].
    rewrite Ho. assert (np < length (ptable s))%nat by (by eapply lookup_lt_Some).
    assert (forall f, uses f (take (S n) (p_ofile p)) =
      (uses f (take n (p_ofile p)) + if decide (o = Some f) then 1 else 0)%nat) as Hu.
    { intros f. by rewrite (take_S_r _ _ o Ho), uses_snoc. }
    destruct o as [f|].
    + destruct (Hf f) as [Hfl Hfr]; [by eapply list_elem_of_lookup_2|]. rewrite <- Lt in Hfl.
      destruct (lookup_lt_is_Some_2 _ _ Hfl) as [ff Hff]. pose proof (Ht1 f ff Hff) as Href. cbv beta in Href.
      eapply wp_bind_runs; [apply (filedup_runs f ff); [done|lia|done]|].
      eapply runs_wp; [apply (upd_proc_runs np (set_p_ofile fs q)); cbn; by rewrite list_lookup_insert_eq|].
      exists (<[f := set_f_ref (f_ref ff + 1) ff]> t), (<[n := Some f]> fs). cbn. rewrite list_insert_insert_eq. split; [done|].
      split; [by rewrite length_insert|]. split; [|split; [by rewrite length_insert|]].
      * intros g gg Hg. rewrite Hu. destruct (decide (g = f)) as [->|Hgf].
        -- rewrite list_lookup_insert_eq in Hg by done. injection Hg as <-. rewrite decide_True by done. cbn. lia.
        -- rewrite list_lookup_insert_ne in Hg by done. rewrite (Ht1 g gg Hg), decide_False by congruence. lia.
      * intros j. destruct (decide (j = n)) as [->|].
        -- rewrite list_lookup_insert_eq by lia. rewrite decide_True, Hz by lia. by destruct o'.
        -- rewrite list_lookup_insert_ne, Hfs by done. repeat case_decide; try done; lia.
    + apply wp_ret. eexists t, fs. split; [done|]. split; [done|]. split; [|split; [done|]].
      * intros g gg Hg. rewrite Hu, (Ht1 g gg Hg), decide_False by done. lia.
      * intros j. destruct (decide (j = n)) as [->|].
        -- rewrite Hfs, decide_False, decide_True by lia. rewrite Hz, Ho'. by destruct o'.
        -- rewrite Hfs. repeat case_decide; try done; lia.
Qed.

Lemma files_dupped_all s np p q refs s' :
  length (p_ofile p) = NOFILE -> length (p_ofile q) = NOFILE -> files_dupped s np p q refs NOFILE s' ->
  exists t, s' = set_ftable t (set_ptable (<[np := set_p_ofile (child_files (p_ofile p) (p_ofile q)) q]> (ptable s)) s) /\
    length t = length (ftable s) /\ ftable_ok t (fun f => refs f + uses f (p_ofile p))%nat.
Proof.
  intros Lp Lq (t & fs & -> & Lt & Ht & Lf & Hfs). exists t. rewrite take_ge in Ht by lia. split; [|done].
  assert (fs = child_files (p_ofile p) (p_ofile q)) as ->; [|done]. apply list_eq. intros j. rewrite Hfs.
  case_decide; [done|]. rewrite !lookup_ge_None_2; [done| |lia].
  unfold child_files. rewrite length_zip_with. lia.
Qed.

Lemma dup_cwd_runs s me np p q c ip :
  curproc s = Some me -> ptable s !! me = Some p -> ptable s !! np = Some q -> p_cwd p = Some c ->
  icache s !! c = Some ip -> IcacheLock ∉ held s ->
  runs (dup_cwd np) s tt (set_ptable (<[np := set_p_cwd (Some c) q]> (ptable s))
    (set_icache (<[c := set_i_ref (i_ref ip + 1) ip]> (icache s)) s)).
Proof.
  intros Hc Hp Hq Hw Hi Hh. unfold dup_cwd. eapply runs_bind; [by apply (myproc_runs me p)|]. rewrite Hw.
  eapply (runs_bind _ _ _ c); [by intros e|]. eapply (runs_bind _ _ _ c).
  - unfold idup. eapply runs_bind; [by apply acquire_runs|].
    eapply runs_bind; [by apply (upd_inode_runs c ip)|].
    eapply runs_bind; [by apply (release_runs _ _ (held s))|]. by intros e.
  - intros e. rewrite (upd_proc_runs np q) by done. by destruct s.
Qed.

(** The child of [p], in the table entry that held [q]. *)
Definition forked (me : nat) (pid k d : Z) (p q : proc) : proc :=
  mkProc (p_sz p) d k RUNNABLE pid (Some me) (set_tf_eax 0 (p_tf p)) (p_chan q) (p_killed q)
    (child_files (p_ofile p) (p_ofile q)) (p_cwd p) (p_name (copy_name (p_name p) q))
    (p_exit_status q) (p_is_thread p) 0 0.

(** What fork needs of its caller, process [me]: a free table entry [i], memory
    for a kernel stack [k] and a copy with directory [d], files and a directory
    that are referenced. *)
Record can_fork (s : kstate) (me i : nat) (p q : proc) (k d : Z) (l : list Z) (tabs us : gmap Z Z)
    (refs : nat -> nat) (c : nat) (ip : inode) : Prop := {
  cf_held : held s = [];
  cf_cur : curproc s = Some me;
  cf_me : ptable s !! me = Some p;
  cf_run : p_state p = RUNNING;
  cf_slot : find_proc (in_state UNUSED) (ptable s) 0 = Some i;
  cf_old : ptable s !! i = Some q;
  cf_space : uvm_ok s (k :: d :: l) (p_pgdir p) tabs us;
  cf_pages : forall j, 0 <= j < npages (p_sz p) -> is_Some (us !! j);
  cf_sz : 0 <= p_sz p < KERNBASE;
  cf_mem : 66 + 2 * npages (p_sz p) <= Z.of_nat (length l);
  cf_ofile : length (p_ofile p) = NOFILE /\ length (p_ofile q) = NOFILE;
  cf_refs : ftable_ok (ftable s) refs;
  cf_open : forall f, Some f ∈ p_ofile p -> (f < length (ftable s))%nat /\ (0 < refs f)%nat;
  cf_cwd : p_cwd p = Some c;
  cf_inode : icache s !! c = Some ip
}.

Lemma can_fork_ne s me i p q k d l tabs us refs c ip :
  can_fork s me i p q k d l tabs us refs c ip -> me <> i.
Proof.
  intros C. destruct (find_proc_some _ _ _ _ (cf_slot _ _ _ _ _ _ _ _ _ _ _ _ _ C)) as (j & x & E & Hx & Ht & _).
  cbn in E. subst j. intros <-. destruct C. simplify_eq. unfold in_state in Ht. rewrite cf_run0 in Ht. done.
Qed.

(** The state in which fork calls copyuvm. *)
Definition at_copy (s : kstate) (i : nat) (k : Z) (q : proc) : kstate :=
  set_nextpid (i32 (nextpid s + 1)) (set_ptable (<[i := embryo (nextpid s) k q]> (ptable s)) (popped s)).

Lemma at_copy_space s me i p q k d l tabs us refs c ip :
  can_fork s me i p q k d l tabs us refs c ip ->
  uvm_ok (at_copy s i k q) (d :: l) (p_pgdir p) tabs us /\ mem (at_copy s i k q) = mem s /\
  k <> d /\ (k ∉ l) /\ (k ∉ p_pgdir p :: values tabs ++ values us) /\ page k.
Proof.
  intros C. pose proof (cf_space _ _ _ _ _ _ _ _ _ _ _ _ _ C) as U.
  destruct (take_page s (d :: l) (p_pgdir p) tabs us k (mem s) U) as (U' & Hk & H1 & H2 & H3 & H4 & _); [done|].
  split; [by apply (uvm_ok_frame _ _ _ _ _ _ U')|]. split; [done|].
  rewrite !elem_of_cons, elem_of_app in *. tauto.
Qed.

Lemma fork_spec s me i p q k d l tabs us refs c ip :
  can_fork s me i p q k d l tabs us refs c ip ->
  wp fork s (fun r s' => r = nextpid s /\ exists s2 l2 ctabs cus t,
    copied (p_pgdir p) (p_sz p) tabs us (at_copy s i k q) l d s2 l2 ctabs cus /\
    s' = set_ptable (<[i := forked me (nextpid s) k d p q]> (ptable s))
      (set_icache (<[c := set_i_ref (i_ref ip + 1) ip]> (icache s)) (set_ftable t s2)) /\
    length t = length (ftable s) /\ ftable_ok t (fun f => refs f + uses f (p_ofile p))%nat).
Proof.
  intros C. pose proof (can_fork_ne _ _ _ _ _ _ _ _ _ _ _ _ _ C) as Hne.
  destruct (at_copy_space _ _ _ _ _ _ _ _ _ _ _ _ _ C) as (U & Em & _).
  pose proof C as [Hh Hc Hp Hst Hf Hq Hu Hpg Hsz Hl [Lp Lq] Ht Ho Hw Hi].
  assert (i < length (ptable s))%nat as Hil by (by eapply lookup_lt_Some).
  unfold fork. eapply wp_bind_runs; [apply (allocproc_runs s i q k (d :: l)); try done; apply Hu|].
  fold (at_copy s i k q). set (s1 := at_copy s i k q) in *.
  assert (ptable s1 !! me = Some p) as Hp1 by (cbn; by rewrite list_lookup_insert_ne).
  eapply wp_bind_runs; [by apply (curproc_idx_runs me)|]. eapply wp_bind_runs; [by apply (myproc_runs me p)|].
  apply wp_bind. eapply wp_mono; [by apply (copy_space s1 l d (p_pgdir p) tabs us (p_sz p) U)|].
  intros r s2 (-> & l2 & ctabs & cus & Cp). pose proof (cp_frame _ _ _ _ _ _ _ _ _ _ _ Cp) as F.
  assert (ptable s2 = <[i := embryo (nextpid s) k q]> (ptable s)) as Et by (by rewrite F).
  assert (curproc s2 = Some me) as Ec by (by rewrite F). assert (held s2 = []) as Eh by (by rewrite F).
  assert (ftable s2 = ftable s) as Ef by (by rewrite F). assert (icache s2 = icache s) as Ei by (by rewrite F).
  assert (page d) as Hd by apply (two_child _ _ _ _ _ _ _ _ (cp_two _ _ _ _ _ _ _ _ _ _ _ Cp)).
  eapply wp_bind_runs; [apply (upd_proc_runs i (embryo (nextpid s) k q)); rewrite Et; by apply list_lookup_insert_eq|].
  rewrite Et, list_insert_insert_eq. rewrite (proj2 (Z.eqb_neq d 0)) by (by apply page_pos).
  eapply wp_bind_runs; [eapply upd_proc_runs; cbn; by apply list_lookup_insert_eq|].
  cbn [ptable set_ptable]. rewrite list_insert_insert_eq. set (q1 := set_p_is_thread _ _).
  apply wp_bind. eapply wp_mono; [apply (dup_files_spec _ me i p q1 refs); cbn; try done|].
  { by rewrite list_lookup_insert_ne. }
  { by apply list_lookup_insert_eq. }
  { rewrite Eh. nolock. }
  { by rewrite Ef. }
  { by rewrite Ef. }
  intros ? s3 FD. destruct (files_dupped_all _ _ p q1 _ _ Lp Lq FD) as (t & -> & Lt & Ht').
  cbn [ptable set_ptable]. rewrite list_insert_insert_eq.
  eapply wp_bind_runs; [eapply (dup_cwd_runs _ me i p); cbn; try done|].
  { by rewrite list_lookup_insert_ne. }
  { by apply list_lookup_insert_eq. }
  { by rewrite Ei. }
  { rewrite Eh. nolock. }
  cbn [ptable set_ptable set_ftable]. rewrite list_insert_insert_eq.
  eapply wp_bind_runs; [eapply upd_proc_runs; cbn; by apply list_lookup_insert_eq|].
  cbn [ptable set_ptable]. rewrite list_insert_insert_eq.
  eapply wp_bind_runs; [apply proc_at_runs; cbn; by apply list_lookup_insert_eq|].
  apply wp_bind, wp_acquire; [cbn; rewrite Eh; nolock|].
  eapply wp_bind_runs; [eapply upd_proc_runs; cbn; by apply list_lookup_insert_eq|].
  cbn [ptable set_ptable set_held]. rewrite list_insert_insert_eq.
  apply wp_bind. apply (wp_release _ _ []); [cbn; by rewrite Eh|nolock|]. apply wp_ret.
  split; [done|]. exists s2, l2, ctabs, cus, t. split; [done|]. split; [|split; [by rewrite Lt, <- Ef|done]].
  unfold forked, q1, copy_name. destruct s2; cbn in *. subst. by rewrite Hw.
Qed.

(** A counter above every pid of the table, as it is after the entry [i] takes
    its value. *)
Lemma pid_counter_ok (t : list proc) n i x :
  Forall (fun x => p_pid x < n) t -> 0 <= n < 2 ^ 31 - 1 -> p_pid x = n ->
  Forall (fun x => p_pid x < i32 (n + 1)) (<[i := x]> t) /\
  forall j y, <[i := x]> t !! j = Some y -> p_pid y = n -> j = i.
Proof.
  intros Ht Hn Hx. rewrite i32_small by lia. split.
  - apply Forall_insert; [|lia]. eapply list.Forall_impl; [exact Ht|]. cbn. lia.
  - intros j y Hj Hy. destruct (decide (j = i)) as [|Hne]; [done|]. rewrite list_lookup_insert_ne in Hj by done.
    rewrite list.Forall_lookup in Ht. specialize (Ht j y Hj). cbn in Ht. lia.
Qed.

(** C17: fork, when a table entry and memory are available, returns the value of
    the pid counter, which it advances, and creates a runnable child with that
    pid that returns 0 from the call, has the caller's name, working directory
    and open files, each counted once more, and reads in its memory what the
    caller reads; the caller and its memory are unchanged.  As long as the
    counter does not overflow it stays above every pid of the table if it was
    before the call, and then no other entry has the child's pid. *)
Theorem fork_copies s me i p q k d l tabs us refs c ip :
  can_fork s me i p q k d l tabs us refs c ip ->
  wp fork s (fun r s' => r = nextpid s /\ nextpid s' = i32 (nextpid s + 1) /\ held s' = [] /\
    ptable s' = <[i := forked me r k d p q]> (ptable s) /\
    ftable_ok (ftable s') (fun f => refs f + uses f (p_ofile p))%nat /\
    icache s' = <[c := set_i_ref (i_ref ip + 1) ip]> (icache s) /\
    (forall va, 0 <= va < npages (p_sz p) * 4096 ->
      user_byte (mem s') d va = user_byte (mem s) (p_pgdir p) va) /\
    (forall va, 0 <= va < KERNBASE -> user_byte (mem s') (p_pgdir p) va = user_byte (mem s) (p_pgdir p) va) /\
    (Forall (fun x => p_pid x < nextpid s) (ptable s) -> 0 <= nextpid s < 2 ^ 31 - 1 ->
      Forall (fun x => p_pid x < nextpid s') (ptable s') /\
      forall j x, ptable s' !! j = Some x -> p_pid x = r -> j = i)).
Proof.
  intros C. destruct (at_copy_space _ _ _ _ _ _ _ _ _ _ _ _ _ C) as (U & Em & _).
  eapply wp_mono; [by apply fork_spec|]. intros r s' (-> & s2 & l2 & ctabs & cus & t & Cp & -> & _ & Ht).
  pose proof (cp_frame _ _ _ _ _ _ _ _ _ _ _ Cp) as F. pose proof (cf_sz _ _ _ _ _ _ _ _ _ _ _ _ _ C) as Hsz.
  assert (forall va, 0 <= va < KERNBASE -> user_byte (mem s2) (p_pgdir p) va = user_byte (mem s) (p_pgdir p) va) as Hpar.
  { intros va Hva. rewrite <- Em. by apply (copied_parent _ _ _ _ _ _ _ _ _ _ _ va U Cp). }
  split; [done|]. split; [cbn; by rewrite F|]. split; [cbn; rewrite F; apply C|]. split; [done|]. split; [done|].
  split; [done|]. split; [|split; [done|]].
  - intros va Hva. cbn. pose proof (npages_bound (p_sz p)). unfold KERNBASE in Hsz.
    rewrite <- Hpar by (unfold KERNBASE; lia).
    apply (same_page_byte _ _ _ _ _ _ _ _ _ (cp_two _ _ _ _ _ _ _ _ _ _ _ Cp)); [lia|].
    apply (cp_page _ _ _ _ _ _ _ _ _ _ _ Cp). split; [apply Z.div_pos; lia|apply Z.div_lt_upper_bound; lia].
  - intros Hall Hn. cbn [nextpid ptable set_ptable set_icache set_ftable]. rewrite F. cbn. by apply pid_counter_ok.
Qed.

(** ** wait *)

(** The table entry of a child that has been collected. *)
Definition reaped (q : proc) : proc :=
  set_p_killed false (clear_name (set_p_parent None (set_p_pid 0 (set_p_state UNUSED (set_p_kstack 0 q))))).

(** A zombie with its own address space and kernel stack. *)
Record zombie_space (s : kstate) (l : list Z) (q : proc) (tabs us : gmap Z Z) (n : Z) : Prop := {
  zs_space : uvm_ok s l (p_pgdir q) tabs us;
  zs_size : contiguous us n;
  zs_pos : 0 <= n;
  zs_stack : page (p_kstack q);
  zs_apart : p_kstack q ∉ p_pgdir q :: values tabs ++ values us ++ l
}.

Lemma uvm_ok_push s l d tabs us k :
  uvm_ok s l d tabs us -> page k -> k ∉ d :: values tabs ++ values us ++ l ->
  uvm_ok (pushed k s) (k :: l) d tabs us.
Proof.
  intros U Hk Hn. pose proof U as [[K L P T E D] F N D']. pose proof (pushed_same k s) as Hs.
  assert (forall x, x ∈ [k] -> page x) as Hps by (by intros x ->%list_elem_of_singleton).
  rewrite elem_of_cons, !elem_of_app in Hn.
  assert (forall j, pt (mem (pushed k s)) tabs j = pt (mem s) tabs j) as Hpt.
  { intros j. apply (pt_same s l d tabs [k] _ j (uk_vm _ _ _ _ _ U) Hs Hps).
    intros x Hx ->%list_elem_of_singleton. tauto. }
  split; [split; try done|..].
  - apply kfree_spec; [done|done|tauto].
  - intros j Hj. rewrite (word_at_same [k] (mem s)); [by apply E|done..|].
    intros ->%list_elem_of_singleton. tauto.
  - assert (d :: values tabs ++ k :: l ≡ₚ k :: d :: values tabs ++ l) as -> by solve_Permutation.
    apply list.NoDup_cons. split; [|done]. rewrite elem_of_cons, elem_of_app. tauto.
  - intros n x Hx. rewrite Hpt. by apply F.
  - intros n Hx Hy. rewrite Hpt. by apply N.
  - assert (d :: values tabs ++ values us ++ k :: l ≡ₚ k :: d :: values tabs ++ values us ++ l)
      as -> by solve_Permutation.
    apply list.NoDup_cons. split; [|done]. rewrite elem_of_cons, !elem_of_app. tauto.
Qed.

Lemma kfree_space s l d tabs us k :
  uvm_ok s l d tabs us -> page k -> k ∉ d :: values tabs ++ values us ++ l ->
  exists s2, runs (kfree k) s tt s2 /\ uvm_ok s2 (k :: l) d tabs us /\ vm_frame s s2 /\
    same_outside [k] (mem s) (mem s2).
Proof.
  intros U Hk Hn. exists (pushed k s). split; [apply kfree_runs; [done|apply U]|].
  split; [by apply uvm_ok_push|]. split; [apply pushed_frame|apply pushed_same].
Qed.

Lemma reap_spec s l i q tabs us n :
  held s = [PtableLock] -> ptable s !! i = Some q -> zombie_space s l q tabs us n ->
  wp (reap i) s (fun r s' => r = p_pid q /\ exists l',
    l' ≡ₚ p_kstack q :: p_pgdir q :: values tabs ++ values us ++ l /\ kmem_rep s' l' /\
    s' = set_mem (mem s') (set_kmem (kmem s') (set_ptable (<[i := reaped q]> (ptable s)) (set_held [] s))) /\
    same_outside l' (mem s) (mem s')).
Proof.
  intros Hh Hq [U Hc Hn Hk Ha]. assert (i < length (ptable s))%nat by (by eapply lookup_lt_Some).
  pose proof (uvm_ok_push _ _ _ _ _ _ U Hk Ha) as U1.
  unfold reap. eapply wp_bind_runs; [by apply proc_at_runs|].
  eapply wp_bind_runs; [apply kfree_runs; [done|rewrite Hh; nolock]|].
  eapply wp_bind_runs; [by apply (upd_proc_runs i q)|]. set (s1 := set_ptable _ (pushed _ _)).
  assert (uvm_ok s1 (p_kstack q :: l) (p_pgdir q) tabs us) as U2 by (by apply (uvm_ok_frame _ _ _ _ _ _ U1)).
  apply wp_bind. eapply wp_mono; [by apply (freevm_spec s1 _ _ _ _ _ U2 Hc)|].
  intros ? s2 (l2 & K2 & P2 & F2 & M2).
  assert (ptable s2 = <[i := set_p_kstack 0 q]> (ptable s)) as Et by (by rewrite F2).
  assert (held s2 = [PtableLock]) as Eh by (by rewrite F2).
  eapply wp_bind_runs; [apply (upd_proc_runs i (set_p_kstack 0 q)); rewrite Et; by apply list_lookup_insert_eq|].
  rewrite Et, list_insert_insert_eq. apply wp_bind. apply (wp_release _ _ []); [done|nolock|]. apply wp_ret.
  split; [done|]. exists l2. split; [rewrite P2; solve_Permutation|]. split; [by destruct K2; split|]. split.
  - unfold vm_frame in F2. revert F2. cbn [mem kmem set_mem set_kmem set_ptable set_held].
    generalize (mem s2), (kmem s2). intros m2 k2 ->. by destruct s.
  - cbn. eapply same_outside_weaken; [eapply same_outside_trans; [apply (pushed_same (p_kstack q) s)|exact M2]|].
    intros x [Hx|Hx]%elem_of_app; [|done]. apply list_elem_of_singleton in Hx as ->. rewrite P2.
    rewrite elem_of_cons, !elem_of_app, elem_of_cons. tauto.
Qed.

(** A descriptor left in the table entry, as exit_thread and wait_thread leave
    those of a thread, is open in the next process created there. *)
Theorem fork_stale_file s me i p q k d l tabs us refs c ip fd f :
  can_fork s me i p q k d l tabs us refs c ip ->
  p_ofile p !! fd = Some None -> p_ofile q !! fd = Some (Some f) ->
  wp fork s (fun r s' => exists x, ptable s' !! i = Some x /\ p_ofile x !! fd = Some (Some f)).
Proof.
  intros C Hp Hq. pose proof (cf_old _ _ _ _ _ _ _ _ _ _ _ _ _ C) as Hi. apply lookup_lt_Some in Hi.
  eapply wp_mono; [by apply fork_spec|]. intros r s' (-> & s2 & l2 & ct & cu & t & _ & -> & _).
  eexists. split; [cbn; by apply list_lookup_insert_eq|]. cbn [p_ofile forked]. unfold child_files.
  by rewrite lookup_zip_with, Hp, Hq.
Qed.

Definition zombie_child (me : nat) (p : proc) : bool := child_of me p && in_state ZOMBIE p.

(** [s'] is [s] with entry [i] free and the allocator holding [pages]. *)
Definition collected (s : kstate) (i : nat) (q : proc) (pages : list Z) (s' : kstate) : Prop :=
  exists l, l ≡ₚ pages /\ kmem_rep s' l /\ same_outside l (mem s) (mem s') /\
    s' = set_mem (mem s') (set_kmem (kmem s') (set_ptable (<[i := reaped q]> (ptable s)) s)).

Lemma wait_spec s l me i q tabs us n :
  held s = [] -> curproc s = Some me -> find_proc (zombie_child me) (ptable s) 0 = Some i ->
  ptable s !! i = Some q -> zombie_space s l q tabs us n ->
  wp wait s (fun r s' => r = p_pid q /\
    collected s i q (p_kstack q :: p_pgdir q :: values tabs ++ values us ++ l) s').
Proof.
  intros Hh Hc Hf Hq [U C Hn Hk Ha]. set (s1 := set_held [PtableLock] s).
  assert (uvm_ok s1 l (p_pgdir q) tabs us) as U1.
  { pose proof U as [[[K K'] L P T E D] F N D']. split; [split; [by split|nolock|done..]|done..]. }
  destruct (reap_spec s1 l i q tabs us n) as (r & s' & R & -> & l' & P & K & E & M); [done|done|by split|].
  exists (p_pid q), s'. split; [|split; [done|]].
  - unfold wait. eapply runs_bind; [by apply (curproc_idx_runs me)|].
    eapply runs_bind; [apply acquire_runs; rewrite Hh; nolock|]. rewrite Hh. fold s1.
    apply pending_bind. intros [|k]; cbn [wait_loop]; (eapply (runs_bind _ _ _ (ptable s)); [by intros e|]);
      unfold wait_scan; change (fun p => child_of me p && in_state ZOMBIE p) with (zombie_child me);
      by rewrite Hf.
  - exists l'. split; [done|]. split; [done|]. split; [done|]. rewrite E at 1. destruct s; cbn in *. by subst.
Qed.

(** C33: wait by a process with a child that has exited returns the child's pid,
    frees its table entry, and gives the child's kernel stack and every page of
    its address space back to the allocator. *)
Theorem wait_reaps s l me i q tabs us n :
  held s = [] -> curproc s = Some me -> find_proc (zombie_child me) (ptable s) 0 = Some i ->
  ptable s !! i = Some q -> zombie_space s l q tabs us n ->
  wp wait s (fun r s' => r = p_pid q /\
    collected s i q (p_kstack q :: p_pgdir q :: values tabs ++ values us ++ l) s').
Proof. apply wait_spec. Qed.

(** Wait by a process without children fails at once and changes nothing. *)
Theorem wait_no_child s me p :
  held s = [] -> curproc s = Some me -> ptable s !! me = Some p ->
  Forall (fun q => p_parent q <> Some me) (ptable s) ->
  wp wait s (fun r s' => r = -1 /\ s' = s).
Proof.
  intros Hh Hc Hp Hf. exists (-1), s. split; [|done]. unfold wait.
  eapply runs_bind; [by apply (curproc_idx_runs me)|].
  eapply runs_bind; [apply acquire_runs; rewrite Hh; nolock|]. rewrite Hh.
  assert (existsb (child_of me) (ptable s) = false) as E1.
  { apply not_true_is_false. rewrite existsb_exists. intros (x & Hx%list_elem_of_In & Hm).
    rewrite list.Forall_forall in Hf. apply (Hf x Hx). by apply bool_decide_eq_true in Hm. }
  assert (find_proc (zombie_child me) (ptable s) 0 = None) as E2.
  { apply find_proc_none. eapply list.Forall_impl; [exact Hf|]. intros x Hx. unfold zombie_child, child_of.
    by rewrite bool_decide_eq_false_2. }
  apply pending_bind. intros [|k]; cbn [wait_loop]; (eapply (runs_bind _ _ _ (ptable s)); [by intros e|]);
    unfold wait_scan; change (fun p => child_of me p && in_state ZOMBIE p) with (zombie_child me);
    rewrite E1, E2; (eapply runs_bind; [by apply (proc_at_runs me p)|]); cbn [negb orb];
    (eapply runs_bind; [apply (release_runs _ _ []); [done|nolock]|]);
    intros e; destruct s; cbn in *; by subst.
Qed.

(** ** kill *)

(** An entry marked by kill; a sleeping process is made runnable to notice. *)
Definition marked (p : proc) : proc :=
  if in_state SLEEPING p then set_p_state RUNNABLE (set_p_killed true p) else set_p_killed true p.

Lemma kill_runs s pid i p :
  held s = [] -> find_proc (fun p => p_pid p =? pid) (ptable s) 0 = Some i -> ptable s !! i = Some p ->
  runs (kill pid) s 0 (set_ptable (<[i := marked p]> (ptable s)) s).
Proof.
  intros Hh Hf Hp. unfold kill. eapply runs_bind; [apply acquire_runs; rewrite Hh; nolock|]. rewrite Hh.
  eapply (runs_bind _ _ _ (ptable s)); [by intros e|]. rewrite Hf.
  eapply runs_bind; [by apply (upd_proc_runs i p)|].
  eapply runs_bind; [apply (release_runs _ _ []); [done|nolock]|].
  intros e. unfold ret, marked. cbn. destruct s; cbn in *. by subst.
Qed.

(** Kill marks the first table entry with the pid as killed, making it
    runnable when it sleeps, and changes nothing else; it fails without effect
    exactly when no entry has the pid. *)
Theorem kill_marks s pid :
  held s = [] ->
  wp (kill pid) s (fun r s' =>
    (r = 0 /\ exists i p, ptable s !! i = Some p /\ p_pid p = pid /\
      (forall j q, (j < i)%nat -> ptable s !! j = Some q -> p_pid q <> pid) /\
      s' = set_ptable (<[i := marked p]> (ptable s)) s) \/
    (r = -1 /\ s' = s /\ Forall (fun p => p_pid p <> pid) (ptable s))).
Proof.
  intros Hh. destruct (find_proc (fun p => p_pid p =? pid) (ptable s) 0) as [i|] eqn:Hf.
  - destruct (find_proc_some _ _ _ _ Hf) as (k & p & -> & Hp & Ht & Hlt). cbn in *.
    eapply runs_wp; [by apply (kill_runs s pid k p)|]. left. split; [done|]. exists k, p.
    split; [done|]. split; [lia|]. split; [|done]. intros j q Hj Hq. specialize (Hlt j q Hj Hq). lia.
  - exists (-1), s. split.
    + unfold kill. eapply runs_bind; [apply acquire_runs; rewrite Hh; nolock|]. rewrite Hh.
      eapply (runs_bind _ _ _ (ptable s)); [by intros e|]. rewrite Hf.
      eapply runs_bind; [apply (release_runs _ _ []); [done|nolock]|].
      intros e. unfold ret. destruct s; cbn in *. by subst.
    + right. split; [done|]. split; [done|]. apply find_proc_none in Hf.
      eapply list.Forall_impl; [exact Hf|]. cbn. intros p Hp. lia.
Qed.

(** Kill accepts the pid 0 of free table entries, and allocproc does not
    reset the mark: when entry [i] is the first free one, the child that fork
    creates after kill(0) is killed from the start. *)
Theorem kill_free_entry s me i p q k d l tabs us refs c ip :
  can_fork s me i p q k d l tabs us refs c ip -> p_pid q = 0 ->
  (forall j x, (j < i)%nat -> ptable s !! j = Some x -> p_pid x <> 0) ->
  wp (do kill 0; fork) s (fun r s' => r = nextpid s /\
    exists x, ptable s' !! i = Some x /\ p_state x = RUNNABLE /\ p_killed x = true).
Proof.
  intros C Hq0 Hlt. pose proof (can_fork_ne _ _ _ _ _ _ _ _ _ _ _ _ _ C) as Hne. pose proof C as [].
  destruct (find_proc_some _ _ _ _ cf_slot0) as (j & x & E & Hx & Hun & Hfst). cbn in E. subst j.
  rewrite Hx in cf_old0. injection cf_old0 as ->. apply lookup_lt_Some in Hx as Hil.
  assert (p_state q = UNUSED) as Hst by (by apply bool_decide_eq_true in Hun).
  assert (marked q = set_p_killed true q) as Em.
  { unfold marked, in_state. by rewrite bool_decide_eq_false_2 by congruence. }
  eapply wp_bind_runs.
  { apply (kill_runs s 0 i q); [done| |done]. apply (find_proc_first _ _ i q Hx); [lia|].
    intros j y Hj Hy. specialize (Hlt j y Hj Hy). lia. }
  eapply wp_mono; [apply (fork_spec _ me i p (marked q) k d l tabs us refs c ip)|].
  - rewrite Em. split; try done; cbn.
    + by rewrite list_lookup_insert_ne.
    + apply (find_proc_first _ _ i (set_p_killed true q)); [by apply list_lookup_insert_eq|done|].
      intros j y Hj Hy. rewrite list_lookup_insert_ne in Hy by lia. by apply (Hfst j).
    + by apply list_lookup_insert_eq.
    + by apply (uvm_ok_frame s).
  - intros r s' (-> & s2 & l2 & ct & cu & t & _ & -> & _). split; [done|].
    eexists. split; [cbn; apply list_lookup_insert_eq; by rewrite length_insert|].
    split; [done|]. rewrite Em. done.
Qed.

(** ** thread_join *)

(** A step of the rest of the system that does not release the join lock. *)
Definition keeps_lock (f : kstate -> kstate) : Prop := forall s, thread_lock s = 0 -> thread_lock (f s) = 0.

Lemma lock_spin_stuck n : forall s e, thread_lock s = 0 -> Forall keeps_lock e ->
  forall s' e', lock_spin n s e <> Ok tt s' e'.
Proof.
  induction n as [|n IH]; intros s e Hs He s' e'; cbn [lock_spin]; unfold bind, gets, modify; rewrite Hs; cbn;
    (destruct e as [|f e]; cbn; [done|]); [done|].
  apply list.Forall_cons in He as [Hf He]. apply IH; [by apply Hf|done].
Qed.

Lemma thread_join_stuck tid retval s e :
  thread_lock s = 0 -> Forall keeps_lock e -> forall r s' e', thread_join tid retval s e <> Ok r s' e'.
Proof.
  intros Hs He r s' e' H. unfold thread_join, lock_acquire in H. rewrite bind_assoc in H.
  unfold bind at 1, pending in H. unfold bind at 1 in H.
  destruct (lock_spin (length e) s e) as [[] s1 e1| | | |] eqn:E; try done.
  by apply (lock_spin_stuck _ _ _ Hs He) in E.
Qed.

(** A thread_join for a thread that does not exist fails without releasing
    the join lock; from then on no thread_join of any process returns, unless
    someone else writes the lock. *)
Theorem thread_join_leaks s me p tid retval :
  held s = [] -> curproc s = Some me -> ptable s !! me = Some p -> thread_lock s = 1 ->
  Forall (fun q => thread_child me tid q = false) (ptable s) ->
  wp (thread_join tid retval) s (fun r s' => r = -1 /\ s' = set_thread_lock 0 s /\
    forall tid' retval' e r' s'' e', Forall keeps_lock e -> thread_join tid' retval' s' e <> Ok r' s'' e').
Proof.
  intros Hh Hc Hp Hl Hf. eapply runs_wp.
  2: { split; [reflexivity|]. split; [reflexivity|]. intros tid' rv' e r' s'' e' He. by apply thread_join_stuck. }
  unfold thread_join. eapply (runs_bind _ _ _ tt).
  { unfold lock_acquire. apply pending_bind. intros [|n] e; cbn [lock_spin]; unfold bind, gets, modify, ret;
      rewrite Hl; done. }
  assert (existsb (thread_child me tid) (ptable s) = false) as E1.
  { apply not_true_is_false. rewrite existsb_exists. intros (x & Hx%list_elem_of_In & Hm).
    rewrite list.Forall_forall in Hf. by rewrite (Hf x Hx) in Hm. }
  assert (find_proc (fun q => thread_child me tid q && in_state ZOMBIE q) (ptable s) 0 = None) as E2.
  { apply find_proc_none. eapply list.Forall_impl; [exact Hf|]. cbn. intros x ->. done. }
  eapply (runs_bind _ _ _ (-1)); [|by intros e].
  unfold wait_thread. eapply runs_bind; [by apply (curproc_idx_runs me)|].
  eapply runs_bind; [apply acquire_runs; cbn; rewrite Hh; nolock|]. cbn [held set_thread_lock]. rewrite Hh.
  apply pending_bind. intros [|n]; cbn [wait_thread_loop]; (eapply (runs_bind _ _ _ (ptable s)); [by intros e|]);
    rewrite E2; (eapply runs_bind; [by apply (proc_at_runs me p)|]); rewrite E1; cbn [negb orb];
    (eapply runs_bind; [apply (release_runs _ _ []); [done|nolock]|]); intros e; unfold ret;
    destruct s; cbn in *; by subst.
Qed.

(** A user address the program may write. *)
Definition user_writable (m : gmap Z Z) (d va : Z) : Prop :=
  exists pa fl, mmu m d va = Some (pa, fl) /\ has fl PTE_W = true /\ has fl PTE_U = true.

Lemma has_land7 fl f : Z.land 7 f = f -> has (Z.land 7 fl) f = has fl f.
Proof.
  intros E. unfold has. assert (Z.land (Z.land 7 fl) f = Z.land fl f) as ->; [|done].
  by rewrite <- Z.land_assoc, (Z.land_comm fl f), Z.land_assoc, E.
Qed.

Lemma user_writable_page s l d tabs us va :
  uvm_ok s l d tabs us -> 0 <= va < KERNBASE -> user_writable (mem s) d va ->
  exists p fl, us !! (va / 4096) = Some p /\ page p /\ pt (mem s) tabs (va / 4096) = v2p p + fl /\
    0 <= fl < 4096 /\ has fl PTE_P = true /\ has fl PTE_W = true /\ has fl PTE_U = true.
Proof.
  intros U Hva (pa & f & Hm & HW & HU). unfold KERNBASE in Hva.
  destruct (us !! (va / 4096)) as [p|] eqn:E.
  - destruct (uk_frame _ _ _ _ _ U _ _ E) as (_ & Hp & fl & Hf & Hh & Hpt). exists p, fl.
    destruct (user_byte_page s l d tabs us va p fl) as [Hu _]; try done; [lia|]. rewrite Hu in Hm.
    injection Hm as _ <-. rewrite has_land7 in HW, HU by done. done.
  - rewrite (mmu_none s l d tabs) in Hm; [done|apply U|lia|].
    apply U; [|done]. split; [apply Z.div_pos; lia|apply Z.div_lt_upper_bound; lia].
Qed.

Lemma user_put_runs s l me p tabs us va b x fl :
  curproc s = Some me -> ptable s !! me = Some p -> uvm_ok s l (p_pgdir p) tabs us -> 0 <= va < KERNBASE ->
  us !! (va / 4096) = Some x -> pt (mem s) tabs (va / 4096) = v2p x + fl -> 0 <= fl < 4096 ->
  has fl PTE_P = true -> has fl PTE_W = true ->
  runs (user_put va b) s tt (set_mem (set_bytes (mem s) (x + va mod 4096) [b]) s).
Proof.
  intros Hc Hp U Hva Hx Hpt Hf HP HW. unfold KERNBASE in Hva. unfold user_put.
  destruct (user_table _ _ _ _ _ _ _ U Hx) as (t & fl' & Ht & _ & _ & Hw & Hpt').
  assert (fl' = fl) as -> by lia. destruct (vk_tab _ _ _ _ (uk_vm _ _ _ _ _ U) _ _ Ht) as [_ Htp].
  destruct (uk_frame _ _ _ _ _ U _ _ Hx) as (_ & Hxp & _). destruct (page_v2p x Hxp) as (_ & Hm & Hv & _).
  pose proof (Z.mod_pos_bound (va / 4096) 1024 ltac:(lia)). pose proof (page_pos t Htp).
  eapply runs_bind; [by apply (myproc_runs me p)|].
  eapply runs_bind; [apply (walk_present s l _ tabs va false t); [apply U|lia|done]|].
  rewrite (proj2 (Z.eqb_neq _ 0)) by lia. eapply (runs_bind _ _ _ (v2p x + fl)).
  { intros e. unfold load, gets. by rewrite Hw. }
  rewrite !entry_has, HP, HW, entry_addr, Hv by done. by intros e.
Qed.

Lemma mmu_store s l d tabs us n p m' va :
  uvm_ok s l d tabs us -> us !! n = Some p -> same_outside [p] (mem s) m' -> 0 <= va < 2 ^ 32 ->
  mmu m' d va = mmu (mem s) d va.
Proof.
  intros U Hn Hs Hva. destruct (store_user s l d tabs us n p m' U Hn Hs) as [U' Hpt].
  rewrite (mmu_pt s l d tabs) by (done || apply U).
  pose proof (mmu_pt _ l d tabs va (uk_vm _ _ _ _ _ U') Hva) as E. cbn [mem set_mem] in E. by rewrite E, Hpt.
Qed.

Lemma user_puts_spec me p l tabs us bs : forall s va,
  curproc s = Some me -> ptable s !! me = Some p -> uvm_ok s l (p_pgdir p) tabs us -> 0 <= va ->
  va + Z.of_nat (length bs) <= KERNBASE ->
  (forall a, va <= a < va + Z.of_nat (length bs) -> user_writable (mem s) (p_pgdir p) a) ->
  wp (user_puts va bs) s (fun _ s' => uvm_ok s' l (p_pgdir p) tabs us /\ s' = set_mem (mem s') s /\
    forall a, 0 <= a < KERNBASE -> user_byte (mem s') (p_pgdir p) a =
      match written va bs a with Some b => Some b | None => user_byte (mem s) (p_pgdir p) a end).
Proof.
  induction bs as [|b bs IH]; intros s va Hc Hp U Hva Hend Hw; cbn [user_puts length] in *.
  - apply wp_ret. split; [done|]. split; [by destruct s|]. intros a Ha. unfold written. by case_decide.
  - unfold KERNBASE in Hend. assert (0 <= va < KERNBASE) as Hvk by (unfold KERNBASE; lia).
    destruct (user_writable_page s l _ tabs us va U) as (x & fl & Hx & Hxp & Hpt & Hf & HP & HW & HU);
      [done|apply Hw; lia|].
    eapply wp_bind_runs; [by apply (user_put_runs s l me p tabs us va b x fl)|].
    pose proof (Z.mod_pos_bound va 4096 ltac:(lia)) as Hm.
    assert (same_outside [x] (mem s) (set_bytes (mem s) (x + va mod 4096) [b])) as Hs.
    { apply set_bytes_same; [done|lia|cbn; lia]. }
    destruct (store_user s l _ tabs us _ x _ U Hx Hs) as [U1 _].
    rewrite u32_small by lia.
    eapply wp_mono; [apply (IH (set_mem _ s) (va + 1)); try done; try (unfold KERNBASE; lia)|].
    + intros a Ha. destruct (Hw a) as (pa & f & E & H1); [lia|]. exists pa, f. split; [|done].
      cbn [mem set_mem]. rewrite (mmu_store s l _ tabs us _ x) by (done || lia). done.
    + intros [] s' (U' & F & H). split; [done|]. split; [rewrite F; by destruct s|]. intros a Ha.
      rewrite H by done. cbn [mem set_mem].
      rewrite (store_user_byte s l _ tabs us (va / 4096) x fl (va mod 4096) [b] a) by (done || cbn; lia).
      pose proof (Z.div_mod va 4096 ltac:(lia)). replace (va / 4096 * 4096 + va mod 4096) with va by lia.
      rewrite !written_cons. unfold written. repeat case_decide; try done; try lia.
Qed.

(** The entry of a thread that has been joined. *)
Definition joined (q : proc) : proc :=
  set_p_exit_status 0 (set_p_is_thread 0 (set_p_killed false (clear_name
    (set_p_parent None (set_p_pid 0 (set_p_state UNUSED (set_p_kstack 0 q))))))).

Definition one_less (p : proc) : proc := set_p_numOfThread (p_numOfThread p - 1) p.

Lemma reap_thread_spec s l me i p q tabs us retval :
  held s = [PtableLock] -> curproc s = Some me -> ptable s !! me = Some p -> ptable s !! i = Some q -> i <> me ->
  uvm_ok s l (p_pgdir p) tabs us -> page (p_kstack q) ->
  p_kstack q ∉ p_pgdir p :: values tabs ++ values us ++ l ->
  0 <= retval -> retval + 4 <= KERNBASE ->
  (forall a, retval <= a < retval + 4 -> user_writable (mem s) (p_pgdir p) a) ->
  wp (reap_thread me i retval) s (fun r s' => r = p_tid q /\
    s' = set_mem (mem s') (set_kmem (kmem s') (set_ptable (<[i := joined q]> (<[me := one_less p]> (ptable s)))
      (set_held [] s))) /\
    kmem_rep s' (p_kstack q :: l) /\
    forall a, 0 <= a < KERNBASE -> user_byte (mem s') (p_pgdir p) a =
      match written retval (le_bytes 4 (p_exit_status q)) a with
      | Some b => Some b | None => user_byte (mem s) (p_pgdir p) a end).
Proof.
  intros Hh Hc Hp Hq Hne U Hk Ha Hr He Hw. apply lookup_lt_Some in Hq as Hil. apply lookup_lt_Some in Hp as Hml.
  assert (forall x, x ∈ [p_kstack q] -> page x) as Hpg by (by intros x ->%list_elem_of_singleton).
  assert (forall x, x ∈ [p_kstack q] -> x ∉ p_pgdir p :: values tabs ++ values us) as Hap.
  { intros x ->%list_elem_of_singleton. rewrite elem_of_cons, !elem_of_app in *. tauto. }
  unfold reap_thread. eapply wp_bind_runs; [by apply (upd_proc_runs me p)|]. fold (one_less p).
  set (s1 := set_ptable _ s). assert (uvm_ok s1 l (p_pgdir p) tabs us) as U1 by (by apply (uvm_ok_frame s)).
  eapply wp_bind_runs; [apply (proc_at_runs i q); cbn; by rewrite list_lookup_insert_ne|].
  destruct (kfree_space s1 l _ tabs us (p_kstack q) U1 Hk Ha) as (s2 & R2 & U2 & F2 & Hs2).
  eapply wp_bind_runs; [exact R2|]. clear R2.
  assert (ptable s2 = ptable s1) as Et by (by rewrite F2). assert (curproc s2 = Some me) as Hc2 by (by rewrite F2).
  assert (held s2 = [PtableLock]) as Hh2 by (by rewrite F2).
  eapply wp_bind_runs; [apply (upd_proc_runs i q); rewrite Et; cbn; by rewrite list_lookup_insert_ne|].
  rewrite Et. set (s3 := set_ptable _ s2).
  assert (uvm_ok s3 (p_kstack q :: l) (p_pgdir (one_less p)) tabs us) as U3 by (by apply (uvm_ok_frame s2)).
  assert (ptable s3 = <[i := set_p_exit_status (p_exit_status q) (joined q)]> (ptable s1)) as Ht3 by (by destruct q).
  assert (s3 = set_mem (mem s3) (set_kmem (kmem s3) (set_ptable (ptable s3) s))) as E3.
  { unfold s3, vm_frame in *. revert F2. cbn [mem kmem ptable set_ptable].
    generalize (mem s2), (kmem s2). intros m2 k2 ->. by destruct s. }
  assert (same_outside [p_kstack q] (mem s) (mem s3)) as Hs3 by done.
  assert (curproc s3 = Some me) as Hc3 by done. assert (held s3 = [PtableLock]) as Hh3 by done.
  clearbody s3. clear Hs2 F2 U2 Hc2 Hh2 Et s2.
  apply wp_bind. eapply wp_mono;
    [apply (user_puts_spec me (one_less p) (p_kstack q :: l) tabs us (le_bytes 4 (p_exit_status q)) s3 retval); try done|].
  { rewrite Ht3, list_lookup_insert_ne by done. by apply list_lookup_insert_eq. }
  { intros a Har. change (Z.of_nat (length _)) with 4 in Har. destruct (Hw a Har) as (pa & f & E & H1).
    exists pa, f. split; [|done]. unfold KERNBASE in He.
    rewrite (mmu_apart s l (p_pgdir p) tabs us [p_kstack q]); [done|done|done|done|done|lia]. }
  intros [] s4 (U4 & F4 & H4).
  eapply wp_bind_runs; [eapply (upd_proc_runs i); rewrite F4; cbn; rewrite Ht3; apply list_lookup_insert_eq;
    cbn; by rewrite length_insert|].
  apply wp_bind. apply (wp_release _ _ []); [by rewrite F4|nolock|]. apply wp_ret. split; [done|].
  pose proof (vk_free _ _ _ _ (uk_vm _ _ _ _ _ U4)) as K4. split; [|split; [by destruct K4; split|]].
  - cbn. rewrite F4. cbn. rewrite Ht3, list_insert_insert_eq. rewrite E3. cbn.
    replace (set_p_exit_status 0 _) with (joined q) by done. by destruct s.
  - intros a Har. cbn [mem set_ptable set_held]. rewrite H4 by done.
    destruct (written _ _ _); [done|]. by apply (user_byte_apart s l _ tabs us [p_kstack q]).
Qed.

Definition zombie_thread (me : nat) (tid : Z) (p : proc) : bool := thread_child me tid p && in_state ZOMBIE p.

(** Thread_join for a thread that has exited returns 0 with the join lock
    released; the thread's result is in the caller's memory at [retval], its
    kernel stack is free, its table entry too, and the caller has one thread
    less. *)
Theorem thread_join_returns s l me i p q tabs us tid retval :
  held s = [] -> curproc s = Some me -> ptable s !! me = Some p -> p_parent p <> Some me -> thread_lock s = 1 ->
  find_proc (zombie_thread me tid) (ptable s) 0 = Some i -> ptable s !! i = Some q -> 0 <= p_tid q ->
  uvm_ok s l (p_pgdir p) tabs us -> page (p_kstack q) ->
  p_kstack q ∉ p_pgdir p :: values tabs ++ values us ++ l ->
  0 <= retval -> retval + 4 <= KERNBASE ->
  (forall a, retval <= a < retval + 4 -> user_writable (mem s) (p_pgdir p) a) ->
  wp (thread_join tid retval) s (fun r s' => r = 0 /\ thread_lock s' = 1 /\ held s' = [] /\
    ptable s' = <[i := joined q]> (<[me := one_less p]> (ptable s)) /\ kmem_rep s' (p_kstack q :: l) /\
    forall a, 0 <= a < KERNBASE -> user_byte (mem s') (p_pgdir p) a =
      match written retval (le_bytes 4 (p_exit_status q)) a with
      | Some b => Some b | None => user_byte (mem s) (p_pgdir p) a end).
Proof.
  intros Hh Hc Hp Hpar Hl Hf Hq Ht U Hk Ha Hr He Hw. set (s1 := set_held [PtableLock] (set_thread_lock 0 s)).
  assert (i <> me) as Hne.
  { intros ->. destruct (find_proc_some _ _ _ _ Hf) as (k & x & E & Hx & Hz & _). cbn in E. subst k.
    simplify_eq. unfold zombie_thread, thread_child, child_of in Hz. by rewrite bool_decide_eq_false_2 in Hz. }
  assert (uvm_ok s1 l (p_pgdir p) tabs us) as U1.
  { pose proof U as [[[K K'] L P T E D] F N D']. split; [split; [by split|nolock|done..]|done..]. }
  destruct (reap_thread_spec s1 l me i p q tabs us retval) as (r & s' & R & -> & E & K & H); try done.
  eapply runs_wp; [unfold thread_join; eapply (runs_bind _ _ _ tt)|].
  - unfold lock_acquire. apply pending_bind. intros [|n] e; cbn [lock_spin]; unfold bind, gets, modify, ret;
      rewrite Hl; done.
  - eapply (runs_bind _ _ _ (p_tid q) s').
    + unfold wait_thread. eapply runs_bind; [by apply (curproc_idx_runs me)|].
      eapply runs_bind; [apply acquire_runs; cbn; rewrite Hh; nolock|]. cbn [held set_thread_lock]. rewrite Hh.
      fold s1. apply pending_bind.
      intros [|n]; cbn [wait_thread_loop]; (eapply (runs_bind _ _ _ (ptable s)); [by intros e|]);
        change (fun p => thread_child me tid p && in_state ZOMBIE p) with (zombie_thread me tid); by rewrite Hf.
    + rewrite (proj2 (Z.ltb_ge _ _)) by lia. eapply (runs_bind _ _ _ tt); [by intros e|]. by intros e.
  - cbn. split; [done|]. split; [done|]. split; [by rewrite E|]. split; [by rewrite E|].
    split; [by destruct K; split|done].
Qed.

(** ** exit *)

(** [p'] is [p], possibly woken. *)
Definition woken (p p' : proc) : Prop :=
  p' = p \/ (p_state p = SLEEPING /\ p' = set_p_state RUNNABLE p).

(** What the exit of process [me], with directory [dir], does to entry [p]:
    a process it created goes to init, a thread of it ends with no parent. *)
Definition orphaned (me : nat) (dir : Z) (ini : option nat) (p p' : proc) : Prop :=
  if child_of me p then
    if p_pgdir p =? dir then p' = set_p_state ZOMBIE (set_p_parent None p)
    else woken (set_p_parent ini p) p'
  else woken p p'.

Lemma wakeup1_lookup ch t j p :
  t !! j = Some p -> exists p', wakeup1 ch t !! j = Some p' /\ woken p p' /\
    (p_state p = SLEEPING -> p_chan p = ch -> p' = set_p_state RUNNABLE p).
Proof.
  intros Hj. unfold wakeup1. rewrite list_lookup_fmap, Hj. eexists. split; [reflexivity|].
  unfold woken. destruct (p_state p) eqn:E; (split; [|done || intros _ ?]); cbn;
    repeat case_bool_decide; naive_solver.
Qed.

Lemma woken_trans p p1 p2 : woken p p1 -> woken p1 p2 -> woken p p2.
Proof.
  intros [->|[H ->]] [->|[H' ->]]; [by left|by right| |].
  - right. done.
  - done.
Qed.

(** A wake-up keeps everything but the state. *)
Lemma woken_same p p' : woken p p' -> p_parent p' = p_parent p /\ p_pgdir p' = p_pgdir p /\
  (p_state p = ZOMBIE <-> p_state p' = ZOMBIE) /\ forall st, set_p_state st p' = set_p_state st p.
Proof. intros [->|[H ->]]; [done|]. cbn. by rewrite H. Qed.

Lemma woken_parent ini p p' : woken p p' -> woken (set_p_parent ini p) (set_p_parent ini p').
Proof. intros [->|[H ->]]; [by left|by right]. Qed.

Definition sleeps_on (ch : option chan) (p : proc) : Prop := p_state p = SLEEPING /\ p_chan p = ch.

Lemma wakeup1_none ch t : Forall (fun p => ~ sleeps_on ch p) (wakeup1 ch t).
Proof.
  unfold wakeup1. apply Forall_fmap. apply list.Forall_true. intros p. cbn. unfold sleeps_on.
  case_bool_decide; [by intros []|done].
Qed.

Section Exit.
Context (s : kstate) (me : nat) (m : proc).
Hypotheses (Hm : ptable s !! me = Some m) (Hself : p_parent m <> Some me).

Definition adopts_zombie (n : nat) : Prop :=
  exists j p, (j < n)%nat /\ ptable s !! j = Some p /\ p_parent p = Some me /\
    p_pgdir p <> p_pgdir m /\ p_state p = ZOMBIE.

(** After the first [n] passes. *)
Definition exit_passes (n : nat) (s1 : kstate) : Prop :=
  exists t, s1 = set_ptable t s /\ length t = length (ptable s) /\
    (forall j p, ptable s !! j = Some p -> exists p', t !! j = Some p' /\
      if decide (j < n)%nat then orphaned me (p_pgdir m) (initproc s) p p' else woken p p') /\
    (adopts_zombie n -> Forall (fun p => ~ sleeps_on (ChProc <$> initproc s) p) t).

Lemma child_of_woken p p' : woken p p' -> child_of me p' = child_of me p.
Proof. intros H. unfold child_of. by destruct (woken_same _ _ H) as (-> & _). Qed.

Lemma adopts_zombie_S n p :
  ptable s !! n = Some p -> ~ (p_parent p = Some me /\ p_pgdir p <> p_pgdir m /\ p_state p = ZOMBIE) ->
  adopts_zombie (S n) -> adopts_zombie n.
Proof.
  intros Hp Hn (j & q & Hj & Hq & H). exists j, q. destruct (decide (j = n)) as [->|]; [|split; [lia|done]].
  rewrite Hp in Hq. injection Hq as <-. tauto.
Qed.

(** Changing entry [n] of the table as its pass does. *)
Lemma exit_passes_insert n (t : list proc) p x x' :
  (forall j p, ptable s !! j = Some p -> exists p', t !! j = Some p' /\
      if decide (j < n)%nat then orphaned me (p_pgdir m) (initproc s) p p' else woken p p') ->
  ptable s !! n = Some p -> t !! n = Some x -> orphaned me (p_pgdir m) (initproc s) p x' ->
  forall j p, ptable s !! j = Some p -> exists p', <[n := x']> t !! j = Some p' /\
      if decide (j < S n)%nat then orphaned me (p_pgdir m) (initproc s) p p' else woken p p'.
Proof.
  intros Ht Hp Hx Ho j q Hq. destruct (decide (j = n)) as [->|Hne].
  - rewrite Hp in Hq. injection Hq as <-. exists x'. rewrite decide_True by lia. split; [|done].
    apply list_lookup_insert_eq. by eapply lookup_lt_Some.
  - destruct (Ht j q Hq) as (p' & Hp' & H). exists p'. rewrite list_lookup_insert_ne by done. split; [done|].
    repeat case_decide; (done || lia).
Qed.

Lemma orphaned_woken p x x' : orphaned me (p_pgdir m) (initproc s) p x -> woken x x' ->
  orphaned me (p_pgdir m) (initproc s) p x'.
Proof.
  unfold orphaned. intros H W. destruct (child_of me p); [destruct (p_pgdir p =? p_pgdir m)|];
    [|by eapply woken_trans..]. subst x. destruct W as [->|[H ->]]; [done|]. done.
Qed.

Lemma exit_pass n s1 :
  (n < length (ptable s))%nat -> exit_passes n s1 ->
  wp (exit_child_one me n) s1 (fun _ s2 => exit_passes (S n) s2).
Proof.
  intros Hn (t & -> & Hl & Ht & Hz). destruct (lookup_lt_is_Some_2 _ _ Hn) as [p Hp].
  destruct (Ht n p Hp) as (x & Hx & Wx). rewrite decide_False in Wx by lia.
  destruct (Ht me m Hm) as (m' & Hm' & Wm).
  assert (woken m m') as Wm'.
  { case_decide; [|done]. unfold orphaned, child_of in Wm. by rewrite bool_decide_eq_false_2 in Wm. }
  destruct (woken_same _ _ Wm') as (_ & Edir & _). destruct (woken_same _ _ Wx) as (_ & Ex & Ez & Es).
  unfold exit_child_one. eapply wp_bind_runs; [by apply proc_at_runs|].
  eapply wp_bind_runs; [by apply proc_at_runs|]. rewrite (child_of_woken _ _ Wx), Ex, Edir.
  destruct (child_of me p) eqn:Ec; cbn [when].
  2: { apply wp_ret. exists t. split; [done|]. split; [done|]. split.
       - rewrite <- (list_insert_id t n x Hx). apply (exit_passes_insert n t p x); try done.
         unfold orphaned. by rewrite Ec.
       - intros A. apply Hz. apply (adopts_zombie_S n p Hp); [|done]. intros [H _].
         unfold child_of in Ec. by rewrite bool_decide_eq_true_2 in Ec. }
  destruct (Z.eqb_spec (p_pgdir p) (p_pgdir m)) as [Ed|Ed]; cbn [negb].
  - eapply runs_wp; [by apply (upd_proc_runs n x)|]. exists (<[n := set_p_state ZOMBIE (set_p_parent None x)]> t).
    split; [done|]. split; [by rewrite length_insert|]. split.
    + apply (exit_passes_insert n t p x); try done. unfold orphaned. rewrite Ec, (proj2 (Z.eqb_eq _ _) Ed).
      by destruct (woken_same _ _ (woken_parent None _ _ Wx)) as (_ & _ & _ & ->).
    + intros A. apply Forall_insert; [apply Hz|by intros []]. apply (adopts_zombie_S n p Hp); [|done]. tauto.
  - assert (orphaned me (p_pgdir m) (initproc s) p (set_p_parent (initproc s) x)) as Ho.
    { unfold orphaned. rewrite Ec, (proj2 (Z.eqb_neq _ _) Ed). by apply woken_parent. }
    apply wp_bind, wp_gets. cbn [initproc set_ptable].
    eapply wp_bind_runs; [by apply (upd_proc_runs n x)|]. cbn [ptable set_ptable].
    pose proof (exit_passes_insert n t p x _ Ht Hp Hx Ho) as Ht'.
    unfold in_state. case_bool_decide as Hst; cbn [when].
    + apply wp_modify. exists (wakeup1 (ChProc <$> initproc s) (<[n := set_p_parent (initproc s) x]> t)).
      split; [done|]. rewrite wakeup1_length, length_insert. split; [done|].
      split; [|intros _; apply wakeup1_none]. intros j q Hq. destruct (Ht' j q Hq) as (p' & Hp' & H).
      destruct (wakeup1_lookup (ChProc <$> initproc s) _ _ _ Hp') as (p'' & Hp'' & W & _). exists p''.
      split; [done|]. case_decide; [by eapply orphaned_woken|by eapply woken_trans].
    + apply wp_ret. exists (<[n := set_p_parent (initproc s) x]> t). split; [done|]. split; [by rewrite length_insert|]. split; [done|].
      intros A. assert (adopts_zombie n) as A'.
      { apply (adopts_zombie_S n p Hp); [|done]. intros (_ & _ & H). by apply Hst, Ez. }
      specialize (Hz A'). apply Forall_insert; [done|]. intros H.
      rewrite list.Forall_lookup in Hz. by apply (Hz n x Hx).
Qed.
End Exit.

(** When a process exits, no table entry is left with it as parent: the
    processes it created go to init, its threads end as zombies without a
    parent, every other entry is only possibly woken; and when one of the
    children passed to init has already exited, no process sleeps on init's
    channel any more, so a waiting init runs. *)
Theorem exit_orphans s me m :
  length (ptable s) = NPROC -> ptable s !! me = Some m -> p_parent m <> Some me -> initproc s <> Some me ->
  wp (mfor NPROC 0 (exit_child_one me)) s (fun _ s' => s' = set_ptable (ptable s') s /\
    (forall j p, ptable s !! j = Some p -> exists p', ptable s' !! j = Some p' /\
      orphaned me (p_pgdir m) (initproc s) p p' /\ p_parent p' <> Some me) /\
    (adopts_zombie s me m NPROC -> Forall (fun p => ~ sleeps_on (ChProc <$> initproc s) p) (ptable s'))).
Proof.
  intros Hlen Hm Hself Hini. apply (wp_mfor (exit_passes s me m)).
  - exists (ptable s). split; [by destruct s|]. split; [done|]. split.
    + intros j p Hp. exists p. split; [done|]. rewrite decide_False by lia. by left.
    + intros (j & p & Hj & _). lia.
  - intros n s1 Hn H. apply (exit_pass s me m Hm Hself); [lia|done].
  - intros s1 (t & -> & Hl & Ht & Hz). split; [done|]. split; [|done]. intros j p Hp.
    destruct (Ht j p Hp) as (p' & Hp' & H). exists p'. apply lookup_lt_Some in Hp as Hj.
    rewrite decide_True in H by lia. split; [done|]. split; [done|]. unfold orphaned, child_of in H.
    case_bool_decide; [destruct (p_pgdir p =? p_pgdir m); [by rewrite H|]|];
      destruct (woken_same _ _ H) as (-> & _); done.
Qed.
End Lifecycle.

(** ** Examples *)

(** A running process of 5000 bytes with one open file. *)
Definition caller (d : Z) : proc :=
  mkProc 5000 d 0 RUNNING 1 None zero_tf None false (Some 0%nat :: replicate 15 None) (Some 0%nat)
    (replicate 16 0) 0 0 0 0.

Definition one_file : list file :=
  <[0%nat := mkFile FD_INODE 1 true true 0 0 0]> (replicate NFILE (mkFile FD_NONE 0 false false 0 0 0)).

Definition one_ref (f : nat) : nat := if decide (f = 0%nat) then 1 else 0.

(** The state in which the process makes its call. *)
Definition start (d : Z) (t : list proc) (s : kstate) : kstate :=
  set_ptable (caller d :: t) (set_curproc (Some 0%nat) (set_ftable one_file s)).

Lemma one_file_ok : ftable_ok one_file one_ref.
Proof.
  intros f ff Hf. unfold one_file, one_ref in *. destruct (decide (f = 0%nat)) as [->|Hne].
  - by injection Hf as <-.
  - rewrite list_lookup_insert_ne in Hf by done. apply lookup_replicate in Hf as [-> _]. done.
Qed.

Lemma start_can_fork d s q k l tabs us t :
  uvm_ok (Lay := small_layout) s (k :: q :: l) d tabs us -> contiguous us 2 -> (75 <= length l)%nat ->
  vm_frame (pages_state 150) s ->
  can_fork (Lay := small_layout) (start d (zero_proc :: t) s) 0 1 (caller d) zero_proc k q l tabs us one_ref 0
    (mkInode 0 0 0 false false 0 0 0 0 0 (replicate 13 0)).
Proof.
  intros U C Hl F. split.
  - by rewrite F.
  - done.
  - done.
  - done.
  - done.
  - done.
  - by apply (uvm_ok_frame (Lay := small_layout) s).
  - intros j Hj. by apply in_two.
  - by vm_compute.
  - change (npages (p_sz (caller d))) with 2. lia.
  - done.
  - apply one_file_ok.
  - intros f Hf. apply elem_of_cons in Hf as [[= ->]|Hf]; [by vm_compute; split; lia|].
    apply elem_of_replicate in Hf as [H _]. done.
  - done.
  - by rewrite F.
Qed.

Lemma fork_copies_witness :
  wp (let! d := new_space in do modify (start d [zero_proc]); fork (Lay := small_layout)) (pages_state 150)
    (fun r s' => r = 1 /\ (forall f, ftable s' !! 0%nat = Some f -> f_ref f = 2) /\
      exists c, ptable s' !! 1%nat = Some c /\ p_state c = RUNNABLE /\
      p_ofile c !! 0%nat = Some (Some 0%nat) /\ user_byte (mem s') (p_pgdir c) 4999 = Some 0).
Proof.
  apply wp_bind. eapply wp_mono; [apply new_space_ok|]. intros d s (k & l & tabs & us & U & C & Hl & F & Z & _).
  destruct l as [|q l]; [cbn in Hl; lia|]. cbn [length] in Hl. apply wp_bind, wp_modify.
  eapply wp_mono; [eapply (fork_copies (Lay := small_layout)),
    (start_can_fork d s q k l tabs us []); [done|done|lia|done]|].
  intros r s' (-> & _ & _ & Ht & Hf & _ & Hb & _). split; [cbn; by rewrite F|].
  split; [intros f E; by rewrite (Hf 0%nat f E)|]. rewrite Ht. eexists. split; [reflexivity|]. split; [done|].
  split; [done|]. cbn [p_pgdir forked]. rewrite Hb by (by vm_compute). by apply Z.
Defined.

Lemma kill_free_entry_witness :
  wp (let! d := new_space in do modify (start d [zero_proc]); do kill 0; fork (Lay := small_layout)) (pages_state 150)
    (fun r s' => exists x, ptable s' !! 1%nat = Some x /\ p_killed x = true).
Proof.
  apply wp_bind. eapply wp_mono; [apply new_space_ok|]. intros d s (k & l & tabs & us & U & C & Hl & F & Z & _).
  destruct l as [|q l]; [cbn in Hl; lia|]. cbn [length] in Hl. apply wp_bind, wp_modify.
  eapply wp_mono; [eapply (kill_free_entry (Lay := small_layout))|].
  - apply (start_can_fork d s q k l tabs us []); [done|done|lia|done].
  - done.
  - intros [|j] x Hj Hx; [by injection Hx as <-|lia].
  - intros r s' (_ & x & Hx & _ & Hk). by exists x.
Defined.

(** A child of process 0 that has exited. *)
Definition dead (d k thread : Z) : proc :=
  mkProc 5000 d k ZOMBIE 2 (Some 0%nat) zero_tf None false (replicate 16 None) None (replicate 16 0) 77 thread 1 0.

Lemma wait_reaps_witness :
  wp (let! d := new_space in let! k := kalloc in do modify (start 0 [dead d k 0]);
      wait (Lay := small_layout)) (pages_state 150)
    (fun r s' => r = 2 /\ exists l, kmem_rep (Lay := small_layout) s' l /\ (78 <= length l)%nat).
Proof.
  apply wp_bind. eapply wp_mono; [apply new_space_ok|]. intros d s (k & l & tabs & us & U & C & Hl & F & Z & _).
  destruct (take_page (Lay := small_layout) s l d tabs us k (mem s) U) as (U' & Hk & H1 & H2 & H3 & H4 & R & _); [done|].
  eapply wp_bind_runs; [exact R|]. apply wp_bind, wp_modify.
  eapply wp_mono; [eapply (wait_reaps (Lay := small_layout) _ l 0 1 (dead d k 0) tabs us 2)|].
  - cbn. by rewrite F.
  - done.
  - done.
  - done.
  - split; [by apply (uvm_ok_frame (Lay := small_layout) _ _ _ _ _ _ U')|done|lia|done|].
    cbn [p_kstack p_pgdir dead]. rewrite elem_of_cons, !elem_of_app. tauto.
  - intros r s' (-> & l' & P & K & _). split; [done|]. exists l'. split; [done|]. rewrite P. cbn.
    rewrite !length_app. lia.
Defined.

Lemma wait_no_child_witness :
  wp (wait (Lay := small_layout)) (reset_state ∅ 0 [zero_proc] 0) (fun r s' => r = -1).
Proof.
  eapply wp_mono; [apply (wait_no_child (Lay := small_layout) _ 0 zero_proc); [done..|by repeat constructor]|].
  by intros r s' [-> _].
Defined.

Lemma kill_marks_witness :
  wp (kill 2) (reset_state ∅ 0 [caller 0; set_p_state SLEEPING (dead 0 0 0)] 0) (fun r s' =>
    r = 0 -> exists p, ptable s' !! 1%nat = Some p /\ p_killed p = true /\ p_state p = RUNNABLE).
Proof.
  eapply wp_mono; [by apply kill_marks|].
  intros r s' [(-> & i & p & Hp & Hpid & _ & ->)|(-> & _)]; [|done]. intros _.
  destruct i as [|[|i]]; try done; injection Hp as <-; [done|]. eexists. split; [reflexivity|]. done.
Defined.

Lemma thread_join_leaks_witness :
  wp (thread_join (Lay := small_layout) 5 0) (reset_state ∅ 0 [zero_proc] 0) (fun r s' =>
    r = -1 /\ thread_lock s' = 0).
Proof.
  eapply wp_mono; [apply (thread_join_leaks (Lay := small_layout) _ 0 zero_proc); [done..|by repeat constructor]|].
  by intros r s' (-> & -> & _).
Defined.

Lemma thread_join_returns_witness :
  wp (let! d := new_space in let! k := kalloc in do modify (start d [dead d k 1]);
      do thread_join (Lay := small_layout) 1 4094; ret d) (pages_state 150)
    (fun d s' => user_byte (mem s') d 4094 = Some 77 /\ user_byte (mem s') d 4098 = Some 0 /\ thread_lock s' = 1).
Proof.
  apply wp_bind. eapply wp_mono; [apply new_space_ok|]. intros d s (k & l & tabs & us & U & C & Hl & F & Z & W).
  destruct (take_page (Lay := small_layout) s l d tabs us k (mem s) U) as (U' & Hk & H1 & H2 & H3 & H4 & R & _); [done|].
  eapply wp_bind_runs; [exact R|]. apply wp_bind, wp_modify. apply wp_bind.
  eapply wp_mono; [apply (thread_join_returns (Lay := small_layout) _ l 0 1 (caller d) (dead d k 1) tabs us)|].
  - cbn. by rewrite F.
  - done.
  - done.
  - done.
  - cbn. by rewrite F.
  - done.
  - done.
  - cbn. lia.
  - by apply (uvm_ok_frame (Lay := small_layout) _ _ _ _ _ _ U').
  - done.
  - cbn [p_kstack p_pgdir dead caller]. rewrite elem_of_cons, !elem_of_app. tauto.
  - lia.
  - by vm_compute.
  - intros a Ha. destruct (W a) as [pa E]; [lia|]. by exists pa, 7.
  - intros r s' (_ & Hlk & _ & _ & _ & H). apply wp_ret. cbn [p_pgdir caller] in H.
    rewrite !H by (by vm_compute). split; [done|]. split; [|done]. by apply Z.
Defined.

Lemma exit_orphans_witness :
  let s := set_initproc (Some 2%nat) (reset_state ∅ 0
    (caller 7 :: dead 8 0 0 :: set_p_chan (Some (ChProc 2)) (set_p_state SLEEPING zero_proc) ::
     replicate 61 zero_proc) 0) in
  wp (mfor NPROC 0 (exit_child_one 0)) s (fun _ s' =>
    (exists p, ptable s' !! 1%nat = Some p /\ p_parent p = Some 2%nat) /\
    (exists p, ptable s' !! 2%nat = Some p /\ p_state p = RUNNABLE)).
Proof.
  intros s. eapply wp_mono; [apply (exit_orphans s 0 (caller 7)); by vm_compute|].
  intros r s' (_ & Ht & Hz). destruct (Ht 1%nat (dead 8 0 0) eq_refl) as (p & Hp & Ho & _).
  destruct (Ht 2%nat _ eq_refl) as (i & Hi & Hw & _). split.
  - exists p. split; [done|]. by destruct Ho as [->|[]].
  - exists i. split; [done|]. destruct Hw as [->|[_ ->]]; [|done].
    assert (Forall (fun p => ~ sleeps_on (ChProc <$> initproc s) p) (ptable s')) as Hf.
    { apply Hz. exists 1%nat, (dead 8 0 0). split; [unfold NPROC; lia|done]. }
    rewrite list.Forall_lookup in Hf. by destruct (Hf 2%nat _ Hi).
Defined.
