(* ===== verification/Exit.v ===== *)
(** * The end of a process

    What [exit] of proc.c does to a process that shares its files and its
    directory with others, and the round trip of a child: [fork], the child's
    turn of the processor up to the end of its [exit], and the [wait] of the
    parent, which sleeps in between. *)

From S2P Require Import Prelude Bytes Cstring Kstate Sync Kalloc Pipe Disk Bio Cache Log Commit Txn Fs Content File Vm Dir Directory Pagetable Uvm Space Proc Lifecycle.
Import Str.
Local Open Scope Z_scope.

(** ** Runs that end with the processor given up *)

(** Without a later turn, [m] started in [s] stays in [sched], in state [s']. *)
Definition blocks {A} (m : K A) (s s' : kstate) : Prop := m s [] = Blocked s'.

Lemma blocks_after {A B} (m : K A) (k : A -> K B) s a s1 s' :
  runs m s a s1 -> blocks (k a) s1 s' -> blocks (bind m k) s s'.
Proof. intros H Hk. unfold blocks, bind. by rewrite H. Qed.

Lemma blocks_before {A B} (m : K A) (k : A -> K B) s s' : blocks m s s' -> blocks (bind m k) s s'.
Proof. intros H. unfold blocks, bind. by rewrite H. Qed.

Lemma sched_enters s i p e :
  held s = [PtableLock] -> curproc s = Some i -> ptable s !! i = Some p -> p_state p <> RUNNING ->
  sched s e = swtch_from i s e.
Proof.
  intros Hh Hc Hp Hr. unfold sched. unfold bind at 1. rewrite holding_runs, bool_decide_eq_true_2 by (rewrite Hh; by left).
  cbn [negb]. unfold bind at 1, gets at 1. rewrite Hh. cbn [negb length Nat.eqb]. unfold bind at 1. rewrite (curproc_idx_runs i) by done. unfold bind at 1. rewrite (proc_at_runs i p) by done.
  by rewrite bool_decide_eq_false_2.
Qed.

Lemma wakeup1_insert ch t i x :
  ~ sleeps_on ch x -> wakeup1 ch (<[i := x]> t) = <[i := x]> (wakeup1 ch t).
Proof. intros H. unfold wakeup1. rewrite list_fmap_insert. by rewrite bool_decide_eq_false_2. Qed.

Lemma wakeup1_insert_woken ch t i x :
  sleeps_on ch x -> wakeup1 ch (<[i := x]> t) = <[i := set_p_state RUNNABLE x]> (wakeup1 ch t).
Proof. intros H. unfold wakeup1. rewrite list_fmap_insert. by rewrite bool_decide_eq_true_2. Qed.

Lemma wakeup1_forall ch t (Q : proc -> Prop) :
  (forall p, Q p -> Q (set_p_state RUNNABLE p)) -> Forall Q t -> Forall Q (wakeup1 ch t).
Proof.
  intros HQ Ht. unfold wakeup1. apply Forall_fmap. eapply list.Forall_impl; [exact Ht|].
  intros p Hp. cbn. case_bool_decide; [by apply HQ|done].
Qed.

Section Exit.
Context {Lay : Layout} {Dev : BlockDev} {Sw : DevSw}.

(** ** The open files *)
Lemma uses_cons f o fs : uses f (o :: fs) = ((if decide (o = Some f) then 1 else 0) + uses f fs)%nat.
Proof. unfold uses. rewrite filter_cons. by case_decide. Qed.

(** After [n] passes of the loop that closes them. *)
Definition files_closed (s : kstate) (i : nat) (x : proc) (refs : nat -> nat) (n : nat) (s1 : kstate) : Prop :=
  exists t, s1 = set_ftable t (set_ptable (<[i := set_p_ofile (replicate n None ++ drop n (p_ofile x)) x]> (ptable s)) s) /\
    length t = length (ftable s) /\ ftable_ok t (fun f => refs f + uses f (drop n (p_ofile x)))%nat.

Lemma close_files_spec s i x refs :
  curproc s = Some i -> ptable s !! i = Some x -> FtableLock ∉ held s -> length (p_ofile x) = NOFILE ->
  ftable_ok (ftable s) (fun f => refs f + uses f (p_ofile x))%nat ->
  (forall f, Some f ∈ p_ofile x -> (f < length (ftable s))%nat /\ (0 < refs f)%nat) ->
  wp close_files s (fun _ s' => files_closed s i x refs NOFILE s').
Proof.
  intros Hc Hx Hh Hl Ht Hf. apply lookup_lt_Some in Hx as Hi.
  apply (wp_mfor (files_closed s i x refs)); [| |done].
  - exists (ftable s). cbn [replicate app]. rewrite drop_0. split; [|done]. rewrite list_insert_id; [by destruct s|].
    rewrite Hx. by destruct x.
  - intros n s1 Hn (t & -> & Lt & Ht1). cbn [Nat.add] in *.
    destruct (lookup_lt_is_Some_2 (p_ofile x) n) as [o Ho]; [lia|]. pose proof (drop_S _ _ _ Ho) as Ed.
    eapply wp_bind_runs; [apply (myproc_runs i (set_p_ofile (replicate n None ++ drop n (p_ofile x)) x));
      [done|cbn; by apply list_lookup_insert_eq]|].
    cbn [p_ofile set_p_ofile]. rewrite lookup_app_r by (rewrite length_replicate; lia).
    rewrite length_replicate, Nat.sub_diag, Ed. cbn [lookup list_lookup].
    assert (replicate (S n) None ++ drop (S n) (p_ofile x) = replicate n None ++ None :: drop (S n) (p_ofile x)) as E.
    { rewrite replicate_S_end, <- app_assoc. done. }
    destruct o as [f|].
    + destruct (Hf f) as [Hfl Hfr]; [by eapply list_elem_of_lookup_2|]. rewrite <- Lt in Hfl.
      destruct (lookup_lt_is_Some_2 _ _ Hfl) as [ff Hff]. pose proof (Ht1 f ff Hff) as Href. cbv beta in Href.
      rewrite Ed, uses_cons, decide_True in Href by done.
      eapply wp_bind_runs; [apply (fileclose_runs f ff); [done|lia|done]|].
      eapply runs_wp; [eapply (upd_myproc_runs i); [done|cbn; by apply list_lookup_insert_eq]|].
      exists (<[f := set_f_ref (f_ref ff - 1) ff]> t). cbn. rewrite list_insert_insert_eq. split.
      { do 2 f_equal. rewrite insert_app_r_alt by (rewrite length_replicate; lia).
        rewrite length_replicate, Nat.sub_diag. cbn. by rewrite <- E. }
      split; [by rewrite length_insert|]. intros g gg Hg. destruct (decide (g = f)) as [->|Hgf].
      * rewrite list_lookup_insert_eq in Hg by done. injection Hg as <-. cbn. lia.
      * rewrite list_lookup_insert_ne in Hg by done. rewrite (Ht1 g gg Hg), Ed, uses_cons, decide_False by congruence. done.
    + apply wp_ret. exists t. rewrite E. split; [done|]. split; [done|]. intros g gg Hg.
      by rewrite (Ht1 g gg Hg), Ed, uses_cons, decide_False.
Qed.

(** ** The working directory *)

(** A log that admits one more operation at once, and has nothing to commit if
    no other one is under way. *)
Record log_ready (g : logst) : Prop := {
  lg_idle : l_committing g = false;
  lg_out : 0 <= l_outstanding g;
  lg_clean : l_outstanding g = 0 -> l_n g = 0;
  lg_room : l_n g + (l_outstanding g + 1) * MAXOPBLOCKS <= LOGSIZE
}.

Lemma end_op_clean s :
  held s = [] -> l_committing (klog s) = false -> (l_outstanding (klog s) = 1 -> l_n (klog s) = 0) ->
  runs end_op s tt (set_klog (set_l_outstanding (l_outstanding (klog s) - 1) (klog s))
    (set_ptable (wakeup1 (Some ChLog) (ptable s)) s)).
Proof.
  intros Hh Hc Hn. unfold end_op. eapply runs_bind; [apply acquire_runs; rewrite Hh; nolock|].
  eapply (runs_bind _ _ _ tt); [by intros e|]. eapply (runs_bind _ _ _); [by intros e|].
  cbn [klog set_held set_klog l_committing set_l_outstanding l_outstanding]. rewrite Hc, Hh.
  destruct (Z.eqb_spec (l_outstanding (klog s) - 1) 0) as [E|E].
  - rewrite E. eapply (runs_bind _ _ _ tt); [by intros e|].
    eapply runs_bind; [apply (release_runs _ _ []); [done|nolock]|]. cbn [when].
    eapply (runs_bind _ _ _ tt).
    { intros e. unfold commit, bind, gets. cbn. by rewrite Hn by lia. }
    eapply runs_bind; [apply acquire_runs; nolock|]. eapply (runs_bind _ _ _ tt); [by intros e|].
    eapply runs_bind; [apply wakeup_runs; cbn; by intros ?%list_elem_of_singleton|].
    intros e. rewrite (release_runs LogLock _ []) by (done || nolock). destruct s as [? ? ? ? ? ? ? ? ? ? []]; cbn in *. by subst.
  - eapply runs_bind; [apply wakeup_runs; cbn; by intros ?%list_elem_of_singleton|].
    eapply runs_bind; [apply (release_runs _ _ []); [done|nolock]|]. intros e. unfold ret, when. destruct s; cbn in *. by subst.
Qed.

Lemma drop_cwd_runs s i x c ip :
  held s = [] -> curproc s = Some i -> ptable s !! i = Some x -> p_state x = RUNNING ->
  p_cwd x = Some c -> icache s !! c = Some ip -> 1 < i_ref ip -> log_ready (klog s) ->
  runs drop_cwd s tt (set_ptable (<[i := set_p_cwd None x]> (wakeup1 (Some ChLog) (ptable s)))
    (set_icache (<[c := set_i_ref (i_ref ip - 1) ip]> (icache s)) s)).
Proof.
  intros Hh Hc Hx Hst Hw Hi Hr [G1 G2 G3 G4]. unfold drop_cwd. eapply runs_bind; [by apply (myproc_runs i x)|].
  eapply runs_bind; [apply begin_op_now; [rewrite Hh; nolock|done|done]|]. rewrite Hw.
  eapply (runs_bind _ _ _ c); [by intros e|]. eapply runs_bind; [apply (iput_runs c ip); [done|done|lia]|].
  eapply runs_bind; [apply end_op_clean; [done|done|cbn; lia]|]. intros e. rewrite (upd_myproc_runs i x); [|done|].
  - f_equal. cbn. rewrite Z.add_simpl_r. destruct s as [? ? ? ? ? ? ? ? ? ? []]; cbn in *. by subst.
  - cbn. unfold wakeup1. rewrite list_lookup_fmap, Hx. cbn. by rewrite bool_decide_eq_false_2 by (rewrite Hst; by intros []).
Qed.

(** ** exit *)

(** The entry of a process that has exited. *)
Definition exited (x : proc) : proc :=
  set_p_state ZOMBIE (set_p_cwd None (set_p_ofile (replicate NOFILE None) x)).

(** What makes [exit] of process [i], with directory [c], simple: others hold
    its files and its directory too, it is no thread and has no children. *)
Record can_exit (s : kstate) (i : nat) (x : proc) (refs : nat -> nat) (c : nat) (ip : inode) : Prop := {
  ce_held : held s = [];
  ce_cur : curproc s = Some i;
  ce_me : ptable s !! i = Some x;
  ce_run : p_state x = RUNNING;
  ce_init : initproc s <> Some i;
  ce_table : length (ptable s) = NPROC;
  ce_leaf : Forall (fun y => p_parent y <> Some i) (ptable s);
  ce_thread : p_is_thread x <> 1;
  ce_ofile : length (p_ofile x) = NOFILE;
  ce_refs : ftable_ok (ftable s) (fun f => refs f + uses f (p_ofile x))%nat;
  ce_open : forall f, Some f ∈ p_ofile x -> (f < length (ftable s))%nat /\ (0 < refs f)%nat;
  ce_cwd : p_cwd x = Some c;
  ce_inode : icache s !! c = Some ip;
  ce_iref : 1 < i_ref ip;
  ce_log : log_ready (klog s)
}.

Lemma no_children s me :
  length (ptable s) = NPROC -> (me < NPROC)%nat -> Forall (fun y => p_parent y <> Some me) (ptable s) ->
  runs (mfor NPROC 0 (exit_child_one me)) s tt s.
Proof.
  intros Hl Hm Hf. destruct (wp_mfor (fun _ s1 => s1 = s) NPROC 0 (exit_child_one me) s (fun _ s1 => s1 = s))
    as ([] & s1 & R & ->); [done| |done|done].
  intros j s1 Hj ->. destruct (lookup_lt_is_Some_2 (ptable s) me) as [m Em]; [lia|].
  destruct (lookup_lt_is_Some_2 (ptable s) j) as [y Ey]; [lia|].
  unfold exit_child_one. eapply wp_bind_runs; [by apply proc_at_runs|]. eapply wp_bind_runs; [by apply proc_at_runs|].
  rewrite list.Forall_lookup in Hf. unfold child_of. rewrite bool_decide_eq_false_2 by (by apply (Hf j)). by apply wp_ret.
Qed.

(** The state in which the scheduler goes on: [w] is the process table with
    those woken that wait for the log or for a child. *)
Definition after_exit (s : kstate) (i : nat) (x : proc) (c : nat) (ip : inode) (t : list file) : kstate :=
  let w := wakeup1 (ChProc <$> p_parent x) (wakeup1 (Some ChLog) (ptable s)) in
  set_held [PtableLock] (set_ptable (<[i := exited x]> w)
    (set_icache (<[c := set_i_ref (i_ref ip - 1) ip]> (icache s)) (set_ftable t s))).

Lemma exit_blocks s i x refs c ip :
  can_exit s i x refs c ip ->
  exists t, ftable_ok t refs /\ length t = length (ftable s) /\ blocks exit s (after_exit s i x c ip t).
Proof.
  intros [Hh Hc Hx Hst Hin Hl Hlf Hth Lo Ht Ho Hw Hi Hr Hg]. apply lookup_lt_Some in Hx as Hil.
  destruct (close_files_spec s i x refs) as ([] & s1 & R1 & t & -> & Lt & Ht1); try done; [rewrite Hh; nolock|].
  rewrite drop_ge in R1, Ht1 by lia. rewrite app_nil_r in R1. exists t.
  split; [intros f ff Hf; rewrite (Ht1 f ff Hf); change (uses f []) with 0%nat; lia|]. split; [done|].
  set (x1 := set_p_ofile (replicate NOFILE None) x) in *.
  assert (forall ch, ~ sleeps_on ch x1) as Hs1 by (intros ch [H _]; cbn in H; by rewrite Hst in H).
  unfold exit. eapply blocks_after; [by apply (curproc_idx_runs i)|].
  eapply (blocks_after _ _ _ (initproc s)); [by intros e|]. rewrite bool_decide_eq_false_2 by done.
  eapply blocks_after; [exact R1|]. eapply blocks_after.
  { apply (drop_cwd_runs _ i x1 c ip); try done. cbn. by apply list_lookup_insert_eq. }
  eapply blocks_after; [apply acquire_runs; cbn; rewrite Hh; nolock|].
  cbn [held set_ptable set_icache set_ftable ptable icache]. rewrite Hh, (wakeup1_insert _ _ _ x1) by done. rewrite list_insert_insert_eq.
  eapply (blocks_after _ _ _ (set_p_cwd None x1)).
  { apply proc_at_runs. cbn. apply list_lookup_insert_eq. by rewrite wakeup1_length. }
  eapply (blocks_after _ _ _ tt); [by intros e|]. cbn [p_is_thread set_p_cwd x1 set_p_ofile p_parent].
  rewrite (proj2 (Z.eqb_neq _ _) Hth). cbn [when]. eapply (blocks_after _ _ _ tt); [by intros e|].
  cbn [ptable set_held set_ptable]. fold x1. rewrite (wakeup1_insert _ _ _ (set_p_cwd None x1)) by apply Hs1.
  eapply blocks_after; [apply no_children|].
  - cbn. by rewrite length_insert, !wakeup1_length.
  - lia.
  - cbn. apply Forall_insert; [by do 2 (apply wakeup1_forall; [done|])|]. cbn. by apply (list.Forall_lookup_1 _ _ i x Hlf).
  - eapply blocks_after; [eapply (upd_myproc_runs i); [done|cbn; apply list_lookup_insert_eq; by rewrite !wakeup1_length]|].
    apply blocks_before. unfold blocks. cbn [ptable set_held set_ptable]. rewrite list_insert_insert_eq.
    erewrite (sched_enters _ i); [reflexivity|done|done|cbn; apply list_lookup_insert_eq; by rewrite !wakeup1_length|done].
Qed.

(** A process's turn in the scheduler's loop, in which it runs [body] until it
    gives up the processor. *)
Definition turn (i : nat) (body : K unit) (s : kstate) : kstate :=
  match scheduler_turn i s [fun s1 => match body s1 [] with Blocked s2 => s2 | _ => s1 end] with
  | Ok _ s' _ => s'
  | _ => s
  end.

Lemma turn_blocks s i x body s' :
  ptable s !! i = Some x -> p_state x = RUNNABLE -> p_pgdir x <> 0 ->
  blocks body (set_ptable (<[i := set_p_state RUNNING x]> (ptable s)) (set_curproc (Some i) s)) s' ->
  turn i body s = set_curproc None s'.
Proof.
  intros Hx Hst Hd Hb. unfold turn, scheduler_turn. unfold bind at 1. rewrite (proc_at_runs i x) by done.
  unfold in_state. rewrite bool_decide_eq_true_2 by done. cbn [when]. unfold bind at 1, modify at 1.
  unfold bind at 1, switchuvm. rewrite (proj2 (Z.eqb_neq _ _) Hd). cbn [when ret]. unfold bind at 1.
  rewrite (upd_proc_runs i x) by done. unfold bind at 1, interfere. unfold blocks in Hb. cbn [ptable set_curproc].
  by rewrite Hb.
Qed.

(** ** A child's life *)

(** The entry of a process asleep in [wait]. *)
Definition waiting (me : nat) (p : proc) : proc := set_p_state SLEEPING (set_p_chan (Some (ChProc me)) p).

(** [wait] with children of which none has exited sleeps; it goes on when the
    others have made it runnable. *)
Lemma wait_sleeps s me p p2 f :
  held s = [] -> curproc s = Some me -> ptable s !! me = Some p -> p_killed p = false ->
  Forall (fun x => zombie_child me x = false) (ptable s) -> Exists (fun x => child_of me x = true) (ptable s) ->
  let s1 := set_held [PtableLock] (set_ptable (<[me := waiting me p]> (ptable s)) s) in
  ptable (f s1) !! me = Some p2 -> p_state p2 = RUNNABLE ->
  wait s [f] = wait_loop 0 me (set_ptable (<[me := set_p_chan None (set_p_state RUNNING p2)]> (ptable (f s1)))
    (set_held [PtableLock] (set_curproc (Some me) (f s1)))) [].
Proof.
  intros Hh Hc Hp Hk Hz Hx s1 Hp2 Hst. apply lookup_lt_Some in Hp as Hl. apply lookup_lt_Some in Hp2 as Hl2.
  unfold wait. unfold bind at 1. rewrite (curproc_idx_runs me) by done. unfold bind at 1.
  rewrite acquire_runs by (rewrite Hh; nolock). unfold bind at 1, pending. cbn [length wait_loop].
  unfold bind at 1, gets at 1. unfold wait_scan. cbn [ptable set_held].
  change (fun p => child_of me p && in_state ZOMBIE p) with (zombie_child me). rewrite (proj2 (find_proc_none _ _ 0) Hz).
  unfold bind at 1. rewrite (proc_at_runs me p) by done. rewrite Hk.
  assert (existsb (child_of me) (ptable s) = true) as ->.
  { apply existsb_exists. apply list.Exists_exists in Hx as (x & Hin & Ex). exists x. by rewrite <- list_elem_of_In. }
  cbn [negb orb]. unfold bind at 1, sleep. unfold bind at 1, gets at 1. cbn [curproc set_held]. rewrite Hc.
  rewrite bool_decide_eq_true_2 by done. cbn [negb when]. unfold bind at 1, ret at 1. unfold bind at 1.
  rewrite (upd_myproc_runs me p) by done. fold (waiting me p). unfold bind at 1.
  rewrite (sched_enters _ me (waiting me p)); [|cbn; by rewrite Hh|done|cbn; by apply list_lookup_insert_eq|done].
  cbn [ptable set_held held]. rewrite Hh. change (set_ptable _ (set_held _ s)) with s1. cbn [swtch_from]. rewrite Hp2.
  rewrite bool_decide_eq_true_2 by done. unfold bind at 1.
  rewrite (upd_myproc_runs me (set_p_state RUNNING p2)); [|done|cbn; by apply list_lookup_insert_eq].
  unfold resumed. cbn [ptable set_held set_curproc set_ptable]. rewrite list_insert_insert_eq. by destruct (f s1).
Qed.

Lemma child_turn s i x refs c ip :
  held s = [PtableLock] -> forkret_first s = false -> ptable s !! i = Some x -> p_state x = RUNNABLE -> p_pgdir x <> 0 ->
  let x1 := set_p_state RUNNING x in
  let s1 := set_held [] (set_ptable (<[i := x1]> (ptable s)) (set_curproc (Some i) s)) in
  can_exit s1 i x1 refs c ip ->
  exists t, ftable_ok t refs /\ length t = length (ftable s) /\
    turn i (do forkret; exit) s = set_curproc None (after_exit s1 i x1 c ip t).
Proof.
  intros Hh Hff Hx Hst Hd x1 s1 C. destruct (exit_blocks s1 i x1 refs c ip C) as (t & Ht & Lt & B). exists t.
  split; [done|]. split; [done|]. apply (turn_blocks s i x); [done..|]. eapply (blocks_after _ _ _ tt s1); [|done].
  unfold forkret. eapply runs_bind; [apply (release_runs _ _ []); [done|nolock]|].
  eapply (runs_bind _ _ _ false); [|by intros e]. intros e. unfold gets. cbn. by rewrite Hff.
Qed.

(** What lets the child of [me] in entry [i] exit and be collected without
    further ado: the entry holds no file of an earlier user, no other child of
    [me] waits to be collected, and the log is ready for the operation in which
    the child gives up its directory. *)
Record lone_child (s : kstate) (me i : nat) (p q : proc) (ip : inode) : Prop := {
  lc_table : length (ptable s) = NPROC;
  lc_zombie : Forall (fun x => zombie_child me x = false) (ptable s);
  lc_leaf : Forall (fun x => p_parent x <> Some i) (ptable s);
  lc_thread : p_is_thread p <> 1;
  lc_killed : p_killed p = false;
  lc_clean : p_ofile q = replicate NOFILE None;
  lc_iref : 0 < i_ref ip;
  lc_first : forkret_first s = false;
  lc_init : initproc s <> Some i;
  lc_log : log_ready (klog s)
}.

Lemma child_files_clean fs : length fs = NOFILE -> child_files fs (replicate NOFILE None) = fs.
Proof.
  intros Hl. apply list_eq. intros j. unfold child_files. rewrite lookup_zip_with.
  destruct (fs !! j) as [o|] eqn:E; [|done]. apply lookup_lt_Some in E.
  rewrite lookup_replicate_2 by lia. cbn. by destruct o.
Qed.

(** The tables after the child's turn: the parent has been woken. *)
Lemma woken_parent_table ch me i p x y t :
  me <> i -> (forall ch, ~ sleeps_on ch x) -> ch <> Some (ChProc me) ->
  <[i := y]> (wakeup1 (Some (ChProc me)) (wakeup1 ch (<[i := x]> (<[me := waiting me p]> t)))) =
  <[i := y]> (<[me := set_p_state RUNNABLE (waiting me p)]> (wakeup1 (Some (ChProc me)) (wakeup1 ch t))).
Proof.
  intros Hne Hx Hch. rewrite !(wakeup1_insert _ _ i x) by done. rewrite list_insert_insert_eq.
  rewrite (wakeup1_insert ch _ me) by (intros [_ H]; cbn in H; congruence). by rewrite wakeup1_insert_woken.
Qed.

Section Roundtrip.
Context (s : kstate) (me i : nat) (p q : proc) (k d : Z) (l : list Z) (tabs us : gmap Z Z).
Context (refs : nat -> nat) (c : nat) (ip : inode).
Context (C : can_fork s me i p q k d l tabs us refs c ip) (L : lone_child s me i p q ip).
Context (s2 : kstate) (t : list file).
Context (F : vm_frame (at_copy s i k q) s2) (Lt : length t = length (ftable s)).
Context (Ht : ftable_ok t (fun f => refs f + uses f (p_ofile p))%nat).
Context (Hd : d <> 0).

Let x := forked me (nextpid s) k d p q.
(** The state when [fork] returns, and when the parent has gone to sleep. *)
Let s3 := set_ptable (<[i := x]> (ptable s)) (set_icache (<[c := set_i_ref (i_ref ip + 1) ip]> (icache s)) (set_ftable t s2)).
Let s4 := set_held [PtableLock] (set_ptable (<[me := waiting me p]> (ptable s3)) s3).
Let x1 := set_p_state RUNNING x.
Let s5 := set_held [] (set_ptable (<[i := x1]> (ptable s4)) (set_curproc (Some i) s4)).

Lemma child_can_exit : can_exit s5 i x1 refs c (set_i_ref (i_ref ip + 1) ip).
Proof using C L F Lt Ht.
  destruct L as [Lp Lz Ll Lth Lk Lq Lr Lf Li Lg]. pose proof (can_fork_ne _ _ _ _ _ _ _ _ _ _ _ _ _ C) as Hne.
  destruct C as [Hh Hc Hp Hst Hf Hq Hu Hpg Hsz Hl [Lo _] Htt Ho Hw Hi]. apply lookup_lt_Some in Hq as Hil.
  assert (p_ofile x1 = p_ofile p) as Ex by (cbn; rewrite Lq; by apply child_files_clean).
  split; try done; rewrite ?Ex; try done.
  - cbn. apply list_lookup_insert_eq. by rewrite !length_insert.
  - cbn. by rewrite F.
  - cbn. by rewrite !length_insert.
  - cbn. assert (p_parent x1 <> Some i) by (cbn; congruence). do 3 (apply Forall_insert; [|done || by apply (list.Forall_lookup_1 _ _ me p Ll)]). done.
  - intros f Hff. cbn. rewrite Lt. by apply Ho.
  - cbn. apply list_lookup_insert_eq. by eapply lookup_lt_Some.
  - cbn. lia.
  - cbn. by rewrite F.
Qed.

(** The state in which the parent goes on. *)
Let W := wakeup1 (Some (ChProc me)) (wakeup1 (Some ChLog) (ptable s)).

Lemma child_turn_ends : exists t', ftable_ok t' refs /\
  let s6 := turn i (do forkret; exit) s4 in
  s6 = set_curproc None (set_held [PtableLock] (set_ptable (ptable s6) (set_icache (icache s) (set_ftable t' s2)))) /\
  ptable s6 = <[i := exited x]> (<[me := set_p_state RUNNABLE (waiting me p)]> W).
Proof using C L F Lt Ht Hd.
  pose proof (can_fork_ne _ _ _ _ _ _ _ _ _ _ _ _ _ C) as Hne. pose proof child_can_exit as CE.
  pose proof (cf_old _ _ _ _ _ _ _ _ _ _ _ _ _ C) as Hq. apply lookup_lt_Some in Hq as Hil.
  pose proof (cf_inode _ _ _ _ _ _ _ _ _ _ _ _ _ C) as Hi. apply lookup_lt_Some in Hi as Hcl.
  destruct (child_turn s4 i x refs c (set_i_ref (i_ref ip + 1) ip)) as (t' & Ht' & _ & E); try done.
  { cbn. rewrite F. apply L. }
  { cbn. rewrite list_lookup_insert_ne by done. by apply list_lookup_insert_eq. }
  exists t'. split; [done|]. cbv zeta. rewrite E. unfold after_exit. fold x1. fold s5. split.
  - cbn [ptable set_curproc set_held set_ptable]. unfold s5, s4, s3. cbn [icache set_held set_ptable set_curproc set_icache].
    assert (forall v, set_i_ref (i_ref (set_i_ref (v + 1) ip) - 1) (set_i_ref (i_ref ip + 1) ip) = set_i_ref v ip) as Ei.
    { intros v. cbn. by rewrite Z.add_simpl_r. }
    rewrite list_insert_insert_eq, Ei. rewrite (list_insert_id (icache s) c (set_i_ref (i_ref ip) ip)); [reflexivity|].
    rewrite Hi. by destruct ip.
  - unfold s5, s4, s3. cbn [ptable set_curproc set_held set_ptable]. change (ChProc <$> p_parent x1) with (Some (ChProc me)).
    rewrite (woken_parent_table (Some ChLog) me i p x1) by (done || by intros ch []).
    rewrite (wakeup1_insert _ _ i x), (wakeup1_insert _ _ i x) by (by intros []).
    rewrite (list_insert_insert_ne _ me i) by done. by rewrite list_insert_insert_eq.
Qed.

Let p1 := set_p_chan None p.

Lemma parent_resumes : exists t' s7, ftable_ok t' refs /\
  wait s3 [turn i (do forkret; exit)] = wait_loop 0 me s7 [] /\
  s7 = set_curproc (Some me) (set_held [PtableLock] (set_ptable (<[i := exited x]> (<[me := p1]> W))
    (set_icache (icache s) (set_ftable t' s2)))).
Proof using C L F Lt Ht Hd.
  pose proof (can_fork_ne _ _ _ _ _ _ _ _ _ _ _ _ _ C) as Hne. pose proof C as [Hh Hc Hp Hst _ Hq _ _ _ _ _ _ _ _ _].
  apply lookup_lt_Some in Hq as Hil. apply lookup_lt_Some in Hp as Hml.
  destruct child_turn_ends as (t' & Ht' & E6 & Et). set (p2 := set_p_state RUNNABLE (waiting me p)) in *.
  exists t'. eexists. split; [done|]. split.
  - apply (wait_sleeps s3 me p p2).
    + cbn. rewrite F. done.
    + cbn. rewrite F. done.
    + cbn. by rewrite list_lookup_insert_ne.
    + apply L.
    + apply Forall_insert; [apply L|]. unfold zombie_child, in_state. by rewrite andb_false_r.
    + apply list.Exists_exists. exists x. split; [|unfold child_of; by rewrite bool_decide_eq_true_2].
      apply (list_elem_of_lookup_2 _ i). by apply list_lookup_insert_eq.
    + fold s4. rewrite Et, list_lookup_insert_ne by done. apply list_lookup_insert_eq. unfold W. by rewrite !wakeup1_length.
    + done.
  - fold s4. rewrite Et, (list_insert_insert_ne _ me i) by done. rewrite list_insert_insert_eq.
    replace (set_p_chan None (set_p_state RUNNING p2)) with p1 by (unfold p1, p2; destruct p; cbn in *; by subst).
    rewrite (list_insert_insert_ne _ i me) by done. rewrite E6. reflexivity.
Qed.

Lemma collected_table T T' h h' cp (s0 : kstate) :
  set_ptable T' (set_held h' (set_curproc cp (set_held h (set_ptable T s0)))) = set_curproc cp (set_held h' (set_ptable T' s0)).
Proof. by destruct s0. Qed.

Lemma no_other_zombie : Forall (fun y => zombie_child me y = false) (<[me := p1]> W).
Proof using C L.
  pose proof (lc_zombie _ _ _ _ _ _ L) as Z. apply Forall_insert.
  - apply wakeup1_forall, wakeup1_forall; [..|done]; intros y _; unfold zombie_child; by rewrite andb_false_r.
  - by apply (list.Forall_lookup_1 _ _ me p Z), C.
Qed.

Lemma parent_collects l2 ctabs cus : copied (p_pgdir p) (p_sz p) tabs us (at_copy s i k q) l d s2 l2 ctabs cus ->
  exists s' t' l', wait s3 [turn i (do forkret; exit)] = Ok (nextpid s) s' [] /\ ftable_ok t' refs /\
    l' ≡ₚ k :: d :: l /\ kmem_rep s' l' /\ same_outside l' (mem s2) (mem s') /\
    s' = set_mem (mem s') (set_kmem (kmem s') (set_curproc (Some me) (set_held [] (set_ptable
      (<[i := reaped (exited x)]> (<[me := p1]> W)) (set_icache (icache s) (set_ftable t' s2)))))).
Proof using C L F Lt Ht Hd.
  intros Cp. pose proof (can_fork_ne _ _ _ _ _ _ _ _ _ _ _ _ _ C) as Hne.
  destruct (at_copy_space _ _ _ _ _ _ _ _ _ _ _ _ _ C) as (_ & _ & Hkd & Hkl & _ & Hk).
  pose proof C as [Hh Hc Hp Hst _ Hq _ _ Hs _ _ _ _ _ _]. apply lookup_lt_Some in Hq as Hil.
  pose proof (cp_pages _ _ _ _ _ _ _ _ _ _ _ Cp) as P. pose proof (npages_bound (p_sz p)) as Hb.
  pose proof (two_child _ _ _ _ _ _ _ _ (cp_two _ _ _ _ _ _ _ _ _ _ _ Cp)) as [[[K K'] U2 U3 U4 U5 U6] U7 U8 U9].
  destruct parent_resumes as (t' & s7 & Ht' & -> & E7).
  assert (ptable s7 !! i = Some (exited x)) as Hz.
  { rewrite E7. apply list_lookup_insert_eq. unfold W. by rewrite length_insert, !wakeup1_length. }
  destruct (reap_spec s7 l2 i (exited x) ctabs cus (npages (p_sz p))) as (r & s' & R & -> & l' & P' & K2 & E & M).
  - by rewrite E7.
  - done.
  - rewrite E7. split; [|apply Cp|lia|done|cbn; rewrite P, elem_of_cons; tauto].
    split; [split; [by split|nolock|done..]|done..].
  - exists s', t', l'. split; [|split; [done|split; [|split; [done|split]]]].
    + cbn [wait_loop]. unfold bind at 1, gets. unfold wait_scan.
      change (fun p => child_of me p && in_state ZOMBIE p) with (zombie_child me).
      rewrite (find_proc_first (zombie_child me) (ptable s7) i (exited x) Hz); [apply R|..].
      * unfold zombie_child, child_of. cbn. by rewrite !bool_decide_eq_true_2.
      * intros j y Hj Hy. rewrite E7 in Hy. cbn in Hy. rewrite list_lookup_insert_ne in Hy by lia.
        exact (list.Forall_lookup_1 _ _ _ _ no_other_zombie Hy).
    + rewrite P', <- P. cbn. solve_Permutation.
    + by rewrite E7 in M.
    + rewrite E at 1. rewrite E7. cbn. by rewrite list_insert_insert_eq, collected_table.
Qed.
End Roundtrip.

(** C18: a process forks and waits, and while it sleeps the child gets the
    processor and exits: fork and wait return the same pid, every page the
    child took is back with the allocator, the files and the directory have as
    many references as before, the log is unchanged, the child's table entry is
    free, the parent reads in its memory what it read before, and of the other
    processes at most some waiting for the log, or on the parent's channel,
    have been woken. *)
Theorem fork_wait s me i p q k d l tabs us refs c ip :
  can_fork s me i p q k d l tabs us refs c ip -> lone_child s me i p q ip ->
  exists s', (let! pid := fork in let! r := wait in ret (pid, r)) s [turn i (do forkret; exit)] =
      Ok (nextpid s, nextpid s) s' [] /\
    held s' = [] /\ curproc s' = Some me /\ (exists l', l' ≡ₚ k :: d :: l /\ kmem_rep s' l') /\
    ftable_ok (ftable s') refs /\ icache s' = icache s /\ klog s' = klog s /\
    ptable s' = <[i := reaped (exited (forked me (nextpid s) k d p q))]> (<[me := set_p_chan None p]>
      (wakeup1 (Some (ChProc me)) (wakeup1 (Some ChLog) (ptable s)))) /\
    forall va, 0 <= va < KERNBASE -> user_byte (mem s') (p_pgdir p) va = user_byte (mem s) (p_pgdir p) va.
Proof.
  intros C L. destruct (at_copy_space _ _ _ _ _ _ _ _ _ _ _ _ _ C) as (U & Em & _ & _ & Hka & Hk).
  destruct (fork_spec _ _ _ _ _ _ _ _ _ _ _ _ _ C) as (r & s3 & R & -> & s2 & l2 & ctabs & cus & t & Cp & -> & Lt & Ht).
  pose proof (cp_two _ _ _ _ _ _ _ _ _ _ _ Cp) as T. pose proof (cp_frame _ _ _ _ _ _ _ _ _ _ _ Cp) as F.
  assert (page d) as Hd by apply (two_child _ _ _ _ _ _ _ _ T).
  destruct (parent_collects s me i p q k d l tabs us refs c ip C L s2 t F Lt Ht (proj1 (page_pos d Hd)) _ _ _ Cp)
    as (s' & t' & l' & E & Ht' & P & K & M & Es).
  exists s'. split; [unfold bind at 1; rewrite R; unfold bind at 1; by rewrite E|].
  split; [by rewrite Es|]. split; [by rewrite Es|]. split; [by exists l'|]. split; [by rewrite Es|].
  split; [by rewrite Es|]. split; [rewrite Es; cbn; by rewrite F|]. split; [by rewrite Es|].
  intros va Hva. rewrite <- Em, <- (copied_parent _ _ _ _ _ _ _ _ _ _ _ va U Cp Hva).
  apply (user_byte_apart s2 l2 _ tabs us l'); [apply T|done| | |done].
  - intros y Hy. eapply free_list_pages; [apply K|done].
  - intros y. rewrite P, elem_of_cons. intros [->|Hy]; [done|]. apply (two_apart _ _ _ _ _ _ _ _ T).
    by rewrite (cp_pages _ _ _ _ _ _ _ _ _ _ _ Cp).
Qed.
End Exit.

(** ** Example *)

(** The process of [Lifecycle.start] in a table of full size, after the first
    [forkret], its directory an inode with one reference. *)
Definition root_inode : inode := mkInode 0 0 1 false false 0 0 0 0 0 (replicate 13 0).

Definition parent_state (d : Z) (s : kstate) : kstate :=
  set_forkret_first false (set_icache (<[0%nat := root_inode]> (icache s)) (start d (replicate 63 zero_proc) s)).

Lemma fork_wait_witness :
  exists d s, ptable s = caller d :: replicate 63 zero_proc /\ exists s',
    (let! pid := fork (Lay := small_layout) in let! r := wait (Lay := small_layout) in ret (pid, r)) s
      [turn 1 (do forkret; exit (Lay := small_layout))] = Ok (1, 1) s' [] /\ ftable_ok (ftable s') one_ref.
Proof.
  destruct new_space_ok as (d & s & _ & k & l & tabs & us & U & C & Hl & F & Z & _).
  destruct l as [|q l]; [cbn in Hl; lia|]. cbn [length] in Hl. exists d, (parent_state d s). split; [done|].
  destruct (fork_wait (Lay := small_layout) (parent_state d s) 0 1 (caller d) zero_proc k q l tabs us one_ref 0 root_inode)
    as (s' & E & _ & _ & _ & H & _).
  - destruct (start_can_fork d s q k l tabs us (replicate 62 zero_proc) U C) as []; [lia|done|].
    split; try done; [by apply (uvm_ok_frame (Lay := small_layout) s)|cbn; by rewrite F].
  - split; try done; try (by repeat constructor); cbn; rewrite F; [done|]. by split.
  - exists s'. assert (nextpid (parent_state d s) = 1) as En by (cbn; by rewrite F). rewrite En in E. by split.
Defined.
