(* ===== verification/Exec.v ===== *)
(** * exec: exec.c, elf.h

    Replacing the memory of the current process by a program file: the ELF
    headers are read from the inode, the segments loaded into a new page
    table, the arguments pushed on a new stack, and only then is the old
    memory freed. *)

From S2P Require Import Prelude Bytes Cstring Kstate Sync Kalloc Pipe Disk Bio Log Fs File Vm Dir Console Proc.
Import Str.
Local Open Scope Z_scope.

(** ** elf.h *)
Definition ELF_MAGIC : Z := 1179403647.
Definition ELF_PROG_LOAD : Z := 1.

(** struct elfhdr, struct proghdr as the bytes read from the file. *)
Definition ELFHDR : Z := 52.
Definition elf_magic (e : list Z) : Z := get32 e 0.
Definition elf_entry (e : list Z) : Z := get32 e 24.
Definition elf_phoff (e : list Z) : Z := get32 e 28.
Definition elf_phnum (e : list Z) : Z := get16 e 44.

Definition PROGHDR : Z := 32.
Definition ph_type (p : list Z) : Z := get32 p 0.
Definition ph_off (p : list Z) : Z := get32 p 4.
Definition ph_vaddr (p : list Z) : Z := get32 p 8.
Definition ph_filesz (p : list Z) : Z := get32 p 16.
Definition ph_memsz (p : list Z) : Z := get32 p 20.

(** [for(last=s=path; *s; s++) if( *s == '/') last = s+1;] *)
Fixpoint last_elem (last s : list Z) : list Z :=
  match s with
  | [] => last
  | c :: s' =>
      if c =? 0 then last
      else last_elem (if c =? slash then s' else last) s'
  end.

Section Exec.
Context {Lay : Layout} {Dev : BlockDev} {Sw : DevSw}.

(** The label [bad]. *)
Definition exec_bad (pgdir : Z) (ip : option nat) : K Z :=
  do when (negb (pgdir =? 0)) (freevm pgdir);
  do match ip with
     | Some i => do iunlockput i; end_op
     | None => ret tt
     end;
  ret (-1).

(** The loop over the [n] program headers that are left; [None] for
    [goto bad]. *)
Fixpoint load_segments (n : nat) (pgdir : Z) (ip : nat) (off sz : Z) : K (option Z) :=
  match n with
  | O => ret (Some sz)
  | S n' =>
      let! ' (r, ph) := readi ip (u32 off) PROGHDR in
      if negb (r =? PROGHDR) then ret None else
      if negb (ph_type ph =? ELF_PROG_LOAD)
      then load_segments n' pgdir ip (off + PROGHDR) sz else
      if ph_memsz ph <? ph_filesz ph then ret None else
      let! sz := allocuvm pgdir sz (u32 (ph_vaddr ph + ph_memsz ph)) in
      if sz =? 0 then ret None else
      let! l := loaduvm pgdir (ph_vaddr ph) ip (ph_off ph) (ph_filesz ph) in
      if l <? 0 then ret None else
      load_segments n' pgdir ip (off + PROGHDR) sz
  end.

(** The loop that pushes the strings of [argv]: the stack pointer and
    [ustack[3..]], or [None] for [goto bad]. *)
Fixpoint push_args (pgdir sp : Z) (argc : nat) (argv : list (list Z)) (ustack : list Z)
  : K (option (Z * list Z)) :=
  match argv with
  | [] => ret (Some (sp, ustack))
  | a :: argv' =>
      if (MAXARG <=? argc)%nat then ret None else
      let sp := Z.land (u32 (sp - (Z.of_nat (strlen a) + 1))) (Z.lnot 3) in
      let! r := copyout pgdir sp (take (S (strlen a)) (a ++ [0])) in
      if r <? 0 then ret None else
      push_args pgdir sp (S argc) argv' (ustack ++ [sp])
  end.

(** From [sp = sz] on: the stack, the name, and the switch to the new image. *)
Definition exec_commit (path : list Z) (argv : list (list Z)) (elf : list Z)
    (pgdir sz : Z) : K Z :=
  let! r := push_args pgdir sz 0 argv [] in
  match r with
  | None => exec_bad pgdir None
  | Some (sp, args) =>
      let argc := Z.of_nat (length args) in
      let ustack := [4294967295; argc; u32 (sp - (argc + 1) * 4)] ++ args ++ [0] in
      let sp := u32 (sp - (3 + argc + 1) * 4) in
      let! r := copyout pgdir sp (concat (le_bytes 4 <$> ustack)) in
      if r <? 0 then exec_bad pgdir None else
      do upd_myproc (copy_name (last_elem path path));
      let! p := myproc in
      let oldpgdir := p_pgdir p in
      do upd_myproc (fun p =>
           set_p_tf (set_tf_esp sp (set_tf_eip (elf_entry elf) (p_tf p)))
             (set_p_sz sz (set_p_pgdir pgdir p)));
      let! p := myproc in
      do switchuvm p;
      do freevm oldpgdir;
      ret 0
  end.

(** The result of [readi] is compared with [sizeof(elf)] as an unsigned
    number, so a failed read goes on with an [elf] nobody wrote. *)
Definition exec (path : list Z) (argv : list (list Z)) : K Z :=
  do begin_op;
  let! r := namei path in
  match r with
  | None => do end_op; ret (-1)
  | Some ip =>
      do ilock ip;
      let! ' (n, elf) := readi ip 0 ELFHDR in
      if u32 n <? ELFHDR then exec_bad 0 (Some ip) else
      if n <? 0 then fault "exec: elf is not initialised" else
      if negb (elf_magic elf =? ELF_MAGIC) then exec_bad 0 (Some ip) else
      let! pgdir := setupkvm in
      if pgdir =? 0 then exec_bad 0 (Some ip) else
      let! r := load_segments (Z.to_nat (elf_phnum elf)) pgdir ip (elf_phoff elf) 0 in
      match r with
      | None => exec_bad pgdir (Some ip)
      | Some sz =>
          do iunlockput ip;
          do end_op;
          let sz := PGROUNDUP sz in
          let! sz := allocuvm pgdir sz (u32 (sz + 2 * PGSIZE)) in
          if sz =? 0 then exec_bad pgdir None else
          do clearpteu pgdir (u32 (sz - 2 * PGSIZE));
          exec_commit path argv elf pgdir sz
      end
  end.
End Exec.
