(* ===== verification/Syscall.v ===== *)
(** * System calls: syscall.c, sysproc.c, sysfile.c

    Arguments are fetched from the user stack through the page table of the
    current process.  A pointer argument is its address; data read or written
    through one is moved by [user_gets] and [user_puts]. *)

From S2P Require Import Prelude Bytes Cstring Kstate Sync Kalloc Pipe Disk Bio Log Fs File Vm Dir Console Proc Exec.
Import Str.
Local Open Scope Z_scope.

Definition O_RDONLY : Z := 0.
Definition O_WRONLY : Z := 1.
Definition O_RDWR : Z := 2.
Definition O_CREATE : Z := 512.
Definition STAT : Z := 20.

Section Syscall.
Context {Lay : Layout} {Dev : BlockDev} {Sw : DevSw}.

(** ** Reading user memory *)
Definition user_get (va : Z) : K Z :=
  let! p := myproc in
  let! pte := walkpgdir (p_pgdir p) va false in
  if pte =? 0 then fault "page fault" else
  let! e := load pte in
  if negb (has e PTE_P) then fault "page fault" else
  gets (fun s => get_byte (mem s) (p2v (PTE_ADDR e) + va mod PGSIZE)).

Fixpoint user_gets (va : Z) (n : nat) : K (list Z) :=
  match n with
  | O => ret []
  | S n' =>
      let! b := user_get va in
      let! bs := user_gets (u32 (va + 1)) n' in
      ret (b :: bs)
  end.

(** ** syscall.c *)

(** The word at [addr]; [None] for the result -1. *)
Definition fetchint (addr : Z) : K (option Z) :=
  let! p := myproc in
  if (p_sz p <=? addr) || (p_sz p <? u32 (addr + 4)) then ret None else
  let! bs := user_gets addr 4 in
  ret (Some (i32 (le_value bs))).

(** The scan of [fetchstr] over the [n] bytes below [proc->sz]: the string
    before the NUL. *)
Fixpoint fetchstr_loop (n : nat) (s : Z) : K (option (list Z)) :=
  match n with
  | O => ret None
  | S n' =>
      let! b := user_get s in
      if b =? 0 then ret (Some []) else
      let! r := fetchstr_loop n' (s + 1) in
      ret (cons b <$> r)
  end.

Definition fetchstr (addr : Z) : K (option (list Z)) :=
  let! p := myproc in
  if p_sz p <=? addr then ret None else
  fetchstr_loop (Z.to_nat (p_sz p - addr)) addr.

Definition argint (n : Z) : K (option Z) :=
  let! p := myproc in
  fetchint (u32 (tf_esp (p_tf p) + 4 + 4 * n)).

Definition argptr (n size : Z) : K (option Z) :=
  let! r := argint n in
  match r with
  | None => ret None
  | Some i =>
      let! p := myproc in
      if (p_sz p <=? u32 i) || (p_sz p <? u32 (u32 i + size)) then ret None
      else ret (Some (u32 i))
  end.

Definition argstr (n : Z) : K (option (list Z)) :=
  let! r := argint n in
  match r with
  | None => ret None
  | Some addr => fetchstr (u32 addr)
  end.

(** [argint(n1, ..) < 0 || argint(n2, ..) < 0 || ..] *)
Fixpoint argints (ns : list Z) : K (option (list Z)) :=
  match ns with
  | [] => ret (Some [])
  | n :: ns' =>
      let! r := argint n in
      match r with
      | None => ret None
      | Some v => let! rest := argints ns' in ret (cons v <$> rest)
      end
  end.

(** ** sysproc.c *)
Definition sys_fork : K Z := fork.

Definition sys_exit : K Z := do exit; ret 0.

Definition sys_wait : K Z := wait.

Definition sys_kill : K Z :=
  let! r := argint 0 in
  match r with
  | None => ret (-1)
  | Some pid => kill pid
  end.

Definition sys_getpid : K Z := getpid.

Definition sys_sbrk : K Z :=
  let! r := argint 0 in
  match r with
  | None => ret (-1)
  | Some n =>
      let! p := myproc in
      let addr := i32 (p_sz p) in
      let! r := growproc n in
      if r <? 0 then ret (-1) else ret addr
  end.

Fixpoint sleep_loop (fuel : nat) (ticks0 n : Z) : K Z :=
  let! now := gets ticks in
  if u32 (now - ticks0) <? u32 n then
    let! p := myproc in
    if p_killed p then
      do release TicksLock;
      ret (-1)
    else
      do sleep ChTicks TicksLock;
      match fuel with O => hang | S f => sleep_loop f ticks0 n end
  else
    do release TicksLock;
    ret 0.

Definition sys_sleep : K Z :=
  let! r := argint 0 in
  match r with
  | None => ret (-1)
  | Some n =>
      do acquire TicksLock;
      let! ticks0 := gets ticks in
      let! k := pending in
      sleep_loop k ticks0 n
  end.

Definition sys_uptime : K Z :=
  do acquire TicksLock;
  let! xticks := gets ticks in
  do release TicksLock;
  ret (i32 xticks).

(** The port write that stops the machine has no effect on the state. *)
Definition sys_halt : K Z := ret 0.

Definition sys_thread_create : K Z :=
  let! r := argints [0; 1; 2; 3] in
  match r with
  | Some [function; priority; arg; stack] =>
      thread_create (u32 function) priority (u32 arg) (u32 stack)
  | _ => ret (-1)
  end.

Definition sys_thread_exit : K Z :=
  let! r := argint 0 in
  match r with
  | None => ret (-1)
  | Some retval => do thread_exit (u32 retval); ret 0
  end.

Definition sys_thread_join : K Z :=
  let! r := argints [0; 1] in
  match r with
  | Some [tid; retval] => thread_join tid (u32 retval)
  | _ => ret (-1)
  end.

Definition sys_gettid : K Z := gettid.

Definition sys_clone : K Z :=
  let! r := argints [0; 1; 2] in
  match r with
  | Some [function; arg; stack] => clone (u32 function) (u32 arg) (u32 stack)
  | _ => ret (-1)
  end.

(** ** sysfile.c *)

(** The descriptor and the file. *)
Definition argfd (n : Z) : K (option (nat * nat)) :=
  let! r := argint n in
  match r with
  | None => ret None
  | Some fd =>
      if (fd <? 0) || (Z.of_nat NOFILE <=? fd) then ret None else
      let! p := myproc in
      match p_ofile p !! Z.to_nat fd with
      | Some (Some f) => ret (Some (Z.to_nat fd, f))
      | _ => ret None
      end
  end.

(** The first free descriptor. *)
Fixpoint fd_scan {A} (ofile : list (option A)) (fd : nat) : option nat :=
  match ofile with
  | [] => None
  | None :: _ => Some fd
  | Some _ :: ofile' => fd_scan ofile' (S fd)
  end.

Definition set_ofile (fd : nat) (v : option nat) : K unit :=
  upd_myproc (fun p => set_p_ofile (<[fd := v]> (p_ofile p)) p).

Definition fdalloc (f : nat) : K (option nat) :=
  let! p := myproc in
  match fd_scan (p_ofile p) 0 with
  | Some fd => do set_ofile fd (Some f); ret (Some fd)
  | None => ret None
  end.

Definition sys_dup : K Z :=
  let! r := argfd 0 in
  match r with
  | None => ret (-1)
  | Some (_, f) =>
      let! r := fdalloc f in
      match r with
      | None => ret (-1)
      | Some fd => do filedup f; ret (Z.of_nat fd)
      end
  end.

(** The arguments of [sys_read] and [sys_write]: file, address, length. *)
Definition io_args : K (option (nat * Z * Z)) :=
  let! a := argfd 0 in
  match a with
  | None => ret None
  | Some (_, f) =>
      let! b := argint 2 in
      match b with
      | None => ret None
      | Some n =>
          let! c := argptr 1 n in
          match c with
          | None => ret None
          | Some p => ret (Some (f, p, n))
          end
      end
  end.

Definition sys_read : K Z :=
  let! a := io_args in
  match a with
  | None => ret (-1)
  | Some (f, p, n) =>
      let! ' (r, bytes) := fileread f n in
      do user_puts p bytes;
      ret r
  end.

Definition sys_write : K Z :=
  let! a := io_args in
  match a with
  | None =>
      do cprintf (lit "this is a problem" ++ [nl]) [];
      ret (-1)
  | Some (f, p, n) =>
      let! bytes := user_gets p (Z.to_nat n) in
      filewrite f bytes n
  end.

Definition sys_close : K Z :=
  let! r := argfd 0 in
  match r with
  | None => ret (-1)
  | Some (fd, f) =>
      do set_ofile fd None;
      do fileclose f;
      ret 0
  end.

(** The stores of [stati] through the user pointer [p]. *)
Definition put_stat (p : Z) (st : stat) : K unit :=
  do user_puts (u32 (p + 4)) (le_bytes 4 (st_dev st));
  do user_puts (u32 (p + 8)) (le_bytes 4 (st_ino st));
  do user_puts p (le_bytes 2 (st_type st));
  do user_puts (u32 (p + 12)) (le_bytes 2 (st_nlink st));
  user_puts (u32 (p + 16)) (le_bytes 4 (st_size st)).

Definition sys_fstat : K Z :=
  let! a := argfd 0 in
  match a with
  | None => ret (-1)
  | Some (_, f) =>
      let! b := argptr 1 STAT in
      match b with
      | None => ret (-1)
      | Some p =>
          let! ' (r, st) := filestat f in
          do match st with Some st => put_stat p st | None => ret tt end;
          ret r
      end
  end.

(** The label [bad] of [sys_link]. *)
Definition link_bad (ip : nat) : K Z :=
  do ilock ip;
  do upd_inode ip (fun i => set_i_nlink (i16 (i_nlink i - 1)) i);
  do iupdate ip;
  do iunlockput ip;
  do end_op;
  ret (-1).

(** [char name[DIRSIZ]] *)
Definition name_buf : list Z := replicate DIRSIZ 0.

Definition sys_link : K Z :=
  let! a := argstr 0 in
  match a with
  | None => ret (-1)
  | Some old =>
      let! b := argstr 1 in
      match b with
      | None => ret (-1)
      | Some new =>
          do begin_op;
          let! r := namei old in
          match r with
          | None => do end_op; ret (-1)
          | Some ip =>
              do ilock ip;
              let! i := inode_at ip in
              if i_type i =? T_DIR then
                do iunlockput ip;
                do end_op;
                ret (-1)
              else
                do upd_inode ip (fun i => set_i_nlink (i16 (i_nlink i + 1)) i);
                do iupdate ip;
                do iunlock ip;
                let! ' (r, name) := nameiparent new name_buf in
                match r with
                | None => link_bad ip
                | Some dp =>
                    do ilock dp;
                    let! d := inode_at dp in
                    let! i := inode_at ip in
                    let! bad :=
                      (if negb (i_dev d =? i_dev i) then ret true else
                       let! r := dirlink dp name (i_inum i) in ret (r <? 0)) in
                    if bad then
                      do iunlockput dp;
                      link_bad ip
                    else
                      do iunlockput dp;
                      do iput ip;
                      do end_op;
                      ret 0
                end
          end
      end
  end.

(** The loop of [isdirempty]; at most one pass per 16 bytes. *)
Fixpoint isdirempty_loop (fuel dp : nat) (off : Z) : K bool :=
  let! d := inode_at dp in
  if negb (off <? i_size d) then ret true else
  let! ' (n, de) := readi dp off DIRENT in
  if negb (n =? DIRENT) then panic "isdirempty: readi" else
  if negb (de_inum de =? 0) then ret false else
  match fuel with O => hang | S f => isdirempty_loop f dp (off + DIRENT) end.

Definition isdirempty (dp : nat) : K bool :=
  let! d := inode_at dp in
  isdirempty_loop (Z.to_nat (i_size d)) dp (2 * DIRENT).

Definition unlink_bad (dp : nat) : K Z :=
  do iunlockput dp;
  do end_op;
  ret (-1).

(** [sys_unlink] once the entry for [ip] is found at [off] in [dp]. *)
Definition unlink_entry (dp ip : nat) (off : Z) : K Z :=
  do ilock ip;
  let! i := inode_at ip in
  if i_nlink i <? 1 then panic "unlink: nlink < 1" else
  let! full :=
    (if i_type i =? T_DIR then let! e := isdirempty ip in ret (negb e) else ret false) in
  if full then
    do iunlockput ip;
    unlink_bad dp
  else
    let! n := writei dp (replicate 16 0) off DIRENT in
    if negb (n =? DIRENT) then panic "unlink: writei" else
    let! i := inode_at ip in
    do when (i_type i =? T_DIR)
      (do upd_inode dp (fun d => set_i_nlink (i16 (i_nlink d - 1)) d);
       iupdate dp);
    do iunlockput dp;
    do upd_inode ip (fun i => set_i_nlink (i16 (i_nlink i - 1)) i);
    do iupdate ip;
    do iunlockput ip;
    do end_op;
    ret 0.

Definition sys_unlink : K Z :=
  let! a := argstr 0 in
  match a with
  | None => ret (-1)
  | Some path =>
      do begin_op;
      let! ' (r, name) := nameiparent path name_buf in
      match r with
      | None => do end_op; ret (-1)
      | Some dp =>
          do ilock dp;
          if (namecmp name (lit ".") =? 0) || (namecmp name (lit "..") =? 0)
          then unlink_bad dp else
          let! r := dirlookup dp name in
          match r with
          | None => unlink_bad dp
          | Some (ip, off) => unlink_entry dp ip off
          end
      end
  end.

(** The part of [create] that makes the new inode. *)
Definition create_new (dp : nat) (name : list Z) (type major minor : Z) : K nat :=
  let! d := inode_at dp in
  let! ip := ialloc (i_dev d) type in
  do ilock ip;
  do upd_inode ip (fun i => set_i_nlink 1 (set_i_minor (i16 minor) (set_i_major (i16 major) i)));
  do iupdate ip;
  do when (type =? T_DIR)
    (do upd_inode dp (fun d => set_i_nlink (i16 (i_nlink d + 1)) d);
     do iupdate dp;
     let! i := inode_at ip in
     let! r := dirlink ip (lit ".") (i_inum i) in
     if r <? 0 then panic "create dots" else
     let! d := inode_at dp in
     let! r := dirlink ip (lit "..") (i_inum d) in
     if r <? 0 then panic "create dots" else ret tt);
  let! i := inode_at ip in
  let! r := dirlink dp name (i_inum i) in
  if r <? 0 then panic "create: dirlink" else
  do iunlockput dp;
  ret ip.

Definition create (path : list Z) (type major minor : Z) : K (option nat) :=
  let! ' (r, name) := nameiparent path name_buf in
  match r with
  | None => ret None
  | Some dp =>
      do ilock dp;
      let! r := dirlookup dp name in
      match r with
      | Some (ip, _) =>
          do iunlockput dp;
          do ilock ip;
          let! i := inode_at ip in
          if (type =? T_FILE) && (i_type i =? T_FILE) then ret (Some ip) else
          do iunlockput ip;
          ret None
      | None =>
          let! ip := create_new dp name type major minor in
          ret (Some ip)
      end
  end.

(** The inode to open, locked, or [None] after [end_op]. *)
Definition open_inode (path : list Z) (omode : Z) : K (option nat) :=
  if negb (Z.land omode O_CREATE =? 0) then
    let! r := create path T_FILE 0 0 in
    match r with
    | None => do end_op; ret None
    | Some ip => ret (Some ip)
    end
  else
    let! r := namei path in
    match r with
    | None => do end_op; ret None
    | Some ip =>
        do ilock ip;
        let! i := inode_at ip in
        if (i_type i =? T_DIR) && negb (omode =? O_RDONLY) then
          do iunlockput ip;
          do end_op;
          ret None
        else ret (Some ip)
    end.

(** [(f = filealloc()) == 0 || (fd = fdalloc(f)) < 0], closing [f] on failure. *)
Definition open_file : K (option (nat * nat)) :=
  let! r := filealloc in
  match r with
  | None => ret None
  | Some f =>
      let! r := fdalloc f in
      match r with
      | None => do fileclose f; ret None
      | Some fd => ret (Some (f, fd))
      end
  end.

Definition sys_open : K Z :=
  let! a := argstr 0 in
  match a with
  | None => ret (-1)
  | Some path =>
      let! b := argint 1 in
      match b with
      | None => ret (-1)
      | Some omode =>
          do begin_op;
          let! r := open_inode path omode in
          match r with
          | None => ret (-1)
          | Some ip =>
              let! r := open_file in
              match r with
              | None =>
                  do iunlockput ip;
                  do end_op;
                  ret (-1)
              | Some (f, fd) =>
                  do iunlock ip;
                  do end_op;
                  let wr := negb (Z.land omode O_WRONLY =? 0) in
                  do upd_file f (fun ff =>
                       mkFile FD_INODE (f_ref ff) (negb wr)
                         (wr || negb (Z.land omode O_RDWR =? 0)) (f_pipe ff) ip 0);
                  ret (Z.of_nat fd)
              end
          end
      end
  end.

Definition sys_mkdir : K Z :=
  do begin_op;
  let! a := argstr 0 in
  let! r := match a with
            | None => ret None
            | Some path => create path T_DIR 0 0
            end in
  match r with
  | None => do end_op; ret (-1)
  | Some ip =>
      do iunlockput ip;
      do end_op;
      ret 0
  end.

Definition sys_mknod : K Z :=
  do begin_op;
  let! a := argstr 0 in
  let! b := match a with Some _ => argints [1; 2] | None => ret None end in
  let! r := match a, b with
            | Some path, Some [major; minor] =>
                create path T_DEV (i16 major) (i16 minor)
            | _, _ => ret None
            end in
  match r with
  | None => do end_op; ret (-1)
  | Some ip =>
      do iunlockput ip;
      do end_op;
      ret 0
  end.

Definition sys_chdir : K Z :=
  do begin_op;
  let! a := argstr 0 in
  let! r := match a with None => ret None | Some path => namei path end in
  match r with
  | None => do end_op; ret (-1)
  | Some ip =>
      do ilock ip;
      let! i := inode_at ip in
      if negb (i_type i =? T_DIR) then
        do iunlockput ip;
        do end_op;
        ret (-1)
      else
        do iunlock ip;
        let! p := myproc in
        let! cwd := deref "proc->cwd" (p_cwd p) in
        do iput cwd;
        do end_op;
        do upd_myproc (set_p_cwd (Some ip));
        ret 0
  end.

(** The loop of [sys_exec]: the arguments from [uargv + 4*i], of which [argv]
    has room for [n] more. *)
Fixpoint exec_args (n : nat) (uargv i : Z) : K (option (list (list Z))) :=
  match n with
  | O => ret None
  | S n' =>
      let! r := fetchint (u32 (uargv + 4 * i)) in
      match r with
      | None => ret None
      | Some uarg =>
          if uarg =? 0 then ret (Some []) else
          let! s := fetchstr (u32 uarg) in
          match s with
          | None => ret None
          | Some a =>
              let! rest := exec_args n' uargv (i + 1) in
              ret (cons a <$> rest)
          end
      end
  end.

Definition sys_exec : K Z :=
  let! a := argstr 0 in
  match a with
  | None => ret (-1)
  | Some path =>
      let! b := argint 1 in
      match b with
      | None => ret (-1)
      | Some uargv =>
          let! r := exec_args MAXARG (u32 uargv) 0 in
          match r with
          | None => ret (-1)
          | Some argv => exec path argv
          end
      end
  end.

Definition sys_pipe : K Z :=
  let! a := argptr 0 8 in
  match a with
  | None => ret (-1)
  | Some fd =>
      let! r := pipealloc in
      match r with
      | None => ret (-1)
      | Some (rf, wf) =>
          let! fd0 := fdalloc rf in
          let! fd1 := match fd0 with Some _ => fdalloc wf | None => ret None end in
          match fd0, fd1 with
          | Some fd0, Some fd1 =>
              do user_store fd (Z.of_nat fd0);
              do user_store (u32 (fd + 4)) (Z.of_nat fd1);
              ret 0
          | _, _ =>
              do match fd0 with Some fd0 => set_ofile fd0 None | None => ret tt end;
              do fileclose rf;
              do fileclose wf;
              ret (-1)
          end
      end
  end.

(** ** The system call table *)
Definition syscalls (num : Z) : option (K Z) :=
  match num with
  | 1 => Some sys_fork | 2 => Some sys_exit | 3 => Some sys_wait
  | 4 => Some sys_pipe | 5 => Some sys_read | 6 => Some sys_kill
  | 7 => Some sys_exec | 8 => Some sys_fstat | 9 => Some sys_chdir
  | 10 => Some sys_dup | 11 => Some sys_getpid | 12 => Some sys_sbrk
  | 13 => Some sys_sleep | 14 => Some sys_uptime | 15 => Some sys_open
  | 16 => Some sys_write | 17 => Some sys_mknod | 18 => Some sys_unlink
  | 19 => Some sys_link | 20 => Some sys_mkdir | 21 => Some sys_close
  | 22 => Some sys_halt | 23 => Some sys_thread_create
  | 24 => Some sys_thread_exit | 25 => Some sys_thread_join
  | 26 => Some sys_gettid | 27 => Some sys_clone
  | _ => None
  end.

Definition set_eax (v : Z) : K unit :=
  upd_myproc (fun p => set_p_tf (set_tf_eax (u32 v) (p_tf p)) p).

Definition syscall : K unit :=
  let! p := myproc in
  let num := i32 (tf_eax (p_tf p)) in
  match syscalls num with
  | Some f =>
      let! r := f in
      set_eax r
  | None =>
      do cprintf (lit "%d %s: unknown sys call %d" ++ [nl])
           [AInt (p_pid p); AStr (Some (p_name p)); AInt num];
      set_eax (-1)
  end.
End Syscall.
