(* ===== verification/Trap.v ===== *)
(** * Traps: trap.c

    The dispatch of system calls, interrupts and faults.  The interrupt
    descriptor table is in [Segment], the interrupt controllers are in [Hw]. *)

From S2P Require Import Prelude Bytes Cstring Kstate Sync Kalloc Pipe Disk Bio Log Fs File Vm Dir Console Kbd Proc Exec Syscall.
Import Str.
Local Open Scope Z_scope.

(** ** traps.h *)
Definition T_SYSCALL : Z := 64.
Definition T_IRQ0 : Z := 32.
Definition IRQ_TIMER : Z := 0.
Definition IRQ_KBD : Z := 1.
Definition IRQ_COM1 : Z := 4.
Definition IRQ_IDE : Z := 14.
Definition IRQ_SPURIOUS : Z := 31.

(** What the hardware supplies to a trap: the CPU, the fault address, the
    bytes in the keyboard controller and on the serial line, and the return
    addresses on the processes' stacks. *)
Record trap_env := mkEnv {
  te_cpu : Z;
  te_cr2 : Z;
  te_kbd : list Z;
  te_uart : list Z;
  te_pcs : nat -> list Z
}.

Section Trap.
Context {Lay : Layout} {Dev : BlockDev} {Sw : DevSw}.

Definition user_mode (tf : trapframe) : bool := Z.land (tf_cs tf) 3 =? DPL_USER.

Definition clock_tick : K unit :=
  do acquire TicksLock;
  do modify (fun s => set_ticks (u32 (ticks s + 1)) s);
  do wakeup ChTicks;
  release TicksLock.

(** The default case. *)
Definition trap_fault (env : trap_env) (tf : trapframe) : K unit :=
  let! c := gets curproc in
  if bool_decide (c = None) || (Z.land (tf_cs tf) 3 =? 0) then
    do cprintf (lit "unexpected trap %d from cpu %d eip %x (cr2=0x%x)" ++ [nl])
         [AInt (tf_trapno tf); AInt (te_cpu env); AInt (tf_eip tf); AInt (te_cr2 env)];
    panic "trap"
  else
    let! p := myproc in
    do cprintf (lit "pid %d %s: trap %d err %d on cpu %d eip 0x%x addr 0x%x--kill proc" ++ [nl])
         [AInt (p_pid p); AStr (Some (p_name p)); AInt (tf_trapno tf);
          AInt (tf_err tf); AInt (te_cpu env); AInt (tf_eip tf); AInt (te_cr2 env)];
    upd_myproc (set_p_killed true).

(** The switch on the trap number.  The call of [lapiceoi] at the end of the
    cases of interrupts is in [Hw.trap_switch]. *)
Definition trap_dispatch (env : trap_env) (tf : trapframe) : K unit :=
  let n := tf_trapno tf in
  if n =? T_IRQ0 + IRQ_TIMER then when (te_cpu env =? 0) clock_tick
  else if n =? T_IRQ0 + IRQ_IDE then ideintr
  else if n =? T_IRQ0 + IRQ_IDE + 1 then ret tt
  else if n =? T_IRQ0 + IRQ_KBD then kbdintr (te_pcs env) (te_kbd env)
  else if n =? T_IRQ0 + IRQ_COM1 then uartintr (te_pcs env) (te_uart env)
  else if (n =? T_IRQ0 + 7) || (n =? T_IRQ0 + IRQ_SPURIOUS) then
    cprintf (lit "cpu%d: spurious interrupt at %x:%x" ++ [nl])
      [AInt (te_cpu env); AInt (tf_cs tf); AInt (tf_eip tf)]
  else trap_fault env tf.

(** [if(proc && proc->killed && (tf->cs&3) == DPL_USER) exit();] *)
Definition exit_if_killed (tf : trapframe) : K unit :=
  let! c := gets curproc in
  match c with
  | None => ret tt
  | Some _ => let! p := myproc in when (p_killed p && user_mode tf) exit
  end.

Definition trap (env : trap_env) (tf : trapframe) : K unit :=
  if tf_trapno tf =? T_SYSCALL then
    let! p := myproc in
    do when (p_killed p) exit;
    do upd_myproc (set_p_tf tf);
    do syscall;
    let! p := myproc in
    when (p_killed p) exit
  else
    do trap_dispatch env tf;
    do exit_if_killed tf;
    let! c := gets curproc in
    do match c with
       | None => ret tt
       | Some _ =>
           let! p := myproc in
           when (bool_decide (p_state p = RUNNING) && (tf_trapno tf =? T_IRQ0 + IRQ_TIMER))
             yield
       end;
    exit_if_killed tf.
End Trap.
