(* ===== verification/Typed.v ===== *)
(** * Types of the kernel state

    C gives every table of the kernel a fixed size and every pointer a table to
    point into; the model keeps tables as lists and pointers as indices, and an
    access outside a table is a [Fault].  [well_typed] says that the tables of a
    kernel state have the sizes and the pointers the ranges of their C types.
    [typed m Q] says that [m], started in such a state, with other processes
    keeping the state so while [m] sleeps, ends in such a state with a result
    that satisfies [Q], and never goes outside a table.  The lemmas here cover the
    code below processes; [Kernel] covers the rest and the kernel as a whole. *)

From S2P Require Import Prelude Bytes Cstring Kstate Sync Kalloc Pipe Disk Bio Log Fs File Console Vm Kbd.
Import Str.
Local Open Scope Z_scope.

(** ** Well-typed states *)
Definition NCRT : nat := 2000.

(** An index into a table of [n] entries, or null. *)
Definition index (n : nat) (i : nat) : Prop := (i < n)%nat.
Definition null_or {A} (P : A -> Prop) (o : option A) : Prop := match o with Some a => P a | None => True end.

Record wt_proc (p : proc) : Prop := {
  wp_ofile : length (p_ofile p) = NOFILE /\ Forall (null_or (index NFILE)) (p_ofile p);
  wp_cwd : null_or (index NINODE) (p_cwd p);
  wp_parent : null_or (index NPROC) (p_parent p)
}.

Record wt_buf (b : buf) : Prop := {
  wb_prev : index (S NBUF) (b_prev b);
  wb_next : index (S NBUF) (b_next b);
  wb_data : length (b_data b) = 512%nat
}.

Definition wt_inode (ip : inode) : Prop := length (i_addrs ip) = 13%nat.
Definition wt_file (f : file) : Prop := index NINODE (f_ip f).
Definition wt_pipe (pi : pipe) : Prop := length (pi_data pi) = 512%nat.

Record well_typed (s : kstate) : Prop := {
  wt_ptable : length (ptable s) = NPROC /\ Forall wt_proc (ptable s);
  wt_curproc : null_or (index NPROC) (curproc s);
  wt_initproc : null_or (index NPROC) (initproc s);
  wt_bufs : length (bufs s) = S NBUF /\ Forall wt_buf (bufs s);
  wt_disk : map_Forall (fun _ d => length d = 512%nat) (d_blocks (disk s));
  wt_log : length (l_block (klog s)) = Z.to_nat LOGSIZE;
  wt_icache : length (icache s) = NINODE /\ Forall wt_inode (icache s);
  wt_ftable : length (ftable s) = NFILE /\ Forall wt_file (ftable s);
  wt_pipes : map_Forall (fun _ pi => wt_pipe pi) (pipes s);
  wt_input : length (in_buf (input s)) = 128%nat;
  wt_crt : length (cn_crt (console s)) = NCRT
}.

(** ** The judgement *)
Definition table_fault (why : string) : Prop :=
  why ∈ ["ptable.proc"; "bcache.buf"; "icache.inode"; "struct file"]%string.

Definition keeps_types (f : kstate -> kstate) : Prop := forall s, well_typed s -> well_typed (f s).

(** The state a run ends or stops in. *)
Definition final {A} (o : outcome kstate A) : kstate :=
  match o with Ok _ s _ => s | Panic _ s => s | Fault _ s => s | Blocked s => s | Hang s => s end.

Definition typed_outcome {A} (Q : A -> Prop) (o : outcome kstate A) : Prop :=
  well_typed (final o) /\
  match o with
  | Ok a _ e => Q a /\ Forall keeps_types e
  | Fault why _ => ~ table_fault why
  | _ => True
  end.

Definition typed {A} (m : K A) (Q : A -> Prop) : Prop :=
  forall s e, well_typed s -> Forall keeps_types e -> typed_outcome Q (m s e).

Definition any {A} (_ : A) : Prop := True.

Lemma typed_ret {A} (a : A) (Q : A -> Prop) : Q a -> typed (ret a) Q.
Proof. by intros H s e Hs He. Qed.

Lemma typed_bind {A B} (m : K A) (k : A -> K B) (P : A -> Prop) (Q : B -> Prop) :
  typed m P -> (forall a, P a -> typed (k a) Q) -> typed (bind m k) Q.
Proof.
  intros Hm Hk s e Hs He. unfold bind. destruct (Hm s e Hs He) as [H1 H2]. destruct (m s e); try done. destruct H2. by apply Hk.
Qed.

Lemma typed_mono {A} (m : K A) (P Q : A -> Prop) : typed m P -> (forall a, P a -> Q a) -> typed m Q.
Proof. intros Hm H s e Hs He. destruct (Hm s e Hs He) as [H1 H2]. split; [done|]. destruct (m s e); try done. destruct H2. auto. Qed.

Lemma typed_any {A} (m : K A) (P : A -> Prop) : typed m P -> typed m any.
Proof. intros H. by apply (typed_mono m P any). Qed.

Lemma typed_gets {A} (f : kstate -> A) (Q : A -> Prop) : (forall s, well_typed s -> Q (f s)) -> typed (gets f) Q.
Proof. intros H s e Hs He. split; [done|]. split; [by apply H|done]. Qed.

Lemma typed_modify (f : kstate -> kstate) (Q : unit -> Prop) : keeps_types f -> Q tt -> typed (modify f) Q.
Proof. intros H HQ s e Hs He. split; [by apply H|done]. Qed.

Lemma typed_panic {A} msg (Q : A -> Prop) : typed (panic msg) Q.
Proof. by intros s e Hs He. Qed.

Lemma typed_hang {A} (Q : A -> Prop) : typed hang Q.
Proof. by intros s e Hs He. Qed.

Lemma typed_fault {A} why (Q : A -> Prop) : ~ table_fault why -> typed (fault why) Q.
Proof. by intros H s e Hs He. Qed.

Lemma typed_pending : typed pending any.
Proof. intros s e Hs He. by split. Qed.

Lemma typed_deref {A} why (o : option A) (Q : A -> Prop) : null_or Q o -> ~ table_fault why -> typed (deref why o) Q.
Proof. intros H Hw. destruct o as [a|]; [by apply typed_ret|by apply typed_fault]. Qed.

Lemma typed_when b m : (b = true -> typed m any) -> typed (when b m) any.
Proof. intros H. destruct b; [by apply H|by apply typed_ret]. Qed.

Lemma typed_mfor n : forall lo body, (forall i, (lo <= i < lo + n)%nat -> typed (body i) any) -> typed (mfor n lo body) any.
Proof.
  induction n as [|n IH]; intros lo body H; cbn [mfor]; [by apply typed_ret|]. eapply typed_bind; [apply H; lia|].
  intros _ _. apply IH. intros i Hi. apply H. lia.
Qed.

(** A table access: the index is in range. *)
Lemma typed_table {A} (t : kstate -> list A) why n i (Q : A -> Prop) : (forall s, well_typed s -> length (t s) = n /\ Forall Q (t s)) -> index n i ->
  typed (let! l := gets t in deref why (l !! i)) Q.
Proof.
  intros H Hi s e Hs He. unfold bind, gets. destruct (H s Hs) as [Hl Hall]. unfold index in Hi. destruct (lookup_lt_is_Some_2 (t s) i ltac:(lia)) as [a Ha].
  rewrite Ha. cbn. split; [done|]. split; [by eapply (proj1 (Forall_lookup _ _) Hall)|done].
Qed.

(** An access to a map: what is found has the type of the map. *)
Lemma null_or_map {A} (m : gmap Z A) (Q : A -> Prop) k : map_Forall (fun _ => Q) m -> null_or Q (m !! k).
Proof. intros H. destruct (m !! k) as [a|] eqn:E; [exact (H k a E)|done]. Qed.
Lemma typed_map {A} (t : kstate -> gmap Z A) why k (Q : A -> Prop) : (forall s, well_typed s -> map_Forall (fun _ => Q) (t s)) -> ~ table_fault why ->
  typed (let! m := gets t in deref why (m !! k)) Q.
Proof. intros H Hw. eapply typed_bind; [by apply typed_gets, H|]. intros m Hm. apply typed_deref; [by apply null_or_map|done]. Qed.

Lemma not_table_fault why : bool_decide (table_fault why) = false -> ~ table_fault why.
Proof. intros H. by apply bool_decide_eq_false in H. Qed.

(** ** Automation

    [tk] follows the code: it splits sequencing and case distinctions, uses the
    lemmas of the hint database [typed] for the calls, and leaves what is
    particular to the code. *)
Create HintDb typed discriminated.
#[export] Hint Constants Opaque : typed.
Create Rewrite HintDb wt.
#[export] Hint Rewrite splice_length put32_length put16_length @length_insert @length_replicate @length_fmap @length_seq : wt.

Ltac wt_rec := let H := fresh in intros ? H; first [solve [eauto with typed] | destruct H; constructor; cbn in *; autorewrite with wt in *; eauto with typed].
#[export] Hint Extern 0 (any _) => exact I : typed.
#[export] Hint Extern 0 (null_or _ (Some _)) => unfold null_or : typed.
#[export] Hint Extern 0 (null_or _ None) => exact I : typed.
#[export] Hint Extern 1 (~ table_fault _) => apply not_table_fault; vm_compute; reflexivity : typed.
#[export] Hint Extern 5 (index _ _) => solve [unfold index; lia | vm_compute; lia] : typed.
#[export] Hint Resolve typed_panic typed_hang typed_fault : typed.
#[export] Hint Resolve wp_cwd wp_parent wb_prev wb_next wb_data : typed.

Lemma typed_modify_any (f : kstate -> kstate) : keeps_types f -> typed (modify f) any.
Proof. intros H. by apply typed_modify. Qed.

Lemma typed_gets_any {A} (f : kstate -> A) : typed (gets f) any.
Proof. by apply typed_gets. Qed.
#[export] Hint Resolve typed_gets_any | 20 : typed.

Lemma typed_ptable : typed (gets ptable) (fun t => length t = NPROC /\ Forall wt_proc t).
Proof. apply typed_gets, wt_ptable. Qed.
Lemma typed_icache : typed (gets icache) (fun t => length t = NINODE /\ Forall wt_inode t).
Proof. apply typed_gets, wt_icache. Qed.
Lemma typed_ftable : typed (gets ftable) (fun t => length t = NFILE /\ Forall wt_file t).
Proof. apply typed_gets, wt_ftable. Qed.
Lemma typed_curproc : typed (gets curproc) (null_or (index NPROC)).
Proof. apply typed_gets, wt_curproc. Qed.
Lemma typed_initproc : typed (gets initproc) (null_or (index NPROC)).
Proof. apply typed_gets, wt_initproc. Qed.
#[export] Hint Resolve typed_ptable typed_icache typed_ftable typed_curproc typed_initproc typed_pending : typed.

Ltac tsimp := repeat match goal with
  | H : any _ |- _ => clear H
  | H : null_or _ (Some _) |- _ => cbn in H
  | H : null_or _ None |- _ => clear H
  | H : (fun _ => _) _ |- _ => progress cbv beta in H
  | H : prod _ _ |- _ => destruct H
  | H : context [fst (_, _)] |- _ => progress cbn [fst snd] in H
  | H : _ /\ _ |- _ => destruct H
  end.

Ltac tcall := first [solve [eauto with typed] | eapply typed_any; solve [eauto with typed]].

Ltac tk1 :=
  match goal with
  | |- typed (bind _ _) _ => first [eapply typed_bind; [solve [eauto with typed]|intros ? ?; tsimp] | apply (typed_bind _ _ any); [|intros ? ?; tsimp]]
  | |- typed (ret _) any => apply typed_ret; exact I
  | |- typed (ret _) _ => apply typed_ret; cbn [fst snd]
  | |- typed (when _ _) _ => apply typed_when; intros ?
  | |- typed (mfor _ _ _) _ => apply typed_mfor; intros ? ?
  | |- typed (deref _ _) _ => apply typed_deref
  | |- typed (modify _) _ => apply typed_modify_any; first [solve [eauto with typed]|wt_rec]
  | |- typed (if ?b then _ else _) _ => destruct b eqn:?
  | |- typed (match ?x with _ => _ end) _ => destruct x eqn:?; tsimp
  | |- typed (let '(_, _) := ?x in _) _ => destruct x eqn:?
  end.
Ltac tk := repeat first [progress cbv zeta | tcall | tk1]; eauto with typed.

#[export] Hint Extern 1 (typed (deref _ ?o) _) =>
  match goal with H : null_or ?P o |- _ => apply (typed_deref _ _ P H) end : typed.

(** ** Synchronisation *)
Lemma typed_holding l : typed (holding l) any.
Proof. apply typed_gets_any. Qed.
#[export] Hint Resolve typed_holding : typed.
Lemma typed_acquire l : typed (acquire l) any.
Proof. unfold acquire. tk. Qed.
Lemma typed_release l : typed (release l) any.
Proof. unfold release. tk. Qed.
#[export] Hint Resolve typed_acquire typed_release : typed.

Lemma typed_proc_at i : index NPROC i -> typed (proc_at i) wt_proc.
Proof. apply typed_table. apply wt_ptable. Qed.
#[export] Hint Resolve typed_proc_at : typed.

Lemma keeps_ptable i p s : well_typed s -> wt_proc p -> well_typed (set_ptable (<[i := p]> (ptable s)) s).
Proof.
  intros [] H. constructor; cbn; try done. rewrite length_insert. split; [easy|]. apply Forall_insert; [apply wt_ptable0|done].
Qed.
#[export] Hint Resolve keeps_ptable : typed.

Lemma typed_upd_proc i f : index NPROC i -> (forall p, wt_proc p -> wt_proc (f p)) -> typed (upd_proc i f) any.
Proof. intros Hi H. unfold upd_proc. eapply typed_bind; [by apply typed_proc_at|]. intros p Hp. apply typed_modify; [|done]. intros s Hs. auto with typed. Qed.
#[export] Hint Extern 1 (typed (upd_proc _ _) _) => apply typed_upd_proc; [solve [eauto with typed]|wt_rec] : typed.

Lemma typed_curproc_idx : typed curproc_idx (index NPROC).
Proof. unfold curproc_idx. tk. Qed.
#[export] Hint Resolve typed_curproc_idx : typed.
Lemma typed_myproc : typed myproc wt_proc.
Proof. unfold myproc. tk. Qed.
Lemma typed_deref_cwd p : wt_proc p -> typed (deref "proc->cwd" (p_cwd p)) (index NINODE).
Proof. intros H. apply typed_deref; auto with typed. Qed.
#[export] Hint Resolve typed_deref_cwd : typed.
Lemma typed_upd_myproc f : (forall p, wt_proc p -> wt_proc (f p)) -> typed (upd_myproc f) any.
Proof. intros H. unfold upd_myproc. eapply typed_bind; [apply typed_curproc_idx|]. intros i Hi. by apply typed_upd_proc. Qed.
#[export] Hint Resolve typed_myproc : typed.
#[export] Hint Extern 1 (typed (upd_myproc _) _) => apply typed_upd_myproc; wt_rec : typed.

Lemma keeps_resumed i p s : well_typed s -> index NPROC i -> wt_proc p -> well_typed (resumed i p s).
Proof.
  intros Hs Hi Hp. assert (wt_proc (set_p_state RUNNING p)) as Hp' by (destruct Hp; by constructor).
  destruct (keeps_ptable i _ s Hs Hp'). by constructor.
Qed.

Lemma typed_swtch i : index NPROC i -> typed (swtch i) any.
Proof.
  intros Hi s e Hs He. unfold swtch. revert s Hs. induction He as [|f e Hf He IH]; intros s Hs; cbn; [done|]. specialize (Hf s Hs).
  destruct (ptable (f s) !! i) as [p|] eqn:Hp; [|by apply IH]. case_bool_decide; [|by apply IH]. cbn. split; [|by split].
  apply keeps_resumed; [done..|]. by apply (proj1 (Forall_lookup _ _) (proj2 (wt_ptable _ Hf)) i).
Qed.
#[export] Hint Resolve typed_swtch : typed.

Lemma typed_interfere : typed interfere any.
Proof. intros s e Hs He. unfold interfere. destruct He as [|f e Hf He]; cbn; [done|]. split; [by apply Hf|by split]. Qed.
Lemma typed_sched : typed sched any.
Proof. unfold sched. tk. Qed.
#[export] Hint Resolve typed_interfere typed_sched : typed.
Lemma typed_yield : typed yield any.
Proof. unfold yield. tk. Qed.

Lemma keeps_wakeup1 ch : keeps_types (fun s => set_ptable (wakeup1 ch (ptable s)) s).
Proof.
  intros s []. constructor; cbn; try done. rewrite wakeup1_length. split; [easy|]. unfold wakeup1. apply Forall_fmap.
  eapply list.Forall_impl; [apply wt_ptable0|]. intros p Hp. cbn. case_bool_decide; [|done]. destruct Hp. by constructor.
Qed.
#[export] Hint Resolve keeps_wakeup1 : typed.

Lemma typed_wakeup ch : typed (wakeup ch) any.
Proof. unfold wakeup. tk. Qed.
Lemma typed_sleep ch lk : typed (sleep ch lk) any.
Proof. unfold sleep. tk. Qed.
#[export] Hint Resolve typed_yield typed_wakeup typed_sleep : typed.

(** ** Pages and pipes *)
Section Memory.
Context {Lay : Layout}.

Lemma typed_load a : typed (load a) any.
Proof. apply typed_gets_any. Qed.
Lemma typed_store a v : typed (store a v) any.
Proof. unfold store. tk. Qed.
Lemma typed_fill_page v c : typed (fill_page v c) any.
Proof. unfold fill_page. tk. Qed.
Lemma typed_upd_kmem f : typed (upd_kmem f) any.
Proof. unfold upd_kmem. tk. Qed.
#[local] Hint Resolve typed_load typed_store typed_fill_page typed_upd_kmem : typed.
Lemma typed_if_use_lock m : typed m any -> typed (if_use_lock m) any.
Proof. intros H. unfold if_use_lock. tk. Qed.
#[local] Hint Resolve typed_if_use_lock : typed.
Lemma typed_kfree v : typed (kfree v) any.
Proof. unfold kfree. tk. Qed.
Lemma typed_kalloc : typed kalloc any.
Proof. unfold kalloc. tk. Qed.
End Memory.
#[export] Hint Resolve typed_load typed_store typed_fill_page typed_kfree typed_kalloc : typed.

Lemma keeps_pipe_insert p pi : wt_pipe pi -> keeps_types (fun s => set_pipes (<[p := pi]> (pipes s)) s).
Proof. intros H s []. constructor; cbn; try done. by apply map_Forall_insert_2. Qed.
Lemma keeps_pipe_delete p : keeps_types (fun s => set_pipes (delete p (pipes s)) s).
Proof. intros s []. constructor; cbn; try done. by apply map_Forall_delete. Qed.
#[export] Hint Resolve keeps_pipe_insert keeps_pipe_delete : typed.

Lemma typed_pipe_at p : typed (pipe_at p) wt_pipe.
Proof. apply typed_map; [apply wt_pipes|auto with typed]. Qed.
#[export] Hint Resolve typed_pipe_at : typed.
Lemma typed_upd_pipe p f : (forall pi, wt_pipe pi -> wt_pipe (f pi)) -> typed (upd_pipe p f) any.
Proof. intros H. unfold upd_pipe. tk. Qed.
#[export] Hint Extern 1 (typed (upd_pipe _ _) _) => apply typed_upd_pipe; unfold wt_pipe; intros ? ?; cbn; autorewrite with wt : typed.

Section Pipes.
Context {Lay : Layout}.
Lemma typed_pipeclose p w : typed (pipeclose p w) any.
Proof. unfold pipeclose. tk. Qed.
Lemma typed_pipewrite_loop fuel p : forall addr, typed (pipewrite_loop fuel p addr) any.
Proof. induction fuel as [|fuel IH]; intros [|c addr]; cbn [pipewrite_loop]; tk. Qed.
#[local] Hint Resolve typed_pipewrite_loop : typed.
Lemma typed_pipewrite p addr n : typed (pipewrite p addr n) any.
Proof. unfold pipewrite. tk. Qed.
Lemma typed_piperead_wait fuel p : typed (piperead_wait fuel p) any.
Proof. induction fuel as [|fuel IH]; cbn [piperead_wait]; tk. Qed.
Lemma typed_piperead_copy n p : typed (piperead_copy n p) any.
Proof. induction n as [|n IH]; cbn [piperead_copy]; tk. Qed.
#[local] Hint Resolve typed_piperead_wait typed_piperead_copy : typed.
Lemma typed_piperead p n : typed (piperead p n) any.
Proof. unfold piperead. tk. Qed.
End Pipes.
#[export] Hint Resolve typed_pipeclose typed_pipewrite typed_piperead : typed.

(** ** Buffers and the log *)
Lemma typed_buf_at b : index (S NBUF) b -> typed (buf_at b) wt_buf.
Proof. apply typed_table. apply wt_bufs. Qed.
#[export] Hint Resolve typed_buf_at : typed.

Lemma keeps_bufs b bf : wt_buf bf -> keeps_types (fun s => set_bufs (<[b := bf]> (bufs s)) s).
Proof.
  intros H s []. constructor; cbn; try done. rewrite length_insert. split; [easy|]. apply Forall_insert; [apply wt_bufs0|done].
Qed.
#[export] Hint Resolve keeps_bufs : typed.
Lemma typed_upd_buf b f : index (S NBUF) b -> (forall bf, wt_buf bf -> wt_buf (f bf)) -> typed (upd_buf b f) any.
Proof. intros Hi H. unfold upd_buf. tk. Qed.
#[export] Hint Extern 1 (typed (upd_buf _ _) _) => apply typed_upd_buf; [solve [eauto with typed]|wt_rec] : typed.

(** What a disk driver promises: transfers keep blocks whole. *)
Class TypedDev (Dev : BlockDev) : Prop := {
  typed_iderw b : index (S NBUF) b -> typed (@iderw Dev b) any;
  typed_ideintr : typed (@ideintr Dev) any
}.
#[export] Hint Resolve typed_iderw typed_ideintr : typed.

Lemma typed_memdisk_read n : typed (memdisk_read n) (fun d => length d = 512%nat).
Proof.
  eapply (typed_bind _ _ (fun k => map_Forall (fun _ d => length d = 512%nat) (d_blocks k))); [apply typed_gets, wt_disk|]. intros k Hk.
  apply typed_deref; [by apply null_or_map|auto with typed].
Qed.
Lemma typed_memdisk_write n d : length d = 512%nat -> typed (memdisk_write n d) any.
Proof. intros H. apply typed_modify_any. intros s []. constructor; cbn; try done. by apply map_Forall_insert_2. Qed.

#[export] Instance memide_typed : TypedDev memide_dev.
Proof.
  split; [|by apply typed_ret]. intros b Hb. cbn. unfold Memide.iderw.
  pose proof typed_memdisk_read. pose proof typed_memdisk_write. tk.
Qed.

Lemma typed_scan dir test fuel : (forall bf, wt_buf bf -> index (S NBUF) (dir bf)) ->
  forall b, index (S NBUF) b -> typed (scan dir test fuel b) (null_or (index (S NBUF))).
Proof. intros Hdir. induction fuel as [|fuel IH]; intros b Hb; cbn [scan]; tk. Qed.
#[export] Hint Resolve typed_scan : typed.
Lemma typed_bget_recycle dev n : typed (bget_recycle dev n) (index (S NBUF)).
Proof. unfold bget_recycle. tk. Qed.
#[export] Hint Resolve typed_bget_recycle : typed.
Lemma typed_bget_loop fuel dev n : typed (bget_loop fuel dev n) (index (S NBUF)).
Proof. induction fuel as [|fuel IH]; cbn [bget_loop]; tk. Qed.
#[export] Hint Resolve typed_bget_loop : typed.
Lemma typed_bget dev n : typed (bget dev n) (index (S NBUF)).
Proof. unfold bget. tk. Qed.
Lemma typed_brelse b : index (S NBUF) b -> typed (brelse b) any.
Proof. intros H. unfold brelse. tk. Qed.
#[export] Hint Resolve typed_bget typed_brelse : typed.
Lemma typed_binit : typed binit any.
Proof. unfold binit, binit_insert. tk. Qed.

(** Data of a block is replaced by data of the same length. *)
Lemma typed_upd_data b f : index (S NBUF) b -> (forall d, length d = 512%nat -> length (f d) = 512%nat) -> typed (upd_data b f) any.
Proof. intros Hb H. unfold upd_data. tk. Qed.
#[export] Hint Extern 1 (typed (upd_data _ _) _) => apply typed_upd_data; [solve [eauto with typed]|intros ? ?; autorewrite with wt; eauto with typed] : typed.
Lemma typed_buf_data b : index (S NBUF) b -> typed (buf_data b) (fun d => length d = 512%nat).
Proof. intros Hb. unfold buf_data. tk. Qed.
#[export] Hint Resolve typed_buf_data : typed.

Lemma typed_upd_log f : (forall g, length (l_block g) = Z.to_nat LOGSIZE -> length (l_block (f g)) = Z.to_nat LOGSIZE) -> typed (upd_log f) any.
Proof. intros H. apply typed_modify_any. intros s []. constructor; cbn; auto. Qed.
#[export] Hint Extern 1 (typed (upd_log _) _) => apply typed_upd_log; intros ? ?; cbn -[LOGSIZE Z.to_nat]; autorewrite with wt; eauto with typed : typed.
Lemma typed_lh_block i : typed (lh_block i) any.
Proof. unfold lh_block. eapply typed_bind; [tcall|]. intros g _. apply typed_deref; [by destruct (_ !! _)|]. by apply not_table_fault. Qed.
#[export] Hint Resolve typed_lh_block : typed.
Lemma typed_set_lh_block i v : typed (set_lh_block i v) any.
Proof. unfold set_lh_block. tk. Qed.
#[export] Hint Resolve typed_set_lh_block : typed.

Section Log.
Context {Dev : BlockDev} {TDev : TypedDev Dev}.
Lemma typed_bread dev n : typed (bread dev n) (index (S NBUF)).
Proof. unfold bread. tk. Qed.
Lemma typed_bwrite b : index (S NBUF) b -> typed (bwrite b) any.
Proof. intros Hb. unfold bwrite. tk. Qed.
#[local] Hint Resolve typed_bread typed_bwrite : typed.
Lemma typed_readsb dev : typed (readsb dev) any.
Proof. unfold readsb. tk. Qed.
Lemma typed_install_one k : typed (install_one k) any.
Proof. unfold install_one. tk. Qed.
Lemma typed_write_log_one k : typed (write_log_one k) any.
Proof. unfold write_log_one. tk. Qed.
#[local] Hint Resolve typed_readsb typed_install_one typed_write_log_one : typed.
Lemma typed_install_trans : typed install_trans any.
Proof. unfold install_trans. tk. Qed.
Lemma typed_read_head : typed read_head any.
Proof. unfold read_head. tk. Qed.
Lemma typed_write_head : typed write_head any.
Proof. unfold write_head. tk. Qed.
#[local] Hint Resolve typed_install_trans typed_read_head typed_write_head : typed.
Lemma typed_initlog dev : typed (initlog dev) any.
Proof. unfold initlog, recover_from_log. tk. Qed.
Lemma typed_commit : typed commit any.
Proof. unfold commit, write_log. tk. Qed.
#[local] Hint Resolve typed_commit : typed.
Lemma typed_begin_op_loop fuel : typed (begin_op_loop fuel) any.
Proof. induction fuel as [|fuel IH]; cbn [begin_op_loop]; tk. Qed.
#[local] Hint Resolve typed_begin_op_loop : typed.
Lemma typed_begin_op : typed begin_op any.
Proof. unfold begin_op. tk. Qed.
Lemma typed_end_op : typed end_op any.
Proof. unfold end_op. tk. Qed.
Lemma typed_log_write b : index (S NBUF) b -> typed (log_write b) any.
Proof. intros Hb. unfold log_write. tk. Qed.
End Log.
#[export] Hint Resolve typed_bread typed_bwrite typed_readsb typed_initlog typed_begin_op typed_end_op typed_log_write : typed.

(** ** Inodes *)
Lemma typed_inode_at i : index NINODE i -> typed (inode_at i) wt_inode.
Proof. apply typed_table. apply wt_icache. Qed.
#[export] Hint Resolve typed_inode_at : typed.
Lemma keeps_icache i ip : wt_inode ip -> keeps_types (fun s => set_icache (<[i := ip]> (icache s)) s).
Proof.
  intros H s []. constructor; cbn; try done. rewrite length_insert. split; [easy|]. apply Forall_insert; [apply wt_icache0|done].
Qed.
#[export] Hint Resolve keeps_icache : typed.
Lemma typed_upd_inode i f : index NINODE i -> (forall ip, wt_inode ip -> wt_inode (f ip)) -> typed (upd_inode i f) any.
Proof. intros Hi H. unfold upd_inode. tk. Qed.
#[export] Hint Extern 1 (typed (upd_inode _ _) _) =>
  apply typed_upd_inode; [solve [eauto with typed]|unfold wt_inode; intros ? ?; cbn; autorewrite with wt; eauto with typed] : typed.

Lemma iget_scan_index dev inum t : forall i empty, null_or (index (i + length t)) empty ->
  null_or (index (i + length t)) (iget_scan t i empty dev inum).1 /\ null_or (index (i + length t)) (iget_scan t i empty dev inum).2.
Proof.
  induction t as [|ip t IH]; intros i empty He; cbn [iget_scan]; [done|]. destruct (_ && _ && _).
  - split; [|done]. cbn. unfold index. lia.
  - cbn [length]. replace (i + S (length t))%nat with (S i + length t)%nat by lia. apply IH. replace (S i + length t)%nat with (i + length (ip :: t))%nat by (cbn; lia).
    destruct (_ && _); [|done]. cbn. unfold index. lia.
Qed.

Lemma typed_iget dev inum : typed (iget dev inum) (index NINODE).
Proof.
  unfold iget. eapply typed_bind; [tcall|]. intros _ _. eapply typed_bind; [tcall|]. intros t [Ht _].
  pose proof (iget_scan_index dev inum t 0 None I) as H. rewrite Ht in H. destruct (iget_scan t 0 None dev inum) as [[i|] [j|]]; cbn in H; destruct H as [H1 H2]; tk.
Qed.
#[export] Hint Resolve typed_iget : typed.

Lemma mark_bit_length d k : length (mark_bit d k) = length d.
Proof. unfold mark_bit. by autorewrite with wt. Qed.
Lemma unmark_bit_length d k : length (unmark_bit d k) = length d.
Proof. unfold unmark_bit. by autorewrite with wt. Qed.
Lemma put_dinode_length d off ip : length (put_dinode d off ip) = length d.
Proof. unfold put_dinode, put_addrs. by autorewrite with wt. Qed.
Lemma init_dinode_length d off t : length (init_dinode d off t) = length d.
Proof. unfold init_dinode. by autorewrite with wt. Qed.
Lemma memset_length d dst c n : length (memset d dst c n) = length d.
Proof. unfold memset, stosl, stosb. destruct (_ && _); by autorewrite with wt. Qed.
#[export] Hint Rewrite mark_bit_length unmark_bit_length put_dinode_length init_dinode_length memset_length : wt.

(** What a device driver promises to the inode layer. *)
Class TypedSw (Sw : DevSw) : Prop := {
  typed_devsw_read major read i n : devsw_read major = Some read -> index NINODE i -> typed (read i n) any;
  typed_devsw_write major write i src n : devsw_write major = Some write -> index NINODE i -> typed (write i src n) any
}.
#[export] Hint Resolve typed_devsw_read typed_devsw_write : typed.

Section Fs.
Context {Dev : BlockDev} {TDev : TypedDev Dev}.
Lemma typed_load_sb dev : typed (load_sb dev) any.
Proof. unfold load_sb. tk. Qed.
Lemma typed_bzero dev n : typed (bzero dev n) any.
Proof. unfold bzero. tk. Qed.
#[local] Hint Resolve typed_load_sb typed_bzero : typed.
Lemma typed_balloc_loop fuel dev : forall b, typed (balloc_loop fuel dev b) any.
Proof. induction fuel as [|fuel IH]; intros b; cbn [balloc_loop]; tk. Qed.
#[local] Hint Resolve typed_balloc_loop : typed.
Lemma typed_balloc dev : typed (balloc dev) any.
Proof. unfold balloc. tk. Qed.
Lemma typed_bfree dev b : typed (bfree dev b) any.
Proof. unfold bfree. tk. Qed.
Lemma typed_iinit dev : typed (iinit dev) any.
Proof. unfold iinit. tk. Qed.
#[local] Hint Resolve typed_balloc typed_bfree : typed.
Lemma typed_ialloc_loop fuel dev type : forall inum, typed (ialloc_loop fuel dev type inum) (index NINODE).
Proof. induction fuel as [|fuel IH]; intros inum; cbn [ialloc_loop]; tk. Qed.
#[local] Hint Resolve typed_ialloc_loop : typed.
Lemma typed_ialloc dev type : typed (ialloc dev type) (index NINODE).
Proof. unfold ialloc. tk. Qed.
Lemma typed_iupdate i : index NINODE i -> typed (iupdate i) any.
Proof. intros Hi. unfold iupdate. tk. Qed.
Lemma typed_idup i : index NINODE i -> typed (idup i) (index NINODE).
Proof. intros Hi. unfold idup. tk. Qed.
Lemma typed_ilock_wait fuel i : index NINODE i -> typed (ilock_wait fuel i) any.
Proof. intros Hi. induction fuel as [|fuel IH]; cbn [ilock_wait]; tk. Qed.
#[local] Hint Resolve typed_iupdate typed_ilock_wait : typed.
Lemma typed_load_dinode i d off : index NINODE i -> typed (upd_inode i (load_dinode d off)) any.
Proof. intros Hi. by apply typed_upd_inode. Qed.
#[local] Hint Resolve typed_load_dinode | 0 : typed.
Lemma typed_ilock i : index NINODE i -> typed (ilock i) any.
Proof. intros Hi. unfold ilock. tk. Qed.
Lemma typed_iunlock i : index NINODE i -> typed (iunlock i) any.
Proof. intros Hi. unfold iunlock. tk. Qed.
Lemma typed_set_addr i k v : index NINODE i -> typed (set_addr i k v) any.
Proof. intros Hi. unfold set_addr. tk. Qed.
#[local] Hint Resolve typed_ilock typed_iunlock typed_set_addr : typed.
Lemma typed_addr_or_alloc i k : index NINODE i -> typed (addr_or_alloc i k) any.
Proof. intros Hi. unfold addr_or_alloc. tk. Qed.
#[local] Hint Resolve typed_addr_or_alloc : typed.
Lemma typed_bmap i bn : index NINODE i -> typed (bmap i bn) any.
Proof. intros Hi. unfold bmap. tk. Qed.
Lemma typed_itrunc i : index NINODE i -> typed (itrunc i) any.
Proof. intros Hi. unfold itrunc, itrunc_direct. tk. Qed.
#[local] Hint Resolve typed_bmap typed_itrunc : typed.
Lemma typed_iput i : index NINODE i -> typed (iput i) any.
Proof. intros Hi. unfold iput. tk. Qed.
#[local] Hint Resolve typed_iput : typed.
Lemma typed_iunlockput i : index NINODE i -> typed (iunlockput i) any.
Proof. intros Hi. unfold iunlockput. tk. Qed.
Lemma typed_stati i : index NINODE i -> typed (stati i) any.
Proof. intros Hi. unfold stati. tk. Qed.
Lemma typed_readi_loop fuel i : index NINODE i -> forall off n tot, typed (readi_loop fuel i off n tot) any.
Proof. intros Hi. induction fuel as [|fuel IH]; intros off n tot; cbn [readi_loop]; tk. Qed.
Lemma typed_writei_loop fuel i : index NINODE i -> forall src off n tot, typed (writei_loop fuel i src off n tot) any.
Proof. intros Hi. induction fuel as [|fuel IH]; intros src off n tot; cbn [writei_loop]; tk. Qed.
#[local] Hint Resolve typed_readi_loop typed_writei_loop : typed.

Context {Sw : DevSw} {TSw : TypedSw Sw}.
Lemma typed_readi i off n : index NINODE i -> typed (readi i off n) any.
Proof. intros Hi. unfold readi. tk. Qed.
Lemma typed_writei i src off n : index NINODE i -> typed (writei i src off n) any.
Proof. intros Hi. unfold writei. tk. Qed.
End Fs.
#[export] Hint Resolve typed_iinit typed_ialloc typed_iupdate typed_idup typed_ilock typed_iunlock typed_iput
  typed_iunlockput typed_stati typed_readi typed_writei : typed.

(** ** Files *)
Lemma typed_file_at f : index NFILE f -> typed (file_at f) wt_file.
Proof. apply typed_table. apply wt_ftable. Qed.
#[export] Hint Resolve typed_file_at : typed.
Lemma keeps_ftable i f : wt_file f -> keeps_types (fun s => set_ftable (<[i := f]> (ftable s)) s).
Proof.
  intros H s []. constructor; cbn; try done. rewrite length_insert. split; [easy|]. apply Forall_insert; [apply wt_ftable0|done].
Qed.
#[export] Hint Resolve keeps_ftable : typed.
Lemma typed_upd_file i f : index NFILE i -> (forall ff, wt_file ff -> wt_file (f ff)) -> typed (upd_file i f) any.
Proof. intros Hi H. unfold upd_file. tk. Qed.
#[export] Hint Extern 1 (typed (upd_file _ _) _) =>
  apply typed_upd_file; [solve [eauto with typed]|unfold wt_file; intros ? ?; cbn; eauto with typed] : typed.
#[export] Hint Extern 1 (index NINODE (f_ip _)) => assumption : typed.

Lemma file_scan_index t : forall i, null_or (index (i + length t)) (file_scan t i).
Proof.
  induction t as [|f t IH]; intros i; cbn [file_scan]; [done|]. destruct (_ =? _); [cbn; unfold index; lia|].
  cbn [length]. replace (i + S (length t))%nat with (S i + length t)%nat by lia. apply IH.
Qed.
Lemma typed_filealloc : typed filealloc (null_or (index NFILE)).
Proof.
  unfold filealloc. eapply typed_bind; [tcall|]. intros _ _. eapply typed_bind; [tcall|]. intros t [Ht _].
  pose proof (file_scan_index t 0) as H. rewrite Ht in H. tk.
Qed.
Lemma typed_filedup f : index NFILE f -> typed (filedup f) (index NFILE).
Proof. intros Hf. unfold filedup. tk. Qed.
#[export] Hint Resolve typed_filealloc typed_filedup : typed.

Section File.
Context {Lay : Layout} {Dev : BlockDev} {TDev : TypedDev Dev} {Sw : DevSw} {TSw : TypedSw Sw}.
Lemma typed_fileclose f : index NFILE f -> typed (fileclose f) any.
Proof. intros Hf. unfold fileclose. tk. Qed.
Lemma typed_filestat f : index NFILE f -> typed (filestat f) any.
Proof. intros Hf. unfold filestat. tk. Qed.
Lemma typed_fileread f n : index NFILE f -> typed (fileread f n) any.
Proof. intros Hf. unfold fileread. tk. Qed.
Lemma typed_filewrite_loop fuel f addr n : index NFILE f -> forall i, typed (filewrite_loop fuel f addr n i) any.
Proof. intros Hf. induction fuel as [|fuel IH]; intros i; cbn [filewrite_loop]; tk. Qed.
#[local] Hint Resolve typed_fileclose typed_filewrite_loop : typed.
Lemma typed_filewrite f addr n : index NFILE f -> typed (filewrite f addr n) any.
Proof. intros Hf. unfold filewrite. tk. Qed.
Lemma typed_pipealloc_bad p f0 f1 : null_or (index NFILE) f0 -> null_or (index NFILE) f1 ->
  typed (pipealloc_bad p f0 f1) (null_or (fun fs => index NFILE fs.1 /\ index NFILE fs.2)).
Proof. intros H0 H1. unfold pipealloc_bad. tk. Qed.
#[local] Hint Resolve typed_pipealloc_bad : typed.
Lemma new_pipe_wt : wt_pipe new_pipe.
Proof. done. Qed.
#[local] Hint Resolve new_pipe_wt : typed.
Lemma typed_pipealloc : typed pipealloc (null_or (fun fs => index NFILE fs.1 /\ index NFILE fs.2)).
Proof. unfold pipealloc. tk. Qed.
End File.
#[export] Hint Resolve typed_fileclose typed_filestat typed_fileread typed_filewrite typed_pipealloc : typed.

(** ** The console *)
Lemma cga_step_length crt pos c crt' pos' : cga_step crt pos c = Some (crt', pos') -> length crt' = length crt.
Proof.
  unfold cga_step, crt_store. destruct (c =? nl); [|destruct (c =? BACKSPACE)];
    (destruct (_ || _); [done|]; destruct (24 <=? _); intros [= <- <-]; by autorewrite with wt).
Qed.
Lemma typed_upd_console f : (forall cn, length (cn_crt cn) = NCRT -> length (cn_crt (f cn)) = NCRT) -> typed (upd_console f) any.
Proof. intros H. apply typed_modify_any. intros s []. constructor; cbn; auto. Qed.
Lemma typed_uartputc c : typed (uartputc c) any.
Proof. apply typed_upd_console. intros cn H. by destruct (cn_have_uart cn). Qed.
Lemma typed_cgaputc c : typed (cgaputc c) any.
Proof.
  apply (typed_bind _ _ (fun cn => length (cn_crt cn) = NCRT)); [apply typed_gets, wt_crt|]. intros cn Hcn.
  destruct (cga_step _ _ _) as [[crt pos]|] eqn:E; [|tk]. apply cga_step_length in E. apply typed_upd_console. intros cn' _. cbn. congruence.
Qed.
#[export] Hint Resolve typed_uartputc typed_cgaputc : typed.
Lemma typed_consputc c : typed (consputc c) any.
Proof. unfold consputc. tk. Qed.
#[export] Hint Resolve typed_consputc : typed.
Lemma typed_cputs s : typed (cputs s) any.
Proof. induction s as [|c s IH]; cbn [cputs]; tk. Qed.
#[export] Hint Resolve typed_cputs : typed.
Lemma typed_printint x b sg : typed (printint x b sg) any.
Proof. apply typed_cputs. Qed.
#[export] Hint Resolve typed_printint : typed.
Lemma typed_cprintf_loop n : forall fmt args, (length fmt <= n)%nat -> typed (cprintf_loop fmt args) any.
Proof.
  induction n as [|n IH]; intros [|c fmt] args Hn; cbn in Hn; try lia; [apply typed_ret; done..|]. cbn [cprintf_loop].
  assert (forall args, typed (cprintf_loop fmt args) any) as IH1 by (intros a; apply IH; lia).
  destruct fmt as [|c' fmt]; [tk|]. assert (forall args, typed (cprintf_loop fmt args) any) as IH2 by (intros a; apply IH; cbn in Hn; lia).
  clear IH Hn. tk; apply typed_fault; eauto with typed.
Qed.
Lemma typed_cprintf fmt args : typed (cprintf fmt args) any.
Proof. pose proof (typed_cprintf_loop (length fmt) fmt args (Nat.le_refl _)). unfold cprintf. tk. Qed.
#[export] Hint Resolve typed_cprintf : typed.
Lemma typed_dump_pcs n : forall pc, typed (dump_pcs n pc) any.
Proof. induction n as [|n IH]; intros [|x pc]; cbn [dump_pcs]; tk. Qed.
#[export] Hint Resolve typed_dump_pcs : typed.
Lemma typed_procdump pcs : typed (procdump pcs) any.
Proof. unfold procdump. tk. Qed.
#[export] Hint Resolve typed_procdump : typed.

Lemma typed_upd_input f : (forall inp, length (in_buf inp) = 128%nat -> length (in_buf (f inp)) = 128%nat) -> typed (upd_input f) any.
Proof. intros H. apply typed_modify_any. intros s []. constructor; cbn; auto. Qed.
#[export] Hint Extern 1 (typed (upd_input _) _) => apply typed_upd_input; intros ? ?; cbn; autorewrite with wt; eauto : typed.
Lemma typed_kill_line fuel : typed (kill_line fuel) any.
Proof. induction fuel as [|fuel IH]; cbn [kill_line]; tk. Qed.
#[export] Hint Resolve typed_kill_line : typed.
Lemma typed_console_key c : typed (console_key c) any.
Proof. unfold console_key, input_char. tk. Qed.
#[export] Hint Resolve typed_console_key : typed.
Lemma typed_console_keys cs : typed (console_keys cs) any.
Proof. induction cs as [|c cs IH]; cbn [console_keys]; tk. Qed.
#[export] Hint Resolve typed_console_keys : typed.
Lemma typed_consoleintr pcs cs : typed (consoleintr pcs cs) any.
Proof. unfold consoleintr. tk. Qed.
#[export] Hint Resolve typed_consoleintr : typed.
Lemma typed_uartintr pcs bytes : typed (uartintr pcs bytes) any.
Proof. unfold uartintr. tk. Qed.
Lemma typed_kbdintr pcs bytes : typed (kbdintr pcs bytes) any.
Proof. unfold kbdintr. tk. Qed.
#[export] Hint Resolve typed_uartintr typed_kbdintr : typed.

Section Console.
Context {Dev : BlockDev} {TDev : TypedDev Dev}.
Lemma typed_consoleread_wait fuel : typed (consoleread_wait fuel) any.
Proof. induction fuel as [|fuel IH]; cbn [consoleread_wait]; tk. Qed.
#[local] Hint Resolve typed_consoleread_wait : typed.
Lemma typed_consoleread_loop fuel : forall n target, typed (consoleread_loop fuel n target) any.
Proof. induction fuel as [|fuel IH]; intros n target; cbn [consoleread_loop]; tk. Qed.
#[local] Hint Resolve typed_consoleread_loop : typed.
#[export] Instance console_typed : TypedSw console_devsw.
Proof.
  split; cbn; intros major op i n *; (destruct (major =? CONSOLE); [|done]); intros [= <-] Hi.
  - unfold consoleread. tk.
  - unfold consolewrite. tk.
Qed.
End Console.

(** ** Address spaces *)
Lemma typed_store_bytes a bytes : typed (store_bytes a bytes) any.
Proof. unfold store_bytes. tk. Qed.
Lemma typed_copy_page dst src : typed (copy_page dst src) any.
Proof. unfold copy_page. tk. Qed.
#[export] Hint Resolve typed_store_bytes typed_copy_page : typed.
Section Vm.
Context {Lay : Layout} {Dev : BlockDev} {TDev : TypedDev Dev} {Sw : DevSw} {TSw : TypedSw Sw}.
Lemma typed_walkpgdir pgdir va alloc : typed (walkpgdir pgdir va alloc) any.
Proof. unfold walkpgdir. tk. Qed.
#[local] Hint Resolve typed_walkpgdir : typed.
Lemma typed_mappages_loop fuel pgdir last perm : forall a pa, typed (mappages_loop fuel pgdir a last pa perm) any.
Proof. induction fuel as [|fuel IH]; intros a pa; cbn [mappages_loop]; tk. Qed.
#[local] Hint Resolve typed_mappages_loop : typed.
Lemma typed_mappages pgdir va size pa perm : typed (mappages pgdir va size pa perm) any.
Proof. unfold mappages. tk. Qed.
#[local] Hint Resolve typed_mappages : typed.
Lemma typed_setupkvm_loop ks pgdir : typed (setupkvm_loop ks pgdir) any.
Proof. induction ks as [|k ks IH]; cbn [setupkvm_loop]; tk. Qed.
#[local] Hint Resolve typed_setupkvm_loop : typed.
Lemma typed_setupkvm : typed setupkvm any.
Proof. unfold setupkvm. tk. Qed.
Lemma typed_inituvm pgdir init : typed (inituvm pgdir init) any.
Proof. unfold inituvm. tk. Qed.
Lemma typed_loaduvm_loop fuel pgdir addr ip offset sz : index NINODE ip -> forall i, typed (loaduvm_loop fuel pgdir addr ip offset sz i) any.
Proof. intros Hi. induction fuel as [|fuel IH]; intros i; cbn [loaduvm_loop]; tk. Qed.
#[local] Hint Resolve typed_setupkvm typed_loaduvm_loop : typed.
Lemma typed_loaduvm pgdir addr ip offset sz : index NINODE ip -> typed (loaduvm pgdir addr ip offset sz) any.
Proof. intros Hi. unfold loaduvm. tk. Qed.
Lemma typed_deallocuvm_loop fuel pgdir oldsz : forall a, typed (deallocuvm_loop fuel pgdir oldsz a) any.
Proof. induction fuel as [|fuel IH]; intros a; cbn [deallocuvm_loop]; tk. Qed.
#[local] Hint Resolve typed_deallocuvm_loop : typed.
Lemma typed_deallocuvm pgdir oldsz newsz : typed (deallocuvm pgdir oldsz newsz) any.
Proof. unfold deallocuvm. tk. Qed.
#[local] Hint Resolve typed_deallocuvm : typed.
Lemma typed_allocuvm_loop fuel pgdir oldsz newsz : forall a, typed (allocuvm_loop fuel pgdir oldsz newsz a) any.
Proof. induction fuel as [|fuel IH]; intros a; cbn [allocuvm_loop]; tk. Qed.
#[local] Hint Resolve typed_allocuvm_loop : typed.
Lemma typed_allocuvm pgdir oldsz newsz : typed (allocuvm pgdir oldsz newsz) any.
Proof. unfold allocuvm. tk. Qed.
Lemma typed_freevm pgdir : typed (freevm pgdir) any.
Proof. unfold freevm, freevm_entry. tk. Qed.
Lemma typed_clearpteu pgdir uva : typed (clearpteu pgdir uva) any.
Proof. unfold clearpteu. tk. Qed.
#[local] Hint Resolve typed_freevm : typed.
Lemma typed_copyuvm_loop fuel pgdir d sz : forall i, typed (copyuvm_loop fuel pgdir d sz i) any.
Proof. induction fuel as [|fuel IH]; intros i; cbn [copyuvm_loop]; tk. Qed.
#[local] Hint Resolve typed_copyuvm_loop : typed.
Lemma typed_copyuvm pgdir sz : typed (copyuvm pgdir sz) any.
Proof. unfold copyuvm. tk. Qed.
Lemma typed_uva2ka pgdir uva : typed (uva2ka pgdir uva) any.
Proof. unfold uva2ka. tk. Qed.
#[local] Hint Resolve typed_uva2ka : typed.
Lemma typed_copyout_loop fuel pgdir : forall va buf, typed (copyout_loop fuel pgdir va buf) any.
Proof. induction fuel as [|fuel IH]; intros va buf; cbn [copyout_loop]; tk. Qed.
#[local] Hint Resolve typed_copyout_loop : typed.
Lemma typed_copyout pgdir va p : typed (copyout pgdir va p) any.
Proof. unfold copyout. tk. Qed.
End Vm.
#[export] Hint Resolve typed_walkpgdir typed_setupkvm typed_inituvm typed_loaduvm typed_deallocuvm typed_allocuvm typed_freevm typed_clearpteu
  typed_copyuvm typed_copyout : typed.
