(* ===== verification/Kernel.v ===== *)
(** * Type soundness of the kernel

    The judgement of [Typed] for directories, processes, [exec], system calls
    and traps, and what follows for every state the kernel can reach. *)

From S2P Require Import Prelude Bytes Cstring Kstate Sync Kalloc Pipe Disk Bio Log Fs File Console Vm Dir Kbd Proc Exec Syscall Trap Typed.
Import Str.
Local Open Scope Z_scope.

(** ** Directories and paths *)
Section Dir.
Context {Dev : BlockDev} {TDev : TypedDev Dev} {Sw : DevSw} {TSw : TypedSw Sw}.
Lemma typed_read_dirent dp off : index NINODE dp -> typed (read_dirent dp off) any.
Proof. intros H. unfold read_dirent. tk. Qed.
#[local] Hint Resolve typed_read_dirent : typed.

(** A looked up inode is an entry of the table. *)
Lemma typed_dirlookup_loop fuel dp name : index NINODE dp -> forall off, typed (dirlookup_loop fuel dp name off) (null_or (fun io => index NINODE io.1)).
Proof. intros H. induction fuel as [|fuel IH]; intros off; cbn [dirlookup_loop]; tk. Qed.
#[local] Hint Resolve typed_dirlookup_loop : typed.
Lemma typed_dirlookup dp name : index NINODE dp -> typed (dirlookup dp name) (null_or (fun io => index NINODE io.1)).
Proof. intros H. unfold dirlookup. tk. Qed.
Lemma typed_dirlink_slot fuel dp : index NINODE dp -> forall off, typed (dirlink_slot fuel dp off) any.
Proof. intros H. induction fuel as [|fuel IH]; intros off; cbn [dirlink_slot]; tk. Qed.
#[local] Hint Resolve typed_dirlookup typed_dirlink_slot : typed.
Lemma typed_dirlink dp name inum : index NINODE dp -> typed (dirlink dp name inum) any.
Proof. intros H. unfold dirlink. tk. Qed.
Lemma typed_namex_loop fuel : forall ip path np name, index NINODE ip -> typed (namex_loop fuel ip path np name) (fun r => null_or (index NINODE) r.1).
Proof. induction fuel as [|fuel IH]; intros ip path np name H; cbn [namex_loop]; tk. Qed.
#[local] Hint Resolve typed_namex_loop : typed.
Lemma typed_namex path np name : typed (namex path np name) (fun r => null_or (index NINODE) r.1).
Proof. unfold namex. apply (typed_bind _ _ (index NINODE)); [|intros; tk]. tk. Qed.
#[local] Hint Resolve typed_namex : typed.
Lemma typed_namei path : typed (namei path) (null_or (index NINODE)).
Proof. unfold namei. tk. Qed.
Lemma typed_nameiparent path name : typed (nameiparent path name) (fun r => null_or (index NINODE) r.1).
Proof. unfold nameiparent. tk. Qed.
End Dir.
#[export] Hint Resolve typed_dirlookup typed_dirlink typed_namei typed_nameiparent : typed.

(** ** Processes and threads *)
Lemma find_proc_index test t : forall i, null_or (index (i + length t)) (find_proc test t i).
Proof.
  induction t as [|p t IH]; intros i; cbn [find_proc]; [done|]. destruct (test p); [cbn; unfold index; lia|].
  cbn [length]. replace (i + S (length t))%nat with (S i + length t)%nat by lia. apply IH.
Qed.
Lemma found_index test t i : length t = NPROC -> find_proc test t 0 = Some i -> index NPROC i.
Proof. intros H E. pose proof (find_proc_index test t 0) as H1. rewrite E, H in H1. exact H1. Qed.
#[export] Hint Resolve found_index : typed.

Lemma typed_wake_proc p : typed (wake_proc p) any.
Proof. unfold wake_proc. tk. Qed.
Lemma copy_name_wt name p : wt_proc p -> wt_proc (copy_name name p).
Proof. intros []. by constructor. Qed.
#[export] Hint Resolve typed_wake_proc copy_name_wt : typed.

Lemma wt_set_parent o p : wt_proc p -> null_or (index NPROC) o -> wt_proc (set_p_parent o p).
Proof. intros [] H. by constructor. Qed.
Lemma wt_set_cwd o p : wt_proc p -> null_or (index NINODE) o -> wt_proc (set_p_cwd o p).
Proof. intros [] H. by constructor. Qed.
Lemma wt_set_ofile fd o p : wt_proc p -> null_or (index NFILE) o -> wt_proc (set_p_ofile (<[fd := o]> (p_ofile p)) p).
Proof. intros [[H1 H2]] H. constructor; cbn; try done. rewrite length_insert. split; [done|]. by apply Forall_insert. Qed.
Lemma ofile_index p fd f : wt_proc p -> p_ofile p !! fd = Some (Some f) -> index NFILE f.
Proof. intros H E. exact (proj1 (Forall_lookup _ _) (proj2 (wp_ofile _ H)) _ _ E). Qed.
#[export] Hint Resolve wt_set_parent wt_set_cwd wt_set_ofile ofile_index : typed.

Section Proc.
Context {Lay : Layout} {Dev : BlockDev} {TDev : TypedDev Dev} {Sw : DevSw} {TSw : TypedSw Sw}.
Lemma typed_allocproc : typed allocproc (null_or (index NPROC)).
Proof. unfold allocproc. tk. Qed.
Lemma typed_switchuvm p : typed (switchuvm p) any.
Proof. unfold switchuvm. tk. Qed.
#[local] Hint Resolve typed_allocproc typed_switchuvm : typed.
Lemma typed_userinit code : typed (userinit code) any.
Proof. unfold userinit. tk. Qed.
Lemma typed_growproc n : typed (growproc n) any.
Proof. unfold growproc. tk. Qed.
Lemma typed_dup_files np : index NPROC np -> typed (dup_files np) any.
Proof. intros H. unfold dup_files. tk. Qed.
Lemma typed_dup_cwd np : index NPROC np -> typed (dup_cwd np) any.
Proof. intros H. unfold dup_cwd. tk. Qed.
#[local] Hint Resolve typed_dup_files typed_dup_cwd : typed.
Lemma typed_fork : typed fork any.
Proof. unfold fork. tk. Qed.
Lemma typed_user_puts bs : forall va, typed (user_puts va bs) any.
Proof. unfold user_put. induction bs as [|b bs IH]; intros va; cbn [user_puts]; unfold user_put; tk. Qed.
#[local] Hint Resolve typed_user_puts : typed.
Lemma typed_user_store va v : typed (user_store va v) any.
Proof. unfold user_store. tk. Qed.
#[local] Hint Resolve typed_user_store : typed.
Lemma typed_clone function arg stack : typed (clone function arg stack) any.
Proof. unfold clone. tk. Qed.
Lemma typed_close_files : typed close_files any.
Proof. unfold close_files. tk. Qed.
Lemma typed_drop_cwd : typed drop_cwd any.
Proof. unfold drop_cwd. tk. Qed.
#[local] Hint Resolve typed_close_files typed_drop_cwd : typed.
Lemma typed_exit_group_one me i : index NPROC me -> index NPROC i -> typed (exit_group_one me i) any.
Proof. intros Hm Hi. unfold exit_group_one. tk. Qed.
Lemma typed_exit_child_one me i : index NPROC me -> index NPROC i -> typed (exit_child_one me i) any.
Proof. intros Hm Hi. unfold exit_child_one. tk. Qed.
Lemma typed_exit_thread_child me i : index NPROC me -> index NPROC i -> typed (exit_thread_child me i) any.
Proof. intros Hm Hi. unfold exit_thread_child. tk. Qed.
#[local] Hint Resolve typed_exit_group_one typed_exit_child_one typed_exit_thread_child : typed.
Lemma typed_exit : typed exit any.
Proof. unfold exit. tk. Qed.
Lemma typed_exit_thread r : typed (exit_thread r) any.
Proof. unfold exit_thread. tk. Qed.
Lemma typed_reap i : index NPROC i -> typed (reap i) any.
Proof. intros Hi. unfold reap, clear_name. tk. Qed.
#[local] Hint Resolve typed_reap : typed.
Lemma typed_wait_loop fuel me : index NPROC me -> typed (wait_loop fuel me) any.
Proof. intros Hm. induction fuel as [|fuel IH]; cbn [wait_loop]; unfold wait_scan; tk. Qed.
#[local] Hint Resolve typed_wait_loop : typed.
Lemma typed_wait : typed wait any.
Proof. unfold wait. tk. Qed.
Lemma typed_reap_thread me i r : index NPROC me -> index NPROC i -> typed (reap_thread me i r) any.
Proof. intros Hm Hi. unfold reap_thread, clear_name. tk. Qed.
#[local] Hint Resolve typed_reap_thread : typed.
Lemma typed_wait_thread_loop fuel me tid r : index NPROC me -> typed (wait_thread_loop fuel me tid r) any.
Proof. intros Hm. induction fuel as [|fuel IH]; cbn [wait_thread_loop]; tk. Qed.
#[local] Hint Resolve typed_wait_thread_loop : typed.
Lemma typed_wait_thread tid r : typed (wait_thread tid r) any.
Proof. unfold wait_thread. tk. Qed.
Lemma typed_scheduler_round : typed scheduler_round any.
Proof. unfold scheduler_round, scheduler_turn. tk. Qed.
Lemma typed_forkret : typed forkret any.
Proof. unfold forkret. tk. Qed.
Lemma typed_kill pid : typed (kill pid) any.
Proof. unfold kill. tk. apply typed_upd_proc; [eauto with typed|]. intros p []. cbv zeta. by destruct (in_state _ _); constructor. Qed.
Lemma typed_lock_spin fuel : typed (lock_spin fuel) any.
Proof. induction fuel as [|fuel IH]; cbn [lock_spin]; tk. Qed.
#[local] Hint Resolve typed_lock_spin typed_wait_thread : typed.
Lemma typed_thread_join tid r : typed (thread_join tid r) any.
Proof. unfold thread_join, lock_acquire, lock_release. tk. Qed.
End Proc.
#[export] Hint Resolve typed_switchuvm typed_growproc typed_fork typed_user_puts typed_user_store typed_clone typed_exit typed_exit_thread
  typed_wait typed_kill typed_thread_join : typed.

(** ** exec *)
Section Exec.
Context {Lay : Layout} {Dev : BlockDev} {TDev : TypedDev Dev} {Sw : DevSw} {TSw : TypedSw Sw}.
Lemma typed_exec_bad pgdir ip : null_or (index NINODE) ip -> typed (exec_bad pgdir ip) any.
Proof. intros H. unfold exec_bad. tk. Qed.
Lemma typed_load_segments n pgdir ip : index NINODE ip -> forall off sz, typed (load_segments n pgdir ip off sz) any.
Proof. intros H. induction n as [|n IH]; intros off sz; cbn [load_segments]; tk. Qed.
Lemma typed_push_args pgdir argv : forall sp argc ustack, typed (push_args pgdir sp argc argv ustack) any.
Proof. induction argv as [|a argv IH]; intros sp argc ustack; cbn [push_args]; tk. Qed.
#[local] Hint Resolve typed_exec_bad typed_load_segments typed_push_args : typed.
Lemma typed_exec_commit path argv elf pgdir sz : typed (exec_commit path argv elf pgdir sz) any.
Proof. unfold exec_commit. tk. Qed.
#[local] Hint Resolve typed_exec_commit : typed.
Lemma typed_exec path argv : typed (exec path argv) any.
Proof. unfold exec. tk. Qed.
End Exec.
#[export] Hint Resolve typed_exec : typed.

(** ** System calls *)
Section Syscall.
Context {Lay : Layout} {Dev : BlockDev} {TDev : TypedDev Dev} {Sw : DevSw} {TSw : TypedSw Sw}.
Lemma typed_user_get va : typed (user_get va) any.
Proof. unfold user_get. tk. Qed.
#[local] Hint Resolve typed_user_get : typed.
Lemma typed_user_gets n : forall va, typed (user_gets va n) any.
Proof. induction n as [|n IH]; intros va; cbn [user_gets]; tk. Qed.
#[local] Hint Resolve typed_user_gets : typed.
Lemma typed_fetchint addr : typed (fetchint addr) any.
Proof. unfold fetchint. tk. Qed.
Lemma typed_fetchstr_loop n : forall s, typed (fetchstr_loop n s) any.
Proof. induction n as [|n IH]; intros s; cbn [fetchstr_loop]; tk. Qed.
#[local] Hint Resolve typed_fetchint typed_fetchstr_loop : typed.
Lemma typed_fetchstr addr : typed (fetchstr addr) any.
Proof. unfold fetchstr. tk. Qed.
Lemma typed_argint n : typed (argint n) any.
Proof. unfold argint. tk. Qed.
#[local] Hint Resolve typed_fetchstr typed_argint : typed.
Lemma typed_argptr n size : typed (argptr n size) any.
Proof. unfold argptr. tk. Qed.
Lemma typed_argstr n : typed (argstr n) any.
Proof. unfold argstr. tk. Qed.
Lemma typed_argints ns : typed (argints ns) any.
Proof. induction ns as [|n ns IH]; cbn [argints]; tk. Qed.
Lemma typed_argfd n : typed (argfd n) (null_or (fun df => index NFILE df.2)).
Proof. unfold argfd. tk. Qed.
Lemma typed_sleep_loop fuel t0 n : typed (sleep_loop fuel t0 n) any.
Proof. induction fuel as [|fuel IH]; cbn [sleep_loop]; tk. Qed.
Lemma typed_set_ofile fd o : null_or (index NFILE) o -> typed (set_ofile fd o) any.
Proof. intros H. unfold set_ofile. tk. Qed.
#[local] Hint Resolve typed_argptr typed_argstr typed_argints typed_argfd typed_sleep_loop typed_set_ofile : typed.
Lemma typed_fdalloc f : index NFILE f -> typed (fdalloc f) any.
Proof. intros H. unfold fdalloc. tk. Qed.
Lemma typed_io_args : typed io_args (null_or (fun a => index NFILE a.1.1)).
Proof. unfold io_args. tk. Qed.
#[local] Hint Resolve typed_fdalloc typed_io_args : typed.

Lemma typed_link_bad ip : index NINODE ip -> typed (link_bad ip) any.
Proof. intros H. unfold link_bad. tk. Qed.
#[local] Hint Resolve typed_link_bad : typed.
Lemma typed_sys_link : typed sys_link any.
Proof. unfold sys_link. tk. Qed.
Lemma typed_isdirempty_loop fuel dp : index NINODE dp -> forall off, typed (isdirempty_loop fuel dp off) any.
Proof. intros H. induction fuel as [|fuel IH]; intros off; cbn [isdirempty_loop]; tk. Qed.
#[local] Hint Resolve typed_isdirempty_loop : typed.
Lemma typed_unlink_bad dp : index NINODE dp -> typed (unlink_bad dp) any.
Proof. intros H. unfold unlink_bad. tk. Qed.
#[local] Hint Resolve typed_unlink_bad : typed.
Lemma typed_unlink_entry dp ip off : index NINODE dp -> index NINODE ip -> typed (unlink_entry dp ip off) any.
Proof. intros Hd Hi. unfold unlink_entry, isdirempty. tk. Qed.
#[local] Hint Resolve typed_unlink_entry : typed.
Lemma typed_sys_unlink : typed sys_unlink any.
Proof. unfold sys_unlink. tk. Qed.
Lemma typed_create_new dp name type major minor : index NINODE dp -> typed (create_new dp name type major minor) (index NINODE).
Proof. intros Hd. unfold create_new. tk. Qed.
#[local] Hint Resolve typed_create_new : typed.
Lemma typed_create path type major minor : typed (create path type major minor) (null_or (index NINODE)).
Proof. unfold create. tk. Qed.
#[local] Hint Resolve typed_create : typed.
Lemma typed_open_inode path omode : typed (open_inode path omode) (null_or (index NINODE)).
Proof. unfold open_inode. tk. Qed.
Lemma typed_open_file : typed open_file (null_or (fun fd => index NFILE fd.1)).
Proof. unfold open_file. tk. Qed.
#[local] Hint Resolve typed_open_inode typed_open_file : typed.
Lemma typed_sys_open : typed sys_open any.
Proof. unfold sys_open. tk. Qed.
Lemma typed_exec_args n uargv : forall i, typed (exec_args n uargv i) any.
Proof. induction n as [|n IH]; intros i; cbn [exec_args]; tk. Qed.
#[local] Hint Resolve typed_sys_link typed_sys_unlink typed_sys_open typed_exec_args : typed.
Lemma typed_sys_mkdir : typed sys_mkdir any.
Proof. unfold sys_mkdir. do 2 (eapply typed_bind; [tcall|intros ? ?]). apply (typed_bind _ _ (null_or (index NINODE))); [tk|intros ? ?; tk]. Qed.
Lemma typed_sys_mknod : typed sys_mknod any.
Proof.
  unfold sys_mknod. do 2 (eapply typed_bind; [tcall|intros ? ?]). apply (typed_bind _ _ any); [tk|intros ? _].
  apply (typed_bind _ _ (null_or (index NINODE))); [tk|intros ? ?; tk].
Qed.
Lemma typed_sys_chdir : typed sys_chdir any.
Proof. unfold sys_chdir. do 2 (eapply typed_bind; [tcall|intros ? ?]). apply (typed_bind _ _ (null_or (index NINODE))); [tk|intros ? ?; tk]. Qed.
Lemma typed_sys_pipe : typed sys_pipe any.
Proof. unfold sys_pipe. tk. Qed.
Lemma typed_sys_fstat : typed sys_fstat any.
Proof. unfold sys_fstat, put_stat. tk. Qed.
#[local] Hint Resolve typed_sys_mkdir typed_sys_mknod typed_sys_chdir typed_sys_pipe typed_sys_fstat : typed.

Lemma typed_syscalls num f : syscalls num = Some f -> typed f any.
Proof.
  unfold syscalls. intros H. repeat match type of H with
    | (match ?x with _ => _ end) = _ => destruct x; try done
    end; injection H as <-;
  unfold sys_fork, sys_exit, sys_wait, sys_read, sys_kill, sys_exec, sys_dup, sys_getpid, sys_sbrk, sys_sleep, sys_uptime, sys_write, sys_close,
    sys_halt, sys_thread_create, sys_thread_exit, sys_thread_join, sys_gettid, sys_clone, getpid, gettid, thread_create, thread_exit; tk.
Qed.
#[local] Hint Resolve typed_syscalls : typed.
Lemma typed_set_eax v : typed (set_eax v) any.
Proof. unfold set_eax. tk. Qed.
#[local] Hint Resolve typed_set_eax : typed.
Lemma typed_syscall : typed syscall any.
Proof. unfold syscall. tk. Qed.
End Syscall.
#[export] Hint Resolve typed_syscall : typed.

(** ** Traps *)
Section Trap.
Context {Lay : Layout} {Dev : BlockDev} {TDev : TypedDev Dev} {Sw : DevSw} {TSw : TypedSw Sw}.
Lemma typed_trap_dispatch env tf : typed (trap_dispatch env tf) any.
Proof. unfold trap_dispatch, clock_tick, trap_fault. tk. Qed.
Lemma typed_exit_if_killed tf : typed (exit_if_killed tf) any.
Proof. unfold exit_if_killed. tk. Qed.
#[local] Hint Resolve typed_trap_dispatch typed_exit_if_killed : typed.
Lemma typed_trap env tf : typed (trap env tf) any.
Proof. unfold trap. tk. Qed.

(** ** The kernel as a whole

    The kernel is entered by the calls of [main], by a new process, by the
    scheduler and by traps.  Its state changes in runs: a process runs from an
    entry until it returns or first sleeps, or from the point where it was
    asleep, with the state it then finds, until it returns or sleeps again.
    [entry] lists the entries without the order in which [main] makes its calls:
    the states so reached are more than those of the kernel, and what holds of
    all of them holds of the kernel's.  Which state [main] itself reaches is
    shown in [Main]. *)
(** [uart = 1] of [uartinit]. *)
Definition set_uart (on : bool) (cn : consst) : consst := mkCons (cn_crt cn) (cn_pos cn) on (cn_uart cn) (cn_locking cn) (cn_panicked cn).

Inductive entry : K unit -> Prop :=
| entry_kinit1 a b : entry (kinit1 a b)
| entry_setupkvm : entry (do setupkvm; ret tt)
| entry_cprintf fmt args : entry (cprintf fmt args)
| entry_consoleinit : entry consoleinit
| entry_uart : entry (upd_console (set_uart true))
| entry_binit : entry binit
| entry_store a bytes : entry (store_bytes a bytes)
| entry_kalloc : entry (do kalloc; ret tt)
| entry_kinit2 a b : entry (kinit2 a b)
| entry_userinit code : entry (userinit code)
| entry_scheduler : entry scheduler_round
| entry_forkret : entry forkret
| entry_trap env tf : entry (trap env tf).

(** The state before [main]: everything in the zeroed data segment, [m] in the
    rest of memory, [D] on disk. *)
Definition before_main (m : gmap Z Z) (D : gmap Z block) (n : Z) : kstate :=
  set_console (mkCons (replicate 2000 1824) 0 false [] false false) (set_mem m (set_curproc None (reset_state D n (replicate NPROC zero_proc) 0))).

Inductive reachable (m0 : gmap Z Z) (D : gmap Z block) (n : Z) : kstate -> Prop :=
| reach_boot : reachable m0 D n (before_main m0 D n)
| reach_run s f : reachable m0 D n s -> kernel_run m0 D n f -> reachable m0 D n (f s)
with kernel_run (m0 : gmap Z Z) (D : gmap Z block) (n : Z) : (kstate -> kstate) -> Prop :=
| run_entry m : entry m -> kernel_run m0 D n (fun s => final (m s []))
| run_resume m s e : entry m -> reachable m0 D n s -> kernel_runs m0 D n e -> kernel_run m0 D n (fun s' => final (m s (e ++ [fun _ => s'])))
with kernel_runs (m0 : gmap Z Z) (D : gmap Z block) (n : Z) : list (kstate -> kstate) -> Prop :=
| runs_nil : kernel_runs m0 D n []
| runs_cons f e : kernel_run m0 D n f -> kernel_runs m0 D n e -> kernel_runs m0 D n (f :: e).

Scheme reachable_mut := Minimality for reachable Sort Prop
  with run_mut := Minimality for kernel_run Sort Prop
  with runs_mut := Minimality for kernel_runs Sort Prop.
Combined Scheme kernel_ind from reachable_mut, run_mut, runs_mut.

Lemma typed_freerange a b : typed (freerange a b) any.
Proof. unfold freerange. generalize (Z.to_nat (b / PGSIZE)) (PGROUNDUP a). intros f. induction f as [|f IH]; intros p; cbn [freerange_loop]; tk. Qed.
#[local] Hint Resolve typed_freerange : typed.
Lemma typed_kinit1 a b : typed (kinit1 a b) any.
Proof. unfold kinit1, upd_kmem. tk. Qed.
Lemma typed_kinit2 a b : typed (kinit2 a b) any.
Proof. unfold kinit2, upd_kmem. tk. Qed.

Lemma entry_typed m : entry m -> typed m any.
Proof.
  destruct 1; [apply typed_kinit1|tk|apply typed_cprintf|by apply typed_upd_console|by apply typed_upd_console|apply typed_binit|apply typed_store_bytes|tk|apply typed_kinit2|
    apply typed_userinit|apply typed_scheduler_round|apply typed_forkret|apply typed_trap].
Qed.

Lemma before_main_typed m0 D n : map_Forall (fun _ d => length d = 512%nat) D -> well_typed (before_main m0 D n).
Proof.
  intros H. assert (forall A (Q : A -> Prop) k a, Q a -> length (replicate k a) = k /\ Forall Q (replicate k a)) as R.
  { intros A Q k a Ha. split; [apply length_replicate|by apply Forall_replicate]. }
  constructor; try done; apply R; try done.
  - constructor; try done. by apply R.
  - constructor; [vm_compute; lia..|done].
  - vm_compute. lia.
Qed.

Lemma kernel_typed m0 D n : map_Forall (fun _ d => length d = 512%nat) D ->
  (forall s, reachable m0 D n s -> well_typed s) /\ (forall f, kernel_run m0 D n f -> keeps_types f) /\ (forall e, kernel_runs m0 D n e -> Forall keeps_types e).
Proof.
  intros H. apply kernel_ind.
  - by apply before_main_typed.
  - intros s f _ Hs _ Hf. by apply Hf.
  - intros m Hm s Hs. by apply (entry_typed m Hm).
  - intros m s e Hm _ Hs _ He s' Hs'. apply (entry_typed m Hm); [done|]. apply Forall_app. split; [done|].
    apply list.Forall_singleton. by intros s0 _.
  - constructor.
  - intros f e _ Hf _ He. by constructor.
Qed.

(** C4: the kernel's tables keep the sizes, and its pointers the ranges, of their
    C types in every state the kernel reaches from [main], by any sequence of
    system calls, interrupts and process switches with any user memory,
    trap frames and device input; and no run ever uses an index outside the
    process, buffer, inode or file table. *)
Theorem kernel_types m0 D n s m e : map_Forall (fun _ d => length d = 512%nat) D -> reachable m0 D n s -> entry m -> kernel_runs m0 D n e ->
  well_typed s /\ well_typed (final (m s e)) /\ (forall why s', m s e = Fault why s' -> ~ table_fault why).
Proof.
  intros HD Hs Hm He. destruct (kernel_typed m0 D n HD) as (H1 & _ & H3). specialize (H1 s Hs). split; [done|].
  destruct (entry_typed m Hm s e H1 (H3 e He)) as [H4 H5]. split; [done|]. intros why s' E. by rewrite E in H5.
Qed.
End Trap.

(** ** Example: after [binit] a timer interrupt, with one more run of the
    kernel in between. *)
Definition ex_trap : K unit :=
  @trap small_layout memide_dev console_devsw (mkEnv 0 0 [] [] (fun _ => [])) (mkTrapframe 0 0 0 0 0 0 0 0 0 0 0 32 0 0 27 512 0 35).
Definition ex_binit (s : kstate) : kstate := final (binit s []).

Lemma kernel_types_witness : well_typed (final (ex_trap (ex_binit (before_main ∅ ∅ 0)) [ex_binit])).
Proof.
  pose proof (@run_entry small_layout memide_dev console_devsw ∅ ∅ 0 binit entry_binit) as Hr.
  refine (proj1 (proj2 (@kernel_types small_layout memide_dev memide_typed console_devsw console_typed ∅ ∅ 0 (ex_binit (before_main ∅ ∅ 0)) ex_trap [ex_binit] _ _ _ _))).
  - apply map_Forall_empty.
  - apply reach_run; [apply reach_boot|exact Hr].
  - apply entry_trap.
  - apply runs_cons; [exact Hr|apply runs_nil].
Defined.
