(* ===== verification/Segment.v ===== *)
(** * Segments and gates: mmu.h, [seginit], [switchkvm] and [switchuvm] of vm.c, [tvinit] of trap.c

    The descriptors the processor reads are structs of bit fields.  [pack] lays
    the fields of such a struct out in the 64 bits of a descriptor, lowest bits
    first; the [seg_*] and [gate_*] functions read a descriptor as the processor
    does; [deliver] is what the processor does with an interrupt, a trap or an
    [int] instruction in user mode.  The theorems say that the descriptors mean
    what the macros [SEG], [SEG16] and [SETGATE] were told, and that with the
    tables the kernel sets up a user process enters the kernel at its vectors,
    on the kernel stack of the process, and by its own will only through the
    system call gate. *)

From S2P Require Import Prelude Bytes Kstate Sync Kalloc Disk Bio Log Fs Console Vm Proc Trap.
Local Open Scope Z_scope.

(** ** mmu.h *)
Definition SEG_KCODE : Z := 1.
Definition SEG_KDATA : Z := 2.
Definition SEG_KCPU : Z := 3.
Definition SEG_TSS : Z := 6.
Definition STA_X : Z := 8.
Definition STA_W : Z := 2.
Definition STA_R : Z := 2.
Definition STS_T32A : Z := 9.
Definition STS_IG32 : Z := 14.
Definition STS_TG32 : Z := 15.
Definition NSEGS : nat := 7.

Record segdesc := mkSegdesc {
  lim_15_0 : Z; base_15_0 : Z; base_23_16 : Z; sd_type : Z; sd_s : Z; sd_dpl : Z; sd_p : Z;
  lim_19_16 : Z; sd_avl : Z; sd_rsv1 : Z; sd_db : Z; sd_g : Z; base_31_24 : Z
}.

Definition SEG (type base lim dpl : Z) : segdesc :=
  mkSegdesc (Z.land (Z.shiftr lim 12) 65535) (Z.land (u32 base) 65535)
    (Z.land (Z.shiftr (u32 base) 16) 255) type 1 dpl 1
    (Z.shiftr (u32 lim) 28) 0 0 1 1 (Z.shiftr (u32 base) 24).

Definition SEG16 (type base lim dpl : Z) : segdesc :=
  mkSegdesc (Z.land lim 65535) (Z.land (u32 base) 65535)
    (Z.land (Z.shiftr (u32 base) 16) 255) type 1 dpl 1
    (Z.shiftr (u32 lim) 16) 0 0 1 0 (Z.shiftr (u32 base) 24).

Record gatedesc := mkGatedesc {
  off_15_0 : Z; gd_cs : Z; gd_args : Z; gd_rsv1 : Z; gd_type : Z; gd_s : Z; gd_dpl : Z; gd_p : Z; off_31_16 : Z
}.

(** [SETGATE(gate, istrap, sel, off, d)]: the new contents of [gate]. *)
Definition SETGATE (istrap : bool) (sel off d : Z) : gatedesc :=
  mkGatedesc (Z.land (u32 off) 65535) sel 0 0 (if istrap then STS_TG32 else STS_IG32) 0 d 1 (Z.shiftr (u32 off) 16).

(** ** The code *)
Module Seg.

(** The parts of struct cpu the processor reads, the addresses of two of its
    members, and the registers that point to them. *)
Record cpu := mkCpu {
  at_cpu : Z;          (* &c->cpu *)
  at_ts : Z;           (* &c->ts *)
  gdt : list segdesc;
  ts_ss0 : Z;
  ts_esp0 : Z;
  gdtr : Z;            (* limit of the table given to lgdt *)
  gs : Z;
  tr : Z;
  cr3 : Z;
  running : option nat (* proc *)
}.

Definition set_seg (i : Z) (d : segdesc) (c : cpu) : cpu :=
  mkCpu (at_cpu c) (at_ts c) (<[Z.to_nat i := d]> (gdt c)) (ts_ss0 c) (ts_esp0 c) (gdtr c) (gs c) (tr c) (cr3 c) (running c).

(** Each of the eight bytes of an entry counts; lgdt takes the size less one. *)
Definition gdt_limit : Z := Z.of_nat NSEGS * 8 - 1.

Definition seginit (c : cpu) : cpu :=
  let c := set_seg SEG_KCODE (SEG (Z.lor STA_X STA_R) 0 4294967295 0) c in
  let c := set_seg SEG_KDATA (SEG STA_W 0 4294967295 0) c in
  let c := set_seg SEG_UCODE (SEG (Z.lor STA_X STA_R) 0 4294967295 DPL_USER) c in
  let c := set_seg SEG_UDATA (SEG STA_W 0 4294967295 DPL_USER) c in
  let c := set_seg SEG_KCPU (SEG STA_W (at_cpu c) 8 0) c in
  mkCpu (at_cpu c) (at_ts c) (gdt c) (ts_ss0 c) (ts_esp0 c) gdt_limit (Z.shiftl SEG_KCPU 3) (tr c) (cr3 c) None.

Definition switchkvm (kpgdir : Z) (c : cpu) : cpu :=
  mkCpu (at_cpu c) (at_ts c) (gdt c) (ts_ss0 c) (ts_esp0 c) (gdtr c) (gs c) (tr c) (v2p kpgdir) (running c).

Definition clear_s (d : segdesc) : segdesc :=
  mkSegdesc (lim_15_0 d) (base_15_0 d) (base_23_16 d) (sd_type d) 0 (sd_dpl d) (sd_p d)
    (lim_19_16 d) (sd_avl d) (sd_rsv1 d) (sd_db d) (sd_g d) (base_31_24 d).

(** [sizeof(struct taskstate)] *)
Definition TASKSTATE : Z := 104.

(** [kstack] is [proc->kstack], [pgdir] is [p->pgdir]; [None] for the panic. *)
Definition switchuvm (kstack pgdir : Z) (c : cpu) : option cpu :=
  let c := set_seg SEG_TSS (clear_s (SEG16 STS_T32A (at_ts c) (TASKSTATE - 1) 0)) c in
  let c := mkCpu (at_cpu c) (at_ts c) (gdt c) (u16 (Z.shiftl SEG_KDATA 3)) (u32 (kstack + KSTACKSIZE))
             (gdtr c) (gs c) (Z.shiftl SEG_TSS 3) (cr3 c) (running c) in
  if pgdir =? 0 then None
  else Some (mkCpu (at_cpu c) (at_ts c) (gdt c) (ts_ss0 c) (ts_esp0 c) (gdtr c) (gs c) (tr c) (v2p pgdir) (running c)).

(** [vectors]: the entry points of vectors.S. *)
Definition tvinit (vectors : nat -> Z) : list gatedesc :=
  let idt := (fun i => SETGATE false (Z.shiftl SEG_KCODE 3) (vectors i) 0) <$> seq 0 256 in
  <[Z.to_nat T_SYSCALL := SETGATE true (Z.shiftl SEG_KCODE 3) (vectors (Z.to_nat T_SYSCALL)) DPL_USER]> idt.
End Seg.

(** ** Bit fields *)
(** The fields of a struct, each with its width, from the lowest bits up. *)
Fixpoint pack (fs : list (Z * Z)) : Z :=
  match fs with
  | [] => 0
  | (w, v) :: fs' => v mod 2 ^ w + 2 ^ w * pack fs'
  end.

Definition bits (lo w v : Z) : Z := (v / 2 ^ lo) mod 2 ^ w.

Definition segdesc_word (d : segdesc) : Z :=
  pack [(16, lim_15_0 d); (16, base_15_0 d); (8, base_23_16 d); (4, sd_type d); (1, sd_s d); (2, sd_dpl d); (1, sd_p d);
        (4, lim_19_16 d); (1, sd_avl d); (1, sd_rsv1 d); (1, sd_db d); (1, sd_g d); (8, base_31_24 d)].

Definition gatedesc_word (g : gatedesc) : Z :=
  pack [(16, off_15_0 g); (16, gd_cs g); (5, gd_args g); (3, gd_rsv1 g); (4, gd_type g); (1, gd_s g); (2, gd_dpl g); (1, gd_p g);
        (16, off_31_16 g)].

(** ** How the processor reads a descriptor *)
Definition seg_base (w : Z) : Z := bits 16 24 w + 2 ^ 24 * bits 56 8 w.
Definition seg_limit (w : Z) : Z :=
  let lim := bits 0 16 w + 2 ^ 16 * bits 48 4 w in
  if bits 55 1 w =? 1 then lim * 4096 + 4095 else lim.
Definition seg_type (w : Z) : Z := bits 40 4 w.
Definition seg_user (w : Z) : bool := bits 44 1 w =? 1.      (* code or data, not system *)
Definition seg_dpl (w : Z) : Z := bits 45 2 w.
Definition seg_present (w : Z) : bool := bits 47 1 w =? 1.
Definition gate_offset (w : Z) : Z := bits 0 16 w + 2 ^ 16 * bits 48 16 w.
Definition gate_selector (w : Z) : Z := bits 16 16 w.

(** ** Lemmas *)
Fixpoint width (fs : list (Z * Z)) : Z :=
  match fs with [] => 0 | (w, _) :: fs' => w + width fs' end.

Lemma bits_skip lo w v n : 0 <= n <= lo -> 0 <= w -> bits lo w v = bits (lo - n) w (v / 2 ^ n).
Proof.
  intros Hn Hw. unfold bits. rewrite Z.div_div by (try apply Z.pow_nonzero; try apply Z.pow_pos_nonneg; lia).
  rewrite <- Z.pow_add_r by lia. do 3 f_equal. lia.
Qed.

Lemma pack_tail w v fs : 0 <= w -> pack ((w, v) :: fs) / 2 ^ w = pack fs.
Proof.
  intros Hw. cbn [pack]. assert (0 < 2 ^ w) by (apply Z.pow_pos_nonneg; lia). rewrite Z.mul_comm, Z.div_add by lia.
  rewrite Z.div_small by (apply Z.mod_pos_bound; lia). lia.
Qed.

(** A field is read back where the widths before it say. *)
Lemma pack_nth fs : forall i w v, forallb (fun f => 0 <=? fst f) fs = true -> fs !! i = Some (w, v) ->
  bits (width (take i fs)) w (pack fs) = v mod 2 ^ w.
Proof.
  induction fs as [|[w0 v0] fs IH]; intros [|i] w v H Hi; try done; cbn [forallb fst] in H; apply andb_true_iff in H as [H0%Z.leb_le H].
  - injection Hi as -> ->. cbn [take width pack]. unfold bits. assert (0 < 2 ^ w) by (apply Z.pow_pos_nonneg; lia).
    rewrite Z.div_1_r, Z.mul_comm, Z.mod_add by lia. by rewrite Z.mod_mod by lia.
  - cbn [take width]. assert (0 <= width (take i fs) /\ 0 <= w) as [Hw Hw'].
    { clear IH H0. revert i H Hi. induction fs as [|[w1 v1] fs IH]; intros [|i] H Hi; try done; cbn in H; apply andb_true_iff in H as [H1%Z.leb_le H].
      - injection Hi as -> ->. cbn. lia.
      - cbn. destruct (IH i H Hi). lia. }
    rewrite (bits_skip _ _ _ w0) by lia. rewrite pack_tail by lia. replace (w0 + width (take i fs) - w0) with (width (take i fs)) by lia. by apply IH.
Qed.

(** Two fields next to each other read as one. *)
Lemma bits_join lo w w' v : 0 <= lo -> 0 <= w -> 0 <= w' -> bits lo (w + w') v = bits lo w v + 2 ^ w * bits (lo + w) w' v.
Proof.
  intros H0 H1 H2. unfold bits. assert (0 < 2 ^ w) by (apply Z.pow_pos_nonneg; lia). assert (0 < 2 ^ w') by (apply Z.pow_pos_nonneg; lia).
  assert (0 < 2 ^ lo) by (apply Z.pow_pos_nonneg; lia). rewrite (Z.pow_add_r 2 lo w), <- Z.div_div by lia. rewrite Z.pow_add_r by lia.
  apply Z.rem_mul_r; lia.
Qed.

(** The fields of a segment descriptor and of a gate, in the words the
    processor reads. *)
Ltac packed i := match goal with |- bits _ _ (pack ?fs) = _ => exact (pack_nth fs i _ _ eq_refl eq_refl) end.

Lemma segdesc_fields d :
  bits 0 16 (segdesc_word d) = lim_15_0 d mod 2 ^ 16 /\ bits 16 16 (segdesc_word d) = base_15_0 d mod 2 ^ 16 /\
  bits 32 8 (segdesc_word d) = base_23_16 d mod 2 ^ 8 /\ bits 40 4 (segdesc_word d) = sd_type d mod 2 ^ 4 /\
  bits 44 1 (segdesc_word d) = sd_s d mod 2 /\ bits 45 2 (segdesc_word d) = sd_dpl d mod 2 ^ 2 /\
  bits 47 1 (segdesc_word d) = sd_p d mod 2 /\ bits 48 4 (segdesc_word d) = lim_19_16 d mod 2 ^ 4 /\
  bits 55 1 (segdesc_word d) = sd_g d mod 2 /\ bits 56 8 (segdesc_word d) = base_31_24 d mod 2 ^ 8.
Proof.
  unfold segdesc_word. repeat split.
  - packed 0%nat.
  - packed 1%nat.
  - packed 2%nat.
  - packed 3%nat.
  - packed 4%nat.
  - packed 5%nat.
  - packed 6%nat.
  - packed 7%nat.
  - packed 11%nat.
  - packed 12%nat.
Qed.

Lemma gatedesc_fields g :
  bits 0 16 (gatedesc_word g) = off_15_0 g mod 2 ^ 16 /\ bits 16 16 (gatedesc_word g) = gd_cs g mod 2 ^ 16 /\
  bits 40 4 (gatedesc_word g) = gd_type g mod 2 ^ 4 /\ bits 44 1 (gatedesc_word g) = gd_s g mod 2 /\
  bits 45 2 (gatedesc_word g) = gd_dpl g mod 2 ^ 2 /\ bits 47 1 (gatedesc_word g) = gd_p g mod 2 /\
  bits 48 16 (gatedesc_word g) = off_31_16 g mod 2 ^ 16.
Proof.
  unfold gatedesc_word. repeat split.
  - packed 0%nat.
  - packed 1%nat.
  - packed 4%nat.
  - packed 5%nat.
  - packed 6%nat.
  - packed 7%nat.
  - packed 8%nat.
Qed.

(** A segment and a gate as the processor sees them. *)
Record segview := mkSegview { v_base : Z; v_limit : Z; v_type : Z; v_user : bool; v_dpl : Z; v_present : bool }.
Definition seg_view (w : Z) : segview :=
  mkSegview (seg_base w) (seg_limit w) (seg_type w) (seg_user w) (seg_dpl w) (seg_present w).

Record gateview := mkGateview { g_offset : Z; g_selector : Z; g_type : Z; g_dpl : Z; g_present : bool }.
Definition gate_view (w : Z) : gateview :=
  mkGateview (gate_offset w) (gate_selector w) (seg_type w) (seg_dpl w) (seg_present w).

Lemma low_bits v w : 0 <= w -> Z.land v (Z.ones w) = v mod 2 ^ w.
Proof. apply Z.land_ones. Qed.

(** A 32-bit value is its low 16, next 8 and high 8 bits. *)
Lemma split_base b : 0 <= b < 2 ^ 32 ->
  Z.land b 65535 mod 2 ^ 16 + 2 ^ 16 * (Z.land (Z.shiftr b 16) 255 mod 2 ^ 8) + 2 ^ 24 * (Z.shiftr b 24 mod 2 ^ 8) = b.
Proof.
  intros Hb. change 65535 with (Z.ones 16). change 255 with (Z.ones 8). rewrite !low_bits, !Z.shiftr_div_pow2 by lia. rewrite !Z.mod_mod by done.
  Z.to_euclidean_division_equations. lia.
Qed.

(** The view of a descriptor whose base fields come from [base]. *)
Lemma seg_view_fields type base l16 l20 s dpl p db g : 0 <= base < 2 ^ 32 -> 0 <= type < 16 -> 0 <= dpl < 4 -> 0 <= p < 2 -> 0 <= s < 2 -> 0 <= g < 2 ->
  let lim := l16 mod 2 ^ 16 + 2 ^ 16 * (l20 mod 2 ^ 4) in
  seg_view (segdesc_word (mkSegdesc l16 (Z.land (u32 base) 65535) (Z.land (Z.shiftr (u32 base) 16) 255) type s dpl p l20 0 0 db g (Z.shiftr (u32 base) 24))) =
  mkSegview base (if g =? 1 then lim * 4096 + 4095 else lim) type (s =? 1) dpl (p =? 1).
Proof.
  intros Hb Ht Hd Hp Hs Hg lim. assert (u32 base = base) as -> by (apply Z.mod_small; lia). unfold seg_view, seg_base, seg_limit, seg_type, seg_user, seg_dpl, seg_present.
  match goal with |- context [segdesc_word ?d] => destruct (segdesc_fields d) as (E1 & E2 & E3 & E4 & E5 & E6 & E7 & E8 & E9 & E10) end.
  cbn [lim_15_0 base_15_0 base_23_16 sd_type sd_s sd_dpl sd_p lim_19_16 sd_g base_31_24] in *.
  rewrite (bits_join 16 16 8) by lia. change (16 + 16) with 32. rewrite E1, E2, E3, E4, E5, E6, E7, E8, E9, E10, split_base by lia.
  rewrite !(Z.mod_small type), !(Z.mod_small dpl), !(Z.mod_small p), !(Z.mod_small s), !(Z.mod_small g) by lia. done.
Qed.

Lemma SEG_view type base lim dpl : 0 <= base < 2 ^ 32 -> 0 <= lim < 2 ^ 32 -> 0 <= type < 16 -> 0 <= dpl < 4 ->
  seg_view (segdesc_word (SEG type base lim dpl)) = mkSegview base (lim / 4096 * 4096 + 4095) type true dpl true.
Proof.
  intros Hb Hl Ht Hd. unfold SEG. rewrite seg_view_fields by lia. cbv zeta. cbn [Z.eqb Pos.eqb]. f_equal. do 2 f_equal.
  assert (u32 lim = lim) as -> by (apply Z.mod_small; lia). change 65535 with (Z.ones 16). rewrite low_bits, !Z.shiftr_div_pow2, Z.mod_mod by lia.
  Z.to_euclidean_division_equations. lia.
Qed.

Lemma SEG16_view type base lim dpl : 0 <= base < 2 ^ 32 -> 0 <= lim < 2 ^ 20 -> 0 <= type < 16 -> 0 <= dpl < 4 ->
  seg_view (segdesc_word (SEG16 type base lim dpl)) = mkSegview base lim type true dpl true /\
  seg_view (segdesc_word (Seg.clear_s (SEG16 type base lim dpl))) = mkSegview base lim type false dpl true.
Proof.
  intros Hb Hl Ht Hd. assert (Z.land lim 65535 mod 2 ^ 16 + 2 ^ 16 * (Z.shiftr (u32 lim) 16 mod 2 ^ 4) = lim) as E.
  { assert (u32 lim = lim) as -> by (apply Z.mod_small; lia). change 65535 with (Z.ones 16). rewrite low_bits, !Z.shiftr_div_pow2, Z.mod_mod by lia.
    Z.to_euclidean_division_equations. lia. }
  unfold SEG16, Seg.clear_s. cbn [lim_15_0 base_15_0 base_23_16 sd_type sd_dpl sd_p lim_19_16 sd_avl sd_rsv1 sd_db sd_g base_31_24].
  rewrite !seg_view_fields by lia. cbv zeta. cbn [Z.eqb Pos.eqb]. by rewrite E.
Qed.

Lemma SETGATE_view istrap sel off d : 0 <= off < 2 ^ 32 -> 0 <= sel < 2 ^ 16 -> 0 <= d < 4 ->
  gate_view (gatedesc_word (SETGATE istrap sel off d)) = mkGateview off sel (if istrap then STS_TG32 else STS_IG32) d true.
Proof.
  intros Ho Hs Hd. unfold gate_view, gate_offset, gate_selector, seg_type, seg_dpl, seg_present.
  destruct (gatedesc_fields (SETGATE istrap sel off d)) as (E1 & E2 & E3 & _ & E5 & E6 & E7). cbn [SETGATE off_15_0 gd_cs gd_type gd_dpl gd_p off_31_16] in *.
  rewrite E1, E2, E3, E5, E6, E7. assert (u32 off = off) as -> by (apply Z.mod_small; lia).
  change 65535 with (Z.ones 16). rewrite low_bits, !Z.shiftr_div_pow2, Z.mod_mod by lia. rewrite (Z.mod_small sel), (Z.mod_small d) by lia.
  f_equal; [|by destruct istrap]. Z.to_euclidean_division_equations. lia.
Qed.

(** The descriptors mean what the macros were told: the processor reads back
    from the packed bit fields the base, the limit (in whole pages for [SEG], in
    bytes for [SEG16]), the type, the privilege level and the entry point. *)
Theorem descriptor_roundtrip type base lim dpl istrap sel off : 0 <= base < 2 ^ 32 -> 0 <= lim < 2 ^ 32 -> 0 <= type < 16 -> 0 <= dpl < 4 ->
  0 <= sel < 2 ^ 16 -> 0 <= off < 2 ^ 32 ->
  seg_view (segdesc_word (SEG type base lim dpl)) = mkSegview base (lim / 4096 * 4096 + 4095) type true dpl true /\
  (lim < 2 ^ 20 -> seg_view (segdesc_word (SEG16 type base lim dpl)) = mkSegview base lim type true dpl true) /\
  gate_view (gatedesc_word (SETGATE istrap sel off dpl)) = mkGateview off sel (if istrap then STS_TG32 else STS_IG32) dpl true.
Proof.
  intros Hb Hl Ht Hd Hs Ho. split; [by apply SEG_view|]. split; [|by apply SETGATE_view]. intros Hl'. apply (SEG16_view type base lim dpl); [exact Hb|lia|exact Ht|exact Hd].
Qed.

Lemma descriptor_roundtrip_witness : seg_view (segdesc_word (SEG STA_W 2148532224 8 0)) = mkSegview 2148532224 4095 2 true 0 true.
Proof. apply (descriptor_roundtrip STA_W 2148532224 8 0 false 8 0); done. Defined.

(** ** Entering the kernel

    What the processor does with vector [n] in a process at privilege level
    [cpl] (Intel's manual, volume 3, chapter 6): the gate must be present and
    is an interrupt or a trap gate; an [int] instruction also needs the
    privilege the gate asks for; the gate's selector must name a present code
    segment at least as privileged as the process; when it is more privileged,
    the stack comes from the task state the task register names.  An interrupt
    gate turns interrupts off. *)
Record landing := mkLanding { l_cs : Z; l_eip : Z; l_cpl : Z; l_ss : Z; l_esp : Z; l_if : bool }.

(** The descriptor a selector names. *)
Definition descriptor (c : Seg.cpu) (sel : Z) : option segview :=
  let i := sel / 8 in
  if (i =? 0) || (Seg.gdtr c <? i * 8 + 7) then None else (fun d => seg_view (segdesc_word d)) <$> Seg.gdt c !! Z.to_nat i.

Definition is_code (v : segview) : bool := v_present v && v_user v && (8 <=? v_type v).
Definition is_stack (v : segview) (cpl : Z) : bool := v_present v && v_user v && (v_type v =? STA_W) && (v_dpl v =? cpl).
Definition is_tss (v : segview) : bool := v_present v && negb (v_user v) && (v_type v =? STS_T32A) && (Seg.TASKSTATE - 1 <=? v_limit v).

(** [ss0] and [esp0] of the current task. *)
Definition kernel_stack (c : Seg.cpu) (cpl : Z) : option (Z * Z) :=
  match descriptor c (Seg.tr c) with
  | Some v =>
      if is_tss v && (v_base v =? Seg.at_ts c) then
        match descriptor c (Seg.ts_ss0 c) with
        | Some st => if is_stack st cpl then Some (Seg.ts_ss0 c, Seg.ts_esp0 c) else None
        | None => None
        end
      else None
  | None => None
  end.

Definition deliver (c : Seg.cpu) (idt : list gatedesc) (int : bool) (cpl n : Z) (ifl : bool) : option landing :=
  match idt !! Z.to_nat n with
  | None => None
  | Some g =>
      let v := gate_view (gatedesc_word g) in
      if negb (g_present v) || (int && (g_dpl v <? cpl)) || negb ((g_type v =? STS_IG32) || (g_type v =? STS_TG32)) then None else
      match descriptor c (g_selector v) with
      | None => None
      | Some s =>
          if negb (is_code s) || (cpl <? v_dpl s) || (v_limit s <? g_offset v) || negb (v_dpl s <? cpl) then None else
          match kernel_stack c (v_dpl s) with
          | None => None
          | Some (ss, esp) => Some (mkLanding (g_selector v) (g_offset v) (v_dpl s) ss esp (ifl && (g_type v =? STS_TG32)))
          end
      end
  end.

(** What happens to a CPU after [seginit]: switches between processes and the
    scheduler. *)
Inductive switched (c : Seg.cpu) : Seg.cpu -> Prop :=
| sw_start : switched c (Seg.seginit c)
| sw_kvm kpgdir c' : switched c c' -> switched c (Seg.switchkvm kpgdir c')
| sw_uvm kstack pgdir c' c'' : switched c c' -> Seg.switchuvm kstack pgdir c' = Some c'' -> switched c c''.

(** The kernel's descriptors stay in place. *)
Record gdt_ok (c : Seg.cpu) : Prop := {
  go_gdtr : Seg.gdtr c = Seg.gdt_limit;
  go_len : length (Seg.gdt c) = NSEGS;
  go_kcode : Seg.gdt c !! 1%nat = Some (SEG (Z.lor STA_X STA_R) 0 4294967295 0);
  go_kdata : Seg.gdt c !! 2%nat = Some (SEG STA_W 0 4294967295 0);
  go_ucode : Seg.gdt c !! 4%nat = Some (SEG (Z.lor STA_X STA_R) 0 4294967295 DPL_USER);
  go_udata : Seg.gdt c !! 5%nat = Some (SEG STA_W 0 4294967295 DPL_USER)
}.

Lemma switched_ok c c' : length (Seg.gdt c) = NSEGS -> switched c c' -> gdt_ok c' /\ Seg.at_ts c' = Seg.at_ts c.
Proof.
  intros Hlen. induction 1 as [|kpgdir c' _ [[] IH]|kstack pgdir c' c'' _ [[] IH] E].
  - split; [|done]. destruct c as [a b g]. cbn in Hlen. do 7 (destruct g as [|? g]; [done|]). destruct g; [|done]. by constructor.
  - split; [|done]. by constructor.
  - unfold Seg.switchuvm in E. destruct (pgdir =? 0); [done|]. injection E as <-. split; [|done].
    constructor; cbn -[SEG SEG16]; rewrite ?length_insert; try done; by rewrite list_lookup_insert_ne.
Qed.

Lemma tvinit_lookup vectors n : (n < 256)%nat -> Seg.tvinit vectors !! n =
  Some (SETGATE (bool_decide (n = 64%nat)) 8 (vectors n) (if bool_decide (n = 64%nat) then DPL_USER else 0)).
Proof.
  intros Hn. unfold Seg.tvinit. change (Z.to_nat T_SYSCALL) with 64%nat. case_bool_decide as E.
  - subst. by rewrite list_lookup_insert_eq.
  - rewrite list_lookup_insert_ne by done. rewrite list_lookup_fmap, lookup_seq_lt by lia. done.
Qed.

Lemma descriptor_at c sel i d : gdt_ok c -> (0 < i < NSEGS)%nat -> sel / 8 = Z.of_nat i -> Seg.gdt c !! i = Some d ->
  descriptor c sel = Some (seg_view (segdesc_word d)).
Proof.
  intros Hok Hi Hs Hd. unfold descriptor. rewrite Hs, (go_gdtr _ Hok), Nat2Z.id, Hd. unfold Seg.gdt_limit, NSEGS in *.
  change (Z.of_nat 7 * 8 - 1) with 55. destruct (Z.eqb_spec (Z.of_nat i) 0); [lia|]. by destruct (Z.ltb_spec 55 (Z.of_nat i * 8 + 7)); [lia|].
Qed.

(** After [switchuvm] the task register leads to the kernel stack. *)
Lemma switchuvm_stack c c' c'' kstack pgdir : length (Seg.gdt c) = NSEGS -> 0 <= Seg.at_ts c < 2 ^ 32 -> switched c c' ->
  Seg.switchuvm kstack pgdir c' = Some c'' -> kernel_stack c'' 0 = Some (16, u32 (kstack + KSTACKSIZE)).
Proof.
  intros Hlen Hts Hsw E. destruct (switched_ok c c'' Hlen (sw_uvm _ _ _ _ _ Hsw E)) as [Hok Hat].
  destruct (switched_ok c c' Hlen Hsw) as [Hok' Hat']. pose proof (go_len _ Hok') as Hl'.
  assert (Seg.gdt c'' !! 6%nat = Some (Seg.clear_s (SEG16 STS_T32A (Seg.at_ts c) (Seg.TASKSTATE - 1) 0)) /\ Seg.tr c'' = 48 /\
    Seg.ts_ss0 c'' = 16 /\ Seg.ts_esp0 c'' = u32 (kstack + KSTACKSIZE)) as (H6 & Htr & Hss & Hesp).
  { unfold Seg.switchuvm in E. destruct (pgdir =? 0); [done|]. injection E as <-. cbn in Hat |- *.
    rewrite list_lookup_insert_eq by (rewrite Hl'; vm_compute; lia). by rewrite Hat'. }
  unfold kernel_stack. rewrite Htr, Hss, Hesp. rewrite (descriptor_at c'' 48 6 _ Hok ltac:(unfold NSEGS; lia) eq_refl H6).
  rewrite (descriptor_at c'' 16 2 _ Hok ltac:(unfold NSEGS; lia) eq_refl (go_kdata _ Hok)).
  rewrite (proj2 (SEG16_view STS_T32A (Seg.at_ts c) (Seg.TASKSTATE - 1) 0 ltac:(done) ltac:(done) ltac:(done) ltac:(done))), SEG_view by done.
  cbn [v_base]. by rewrite Hat, Z.eqb_refl.
Qed.

(** C10: the tables the kernel sets up protect its entry points: after [seginit]
    and any process switches, in a process just switched to, an [int]
    instruction in user mode is refused except for the system call, which
    enters at its vector with interrupts on; every interrupt, fault and trap
    enters at its own vector with interrupts off, except the system call's; all
    of them run in ring 0 in the kernel's code segment, on the kernel's stack
    segment at the top of the kernel stack of the process. *)
Theorem kernel_entry c c' c'' kstack pgdir vectors n ifl : length (Seg.gdt c) = NSEGS -> 0 <= Seg.at_ts c < 2 ^ 32 ->
  switched c c' -> Seg.switchuvm kstack pgdir c' = Some c'' -> 0 <= n < 256 -> 0 <= vectors (Z.to_nat n) < 2 ^ 32 ->
  let at_vector i := Some (mkLanding 8 (vectors (Z.to_nat n)) 0 16 (u32 (kstack + KSTACKSIZE)) i) in
  deliver c'' (Seg.tvinit vectors) true DPL_USER n ifl = (if n =? T_SYSCALL then at_vector ifl else None) /\
  deliver c'' (Seg.tvinit vectors) false DPL_USER n ifl = at_vector (ifl && (n =? T_SYSCALL)).
Proof.
  intros Hlen Hts Hsw E Hn Hv at_vector. pose proof (switchuvm_stack c c' c'' kstack pgdir Hlen Hts Hsw E) as Hst.
  destruct (switched_ok c c'' Hlen (sw_uvm _ _ _ _ _ Hsw E)) as [Hok _].
  assert (bool_decide (Z.to_nat n = 64%nat) = (n =? T_SYSCALL)) as Eb by (case_bool_decide as En; symmetry; [apply Z.eqb_eq|apply Z.eqb_neq]; unfold T_SYSCALL; lia).
  assert (forall int, deliver c'' (Seg.tvinit vectors) int DPL_USER n ifl = if int && negb (n =? T_SYSCALL) then None else at_vector (ifl && (n =? T_SYSCALL))) as H.
  { intros int. unfold deliver. rewrite tvinit_lookup by lia. rewrite SETGATE_view by (try done; by case_bool_decide).
    cbn [g_present g_dpl g_type g_selector g_offset]. rewrite (descriptor_at c'' 8 1 _ Hok ltac:(unfold NSEGS; lia) eq_refl (go_kcode _ Hok)), SEG_view by done.
    cbn [v_dpl v_limit]. rewrite Hst, Eb. replace (4294967295 / 4096 * 4096 + 4095 <? vectors (Z.to_nat n)) with false
      by (symmetry; apply Z.ltb_ge; change (4294967295 / 4096 * 4096 + 4095) with 4294967295; lia).
    by destruct (n =? T_SYSCALL), int. }
  rewrite !H. split; [|done]. destruct (n =? T_SYSCALL); cbn [andb negb]; by rewrite ?andb_true_r.
Qed.

(** ** Example: a process with its kernel stack at 0x80400000 *)
Definition ex_cpu : Seg.cpu := Seg.mkCpu 2148532400 2148532232 (replicate NSEGS (SEG 0 0 0 0)) 0 0 0 0 0 0 None.

Lemma kernel_entry_witness : exists c, Seg.switchuvm 2151677952 2151682048 (Seg.seginit ex_cpu) = Some c /\
  deliver c (Seg.tvinit (fun n => 2148536320 + 10 * Z.of_nat n)) true 3 64 true = Some (mkLanding 8 2148536960 0 16 2151682048 true) /\
  deliver c (Seg.tvinit (fun n => 2148536320 + 10 * Z.of_nat n)) false 3 32 true = Some (mkLanding 8 2148536640 0 16 2151682048 false).
Proof.
  eexists. split; [reflexivity|]. split.
  - eapply (kernel_entry ex_cpu (Seg.seginit ex_cpu) _ 2151677952 2151682048 (fun n => 2148536320 + 10 * Z.of_nat n) 64 true); [done|done|constructor|reflexivity|done|done].
  - eapply (kernel_entry ex_cpu (Seg.seginit ex_cpu) _ 2151677952 2151682048 (fun n => 2148536320 + 10 * Z.of_nat n) 32 true); [done|done|constructor|reflexivity|done|done].
Defined.
