(* ===== verification/Hw.v ===== *)
(** * Devices behind ports and memory-mapped registers

    picirq.c, timer.c, ioapic.c, lapic.c, the port accesses of uart.c and the
    set-up of ide.c.  A device is known by the history of the accesses to it:
    [Hardware] answers each read from that history.  [machine] is the kernel
    state together with the history and the variables of these files.  What the
    interrupt controllers do with the history is in [Irq]. *)

From S2P Require Import Prelude Bytes Kstate Sync Kalloc Disk Bio Log Fs Console Vm Proc Trap.
Local Open Scope Z_scope.

(** ** Accesses *)
(** Port output and input of a byte; a 32-bit write and read of device memory. *)
Inductive access : Type :=
| Out (port v : Z)
| In (port v : Z)
| Wr (addr v : Z)
| Rd (addr v : Z).

(** What the devices answer, given the accesses so far, newest first. *)
Class Hardware := {
  port_in : list access -> Z -> Z;
  mmio_in : list access -> Z -> Z;
  port_in_range l p : 0 <= port_in l p < 256;
  mmio_in_range l a : 0 <= mmio_in l a < 2 ^ 32
}.

(** ** The machine while it starts *)
Definition NCPU : nat := 8.

Record machine := mkMachine {
  m_k : kstate;
  m_log : list access;         (* newest first *)
  m_irqmask : Z;               (* irqmask of picirq.c *)
  m_ismp : bool;               (* ismp, ncpu, bcpu, ioapicid of mp.c *)
  m_ncpu : Z;
  m_bcpu : Z;
  m_ioapicid : Z;
  m_cpus : list Z;             (* cpus[i].id *)
  m_lapic : Z;                 (* lapic, 0 for the null pointer *)
  m_havedisk1 : bool;          (* havedisk1 of ide.c *)
  m_calls : Z                  (* n of cpunum *)
}.

Definition machine_eta (s : machine) : machine :=
  mkMachine (m_k s) (m_log s) (m_irqmask s) (m_ismp s) (m_ncpu s) (m_bcpu s) (m_ioapicid s) (m_cpus s) (m_lapic s) (m_havedisk1 s)
    (m_calls s).
Definition set_m_k (v : kstate) (s : machine) : machine := ltac:(with_field m_k v s machine_eta).
Definition set_m_log (v : list access) (s : machine) : machine := ltac:(with_field m_log v s machine_eta).
Definition set_m_irqmask (v : Z) (s : machine) : machine := ltac:(with_field m_irqmask v s machine_eta).
Definition set_m_ismp (v : bool) (s : machine) : machine := ltac:(with_field m_ismp v s machine_eta).
Definition set_m_ncpu (v : Z) (s : machine) : machine := ltac:(with_field m_ncpu v s machine_eta).
Definition set_m_bcpu (v : Z) (s : machine) : machine := ltac:(with_field m_bcpu v s machine_eta).
Definition set_m_ioapicid (v : Z) (s : machine) : machine := ltac:(with_field m_ioapicid v s machine_eta).
Definition set_m_cpus (v : list Z) (s : machine) : machine := ltac:(with_field m_cpus v s machine_eta).
Definition set_m_lapic (v : Z) (s : machine) : machine := ltac:(with_field m_lapic v s machine_eta).
Definition set_m_havedisk1 (v : bool) (s : machine) : machine := ltac:(with_field m_havedisk1 v s machine_eta).
Definition set_m_calls (v : Z) (s : machine) : machine := ltac:(with_field m_calls v s machine_eta).

Abbreviation B := (M machine).

(** A kernel routine on the machine; nothing else runs yet. *)
Definition kern {A} (m : K A) : B A := fun s e =>
  match m (m_k s) [] with
  | Ok a k _ => Ok a (set_m_k k s) e
  | Panic msg k => Panic msg (set_m_k k s)
  | Fault why k => Fault why (set_m_k k s)
  | Blocked k => Blocked (set_m_k k s)
  | Hang k => Hang (set_m_k k s)
  end.

Section Devices.
Context {Hw : Hardware}.

(** ** x86.h *)
Definition logged (x : access) : B unit := modify (fun s => set_m_log (x :: m_log s) s).
Definition outb (port v : Z) : B unit := logged (Out port (u8 v)).
Definition inb (port : Z) : B Z :=
  let! l := gets m_log in
  let v := port_in l port in
  do logged (In port v);
  ret v.
Definition mmio_write (a v : Z) : B unit := logged (Wr a (u32 v)).
Definition mmio_read (a : Z) : B Z :=
  let! l := gets m_log in
  let v := mmio_in l a in
  do logged (Rd a v);
  ret v.

(** [while(test(read()));], for at most [fuel] reads that do not end it. *)
Fixpoint poll (fuel : nat) (read : B Z) (test : Z -> bool) : B Z :=
  let! v := read in
  if test v then match fuel with O => hang | S f => poll f read test end else ret v.

(** ** picirq.c *)
Definition IO_PIC1 : Z := 32.
Definition IO_PIC2 : Z := 160.
Definition IRQ_SLAVE : Z := 2.
(** The initial value of [irqmask]. *)
Definition irqmask0 : Z := Z.land 65535 (Z.lnot (Z.shiftl 1 IRQ_SLAVE)).

Definition picsetmask (mask : Z) : B unit :=
  do modify (set_m_irqmask mask);
  do outb (IO_PIC1 + 1) mask;
  outb (IO_PIC2 + 1) (Z.shiftr mask 8).

Definition picenable (irq : Z) : B unit :=
  let! m := gets m_irqmask in
  picsetmask (u16 (Z.land m (Z.lnot (Z.shiftl 1 irq)))).

Definition picinit : B unit :=
  do outb (IO_PIC1 + 1) 255;
  do outb (IO_PIC2 + 1) 255;
  do outb IO_PIC1 17;
  do outb (IO_PIC1 + 1) T_IRQ0;
  do outb (IO_PIC1 + 1) (Z.shiftl 1 IRQ_SLAVE);
  do outb (IO_PIC1 + 1) 3;
  do outb IO_PIC2 17;
  do outb (IO_PIC2 + 1) (T_IRQ0 + 8);
  do outb (IO_PIC2 + 1) IRQ_SLAVE;
  do outb (IO_PIC2 + 1) 3;
  do outb IO_PIC1 104;
  do outb IO_PIC1 10;
  do outb IO_PIC2 104;
  do outb IO_PIC2 10;
  let! m := gets m_irqmask in
  when (negb (m =? 65535)) (picsetmask m).

(** ** timer.c *)
Definition IO_TIMER1 : Z := 64.
Definition TIMER_FREQ : Z := 1193182.
Definition TIMER_DIV (x : Z) : Z := (TIMER_FREQ + x / 2) / x.
Definition TIMER_MODE : Z := IO_TIMER1 + 3.
Definition TIMER_SEL0 : Z := 0.
Definition TIMER_RATEGEN : Z := 4.
Definition TIMER_16BIT : Z := 48.

Definition timerinit : B unit :=
  do outb TIMER_MODE (Z.lor (Z.lor TIMER_SEL0 TIMER_RATEGEN) TIMER_16BIT);
  do outb IO_TIMER1 (TIMER_DIV 100 mod 256);
  do outb IO_TIMER1 (TIMER_DIV 100 / 256);
  picenable IRQ_TIMER.

(** ** ioapic.c *)
Definition IOAPIC : Z := 4273995776.
Definition REG_ID : Z := 0.
Definition REG_VER : Z := 1.
Definition REG_TABLE : Z := 16.
Definition INT_DISABLED : Z := 65536.

(** [ioapic->reg] is at the address of the device, [ioapic->data] 16 bytes on. *)
Definition ioapicread (reg : Z) : B Z :=
  do mmio_write IOAPIC reg;
  mmio_read (IOAPIC + 16).

Definition ioapicwrite (reg data : Z) : B unit :=
  do mmio_write IOAPIC reg;
  mmio_write (IOAPIC + 16) data.

Definition ioapic_entry (i : nat) : B unit :=
  do ioapicwrite (REG_TABLE + 2 * Z.of_nat i) (Z.lor INT_DISABLED (T_IRQ0 + Z.of_nat i));
  ioapicwrite (REG_TABLE + 2 * Z.of_nat i + 1) 0.

Definition ioapicinit : B unit :=
  let! mp := gets m_ismp in
  if negb mp then ret tt else
  let! ver := ioapicread REG_VER in
  let maxintr := Z.land (Z.shiftr ver 16) 255 in
  let! rid := ioapicread REG_ID in
  let! id := gets m_ioapicid in
  do when (negb (Z.shiftr rid 24 =? id))
       (kern (cprintf (lit "ioapicinit: id isn't equal to ioapicid; not a MP" ++ [nl]) []));
  mfor (Z.to_nat (maxintr + 1)) 0 ioapic_entry.

Definition ioapicenable (irq cpunum : Z) : B unit :=
  let! mp := gets m_ismp in
  if negb mp then ret tt else
  do ioapicwrite (REG_TABLE + 2 * irq) (T_IRQ0 + irq);
  ioapicwrite (REG_TABLE + 2 * irq + 1) (Z.shiftl cpunum 24).

(** ** lapic.c *)
(** Registers, as indices of 32-bit words. *)
Definition ID : Z := 32 / 4.
Definition VER : Z := 48 / 4.
Definition TPR : Z := 128 / 4.
Definition EOI : Z := 176 / 4.
Definition SVR : Z := 240 / 4.
Definition ENABLE : Z := 256.
Definition ESR : Z := 640 / 4.
Definition ICRLO : Z := 768 / 4.
Definition INIT : Z := 1280.
Definition STARTUP : Z := 1536.
Definition DELIVS : Z := 4096.
Definition ASSERT : Z := 16384.
Definition LEVEL : Z := 32768.
Definition BCAST : Z := 524288.
Definition ICRHI : Z := 784 / 4.
Definition TIMER : Z := 800 / 4.
Definition X1 : Z := 11.
Definition PERIODIC : Z := 131072.
Definition PCINT : Z := 832 / 4.
Definition LINT0 : Z := 848 / 4.
Definition LINT1 : Z := 864 / 4.
Definition ERROR : Z := 880 / 4.
Definition MASKED : Z := 65536.
Definition TICR : Z := 896 / 4.
Definition TDCR : Z := 992 / 4.
Definition IRQ_ERROR : Z := 19.

Definition lapic_read (index : Z) : B Z :=
  let! lapic := gets m_lapic in
  mmio_read (lapic + 4 * index).

Definition lapicw (index value : Z) : B unit :=
  let! lapic := gets m_lapic in
  do mmio_write (lapic + 4 * index) value;
  do lapic_read ID;
  ret tt.

(** [fuel]: how often the delivery status is polled at most. *)
Definition lapicinit (fuel : nat) : B unit :=
  let! lapic := gets m_lapic in
  if lapic =? 0 then ret tt else
  do lapicw SVR (Z.lor ENABLE (T_IRQ0 + IRQ_SPURIOUS));
  do lapicw TDCR X1;
  do lapicw TIMER (Z.lor PERIODIC (T_IRQ0 + IRQ_TIMER));
  do lapicw TICR 10000000;
  do lapicw LINT0 MASKED;
  do lapicw LINT1 MASKED;
  let! ver := lapic_read VER in
  do when (4 <=? Z.land (Z.shiftr ver 16) 255) (lapicw PCINT MASKED);
  do lapicw ERROR (T_IRQ0 + IRQ_ERROR);
  do lapicw ESR 0;
  do lapicw ESR 0;
  do lapicw EOI 0;
  do lapicw ICRHI 0;
  do lapicw ICRLO (Z.lor (Z.lor BCAST INIT) LEVEL);
  do poll fuel (lapic_read ICRLO) (fun v => negb (Z.land v DELIVS =? 0));
  lapicw TPR 0.

(** [eflags] is the flags register, [ra] the address [cpunum] was called from. *)
Definition cpunum (eflags ra : Z) : B Z :=
  do when (negb (Z.land eflags FL_IF =? 0))
    (let! n := gets m_calls in
     do modify (set_m_calls (n + 1));
     when (n =? 0)
       (kern (cprintf (lit "cpu called from %x with interrupts enabled" ++ [nl]) [AInt ra])));
  let! lapic := gets m_lapic in
  if lapic =? 0 then ret 0 else
  let! v := lapic_read ID in
  ret (Z.shiftr v 24).

Definition lapiceoi : B unit :=
  let! lapic := gets m_lapic in
  when (negb (lapic =? 0)) (lapicw EOI 0).

(** The switch of [trap] in trap.c with the acknowledgement of interrupts: the
    cases that end in [lapiceoi] are all but the second IDE channel's and the
    default one. *)
Definition acknowledged (n : Z) : bool :=
  bool_decide (n ∈ [T_IRQ0 + IRQ_TIMER; T_IRQ0 + IRQ_IDE; T_IRQ0 + IRQ_KBD; T_IRQ0 + IRQ_COM1; T_IRQ0 + 7; T_IRQ0 + IRQ_SPURIOUS]).

Definition trap_switch {Lay : Layout} {Dev : BlockDev} {Sw : DevSw} (env : trap_env) (tf : trapframe) : B unit :=
  do kern (trap_dispatch env tf);
  when (acknowledged (tf_trapno tf)) lapiceoi.

Definition CMOS_PORT : Z := 112.
Definition CMOS_RETURN : Z := 113.

(** [wrv[0] = 0; wrv[1] = addr >> 4;] *)
Definition warm_reset_vector (addr : Z) : K unit :=
  let wrv := KERNBASE + Z.lor (Z.shiftl 64 4) 103 in
  do store_bytes wrv (le_bytes 2 0);
  store_bytes (wrv + 2) (le_bytes 2 (Z.shiftr addr 4)).

Definition lapicstartap (apicid addr : Z) : B unit :=
  do outb CMOS_PORT 15;
  do outb (CMOS_PORT + 1) 10;
  do kern (warm_reset_vector addr);
  do lapicw ICRHI (Z.shiftl apicid 24);
  do lapicw ICRLO (Z.lor (Z.lor INIT LEVEL) ASSERT);
  do lapicw ICRLO (Z.lor INIT LEVEL);
  mfor 2 0 (fun _ =>
    do lapicw ICRHI (Z.shiftl apicid 24);
    lapicw ICRLO (Z.lor STARTUP (Z.shiftr addr 12))).

Definition CMOS_STATA : Z := 10.
Definition CMOS_STATB : Z := 11.
Definition CMOS_UIP : Z := Z.shiftl 1 7.
Definition SECS : Z := 0.
Definition MINS : Z := 2.
Definition HOURS : Z := 4.
Definition DAY : Z := 7.
Definition MONTH : Z := 8.
Definition YEAR : Z := 9.

Record rtcdate := mkRtc { r_second : Z; r_minute : Z; r_hour : Z; r_day : Z; r_month : Z; r_year : Z }.

Definition cmos_read (reg : Z) : B Z :=
  do outb CMOS_PORT reg;
  inb CMOS_RETURN.

Definition fill_rtcdate : B rtcdate :=
  let! second := cmos_read SECS in
  let! minute := cmos_read MINS in
  let! hour := cmos_read HOURS in
  let! day := cmos_read DAY in
  let! month := cmos_read MONTH in
  let! year := cmos_read YEAR in
  ret (mkRtc second minute hour day month year).

#[export] Instance rtcdate_eq_dec : EqDecision rtcdate.
Proof. solve_decision. Defined.

(** The loop of [cmostime]: two equal readings with no update in progress
    between them. *)
Fixpoint cmos_stable (fuel : nat) : B rtcdate :=
  let again := match fuel with O => hang | S f => cmos_stable f end in
  let! t1 := fill_rtcdate in
  let! a := cmos_read CMOS_STATA in
  if negb (Z.land a CMOS_UIP =? 0) then again else
  let! t2 := fill_rtcdate in
  if bool_decide (t1 = t2) then ret t1 else again.

(** [CONV] *)
Definition conv (x : Z) : Z := u32 (Z.shiftr x 4 * 10 + Z.land x 15).

Definition cmostime (fuel : nat) : B rtcdate :=
  let! sb := cmos_read CMOS_STATB in
  let bcd := Z.land sb (Z.shiftl 1 2) =? 0 in
  let! t1 := cmos_stable fuel in
  let r := if bcd
           then mkRtc (conv (r_second t1)) (conv (r_minute t1)) (conv (r_hour t1))
                  (conv (r_day t1)) (conv (r_month t1)) (conv (r_year t1))
           else t1 in
  ret (mkRtc (r_second r) (r_minute r) (r_hour r) (r_day r) (r_month r) (u32 (r_year r + 2000))).

(** ** uart.c *)
Definition COM1 : Z := 1016.

Definition uartinit : B unit :=
  do outb (COM1 + 2) 0;
  do outb (COM1 + 3) 128;
  do outb (COM1 + 0) (115200 / 9600);
  do outb (COM1 + 1) 0;
  do outb (COM1 + 3) 3;
  do outb (COM1 + 4) 0;
  do outb (COM1 + 1) 1;
  let! v := inb (COM1 + 5) in
  if v =? 255 then ret tt else
  do kern (upd_console (fun cn =>
       mkCons (cn_crt cn) (cn_pos cn) true (cn_uart cn) (cn_locking cn) (cn_panicked cn)));
  do inb (COM1 + 2);
  do inb (COM1 + 0);
  do picenable IRQ_COM1;
  ioapicenable IRQ_COM1 0.

(** The accesses of [uartputc]: the transmitter is polled at most 128 times. *)
Fixpoint uart_wait (n : nat) : B unit :=
  match n with
  | O => ret tt
  | S n' =>
      let! v := inb (COM1 + 5) in
      if Z.land v 32 =? 0 then uart_wait n' else ret tt
  end.

Definition uart_send (c : Z) : B unit :=
  let! k := gets m_k in
  if negb (cn_have_uart (console k)) then ret tt else
  do uart_wait 128;
  outb (COM1 + 0) c.

Definition uartgetc : B Z :=
  let! k := gets m_k in
  if negb (cn_have_uart (console k)) then ret (-1) else
  let! v := inb (COM1 + 5) in
  if Z.land v 1 =? 0 then ret (-1) else
  inb (COM1 + 0).

(** ** ide.c *)
Definition IDE_BSY : Z := 128.
Definition IDE_DRDY : Z := 64.
Definition IDE_DF : Z := 32.
Definition IDE_ERR : Z := 1.

Definition idewait (fuel : nat) (checkerr : bool) : B Z :=
  let! r := poll fuel (inb 503) (fun r => negb (Z.land r (Z.lor IDE_BSY IDE_DRDY) =? IDE_DRDY)) in
  ret (if checkerr && negb (Z.land r (Z.lor IDE_DF IDE_ERR) =? 0) then -1 else 0).

(** The loop that looks for disk 1. *)
Fixpoint find_disk1 (n : nat) : B unit :=
  match n with
  | O => ret tt
  | S n' =>
      let! v := inb 503 in
      if negb (v =? 0) then modify (set_m_havedisk1 true) else find_disk1 n'
  end.

Definition ideinit (fuel : nat) : B unit :=
  do picenable IRQ_IDE;
  let! ncpu := gets m_ncpu in
  do ioapicenable IRQ_IDE (ncpu - 1);
  do idewait fuel false;
  do outb 502 (Z.lor 224 (Z.shiftl 1 4));
  do find_disk1 1000;
  outb 502 (Z.lor 224 (Z.shiftl 0 4)).

(** ** console.c *)
Definition console_irq : B unit :=
  do picenable IRQ_KBD;
  ioapicenable IRQ_KBD 0.
End Devices.
