(* ===== verification/Irq.v ===== *)
(** * Interrupt controllers, timer and clock

    What the 8259A interrupt controllers, the I/O APIC, the 8253 timer and the
    real time clock do with the accesses of [Hw], after their data sheets, and
    that the code programs them to do what the kernel expects: interrupt line
    [i] arrives as vector [T_IRQ0 + i], only for the lines that were enabled;
    the timer ticks a hundred times a second; the clock is read while it stands
    still. *)

From S2P Require Import Prelude Bytes Kstate Sync Kalloc Disk Bio Log Fs Console Vm Pagetable Proc Trap Hw.
Local Open Scope Z_scope.

(** ** The 8259A

    A write to the command port with bit 4 set starts the initialisation: the
    mask is cleared and the words ICW2, ICW3 (unless there is one controller
    only) and ICW4 (if asked for) follow on the data port.  After them the data
    port sets the mask.  Other commands do not matter here. *)
Record pic := mkPic { pc_expect : list Z; pc_vec : Z; pc_icw3 : Z; pc_icw4 : Z; pc_imr : Z }.

Definition pic_command (v : Z) (p : pic) : pic :=
  if Z.testbit v 4 then
    mkPic ([2] ++ (if Z.testbit v 1 then [] else [3]) ++ (if Z.testbit v 0 then [4] else [])) (pc_vec p) (pc_icw3 p) (pc_icw4 p) 0
  else p.

Definition pic_data (v : Z) (p : pic) : pic :=
  match pc_expect p with
  | [] => mkPic [] (pc_vec p) (pc_icw3 p) (pc_icw4 p) v
  | w :: ws =>
      if w =? 2 then mkPic ws (Z.land v 248) (pc_icw3 p) (pc_icw4 p) (pc_imr p)
      else if w =? 3 then mkPic ws (pc_vec p) v (pc_icw4 p) (pc_imr p)
      else mkPic ws (pc_vec p) (pc_icw3 p) v (pc_imr p)
  end.

Definition pic_step (base : Z) (x : access) (p : pic) : pic :=
  match x with
  | Out port v => if port =? base then pic_command v p else if port =? base + 1 then pic_data v p else p
  | _ => p
  end.

Definition pic_state (base : Z) (p0 : pic) (l : list access) : pic := foldr (pic_step base) p0 l.

(** The vector interrupt line [i] raises: the second controller hangs on line
    [IRQ_SLAVE] of the first. *)
Definition pic_vector (p1 p2 : pic) (i : Z) : option Z :=
  let ready p := bool_decide (pc_expect p = []) in
  let master j := ready p1 && negb (Z.testbit (pc_imr p1) j) in
  if i <? 8 then if master i then Some (pc_vec p1 + i) else None
  else if master IRQ_SLAVE && Z.testbit (pc_icw3 p1) IRQ_SLAVE && ready p2 && (pc_icw3 p2 =? IRQ_SLAVE) && negb (Z.testbit (pc_imr p2) (i - 8))
  then Some (pc_vec p2 + (i - 8)) else None.

(** ** The I/O APIC: a register is selected, then written. *)
Record ioapic := mkIoapic { io_reg : Z; io_regs : gmap Z Z }.
Definition ioapic_step (x : access) (p : ioapic) : ioapic :=
  match x with
  | Wr a v =>
      if a =? IOAPIC then mkIoapic v (io_regs p)
      else if a =? IOAPIC + 16 then mkIoapic (io_reg p) (<[io_reg p := v]> (io_regs p)) else p
  | _ => p
  end.
Definition ioapic_state (p0 : ioapic) (l : list access) : ioapic := foldr ioapic_step p0 l.

(** The vector and the CPU line [i] is sent to, by its redirection entry. *)
Definition ioapic_route (p : ioapic) (i : Z) : option (Z * Z) :=
  match io_regs p !! (REG_TABLE + 2 * i), io_regs p !! (REG_TABLE + 2 * i + 1) with
  | Some lo, Some hi => if Z.testbit lo 16 then None else Some (Z.land lo 255, Z.shiftr hi 24)
  | _, _ => None
  end.

(** ** Runs of the accesses *)
Section Programs.
Context {Hw : Hardware}.

(** [emits m xs]: [m] makes the accesses [xs], newest first, and only the
    history and [irqmask] change. *)
Definition emits (m : B unit) (s : machine) (xs : list access) (mask : Z) : Prop :=
  runs m s tt (set_m_irqmask mask (set_m_log (xs ++ m_log s) s)).

Lemma outb_runs port v s : runs (outb port v) s tt (set_m_log (Out port (u8 v) :: m_log s) s).
Proof. by intros e. Qed.

Lemma picsetmask_emits mask s :
  emits (picsetmask mask) s [Out (IO_PIC2 + 1) (u8 (Z.shiftr mask 8)); Out (IO_PIC1 + 1) (u8 mask)] mask.
Proof. by intros e. Qed.

(** The masks the controllers hold are [mask]. *)
Record pics_masked (p1 p2 : pic) (mask : Z) : Prop := {
  pm_1 : p1 = mkPic [] T_IRQ0 (Z.shiftl 1 IRQ_SLAVE) 3 (u8 mask);
  pm_2 : p2 = mkPic [] (T_IRQ0 + 8) IRQ_SLAVE 3 (u8 (Z.shiftr mask 8))
}.

Lemma picsetmask_masks p1 p2 mask mask' l : pics_masked (pic_state IO_PIC1 p1 l) (pic_state IO_PIC2 p2 l) mask ->
  let l' := [Out (IO_PIC2 + 1) (u8 (Z.shiftr mask' 8)); Out (IO_PIC1 + 1) (u8 mask')] ++ l in
  pics_masked (pic_state IO_PIC1 p1 l') (pic_state IO_PIC2 p2 l') mask'.
Proof. intros [H1 H2] l'. cbn [l' pic_state foldr app]. unfold pic_state in *. rewrite H1, H2. by split. Qed.

(** The initialisation, newest access first. *)
Definition pic_words : list access :=
  [Out IO_PIC2 10; Out IO_PIC2 104; Out IO_PIC1 10; Out IO_PIC1 104;
   Out (IO_PIC2 + 1) 3; Out (IO_PIC2 + 1) IRQ_SLAVE; Out (IO_PIC2 + 1) (T_IRQ0 + 8); Out IO_PIC2 17;
   Out (IO_PIC1 + 1) 3; Out (IO_PIC1 + 1) (Z.shiftl 1 IRQ_SLAVE); Out (IO_PIC1 + 1) T_IRQ0; Out IO_PIC1 17;
   Out (IO_PIC2 + 1) 255; Out (IO_PIC1 + 1) 255].
Definition mask_words (mask : Z) : list access := [Out (IO_PIC2 + 1) (u8 (Z.shiftr mask 8)); Out (IO_PIC1 + 1) (u8 mask)].

Lemma picinit_emits s : m_irqmask s <> 65535 -> emits picinit s (mask_words (m_irqmask s) ++ pic_words) (m_irqmask s).
Proof.
  intros Hm e. unfold picinit, outb, logged, modify, gets, bind. cbn [m_irqmask set_m_log].
  replace (m_irqmask s =? 65535) with false by (symmetry; by apply Z.eqb_neq). cbn [negb when]. reflexivity.
Qed.

Lemma pic_words_masks p1 p2 l mask : let l' := mask_words mask ++ pic_words ++ l in pics_masked (pic_state IO_PIC1 p1 l') (pic_state IO_PIC2 p2 l') mask.
Proof. by split. Qed.

Lemma masked_vector p1 p2 mask i : pics_masked p1 p2 mask -> 0 <= i < 16 -> Z.testbit mask IRQ_SLAVE = false ->
  pic_vector p1 p2 i = if Z.testbit mask i then None else Some (T_IRQ0 + i).
Proof.
  intros [-> ->] Hi H2. assert (forall v j, 0 <= j < 8 -> Z.testbit (u8 v) j = Z.testbit v j) as E by (intros v j Hj; apply Z.mod_pow2_bits_low; lia).
  unfold pic_vector. cbn [pc_expect pc_imr pc_vec pc_icw3]. rewrite bool_decide_eq_true_2 by done. cbn [andb].
  destruct (Z.ltb_spec i 8); [rewrite E by lia; by destruct (Z.testbit mask i)|].
  rewrite !E by (unfold IRQ_SLAVE; lia). rewrite Z.shiftr_spec, H2 by lia. replace (i - 8 + 8) with i by lia. cbn [negb andb].
  destruct (Z.testbit mask i); cbn [negb]; [done|]. cbn. f_equal. unfold T_IRQ0. lia.
Qed.

(** [picenable] for each line of a list. *)
Fixpoint picenables (irqs : list Z) : B unit :=
  match irqs with
  | [] => ret tt
  | i :: irqs' => do picenable i; picenables irqs'
  end.

Lemma picenable_mask m irq j : 0 <= irq -> 0 <= j < 16 ->
  Z.testbit (u16 (Z.land m (Z.lnot (Z.shiftl 1 irq)))) j = Z.testbit m j && negb (j =? irq).
Proof.
  intros Hi Hj. unfold u16. rewrite Z.mod_pow2_bits_low, Z.land_spec, Z.lnot_spec by lia. f_equal. f_equal.
  rewrite Z.shiftl_1_l, Z.pow2_bits_eqb by lia. apply Z.eqb_sym.
Qed.

Lemma picenables_masks p1 p2 irqs : forall s, Forall (fun i => 0 <= i < 16) irqs -> 
  pics_masked (pic_state IO_PIC1 p1 (m_log s)) (pic_state IO_PIC2 p2 (m_log s)) (m_irqmask s) ->
  wp (picenables irqs) s (fun _ s' => m_k s' = m_k s /\ pics_masked (pic_state IO_PIC1 p1 (m_log s')) (pic_state IO_PIC2 p2 (m_log s')) (m_irqmask s') /\
    forall j, 0 <= j < 16 -> Z.testbit (m_irqmask s') j = Z.testbit (m_irqmask s) j && negb (bool_decide (j ∈ irqs))).
Proof.
  induction irqs as [|i irqs IH]; intros s Hf Hp; cbn [picenables].
  - apply wp_ret. split; [done|]. split; [done|]. intros j _. by rewrite bool_decide_eq_false_2, andb_true_r by set_solver.
  - apply list.Forall_cons in Hf as [Hi Hf]. set (mask := u16 (Z.land (m_irqmask s) (Z.lnot (Z.shiftl 1 i)))).
    eapply (wp_bind_runs _ _ _ tt); [exact (picsetmask_emits mask s)|]. eapply wp_mono; [apply IH; [done|]; exact (picsetmask_masks p1 p2 _ mask _ Hp)|].
    intros _ s' (Hk & Hm & Hj). split; [done|]. split; [done|]. intros j Hj'. rewrite Hj by done. cbn [m_irqmask set_m_irqmask]. unfold mask.
    rewrite picenable_mask, <- andb_assoc by lia. f_equal. destruct (Z.eqb_spec j i) as [->|Hn].
    + rewrite (bool_decide_eq_true_2 (i ∈ i :: irqs)) by left. done.
    + cbn [negb andb]. f_equal. apply bool_decide_ext. rewrite elem_of_cons. naive_solver.
Qed.

(** C26: after [picinit], from any state of the two 8259A controllers, and any
    calls of [picenable], interrupt line [i] arrives as vector [T_IRQ0 + i] if
    it was unmasked before or has been enabled, and not at all otherwise. *)
Theorem pic_routes s p1 p2 irqs : 0 <= m_irqmask s < 2 ^ 16 -> Z.testbit (m_irqmask s) IRQ_SLAVE = false -> Forall (fun i => 0 <= i < 16) irqs ->
  wp (do picinit; picenables irqs) s (fun _ s' => m_k s' = m_k s /\ forall i, 0 <= i < 16 ->
    pic_vector (pic_state IO_PIC1 p1 (m_log s')) (pic_state IO_PIC2 p2 (m_log s')) i =
    if negb (Z.testbit (m_irqmask s) i) || bool_decide (i ∈ irqs) then Some (T_IRQ0 + i) else None).
Proof.
  intros Hr H2 Hf. assert (m_irqmask s <> 65535) as Hm by (by intros E; rewrite E in H2).
  eapply (wp_bind_runs _ _ _ tt); [exact (picinit_emits s Hm)|]. eapply wp_mono; [apply (picenables_masks p1 p2 irqs _ Hf)|].
  - cbn [m_log set_m_irqmask set_m_log m_irqmask]. rewrite <- (assoc_L (++)). apply pic_words_masks.
  - intros _ s' (Hk & Hp & Hj). split; [done|]. intros i Hi. rewrite (masked_vector _ _ _ i Hp Hi).
    + rewrite Hj by done. cbn [m_irqmask set_m_irqmask]. by destruct (Z.testbit _ i), (bool_decide _).
    + rewrite Hj by (unfold IRQ_SLAVE; lia). cbn [m_irqmask set_m_irqmask]. by rewrite H2.
Qed.

(** ** The I/O APIC *)
Lemma ioapicwrite_runs reg data s : 0 <= reg < 2 ^ 32 -> 0 <= data < 2 ^ 32 ->
  runs (ioapicwrite reg data) s tt (set_m_log (Wr (IOAPIC + 16) data :: Wr IOAPIC reg :: m_log s) s).
Proof. intros Hr Hd e. unfold ioapicwrite, mmio_write, logged, bind, modify. unfold u32. by rewrite !Z.mod_small by lia. Qed.

Lemma ioapicread_runs reg s : 0 <= reg < 2 ^ 32 -> let v := mmio_in (Wr IOAPIC reg :: m_log s) (IOAPIC + 16) in
  runs (ioapicread reg) s v (set_m_log (Rd (IOAPIC + 16) v :: Wr IOAPIC reg :: m_log s) s).
Proof. intros Hr v e. unfold ioapicread, mmio_write, mmio_read, logged, bind, modify, gets. unfold u32. by rewrite !Z.mod_small by lia. Qed.

Lemma ioapic_written p0 reg data l : io_regs (ioapic_state p0 (Wr (IOAPIC + 16) data :: Wr IOAPIC reg :: l)) = <[reg := data]> (io_regs (ioapic_state p0 l)).
Proof. done. Qed.

(** Two words of the redirection table. *)
Definition entry_set (regs : gmap Z Z) (i lo hi : Z) : Prop := regs !! (REG_TABLE + 2 * i) = Some lo /\ regs !! (REG_TABLE + 2 * i + 1) = Some hi.

Lemma entry_set_same regs i lo hi : entry_set (<[REG_TABLE + 2 * i + 1 := hi]> (<[REG_TABLE + 2 * i := lo]> regs)) i lo hi.
Proof. split; [rewrite lookup_insert_ne by lia|]; by rewrite lookup_insert_eq. Qed.

Lemma entry_set_other regs i j lo hi lo' hi' : i <> j -> entry_set regs j lo' hi' ->
  entry_set (<[REG_TABLE + 2 * i + 1 := hi]> (<[REG_TABLE + 2 * i := lo]> regs)) j lo' hi'.
Proof. intros Hn [H1 H2]. split; by rewrite !lookup_insert_ne by lia. Qed.

Definition disabled (i : Z) : Z := Z.lor INT_DISABLED (T_IRQ0 + i).

Lemma disabled_range i : 0 <= i < 256 -> 0 <= disabled i < 2 ^ 32 /\ Z.testbit (disabled i) 16 = true.
Proof.
  intros Hi. split; [|unfold disabled; by rewrite Z.lor_spec]. unfold disabled. rewrite lor_aligned; [unfold INT_DISABLED, T_IRQ0; lia|done|unfold T_IRQ0; lia].
Qed.

Lemma ioapic_entry_spec p0 i s : 0 <= Z.of_nat i < 256 -> wp (ioapic_entry i) s (fun _ s' =>
  m_k s' = m_k s /\ m_ismp s' = m_ismp s /\ io_regs (ioapic_state p0 (m_log s')) =
    <[REG_TABLE + 2 * Z.of_nat i + 1 := 0]> (<[REG_TABLE + 2 * Z.of_nat i := disabled (Z.of_nat i)]> (io_regs (ioapic_state p0 (m_log s))))).
Proof.
  intros Hi. destruct (disabled_range (Z.of_nat i) Hi) as [Hd _]. unfold ioapic_entry, REG_TABLE.
  eapply wp_bind_runs; [apply ioapicwrite_runs; [lia|exact Hd]|]. eapply runs_wp; [apply ioapicwrite_runs; lia|]. split; [done|]. by split.
Qed.

Fixpoint ioapicenables (es : list (Z * Z)) : B unit :=
  match es with
  | [] => ret tt
  | (irq, cpu) :: es' => do ioapicenable irq cpu; ioapicenables es'
  end.

(** The CPU line [i] was routed to last, starting from [d]. *)
Definition routed (d : option Z) (es : list (Z * Z)) (i : Z) : option Z :=
  foldl (fun d e => if fst e =? i then Some (snd e) else d) d es.

(** The redirection entry of line [i] says [d]. *)
Definition entry_is (regs : gmap Z Z) (i : Z) (d : option Z) : Prop :=
  match d with Some cpu => entry_set regs i (T_IRQ0 + i) (Z.shiftl cpu 24) | None => entry_set regs i (disabled i) 0 end.

Lemma entry_is_other regs i j lo hi d : i <> j -> entry_is regs j d ->
  entry_is (<[REG_TABLE + 2 * i + 1 := hi]> (<[REG_TABLE + 2 * i := lo]> regs)) j d.
Proof. intros Hn. destruct d; by apply entry_set_other. Qed.

Lemma ioapicenables_spec p0 max es : forall s D, m_ismp s = true -> 0 <= max < 256 -> Forall (fun e => 0 <= fst e <= max /\ 0 <= snd e < 256) es ->
  (forall i, 0 <= i <= max -> entry_is (io_regs (ioapic_state p0 (m_log s))) i (D i)) ->
  wp (ioapicenables es) s (fun _ s' => m_k s' = m_k s /\
    forall i, 0 <= i <= max -> entry_is (io_regs (ioapic_state p0 (m_log s'))) i (routed (D i) es i)).
Proof.
  induction es as [|[irq cpu] es IH]; intros s D Hmp Hmax Hf HD; cbn [ioapicenables]; [by apply wp_ret|].
  apply list.Forall_cons in Hf as [[Hi Hc] Hf]. cbn [fst snd] in Hi, Hc.
  assert (0 <= Z.shiftl cpu 24 < 2 ^ 32) as Hs by (rewrite Z.shiftl_mul_pow2 by lia; lia).
  apply wp_bind. unfold ioapicenable. eapply wp_bind_runs; [by intros e|]. rewrite Hmp. cbn [negb]. unfold T_IRQ0, REG_TABLE.
  eapply wp_bind_runs; [apply ioapicwrite_runs; lia|]. eapply runs_wp; [apply ioapicwrite_runs; lia|].
  eapply wp_mono; [apply (IH _ (fun i => if irq =? i then Some cpu else D i)); [exact Hmp|exact Hmax|exact Hf|]|done].
  intros i Hi'. cbn [m_log set_m_log]. rewrite !ioapic_written. destruct (Z.eqb_spec irq i) as [->|Hn]; [apply entry_set_same|apply entry_is_other; auto].
Qed.

Lemma entry_is_route p i d : 0 <= i < 224 -> 0 <= default 0 d < 256 -> entry_is (io_regs p) i d ->
  ioapic_route p i = (fun cpu => (T_IRQ0 + i, cpu)) <$> d.
Proof.
  intros Hi Hc. unfold ioapic_route. destruct d as [cpu|]; cbn [entry_is]; intros [-> ->].
  - cbn in Hc. assert (Z.testbit (T_IRQ0 + i) 16 = false) as ->.
    { apply Z.testbit_false; [lia|]. rewrite Z.div_small by (unfold T_IRQ0; lia). done. }
    rewrite (Z.land_ones _ 8), Z.mod_small, Z.shiftr_shiftl_l by (unfold T_IRQ0; lia). cbn. by rewrite Z.shiftl_0_r.
  - by rewrite (proj2 (disabled_range i ltac:(lia))).
Qed.

Lemma routed_range es i : forall d, 0 <= default 0 d < 256 -> Forall (fun e => 0 <= snd e < 256) es -> 0 <= default 0 (routed d es i) < 256.
Proof.
  induction es as [|[irq cpu] es IH]; intros d Hd Hf; [done|]. apply list.Forall_cons in Hf as [Hc Hf]. apply IH; [|done]. cbn. by destruct (irq =? i).
Qed.

(** C25: on a multiprocessor, after [ioapicinit] and any calls of [ioapicenable],
    each line the I/O APIC has is sent as vector [T_IRQ0 + i] to the CPU it was
    last enabled for, and is masked if it was never enabled. *)
Theorem ioapic_routes s p0 es : let ver := mmio_in (Wr IOAPIC REG_VER :: m_log s) (IOAPIC + 16) in
  let log1 := Wr IOAPIC REG_ID :: Rd (IOAPIC + 16) ver :: Wr IOAPIC REG_VER :: m_log s in
  let maxintr := Z.land (Z.shiftr ver 16) 255 in
  m_ismp s = true -> m_ioapicid s = Z.shiftr (mmio_in log1 (IOAPIC + 16)) 24 -> Forall (fun e => 0 <= fst e <= maxintr /\ 0 <= snd e < 256) es ->
  wp (do ioapicinit; ioapicenables es) s (fun _ s' => m_k s' = m_k s /\ forall i, 0 <= i <= maxintr -> i < 224 ->
    ioapic_route (ioapic_state p0 (m_log s')) i = (fun cpu => (T_IRQ0 + i, cpu)) <$> routed None es i).
Proof.
  intros ver log1 maxintr Hmp Hid Hf.
  assert (0 <= maxintr < 256) as Hmax by (unfold maxintr; change 255 with (Z.ones 8); rewrite Z.land_ones by lia; apply Z.mod_pos_bound; lia).
  set (s1 := set_m_log (Rd (IOAPIC + 16) (mmio_in log1 (IOAPIC + 16)) :: log1) s).
  apply wp_bind. apply (wp_mono _ _ (fun _ s' => m_k s' = m_k s /\ m_ismp s' = true /\
    forall i, 0 <= i <= maxintr -> entry_is (io_regs (ioapic_state p0 (m_log s'))) i None)).
  - unfold ioapicinit. eapply wp_bind_runs; [by intros e|]. rewrite Hmp. cbn [negb]. eapply wp_bind_runs; [by apply ioapicread_runs|].
    eapply (wp_bind_runs _ _ _ _ s1); [by apply ioapicread_runs|]. eapply wp_bind_runs; [by intros e|]. eapply (wp_bind_runs _ _ _ tt s1).
    { change (m_ioapicid s1) with (m_ioapicid s). rewrite Hid. change (m_log (set_m_log _ s)) with (Rd (IOAPIC + 16) ver :: Wr IOAPIC REG_VER :: m_log s).
      fold log1. rewrite Z.eqb_refl. by intros e. }
    fold ver. fold maxintr.
    apply (wp_mfor (fun k s' => m_k s' = m_k s /\ m_ismp s' = true /\ forall i, 0 <= i < Z.of_nat k -> entry_is (io_regs (ioapic_state p0 (m_log s'))) i None)).
    + split; [done|]. split; [done|]. lia.
    + intros k s' Hk (H1 & H2 & H3). eapply wp_mono; [apply (ioapic_entry_spec p0); lia|]. intros _ s2 (E1 & E2 & E3). split; [congruence|]. split; [congruence|].
      intros i Hi. rewrite E3. destruct (Z.eq_dec (Z.of_nat k) i) as [<-|Hn]; [apply entry_set_same|apply entry_is_other; [done|]]. apply H3. lia.
    + intros s' (H1 & H2 & H3). split; [done|]. split; [done|]. intros i Hi. apply H3. lia.
  - intros _ s' (H1 & H2 & H3). eapply wp_mono; [apply (ioapicenables_spec p0 maxintr es s' (fun _ => None) H2 Hmax Hf H3)|].
    intros _ s2 (E1 & E2). split; [congruence|]. intros i Hi Hi'. apply entry_is_route; [lia| |auto]. apply routed_range; [cbn; lia|].
    eapply list.Forall_impl; [exact Hf|]. by intros e [].
Qed.

(** ** The 8253 timer: mode, then the two halves of the count of channel 0. *)
Record pit := mkPit { pt_mode : Z; pt_low : option Z; pt_reload : Z }.
Definition pit_step (x : access) (p : pit) : pit :=
  match x with
  | Out port v =>
      if port =? TIMER_MODE then
        if (Z.shiftr v 6 =? 0) && (Z.land (Z.shiftr v 4) 3 =? 3) then mkPit (Z.land (Z.shiftr v 1) 7) None (pt_reload p) else p
      else if port =? IO_TIMER1 then
        match pt_low p with
        | None => mkPit (pt_mode p) (Some v) (pt_reload p)
        | Some low => mkPit (pt_mode p) None (low + 256 * v)
        end
      else p
  | _ => p
  end.
Definition pit_state (p0 : pit) (l : list access) : pit := foldr pit_step p0 l.

(** [TIMER_DIV] rounds to the nearest count, which has 16 bits from 19 Hz on. *)
Lemma TIMER_DIV_rounds hz : 19 <= hz <= TIMER_FREQ -> 0 < TIMER_DIV hz < 2 ^ 16 /\ 2 * Z.abs (TIMER_FREQ - hz * TIMER_DIV hz) <= hz.
Proof.
  intros H. unfold TIMER_DIV. pose proof (Z.div_mod (TIMER_FREQ + hz / 2) hz ltac:(lia)) as E. pose proof (Z.mod_pos_bound (TIMER_FREQ + hz / 2) hz ltac:(lia)) as Hr.
  pose proof (Z.div_mod hz 2 ltac:(lia)) as E2. pose proof (Z.mod_pos_bound hz 2 ltac:(lia)) as Hr2.
  set (d := (TIMER_FREQ + hz / 2) / hz) in *. unfold TIMER_FREQ in *. split; [nia|]. nia.
Qed.

(** C40: [timerinit] sets channel 0 of the timer up as a rate generator whose count
    has 16 bits and is the nearest one to a hundred ticks a second, off by less
    than 50 of the 1193182 clock periods of a second, and lets its interrupt
    through as vector [T_IRQ0 + IRQ_TIMER]. *)
Theorem timer_rate s p0 p1 p2 : pics_masked (pic_state IO_PIC1 p1 (m_log s)) (pic_state IO_PIC2 p2 (m_log s)) (m_irqmask s) ->
  Z.testbit (m_irqmask s) IRQ_SLAVE = false ->
  wp timerinit s (fun _ s' => let p := pit_state p0 (m_log s') in
    pt_mode p = 2 /\ 0 < pt_reload p < 2 ^ 16 /\ Z.abs (TIMER_FREQ - 100 * pt_reload p) <= 50 /\
    pic_vector (pic_state IO_PIC1 p1 (m_log s')) (pic_state IO_PIC2 p2 (m_log s')) IRQ_TIMER = Some (T_IRQ0 + IRQ_TIMER)).
Proof.
  intros Hp H2. unfold timerinit. do 3 (eapply wp_bind_runs; [apply outb_runs|]).
  set (s1 := set_m_log _ _). assert (pics_masked (pic_state IO_PIC1 p1 (m_log s1)) (pic_state IO_PIC2 p2 (m_log s1)) (m_irqmask s1)) as Hp1 by exact Hp.
  set (mask := u16 (Z.land (m_irqmask s1) (Z.lnot (Z.shiftl 1 IRQ_TIMER)))).
  assert (forall j, 0 <= j < 16 -> Z.testbit mask j = Z.testbit (m_irqmask s) j && negb (j =? 0)) as Hm by (intros j Hj; by apply picenable_mask).
  eapply runs_wp; [exact (picsetmask_emits mask s1)|]. cbv zeta. split; [done|]. split; [by vm_compute|]. split; [by vm_compute|].
  pose proof (picsetmask_masks p1 p2 _ mask _ Hp1) as Hq. cbv zeta in Hq. cbn [m_log set_m_irqmask set_m_log].
  rewrite (masked_vector _ _ mask IRQ_TIMER Hq); [rewrite Hm by done; by rewrite andb_false_r|done|]. rewrite Hm by done. by rewrite H2.
Qed.

(** ** The clock *)
Definition bcd (v : Z) : Z := 16 * (v / 10) + v mod 10.

Lemma conv_bcd v : 0 <= v < 100 -> conv (bcd v) = v.
Proof.
  intros Hv. unfold conv, bcd. change 15 with (Z.ones 4). rewrite Z.land_ones, Z.shiftr_div_pow2 by lia. unfold u32.
  rewrite Z.mod_small; Z.to_euclidean_division_equations; lia.
Qed.

(** The clock answers with what the selected register holds at the time, counted
    in accesses to devices: [R n reg] after [n] of them. *)
Definition rtc_answers (R : nat -> Z -> Z) : Prop :=
  forall l reg, 0 <= reg < 128 -> port_in (Out CMOS_PORT reg :: l) CMOS_RETURN = R (length l) reg.

(** What the six registers show. *)
Definition shown (r : Z -> Z) : rtcdate := mkRtc (r SECS) (r MINS) (r HOURS) (r DAY) (r MONTH) (r YEAR).

(** The time as a clock with status [sb] shows it, hours from 0 to 23. *)
Definition encoded (sb : Z) (t : rtcdate) : rtcdate :=
  let enc v := if Z.land sb (Z.shiftl 1 2) =? 0 then bcd v else v in
  mkRtc (enc (r_second t)) (enc (r_minute t)) (enc (r_hour t)) (enc (r_day t)) (enc (r_month t)) (enc (r_year t - 2000)).

Definition idle (r : Z -> Z) : Prop := Z.land (r CMOS_STATA) CMOS_UIP = 0.

(** A clock that runs, [T n] the time after [n] accesses.  What the registers
    hold during an update is not known; but when the clock says that none is in
    progress, the next one is far enough away for the registers to be read. *)
Record rtc_runs (R : nat -> Z -> Z) (T : nat -> rtcdate) (sb : Z) : Prop := {
  rr_mode n : R n CMOS_STATB = sb;
  rr_range n : 0 <= r_second (T n) < 60 /\ 0 <= r_minute (T n) < 60 /\ 0 <= r_hour (T n) < 24 /\ 1 <= r_day (T n) <= 31 /\
    1 <= r_month (T n) <= 12 /\ 2000 <= r_year (T n) < 2100;
  rr_idle n k : idle (R n) -> (n <= k <= n + 12)%nat -> T k = T n /\ shown (R k) = encoded sb (T n)
}.

Section Clock.
Context (R : nat -> Z -> Z) (T : nat -> rtcdate) (sb : Z) (Hrtc : rtc_answers R) (Hrun : rtc_runs R T sb).

Lemma cmos_read_runs reg s : 0 <= reg < 128 ->
  runs (cmos_read reg) s (R (length (m_log s)) reg) (set_m_log (In CMOS_RETURN (R (length (m_log s)) reg) :: Out CMOS_PORT reg :: m_log s) s).
Proof using Hrtc.
  intros Hr e. unfold cmos_read, outb, inb, logged, bind, modify, gets, ret. cbn [m_log set_m_log]. unfold u8. rewrite Z.mod_small by lia. by rewrite Hrtc.
Qed.

(** [n] accesses later, nothing else has changed. *)
Definition later (n : nat) (s s' : machine) : Prop := m_k s' = m_k s /\ length (m_log s') = (length (m_log s) + n)%nat.

Lemma later_trans n k s1 s2 s3 : later n s1 s2 -> later k s2 s3 -> later (n + k) s1 s3.
Proof. intros [E1 L1] [E2 L2]. split; [congruence|lia]. Qed.

Lemma fill_rtcdate_runs s : let n := length (m_log s) in
  wp fill_rtcdate s (fun t s' => later 12 s s' /\ forall x, (forall k, (n <= k <= n + 10)%nat -> shown (R k) = x) -> t = x).
Proof using Hrtc.
  intros n. unfold fill_rtcdate. do 6 (eapply wp_bind_runs; [apply cmos_read_runs; done|]). apply wp_ret.
  split; [split; [done|cbn; lia]|]. intros x Hx. cbn [m_log set_m_log length]. fold n. destruct x as [a b c d f y].
  pose proof (fun k H => f_equal r_second (Hx k H)) as X1. pose proof (fun k H => f_equal r_minute (Hx k H)) as X2.
  pose proof (fun k H => f_equal r_hour (Hx k H)) as X3. pose proof (fun k H => f_equal r_day (Hx k H)) as X4.
  pose proof (fun k H => f_equal r_month (Hx k H)) as X5. pose proof (fun k H => f_equal r_year (Hx k H)) as X6. cbn in *.
  by rewrite X1, X2, X3, X4, X5, X6 by lia.
Qed.

(** A pass of the loop: the time is that of the moment the status was read. *)
Lemma cmos_pass (again : B rtcdate) s (Q : rtcdate -> machine -> Prop) : let n := length (m_log s) in
  (forall d s', (14 <= d <= 26)%nat -> later d s s' -> ~ (forall k, (n <= k <= n + 12)%nat -> idle (R k)) -> wp again s' Q) ->
  (forall t s', later 26 s s' -> t = encoded sb (T (n + 12)%nat) -> Q t s') ->
  wp (let! t1 := fill_rtcdate in let! a := cmos_read CMOS_STATA in if negb (Z.land a CMOS_UIP =? 0) then again else
      let! t2 := fill_rtcdate in if bool_decide (t1 = t2) then ret t1 else again) s Q.
Proof using Hrtc Hrun.
  intros n Hagain Hret. apply wp_bind. eapply wp_mono; [apply fill_rtcdate_runs|]. intros t1 s1 [L1 H1]. fold n in H1.
  assert (length (m_log s1) = (n + 12)%nat) as En by (destruct L1 as [_ L1]; unfold n; lia).
  eapply wp_bind_runs; [by apply cmos_read_runs|]. rewrite En. set (s2 := set_m_log _ s1).
  assert (later 14 s s2) as L2 by (eapply (later_trans 12 2); [exact L1|split; [done|cbn; lia]]).
  destruct (Z.eqb_spec (Z.land (R (n + 12)%nat CMOS_STATA) CMOS_UIP) 0) as [Hi|Hi]; cbn [negb].
  2: { apply (Hagain 14%nat); [lia|done|]. intros H. apply Hi, H. lia. }
  assert (forall k, (n + 12 <= k <= n + 24)%nat -> shown (R k) = encoded sb (T (n + 12)%nat)) as Hs.
  { intros k Hk. apply (rr_idle _ _ _ Hrun); [done|lia]. }
  apply wp_bind. eapply wp_mono; [apply fill_rtcdate_runs|]. intros t2 s3 [L3 H2].
  assert (length (m_log s2) = (n + 14)%nat) as En2 by (destruct L2 as [_ L2]; unfold n; lia). rewrite En2 in H2.
  rewrite (H2 (encoded sb (T (n + 12)%nat))) by (intros k Hk; apply Hs; lia).
  pose proof (later_trans 14 12 _ _ _ L2 L3) as L. cbn [Nat.add] in L.
  case_bool_decide as Ht; [apply wp_ret; by apply Hret|]. apply (Hagain 26%nat); [lia|done|].
  intros Hall. apply Ht, H1. intros k Hk. destruct (rr_idle _ _ _ Hrun k k (Hall k ltac:(lia)) ltac:(lia)) as [_ ->].
  destruct (rr_idle _ _ _ Hrun k (n + 12)%nat (Hall k ltac:(lia)) ltac:(lia)) as [-> _]. done.
Qed.

(** From time [u] on, no update is in progress for two passes of the loop. *)
Definition calm (u : nat) : Prop := forall k, (u <= k < u + 52)%nat -> idle (R k).

Lemma cmos_stable_runs u : calm u -> forall fuel s, let n := length (m_log s) in (n < u + 26)%nat -> (u <= n + 14 * fuel)%nat ->
  wp (cmos_stable fuel) s (fun t s' => m_k s' = m_k s /\ exists m, (n <= m <= length (m_log s'))%nat /\ t = encoded sb (T m)).
Proof using Hrtc Hrun.
  intros Hu. induction fuel as [|fuel IH]; intros s n Hn Hf; cbn [cmos_stable]; apply cmos_pass; fold n.
  - intros d s' _ _ H. destruct H. intros k Hk. apply Hu. lia.
  - intros t s' [Ek El] ->. split; [done|]. exists (n + 12)%nat. split; [unfold n; lia|done].
  - intros d s' Hd [Ek El] H. assert (n < u)%nat as Hlt by (apply Nat.nle_gt; intros Hle; destruct H; intros k Hk; apply Hu; lia).
    fold n in El. eapply wp_mono; [apply IH; lia|]. intros t s2 (E2 & m & Hm & ->). split; [congruence|]. exists m. split; [lia|done].
  - intros t s' [Ek El] ->. split; [done|]. exists (n + 12)%nat. split; [unfold n; lia|done].
Qed.

(** C39: on a running clock, in 24-hour mode, that counts in binary or in decimal
    digits and shows anything at all while it updates its registers, [cmostime]
    returns the time the clock had at some moment during the call, provided
    that a period without update comes within the passes of the loop allowed
    for, long enough for two of them; and the registers stay valid for the 12
    accesses after the clock said that no update is in progress. *)
Theorem cmostime_reads fuel s u : let n := length (m_log s) in calm u -> (n + 2 <= u <= n + 2 + 14 * fuel)%nat ->
  wp (cmostime fuel) s (fun r s' => m_k s' = m_k s /\ exists m, (n <= m <= length (m_log s'))%nat /\ r = T m).
Proof using Hrtc Hrun.
  intros n Hu Hf. unfold cmostime. eapply wp_bind_runs; [by apply cmos_read_runs|]. rewrite (rr_mode _ _ _ Hrun). apply wp_bind.
  eapply wp_mono; [apply (cmos_stable_runs u Hu); cbn; fold n; lia|]. intros t s' (Ek & m & Hm & ->). cbn in Hm. apply wp_ret. split; [done|].
  exists m. split; [unfold n; lia|]. pose proof (rr_range _ _ _ Hrun m) as (R1 & R2 & R3 & R4 & R5 & R6). unfold encoded.
  destruct (T m) as [a b c d f y]. cbn [r_second r_minute r_hour r_day r_month r_year] in *.
  assert (u32 (y - 2000 + 2000) = y) as Ey by (unfold u32; rewrite Z.mod_small; lia).
  destruct (_ =? 0); cbn [r_second r_minute r_hour r_day r_month r_year]; rewrite ?conv_bcd, Ey by lia; done.
Qed.
End Clock.
End Programs.

(** ** Examples *)
(** A clock, in decimal digits, a second of which is 100 accesses: in the last 20
    it announces an update and in the last 7 the registers are not valid; and an
    I/O APIC with 24 lines. *)
Definition ex_time (n : nat) : rtcdate := mkRtc (Z.of_nat n / 100 mod 60) 59 23 15 11 2026.
Definition ex_clock (n : nat) (reg : Z) : Z :=
  if reg =? CMOS_STATA then if 80 <=? Z.of_nat n mod 100 then 128 else 0
  else if reg =? CMOS_STATB then 2
  else if 93 <=? Z.of_nat n mod 100 then 255
  else if reg =? SECS then bcd (r_second (ex_time n)) else if reg =? MINS then 89 else if reg =? HOURS then 35 else if reg =? DAY then 21
  else if reg =? MONTH then 17 else if reg =? YEAR then 38 else 0.

Lemma ex_clock_range n reg : 0 <= ex_clock n reg < 256.
Proof.
  unfold ex_clock. repeat (destruct (_ =? _) || destruct (_ <=? _)); try lia. unfold bcd, ex_time. cbn [r_second].
  Z.to_euclidean_division_equations; lia.
Qed.

Lemma ex_clock_runs : rtc_runs ex_clock ex_time 2.
Proof.
  split; [done|intros n; cbn; pose proof (Z.mod_pos_bound (Z.of_nat n / 100) 60 ltac:(lia)); lia|].
  intros n k Hi Hk. unfold idle, ex_clock in Hi. cbn [Z.eqb CMOS_STATA Pos.eqb] in Hi. destruct (Z.leb_spec 80 (Z.of_nat n mod 100)) as [|H80]; [done|].
  assert (Z.of_nat k / 100 = Z.of_nat n / 100 /\ Z.of_nat k mod 100 < 93) as [Eq Hm] by (Z.to_euclidean_division_equations; lia).
  unfold ex_time. rewrite Eq. split; [done|]. unfold shown, ex_clock. cbn [Z.eqb Pos.eqb SECS MINS HOURS DAY MONTH YEAR CMOS_STATA CMOS_STATB].
  rewrite (proj2 (Z.leb_gt 93 _)) by done. unfold ex_time. by rewrite Eq.
Qed.

Definition ex_hw : Hardware.
Proof.
  refine {| port_in := fun l p => match l with Out _ reg :: l' => if p =? CMOS_RETURN then ex_clock (length l') reg else 0 | _ => 0 end;
            mmio_in := fun l a => match l with Wr _ 1 :: _ => 1507345 | _ => 0 end |}.
  - intros [|[port v| | |] l] p; try done. destruct (p =? _); [apply ex_clock_range|done].
  - intros [|[| |a v|] l] p; try done. destruct v as [|[]|]; done.
Defined.
Definition ex_machine (mp : bool) : machine := mkMachine (reset_state ∅ 0 [] 0) [] irqmask0 mp 1 0 0 (replicate NCPU 0) 0 false 0.
Definition ex_pic : pic := mkPic [4] 8 0 0 0.

Lemma pic_routes_witness : wp (do @picinit; picenables [1; 4]) (ex_machine false) (fun _ s' =>
  pic_vector (pic_state IO_PIC1 ex_pic (m_log s')) (pic_state IO_PIC2 ex_pic (m_log s')) 4 = Some 36 /\
  pic_vector (pic_state IO_PIC1 ex_pic (m_log s')) (pic_state IO_PIC2 ex_pic (m_log s')) 5 = None).
Proof.
  eapply wp_mono; [apply (pic_routes (ex_machine false) ex_pic ex_pic [1; 4]); [done|done|repeat constructor; lia]|].
  intros _ s' [_ H]. split; by rewrite H.
Defined.

Lemma ioapic_routes_witness : wp (do @ioapicinit ex_hw; ioapicenables [(1, 0); (14, 3)]) (ex_machine true) (fun _ s' =>
  ioapic_route (ioapic_state (mkIoapic 0 ∅) (m_log s')) 14 = Some (46, 3) /\ ioapic_route (ioapic_state (mkIoapic 0 ∅) (m_log s')) 15 = None).
Proof.
  eapply wp_mono; [apply (@ioapic_routes ex_hw (ex_machine true) (mkIoapic 0 ∅) [(1, 0); (14, 3)]); [done|done|apply (bool_decide_unpack _); by vm_compute]|].
  intros _ s' [_ H]. split; by rewrite H.
Defined.

Lemma timer_rate_witness : wp timerinit (set_m_log (mask_words irqmask0 ++ pic_words) (ex_machine false)) (fun _ s' =>
  pt_reload (pit_state (mkPit 0 None 0) (m_log s')) = TIMER_DIV 100).
Proof.
  eapply wp_mono; [apply (timer_rate (set_m_log (mask_words irqmask0 ++ pic_words) (ex_machine false)) (mkPit 0 None 0) ex_pic ex_pic);
    [apply (pic_words_masks ex_pic ex_pic [] irqmask0)|done]|].
  intros _ s' (_ & _ & H & _). unfold TIMER_FREQ in H. change (TIMER_DIV 100) with 11932. lia.
Defined.

(** The call begins during an update. *)
Lemma cmostime_reads_witness :
  wp (@cmostime ex_hw 1) (set_m_log (replicate 85 (Out 128 0)) (ex_machine false)) (fun r _ => exists m, (85 <= m)%nat /\ r = ex_time m).
Proof.
  eapply wp_mono; [apply (@cmostime_reads ex_hw ex_clock ex_time 2 ltac:(done) ex_clock_runs 1 _ 100)|].
  - intros k Hk. unfold idle, ex_clock. cbn [Z.eqb CMOS_STATA Pos.eqb].
    rewrite (proj2 (Z.leb_gt 80 _)) by (Z.to_euclidean_division_equations; lia). done.
  - cbn. lia.
  - intros r s' (_ & m & Hm & ->). exists m. split; [apply Hm|done].
Defined.
