(* ===== verification/Mp.v ===== *)
(** * Finding the processors: mp.c, mp.h

    The firmware leaves a floating pointer structure and a configuration table
    in memory.  [mpsearch] looks for the first, [mpconfig] checks the second,
    [mpinit] collects what its entries say.  The theorems relate the search to
    the list of places it covers, and the collected data to a table given as a
    list of entries. *)

From S2P Require Import Prelude Bytes Cstring Kstate Sync Kalloc Disk Bio Log Fs Console Vm Tty Proc Trap Hw.
Import Str.
Local Open Scope Z_scope.

(** ** mp.h: struct mp (16 bytes) and struct mpconf (44 bytes) at an address *)
Definition MP : Z := 16.
Definition mp_physaddr (m : gmap Z Z) (p : Z) : Z := le_value (get_bytes m (p + 4) 4).
Definition mp_imcrp (m : gmap Z Z) (p : Z) : Z := get_byte m (p + 12).
Definition MPCONF : Z := 44.
Definition conf_length (m : gmap Z Z) (p : Z) : Z := le_value (get_bytes m (p + 4) 2).
Definition conf_version (m : gmap Z Z) (p : Z) : Z := get_byte m (p + 6).
Definition conf_lapicaddr (m : gmap Z Z) (p : Z) : Z := le_value (get_bytes m (p + 36) 4).

Definition MPPROC : Z := 0.
Definition MPBUS : Z := 1.
Definition MPIOAPIC : Z := 2.
Definition MPIOINTR : Z := 3.
Definition MPLINTR : Z := 4.
Definition MPBOOT : Z := 2.

(** ** mp.c *)
Fixpoint sum_loop (m : gmap Z Z) (addr : Z) (n : nat) (acc : Z) : Z :=
  match n with
  | O => acc
  | S n' => sum_loop m (addr + 1) n' (acc + get_byte m addr)
  end.
Definition sum (m : gmap Z Z) (addr len : Z) : Z := u8 (sum_loop m addr (Z.to_nat len) 0).

(** [memcmp(p, "_MP_", 4) == 0 && sum(p, sizeof(struct mp)) == 0] *)
Definition mp_here (m : gmap Z Z) (p : Z) : bool :=
  bool_decide (get_bytes m p 4 = lit "_MP_") && (sum m p MP =? 0).

Fixpoint mpsearch1_loop (m : gmap Z Z) (fuel : nat) (p e : Z) : option Z :=
  if negb (p <? e) then None else
  if mp_here m p then Some p else
  match fuel with O => None | S f => mpsearch1_loop m f (p + MP) e end.

(** Each pass moves on by 16 bytes. *)
Definition mpsearch1 (m : gmap Z Z) (a len : Z) : option Z :=
  let addr := p2v a in
  mpsearch1_loop m (Z.to_nat (len / MP)) addr (addr + len).

Definition mpsearch (m : gmap Z Z) : option Z :=
  let bda := KERNBASE + 1024 in
  let p := Z.shiftl (Z.lor (Z.shiftl (get_byte m (bda + 15)) 8) (get_byte m (bda + 14))) 4 in
  let first :=
    (if negb (p =? 0) then mpsearch1 m p 1024
     else
       let p := Z.lor (Z.shiftl (get_byte m (bda + 20)) 8) (get_byte m (bda + 19)) * 1024 in
       mpsearch1 m (u32 (p - 1024)) 1024) in
  match first with
  | Some mp => Some mp
  | None => mpsearch1 m 983040 65536
  end.

(** The floating pointer and the configuration table. *)
Definition mpconfig (m : gmap Z Z) : option (Z * Z) :=
  match mpsearch m with
  | None => None
  | Some mp =>
      if mp_physaddr m mp =? 0 then None else
      let conf := p2v (mp_physaddr m mp) in
      if negb (bool_decide (get_bytes m conf 4 = lit "PCMP")) then None else
      if negb (conf_version m conf =? 1) && negb (conf_version m conf =? 4) then None else
      if negb (sum m conf (conf_length m conf) =? 0) then None else
      Some (mp, conf)
  end.

Section Mpinit.
Context {Hw : Hardware}.

(** The entry of a processor at [p]. *)
Definition mp_proc (p : Z) : B unit :=
  let! k := gets m_k in
  let apicid := get_byte (mem k) (p + 1) in
  let flags := get_byte (mem k) (p + 3) in
  let! ncpu := gets m_ncpu in
  do when (negb (ncpu =? apicid))
    (do kern (cprintf (lit "mpinit: ncpu=%d apicid=%d" ++ [nl]) [AInt ncpu; AInt apicid]);
     modify (set_m_ismp false));
  do when (negb (Z.land flags MPBOOT =? 0)) (modify (set_m_bcpu ncpu));
  let! cpus := gets m_cpus in
  do deref "cpus" (cpus !! Z.to_nat ncpu);
  do modify (set_m_cpus (<[Z.to_nat ncpu := u8 ncpu]> cpus));
  modify (set_m_ncpu (ncpu + 1)).

(** The loop over the table; [fuel] is the number of bytes left at first. *)
Fixpoint mpinit_loop (fuel : nat) (p e : Z) : B unit :=
  let next p := match fuel with O => hang | S f => mpinit_loop f p e end in
  if negb (p <? e) then ret tt else
  let! k := gets m_k in
  let type := get_byte (mem k) p in
  if type =? MPPROC then
    do mp_proc p;
    next (p + 20)
  else if type =? MPIOAPIC then
    do modify (set_m_ioapicid (get_byte (mem k) (p + 1)));
    next (p + 8)
  else if (type =? MPBUS) || (type =? MPIOINTR) || (type =? MPLINTR) then next (p + 8)
  else
    do kern (cprintf (lit "mpinit: unknown config type %x" ++ [nl]) [AInt type]);
    do modify (set_m_ismp false);
    next p.

Definition mpinit : B unit :=
  do modify (set_m_bcpu 0);
  let! k := gets m_k in
  match mpconfig (mem k) with
  | None => ret tt
  | Some (mp, conf) =>
      do modify (set_m_ismp true);
      do modify (set_m_lapic (conf_lapicaddr (mem k) conf));
      do mpinit_loop (Z.to_nat (conf_length (mem k) conf)) (conf + MPCONF) (conf + conf_length (mem k) conf);
      let! ismp := gets m_ismp in
      if negb ismp then
        do modify (set_m_ncpu 1);
        do modify (set_m_lapic 0);
        modify (set_m_ioapicid 0)
      else
        when (negb (mp_imcrp (mem k) mp =? 0))
          (do outb 34 112;
           let! v := inb 35 in
           outb 35 (Z.lor v 1))
  end.
End Mpinit.

(** ** The search *)
Lemma sum_loop_bytes m n : forall addr acc, sum_loop m addr n acc = acc + foldr Z.add 0 (get_bytes m addr n).
Proof. induction n as [|n IH]; intros addr acc; cbn [sum_loop get_bytes foldr]; [lia|]. rewrite IH. lia. Qed.

(** A floating pointer structure at [p]: the signature, and bytes that add up to 0. *)
Definition floating_pointer (m : gmap Z Z) (p : Z) : Prop :=
  get_bytes m p 4 = lit "_MP_" /\ foldr Z.add 0 (get_bytes m p 16) mod 256 = 0.

Lemma mp_here_iff m p : mp_here m p = true <-> floating_pointer m p.
Proof.
  unfold mp_here, floating_pointer. rewrite andb_true_iff, bool_decide_eq_true, Z.eqb_eq. unfold sum. rewrite sum_loop_bytes. done.
Qed.

(** The addresses 16 bytes apart in [len] bytes from physical address [a]. *)
Definition places1 (a len : Z) : list Z := (fun i => p2v a + MP * Z.of_nat i) <$> seq 0 (Z.to_nat (len / MP)).

Definition ebda (m : gmap Z Z) : Z := 16 * (256 * get_byte m (KERNBASE + 1039) + get_byte m (KERNBASE + 1038)).
Definition base_memory (m : gmap Z Z) : Z := 1024 * (256 * get_byte m (KERNBASE + 1044) + get_byte m (KERNBASE + 1043)).

(** The first kilobyte of the extended BIOS data area, or else the last of base
    memory, and the upper half of the BIOS ROM. *)
Definition places (m : gmap Z Z) : list Z :=
  (if ebda m =? 0 then places1 (u32 (base_memory m - 1024)) 1024 else places1 (ebda m) 1024) ++ places1 983040 65536.

Lemma mpsearch1_loop_find m n : forall p, mpsearch1_loop m n p (p + MP * Z.of_nat n) = find (mp_here m) ((fun i => p + MP * Z.of_nat i) <$> seq 0 n).
Proof.
  induction n as [|n IH]; intros p; cbn [mpsearch1_loop].
  - by destruct (Z.ltb_spec p (p + MP * Z.of_nat 0)); [unfold MP in *; lia|].
  - destruct (Z.ltb_spec p (p + MP * Z.of_nat (S n))); [|unfold MP in *; lia]. cbn [negb seq fmap list_fmap find]. replace (p + MP * Z.of_nat 0) with p by lia.
    destruct (mp_here m p); [done|]. replace (p + MP * Z.of_nat (S n)) with (p + MP + MP * Z.of_nat n) by (unfold MP; lia). rewrite IH. f_equal.
    rewrite <- fmap_S_seq, <- list_fmap_compose. apply list_fmap_ext. intros i x _. cbn. unfold MP. lia.
Qed.

Lemma mpsearch1_find m a len : len mod MP = 0 -> 0 <= len -> mpsearch1 m a len = find (mp_here m) (places1 a len).
Proof.
  intros Hm Hl. unfold mpsearch1, places1. rewrite <- mpsearch1_loop_find. f_equal. rewrite Z2Nat.id by (apply Z.div_pos; [done|unfold MP; lia]).
  pose proof (Z.div_mod len MP ltac:(done)). lia.
Qed.

Lemma get_byte_range m a : 0 <= get_byte m a < 256.
Proof. unfold get_byte. change 255 with (Z.ones 8). rewrite Z.land_ones by lia. apply Z.mod_pos_bound. lia. Qed.

Lemma word_of_bytes hi lo : 0 <= lo < 256 -> Z.lor (Z.shiftl hi 8) lo = 256 * hi + lo.
Proof.
  intros H. pose proof (Z.add_lor_land (Z.shiftl hi 8) lo) as E. replace (Z.land (Z.shiftl hi 8) lo) with 0 in E.
  - rewrite Z.shiftl_mul_pow2 in * by lia. lia.
  - symmetry. apply Z.bits_inj_0. intros n. rewrite Z.land_spec. destruct (Z.ltb_spec n 0); [by rewrite !Z.testbit_neg_r|].
    destruct (Z.ltb_spec n 8); [by rewrite Z.shiftl_spec_low|]. assert (Z.testbit lo n = false) as ->; [|by rewrite andb_false_r].
    apply Z.testbit_false; [lia|]. rewrite Z.div_small; [done|]. split; [lia|]. apply Z.lt_le_trans with (2 ^ 8); [lia|]. apply Z.pow_le_mono_r; lia.
Qed.

Lemma find_app {A} (f : A -> bool) l1 l2 : find f (l1 ++ l2) = match find f l1 with Some x => Some x | None => find f l2 end.
Proof. induction l1 as [|x l1 IH]; cbn [find app]; [done|]. by destruct (f x). Qed.

Lemma mpsearch_find m : mpsearch m = find (mp_here m) (places m).
Proof.
  unfold mpsearch, places. rewrite !(word_of_bytes _ _ (get_byte_range _ _)). change (KERNBASE + 1024 + 15) with (KERNBASE + 1039).
  change (KERNBASE + 1024 + 14) with (KERNBASE + 1038). change (KERNBASE + 1024 + 20) with (KERNBASE + 1044). change (KERNBASE + 1024 + 19) with (KERNBASE + 1043).
  rewrite Z.shiftl_mul_pow2 by lia. rewrite (Z.mul_comm _ (2 ^ 4)), (Z.mul_comm _ 1024). change (2 ^ 4) with 16. fold (ebda m) (base_memory m).
  rewrite !mpsearch1_find by done. rewrite find_app. destruct (ebda m =? 0); cbn [negb]; by destruct (find _ _).
Qed.

(** [mpsearch] finds the first floating pointer structure, by signature and
    checksum, among the places it covers, and finds none only when there is
    none there. *)
Theorem mpsearch_finds m : mpsearch m = find (mp_here m) (places m) /\
  match mpsearch m with
  | Some p => p ∈ places m /\ floating_pointer m p
  | None => forall p, p ∈ places m -> ~ floating_pointer m p
  end.
Proof.
  split; [apply mpsearch_find|]. rewrite mpsearch_find. destruct (find (mp_here m) (places m)) as [p|] eqn:Ef.
  - apply find_some in Ef as [H1 H2]. split; [by apply list_elem_of_In|by apply mp_here_iff].
  - intros p Hp Hf%mp_here_iff. apply list_elem_of_In in Hp. pose proof (find_none _ _ Ef p Hp). congruence.
Qed.

(** The search depends on the bytes below 1 MB and a little above only. *)
Definition same_bytes (a b : Z) (m m' : gmap Z Z) : Prop := forall x, a <= x < b -> get_byte m' x = get_byte m x.

Lemma sum_loop_same m m' a b n : same_bytes a b m m' -> forall p acc, a <= p -> p + Z.of_nat n <= b -> sum_loop m' p n acc = sum_loop m p n acc.
Proof. intros H. induction n as [|n IH]; intros p acc Hp Hn; cbn [sum_loop]; [done|]. rewrite H, IH by lia. done. Qed.
Lemma get_bytes_same m m' a b n : same_bytes a b m m' -> forall p, a <= p -> p + Z.of_nat n <= b -> get_bytes m' p n = get_bytes m p n.
Proof. intros H. induction n as [|n IH]; intros p Hp Hn; cbn [get_bytes]; [done|]. rewrite H, IH by lia. done. Qed.
Lemma mp_here_same m m' a b p : same_bytes a b m m' -> a <= p -> p + 16 <= b -> mp_here m' p = mp_here m p.
Proof. intros H Hp Hb. unfold mp_here, sum. rewrite (get_bytes_same m m' a b), (sum_loop_same m m' a b); [done|done|done|unfold MP; lia|done|done|lia]. Qed.

Lemma places1_range a len p : 0 <= a -> 0 <= len -> a + len <= 2 ^ 31 -> len mod 16 = 0 -> p ∈ places1 a len -> KERNBASE + a <= p /\ p + 16 <= KERNBASE + a + len.
Proof.
  intros Ha Hl Hb Hm (i & -> & Hi%elem_of_seq)%list_elem_of_fmap. unfold p2v, KERNBASE, MP in *. assert (Z.of_nat i < len / 16) as Hi' by lia.
  assert (len = 16 * (len / 16)) by (Z.to_euclidean_division_equations; lia). rewrite u32_small by lia. lia.
Qed.

Lemma mpsearch_same m m' : same_bytes KERNBASE (KERNBASE + 1052672) m m' -> (ebda m <> 0 \/ 1024 <= base_memory m <= 1048576) -> mpsearch m' = mpsearch m.
Proof.
  intros H Hb. assert (ebda m' = ebda m) as E1 by (unfold ebda; rewrite !H by lia; done). assert (base_memory m' = base_memory m) as E2 by (unfold base_memory; rewrite !H by lia; done).
  rewrite !mpsearch_find. assert (places m' = places m) as -> by (unfold places; by rewrite E1, E2).
  assert (forall p, p ∈ places m -> mp_here m' p = mp_here m p) as Hh.
  { intros p Hp. unfold places in Hp. apply elem_of_app in Hp.
    assert (0 <= ebda m <= 1048560) as He by (unfold ebda; pose proof (get_byte_range m (KERNBASE + 1039)); pose proof (get_byte_range m (KERNBASE + 1038)); lia).
    assert (KERNBASE <= p /\ p + 16 <= KERNBASE + 1052672) as [Hp1 Hp2]; [|by apply (mp_here_same _ _ _ _ _ H)].
    destruct Hp as [Hp|Hp]; [destruct (Z.eqb_spec (ebda m) 0); [rewrite u32_small in Hp by lia|]|]; apply places1_range in Hp; (done || lia). }
  induction (places m) as [|p l IH]; [done|]. cbn [find]. rewrite Hh by left. destruct (mp_here m p); [done|]. apply IH. intros q Hq. apply Hh. by right.
Qed.

(** ** The configuration table *)
(** The entries [mpinit] knows: a processor (20 bytes), an I/O APIC and the
    ones it skips (8 bytes each). *)
Inductive mpentry : Type :=
| Processor (apicid version flags : Z) (rest : list Z)
| IoApic (apicno : Z) (rest : list Z)
| Skipped (type : Z) (rest : list Z).

Definition entry_bytes (x : mpentry) : list Z :=
  match x with
  | Processor apicid version flags rest => [MPPROC; apicid; version; flags] ++ rest
  | IoApic apicno rest => [MPIOAPIC; apicno] ++ rest
  | Skipped type rest => type :: rest
  end.

Definition entry_ok (x : mpentry) : Prop :=
  match x with
  | Processor apicid _ _ rest => length rest = 16%nat
  | IoApic _ rest => length rest = 6%nat
  | Skipped type rest => length rest = 7%nat /\ (type = MPBUS \/ type = MPIOINTR \/ type = MPLINTR)
  end.

Definition table_bytes (es : list mpentry) : list Z := concat (entry_bytes <$> es).
Definition bytes_at (m : gmap Z Z) (p : Z) (bs : list Z) : Prop := get_bytes m p (length bs) = bs.

(** The APIC ids of the processors, and what the table says of the I/O APIC and
    of the processor that started the machine. *)
Definition apicids (es : list mpentry) : list Z := omap (fun x => match x with Processor id _ _ _ => Some id | _ => None end) es.
Fixpoint last_ioapic (d : Z) (es : list mpentry) : Z :=
  match es with
  | [] => d
  | IoApic id _ :: es' => last_ioapic id es'
  | _ :: es' => last_ioapic d es'
  end.
(** The processors get the numbers from [n] on; the last one marked as the boot
    processor counts. *)
Fixpoint boot_processor (n d : Z) (es : list mpentry) : Z :=
  match es with
  | [] => d
  | Processor _ _ flags _ :: es' => boot_processor (n + 1) (if Z.land flags MPBOOT =? 0 then d else n) es'
  | _ :: es' => boot_processor n d es'
  end.

(** The APIC ids of the processors are the numbers from [n] on, in the order of
    the table. *)
Definition numbered (n : Z) (es : list mpentry) : Prop := apicids es = seqZ n (Z.of_nat (length (apicids es))).
#[export] Instance numbered_dec n es : Decision (numbered n es).
Proof. unfold numbered. apply _. Defined.

Lemma get_bytes_lookup m n : forall p i, (i < n)%nat -> get_bytes m p n !! i = Some (get_byte m (p + Z.of_nat i)).
Proof.
  induction n as [|n IH]; intros p [|i] Hi; cbn [get_bytes]; [lia..| |]; [cbn; by rewrite Z.add_0_r|].
  change (get_bytes m (p + 1) n !! i = Some (get_byte m (p + Z.of_nat (S i)))). rewrite IH by lia. do 2 f_equal. lia.
Qed.

Lemma bytes_at_lookup m p bs i b : bytes_at m p bs -> bs !! i = Some b -> get_byte m (p + Z.of_nat i) = b.
Proof.
  intros H Hi. pose proof (get_bytes_lookup m (length bs) p i (lookup_lt_Some _ _ _ Hi)) as E. rewrite H, Hi in E. by injection E.
Qed.

Lemma get_bytes_app m n k : forall p, get_bytes m p (n + k) = get_bytes m p n ++ get_bytes m (p + Z.of_nat n) k.
Proof.
  induction n as [|n IH]; intros p; [cbn; by rewrite Z.add_0_r|]. cbn [Nat.add get_bytes app]. rewrite IH. do 3 f_equal. lia.
Qed.

Lemma get_bytes_length m n : forall p, length (get_bytes m p n) = n.
Proof. induction n as [|n IH]; intros p; cbn [get_bytes length]; [done|]. by rewrite IH. Qed.

Lemma bytes_at_app m p b1 b2 : bytes_at m p (b1 ++ b2) -> bytes_at m p b1 /\ bytes_at m (p + Z.of_nat (length b1)) b2.
Proof.
  unfold bytes_at. rewrite length_app, get_bytes_app. intros H. apply app_inj_1 in H; [done|]. apply get_bytes_length.
Qed.

Section Collect.
Context {Hw : Hardware}.

(** What an entry contributes. *)
Definition collect1 (x : mpentry) (s : machine) : machine :=
  match x with
  | Processor id _ flags _ =>
      set_m_ncpu (id + 1) (set_m_cpus (<[Z.to_nat id := u8 id]> (m_cpus s))
        (if Z.land flags MPBOOT =? 0 then s else set_m_bcpu id s))
  | IoApic id _ => set_m_ioapicid id s
  | Skipped _ _ => s
  end.

Lemma mp_proc_runs p s id v fl rest e : bytes_at (mem (m_k s)) p (entry_bytes (Processor id v fl rest)) -> m_ncpu s = id ->
  mp_proc p s e =
    (let! c := deref "cpus" (m_cpus s !! Z.to_nat id) in modify (fun _ => collect1 (Processor id v fl rest) s))
      (if Z.land fl MPBOOT =? 0 then s else set_m_bcpu id s) e.
Proof.
  intros Hb Hn. pose proof (bytes_at_lookup _ _ _ 1 id Hb eq_refl) as E1. pose proof (bytes_at_lookup _ _ _ 3 fl Hb eq_refl) as E3.
  change (Z.of_nat 1) with 1 in E1. change (Z.of_nat 3) with 3 in E3.
  unfold mp_proc, bind, gets, modify, when. cbn [m_k]. rewrite E1, E3, Hn, Z.eqb_refl. cbn [negb]. cbv [ret].
  destruct (Z.land fl MPBOOT =? 0) eqn:Hfl; cbn [negb]; unfold collect1; rewrite Hfl; cbn [m_cpus set_m_bcpu]; by destruct (m_cpus s !! Z.to_nat id).
Qed.

Lemma numbered_cons n id v fl rest es : numbered n (Processor id v fl rest :: es) <-> id = n /\ numbered (n + 1) es.
Proof.
  unfold numbered. change (apicids (Processor id v fl rest :: es)) with (id :: apicids es). cbn [length]. rewrite seqZ_cons by lia.
  replace (Z.pred (Z.of_nat (S (length (apicids es))))) with (Z.of_nat (length (apicids es))) by lia.
  replace (Z.succ n) with (n + 1) by lia. split; [by intros [= -> H]|by intros [-> <-]].
Qed.

(** One known entry of the table. *)
Lemma mpinit_loop_step f p e0 x bs s e : bytes_at (mem (m_k s)) p (entry_bytes x ++ bs) -> entry_ok x -> p < e0 ->
  mpinit_loop (S f) p e0 s e =
    (do match x with Processor _ _ _ _ => mp_proc p | _ => modify (collect1 x) end; mpinit_loop f (p + Z.of_nat (length (entry_bytes x))) e0) s e.
Proof.
  intros Hb Hx Hp. apply bytes_at_app in Hb as [Hb _]. cbn [mpinit_loop]. destruct (Z.ltb_spec p e0); [|lia]. cbn [negb]. unfold bind at 1, gets.
  pose proof (fun b => bytes_at_lookup _ _ _ 0 b Hb) as E0. change (Z.of_nat 0) with 0 in E0. rewrite Z.add_0_r in E0.
  destruct x as [id v fl rest|id rest|ty rest]; cbn [entry_ok] in Hx.
  - rewrite (E0 MPPROC eq_refl). cbn [Z.eqb MPPROC]. cbn [entry_bytes]. rewrite length_app, Hx. done.
  - rewrite (E0 MPIOAPIC eq_refl). cbn [entry_bytes]. rewrite length_app, Hx. pose proof (bytes_at_lookup _ _ _ 1 id Hb eq_refl) as E1. change (Z.of_nat 1) with 1 in E1.
    rewrite E1. done.
  - destruct Hx as [Hl Ht]. rewrite (E0 ty eq_refl). cbn [entry_bytes length]. rewrite Hl. by destruct Ht as [-> | [-> | ->]].
Qed.

Lemma entry_bytes_pos x : entry_ok x -> (0 < length (entry_bytes x))%nat.
Proof. destruct x; cbn; lia. Qed.

Lemma collect1_k x s : m_k (collect1 x s) = m_k s.
Proof. destruct x as [? ? fl ?| |]; cbn; [by destruct (_ =? 0)|done..]. Qed.

(** The loop over a run of known entries with the processors numbered. *)
Lemma mpinit_loop_known es : forall f s p e0 e, bytes_at (mem (m_k s)) p (table_bytes es) -> Forall entry_ok es -> p + Z.of_nat (length (table_bytes es)) <= e0 ->
  0 <= m_ncpu s -> numbered (m_ncpu s) es -> m_ncpu s + Z.of_nat (length (apicids es)) <= Z.of_nat (length (m_cpus s)) ->
  mpinit_loop (length es + f) p e0 s e = mpinit_loop f (p + Z.of_nat (length (table_bytes es))) e0 (foldl (fun s x => collect1 x s) s es) e.
Proof.
  induction es as [|x es IH]; intros f s p e0 e Hb Hok He H0 Hn Hc; [cbn; by rewrite Z.add_0_r|].
  apply list.Forall_cons in Hok as [Hx Hok]. pose proof (entry_bytes_pos x Hx) as Hpos. cbn [length Nat.add foldl].
  change (table_bytes (x :: es)) with (entry_bytes x ++ table_bytes es) in *. rewrite length_app in *.
  rewrite (mpinit_loop_step _ p _ x (table_bytes es) s e Hb Hx) by lia. destruct (bytes_at_app _ _ _ _ Hb) as [Hb1 Hb2].
  replace (p + Z.of_nat (length (entry_bytes x) + length (table_bytes es))) with (p + Z.of_nat (length (entry_bytes x)) + Z.of_nat (length (table_bytes es))) in * by lia.
  rewrite <- (collect1_k x s) in Hb2. destruct x as [id v fl rest|id rest|ty rest]; [|by apply IH..].
  apply numbered_cons in Hn as [Hid Hn]. cbn [apicids omap list_omap length] in Hc. fold (apicids es) in Hc. unfold bind at 1. rewrite (mp_proc_runs p s id v fl rest e Hb1 (eq_sym Hid)).
  destruct (lookup_lt_is_Some_2 (m_cpus s) (Z.to_nat id) ltac:(cbn in Hc; lia)) as [c ->]. cbn [deref]. unfold bind at 1, ret, modify.
  apply IH; [exact Hb2|done|done| | |]; rewrite <- Hid in *; cbn [collect1 m_ncpu m_cpus set_m_ncpu set_m_cpus]; [lia|done|rewrite length_insert; cbn in Hc; lia].
Qed.

Lemma collect_k es : forall s, m_k (foldl (fun s x => collect1 x s) s es) = m_k s.
Proof. induction es as [|x es IH]; intros s; cbn [foldl]; [done|]. by rewrite IH, collect1_k. Qed.

(** ** Any table of known entries *)

(** What going through the entries [es] makes of [s]: a processor whose APIC id
    is not its number is reported on the console and costs [ismp]. *)
Record collects (s : machine) (es : list mpentry) (s' : machine) : Prop := {
  cl_ncpu : m_ncpu s' = m_ncpu s + Z.of_nat (length (apicids es));
  cl_bcpu : m_bcpu s' = boot_processor (m_ncpu s) (m_bcpu s) es;
  cl_ioapic : m_ioapicid s' = last_ioapic (m_ioapicid s) es;
  cl_ismp : m_ismp s' = m_ismp s && bool_decide (numbered (m_ncpu s) es);
  cl_cpus i : 0 <= i < m_ncpu s' -> m_cpus s' !! Z.to_nat i = Some i;
  cl_rest : m_lapic s' = m_lapic s /\ m_log s' = m_log s;
  cl_kernel : exists cn, m_k s' = set_console cn (m_k s);
  cl_quiet : numbered (m_ncpu s) es -> m_k s' = m_k s
}.

(** The machine can go on with the loop: the [n] processors found have their
    numbers, [k] more fit in, and messages can be printed. *)
Record can_collect (s : machine) (k : nat) : Prop := {
  cc_ncpu : 0 <= m_ncpu s;
  cc_room : m_ncpu s + Z.of_nat k <= Z.of_nat NCPU;
  cc_len : length (m_cpus s) = NCPU;
  cc_cpus i : 0 <= i < m_ncpu s -> m_cpus s !! Z.to_nat i = Some i;
  cc_console : console_ok (console (m_k s));
  cc_lock : ConsLock ∉ held (m_k s)
}.

Lemma mp_report s n id : console_ok (console (m_k s)) -> ConsLock ∉ held (m_k s) ->
  wp (do kern (cprintf (lit "mpinit: ncpu=%d apicid=%d" ++ [nl]) [AInt n; AInt id]); modify (set_m_ismp false)) s
    (fun _ s' => exists cn, console_ok cn /\ s' = set_m_ismp false (set_m_k (set_console cn (m_k s)) s)).
Proof.
  intros Hok Hl. destruct (cprintf_some (lit "mpinit: ncpu=%d apicid=%d" ++ [nl]) [AInt n; AInt id] (m_k s))
    as (bs & cn & R & Hcn & _); [by vm_compute|done|done|].
  eapply wp_bind_runs; [intros e; unfold kern; by rewrite R|]. apply wp_modify. by exists cn.
Qed.

Lemma mp_proc_collects p s id v fl rest k : bytes_at (mem (m_k s)) p (entry_bytes (Processor id v fl rest)) -> can_collect s (S k) ->
  wp (mp_proc p) s (fun _ s' => collects s [Processor id v fl rest] s' /\ can_collect s' k).
Proof.
  intros Hb [C1 C2 C3 C4 C5 C6]. pose proof (bytes_at_lookup _ _ _ 1 id Hb eq_refl) as E1. pose proof (bytes_at_lookup _ _ _ 3 fl Hb eq_refl) as E3.
  change (Z.of_nat 1) with 1 in E1. change (Z.of_nat 3) with 3 in E3. unfold mp_proc. do 2 (eapply wp_bind_runs; [by intros e|]). rewrite E1, E3.
  set (n := m_ncpu s) in *. destruct (lookup_lt_is_Some_2 (m_cpus s) (Z.to_nat n)) as [old Hold]; [lia|].
  assert (numbered n [Processor id v fl rest] <-> id = n) as Hn by (rewrite numbered_cons; split; [tauto|done]).
  apply wp_bind. assert (exists cn, console_ok cn /\ (id = n -> set_console cn (m_k s) = m_k s) /\
    wp (when (negb (n =? id)) (do kern (cprintf (lit "mpinit: ncpu=%d apicid=%d" ++ [nl]) [AInt n; AInt id]); modify (set_m_ismp false))) s
      (fun _ s1 => s1 = set_m_ismp (m_ismp s && bool_decide (numbered n [Processor id v fl rest])) (set_m_k (set_console cn (m_k s)) s))) as (cn & Hcn & Hq & W).
  { destruct (Z.eqb_spec n id) as [Hid|Hid]; cbn [negb when].
    - exists (console (m_k s)). split; [done|]. split; [by destruct (m_k s)|]. apply wp_ret.
      rewrite bool_decide_eq_true_2, andb_true_r by (by apply Hn). by destruct s as [[] ? ? ? ? ? ? ? ? ? ?].
    - destruct (mp_report s n id C5 C6) as ([] & s1 & R & cn & Hcn & ->). exists cn. split; [done|]. split; [intros H; by destruct Hid|].
      rewrite bool_decide_eq_false_2, andb_false_r by (rewrite Hn; congruence). by eapply runs_wp. }
  eapply wp_mono; [exact W|]. intros [] s1 ->. clear W.
  eapply (wp_bind_runs _ _ _ tt); [instantiate (1 := set_m_bcpu (if Z.land fl MPBOOT =? 0 then m_bcpu s else n)
    (set_m_ismp (m_ismp s && bool_decide (numbered n [Processor id v fl rest])) (set_m_k (set_console cn (m_k s)) s)));
    intros e; destruct (Z.land fl MPBOOT =? 0); [by destruct s|done]|].
  eapply wp_bind_runs; [by intros e|]. cbn [m_cpus set_m_bcpu set_m_ismp set_m_k]. rewrite Hold. eapply wp_bind_runs; [by intros e|].
  eapply (wp_bind_runs _ _ _ tt); [by intros e|]. apply wp_modify.
  assert (forall i, 0 <= i < n + 1 -> <[Z.to_nat n := u8 n]> (m_cpus s) !! Z.to_nat i = Some i) as Hc.
  { intros i Hi. destruct (Z.eq_dec i n) as [->|Hne].
    - rewrite list_lookup_insert_eq by lia. unfold u8. rewrite Z.mod_small; [done|]. unfold NCPU in C2. lia.
    - rewrite list_lookup_insert_ne by lia. apply C4. lia. }
  split; split; cbn; try done; try lia; [by eexists|by intros H%Hn; apply Hq|by rewrite length_insert].
Qed.
Lemma collects_trans s1 x s2 es s3 : collects s1 [x] s2 -> collects s2 es s3 -> collects s1 (x :: es) s3.
Proof.
  intros [A1 A2 A3 A4 A5 [A6 A6'] [cn A7] A8] [B1 B2 B3 B4 B5 [B6 B6'] [cn' B7] B8].
  assert (numbered (m_ncpu s1) (x :: es) <-> numbered (m_ncpu s1) [x] /\ numbered (m_ncpu s2) es) as Hn.
  { destruct x as [id v fl rest|id rest|ty rest]; cbn in A1; [rewrite !numbered_cons, A1; unfold numbered at 2; cbn; naive_solver|..];
      rewrite Z.add_0_r in A1; rewrite A1; unfold numbered at 2; cbn; naive_solver. }
  split.
  - rewrite B1, A1. destruct x; cbn; fold (apicids es); lia.
  - rewrite B2, A2. destruct x; cbn in A1 |- *; rewrite A1; f_equal; lia.
  - rewrite B3, A3. by destruct x.
  - rewrite B4, A4, <- andb_assoc, <- bool_decide_and. f_equal. by apply bool_decide_ext.
  - done.
  - split; congruence.
  - exists cn'. rewrite B7, A7. by destruct (m_k s1).
  - intros [H1 H2]%Hn. by rewrite B8, A8.
Qed.

(** An entry other than a processor. *)
Lemma other_collects x s k : (forall id v fl rest, x <> Processor id v fl rest) -> can_collect s k ->
  collects s [x] (collect1 x s) /\ can_collect (collect1 x s) k.
Proof.
  intros Hx [C1 C2 C3 C4 C5 C6]. destruct x as [id v fl rest|id rest|ty rest]; [by destruct (Hx id v fl rest)|..].
  all: split; [|by split]; split; cbn; try done; try lia; try (exists (console (m_k s)); by destruct (m_k s)).
  all: by rewrite andb_true_r.
Qed.

(** The loop over a whole table. *)
Lemma mpinit_loop_collects es : forall f s p, bytes_at (mem (m_k s)) p (table_bytes es) -> Forall entry_ok es -> (length es <= f)%nat ->
  can_collect s (length (apicids es)) ->
  wp (mpinit_loop f p (p + Z.of_nat (length (table_bytes es)))) s (fun _ s' => collects s es s').
Proof.
  induction es as [|x es IH]; intros f s p Hb Hok Hf C.
  - eapply runs_wp; [intros e; destruct f; cbn [mpinit_loop table_bytes concat fmap list_fmap length]; rewrite Z.add_0_r, Z.ltb_irrefl; done|].
    split; cbn; try done; try lia; [by rewrite andb_true_r|apply C|exists (console (m_k s)); by destruct (m_k s)].
  - apply list.Forall_cons in Hok as [Hx Hok]. pose proof (entry_bytes_pos x Hx) as Hpos. destruct f as [|f]; [cbn in Hf; lia|].
    change (table_bytes (x :: es)) with (entry_bytes x ++ table_bytes es) in *. rewrite length_app in *. destruct (bytes_at_app _ _ _ _ Hb) as [Hb1 Hb2].
    assert (wp (match x with Processor _ _ _ _ => mp_proc p | _ => modify (collect1 x) end) s
      (fun _ s1 => collects s [x] s1 /\ can_collect s1 (length (apicids es)))) as (u & s1 & R & C1 & Cc).
    { destruct x as [id v fl rest|id rest|ty rest]; [by apply mp_proc_collects|apply wp_modify; by apply other_collects..]. }
    destruct (cl_kernel _ _ _ C1) as [cn Ek]. assert (mem (m_k s1) = mem (m_k s)) as Em by (by rewrite Ek).
    destruct (IH f s1 (p + Z.of_nat (length (entry_bytes x)))) as ([] & s2 & R2 & C2); [by rewrite Em|done|cbn in Hf; lia|done|].
    exists tt, s2. split; [|by eapply collects_trans].
    intros e. rewrite (mpinit_loop_step f p _ x (table_bytes es) s e Hb Hx) by lia. unfold bind. rewrite R.
    rewrite Nat2Z.inj_add, Z.add_assoc. apply R2.
Qed.
End Collect.

Lemma entries_fit es : Forall entry_ok es -> (length es <= length (table_bytes es))%nat.
Proof.
  induction 1 as [|x es Hx _ IH]; [done|]. change (table_bytes (x :: es)) with (entry_bytes x ++ table_bytes es). rewrite length_app. pose proof (entry_bytes_pos x Hx). cbn. lia.
Qed.

(** The table at [conf] consists of [es]. *)
Record table_at (m : gmap Z Z) (conf : Z) (es : list mpentry) : Prop := {
  ta_length : conf_length m conf = MPCONF + Z.of_nat (length (table_bytes es));
  ta_bytes : bytes_at m (conf + MPCONF) (table_bytes es);
  ta_ok : Forall entry_ok es
}.

(** A valid configuration table: the first floating pointer structure among the
    places searched leads to it, it has the signature, a known version, and
    bytes that add up to 0. *)
Record valid_table (m : gmap Z Z) (mp conf : Z) : Prop := {
  vt_place : exists i, places m !! i = Some mp /\ floating_pointer m mp /\
    forall j q, (j < i)%nat -> places m !! j = Some q -> ~ floating_pointer m q;
  vt_address : mp_physaddr m mp <> 0 /\ conf = p2v (mp_physaddr m mp);
  vt_signature : get_bytes m conf 4 = lit "PCMP";
  vt_version : conf_version m conf = 1 \/ conf_version m conf = 4;
  vt_sum : foldr Z.add 0 (get_bytes m conf (Z.to_nat (conf_length m conf))) mod 256 = 0
}.

Lemma find_first m l p : find (mp_here m) l = Some p <-> exists i, l !! i = Some p /\ floating_pointer m p /\
  forall j q, (j < i)%nat -> l !! j = Some q -> ~ floating_pointer m q.
Proof.
  induction l as [|x l IH]; cbn [find]; [split; [done|by intros (i & H & _)]|]. destruct (mp_here m x) eqn:E.
  - apply mp_here_iff in E. split; [intros [= <-]; exists 0%nat; split; [done|split; [done|lia]]|]. intros ([|i] & Hi & Hp & Hf); [by injection Hi as <-|].
    by destruct (Hf 0%nat x ltac:(lia) eq_refl).
  - assert (~ floating_pointer m x) as Hx by (rewrite <- mp_here_iff; congruence). rewrite IH. split.
    + intros (i & Hi & Hp & Hf). exists (S i). split; [done|]. split; [done|]. intros [|j] q Hj Hq; [by injection Hq as <-|]. apply (Hf j); [lia|done].
    + intros ([|i] & Hi & Hp & Hf); [by injection Hi as <-|]. exists i. split; [done|]. split; [done|]. intros j q Hj Hq. apply (Hf (S j)); [lia|done].
Qed.

Lemma mpconfig_valid m mp conf : mpconfig m = Some (mp, conf) <-> valid_table m mp conf.
Proof.
  assert (forall a n, sum m a n = foldr Z.add 0 (get_bytes m a (Z.to_nat n)) mod 256) as Es by (intros a n; unfold sum; by rewrite sum_loop_bytes).
  unfold mpconfig. rewrite mpsearch_find. split.
  - destruct (find (mp_here m) (places m)) as [q|] eqn:Ef; [|done]. apply find_first in Ef. destruct (Z.eqb_spec (mp_physaddr m q) 0); [done|].
    case_bool_decide; [|done]. cbn [negb]. destruct (_ && _) eqn:Ev; [done|]. rewrite Es. destruct (Z.eqb_spec (foldr Z.add 0 (get_bytes m (p2v (mp_physaddr m q)) (Z.to_nat (conf_length m (p2v (mp_physaddr m q))))) mod 256) 0); [|done].
    cbn [negb]. intros [= -> <-]. split; [done|done|done|lia|done].
  - intros [[i Hi] [H1 ->] H2 H3 H4]. rewrite (proj2 (find_first m (places m) mp)) by (by exists i). rewrite (proj2 (Z.eqb_neq _ 0)) by done.
    rewrite bool_decide_eq_true_2 by done. cbn [negb]. rewrite Es, H4. by destruct H3 as [-> | ->].
Qed.

Section Outcome.
Context {Hw : Hardware}.

(** The accesses with which the interrupt mode configuration register connects
    the local APICs to the interrupt lines, given those before. *)
Definition imcr_accesses (l : list access) : list access :=
  let v := port_in (Out 34 112 :: l) 35 in [Out 35 (u8 (Z.lor v 1)); In 35 v; Out 34 112].

(** [s'] is [s] with a multiprocessor found in the table at [conf], of entries
    [es], to which [mp] leads. *)
Record multiprocessor (s : machine) (mp conf : Z) (es : list mpentry) (s' : machine) : Prop := {
  mu_ismp : m_ismp s' = true;
  mu_ncpu : m_ncpu s' = Z.of_nat (length (apicids es));
  mu_cpus i : 0 <= i < m_ncpu s' -> m_cpus s' !! Z.to_nat i = Some i;
  mu_ioapic : m_ioapicid s' = last_ioapic (m_ioapicid s) es;
  mu_lapic : m_lapic s' = conf_lapicaddr (mem (m_k s)) conf;
  mu_kernel : m_k s' = m_k s;
  mu_log : m_log s' = (if mp_imcrp (mem (m_k s)) mp =? 0 then [] else imcr_accesses (m_log s)) ++ m_log s
}.

(** [s'] is [s] with the table given up: one processor and no APIC. *)
Record uniprocessor (s s' : machine) : Prop := {
  un_ismp : m_ismp s' = false;
  un_ncpu : m_ncpu s' = 1;
  un_lapic : m_lapic s' = 0;
  un_ioapic : m_ioapicid s' = 0;
  un_kernel : exists cn, m_k s' = set_console cn (m_k s);
  un_log : m_log s' = m_log s
}.

Lemma imcr_runs v s :
  runs (when (negb (v =? 0)) (do outb 34 112; let! x := inb 35 in outb 35 (Z.lor x 1))) s tt
    (set_m_log ((if v =? 0 then [] else imcr_accesses (m_log s)) ++ m_log s) s).
Proof. intros e. destruct (v =? 0); [by destruct s|done]. Qed.
End Outcome.

(** C20: let the firmware have left a valid configuration table of entries
    [mpinit] knows, with at most [NCPU] processors.  If their APIC ids are
    their positions, [mpinit] finds a multiprocessor: it counts and numbers the
    processors, remembers the one that started the machine, the I/O APIC and
    the address of the local APIC, leaves the rest of the kernel alone, and
    switches the interrupt mode when the table asks for it.  If they are not, it
    falls back to one processor and no APIC, and has touched nothing else but
    the console.  With no valid table it does nothing. *)
Theorem mpinit_collects {Hw : Hardware} s mp conf es : can_collect s (length (apicids es)) -> m_ncpu s = 0 ->
  (valid_table (mem (m_k s)) mp conf -> table_at (mem (m_k s)) conf es ->
   wp mpinit s (fun _ s' => m_bcpu s' = boot_processor 0 0 es /\
     (numbered 0 es -> multiprocessor s mp conf es s') /\ (~ numbered 0 es -> uniprocessor s s'))) /\
  ((forall mp conf, ~ valid_table (mem (m_k s)) mp conf) -> runs mpinit s tt (set_m_bcpu 0 s)).
Proof.
  intros C H0. split.
  - intros Hv%mpconfig_valid [T1 T2 T3]. unfold mpinit. do 2 (eapply wp_bind_runs; [by intros e|]). cbn [m_k set_m_bcpu]. rewrite Hv.
    do 2 (eapply wp_bind_runs; [by intros e|]). set (s1 := set_m_lapic _ _). apply wp_bind. rewrite T1, Z.add_assoc.
    eapply wp_mono; [apply (mpinit_loop_collects es _ s1); [done|done|pose proof (entries_fit es T3); unfold MPCONF; lia|by destruct C]|].
    intros [] s2 [A1 A2 A3 A4 A5 [A6 A6'] A7 A8].
    cbn [m_ncpu s1 set_m_lapic set_m_ismp set_m_bcpu m_bcpu m_ismp m_ioapicid m_lapic m_log m_k] in *. rewrite H0 in *.
    eapply wp_bind_runs; [by intros e|]. rewrite A4. cbn [andb]. case_bool_decide as Hn; cbn [negb].
    + eapply runs_wp; [apply imcr_runs|]. rewrite A6'. split; [done|]. split; [|done]. intros _. split; cbn; try done. by apply A8.
    + do 2 (eapply wp_bind_runs; [by intros e|]). apply wp_modify. split; [done|]. split; [done|]. by split.
  - intros Hv e. unfold mpinit, bind, modify, gets. cbn [m_k set_m_bcpu]. destruct (mpconfig _) as [[mp' conf']|] eqn:Ec; [|done].
    apply mpconfig_valid in Ec. by destruct (Hv mp' conf').
Qed.

(** ** Tables the code does not survive *)
(** Printing does not touch memory. *)
Definition keeps_mem {A} (m : K A) : Prop := forall s e, match m s e with Ok _ s' _ => mem s' = mem s | _ => True end.

Create HintDb keeps discriminated.
Lemma keeps_bind {A B'} (m : K A) (k : A -> K B') : keeps_mem m -> (forall a, keeps_mem (k a)) -> keeps_mem (bind m k).
Proof.
  intros Hm Hk s e. unfold bind. specialize (Hm s e). destruct (m s e) as [a s1 e1| | | |]; try done. specialize (Hk a s1 e1).
  destruct (k a s1 e1); try done. by rewrite Hk.
Qed.
Lemma keeps_ret {A} (a : A) : keeps_mem (ret a).
Proof. by intros s e. Qed.
Lemma keeps_gets {A} (f : kstate -> A) : keeps_mem (gets f).
Proof. by intros s e. Qed.
Lemma keeps_modify f : (forall s, mem (f s) = mem s) -> keeps_mem (modify f).
Proof. intros H s e. apply H. Qed.
Lemma keeps_panic {A} msg : keeps_mem (@panic _ A msg).
Proof. by intros s e. Qed.
Lemma keeps_fault {A} msg : keeps_mem (@fault _ A msg).
Proof. by intros s e. Qed.
Lemma keeps_hang {A} : keeps_mem (@hang _ A).
Proof. by intros s e. Qed.
Lemma keeps_if {A} (b : bool) (m1 m2 : K A) : keeps_mem m1 -> keeps_mem m2 -> keeps_mem (if b then m1 else m2).
Proof. by destruct b. Qed.
Lemma keeps_when b m : keeps_mem m -> keeps_mem (when b m).
Proof. by destruct b. Qed.
#[local] Hint Resolve keeps_bind keeps_ret keeps_gets keeps_modify keeps_panic keeps_fault keeps_hang keeps_if keeps_when : keeps.

Lemma keeps_consputc c : keeps_mem (consputc c).
Proof.
  unfold consputc, uartputc, cgaputc, upd_console. apply keeps_bind; [auto with keeps|]. intros cn. apply keeps_if; [auto with keeps|].
  apply keeps_bind; [auto 10 with keeps|]. intros _. apply keeps_bind; [auto with keeps|]. intros cn'. destruct (cga_step _ _ _) as [[crt pos]|]; auto with keeps.
Qed.
#[local] Hint Resolve keeps_consputc : keeps.
Lemma keeps_cputs l : keeps_mem (cputs l).
Proof. induction l as [|c l IH]; cbn [cputs]; auto with keeps. Qed.
#[local] Hint Resolve keeps_cputs : keeps.
Lemma keeps_cprintf_loop n : forall fmt args, (length fmt <= n)%nat -> keeps_mem (cprintf_loop fmt args).
Proof.
  induction n as [|n IH]; intros [|c fmt] args Hn; cbn in Hn; try lia; [apply keeps_ret..|]. cbn [cprintf_loop]. unfold printint.
  assert (forall args, keeps_mem (cprintf_loop fmt args)) as H1 by (intros a; apply IH; lia).
  destruct fmt as [|c' fmt]; [auto with keeps|]. assert (forall args, keeps_mem (cprintf_loop fmt args)) as H2 by (intros a; apply IH; cbn in Hn; lia).
  repeat apply keeps_if; destruct args as [|[]]; auto 10 with keeps.
Qed.
Lemma keeps_cprintf fmt args : keeps_mem (cprintf fmt args).
Proof.
  pose proof (keeps_cprintf_loop (length fmt) fmt args (Nat.le_refl _)). unfold cprintf, acquire, release, holding. auto 10 with keeps.
Qed.

Section Limits.
Context {Hw : Hardware}.

Lemma mpinit_loop_overrun es : forall f s p e, bytes_at (mem (m_k s)) p (table_bytes es) -> Forall entry_ok es -> (length es <= f)%nat ->
  0 <= m_ncpu s -> numbered (m_ncpu s) es -> Z.of_nat (length (m_cpus s)) < m_ncpu s + Z.of_nat (length (apicids es)) ->
  m_ncpu s <= Z.of_nat (length (m_cpus s)) ->
  exists s', mpinit_loop f p (p + Z.of_nat (length (table_bytes es))) s e = Fault "cpus" s'.
Proof.
  induction es as [|x es IH]; intros f s p e Hb Hok Hf H0 Hn Hc Hle; [cbn in Hc; lia|].
  apply list.Forall_cons in Hok as [Hx Hok]. destruct f as [|f]; [cbn in Hf; lia|]. pose proof (entry_bytes_pos x Hx) as Hpos.
  change (table_bytes (x :: es)) with (entry_bytes x ++ table_bytes es) in *. rewrite length_app in *.
  rewrite (mpinit_loop_step f p _ x (table_bytes es) s e Hb Hx) by lia. destruct (bytes_at_app _ _ _ _ Hb) as [Hb1 Hb2].
  replace (p + Z.of_nat (length (entry_bytes x) + length (table_bytes es))) with (p + Z.of_nat (length (entry_bytes x)) + Z.of_nat (length (table_bytes es))) by lia.
  cbn in Hf. rewrite <- (collect1_k x s) in Hb2. destruct x as [id v fl rest|id rest|ty rest]; [|apply IH; (done || lia)..].
  apply numbered_cons in Hn as [Hid Hn]. cbn [apicids omap list_omap length] in Hc. fold (apicids es) in Hc. unfold bind at 1. rewrite (mp_proc_runs p s id v fl rest e Hb1 (eq_sym Hid)).
  destruct (m_cpus s !! Z.to_nat id) as [c|] eqn:Hcpu; cbn [deref]; unfold bind at 1, ret, modify; [|by eexists].
  apply lookup_lt_Some in Hcpu. apply IH; [exact Hb2|done|lia| | | |]; rewrite <- Hid in *; cbn [collect1 m_ncpu m_cpus set_m_ncpu set_m_cpus]; rewrite ?length_insert; cbn in Hc; (done || lia).
Qed.

(** At an entry of unknown type the loop stays where it is. *)
Lemma mpinit_loop_stuck p e0 f : forall s e, p < e0 -> (get_byte (mem (m_k s)) p ∉ [MPPROC; MPIOAPIC; MPBUS; MPIOINTR; MPLINTR]) ->
  forall a s' e', mpinit_loop f p e0 s e <> Ok a s' e'.
Proof.
  induction f as [|f IH]; intros s e Hp Hty a s' e'; cbn [mpinit_loop]; destruct (Z.ltb_spec p e0); try lia; cbn [negb]; unfold bind at 1, gets.
  all: assert (forall n, n ∈ [MPPROC; MPIOAPIC; MPBUS; MPIOINTR; MPLINTR] -> (get_byte (mem (m_k s)) p =? n) = false) as E by (intros n Hn; apply Z.eqb_neq; by intros <-).
  all: rewrite !E by (apply (bool_decide_unpack _); by vm_compute); cbn [orb].
  all: unfold bind, kern; pose proof (keeps_cprintf (lit "mpinit: unknown config type %x" ++ [nl]) [AInt (get_byte (mem (m_k s)) p)] (m_k s) []) as Hm;
    destruct (cprintf _ _ (m_k s) []) as [u k1 e1| | | |]; try done; unfold modify.
  apply IH; [done|]. cbn [m_k set_m_ismp set_m_k]. by rewrite Hm.
Qed.

(** [mpinit] up to its loop. *)
Lemma mpinit_unfold s mp conf e : mpconfig (mem (m_k s)) = Some (mp, conf) ->
  let m := mem (m_k s) in let s1 := set_m_lapic (conf_lapicaddr m conf) (set_m_ismp true (set_m_bcpu 0 s)) in
  let loop := mpinit_loop (Z.to_nat (conf_length m conf)) (conf + MPCONF) (conf + conf_length m conf) in
  (forall a s' e', loop s1 e <> Ok a s' e') -> (forall a s' e', mpinit s e <> Ok a s' e') /\ (forall msg s', loop s1 e = Fault msg s' -> mpinit s e = Fault msg s').
Proof.
  intros Hc m s1 loop H. unfold mpinit, bind, modify, gets. cbn [m_k set_m_bcpu]. rewrite Hc. fold m s1 loop.
  destruct (loop s1 e) as [a s' e'| | | |] eqn:El; [by destruct (H a s' e')|split; intros; by simplify_eq..].
Qed.

End Limits.

(** ** A table in memory *)
(** A floating pointer at the start of the searched part of the BIOS ROM, and
    its configuration table, with the entries [es], at 1 MB. *)
Definition checked (bs : list Z) (i : nat) : list Z := <[i := (- foldr Z.add 0 bs) mod 256]> bs.
Definition ex_mp : list Z := checked (lit "_MP_" ++ [0; 0; 16; 0; 1; 4; 0; 0; 0; 0; 0; 0]) 10.
Definition ex_conf (es : list Z) : list Z :=
  checked (lit "PCMP" ++ [u8 (44 + Z.of_nat (length es)); (44 + Z.of_nat (length es)) / 256; 4; 0] ++ lit "xv6     machine     " ++ replicate 8 0 ++ [0; 0; 224; 254] ++ replicate 4 0 ++ es) 7.
Definition ex_memory (es : list Z) : gmap Z Z := set_bytes (set_bytes ∅ (p2v 983040) ex_mp) (p2v 1048576) (ex_conf es).
Definition ex_mp_machine (es : list Z) : machine := mkMachine (set_mem (ex_memory es) (reset_state ∅ 0 [] 0)) [] irqmask0 false 0 0 0 (replicate NCPU 0) 0 false 0.
Definition ex_entries : list mpentry :=
  [Processor 0 20 3 (replicate 16 0); Processor 1 20 1 (replicate 16 0); Skipped MPBUS (replicate 7 0); IoApic 2 (replicate 6 0)].
Definition quiet : Hardware.
Proof. by refine {| port_in := fun _ _ => 0; mmio_in := fun _ _ => 0 |}. Defined.

(** The first two processors swapped. *)
Definition ex_swapped : list mpentry :=
  [Processor 1 20 1 (replicate 16 0); Processor 0 20 3 (replicate 16 0); IoApic 2 (replicate 6 0)].

Lemma mpinit_collects_witness :
  wp (@mpinit quiet) (ex_mp_machine (table_bytes ex_entries)) (fun _ s' =>
    m_ismp s' = true /\ m_ncpu s' = 2 /\ m_bcpu s' = 0 /\ m_ioapicid s' = 2 /\ m_lapic s' = 4276092928) /\
  wp (@mpinit quiet) (ex_mp_machine (table_bytes ex_swapped)) (fun _ s' => m_ismp s' = false /\ m_ncpu s' = 1).
Proof.
  split.
  - destruct (@mpinit_collects quiet (ex_mp_machine (table_bytes ex_entries)) (p2v 983040) (p2v 1048576) ex_entries) as [W _]; [|done|].
    { split; [by vm_compute..|intros i Hi; cbn in Hi; lia|by split|by apply not_elem_of_nil]. }
    eapply wp_mono; [apply W|].
    + apply mpconfig_valid. by vm_compute.
    + split; [by vm_compute..|]. repeat (apply Forall_cons_2; [by cbn; auto|]). apply Forall_nil_2.
    + intros _ s' (Hb & Hm & _). destruct (Hm ltac:(by vm_compute)) as [H1 H2 _ H3 H4 _ _]. rewrite H1, H2, H3, H4, Hb. repeat split; vm_compute; reflexivity.
  - destruct (@mpinit_collects quiet (ex_mp_machine (table_bytes ex_swapped)) (p2v 983040) (p2v 1048576) ex_swapped) as [W _]; [|done|].
    { split; [by vm_compute..|intros i Hi; cbn in Hi; lia|by split|by apply not_elem_of_nil]. }
    eapply wp_mono; [apply W|].
    + apply mpconfig_valid. by vm_compute.
    + split; [by vm_compute..|]. repeat (apply Forall_cons_2; [by cbn; auto|]). apply Forall_nil_2.
    + intros _ s' (_ & _ & Hu). by destruct (Hu ltac:(by vm_compute)).
Defined.

