(* ===== verification/Boot.v ===== *)
(** * The boot loader: bootmain.c, elf.h, insl and stosb of x86.h

    bootmain reads the kernel file, which starts at sector 1 of the disk, with
    the disk's ports and polling.  Paging is off while it runs, so the
    addresses of [mem] are physical here.  The disk is the register file of an
    ATA drive, a function of the accesses made to it; the theorem says which
    bytes of the file are where when the loader jumps to the kernel. *)

From S2P Require Import Prelude Bytes Kstate Sync Kalloc Disk Bio Log Fs Console Vm Proc Space Exec Hw Mp.
Local Open Scope Z_scope.

(** 32-bit input from the data port, given the accesses so far. *)
Class DataPort := data_in : list access -> Z.

Definition SECTSIZE : Z := 512.
(** [ph->paddr] *)
Definition ph_paddr (p : list Z) : Z := get32 p 12.

Section Bootmain.
Context {Hw : Hardware} {Dp : DataPort}.

(** ** x86.h *)
(** [insl(port, addr, cnt)] *)
Fixpoint insl (port addr : Z) (cnt : nat) : B unit :=
  match cnt with
  | O => ret tt
  | S c =>
      let! l := gets m_log in
      do logged (In port (data_in l));
      do kern (store_bytes addr (le_bytes 4 (data_in l)));
      insl port (addr + 4) c
  end.
(** [stosb(addr, data, cnt)] *)
Definition stosb (addr data cnt : Z) : B unit := kern (store_bytes addr (replicate (Z.to_nat cnt) data)).

(** ** bootmain.c *)
(** [fuel]: how often the status is read at most before the disk is ready. *)
Definition waitdisk (fuel : nat) : B unit :=
  do poll fuel (inb 503) (fun v => negb (Z.land v 192 =? 64));
  ret tt.

Definition readsect (fuel : nat) (dst offset : Z) : B unit :=
  do waitdisk fuel;
  do outb 498 1;
  do outb 499 offset;
  do outb 500 (Z.shiftr offset 8);
  do outb 501 (Z.shiftr offset 16);
  do outb 502 (Z.lor (Z.shiftr offset 24) 224);
  do outb 503 32;
  do waitdisk fuel;
  insl 496 dst (Z.to_nat (SECTSIZE / 4)).

(** [n] bounds the number of passes: they advance by a sector until [epa], or
    wrap around and never end. *)
Fixpoint readseg_loop (fuel n : nat) (pa epa offset : Z) : B unit :=
  if negb (pa <? epa) then ret tt else
  do readsect fuel pa offset;
  match n with
  | O => hang
  | S n' => readseg_loop fuel n' (u32 (pa + SECTSIZE)) epa (u32 (offset + 1))
  end.

Definition readseg (fuel : nat) (pa count offset : Z) : B unit :=
  let epa := u32 (pa + count) in
  let pa := u32 (pa - offset mod SECTSIZE) in
  let offset := u32 (offset / SECTSIZE + 1) in
  readseg_loop fuel (Z.to_nat ((epa - pa) / SECTSIZE + 1)) pa epa offset.

(** A struct in memory. *)
Definition at_mem (a : Z) (n : nat) : B (list Z) := let! k := gets m_k in ret (get_bytes (mem k) a n).

(** [for(; ph < eph; ph++)]; [n] bounds the number of headers. *)
Fixpoint load_loop (fuel n : nat) (ph eph : Z) : B unit :=
  if negb (ph <? eph) then ret tt else
  let! h := at_mem ph (Z.to_nat PROGHDR) in
  let pa := ph_paddr h in
  do readseg fuel pa (ph_filesz h) (ph_off h);
  let! h := at_mem ph (Z.to_nat PROGHDR) in
  do when (ph_filesz h <? ph_memsz h) (stosb (u32 (pa + ph_filesz h)) 0 (ph_memsz h - ph_filesz h));
  match n with
  | O => hang
  | S n' => load_loop fuel n' (u32 (ph + PROGHDR)) eph
  end.

(** The entry point it jumps to; [None] when it returns to bootasm.S. *)
Definition bootmain (fuel : nat) : B (option Z) :=
  let elf := 65536 in
  do readseg fuel elf 4096 0;
  let! h := at_mem elf (Z.to_nat ELFHDR) in
  if negb (elf_magic h =? ELF_MAGIC) then ret None else
  let ph := u32 (elf + elf_phoff h) in
  do load_loop fuel (Z.to_nat (elf_phnum h)) ph (u32 (ph + PROGHDR * elf_phnum h));
  let! h := at_mem elf (Z.to_nat ELFHDR) in
  ret (Some (elf_entry h)).
End Bootmain.

(** ** The drive *)
(** The task file registers, and the words it has ready to be read. *)
Record ata := mkAta { a_count : Z; a_lba0 : Z; a_lba1 : Z; a_lba2 : Z; a_head : Z; a_ready : list Z }.

(** The sector the registers name, with the first drive selected and LBA
    addressing. *)
Definition ata_lba (d : ata) : option Z :=
  if (Z.land (a_head d) 64 =? 64) && (Z.land (a_head d) 16 =? 0)
  then Some (a_lba0 d + 2 ^ 8 * a_lba1 d + 2 ^ 16 * a_lba2 d + 2 ^ 24 * (a_head d mod 16)) else None.

Section Drive.
(** The drive's sectors, as the 128 words of each. *)
Variable disk : Z -> list Z.

Definition ata_step (x : access) (d : ata) : ata :=
  match x with
  | Out p v =>
      if p =? 498 then mkAta v (a_lba0 d) (a_lba1 d) (a_lba2 d) (a_head d) (a_ready d)
      else if p =? 499 then mkAta (a_count d) v (a_lba1 d) (a_lba2 d) (a_head d) (a_ready d)
      else if p =? 500 then mkAta (a_count d) (a_lba0 d) v (a_lba2 d) (a_head d) (a_ready d)
      else if p =? 501 then mkAta (a_count d) (a_lba0 d) (a_lba1 d) v (a_head d) (a_ready d)
      else if p =? 502 then mkAta (a_count d) (a_lba0 d) (a_lba1 d) (a_lba2 d) v (a_ready d)
      else if (p =? 503) && (v =? 32) then
        mkAta (a_count d) (a_lba0 d) (a_lba1 d) (a_lba2 d) (a_head d)
          (match ata_lba d with
           | Some k => concat ((fun i => disk (k + Z.of_nat i)) <$> seq 0 (Z.to_nat (if a_count d =? 0 then 256 else a_count d)))
           | None => []
           end)
      else d
  | In p _ => if p =? 496 then mkAta (a_count d) (a_lba0 d) (a_lba1 d) (a_lba2 d) (a_head d) (tail (a_ready d)) else d
  | _ => d
  end.
Definition ata_state (l : list access) : ata := foldr ata_step (mkAta 0 0 0 0 0 []) l.

Definition sector_bytes (k : Z) : list Z := concat (le_bytes 4 <$> disk k).
(** Byte [i] of the kernel file, and [n] of them. *)
Definition kernel_byte (i : Z) : Z := nth (Z.to_nat (i mod 512)) (sector_bytes (1 + i / 512)) 0.
Definition kernel_bytes (i : Z) (n : nat) : list Z := (fun j => kernel_byte (i + Z.of_nat j)) <$> seq 0 n.
End Drive.

(** The drive is ready after at most [n] more reads of the status. *)
Fixpoint settles `{Hardware} (n : nat) (l : list access) : Prop :=
  let v := port_in l 503 in
  Z.land v 192 = 64 \/ match n with O => False | S n' => settles n' (In 503 v :: l) end.

(** ** Sectors *)
Section Spec.
Context {Hw : Hardware} {Dp : DataPort}.
Variable disk : Z -> list Z.
(** Each sector has 128 words, the data port gives the word the drive has ready,
    and within [n] reads of the status the drive is ready. *)
Hypothesis disk_words : forall k, length (disk k) = 128%nat.
Hypothesis disk_data : forall l w ws, a_ready (ata_state disk l) = w :: ws -> data_in l = w.
Variable n : nat.
Hypothesis disk_ready : forall l, settles n l.

(** What the loader changes: memory, and the history of accesses. *)
Definition stored (s : machine) (m : gmap Z Z) (s' : machine) : Prop := exists l, s' = set_m_log l (set_m_k (set_mem m (m_k s)) s).

Lemma stored_trans s m s1 m' s2 : stored s m s1 -> stored s1 m' s2 -> stored s m' s2.
Proof. intros [l ->] [l' ->]. by exists l'. Qed.

(** Only status reads happen while waiting. *)
Lemma poll_ready f : forall s, settles f (m_log s) -> wp (poll f (inb 503) (fun v => negb (Z.land v 192 =? 64))) s (fun _ s' =>
  exists l, s' = set_m_log l s /\ ata_state disk l = ata_state disk (m_log s)).
Proof.
  assert (forall s v, port_in (m_log s) 503 = v -> runs (inb 503) s v (set_m_log (In 503 v :: m_log s) s)) as Hin by (by intros s v <- e).
  induction f as [|f IH]; intros s H; cbn [poll settles] in *; set (v := port_in (m_log s) 503) in *; apply (wp_bind_runs _ _ _ _ _ _ (Hin s v eq_refl)).
  - destruct H as [->|[]]. apply wp_ret. by eexists.
  - destruct (Z.eqb_spec (Z.land v 192) 64); cbn [negb]; [apply wp_ret; by eexists|]. destruct H as [H|H]; [done|].
    eapply wp_mono; [by apply (IH (set_m_log (In 503 v :: m_log s) s))|]. intros _ s' (l & -> & El). by exists l.
Qed.
Lemma waitdisk_ready s : wp (waitdisk n) s (fun _ s' => exists l, s' = set_m_log l s /\ ata_state disk l = ata_state disk (m_log s)).
Proof. apply wp_bind. eapply wp_mono; [by apply poll_ready|]. intros v s' H. by apply wp_ret. Qed.

Lemma set_bytes_app b1 b2 : forall m a, set_bytes m a (b1 ++ b2) = set_bytes (set_bytes m a b1) (a + Z.of_nat (length b1)) b2.
Proof. induction b1 as [|b b1 IH]; intros m a; cbn [app set_bytes length]; [by rewrite Z.add_0_r|]. rewrite IH. f_equal. lia. Qed.

Lemma insl_words ws : forall s addr rest, a_ready (ata_state disk (m_log s)) = ws ++ rest ->
  wp (insl 496 addr (length ws)) s (fun _ s' => stored s (set_bytes (mem (m_k s)) addr (concat (le_bytes 4 <$> ws))) s').
Proof.
  induction ws as [|w ws IH]; intros s addr rest Hr; cbn [insl length].
  - apply wp_ret. exists (m_log s). by destruct s as [[]].
  - cbn [app] in Hr. rewrite fmap_cons, concat_cons, set_bytes_app. eapply wp_bind_runs; [by intros e|]. cbn beta. rewrite (disk_data _ _ _ Hr).
    do 2 (eapply wp_bind_runs; [by intros e|]). eapply wp_mono; [eapply (IH _ (addr + 4) rest)|].
    + cbn [m_log set_m_k set_m_log ata_state foldr]. fold (ata_state disk (m_log s)). cbn [ata_step Z.eqb a_ready]. by rewrite Hr.
    + intros _ s' [l ->]. rewrite le_bytes_length. by exists l.
Qed.

Lemma lba_bytes k : 0 <= k < 2 ^ 28 ->
  ata_lba (mkAta 1 (u8 k) (u8 (Z.shiftr k 8)) (u8 (Z.shiftr k 16)) (u8 (Z.lor (Z.shiftr k 24) 224)) []) = Some k.
Proof.
  intros Hk. unfold ata_lba. cbn [a_lba0 a_lba1 a_lba2 a_head]. rewrite !Z.shiftr_div_pow2 by lia. unfold u8. change (2 ^ 8) with 256.
  assert (0 <= k / 2 ^ 24 < 16) as Hh by (split; [apply Z.div_pos; lia|apply Z.div_lt_upper_bound; lia]).
  assert (forall h, 0 <= h < 16 -> (Z.land (Z.lor h 224 mod 256) 64 =? 64) && (Z.land (Z.lor h 224 mod 256) 16 =? 0) = true /\ Z.lor h 224 mod 256 mod 16 = h) as F.
  { intros h Hr. assert (h ∈ seqZ 0 16) as Hin by (apply elem_of_seqZ; lia). clear Hr. revert h Hin. apply list.Forall_forall, (bool_decide_unpack _). by vm_compute. }
  destruct (F _ Hh) as [-> ->]. f_equal. change (2 ^ 16) with 65536. change (2 ^ 24) with 16777216 in *. Z.to_euclidean_division_equations. lia.
Qed.

Lemma readsect_reads s dst k : 0 <= k < 2 ^ 28 ->
  wp (readsect n dst k) s (fun _ s' => stored s (set_bytes (mem (m_k s)) dst (sector_bytes disk k)) s').
Proof.
  intros Hk. apply wp_bind. eapply wp_mono; [apply waitdisk_ready|]. intros _ s1 (l1 & -> & _).
  do 6 (eapply wp_bind_runs; [by intros e|]). apply wp_bind. eapply wp_mono; [apply waitdisk_ready|]. intros _ s2 (l2 & -> & E2).
  change (Z.to_nat (SECTSIZE / 4)) with 128%nat. rewrite <- (disk_words k). eapply wp_mono; [apply (insl_words (disk k) _ dst [])|].
  - cbn [m_log set_m_log] in *. rewrite E2. cbn [ata_state foldr]. fold (ata_state disk l1). unfold outb. cbn [ata_step Z.eqb Pos.eqb andb a_ready a_count a_lba0 a_lba1 a_lba2 a_head].
    change (u8 1) with 1. change (u8 32 =? 32) with true. cbn [a_ready a_count Z.eqb].
    pose proof (lba_bytes k Hk) as L. unfold ata_lba in *. cbn [a_lba0 a_lba1 a_lba2 a_head] in *. rewrite L.
    change (Z.to_nat 1) with 1%nat. cbn [seq fmap list_fmap concat]. by rewrite Z.add_0_r.
  - intros _ s' [l ->]. by exists l.
Qed.

(** [c] sectors from [k] on. *)
Definition sectors (k : Z) (c : nat) : list Z := concat (sector_bytes disk <$> seqZ k (Z.of_nat c)).

Lemma sectors_S k c : sectors k (S c) = sector_bytes disk k ++ sectors (k + 1) c.
Proof. unfold sectors. rewrite seqZ_cons by lia. cbn [fmap list_fmap concat]. by replace (Z.pred (Z.of_nat (S c))) with (Z.of_nat c) by lia. Qed.

Lemma sector_bytes_length k : length (sector_bytes disk k) = 512%nat.
Proof.
  unfold sector_bytes. assert (forall l : list Z, length (concat (le_bytes 4 <$> l)) = (4 * length l)%nat) as ->; [|by rewrite disk_words].
  induction l as [|w l IH]; [done|]. rewrite fmap_cons, concat_cons, length_app, IH, le_bytes_length. cbn [length]. lia.
Qed.

Lemma readseg_loop_reads c : forall f s pa epa k, epa <= pa + 512 * Z.of_nat c -> (c = 0%nat \/ pa + 512 * (Z.of_nat c - 1) < epa) ->
  0 <= pa -> pa + 512 * Z.of_nat c < 2 ^ 32 -> 0 <= k -> k + Z.of_nat c <= 2 ^ 28 -> (c <= f)%nat ->
  wp (readseg_loop n f pa epa k) s (fun _ s' => stored s (set_bytes (mem (m_k s)) pa (sectors k c)) s').
Proof.
  induction c as [|c IH]; intros f s pa epa k He Hc Hpa Hw32 Hk Hk28 Hf.
  - destruct f; cbn [readseg_loop]; destruct (Z.ltb_spec pa epa); try lia; apply wp_ret; exists (m_log s); by destruct s as [[]].
  - destruct f as [|f]; [lia|]. cbn [readseg_loop]. destruct (Z.ltb_spec pa epa); [|lia]. apply wp_bind. eapply wp_mono; [apply readsect_reads; lia|].
    intros _ s1 [l ->]. rewrite sectors_S, set_bytes_app, sector_bytes_length. unfold SECTSIZE. rewrite !u32_small by lia.
    eapply wp_mono; [apply IH; lia|]. intros _ s' [l' ->]. by exists l'.
Qed.

Lemma sectors_lookup c : forall k i, 0 <= i < 512 * Z.of_nat c -> sectors k c !! Z.to_nat i = Some (kernel_byte disk (512 * (k - 1) + i)).
Proof.
  induction c as [|c IH]; intros k i Hi; [lia|]. rewrite sectors_S. destruct (Z.ltb_spec i 512).
  - rewrite lookup_app_l by (rewrite sector_bytes_length; lia). unfold kernel_byte.
    replace ((512 * (k - 1) + i) mod 512) with i by (Z.to_euclidean_division_equations; lia). replace (1 + (512 * (k - 1) + i) / 512) with k by (Z.to_euclidean_division_equations; lia).
    destruct (lookup_lt_is_Some_2 (sector_bytes disk k) (Z.to_nat i)) as [b Hb]; [rewrite sector_bytes_length; lia|]. by rewrite Hb, (nth_lookup_Some _ _ _ _ Hb).
  - rewrite lookup_app_r by (rewrite sector_bytes_length; lia). rewrite sector_bytes_length. replace (Z.to_nat i - 512)%nat with (Z.to_nat (i - 512)) by lia.
    rewrite IH by lia. do 2 f_equal. lia.
Qed.

Lemma kernel_byte_ok i : is_byte (kernel_byte disk i).
Proof.
  unfold kernel_byte. destruct (nth_in_or_default (Z.to_nat (i mod 512)) (sector_bytes disk (1 + i / 512)) 0) as [H| ->]; [|unfold is_byte; lia].
  unfold sector_bytes in H. apply in_concat in H as (w & Hw1 & Hw2). apply list_elem_of_In, list_elem_of_fmap in Hw1 as (v & -> & _).
  apply list_elem_of_In in Hw2. pose proof (le_bytes_ok 4 v) as F. rewrite list.Forall_forall in F. by apply F.
Qed.
Lemma kernel_bytes_ok i k : Forall is_byte (kernel_bytes disk i k).
Proof. apply list.Forall_forall. intros b (j & -> & _)%list_elem_of_fmap. apply kernel_byte_ok. Qed.

Lemma sectors_length k c : length (sectors k c) = (512 * c)%nat.
Proof. revert k. induction c as [|c IH]; intros k; [done|]. rewrite sectors_S, length_app, IH, sector_bytes_length. lia. Qed.

Lemma sectors_stored m a k c x :
  get_byte (set_bytes m a (sectors k c)) x = if decide (a <= x < a + 512 * Z.of_nat c) then kernel_byte disk (512 * (k - 1) + (x - a)) else get_byte m x.
Proof.
  rewrite get_set_bytes. unfold written. repeat case_decide; try lia.
  - rewrite sectors_lookup by lia. cbn. unfold u8. apply Z.mod_small. apply kernel_byte_ok.
  - rewrite lookup_ge_None_2 by (rewrite sectors_length; lia). done.
  - done.
Qed.

(** The sectors that hold [count] bytes of the file from [off] on. *)
Definition spanned (count off : Z) : Z := (off mod 512 + count + 511) / 512.

(** [readseg] brings in whole sectors: it also writes the bytes of the file
    before [off] and after [off + count] that share them. *)
Lemma readseg_reads s pa count off : 0 <= off < 2 ^ 32 -> 0 <= count -> off mod 512 <= pa -> pa - off mod 512 + 512 * spanned count off < 2 ^ 32 ->
  wp (readseg n pa count off) s (fun _ s' => exists m, stored s m s' /\ forall x,
    get_byte m x = if decide (pa - off mod 512 <= x < pa - off mod 512 + 512 * spanned count off) then kernel_byte disk (off + (x - pa)) else get_byte (mem (m_k s)) x).
Proof.
  intros Ho Hc Hpa Hend. unfold readseg, SECTSIZE. pose proof (Z.mod_pos_bound off 512 ltac:(lia)) as Hm.
  assert (off mod 512 + count <= 512 * spanned count off < off mod 512 + count + 512) as Hsp by (unfold spanned; Z.to_euclidean_division_equations; lia).
  assert (0 <= off / 512 < 2 ^ 23) as Hk by (split; [apply Z.div_pos; lia|apply Z.div_lt_upper_bound; lia]).
  assert (0 <= spanned count off <= 2 ^ 23) as Hc23 by lia. rewrite !u32_small by lia.
  eapply wp_mono; [apply (readseg_loop_reads (Z.to_nat (spanned count off))); try lia|].
  - Z.to_euclidean_division_equations. lia.
  - intros [] s' H. eexists. split; [exact H|]. intros x. rewrite sectors_stored, Z2Nat.id by lia. case_decide; [|done].
    f_equal. pose proof (Z.div_mod off 512 ltac:(lia)). lia.
Qed.

(** ** The kernel file *)
Definition elf_header : list Z := kernel_bytes disk 0 (Z.to_nat ELFHDR).
Definition program_header (k : nat) : list Z := kernel_bytes disk (elf_phoff elf_header + 32 * Z.of_nat k) (Z.to_nat PROGHDR).

(** The first address a segment's sectors are written to, the one after the
    last, and the one after the segment. *)
Definition seg_first (h : list Z) : Z := ph_paddr h - ph_off h mod 512.
Definition seg_last (h : list Z) : Z := seg_first h + 512 * spanned (ph_filesz h) (ph_off h).
Definition seg_end (h : list Z) : Z := ph_paddr h + Z.max (ph_filesz h) (ph_memsz h).

(** The headers are in the first page, the segments are above it, below 4 GB,
    and in increasing order, each beyond the sectors of the next. *)
Record loadable : Prop := {
  ld_headers : elf_phoff elf_header + 32 * elf_phnum elf_header <= 4096;
  ld_above k : Z.of_nat k < elf_phnum elf_header -> 65536 + 4096 <= seg_first (program_header k);
  ld_fits k : Z.of_nat k < elf_phnum elf_header -> seg_last (program_header k) < 2 ^ 32 /\ seg_end (program_header k) <= 2 ^ 32;
  ld_apart j k : (j < k)%nat -> Z.of_nat k < elf_phnum elf_header -> seg_end (program_header j) <= seg_first (program_header k)
}.

(** The bytes of the segment from the file, and the zeros after them. *)
Definition segment_at (m : gmap Z Z) (h : list Z) : Prop :=
  forall i, 0 <= i < Z.max (ph_filesz h) (ph_memsz h) ->
    get_byte m (ph_paddr h + i) = if decide (i < ph_filesz h) then kernel_byte disk (ph_off h + i) else 0.
Definition scratch_at (m : gmap Z Z) : Prop := forall i, 0 <= i < 4096 -> get_byte m (65536 + i) = kernel_byte disk i.

Lemma scratch_bytes m i k : scratch_at m -> 0 <= i -> i + Z.of_nat k <= 4096 -> get_bytes m (65536 + i) k = kernel_bytes disk i k.
Proof.
  intros H Hi Hk. apply list_eq. intros j. unfold kernel_bytes. destruct (decide (j < k)%nat) as [Hj|Hj].
  - rewrite get_bytes_lookup by done. rewrite list_lookup_fmap, lookup_seq_lt by done. cbn. f_equal. rewrite <- Z.add_assoc. rewrite H by lia. f_equal.
  - rewrite !lookup_ge_None_2; [done|rewrite length_fmap, length_seq; lia|rewrite get_bytes_length; lia].
Qed.

Lemma header_range i k o : 0 <= get32 (kernel_bytes disk i k) o < 2 ^ 32.
Proof. apply get32_range, kernel_bytes_ok. Qed.

(** One segment: its bytes are right, and what is outside its sectors and its
    own range is as before. *)
Definition load_one (h : list Z) (m m' : gmap Z Z) : Prop :=
  segment_at m' h /\ forall x, x < seg_first h -> get_byte m' x = get_byte m x.

Lemma zeros_stored m a c x : get_byte (set_bytes m a (replicate c 0)) x = if decide (a <= x < a + Z.of_nat c) then 0 else get_byte m x.
Proof.
  rewrite get_set_bytes. unfold written. repeat case_decide; try lia.
  - by rewrite lookup_replicate_2 by lia.
  - by rewrite lookup_ge_None_2 by (rewrite length_replicate; lia).
  - done.
Qed.

Section Loading.
Hypothesis L : loadable.
Definition phnum : nat := Z.to_nat (elf_phnum elf_header).

Lemma phnum_range : 0 <= elf_phnum elf_header.
Proof. unfold elf_phnum, get16. apply le_value_range, slice_bytes_ok, kernel_bytes_ok. Qed.

Lemma header_in_scratch m k : scratch_at m -> (k < phnum)%nat ->
  get_bytes m (65536 + elf_phoff elf_header + 32 * Z.of_nat k) (Z.to_nat PROGHDR) = program_header k.
Proof.
  intros H Hk. rewrite <- Z.add_assoc. pose proof (header_range 0 (Z.to_nat ELFHDR) 28) as R. pose proof (ld_headers L). unfold phnum in Hk.
  apply scratch_bytes; [done| |change (Z.of_nat (Z.to_nat PROGHDR)) with 32]; unfold elf_phoff in *; fold elf_header in R; lia.
Qed.

(** Reading and zeroing the segment of [program_header k]. *)
Lemma load_step m m1 k : (k < phnum)%nat -> let h := program_header k in
  (forall x, get_byte m1 x = if decide (seg_first h <= x < seg_last h) then kernel_byte disk (ph_off h + (x - ph_paddr h)) else get_byte m x) ->
  load_one h m (if ph_filesz h <? ph_memsz h then set_bytes m1 (ph_paddr h + ph_filesz h) (replicate (Z.to_nat (ph_memsz h - ph_filesz h)) 0) else m1).
Proof.
  intros Hk h H1. pose proof (header_range (elf_phoff elf_header + 32 * Z.of_nat k) (Z.to_nat PROGHDR) 16) as Rf. change (get32 _ 16) with (ph_filesz h) in Rf.
  assert (ph_paddr h + ph_filesz h <= seg_last h /\ seg_first h <= ph_paddr h) as [Hl Hf].
  { unfold seg_last, seg_first, spanned. pose proof (Z.mod_pos_bound (ph_off h) 512 ltac:(lia)). split; [|lia]. Z.to_euclidean_division_equations. lia. }
  split.
  - intros i Hi. destruct (Z.ltb_spec (ph_filesz h) (ph_memsz h)).
    + rewrite zeros_stored, H1. repeat case_decide; try lia. f_equal. lia.
    + rewrite H1. repeat case_decide; try lia. f_equal. lia.
  - intros x Hx. destruct (Z.ltb_spec (ph_filesz h) (ph_memsz h)); rewrite ?zeros_stored, H1; repeat case_decide; try lia; done.
Qed.

(** One pass of the loop. *)
Lemma load_pass j s (c : B unit) Q : (j < phnum)%nat -> scratch_at (mem (m_k s)) -> let ph := 65536 + elf_phoff elf_header + 32 * Z.of_nat j in
  (forall s', load_one (program_header j) (mem (m_k s)) (mem (m_k s')) -> wp c s' Q) ->
  wp (let! h := at_mem ph (Z.to_nat PROGHDR) in
      do readseg n (ph_paddr h) (ph_filesz h) (ph_off h);
      let! h' := at_mem ph (Z.to_nat PROGHDR) in
      do when (ph_filesz h' <? ph_memsz h') (stosb (u32 (ph_paddr h + ph_filesz h')) 0 (ph_memsz h' - ph_filesz h'));
      c) s Q.
Proof.
  intros Hj Hs ph Hc. assert (forall s, scratch_at (mem (m_k s)) -> runs (at_mem ph (Z.to_nat PROGHDR)) s (program_header j) s) as Hat.
  { intros s0 H0 e. unfold at_mem, bind, gets, ret, ph. by rewrite header_in_scratch. }
  eapply wp_bind_runs; [by apply Hat|]. set (h := program_header j) in *. assert (Z.of_nat j < elf_phnum elf_header) as Hj' by (unfold phnum in Hj; lia).
  destruct (ld_fits L j Hj') as [F1 F2]. pose proof (ld_above L j Hj') as Ha. fold h in F1, F2, Ha.
  pose proof (header_range (elf_phoff elf_header + 32 * Z.of_nat j) (Z.to_nat PROGHDR)) as R. fold (program_header j) h in R.
  pose proof (R 4%nat) as Roff. pose proof (R 12%nat) as Rpa. pose proof (R 16%nat) as Rf. fold (ph_off h) in Roff. fold (ph_paddr h) in Rpa. fold (ph_filesz h) in Rf.
  apply wp_bind. eapply wp_mono; [apply readseg_reads; [done|lia|unfold seg_first in Ha; lia|exact F1]|]. intros _ s1 (m1 & [l ->] & H1).
  change (ph_paddr h - ph_off h mod 512) with (seg_first h) in H1. change (seg_first h + _) with (seg_last h) in H1.
  pose proof (load_step (mem (m_k s)) m1 j Hj H1) as H2. fold h in H2. eapply wp_bind_runs.
  { apply Hat. intros i Hi. cbn [m_k set_m_log set_m_k mem set_mem]. rewrite H1, decide_False by lia. by apply Hs. }
  destruct (Z.ltb_spec (ph_filesz h) (ph_memsz h)) as [Hm|Hm]; (eapply wp_bind_runs; [by intros e|]); apply Hc; [|done].
  unfold seg_end in F2. rewrite u32_small by lia. exact H2.
Qed.

Lemma load_loop_loads r : forall j f s, (j + r = phnum)%nat -> (r <= f)%nat -> scratch_at (mem (m_k s)) -> (forall k, (k < j)%nat -> segment_at (mem (m_k s)) (program_header k)) ->
  wp (load_loop n f (65536 + elf_phoff elf_header + 32 * Z.of_nat j) (65536 + elf_phoff elf_header + 32 * Z.of_nat phnum)) s
    (fun _ s' => scratch_at (mem (m_k s')) /\ forall k, (k < phnum)%nat -> segment_at (mem (m_k s')) (program_header k)).
Proof.
  pose proof (ld_headers L) as Hh. pose proof phnum_range as Hn. pose proof (header_range 0 (Z.to_nat ELFHDR) 28) as Ro. change (get32 _ 28) with (elf_phoff elf_header) in Ro.
  induction r as [|r IH]; intros j f s Hj Hf Hs Hk.
  - rewrite Nat.add_0_r in Hj. subst j. destruct f; cbn [load_loop]; rewrite Z.ltb_irrefl; by apply wp_ret.
  - destruct f as [|f]; [lia|]. cbn [load_loop]. destruct (Z.ltb_spec (65536 + elf_phoff elf_header + 32 * Z.of_nat j) (65536 + elf_phoff elf_header + 32 * Z.of_nat phnum)); [|lia].
    apply load_pass; [lia|done|]. intros s' [H1 H2]. assert (Z.of_nat j < elf_phnum elf_header) as Hj' by (unfold phnum in Hj; lia).
    rewrite u32_small by (unfold PROGHDR; unfold phnum in Hj; lia). unfold PROGHDR.
    replace (65536 + elf_phoff elf_header + 32 * Z.of_nat j + 32) with (65536 + elf_phoff elf_header + 32 * Z.of_nat (S j)) by lia.
    apply IH; [lia|lia| |].
    + intros i Hi. rewrite H2; [by apply Hs|]. pose proof (ld_above L j Hj'). lia.
    + intros k Hkj. destruct (decide (k = j)) as [->|Hne]; [done|]. intros i Hi. rewrite H2; [by apply Hk; [lia|]|].
      pose proof (ld_apart L k j ltac:(lia) Hj') as A. unfold seg_end in A. lia.
Qed.
End Loading.

(** C11: [bootmain] on a disk whose file has an ELF header and can be loaded
    enters the kernel at the header's entry point, with every segment in memory:
    the bytes of the file, and zeros up to the segment's size; when the file
    does not begin with the ELF magic number it returns.  It copies whole
    sectors, which spares the other segments because in a file that can be
    loaded each begins, sector and all, after the end of those before it;
    nothing is said of a file with the magic number that cannot be loaded. *)
Theorem bootmain_loads s :
  (elf_magic elf_header = ELF_MAGIC -> loadable ->
     wp (bootmain n) s (fun r s' => r = Some (elf_entry elf_header) /\
       forall k, Z.of_nat k < elf_phnum elf_header -> segment_at (mem (m_k s')) (program_header k))) /\
  (elf_magic elf_header <> ELF_MAGIC -> wp (bootmain n) s (fun r _ => r = None)).
Proof.
  assert (forall c Q, (forall s', scratch_at (mem (m_k s')) -> wp c s' Q) -> wp (A := option Z) (do readseg n 65536 4096 0; c) s Q) as Hr.
  { intros c Q Hc. apply wp_bind. eapply wp_mono; [apply readseg_reads; try lia; done|]. intros _ s' (m & [l ->] & H). apply Hc. intros i Hi. cbn [m_k set_m_log set_m_k mem set_mem].
    rewrite H, decide_True; [f_equal; lia|]. change (0 mod 512) with 0. change (spanned 4096 0) with 8. lia. }
  assert (forall s, scratch_at (mem (m_k s)) -> runs (at_mem 65536 (Z.to_nat ELFHDR)) s elf_header s) as Hat.
  { intros s0 H0 e. unfold at_mem, bind, gets, ret. change 65536 with (65536 + 0) at 1. by rewrite (scratch_bytes _ 0 (Z.to_nat ELFHDR) H0). }
  split.
  - intros Hm L. apply Hr. intros s1 Hs. eapply wp_bind_runs; [by apply Hat|]. rewrite Hm, Z.eqb_refl. cbn [negb].
    pose proof (ld_headers L) as Hh. pose proof phnum_range as Hn. pose proof (header_range 0 (Z.to_nat ELFHDR) 28) as Ro. change (get32 _ 28) with (elf_phoff elf_header) in Ro.
    rewrite (u32_small (65536 + _)) by lia. unfold PROGHDR. rewrite u32_small by lia. apply wp_bind.
    pose proof (load_loop_loads L phnum 0 phnum s1 eq_refl ltac:(lia) Hs ltac:(lia)) as W. rewrite Z.mul_0_r, Z.add_0_r in W. unfold phnum in W at 1 2. rewrite Z2Nat.id in W by done.
    eapply wp_mono; [exact W|]. intros _ s' [H1 H2]. eapply wp_bind_runs; [by apply Hat|]. apply wp_ret. split; [done|]. intros k Hk. apply H2. unfold phnum. lia.
  - intros Hm. apply Hr. intros s1 Hs. eapply wp_bind_runs; [by apply Hat|]. apply Z.eqb_neq in Hm. rewrite Hm. by apply wp_ret.
Qed.
End Spec.

(** ** A drive with a small kernel *)
#[local] Instance drive (disk : Z -> list Z) : DataPort := fun l => hd 0 (a_ready (ata_state disk l)).
Definition always_ready : Hardware.
Proof. by refine {| port_in := fun _ p => if p =? 503 then 64 else 0; mmio_in := fun _ _ => 0 |}; [intros _ p; destruct (p =? 503)|]. Defined.

Definition sector (ws : list Z) : list Z := resize 128 0 ws.
(** The ELF header and two program headers in sector 1, the segments after it. *)
Definition ex_disk (off0 paddr0 filesz0 memsz0 off1 paddr1 filesz1 memsz1 : Z) (k : Z) : list Z :=
  sector (if k =? 1 then [ELF_MAGIC; 0; 0; 0; 196610; 1; 1048588; 52; 0; 0; 2097204; 2; 0] ++
            [1; off0; 0; paddr0; filesz0; memsz0; 7; 4096] ++ [1; off1; 0; paddr1; filesz1; memsz1; 7; 4096]
          else if k =? 2 then [2309737967; 1732584193; 4023233417; 2562383102; 271733878]
          else if k =? 3 then [16909060; 84281096] else []).
Definition ex_pc : machine := mkMachine (reset_state ∅ 0 [] 0) [] irqmask0 false 0 0 0 (replicate NCPU 0) 0 false 0.

Lemma bootmain_loads_witness : let disk := ex_disk 512 1048576 8 16 1028 1049092 4 4 in
  wp (@bootmain always_ready (drive disk) 0) ex_pc (fun r s' => r = Some 1048588 /\
    get_byte (mem (m_k s')) 1048576 = 239 /\ get_byte (mem (m_k s')) 1048584 = 0 /\ get_byte (mem (m_k s')) 1049092 = 8).
Proof.
  intros disk. assert (elf_phnum (elf_header disk) = 2) as Hn by (vm_compute; reflexivity).
  destruct (@bootmain_loads always_ready (drive disk) disk) with (n := 0%nat) (s := ex_pc) as [W _].
  { intros k. apply length_resize. }
  { intros l w ws H. unfold data_in, drive. by rewrite H. }
  { intros l. by left. }
  eapply wp_mono; [apply W|].
  - vm_compute. reflexivity.
  - split.
    + apply (bool_decide_unpack _). vm_compute. exact I.
    + intros [|[|k]] Hk; [apply (bool_decide_unpack _); vm_compute; exact I..|lia].
    + intros [|[|k]] Hk; [apply (bool_decide_unpack _); vm_compute; exact I..|lia].
    + intros [|[|j]] [|[|k]] Hjk Hk; try lia. apply (bool_decide_unpack _). vm_compute. exact I.
  - intros r s' [-> H]. split; [vm_compute; reflexivity|]. pose proof (H 0%nat ltac:(lia)) as H0. pose proof (H 1%nat ltac:(lia)) as H1.
    split; [|split].
    + refine (eq_trans (H0 0 _) _); [apply (bool_decide_unpack _)|]; vm_compute; [exact I|reflexivity].
    + refine (eq_trans (H0 8 _) _); [apply (bool_decide_unpack _)|]; vm_compute; [exact I|reflexivity].
    + refine (eq_trans (H1 0 _) _); [apply (bool_decide_unpack _)|]; vm_compute; [exact I|reflexivity].
Defined.

(** Increasing order is not enough: here the second segment begins where the
    first, 16 bytes that the file leaves to be zeroed, ends, and reading its
    sector puts bytes of the file where the zeros were. *)
Lemma bootmain_overwrites : let disk := ex_disk 512 1048576 0 16 528 1048592 4 4 in
  seg_end (program_header disk 0) = ph_paddr (program_header disk 1) /\
  match @bootmain always_ready (drive disk) 0 ex_pc [] with Ok (Some entry) s' _ => (entry, get_byte (mem (m_k s')) 1048576) | _ => (0, 0) end = (1048588, 239).
Proof. split; vm_compute; reflexivity. Qed.
