(* ===== verification/Userinit.v ===== *)
(** * The first process: [userinit] of proc.c, [inituvm] of vm.c

    [userinit] builds, by hand, the process every other one descends from: an
    address space of one page with the code of initcode.S at its start, and a
    trap frame that enters it. *)

From S2P Require Import Prelude Bytes Cstring Kstate Sync Kalloc Disk Bio Log Fs File Console Vm Dir Directory Pagetable Uvm Space Proc Lifecycle.
Import Str.
Local Open Scope Z_scope.

Section Userinit.
Context {Lay : Layout} {Dev : BlockDev} {Sw : DevSw}.

(** What a page with [code] at its start holds. *)
Definition code_byte (code : list Z) (i : Z) : Z := u8 (nth (Z.to_nat i) code 0).

Lemma inituvm_spec s l d tabs q code :
  uvm_ok s (q :: l) d tabs ∅ -> Z.of_nat (length code) < PGSIZE -> (1 <= length l)%nat ->
  wp (inituvm d code) s (fun _ s' => exists l' tabs',
    uvm_grows d s (q :: l) tabs ∅ s' l' tabs' {[ 0 := q ]} /\ (length l <= 1 + length l')%nat /\
    forall va, 0 <= va < 4096 -> user_byte (mem s') d va = Some (code_byte code va)).
Proof.
  intros U Hc Hl. unfold inituvm. destruct (Z.leb_spec PGSIZE (Z.of_nat (length code))); [lia|].
  pose proof (fill_same q 0 (mem s)) as Hm. destruct (take_page _ _ _ _ _ _ _ U Hm) as (_ & Hq & _ & _ & _ & _ & Hk & _).
  eapply wp_bind_runs; [exact Hk|]. eapply wp_bind_runs; [by intros e|]. apply wp_bind.
  change (set_mem _ (popped s)) with (set_mem (fill_words q 0 1024 (mem s)) (popped s)).
  eapply wp_mono; [apply (add_user_page s l d tabs ∅ q _ 0 6); try done; pose proof (tables_needed_1 (dom tabs) 0); lia|].
  intros r s1 (-> & l' & tabs' & G & Hlen & Hpt & Hz). apply wp_modify. change (Z.lor 6 1) with 7 in Hpt. rewrite insert_empty in G.
  pose proof (ug_ok _ _ _ _ _ _ _ _ _ G) as U1. assert (({[0 := q]} : gmap Z Z) !! 0 = Some q) as H0 by apply lookup_singleton_eq.
  assert (same_outside [q] (mem s1) (set_bytes (mem s1) q code)) as Hs.
  { pose proof (set_bytes_same q code Hq 0 (mem s1)) as H1. rewrite Z.add_0_r in H1. apply H1; unfold PGSIZE in *; lia. }
  destruct (store_user s1 l' d tabs' _ 0 q _ U1 H0 Hs) as [U2 Hp2].
  exists l', tabs'. split; [split|split; [lia|]].
  - exact U2.
  - apply G.
  - apply G.
  - apply G.
  - apply G.
  - apply vm_frame_mem, G.
  - cbn [mem set_mem]. eapply same_outside_weaken; [eapply same_outside_trans; [apply G|exact Hs]|]. set_solver.
  - intros j Hj E. cbn [mem set_mem]. rewrite Hp2. by apply G.
  - intros va Hva. cbn [mem set_mem]. pose proof (store_user_byte s1 l' d tabs' _ 0 q 7 0 code va U1 H0 Hpt) as Hb.
    rewrite Z.add_0_r in Hb. cbv zeta in Hb. rewrite Hb; [|done..|unfold PGSIZE in *; lia|unfold KERNBASE; lia].
    assert (user_byte (mem s1) d va = Some 0) as ->.
    { apply (user_byte_zero s1 l' d tabs' {[0 := q]}); [done|lia|]. rewrite Z.div_small by lia. exists q. split; [done|]. split; [done|].
      intros i Hi. rewrite Hz by lia. replace i with (Z.of_nat (Z.to_nat i)) by lia. apply fill_word. lia. }
    unfold written, code_byte. rewrite decide_True by lia. replace (va - (0 * 4096 + 0)) with va by lia.
    destruct (code !! Z.to_nat va) as [b|] eqn:E; cbn; [by rewrite (nth_lookup_Some _ _ _ _ E)|]. by rewrite nth_overflow by (by apply lookup_ge_None_1).
Qed.

(** [namei("/")] is the root directory's entry of the inode cache. *)
Lemma namei_root s : held s = [] -> icache_room ROOTDEV ROOTINO (icache s) ->
  exists c ic, igot ROOTDEV ROOTINO (icache s) c ic /\ runs (namei [slash]) s (Some c) (set_icache ic s).
Proof.
  intros Hh Hr. destruct (iget_runs ROOTDEV ROOTINO s Hh Hr) as (c & ic & Hg & R). exists c, ic. split; [done|].
  intros e. unfold namei, namex. change (peek [slash] =? slash) with true. cbv iota. unfold bind at 1. unfold bind at 1. rewrite R. done.
Qed.

(** The entry of the first process. *)
Definition first_proc (pid k d : Z) (c : nat) (q : proc) : proc :=
  set_p_state RUNNABLE (set_p_cwd (Some c) (copy_name (lit "initcode") (set_p_tf init_tf (set_p_sz PGSIZE (set_p_pgdir d (embryo pid k q)))))).

Lemma vm_frame_inv s s' : vm_frame s s' -> exists m k, s' = set_mem m (set_kmem k s).
Proof. intros ->. by do 2 eexists. Qed.

(** An address space of one page. *)
Record one_page_space (m : gmap Z Z) (d : Z) (code : list Z) : Prop := {
  op_user va : 0 <= va < 4096 -> user_byte m d va = Some (code_byte code va);
  op_none va : 4096 <= va < KERNBASE -> mmu m d va = None;
  op_kernel va : KERNBASE <= va < 2 ^ 32 -> mmu m d va = kernel_map va
}.

Lemma one_page_ok s l d tabs s' l' tabs' q code :
  uvm_grows d s l tabs ∅ s' l' tabs' {[ 0 := q ]} -> (forall j, 0 <= j < 2 ^ 20 -> pt (mem s) tabs j = kernel_pt j) ->
  (forall va, 0 <= va < 4096 -> user_byte (mem s') d va = Some (code_byte code va)) -> one_page_space (mem s') d code.
Proof.
  intros G Hk Hb. pose proof (uk_vm _ _ _ _ _ (ug_ok _ _ _ _ _ _ _ _ _ G)) as V.
  assert (forall va, 4096 <= va < 2 ^ 32 -> mmu (mem s') d va = kernel_map va) as Hkm.
  { intros va Hva. assert (1 <= va / 4096 < 2 ^ 20) as Hj by (split; [apply Z.div_le_lower_bound; lia|apply Z.div_lt_upper_bound; lia]).
    apply (mmu_kernel s' l' d tabs'); [done|lia|]. rewrite (ug_pt _ _ _ _ _ _ _ _ _ G); [apply Hk; lia|lia|].
    rewrite lookup_empty. apply lookup_singleton_ne. lia. }
  split; [done| |].
  - intros va Hva. unfold KERNBASE in Hva. rewrite Hkm by lia. unfold kernel_map, KERNBASE, DEVSPACE, PHYSTOP. by rewrite !decide_False by lia.
  - intros va Hva. unfold KERNBASE in Hva. apply Hkm. lia.
Qed.

Lemma userinit_spec s i q k d l code :
  held s = [] -> find_proc (in_state UNUSED) (ptable s) 0 = Some i -> ptable s !! i = Some q -> kmem_rep s (k :: d :: l) -> (68 <= length l)%nat ->
  Z.of_nat (length code) < PGSIZE -> icache_room ROOTDEV ROOTINO (icache s) ->
  wp (userinit code) s (fun _ s' => exists c ic l' tabs us, igot ROOTDEV ROOTINO (icache s) c ic /\
    s' = set_icache ic (set_initproc (Some i) (set_nextpid (i32 (nextpid s + 1)) (set_ptable (<[i := first_proc (nextpid s) k d c q]> (ptable s)) (set_mem (mem s') (set_kmem (kmem s') s))))) /\
    uvm_ok s' l' d tabs us /\ l ≡ₚ values tabs ++ values us ++ l' /\ (length l <= 68 + length l')%nat /\ one_page_space (mem s') d code /\ same_outside (d :: l) (mem s) (mem s')).
Proof.
  intros Hh Hf Hq K Hl Hc Hr. unfold userinit. pose proof (allocproc_runs s i q k (d :: l) Hh Hf Hq K) as Ra. eapply wp_bind_runs; [exact Ra|].
  eapply wp_bind_runs; [by intros e|]. eapply wp_bind_runs; [by intros e|]. set (s1 := set_initproc _ _). apply wp_bind.
  destruct (kalloc_spec s _ K) as [K1 _]. cbn [tail] in K1.
  assert (kmem_rep s1 (d :: l)) as K1' by (destruct K1; by split).
  assert (ptable s1 !! i = Some (embryo (nextpid s) k q)) as Hi by (apply list_lookup_insert_eq; by eapply lookup_lt_Some).
  eapply wp_mono; [apply (setup_space s1 l d K1'); [cbn; rewrite Hh; set_solver|lia]|].
  intros r s2 (-> & l1 & tabs & [U Hkp (used & Eu & Pu) Hlen F M]). destruct (page_pos d) as [Hd0 _]; [eapply free_list_pages; [apply K1'|by left]|].
  destruct (vm_frame_inv _ _ F) as (m2 & k2 & ->). cbn [mem set_mem] in M, Hkp. eapply wp_bind_runs; [by apply (upd_proc_runs i (embryo (nextpid s) k q))|].
  apply Z.eqb_neq in Hd0. rewrite Hd0. set (s3 := set_ptable _ _). destruct l1 as [|q0 l2]; [cbn in Hlen; lia|].
  assert (uvm_ok s3 (q0 :: l2) d tabs ∅) as U3 by (by apply (uvm_ok_frame _ _ _ _ _ s3 U)). apply wp_bind.
  eapply wp_mono; [apply (inituvm_spec s3 l2 d tabs q0 code U3 Hc); cbn in Hlen; lia|]. intros _ s4 (l' & tabs' & G & Hlen' & Hb).
  pose proof (one_page_ok _ _ _ _ _ _ _ _ code G Hkp Hb) as Hop. pose proof (ug_ok _ _ _ _ _ _ _ _ _ G) as U4. pose proof (ug_mem _ _ _ _ _ _ _ _ _ G) as M4.
  destruct (vm_frame_inv _ _ (ug_frame _ _ _ _ _ _ _ _ _ G)) as (m4 & k4 & ->).
  do 2 (eapply wp_bind_runs; [eapply (upd_proc_runs i); cbn; apply list_lookup_insert_eq; rewrite ?length_insert; by eapply lookup_lt_Some|]).
  match goal with |- wp _ ?s5 _ => destruct (namei_root s5) as (c & ic & Hg & Rn); [done|done|] end. eapply wp_bind_runs; [exact Rn|].
  eapply wp_bind_runs; [eapply (upd_proc_runs i); cbn; apply list_lookup_insert_eq; rewrite ?length_insert; by eapply lookup_lt_Some|].
  eapply runs_wp; [eapply (upd_proc_runs i); cbn; apply list_lookup_insert_eq; rewrite ?length_insert; by eapply lookup_lt_Some|].
  exists c, ic, l', tabs', {[ 0 := q0 ]}. split; [exact Hg|]. split; [|split; [|split; [|split; [|split; [exact Hop|]]]]].
  - cbn [ptable set_ptable set_icache set_mem set_kmem s3 s1 set_initproc set_nextpid mem kmem popped]. rewrite !list_insert_insert_eq. by destruct s.
  - eapply uvm_ok_frame; [exact U4|done..].
  - destruct (ug_used _ _ _ _ _ _ _ _ _ G) as (used' & Eu' & Pu'). rewrite (assoc_L (++)), Pu', Eu, Eu', Pu. unfold values. rewrite map_to_list_empty. cbn. rewrite app_nil_r. solve_Permutation.
  - cbn in Hlen. lia.
  - cbn [mem set_ptable set_icache set_mem]. cbn [mem s3 set_ptable set_mem] in M4. cbn [mem s1 set_initproc set_nextpid set_ptable popped set_kmem] in M.
    eapply same_outside_weaken; [eapply same_outside_trans; [exact M|exact M4]|].
    assert (forall p, p ∈ values tabs -> p ∈ used) as Hin by (intros p; by rewrite Pu). rewrite Eu. set_solver.
Qed.
End Userinit.
