(* ===== verification/Main.v ===== *)
(** * Starting the machine: main.c, [kvmalloc] of vm.c, [idtinit] of trap.c

    [main] initialises the parts of the kernel in turn, starts the other
    processors and makes the first process.  The state is that of [Hw] with the
    processors' descriptor tables and page table registers.  The theorem: on a
    machine with one processor [main] gets as far as the scheduler, with the
    first process ready, every other page of memory accounted for, and the
    interrupts it needs let through. *)

From S2P Require Import Prelude Bytes Cstring Kstate Sync Kalloc Disk Bio Log Fs File Console Vm Dir Directory Pagetable Uvm Space Proc Lifecycle Trap Kernel Segment Hw Irq Mp Boot Userinit.
Import Str.
Local Open Scope Z_scope.

(** What the linker puts into the kernel: the images of initcode.S and
    entryother.S, the vectors of vectors.S, and the addresses of [mpenter],
    [entrypgdir] and [cpus[i]]. *)
Class Image := {
  initcode : list Z;
  entryother : list Z;
  vectors : nat -> Z;
  at_mpenter : Z;
  at_entrypgdir : Z
}.

(** A processor with its struct cpu: the descriptors and registers of [Segment],
    the size given to lidt, and [started]. *)
Record pcpu := mkPcpu { c_seg : Seg.cpu; c_idtr : Z; c_started : Z }.

Record pc := mkPc {
  pc_m : machine;
  pc_cpus : list pcpu;
  pc_kpgdir : Z;               (* kpgdir of vm.c *)
  pc_idt : list gatedesc       (* idt of trap.c *)
}.
Definition pc_eta (s : pc) : pc := mkPc (pc_m s) (pc_cpus s) (pc_kpgdir s) (pc_idt s).
Definition set_pc_m (v : machine) (s : pc) : pc := ltac:(with_field pc_m v s pc_eta).
Definition set_pc_cpus (v : list pcpu) (s : pc) : pc := ltac:(with_field pc_cpus v s pc_eta).
Definition set_pc_kpgdir (v : Z) (s : pc) : pc := ltac:(with_field pc_kpgdir v s pc_eta).
Definition set_pc_idt (v : list gatedesc) (s : pc) : pc := ltac:(with_field pc_idt v s pc_eta).

Abbreviation P := (M pc).

(** Code of the devices and of the kernel on this state. *)
Definition dev {A} (m : B A) : P A := fun s e =>
  match m (pc_m s) [] with
  | Ok a k _ => Ok a (set_pc_m k s) e
  | Panic msg k => Panic msg (set_pc_m k s)
  | Fault why k => Fault why (set_pc_m k s)
  | Blocked k => Blocked (set_pc_m k s)
  | Hang k => Hang (set_pc_m k s)
  end.
Definition krn {A} (m : K A) : P A := dev (kern m).

(** Processor [i] changes what is in its struct cpu and its registers. *)
Definition upd_cpu (i : nat) (f : pcpu -> pcpu) : P unit :=
  let! cs := gets pc_cpus in
  let! c := deref "cpus" (cs !! i) in
  modify (set_pc_cpus (<[i := f c]> cs)).
Definition on_seg (f : Seg.cpu -> Seg.cpu) (c : pcpu) : pcpu := mkPcpu (f (c_seg c)) (c_idtr c) (c_started c).

Section Main.
Context {Lay : Layout} {Dev : BlockDev} {Sw : DevSw} {Hw : Hardware} {Img : Image}.

(** [eflags] is 0 until the scheduler turns interrupts on. *)
Definition cpunum0 : P nat := let! n := dev (cpunum 0 0) in ret (Z.to_nat n).

Definition seginit : P unit :=
  let! i := cpunum0 in
  upd_cpu i (on_seg Seg.seginit).

(** [me] is the processor that runs this. *)
Definition switchkvm (me : nat) : P unit :=
  let! kpgdir := gets pc_kpgdir in
  upd_cpu me (on_seg (Seg.switchkvm kpgdir)).

Definition kvmalloc (me : nat) : P unit :=
  let! d := krn setupkvm in
  do modify (set_pc_kpgdir d);
  switchkvm me.

Definition tvinit : P unit := modify (set_pc_idt (Seg.tvinit vectors)).

(** The size of the table, 256 gates of 8 bytes, less one. *)
Definition idtinit (me : nat) : P unit :=
  upd_cpu me (fun c => mkPcpu (c_seg c) (256 * 8 - 1) (c_started c)).

(** [mpmain] up to the call of [scheduler], which does not return. *)
Definition mpmain (me : nat) : P unit :=
  do idtinit me;
  upd_cpu me (fun c => mkPcpu (c_seg c) (c_idtr c) 1).

(** [fuel]: how often a device's status is polled at most. *)
Definition mpenter (fuel me : nat) : P unit :=
  do switchkvm me;
  do seginit;
  do dev (lapicinit fuel);
  mpmain me.

(** [while(c->started == 0);]: meanwhile the other processors run. *)
Fixpoint wait_started (n i : nat) : P unit :=
  let! cs := gets pc_cpus in
  let! c := deref "cpus" (cs !! i) in
  if negb (c_started c =? 0) then ret tt else
  do interfere;
  match n with O => hang | S n' => wait_started n' i end.

Definition start_one (code : Z) (i : nat) : P unit :=
  let! me := cpunum0 in
  if bool_decide (i = me) then ret tt else
  let! stack := krn kalloc in
  do krn (store_bytes (code - 4) (le_bytes 4 (stack + KSTACKSIZE)));
  do krn (store_bytes (code - 8) (le_bytes 4 at_mpenter));
  do krn (store_bytes (code - 12) (le_bytes 4 (v2p at_entrypgdir)));
  let! m := gets pc_m in
  let! id := deref "cpus" (m_cpus m !! i) in
  do dev (lapicstartap id (v2p code));
  let! n := pending in
  wait_started n i.

Definition startothers : P unit :=
  let code := p2v 28672 in
  do krn (store_bytes code entryother);
  let! m := gets pc_m in
  mfor (Z.to_nat (m_ncpu m)) 0 (start_one code).

(** [main] on the processor [me], up to the call of [scheduler]; the locks that
    [pinit] and [fileinit] initialise have no state of their own here. *)
Definition main (fuel me : nat) : P unit :=
  do krn (kinit1 kend (p2v 4194304));
  do kvmalloc me;
  do dev mpinit;
  do dev (lapicinit fuel);
  do seginit;
  do dev picinit;
  do dev ioapicinit;
  do krn consoleinit; do dev console_irq;
  do dev uartinit;
  do tvinit;
  do krn binit;
  do dev (ideinit fuel);
  let! m := gets pc_m in
  do when (negb (m_ismp m)) (dev timerinit);
  do startothers;
  do krn (kinit2 (p2v 4194304) (p2v PHYSTOP));
  do krn (userinit initcode);
  mpmain me.
End Main.

(** [entrypgdir]: 4 MB pages for the start of both halves. *)
Definition PTE_PS : Z := 128.
Definition PDXSHIFT : Z := 22.
Definition entrypgdir : list Z :=
  let e := Z.lor (Z.lor (Z.lor 0 PTE_P) PTE_W) PTE_PS in
  <[Z.to_nat (Z.shiftr KERNBASE PDXSHIFT) := e]> (<[0%nat := e]> (replicate (Z.to_nat NPDENTRIES) 0)).

(** ** Memory *)
Section Memory.
Context {Lay : Layout} {Dev : BlockDev} {Sw : DevSw}.

(** The words of the pages [ps] are the same. *)
Definition kept (ps : list Z) (m m' : gmap Z Z) : Prop :=
  forall p i, p ∈ ps -> 0 <= i < 1024 -> word_at m' (p + 4 * i) = word_at m (p + 4 * i).

Lemma kept_trans ps m1 m2 m3 : kept ps m1 m2 -> kept ps m2 m3 -> kept ps m1 m3.
Proof. intros H1 H2 p i Hp Hi. rewrite H2, H1; done. Qed.

Lemma kept_apart ps qs m m' : (forall p, p ∈ ps -> page p) -> (forall q, q ∈ qs -> page q) -> (forall p, p ∈ ps -> p ∉ qs) -> same_outside qs m m' -> kept ps m m'.
Proof. intros Hps Hqs Hd H p i Hp Hi. apply (word_at_same qs); auto. Qed.

(** A store below the kernel's end changes no page. *)
Lemma kept_low ps m a bs : (forall p, p ∈ ps -> page p) -> KERNBASE <= a -> a mod 4 = 0 -> a + Z.of_nat (length bs) <= kend -> kept ps m (set_bytes m a bs).
Proof.
  intros Hps Ha Ha4 Hl p i Hp Hi. destruct (Hps p Hp) as [Hm Hr]. unfold PGSIZE in Hm.
  assert (forall bs m a, a + Z.of_nat (length bs) <= p -> word_at (set_bytes m a bs) (p + 4 * i) = word_at m (p + 4 * i)) as H; [|apply H; lia].
  clear -Hi Hm. induction bs as [|b bs IH]; intros m a Hl; cbn [set_bytes length] in *; [done|]. rewrite IH by lia. unfold set_byte.
  rewrite word_at_insert, decide_False; [done|]. pose proof (Z.mod_pos_bound a 4 ltac:(lia)). lia.
Qed.

Lemma kept_free s l m' : kmem_rep s l -> kept l (mem s) m' -> kmem_rep (set_mem m' s) l.
Proof.
  intros [A B] H. split; [|done]. cbn. revert A H. generalize (km_freelist (kmem s)). clear B. induction l as [|v l IH]; intros h; cbn [free_list]; [done|].
  intros (-> & Hp & Hl) H. split; [done|]. split; [done|]. pose proof (H v 0 ltac:(by left) ltac:(lia)) as H0. rewrite Z.mul_0_r, Z.add_0_r in H0. rewrite H0.
  apply IH; [done|]. intros p i Hpl. apply H. by right.
Qed.

Lemma kept_mmu s l d tabs m' va : vm_ok s l d tabs -> kept (d :: values tabs) (mem s) m' -> 0 <= va < 2 ^ 32 -> mmu m' d va = mmu (mem s) d va.
Proof.
  intros V H Hva. pose proof (dir_index va Hva) as Hi. unfold mmu. assert (va / 4194304 = va / 4096 / 1024) as -> by (by rewrite Z.div_div by lia).
  rewrite H by (done || by left). rewrite (vk_pde _ _ _ _ V _ Hi). destruct (tabs !! (va / 4096 / 1024)) as [t|] eqn:E; [|done].
  destruct (vk_tab _ _ _ _ V _ _ E) as [_ Hp]. destruct (page_v2p t Hp) as (_ & Hm & Hv & _). rewrite entry_addr, Hv by done.
  rewrite H; [done|right; by eapply values_lookup|by apply Z.mod_pos_bound].
Qed.

Lemma page_from_elem a vstart vend v : a = vstart + 4095 - (vstart + 4095) mod 4096 -> vend mod 4096 = 0 ->
  page v /\ vstart <= v < vend -> v ∈ pages_from a (Z.to_nat ((vend - a) / 4096)).
Proof.
  intros Ea Hm [[Hv _] Hr]. unfold PGSIZE in Hv. assert (a <= v /\ a mod 4096 = 0) as [Hav Ha] by (Z.to_euclidean_division_equations; lia).
  apply list_elem_of_fmap. exists (Z.to_nat ((v - a) / 4096)). split; [unfold PGSIZE; Z.to_euclidean_division_equations; lia|].
  apply elem_of_seq. Z.to_euclidean_division_equations. lia.
Qed.

(** Freeing whole pages between [a] and [b]. *)
Lemma freerange_stage s l vstart vend : kmem_rep s l -> KmemLock ∉ held s -> kend <= vstart -> vstart <= vend -> vend <= KERNBASE + PHYSTOP -> vend mod 4096 = 0 ->
  (forall v, v ∈ l -> v < vstart) ->
  wp (freerange vstart vend) s (fun _ s' => exists ps, kmem_rep s' (ps ++ l) /\ freed_frame ps s s' /\
    (forall v, v ∈ ps <-> page v /\ vstart <= v < vend) /\ vend - vstart - 4096 < 4096 * Z.of_nat (length ps)).
Proof.
  intros K L Hs Hv Hp Hm Hl. pose proof kend_range as Hk. unfold KERNBASE, PHYSTOP in Hk, Hp.
  assert (PGROUNDUP vstart = vstart + 4095 - (vstart + 4095) mod 4096) as Er.
  { unfold PGROUNDUP, PGSIZE. rewrite u32_small by lia. replace (vstart + 4096 - 1) with (vstart + 4095) by lia. change (4096 - 1) with 4095. apply land_not_4095. }
  pose proof (Z.mod_pos_bound (vstart + 4095) 4096 ltac:(lia)) as Hb. set (a := PGROUNDUP vstart) in *.
  assert (a mod 4096 = 0) as Ha by (rewrite Er; Z.to_euclidean_division_equations; lia).
  assert (a <= vend) as Hav by (Z.to_euclidean_division_equations; lia).
  assert (forall v, v ∈ pages_from a (Z.to_nat ((vend - a) / 4096)) <-> page v /\ vstart <= v < vend) as Hpg.
  { intros v. split; [|by apply page_from_elem]. intros (i & -> & Hi%elem_of_seq)%list_elem_of_fmap. assert (Z.of_nat i < (vend - a) / 4096) as Hi' by lia. unfold page, PGSIZE, KERNBASE, PHYSTOP.
    assert (4096 * ((vend - a) / 4096) <= vend - a) by (apply Z.mul_div_le; lia). split; [|lia]. split; [|lia].
    rewrite Z.add_mod, Ha, Z.mod_mul by lia. done. }
  eapply wp_mono; [apply (freerange_pages s l vstart vend (Z.to_nat ((vend - a) / 4096)) K L)|].
  - unfold PGSIZE. lia.
  - fold a. unfold PGSIZE. rewrite Z2Nat.id by (apply Z.div_pos; lia). Z.to_euclidean_division_equations. lia.
  - fold a. intros v Hv'. destruct (proj1 (Hpg v) Hv') as [H1 H2]. split; [done|]. intros H3. specialize (Hl v H3). lia.
  - intros _ s' (H1 & H2 & _). exists (reverse (pages_from a (Z.to_nat ((vend - a) / 4096)))). split; [exact H1|]. split; [|split].
    + destruct H2 as (F1 & F2 & F3). split; [done|]. split; [done|]. intros x Hx. apply F3. intros v Hv'. apply Hx. by apply elem_of_reverse.
    + intros v. rewrite elem_of_reverse. apply Hpg.
    + rewrite length_reverse. unfold pages_from. rewrite length_fmap, length_seq, Z2Nat.id by (apply Z.div_pos; lia). Z.to_euclidean_division_equations. lia.
Qed.
End Memory.

(** ** The devices of a machine with one processor *)
Section Uniprocessor.
Context {Hw : Hardware}.
(** The states of the interrupt controllers before. *)
Variables p1 p2 : pic.

(** There is one processor and no APIC; just the lines [irqs] get through. *)
Record uni (irqs : list Z) (s : machine) : Prop := {
  un_mp : m_ismp s = false;
  un_lapic : m_lapic s = 0;
  un_ncpu : m_ncpu s = 0;
  un_pics : pics_masked (pic_state IO_PIC1 p1 (m_log s)) (pic_state IO_PIC2 p2 (m_log s)) (m_irqmask s);
  un_mask j : 0 <= j < 16 -> Z.testbit (m_irqmask s) j = negb (bool_decide (j ∈ irqs))
}.

(** Code that changes which lines get through from [a] to [b], and not the kernel's state. *)
Definition routes {A} (m : B A) (a b : list Z) : Prop := forall s, uni a s -> wp m s (fun _ s' => uni b s' /\ m_k s' = m_k s).

Create HintDb routes discriminated.
Lemma routes_bind {A C} (m : B A) (k : A -> B C) a b c : routes m a b -> (forall v, routes (k v) b c) -> routes (bind m k) a c.
Proof. intros Hm Hk s U. apply wp_bind. eapply wp_mono; [by apply Hm|]. intros v s1 [U1 E1]. eapply wp_mono; [by apply Hk|]. intros w s2 [U2 E2]. split; [done|congruence]. Qed.
Lemma routes_ret {A} (v : A) a : routes (ret v) a a.
Proof. intros s U. by apply wp_ret. Qed.

(** An access to a port of neither controller. *)
Definition elsewhere (x : access) : Prop := match x with Out p _ => p ∉ [IO_PIC1; IO_PIC1 + 1; IO_PIC2; IO_PIC2 + 1] | _ => True end.
Lemma uni_log a s x : elsewhere x -> uni a s -> uni a (set_m_log (x :: m_log s) s).
Proof.
  intros Hx [H1 H2 H3 H4 H5]. split; [done..| |done]. cbn [m_log set_m_log m_irqmask pic_state foldr]. fold (pic_state IO_PIC1 p1 (m_log s)) (pic_state IO_PIC2 p2 (m_log s)).
  destruct x as [p v| | |]; try done. cbn [elsewhere pic_step] in *. rewrite !not_elem_of_cons in Hx. destruct Hx as (Hp1 & Hp2 & Hp3 & Hp4 & _).
  apply Z.eqb_neq in Hp1, Hp2, Hp3, Hp4. by rewrite Hp1, Hp2, Hp3, Hp4.
Qed.
Lemma routes_outb p v a : bool_decide (p ∉ [IO_PIC1; IO_PIC1 + 1; IO_PIC2; IO_PIC2 + 1]) = true -> routes (outb p v) a a.
Proof. intros Hp%bool_decide_eq_true s U. eapply runs_wp; [by intros e|]. split; [|done]. by apply uni_log. Qed.
Lemma routes_inb p a : routes (inb p) a a.
Proof. intros s U. eapply (runs_wp _ _ (port_in (m_log s) p) (set_m_log (In p (port_in (m_log s) p) :: m_log s) s)); [by intros e|]. split; [|done]. by apply uni_log. Qed.
Lemma routes_ioapicenable irq c a : routes (ioapicenable irq c) a a.
Proof. intros s U. unfold ioapicenable. eapply wp_bind_runs; [by intros e|]. cbn beta. rewrite (un_mp _ _ U). by apply wp_ret. Qed.
Lemma routes_havedisk1 v a : routes (modify (set_m_havedisk1 v)) a a.
Proof. intros s [? ? ? ? ?]. by apply wp_modify. Qed.
Lemma routes_gets {A} (f : machine -> A) a : routes (gets f) a a.
Proof. intros s U. by apply wp_gets. Qed.

Lemma routes_picenable i a : 0 <= i < 16 -> routes (picenable i) a (i :: a).
Proof.
  intros Hi s [H1 H2 H3 H4 H5]. set (mask := u16 (Z.land (m_irqmask s) (Z.lnot (Z.shiftl 1 i)))). eapply runs_wp; [exact (picsetmask_emits mask s)|].
  split; [|done]. split; [done..|exact (picsetmask_masks p1 p2 _ mask _ H4)|]. intros j Hj. cbn [m_irqmask set_m_irqmask]. unfold mask.
  rewrite picenable_mask, H5 by lia. rewrite <- negb_orb. f_equal. apply eq_true_iff_eq. rewrite orb_true_iff, Z.eqb_eq, !bool_decide_eq_true, elem_of_cons. tauto.
Qed.
#[local] Hint Resolve routes_ret routes_outb routes_inb routes_ioapicenable routes_havedisk1 routes_gets : routes.
Ltac route1 := first [solve [eauto with routes] | apply routes_picenable; unfold IRQ_KBD, IRQ_COM1, IRQ_IDE, IRQ_TIMER; lia | apply routes_outb; reflexivity].
Ltac route := repeat match goal with |- routes (bind _ _) _ _ => eapply routes_bind; [route1|intros ?] end; route1.

Lemma routes_console a : routes console_irq a (IRQ_KBD :: a).
Proof. unfold console_irq. route. Qed.
Lemma routes_timer a : routes timerinit a (IRQ_TIMER :: a).
Proof. unfold timerinit. route. Qed.

(** The drive becomes ready, whatever happened before. *)
Variable fuel : nat.
Hypothesis ide_ready : forall l, settles fuel l.

Lemma routes_idewait a : routes (idewait fuel false) a a.
Proof.
  assert (forall f s, settles f (m_log s) -> uni a s -> wp (poll f (inb 503) (fun r => negb (Z.land r (Z.lor IDE_BSY IDE_DRDY) =? IDE_DRDY))) s (fun _ s' => uni a s' /\ m_k s' = m_k s)) as H.
  { change (Z.lor IDE_BSY IDE_DRDY) with 192. unfold IDE_DRDY. induction f as [|f IH]; intros s H U; cbn [poll settles] in *; set (v := port_in (m_log s) 503) in *.
    all: eapply (wp_bind_runs _ _ _ v (set_m_log (In 503 v :: m_log s) s)); [by intros e|].
    - destruct H as [->|[]]. apply wp_ret. split; [|done]. by apply uni_log.
    - destruct (Z.eqb_spec (Z.land v 192) 64); cbn [negb]; [apply wp_ret; split; [|done]; by apply uni_log|]. destruct H as [H|H]; [done|].
      eapply wp_mono; [apply (IH (set_m_log (In 503 v :: m_log s) s)); [exact H|by apply uni_log]|]. done. }
  eapply (routes_bind _ _ _ a); [intros s U; by apply H|]. intros r. apply routes_ret.
Qed.
Lemma routes_find_disk1 n a : routes (find_disk1 n) a a.
Proof. induction n as [|n IH]; cbn [find_disk1]; [apply routes_ret|]. eapply routes_bind; [apply routes_inb|]. intros v. destruct (negb (v =? 0)); [apply routes_havedisk1|done]. Qed.
#[local] Hint Resolve routes_idewait routes_find_disk1 : routes.
Lemma routes_ideinit a : routes (ideinit fuel) a (IRQ_IDE :: a).
Proof. unfold ideinit. route. Qed.

Lemma uni_k a s k : uni a s -> uni a (set_m_k k s).
Proof. by intros [? ? ? ? ?]. Qed.

(** A serial port that answers is used, and interrupts. *)
Lemma uartinit_spec a s : uni a s -> cn_have_uart (console (m_k s)) = false ->
  wp uartinit s (fun _ s' => exists on : bool, uni (if on then IRQ_COM1 :: a else a) s' /\ m_k s' = set_console (set_uart on (console (m_k s))) (m_k s)).
Proof.
  intros U Hu. unfold uartinit.
  do 8 (apply wp_bind; eapply wp_mono; [refine ((_ : routes _ a a) _ ltac:(eassumption)); first [apply routes_outb; reflexivity|apply routes_inb]|];
        clear U; intros ? s' [U E]; rewrite <- E in *; clear s E; rename s' into s).
  destruct (_ =? 255).
  - apply wp_ret. exists false. split; [done|]. revert Hu. generalize (m_k s). by intros [? ? ? ? ? ? ? ? ? ? ? ? ? ? ? ? [? ? [] ? ? ?] ? ? ?].
  - eapply wp_bind_runs; [by intros e|]. eapply wp_mono; [eapply (routes_bind _ _ a a (IRQ_COM1 :: a)); [apply routes_inb| |by apply uni_k]|].
    { intros ?. route. }
    intros _ s' [U' E']. exists true. split; [done|]. by rewrite E'.
Qed.
End Uniprocessor.

(** ** The kernel's page table, from [kvmalloc] to the first process *)
Section Stages.
Context {Lay : Layout} {Dev : BlockDev} {Sw : DevSw}.

(** The kernel's page directory [d], next to the free pages [l]. *)
Record kvm (k : kstate) (l : list Z) (d : Z) (tabs : gmap Z Z) : Prop := {
  kv_ok : vm_ok k l d tabs;
  kv_map va : 0 <= va < 2 ^ 32 -> mmu (mem k) d va = kernel_map va
}.

Lemma kvm_pages k l d tabs : kvm k l d tabs -> (forall p, p ∈ d :: values tabs -> page p) /\ (forall p, p ∈ l -> page p) /\ (forall p, p ∈ d :: values tabs -> p ∉ l).
Proof.
  intros [V _]. pose proof (fun p => vm_ok_pages _ _ _ _ p V) as H. pose proof (vk_nodup _ _ _ _ V) as D.
  assert (d :: values tabs ++ l = (d :: values tabs) ++ l) as E by done. rewrite E in *. apply list.NoDup_app in D as (_ & D & _). set_solver.
Qed.

(** The kernel's page table survives changes elsewhere in memory. *)
Lemma kvm_kept k l d tabs k' l' : kvm k l d tabs -> kmem_rep k' l' -> held k' = held k -> kept (d :: values tabs) (mem k) (mem k') -> NoDup (d :: values tabs ++ l') -> kvm k' l' d tabs.
Proof.
  intros [V M] K Hh Hk D. split; [|intros va Hva; rewrite (kept_mmu k l d tabs) by done; by apply M]. destruct V as [_ L P T E _]. split; try done; [by rewrite Hh|].
  intros i Hi. rewrite Hk by (done || by left). by apply E.
Qed.

Lemma kinit1_stage k : held k = [] -> kmem k = mkKmem false 0 0 -> kend <= KERNBASE + 4194304 ->
  wp (kinit1 kend (p2v 4194304)) k (fun _ k' => exists l, kmem_rep k' l /\ vm_frame k k' /\
    (forall v, v ∈ l <-> page v /\ v < KERNBASE + 4194304) /\ KERNBASE + 4194304 - kend - 4096 < 4096 * Z.of_nat (length l) /\
    forall a, a < kend -> mem k' !! a = mem k !! a).
Proof.
  intros Hh Hk He. change (p2v 4194304) with (KERNBASE + 4194304). unfold kinit1. eapply wp_bind_runs; [by intros e|]. set (k1 := set_kmem _ k).
  pose proof kend_range. unfold KERNBASE, PHYSTOP in *. eapply wp_mono; [apply (freerange_stage k1 []); try done; try lia|].
  - split; [by cbn; rewrite Hk|constructor].
  - cbn. rewrite Hh. set_solver.
  - by intros v Hv%elem_of_nil.
  - intros _ k' (ps & K & (F1 & F2 & F3) & Hp & Hl). exists ps. rewrite app_nil_r in K. split; [done|]. split; [unfold vm_frame; by rewrite F1|].
    split; [intros v; rewrite Hp; split; [intros [? ?]; split; [done|lia]|]; intros [[Ha Hr] Hv]; repeat split; [done|lia..]|].
    split; [lia|]. intros a Ha. rewrite F3; [done|]. intros v Hv. destruct (proj1 (Hp v) Hv). lia.
Qed.

Lemma kvm_stage k l : kmem_rep k l -> KmemLock ∉ held k -> (67 <= length l)%nat ->
  wp setupkvm k (fun d k' => exists l' tabs, kvm k' l' d tabs /\ vm_frame k k' /\
    d :: values tabs ++ l' ≡ₚ l /\ same_outside l (mem k) (mem k')).
Proof.
  intros K L Hl. destruct l as [|d l]; [cbn in Hl; lia|]. eapply wp_mono; [apply (setup_space k l d K L); cbn in Hl; lia|].
  intros r k' (-> & l' & tabs & [U Hk (used & -> & Pu) _ F M]). pose proof (uk_vm _ _ _ _ _ U) as V. exists l', tabs.
  assert (forall v, v ∈ values tabs -> v ∈ used) as Hin by (intros v; by rewrite Pu). split; [split; [done|]|split; [done|split]].
  - intros va Hva. apply (mmu_kernel k' l' d tabs); [done|done|]. apply Hk. split; [apply Z.div_pos; lia|apply Z.div_lt_upper_bound; lia].
  - by rewrite Pu.
  - eapply same_outside_weaken; [exact M|]. set_solver.
Qed.

(** The images in low memory. *)
Lemma store_stage k l d tabs a bs : kvm k l d tabs -> KERNBASE <= a -> a mod 4 = 0 -> a + Z.of_nat (length bs) <= kend ->
  wp (store_bytes a bs) k (fun _ k' => kvm k' l d tabs /\ exists m, k' = set_mem m k).
Proof.
  intros V Ha Ha4 Hl. apply wp_modify. split; [|by eexists]. destruct (kvm_pages _ _ _ _ V) as (P1 & P2 & P3).
  apply (kvm_kept k l); [done| |done|by apply kept_low|apply V]. apply kept_free; [apply V|by apply kept_low].
Qed.

Lemma kinit2_stage k l d tabs : kvm k l d tabs -> (forall v, v ∈ d :: values tabs ++ l -> v < KERNBASE + 4194304) -> kend <= KERNBASE + 4194304 ->
  wp (kinit2 (p2v 4194304) (p2v PHYSTOP)) k (fun _ k' => exists ps, kvm k' (ps ++ l) d tabs /\ vm_frame k k' /\
    (forall v, v ∈ ps <-> page v /\ KERNBASE + 4194304 <= v) /\ 57344 - 1024 <= Z.of_nat (length ps)).
Proof.
  intros V Hlt He. change (p2v 4194304) with (KERNBASE + 4194304). change (p2v PHYSTOP) with (KERNBASE + PHYSTOP). unfold kinit2. apply wp_bind.
  pose proof kend_range. destruct (kvm_pages _ _ _ _ V) as (P1 & P2 & P3). pose proof V as [VV _]. pose proof VV as [K L _ _ _ D].
  eapply wp_mono; [apply (freerange_stage k l); try done; try (unfold KERNBASE, PHYSTOP in *; lia)|].
  - intros v Hv. apply Hlt. right. apply elem_of_app. by right.
  - intros _ k' (ps & K' & (F1 & _ & F3) & Hp & Hl). apply wp_modify. set (k2 := set_kmem _ k'). exists ps. split; [|split; [|split]].
    + assert (kmem_rep k2 (ps ++ l)) as K2 by (destruct K'; by split). apply (kvm_kept k l); [done|done|by cbn; rewrite F1| |].
      * eapply (kept_apart _ ps); [done|intros q Hq; by apply Hp| |exact F3]. intros p Hpd Hps. destruct (proj1 (Hp p) Hps) as [_ Hr]. specialize (Hlt p ltac:(set_solver)). lia.
      * assert (forall v, v ∈ ps -> v ∉ d :: values tabs ++ l) as Hd by (intros v Hv Hin; destruct (proj1 (Hp v) Hv) as [_ Hr]; specialize (Hlt v Hin); lia).
        destruct K' as [_ N%list.NoDup_app]. assert (d :: values tabs ++ ps ++ l ≡ₚ ps ++ d :: values tabs ++ l) as -> by solve_Permutation.
        apply list.NoDup_app. tauto.
    + unfold k2. by destruct (vm_frame_inv k k' F1) as (m & km & ->).
    + intros v. rewrite Hp. split; [intros [? ?]; split; [done|lia]|]. intros [[Hm Hr] Hv]. repeat split; [done|lia..].
    + unfold PHYSTOP in Hl. lia.
Qed.

(** The first process; [ps] has more than enough pages. *)
Lemma userinit_stage k q0 q d l d0 tabs0 code : kvm k (q0 :: d :: l) d0 tabs0 -> held k = [] -> (68 <= length l)%nat -> ptable k !! 0%nat = Some q -> p_state q = UNUSED ->
  Z.of_nat (length code) < PGSIZE -> icache_room ROOTDEV ROOTINO (icache k) ->
  wp (userinit code) k (fun _ k' => exists c ic l' tabs us, igot ROOTDEV ROOTINO (icache k) c ic /\
    k' = set_icache ic (set_initproc (Some 0%nat) (set_nextpid (i32 (nextpid k + 1)) (set_ptable (<[0%nat := first_proc (nextpid k) q0 d c q]> (ptable k)) (set_mem (mem k') (set_kmem (kmem k') k))))) /\
    uvm_ok k' l' d tabs us /\ l ≡ₚ values tabs ++ values us ++ l' /\ (length l <= 68 + length l')%nat /\ one_page_space (mem k') d code /\ kvm k' l' d0 tabs0).
Proof.
  intros V Hh Hl Hq Hu Hc Hr. assert (find_proc (in_state UNUSED) (ptable k) 0 = Some 0%nat) as Hf.
  { destruct (ptable k) as [|x t]; [done|]. injection Hq as ->. cbn [find_proc]. unfold in_state. by rewrite bool_decide_eq_true_2. }
  eapply wp_mono; [apply (userinit_spec k 0 q q0 d l code Hh Hf Hq); try done; apply V|].
  intros _ k' (c & ic & l' & tabs & us & Hg & Ek & U & Pl & Hlen & Hop & M). exists c, ic, l', tabs, us. do 6 (split; [done|]).
  destruct (kvm_pages _ _ _ _ V) as (P1 & P2 & P3). apply (kvm_kept k (q0 :: d :: l)); [done|apply U|by rewrite Ek| |].
  - apply (kept_apart _ (d :: l)); [done|intros p Hp; apply P2; by right| |done]. intros p Hp Hin. apply (P3 p Hp). by right.
  - pose proof (vk_nodup _ _ _ _ (kv_ok _ _ _ _ V)) as D. rewrite Pl in D.
    assert (d0 :: values tabs0 ++ q0 :: d :: values tabs ++ values us ++ l' ≡ₚ (q0 :: d :: values tabs ++ values us) ++ d0 :: values tabs0 ++ l') as E by solve_Permutation.
    rewrite E in D. by apply list.NoDup_app in D as (_ & _ & D).
Qed.
End Stages.

(** ** One processor *)
Section Boots.
Context {Lay : Layout} {Dev : BlockDev} {Sw : DevSw} {Hw : Hardware} {Img : Image}.

Lemma wp_dev {A} (m : B A) s (Q : A -> pc -> Prop) : wp m (pc_m s) (fun a k => Q a (set_pc_m k s)) -> wp (dev m) s Q.
Proof. intros (a & k & R & H). exists a, (set_pc_m k s). split; [|done]. intros e. unfold dev. by rewrite R. Qed.
Lemma wp_kern {A} (m : K A) s (Q : A -> machine -> Prop) : wp m (m_k s) (fun a k => Q a (set_m_k k s)) -> wp (kern m) s Q.
Proof. intros (a & k & R & H). exists a, (set_m_k k s). split; [|done]. intros e. unfold kern. by rewrite R. Qed.
Lemma wp_krn {A} (m : K A) s (Q : A -> pc -> Prop) : wp m (m_k (pc_m s)) (fun a k => Q a (set_pc_m (set_m_k k (pc_m s)) s)) -> wp (krn m) s Q.
Proof. intros H. by apply wp_dev, wp_kern. Qed.
Lemma wp_upd_cpu i f c s (Q : unit -> pc -> Prop) : pc_cpus s !! i = Some c -> Q tt (set_pc_cpus (<[i := f c]> (pc_cpus s)) s) -> wp (upd_cpu i f) s Q.
Proof. intros Hc HQ. unfold upd_cpu. apply wp_bind, wp_gets, wp_bind. rewrite Hc. by apply wp_ret, wp_modify. Qed.

(** The machine when [main] is called: nothing is initialised, the firmware has
    left no multiprocessor table, and the kernel leaves room for its page tables
    below 4 MB. *)
Record powered_on (c : pcpu) (s : pc) : Prop := {
  pw_held : held (m_k (pc_m s)) = [];
  pw_ptable : ptable (m_k (pc_m s)) = replicate NPROC zero_proc;
  pw_nextpid : nextpid (m_k (pc_m s)) = 1;
  pw_kmem : kmem (m_k (pc_m s)) = mkKmem false 0 0;
  pw_bufs : length (bufs (m_k (pc_m s))) = S NBUF;
  pw_icache : length (icache (m_k (pc_m s))) = NINODE /\ Forall (fun ip => i_ref ip = 0) (icache (m_k (pc_m s)));
  pw_uart : cn_have_uart (console (m_k (pc_m s))) = false;
  pw_vars : m_ismp (pc_m s) = false /\ m_lapic (pc_m s) = 0 /\ m_ncpu (pc_m s) = 0 /\ m_irqmask (pc_m s) = irqmask0;
  pw_cpu : pc_cpus s !! 0%nat = Some c;
  pw_no_mp : mpsearch (mem (m_k (pc_m s))) = None;
  pw_bios : ebda (mem (m_k (pc_m s))) <> 0 \/ 1024 <= base_memory (mem (m_k (pc_m s))) <= 1048576;
  pw_room : kend + 68 * 4096 <= KERNBASE + 4194304
}.

(** [kinit1] and [kvmalloc]. *)
Lemma main_memory c s (rest : P unit) Q : powered_on c s ->
  (forall k d l tabs, kvm k l d tabs -> vm_frame (m_k (pc_m s)) k -> (forall v, v ∈ d :: values tabs ++ l <-> page v /\ v < KERNBASE + 4194304) ->
     (forall a, a < kend -> mem k !! a = mem (m_k (pc_m s)) !! a) ->
     wp rest (mkPc (set_m_k k (pc_m s)) (<[0%nat := on_seg (Seg.switchkvm d) c]> (pc_cpus s)) d (pc_idt s)) Q) ->
  wp (do krn (kinit1 kend (p2v 4194304)); do kvmalloc 0; rest) s Q.
Proof.
  intros W Hrest. pose proof (pw_room _ _ W). apply wp_bind, wp_krn. eapply wp_mono; [apply kinit1_stage; [apply W|apply W|lia]|].
  intros _ k1 (l & K & F1 & Hl & Hlen & Hm). apply wp_bind. unfold kvmalloc. apply wp_bind, wp_krn. cbn [pc_m set_pc_m m_k set_m_k].
  assert (held k1 = []) as Hh by (rewrite F1; apply W).
  eapply wp_mono; [apply (kvm_stage k1 l K); [rewrite Hh; set_solver|lia]|]. intros d k2 (l' & tabs & V & F2 & Pl & M).
  eapply wp_bind_runs; [by intros e|]. unfold switchkvm. eapply wp_bind_runs; [by intros e|]. eapply wp_upd_cpu; [apply W|].
  apply (Hrest k2 d l' tabs); [done|by eapply vm_frame_trans|intros v; by rewrite Pl|].
  intros a Ha. rewrite M; [by apply Hm|]. intros p Hp. destruct (proj1 (Hl p) Hp) as [[_ Hr] _]. lia.
Qed.

Lemma mpinit_none m : mpsearch (mem (m_k m)) = None -> runs mpinit m tt (set_m_bcpu 0 m).
Proof. intros H e. unfold mpinit, mpconfig, bind, modify, gets. cbn [m_k set_m_bcpu]. by rewrite H. Qed.
Lemma lapicinit_none fuel m : m_lapic m = 0 -> runs (lapicinit fuel) m tt m.
Proof. intros H e. unfold lapicinit, bind, gets. by rewrite H. Qed.
Lemma cpunum_none m : m_lapic m = 0 -> runs (cpunum 0 0) m 0 m.
Proof. intros H e. unfold cpunum, bind, gets. change (negb (Z.land 0 FL_IF =? 0)) with false. unfold when, ret. by rewrite H. Qed.

Lemma picinit_uni p1 p2 m : m_ismp m = false -> m_lapic m = 0 -> m_ncpu m = 0 -> m_irqmask m = irqmask0 ->
  wp picinit m (fun _ m' => uni p1 p2 [IRQ_SLAVE] m' /\ m_k m' = m_k m).
Proof.
  intros H1 H2 H3 H4. eapply runs_wp; [apply picinit_emits; by rewrite H4|]. split; [|done]. split; [done..| |].
  - cbn [m_log set_m_irqmask set_m_log m_irqmask]. rewrite <- (assoc_L (++)). apply pic_words_masks.
  - intros j Hj. cbn [m_irqmask set_m_irqmask]. rewrite H4. assert (j ∈ seqZ 0 16) as Hin by (apply elem_of_seqZ; lia). clear Hj. revert j Hin.
    apply list.Forall_forall, (bool_decide_unpack _). by vm_compute.
Qed.

(** The devices' lines that get through when [main] is done. *)
Definition boot_irqs (uart : bool) : list Z := IRQ_TIMER :: IRQ_IDE :: (if uart then [IRQ_COM1; IRQ_KBD] else [IRQ_KBD]).

(** From [mpinit] to [timerinit]. *)
Lemma main_devices p1 p2 fuel c s (rest : P unit) Q : (forall l, settles fuel l) ->
  m_ismp (pc_m s) = false /\ m_lapic (pc_m s) = 0 /\ m_ncpu (pc_m s) = 0 /\ m_irqmask (pc_m s) = irqmask0 ->
  mpsearch (mem (m_k (pc_m s))) = None -> cn_have_uart (console (m_k (pc_m s))) = false -> length (bufs (m_k (pc_m s))) = S NBUF -> pc_cpus s !! 0%nat = Some c ->
  (forall m cn b, uni p1 p2 (boot_irqs (cn_have_uart cn) ++ [IRQ_SLAVE]) m -> m_k m = set_bufs b (set_console cn (m_k (pc_m s))) -> lru b (reverse (seq 0 NBUF)) -> cn_locking cn = true ->
     wp rest (mkPc m (<[0%nat := on_seg Seg.seginit c]> (pc_cpus s)) (pc_kpgdir s) (Seg.tvinit vectors)) Q) ->
  wp (do dev mpinit; do dev (lapicinit fuel); do seginit; do dev picinit; do dev ioapicinit; do krn consoleinit; do dev console_irq; do dev uartinit;
      do tvinit; do krn binit; do dev (ideinit fuel); let! m := gets pc_m in do when (negb (m_ismp m)) (dev timerinit); rest) s Q.
Proof.
  intros Hide (H1 & H2 & H3 & H4) Hmp Hu Hb Hc Hrest. apply wp_bind, wp_dev. eapply runs_wp; [by apply mpinit_none|].
  apply wp_bind, wp_dev. eapply runs_wp; [by apply lapicinit_none|]. apply wp_bind. unfold seginit, cpunum0. do 2 apply wp_bind. apply wp_dev. eapply runs_wp; [by apply cpunum_none|].
  apply wp_ret. eapply wp_upd_cpu; [exact Hc|]. apply wp_bind, wp_dev. eapply wp_mono; [by apply (picinit_uni p1 p2)|]. intros _ m1 [U1 E1].
  apply wp_bind, wp_dev. eapply runs_wp; [intros e; unfold ioapicinit, bind, gets; cbn [pc_m set_pc_m]; by rewrite (un_mp _ _ _ _ U1)|].
  apply wp_bind, wp_krn, wp_modify. cbn [pc_m set_pc_m]. apply wp_bind, wp_dev. eapply wp_mono; [apply routes_console; apply uni_k, U1|]. intros _ m2 [U2 E2].
  apply wp_bind, wp_dev. cbn [pc_m set_pc_m]. eapply wp_mono; [apply (uartinit_spec p1 p2 _ m2 U2); rewrite E2; cbn; by rewrite E1|]. intros _ m3 (on & U3 & E3).
  eapply wp_bind_runs; [by intros e|]. apply wp_bind, wp_krn. cbn [pc_m set_pc_m set_pc_idt m_k]. eapply wp_mono; [apply binit_lru; by rewrite E3, E2; cbn; rewrite E1|].
  intros _ k4 (L4 & E4 & _). apply wp_bind, wp_dev. eapply wp_mono; [apply (routes_ideinit p1 p2 fuel Hide); apply uni_k, U3|]. intros _ m5 [U5 E5].
  eapply wp_bind_runs; [by intros e|]. cbn [pc_m set_pc_m]. rewrite (un_mp _ _ _ _ U5). cbn [negb when]. apply wp_bind, wp_dev. eapply wp_mono; [apply routes_timer, U5|].
  intros _ m6 [U6 E6]. cbn. match goal with |- wp rest ?s' Q => replace s' with (mkPc m6 (<[0%nat := on_seg Seg.seginit c]> (pc_cpus s)) (pc_kpgdir s) (Seg.tvinit vectors)) by done end.
  cbn [m_k set_m_k set_pc_m pc_m] in *. eapply (Hrest m6 (set_uart on (console (m_k m2))) (bufs k4)); [|by rewrite E6, E5, E4, E3, E2, E1|done|by rewrite E2].
  revert U6. by destruct on.
Qed.
End Boots.

(** ** main *)
Section Running.
Context {Lay : Layout} {Dev : BlockDev} {Sw : DevSw} {Hw : Hardware} {Img : Image}.

(** The machine when the scheduler is called. *)
Record running (p1 p2 : pic) (c : pcpu) (s' : pc) : Prop := {
  (* the first process is ready to run initcode, in the root directory; of the pages of memory some hold the page table [kpgdir] of the kernel,
     its tables [ktabs], the process's kernel stack [k], its page table [d], the tables [tabs] and the page of initcode, [us]; the others, [l], are free *)
  rn_process : exists k d i ip l ktabs tabs us, ptable (m_k (pc_m s')) = <[0%nat := first_proc 1 k d i zero_proc]> (replicate NPROC zero_proc) /\
    initproc (m_k (pc_m s')) = Some 0%nat /\ one_page_space (mem (m_k (pc_m s'))) d initcode /\ icache (m_k (pc_m s')) !! i = Some ip /\ refers ROOTDEV ROOTINO ip /\
    vm_ok (m_k (pc_m s')) l (pc_kpgdir s') ktabs /\ uvm_ok (m_k (pc_m s')) l d tabs us /\ kmem_rep (m_k (pc_m s')) l /\
    let used := pc_kpgdir s' :: values ktabs ++ k :: d :: values tabs ++ values us in
    NoDup (used ++ l) /\ (forall v, page v <-> v ∈ used ++ l) /\ 56000 < Z.of_nat (length l);
  (* the kernel's page table is in use and maps the kernel *)
  rn_kernel va : 0 <= va < 2 ^ 32 -> mmu (mem (m_k (pc_m s'))) (pc_kpgdir s') va = kernel_map va;
  rn_cpu : exists c', pc_cpus s' !! 0%nat = Some c' /\ Seg.cr3 (c_seg c') = v2p (pc_kpgdir s') /\ c_idtr c' = 2047 /\ c_started c' = 1 /\
    switched (Seg.switchkvm (pc_kpgdir s') (c_seg c)) (c_seg c');
  (* the vectors are set up, and these interrupts arrive *)
  rn_idt : pc_idt s' = Seg.tvinit vectors;
  rn_irqs i : 0 <= i < 16 -> i <> IRQ_SLAVE -> pic_vector (pic_state IO_PIC1 p1 (m_log (pc_m s'))) (pic_state IO_PIC2 p2 (m_log (pc_m s'))) i =
    if bool_decide (i ∈ boot_irqs (cn_have_uart (console (m_k (pc_m s'))))) then Some (T_IRQ0 + i) else None;
  (* no lock is held, the buffer cache is linked *)
  rn_held : held (m_k (pc_m s')) = [];
  rn_bufs : lru (bufs (m_k (pc_m s'))) (reverse (seq 0 NBUF))
}.

Lemma irqs_vector p1 p2 irqs m i : uni p1 p2 (irqs ++ [IRQ_SLAVE]) m -> 0 <= i < 16 -> i <> IRQ_SLAVE ->
  pic_vector (pic_state IO_PIC1 p1 (m_log m)) (pic_state IO_PIC2 p2 (m_log m)) i = if bool_decide (i ∈ irqs) then Some (T_IRQ0 + i) else None.
Proof.
  intros [_ _ _ Hp Hm] Hi Hs. rewrite (masked_vector _ _ _ i Hp Hi).
  - rewrite Hm by done. rewrite (bool_decide_ext (i ∈ irqs ++ [IRQ_SLAVE]) (i ∈ irqs)) by set_solver. by destruct (bool_decide _).
  - rewrite Hm by (unfold IRQ_SLAVE; lia). rewrite bool_decide_eq_true_2; [done|set_solver].
Qed.

(** The pages below 4 MB, those above and what the first process has taken of them. *)
Lemma pages_split d tabs l q0 d1 ps ktabs us l' : (forall v, v ∈ d :: values tabs ++ l <-> page v /\ v < KERNBASE + 4194304) ->
  (forall v, v ∈ q0 :: d1 :: ps <-> page v /\ KERNBASE + 4194304 <= v) -> ps ++ l ≡ₚ values ktabs ++ values us ++ l' -> NoDup (d :: values tabs ++ (q0 :: d1 :: ps) ++ l) ->
  let used := d :: values tabs ++ q0 :: d1 :: values ktabs ++ values us in NoDup (used ++ l') /\ forall v, page v <-> v ∈ used ++ l'.
Proof.
  intros H1 H2 Pl D used. assert (used ++ l' ≡ₚ d :: values tabs ++ (q0 :: d1 :: ps) ++ l) as E.
  { unfold used. cbn. rewrite <- (assoc_L (++)). do 2 f_equiv. cbn. do 2 f_equiv. rewrite <- (assoc_L (++)). by symmetry. }
  rewrite E. split; [done|]. intros v. rewrite E. transitivity (v ∈ d :: values tabs ++ l \/ v ∈ q0 :: d1 :: ps); [|set_solver].
  rewrite H1, H2. split; [intros Hp; destruct (Z.lt_ge_cases v (KERNBASE + 4194304)); tauto|tauto].
Qed.

(** From [startothers] on. *)
Lemma main_late p1 p2 c c1 m cpus d idt l tabs : kvm (m_k m) l d tabs -> (forall v, v ∈ d :: values tabs ++ l <-> page v /\ v < KERNBASE + 4194304) -> kend <= KERNBASE + 4194304 ->
  held (m_k m) = [] -> ptable (m_k m) = replicate NPROC zero_proc -> nextpid (m_k m) = 1 -> icache_room ROOTDEV ROOTINO (icache (m_k m)) ->
  uni p1 p2 (boot_irqs (cn_have_uart (console (m_k m))) ++ [IRQ_SLAVE]) m -> lru (bufs (m_k m)) (reverse (seq 0 NBUF)) -> cpus !! 0%nat = Some c1 -> idt = Seg.tvinit vectors ->
  Seg.cr3 (c_seg c1) = v2p d -> switched (Seg.switchkvm d (c_seg c)) (c_seg c1) -> Z.of_nat (length initcode) < PGSIZE -> Z.of_nat (length entryother) <= PGSIZE ->
  wp (do startothers; do krn (kinit2 (p2v 4194304) (p2v PHYSTOP)); do krn (userinit initcode); mpmain 0) (mkPc m cpus d idt) (fun _ s' => running p1 p2 c s').
Proof.
  intros V Hlt He Hh Hp Hn Hr U Lb Hc Hidt Hcr Hsw Hcode Hother. pose proof kdata_range as Hkd. unfold startothers. apply wp_bind. unfold PGSIZE in *.
  apply wp_bind, wp_krn. change (p2v 28672) with (KERNBASE + 28672). eapply wp_mono; [apply (store_stage _ l d tabs); [exact V|unfold KERNBASE; lia|done|lia]|].
  intros _ k1 (V1 & m1 & Ek1). eapply wp_bind_runs; [by intros e|]. cbn [pc_m set_pc_m m_ncpu set_m_k]. rewrite (un_ncpu _ _ _ _ U). change (Z.to_nat 0) with 0%nat. cbn [mfor]. apply wp_ret.
  apply wp_bind, wp_krn. eapply wp_mono; [apply (kinit2_stage _ l d tabs); [done|intros v Hv; by apply Hlt|done]|]. intros _ k2 (ps & V2 & F2 & Hpg & Hps). cbn [pc_m set_pc_m m_k set_m_k] in *.
  destruct ps as [|q0 [|d1 ps]]; [cbn in Hps; lia..|]. subst k1. destruct (vm_frame_inv _ _ F2) as (m2 & km2 & ->). cbn [length] in Hps.
  apply wp_bind, wp_krn. cbn [pc_m set_pc_m m_k set_m_k]. eapply wp_mono; [apply (userinit_stage _ q0 zero_proc d1 (ps ++ l) d tabs initcode V2); try done; [rewrite length_app; lia|cbn; by rewrite Hp]|].
  intros _ k3 (i & ic & l' & utabs & us & Hg & Ek3 & U3 & Pl & Hl3 & Hop & V3). destruct (igot_entry _ _ _ _ _ Hg) as (ip & Hi & Href & _). rewrite length_app in Hl3.
  unfold mpmain, idtinit. apply wp_bind. eapply wp_upd_cpu; [exact Hc|]. eapply wp_upd_cpu; [apply list_lookup_insert_eq; by eapply lookup_lt_Some|]. 
  split; cbn [pc_m set_pc_m set_pc_cpus m_k set_m_k pc_kpgdir pc_idt pc_cpus m_log].
  - exists q0, d1, i, ip, l', tabs, utabs, us. rewrite Ek3 at 1 2 4. cbn [ptable initproc icache set_icache set_initproc set_ptable nextpid set_nextpid set_mem set_kmem]. rewrite Hp, Hn.
    do 5 (split; [done|]). split; [apply V3|]. split; [done|]. split; [apply U3|].
    destruct (pages_split d tabs l q0 d1 ps utabs us l' Hlt Hpg Pl (vk_nodup _ _ _ _ (kv_ok _ _ _ _ V2))) as [N P]. split; [done|]. split; [done|]. lia.
  - apply V3.
  - eexists. split; [apply list_lookup_insert_eq; rewrite length_insert; by eapply lookup_lt_Some|]. done.
  - done.
  - intros j Hj Hs. rewrite Ek3. cbn [console set_icache set_initproc set_nextpid set_ptable set_mem set_kmem]. by apply irqs_vector.
  - by rewrite Ek3.
  - by rewrite Ek3.
Qed.

Lemma low_bytes k k' : (forall a, a < kend -> mem k' !! a = mem k !! a) -> same_bytes KERNBASE (KERNBASE + 1052672) (mem k) (mem k').
Proof.
  intros H x Hx. pose proof kdata_range as Hr. pose proof kdata_page as Hp. unfold PGSIZE, KERNBASE in *. pose proof (Z.mod_pos_bound x 4 ltac:(lia)).
  assert (2 ^ 31 + 1052672 <= kdata) by (Z.to_euclidean_division_equations; lia). unfold get_byte, word_at. rewrite H by lia. done.
Qed.

Lemma main_running p1 p2 fuel c s : powered_on c s -> (forall l, settles fuel l) -> Z.of_nat (length initcode) < PGSIZE -> Z.of_nat (length entryother) <= PGSIZE ->
  wp (main fuel 0) s (fun _ s' => running p1 p2 c s').
Proof.
  intros W Hide Hcode Hother. unfold main. apply (main_memory c s _ _ W). intros k d l tabs V F Hlt Hlow.
  pose proof (pw_room _ _ W) as Hroom. pose proof (pw_cpu _ _ W) as Hc0.
  apply (main_devices p1 p2 fuel (on_seg (Seg.switchkvm d) c) _ _ _ Hide); [apply W| | | | |].
  - cbn [pc_m m_k set_m_k]. rewrite (mpsearch_same (mem (m_k (pc_m s)))); [apply W|by apply low_bytes|apply W].
  - cbn. rewrite F. apply W.
  - cbn. rewrite F. apply W.
  - cbn. apply list_lookup_insert_eq. by eapply lookup_lt_Some.
  - cbn [pc_m m_k set_m_k pc_kpgdir pc_cpus]. intros m cn b U Em Lb Hlock. rewrite list_insert_insert_eq. destruct (pw_icache _ _ W) as [Hil Hi0].
    destruct (vm_frame_inv _ _ F) as (m1 & km1 & ->).
    eapply main_late; rewrite ?Em; [|exact Hlt|lia|apply W|apply W|apply W| |exact U|exact Lb|apply list_lookup_insert_eq; by eapply lookup_lt_Some|done|done|apply sw_start|done|done].
    + apply (kvm_kept _ l d tabs _ l V); [destruct (vk_free _ _ _ _ (kv_ok _ _ _ _ V)); by split|done|by intros p i|apply V].
    + destruct (lookup_lt_is_Some_2 (icache (m_k (pc_m s))) 0) as [ip Hip]; [rewrite Hil; unfold NINODE; lia|]. exists 0%nat, ip. split; [done|]. right. by apply (list.Forall_lookup_1 _ _ _ _ Hi0 Hip).
Qed.

(** C7: on a machine without a multiprocessor table, whose drive is ready within
    [fuel] polls of its status, [main] reaches the scheduler: the first process
    is runnable, with an address space of its own that holds initcode at address
    0; the kernel's page table maps the kernel and is loaded; the descriptor and
    vector tables are in place; of the lines devices can be on (all but line 2 of
    the master, where the slave controller is) exactly those of the timer, the
    disk, the keyboard and, if there is one, the serial port get through, line
    [i] as vector [T_IRQ0 + i]; every page of memory that holds no part of the
    page tables, the kernel stack or the page of the process is free. *)
Theorem main_boots p1 p2 fuel c s : powered_on c s -> (forall l, settles fuel l) -> Z.of_nat (length initcode) < PGSIZE -> Z.of_nat (length entryother) <= PGSIZE ->
  wp (main fuel 0) s (fun _ s' => running p1 p2 c s').
Proof. apply main_running. Qed.
End Running.

(** ** entrypgdir *)
(** Translation with 4 MB pages, which is all [entrypgdir] has. *)
Definition mmu_large (dir : list Z) (va : Z) : option Z :=
  match dir !! Z.to_nat (va / 4194304) with
  | Some e => if has e PTE_P && has e PTE_PS then Some (Z.land e (Z.lnot 4194303) + va mod 4194304) else None
  | None => None
  end.

(** With [entrypgdir] the first 4 MB of memory are at 0, where the processor
    still runs when it turns paging on, and at KERNBASE, where the kernel is
    linked. *)
Lemma entrypgdir_maps va : 0 <= va < 2 ^ 32 ->
  mmu_large entrypgdir va = if decide (va < 4194304) then Some va else if decide (KERNBASE <= va < KERNBASE + 4194304) then Some (va - KERNBASE) else None.
Proof.
  intros Hva. assert (0 <= va / 4194304 < 1024) as Hi by (split; [apply Z.div_pos; lia|apply Z.div_lt_upper_bound; lia]).
  pose proof (Z.div_mod va 4194304 ltac:(lia)) as E. pose proof (Z.mod_pos_bound va 4194304 ltac:(lia)) as Hm. unfold mmu_large, entrypgdir, KERNBASE.
  set (q := va / 4194304) in *. change (Z.to_nat (Z.shiftr (2 ^ 31) PDXSHIFT)) with 512%nat. change (Z.to_nat NPDENTRIES) with 1024%nat.
  change (Z.lor (Z.lor (Z.lor 0 PTE_P) PTE_W) PTE_PS) with 131. cbv zeta.
  destruct (decide (q = 0)) as [->|H0]; [|destruct (decide (q = 512)) as [->|H1]].
  - rewrite list_lookup_insert_ne, list_lookup_insert_eq by (rewrite ?length_replicate; lia). change (has 131 PTE_P && has 131 PTE_PS) with true. change (Z.land 131 (Z.lnot 4194303)) with 0. cbv iota. rewrite decide_True by lia. f_equal. lia.
  - rewrite list_lookup_insert_eq by (rewrite length_insert, length_replicate; lia). change (has 131 PTE_P && has 131 PTE_PS) with true. change (Z.land 131 (Z.lnot 4194303)) with 0. cbv iota. rewrite decide_False, decide_True by lia. f_equal. lia.
  - rewrite !list_lookup_insert_ne by lia. rewrite lookup_replicate_2 by lia. cbn. by rewrite !decide_False by lia.
Qed.

(** ** A machine *)
(** 640 KB of base memory, and no table. *)
Definition bios_memory : gmap Z Z := set_bytes ∅ (KERNBASE + 1043) [128; 2].
Definition ex_cpu : pcpu := mkPcpu (Seg.mkCpu 2148560000 2148560100 (replicate NSEGS (SEG 0 0 0 0)) 0 0 0 0 0 0 None) 0 0.
Definition ex_start : pc :=
  mkPc (mkMachine (before_main bios_memory ∅ 0) [] irqmask0 false 0 0 0 (replicate NCPU 0) 0 false 0) [ex_cpu] 0 [].
Definition ex_image : Image := {| initcode := [104; 36; 0; 0; 0]; entryother := [250; 49; 192]; vectors := fun i => 2148536320 + 10 * Z.of_nat i; at_mpenter := 2148543488; at_entrypgdir := 2148573184 |}.

Lemma ex_powered_on : @powered_on small_layout ex_cpu ex_start.
Proof.
  split; try (vm_compute; reflexivity).
  - split; [vm_compute; reflexivity|]. by apply Forall_replicate.
  - by repeat split.
  - right. split; vm_compute; discriminate.
  - vm_compute. discriminate.
Qed.

Lemma main_boots_witness : wp (@main small_layout memide_dev console_devsw always_ready ex_image 0 0) ex_start (fun _ s' =>
  @running small_layout ex_image ex_pic ex_pic ex_cpu s').
Proof.
  apply (@main_boots small_layout memide_dev console_devsw always_ready ex_image ex_pic ex_pic 0 ex_cpu ex_start ex_powered_on).
  - intros l. by left.
  - done.
  - done.
Defined.

