(* ===== verification/Ulib.v ===== *)
(** * The user library: ulib.c and printf.c

    What user programs link with besides the system calls.  As in the kernel's
    string routines a C string is the list of bytes at a pointer, and reading
    at its end yields the terminating NUL.  What [read] delivers on standard
    input and what [write] sends out are lists of bytes. *)

From S2P Require Import Prelude Bytes Cstring.
Local Open Scope Z_scope.

Module U.

(** [while(( *s++ = *t++) != 0);] into memory [m] at [s]. *)
Fixpoint strcpy (m : list Z) (s : nat) (t : list Z) : list Z :=
  match t with
  | [] => <[s := 0]> m
  | c :: t' => if c =? 0 then <[s := 0]> m else strcpy (<[s := c]> m) (S s) t'
  end.

Fixpoint strcmp (p q : list Z) : Z :=
  match p with
  | [] => u8 0 - u8 (Str.peek q)
  | c :: p' =>
      if negb (c =? 0) && (c =? Str.peek q) then strcmp p' (tail q)
      else u8 c - u8 (Str.peek q)
  end.

Fixpoint strlen_from (n : Z) (s : list Z) : Z :=
  match s with
  | [] => n
  | c :: s' => if c =? 0 then n else strlen_from (n + 1) s'
  end.
Definition strlen (s : list Z) : Z := u32 (strlen_from 0 s).

Definition memset (m : list Z) (dst : nat) (c : Z) (n : nat) : list Z := Str.stosb m dst c n.

(** The string from the character found on. *)
Fixpoint strchr (s : list Z) (c : Z) : option (list Z) :=
  match s with
  | [] => None
  | x :: s' => if x =? 0 then None else if x =? c then Some s else strchr s' c
  end.

(** The bytes read, and what is left of the input. *)
Fixpoint gets_loop (input : list Z) (i max : Z) (buf : list Z) : list Z * list Z :=
  if negb (i + 1 <? max) then (buf, input) else
  match input with
  | [] => (buf, [])
  | c :: input' =>
      if (c =? 10) || (c =? 13) then (buf ++ [c], input')
      else gets_loop input' (i + 1) max (buf ++ [c])
  end.
Definition gets (max : Z) (input : list Z) : list Z * list Z :=
  let '(buf, rest) := gets_loop input 0 max [] in (buf ++ [0], rest).

Fixpoint atoi_loop (s : list Z) (n : Z) : Z :=
  match s with
  | [] => n
  | c :: s' => if (48 <=? c) && (c <=? 57) then atoi_loop s' (i32 (n * 10 + c - 48)) else n
  end.
Definition atoi (s : list Z) : Z := atoi_loop s 0.

(** [while(n-- > 0) *dst++ = *src++;] *)
Fixpoint memmove_loop (m : list Z) (dst src n : nat) : list Z :=
  match n with
  | O => m
  | S n' => memmove_loop (<[dst := Str.byte_at m src]> m) (S dst) (S src) n'
  end.
Definition memmove (m : list Z) (dst src : nat) (n : Z) : list Z :=
  memmove_loop m dst src (Z.to_nat n).

(** ** printf.c *)
Definition digits : list Z := [48; 49; 50; 51; 52; 53; 54; 55; 56; 57; 65; 66; 67; 68; 69; 70].

(** The digits of [x], the last one first; [x] has 32 bits, so 32 passes are
    enough in any base. *)
Fixpoint printint_digits (fuel : nat) (x base : Z) : list Z :=
  Str.byte_at digits (Z.to_nat (x mod base)) ::
    (if x / base =? 0 then [] else
     match fuel with O => [] | S f => printint_digits f (x / base) base end).

(** What [printint] writes, one [putc] per byte. *)
Definition printint (xx base : Z) (sgn : bool) : list Z :=
  let neg := sgn && (xx <? 0) in
  let x := if neg then u32 (- xx) else u32 xx in
  let buf := printint_digits 31 x base in
  reverse (if neg then buf ++ [45] else buf).

(** The variable arguments: words, and pointers to strings. *)
Inductive arg : Type := AInt (w : Z) | AStr (s : option (list Z)).

Definition null_string : list Z := [40; 110; 117; 108; 108; 41].

(** What [printf] writes; [None] when an argument is missing or of the wrong
    kind, which the code would read from whatever is on the stack. *)
Fixpoint printf_loop (fmt : list Z) (state : Z) (ap : list arg) : option (list Z) :=
  match fmt with
  | [] => Some []
  | x :: fmt' =>
      if x =? 0 then Some [] else
      let c := Z.land x 255 in
      if state =? 0 then
        if c =? 37 then printf_loop fmt' 37 ap
        else app [c] <$> printf_loop fmt' 0 ap
      else if state =? 37 then
        if c =? 100 then
          match ap with
          | AInt w :: ap' => app (printint (i32 w) 10 true) <$> printf_loop fmt' 0 ap'
          | _ => None
          end
        else if (c =? 120) || (c =? 112) then
          match ap with
          | AInt w :: ap' => app (printint (i32 w) 16 false) <$> printf_loop fmt' 0 ap'
          | _ => None
          end
        else if c =? 115 then
          match ap with
          | AStr s :: ap' => app (Str.cstr (default null_string s)) <$> printf_loop fmt' 0 ap'
          | _ => None
          end
        else if c =? 99 then
          match ap with
          | AInt w :: ap' => app [u8 w] <$> printf_loop fmt' 0 ap'
          | _ => None
          end
        else if c =? 37 then app [c] <$> printf_loop fmt' 0 ap
        else app [37; c] <$> printf_loop fmt' 0 ap
      else printf_loop fmt' state ap
  end.
Definition printf (fmt : list Z) (ap : list arg) : option (list Z) := printf_loop fmt 0 ap.
End U.
Import U.

(** ** Numbers *)
Definition is_digit (c : Z) : Prop := 48 <= c <= 57.

Lemma atoi_snoc l c : forall n, Forall is_digit l -> is_digit c ->
  atoi_loop (l ++ [c]) n = i32 (atoi_loop l n * 10 + c - 48).
Proof.
  induction l as [|x l IH]; intros n Hl Hc; cbn [app atoi_loop].
  - unfold is_digit in Hc. rewrite (proj2 (Z.leb_le 48 c)), (proj2 (Z.leb_le c 57)) by lia. done.
  - apply list.Forall_cons in Hl as [Hx Hl]. unfold is_digit in Hx.
    rewrite (proj2 (Z.leb_le 48 x)), (proj2 (Z.leb_le x 57)) by lia. cbn [andb]. by apply IH.
Qed.

Lemma digit_char d : 0 <= d < 10 -> Str.byte_at digits (Z.to_nat d) = 48 + d.
Proof.
  intros H. assert (d = 0 \/ d = 1 \/ d = 2 \/ d = 3 \/ d = 4 \/ d = 5 \/ d = 6 \/ d = 7 \/ d = 8 \/ d = 9)
    as Hd by lia. naive_solver.
Qed.

Lemma printint_digits_10 f : forall x, 0 <= x < 10 ^ (Z.of_nat f + 1) ->
  Forall is_digit (printint_digits f x 10) /\
  (x < 2 ^ 31 -> atoi_loop (reverse (printint_digits f x 10)) 0 = x).
Proof.
  induction f as [|f IH]; intros x Hx; cbn [printint_digits].
  all: pose proof (Z.mod_pos_bound x 10 ltac:(lia)) as Hm; pose proof (Z.div_mod x 10 ltac:(lia)) as Hd;
    rewrite (digit_char _ Hm).
  - change (10 ^ (Z.of_nat 0 + 1)) with 10 in Hx.
    assert (x / 10 = 0) as E by (apply Z.div_small; lia). rewrite E. cbn.
    split; [constructor; [unfold is_digit; lia|constructor]|]. intros H31.
    rewrite (proj2 (Z.leb_le 48 _)), (proj2 (Z.leb_le _ 57)) by lia. cbn. rewrite i32_small; lia.
  - assert (0 <= x / 10) by (apply Z.div_pos; lia).
    destruct (Z.eqb_spec (x / 10) 0) as [E|E].
    + split; [constructor; [unfold is_digit; lia|constructor]|]. intros H31. cbn.
      rewrite (proj2 (Z.leb_le 48 _)), (proj2 (Z.leb_le _ 57)) by lia. cbn. rewrite i32_small; lia.
    + destruct (IH (x / 10)) as [IH1 IH2].
      { split; [lia|]. apply Z.div_lt_upper_bound; [lia|].
        replace (Z.of_nat (S f) + 1) with (Z.succ (Z.of_nat f + 1)) in Hx by lia.
        rewrite Z.pow_succ_r in Hx by lia. lia. }
      split; [constructor; [unfold is_digit; lia|done]|]. intros H31. rewrite reverse_cons, atoi_snoc.
      * rewrite IH2 by lia. rewrite i32_small; lia.
      * by apply Forall_reverse.
      * unfold is_digit. lia.
Qed.

(** Printing a number with [printint] in base 10 and reading it back with
    [atoi] gives the number, for every nonnegative [int]. *)
Theorem atoi_printint n : 0 <= n < 2 ^ 31 -> atoi (printint n 10 true) = n.
Proof.
  intros Hn. unfold atoi, printint. rewrite (proj2 (Z.ltb_ge n 0)) by lia. cbn [andb].
  rewrite u32_small by lia. apply printint_digits_10; [|lia]. split; [lia|].
  apply (Z.lt_le_trans _ (2 ^ 31)); [lia|]. by vm_compute.
Qed.

Lemma printint_digits_length f base : 2 <= base -> forall k x, (k <= f)%nat -> 0 <= x < base ^ (Z.of_nat k + 1) ->
  (length (printint_digits f x base) <= k + 1)%nat.
Proof.
  intros Hb. induction f as [|f IH]; intros k x Hk Hx; cbn [printint_digits length].
  - destruct (_ =? _); cbn; lia.
  - destruct (Z.eqb_spec (x / base) 0) as [E|E]; [cbn; lia|]. destruct k as [|k].
    + change (Z.of_nat 0 + 1) with 1 in Hx. rewrite Z.pow_1_r in Hx. by rewrite Z.div_small in E by lia.
    + enough (length (printint_digits f (x / base) base) <= k + 1)%nat by lia. apply IH; [lia|].
      split; [apply Z.div_pos; lia|]. apply Z.div_lt_upper_bound; [lia|].
      replace (Z.of_nat (S k) + 1) with (Z.succ (Z.of_nat k + 1)) in Hx by lia.
      rewrite Z.pow_succ_r in Hx by lia. lia.
Qed.

(** The buffer of [printint] has 16 bytes; in the bases [printf] uses at most 11
    are needed. *)
Theorem printint_fits xx base sgn :
  base = 10 \/ base = 16 -> (length (printint xx base sgn) <= 11)%nat.
Proof.
  intros Hb. unfold printint. rewrite length_reverse.
  assert (forall x, (length (printint_digits 31 (u32 x) base) <= 10)%nat) as H.
  { intros x. pose proof (u32_range x) as Hr. apply (printint_digits_length 31 base ltac:(lia) 9); [lia|].
    split; [lia|]. destruct Hb as [-> | ->]; (eapply Z.lt_le_trans; [apply Hr|by vm_compute]). }
  destruct (_ && _); [rewrite length_app; cbn [length]; specialize (H (- xx)); lia|]. specialize (H xx). lia.
Qed.

(** ** Strings and memory *)
Lemma memmove_loop_up n : forall m d s, memmove_loop m d s n = Str.move_up m d s n.
Proof. induction n as [|n IH]; intros m d s; [done|]. apply IH. Qed.

(** The library's [memmove] agrees with the kernel's when the destination does
    not start inside the source. *)
Theorem memmove_forward m d s n :
  (d <= s \/ s + Z.to_nat n <= d)%nat ->
  memmove m d s n = Str.memmove m d s (Z.to_nat n).
Proof.
  intros H. unfold memmove, Str.memmove. rewrite memmove_loop_up.
  destruct (Nat.ltb_spec s d), (Nat.ltb_spec d (s + Z.to_nat n)); try done. lia.
Qed.

(** When it does, the library's version repeats what it has just written. *)
Theorem memmove_overlap :
  memmove [1; 2; 3; 4] 1 0 3 = [1; 1; 1; 1] /\ Str.memmove [1; 2; 3; 4] 1 0 3 = [1; 1; 2; 3].
Proof. split; by vm_compute. Qed.

Theorem strcmp_zero p q :
  Forall is_byte p -> Forall is_byte q -> strcmp p q = 0 <-> Str.cstr p = Str.cstr q.
Proof.
  revert q. induction p as [|c p IH]; intros q Hp Hq; cbn [strcmp].
  - assert (u8 (Str.peek q) = Str.peek q) as -> by (apply Z.mod_small, peek_byte, Hq). cbn.
    destruct (decide (Str.peek q = 0)) as [E|E].
    + rewrite (cstr_peek0 q E), E. done.
    + rewrite (cstr_tail q E). split; [|done]. change (u8 0) with 0. lia.
  - apply list.Forall_cons in Hp as [Hc Hp]. rewrite peek_cstr.
    assert (u8 (Str.peek q) = Str.peek q) as -> by (apply Z.mod_small, peek_byte, Hq).
    assert (u8 c = c) as -> by (apply Z.mod_small, Hc).
    destruct (Z.eqb_spec c 0) as [->|Hc0]; cbn [negb andb].
    + destruct (decide (Str.peek q = 0)) as [E|E].
      * rewrite (cstr_peek0 q E), E. done.
      * rewrite (cstr_tail q E). split; [lia|done].
    + destruct (Z.eqb_spec c (Str.peek q)) as [E|E].
      * rewrite (cstr_tail q) by congruence. rewrite IH by (done || by apply Forall_tail). rewrite E.
        split; [by intros ->|by intros [= ->]].
      * split; [lia|]. destruct (decide (Str.peek q = 0)) as [E0|E0].
        -- by rewrite (cstr_peek0 q E0).
        -- rewrite (cstr_tail q E0). by intros [=].
Qed.

(** Neither a newline nor a carriage return. *)
Definition in_line (c : Z) : Prop := c <> 10 /\ c <> 13.

Lemma gets_loop_line line nl rest max : Forall in_line line -> nl = 10 \/ nl = 13 -> forall i buf,
  i + Z.of_nat (length line) + 1 < max ->
  gets_loop (line ++ nl :: rest) i max buf = (buf ++ line ++ [nl], rest).
Proof.
  intros Hl Hnl. induction Hl as [|c line [H1 H2] _ IH]; intros i buf Hi; cbn [app gets_loop length] in *.
  - rewrite (proj2 (Z.ltb_lt _ _)) by lia. cbn [negb]. by destruct Hnl as [-> | ->].
  - rewrite (proj2 (Z.ltb_lt _ _)) by lia. cbn [negb].
    rewrite (proj2 (Z.eqb_neq c 10)), (proj2 (Z.eqb_neq c 13)) by done. cbn [orb].
    rewrite IH by lia. by rewrite <- app_assoc.
Qed.

(** [gets] takes one line, with the character that ends it, and leaves the rest
    of the input for the next call. *)
Theorem gets_line line nl rest max :
  Forall in_line line -> nl = 10 \/ nl = 13 -> Z.of_nat (length line) + 1 < max ->
  gets max (line ++ nl :: rest) = (line ++ [nl; 0], rest).
Proof.
  intros Hl Hnl Hm. unfold gets. rewrite (gets_loop_line line nl rest max Hl Hnl 0 []) by lia.
  cbn [app]. by rewrite <- app_assoc.
Qed.

Lemma gets_loop_bound input max : forall i buf, i + 1 <= Z.max max 1 -> i = Z.of_nat (length buf) ->
  Z.of_nat (length (fst (gets_loop input i max buf))) + 1 <= Z.max max 1.
Proof.
  induction input as [|c input IH]; intros i buf Hi Hb; cbn [gets_loop].
  - destruct (Z.ltb_spec (i + 1) max); cbn; lia.
  - destruct (Z.ltb_spec (i + 1) max); cbn [negb]; [|cbn; lia].
    destruct (_ || _); [cbn; rewrite length_app; cbn; lia|].
    apply IH; [lia|]. rewrite length_app. cbn. lia.
Qed.

(** [gets] stays inside a buffer of [max] bytes. *)
Theorem gets_fits max input : 1 <= max -> Z.of_nat (length (fst (gets max input))) <= max.
Proof.
  intros Hm. unfold gets. pose proof (gets_loop_bound input max 0 [] ltac:(lia) eq_refl) as H.
  destruct (gets_loop input 0 max []) as [buf rest]. cbn in *. rewrite length_app. cbn. lia.
Qed.

(** ** Formats *)

(** A format without percent signs is printed as it is. *)
Theorem printf_plain fmt ap :
  Forall (fun c => 0 < c < 256 /\ c <> 37) fmt -> printf fmt ap = Some fmt.
Proof.
  unfold printf. induction 1 as [|c fmt [Hr Hc] _ IH]; cbn [printf_loop]; [done|].
  rewrite (proj2 (Z.eqb_neq c 0)) by lia. cbn [Z.eqb].
  assert (Z.land c 255 = c) as -> by (change 255 with (Z.ones 8); rewrite Z.land_ones by lia; apply Z.mod_small; lia).
  rewrite (proj2 (Z.eqb_neq c 37)) by done. by rewrite IH.
Qed.

Lemma printf_loop_app fmt fmt' ap : Forall (fun c => 0 < c < 256 /\ c <> 37) fmt ->
  printf_loop (fmt ++ fmt') 0 ap = app fmt <$> printf_loop fmt' 0 ap.
Proof.
  induction 1 as [|c fmt [Hr Hc] _ IH]; cbn [app printf_loop]; [by destruct (printf_loop _ _ _)|].
  rewrite (proj2 (Z.eqb_neq c 0)) by lia. cbn [Z.eqb].
  assert (Z.land c 255 = c) as -> by (change 255 with (Z.ones 8); rewrite Z.land_ones by lia; apply Z.mod_small; lia).
  rewrite (proj2 (Z.eqb_neq c 37)) by done. rewrite IH. by destruct (printf_loop fmt' 0 ap).
Qed.

(** A number printed by [printf] with %d between plain text is read back by
    [atoi] from the place where it starts. *)
Theorem printf_atoi pre post n :
  Forall (fun c => 0 < c < 256 /\ c <> 37) pre -> Forall (fun c => 0 < c < 256 /\ c <> 37) post ->
  ~ (48 <= Str.peek post <= 57) -> 0 <= n < 2 ^ 31 ->
  exists out, printf (pre ++ [37; 100] ++ post) [AInt n] = Some out /\ atoi (drop (length pre) out) = n.
Proof.
  intros Hpre Hpost Hd Hn. unfold printf. rewrite printf_loop_app by done. cbn [app printf_loop Z.eqb].
  change (Z.land 37 255) with 37. change (Z.land 100 255) with 100. cbn [Z.eqb Pos.eqb].
  pose proof (printf_plain post [] Hpost) as Hp. unfold printf in Hp. rewrite Hp, i32_small by lia. cbn [fmap option_fmap option_map].
  eexists. split; [reflexivity|]. rewrite drop_app_length.
  assert (forall l k, Forall is_digit l -> atoi_loop (l ++ post) k = atoi_loop l k) as Happ.
  { induction l as [|c l IH]; intros k Hl; cbn [app atoi_loop].
    - destruct post as [|c post]; [done|]. cbn in *. destruct (Z.leb_spec 48 c), (Z.leb_spec c 57); try done. lia.
    - apply list.Forall_cons in Hl as [Hc Hl]. unfold is_digit in Hc.
      rewrite (proj2 (Z.leb_le 48 c)), (proj2 (Z.leb_le c 57)) by lia. by apply IH. }
  unfold atoi. rewrite Happ; [by apply atoi_printint|]. unfold printint. rewrite (proj2 (Z.ltb_ge n 0)) by lia.
  cbn [andb]. rewrite u32_small by lia. apply Forall_reverse, (printint_digits_10 31).
  split; [lia|]. apply (Z.lt_le_trans _ (2 ^ 31)); [lia|]. by vm_compute.
Qed.

Lemma printf_atoi_witness :
  exists out, printf ([110; 61] ++ [37; 100] ++ [10]) [AInt 2026] = Some out /\ atoi (drop 2 out) = 2026.
Proof.
  apply (printf_atoi [110; 61] [10] 2026); [repeat constructor; lia..|cbn; lia|lia].
Defined.
