(* ===== verification/Umalloc.v ===== *)
(** * The user allocator: umalloc.c

    The first-fit allocator of Kernighan and Ritchie on the memory of one
    process.  The free blocks form a circular list in the order of their
    addresses, starting at the static header [base]; a header is two words, the
    pointer to the next block and the size of the block in headers.  Memory is a
    map from addresses to words; an access beyond the pages of the process is a
    page fault.  [sbrk] is the system call as the process sees it. *)

From stdpp Require Import sorting.
From S2P Require Import Prelude Kstate Kalloc Uvm.
Local Open Scope Z_scope.

(** ** The process

    [base] is where the linker puts the static header, [heap_lo] the size of the
    process when it starts; [grants] tells whether the kernel has the memory to
    grow the process from one size to another. *)
Class Process := {
  base : Z;
  heap_lo : Z;
  grants : Z -> Z -> bool;
  base_ok : 0 < base /\ base + 8 <= heap_lo
}.

Record ust := mkUst { u_mem : gmap Z Z; u_freep : Z; u_brk : Z }.

Definition set_u_mem m s := mkUst m (u_freep s) (u_brk s).
Definition set_u_freep p s := mkUst (u_mem s) p (u_brk s).
Definition set_u_brk b s := mkUst (u_mem s) (u_freep s) b.

Section Umalloc.
Context `{Process}.

Definition uword (s : ust) (a : Z) : Z := word_at (u_mem s) a.

Definition mapped (s : ust) (a : Z) : bool :=
  (0 <=? a) && (a + 4 <=? PGROUNDUP (u_brk s)).

Definition uload (a : Z) : M ust Z :=
  let! ok := gets (fun s => mapped s a) in
  if ok then gets (fun s => uword s a) else fault "page fault".

Definition ustore (a v : Z) : M ust unit :=
  let! ok := gets (fun s => mapped s a) in
  if ok then modify (fun s => set_u_mem (<[a := v]> (u_mem s)) s) else fault "page fault".

(** [sbrk(n)]: [sys_sbrk] and [growproc], with what [allocuvm] and [deallocuvm]
    answer.  Pages given back lose their contents, new ones are zero; a process
    that gives back all of them cannot run on. *)
Definition sbrk (n : Z) : M ust Z :=
  let! sz := gets u_brk in
  let newsz := u32 (sz + n) in
  if 0 <? n then
    if KERNBASE <=? newsz then ret (-1)
    else if newsz <? sz then ret sz
    else if grants sz newsz then do modify (set_u_brk newsz); ret sz
    else ret (-1)
  else if n <? 0 then
    if sz <=? newsz then ret sz
    else if newsz =? 0 then fault "page fault"
    else
      do modify (fun s => set_u_brk newsz
        (set_u_mem (filter (fun kv => fst kv < PGROUNDUP newsz) (u_mem s)) s));
      ret sz
  else ret sz.

(** ** Headers *)
Definition ptr_add (p n : Z) : Z := u32 (p + 8 * n).

Definition get_ptr (p : Z) : M ust Z := uload p.
Definition set_ptr (p v : Z) : M ust unit := ustore p v.
Definition get_size (p : Z) : M ust Z := uload (u32 (p + 4)).
Definition set_size (p v : Z) : M ust unit := ustore (u32 (p + 4)) v.

(** A header takes eight bytes, so no walk around the list is longer. *)
Definition list_fuel (s : ust) : nat := Z.to_nat (u_brk s / 4) + 4.

(** ** free *)
Fixpoint free_find (fuel : nat) (bp p : Z) : M ust Z :=
  match fuel with
  | O => hang
  | S f =>
      let! nx := get_ptr p in
      if (p <? bp) && (bp <? nx) then ret p
      else if (nx <=? p) && ((p <? bp) || (bp <? nx)) then ret p
      else free_find f bp nx
  end.

(** Join the block to the one after it, or link it to that one. *)
Definition free_join_next (bp p : Z) : M ust unit :=
  let! bsz := get_size bp in
  let! nx := get_ptr p in
  if ptr_add bp bsz =? nx then
    let! nsz := get_size nx in
    do set_size bp (u32 (bsz + nsz));
    let! nnx := get_ptr nx in
    set_ptr bp nnx
  else set_ptr bp nx.

(** The same with the block before it. *)
Definition free_join_prev (bp p : Z) : M ust unit :=
  let! psz := get_size p in
  if ptr_add p psz =? bp then
    let! bsz := get_size bp in
    do set_size p (u32 (psz + bsz));
    let! bnx := get_ptr bp in
    set_ptr p bnx
  else set_ptr p bp.

Definition free (ap : Z) : M ust unit :=
  let bp := u32 (ap - 8) in
  let! fp := gets u_freep in
  let! fuel := gets list_fuel in
  let! p := free_find fuel bp fp in
  do free_join_next bp p;
  do free_join_prev bp p;
  modify (set_u_freep p).

(** ** malloc *)
Definition morecore (nu : Z) : M ust Z :=
  let nu := if nu <? 4096 then 4096 else nu in
  let! p := sbrk (i32 (nu * 8)) in
  if p =? -1 then ret 0 else
  do set_size p nu;
  do free (ptr_add p 1);
  gets u_freep.

Fixpoint malloc_loop (fuel : nat) (nunits prevp p : Z) : M ust Z :=
  match fuel with
  | O => hang
  | S f =>
      let! sz := get_size p in
      if nunits <=? sz then
        let! p :=
          (if sz =? nunits then
             let! nx := get_ptr p in
             do set_ptr prevp nx;
             ret p
           else
             do set_size p (u32 (sz - nunits));
             let! sz := get_size p in
             let p := ptr_add p sz in
             do set_size p nunits;
             ret p) in
        do modify (set_u_freep prevp);
        ret (ptr_add p 1)
      else
        let! fp := gets u_freep in
        if p =? fp then
          let! p := morecore nunits in
          if p =? 0 then ret 0 else
          let! nx := get_ptr p in
          malloc_loop f nunits p nx
        else
          let! nx := get_ptr p in
          malloc_loop f nunits p nx
  end.

Definition units (nbytes : Z) : Z := u32 (u32 (nbytes + 8 - 1) / 8 + 1).

Definition malloc (nbytes : Z) : M ust Z :=
  let nunits := units nbytes in
  let! prevp := gets u_freep in
  let! prevp :=
    (if prevp =? 0 then
       do modify (set_u_freep base);
       do set_ptr base base;
       do set_size base 0;
       ret base
     else ret prevp) in
  let! p := get_ptr prevp in
  let! fuel := gets list_fuel in
  malloc_loop (2 * fuel) nunits prevp p.

(** ** The heap

    A block is its address and its size in headers. *)
Definition extent (x : Z * Z) (a : Z) : Prop := fst x <= a < fst x + 8 * snd x.
Definition apart (x y : Z * Z) : Prop := fst x + 8 * snd x <= fst y \/ fst y + 8 * snd y <= fst x.

Definition block (s : ust) (x : Z * Z) : Prop :=
  fst x mod 8 = 0 /\ 0 < snd x /\ heap_lo <= fst x /\ fst x + 8 * snd x <= u_brk s.

(** Two neighbours in the list do not touch. *)
Definition gap (x y : Z * Z) : Prop := fst x + 8 * snd x < fst y /\ fst x + 8 <= fst y.

(** The list from [a] to [e] holds the blocks [l]. *)
Fixpoint seg (s : ust) (a : Z) (l : list (Z * Z)) (e : Z) : Prop :=
  match l with
  | [] => a = e
  | (b, z) :: l' => a = b /\ uword s (b + 4) = z /\ seg s (uword s b) l' e
  end.

Definition ring (fr : list (Z * Z)) : list (Z * Z) := (base, 0) :: fr.

(** [fr] are the free blocks, [al] the allocated ones: they share no memory. *)
Record heap (s : ust) (fr : list (Z * Z)) (al : gmap Z Z) : Prop := {
  h_brk : u_brk s mod 8 = 0 /\ heap_lo <= u_brk s < KERNBASE;
  h_ring : seg s base (ring fr) base;
  h_freep : u_freep s ∈ (ring fr).*1;
  h_blocks : Forall (block s) fr;
  h_sorted : StronglySorted gap (ring fr);
  h_al : forall a z, al !! a = Some z -> block s (a, z) /\ uword s (a + 4) = z;
  h_al_apart : forall a z b w, al !! a = Some z -> al !! b = Some w -> a <> b -> apart (a, z) (b, w);
  h_apart : forall x a z, x ∈ fr -> al !! a = Some z -> apart x (a, z)
}.

Definition covered (fr : list (Z * Z)) (a : Z) : Prop := exists x, x ∈ fr /\ extent x a.

(** The contents of the blocks [al] are the same in both states. *)
Definition keeps (al : gmap Z Z) (s s' : ust) : Prop :=
  forall b z a, al !! b = Some z -> extent (b, z) a -> uword s' a = uword s a.

(** ** Lists of blocks *)
Lemma apart_extent x y : 0 < snd x -> 0 < snd y -> apart x y <-> forall a, extent x a -> ~ extent y a.
Proof.
  destruct x as [b z], y as [c w]; unfold apart, extent; cbn. intros Hz Hw. split; [lia|].
  intros Ha. specialize (Ha (Z.max b c)). lia.
Qed.

Lemma apart_sym x y : apart x y -> apart y x.
Proof. unfold apart. tauto. Qed.

Lemma seg_app s l1 : forall a l2 e, seg s a (l1 ++ l2) e <-> exists c, seg s a l1 c /\ seg s c l2 e.
Proof.
  induction l1 as [|[b z] l1 IH]; intros a l2 e; cbn.
  - split; [by exists a|by intros (c & -> & ?)].
  - rewrite IH. naive_solver.
Qed.

Lemma seg_frame s s' l : forall a e,
  (forall x, x ∈ l -> uword s' (fst x) = uword s (fst x) /\ uword s' (fst x + 4) = uword s (fst x + 4)) ->
  seg s a l e -> seg s' a l e.
Proof.
  induction l as [|[b z] l IH]; intros a e Hx; cbn; [done|]. intros (-> & Hz & Hs).
  destruct (Hx (b, z)) as [H1 H2]; [by left|]. cbn in H1, H2. rewrite H1, H2.
  split; [done|]. split; [done|]. apply IH; [|done]. intros x Hin. apply Hx. by right.
Qed.

(** The successor of the block [x] of a ring. *)
Lemma seg_next s a l1 x l2 e : seg s a (l1 ++ x :: l2) e ->
  uword s (fst x + 4) = snd x /\ uword s (fst x) = match l2 with [] => e | y :: _ => fst y end.
Proof.
  rewrite seg_app. intros (c & _ & Hs). destruct x as [b z]. cbn in Hs. destruct Hs as (_ & Hz & Hs).
  split; [done|]. destruct l2 as [|[d w] l2]; cbn in *; [done|]. by destruct Hs.
Qed.

Lemma sorted_mid (l1 : list (Z * Z)) x l2 : StronglySorted gap (l1 ++ x :: l2) ->
  Forall (fun y => gap y x) l1 /\ Forall (gap x) l2.
Proof.
  rewrite StronglySorted_app, StronglySorted_cons. intros (H1 & _ & H2 & _). split; [|done].
  apply list.Forall_forall. intros y Hy. apply H1; [done|by left].
Qed.

(** ** Memory *)
Lemma mapped_ok s a : 0 <= a -> a + 4 <= u_brk s -> u_brk s < KERNBASE -> mapped s a = true.
Proof.
  intros H1 H2 H3. unfold mapped. rewrite PGROUNDUP_eq by (unfold KERNBASE in *; lia).
  pose proof (npages_bound (u_brk s)). apply andb_true_iff. split; apply Z.leb_le; lia.
Qed.

Lemma uload_runs s a : mapped s a = true -> runs (uload a) s (uword s a) s.
Proof. intros Hm e. unfold uload, bind, gets. by rewrite Hm. Qed.

Definition stored (a v : Z) (s : ust) : ust := set_u_mem (<[a := v]> (u_mem s)) s.

Lemma ustore_runs s a v : mapped s a = true -> runs (ustore a v) s tt (stored a v s).
Proof. intros Hm e. unfold ustore, bind, gets, modify. by rewrite Hm. Qed.

Lemma uword_stored a v s : uword (stored a v s) a = v.
Proof. unfold uword, word_at, stored. cbn. by rewrite lookup_insert_eq. Qed.

Lemma uword_stored_ne a b v s : a <> b -> uword (stored a v s) b = uword s b.
Proof. intros Hne. unfold uword, word_at, stored. cbn. by rewrite lookup_insert_ne. Qed.

(** The header of a block or of [base] is memory of the process. *)
Lemma header_ok s a : 0 < a -> a + 8 <= u_brk s -> u_brk s < KERNBASE ->
  mapped s a = true /\ mapped s (a + 4) = true /\ u32 (a + 4) = a + 4 /\ u32 a = a.
Proof.
  intros H1 H2 H3. unfold KERNBASE in H3. rewrite !u32_small by lia. split; [|split; [|done]]; apply mapped_ok; unfold KERNBASE; lia.
Qed.

(** ** The list and its nodes *)
Lemma ring_elem s fr al x : heap s fr al -> x ∈ ring fr -> base <= fst x /\ fst x + 8 <= u_brk s /\ 0 <= snd x /\ fst x + 8 * snd x <= u_brk s.
Proof.
  intros Hh Hx. destruct base_ok as [Hb1 Hb2], (h_brk _ _ _ Hh) as [_ Hbrk].
  apply elem_of_cons in Hx as [->|Hx]; cbn; [lia|].
  pose proof (h_blocks _ _ _ Hh) as Hf. rewrite list.Forall_forall in Hf.
  destruct (Hf x Hx) as (_ & Hz & Hlo & Hhi). lia.
Qed.

(** Reading the header of a node. *)
Lemma node_reads s fr al x : heap s fr al -> x ∈ ring fr ->
  runs (get_ptr (fst x)) s (uword s (fst x)) s /\ runs (get_size (fst x)) s (snd x) s.
Proof.
  intros Hh Hx. destruct (ring_elem s fr al x Hh Hx) as (H1 & H2 & _). destruct base_ok as [Hb _].
  destruct (header_ok s (fst x) ltac:(lia) H2 (proj2 (proj2 (h_brk _ _ _ Hh)))) as (M1 & M2 & E & _).
  split; [by apply uload_runs|]. unfold get_size. rewrite E.
  destruct (list_elem_of_split _ _ Hx) as (l1 & l2 & El). pose proof (h_ring _ _ _ Hh) as Hr. rewrite El in Hr.
  destruct (seg_next _ _ _ _ _ _ Hr) as [<- _]. by apply uload_runs.
Qed.

(** The node after [x], in a ring that splits at [x]. *)
Definition succ (l2 : list (Z * Z)) : Z := match l2 with [] => base | y :: _ => fst y end.

Lemma node_next s fr al l1 x l2 : heap s fr al -> ring fr = l1 ++ x :: l2 -> uword s (fst x) = succ l2.
Proof. intros Hh E. pose proof (h_ring _ _ _ Hh) as Hr. rewrite E in Hr. by destruct (seg_next _ _ _ _ _ _ Hr) as [_ ->]. Qed.

(** The nodes are at least eight bytes apart, so there are few of them. *)
Lemma sorted_length l : forall x hi, StronglySorted gap (x :: l) -> (forall y, y ∈ x :: l -> fst y + 8 <= hi) ->
  fst x + 8 * Z.of_nat (length (x :: l)) <= hi.
Proof.
  induction l as [|y l IH]; intros x hi Hs Hhi; cbn [length].
  - specialize (Hhi x ltac:(by left)). lia.
  - apply StronglySorted_cons in Hs as [Hf Hs]. apply list.Forall_cons in Hf as [[_ Hg] _].
    specialize (IH y hi Hs). cbn [length] in IH. rewrite Nat2Z.inj_succ in *.
    enough (fst y + 8 * Z.succ (Z.of_nat (length l)) <= hi) by lia. apply IH. intros u Hu. apply Hhi. by right.
Qed.

Lemma ring_length s fr al : heap s fr al -> 8 * Z.of_nat (length (ring fr)) <= u_brk s.
Proof.
  intros Hh. pose proof (sorted_length fr (base, 0) (u_brk s) (h_sorted _ _ _ Hh)) as Hl. destruct base_ok as [Hb _].
  cbn [fst] in Hl. unfold ring in *. enough (base + 8 * Z.of_nat (length ((base, 0) :: fr)) <= u_brk s) by lia.
  apply Hl. intros y Hy. by destruct (ring_elem s fr al y Hh Hy) as (_ & ? & _).
Qed.

Lemma ring_fuel s fr al : heap s fr al -> (2 * length (ring fr) + 4 <= list_fuel s)%nat.
Proof.
  intros Hh. pose proof (ring_length s fr al Hh). unfold list_fuel.
  enough (2 * Z.of_nat (length (ring fr)) <= u_brk s / 4) by lia. apply Z.div_le_lower_bound; lia.
Qed.

(** ** Where a block belongs *)

(** [p] is the last node before the address [b]. *)
Lemma split_at l : forall b x, StronglySorted gap (x :: l) -> fst x < b -> (forall y, y ∈ x :: l -> fst y <> b) ->
  exists l1 p l2, x :: l = l1 ++ p :: l2 /\ fst p < b /\ Forall (fun y => b < fst y) l2.
Proof.
  induction l as [|y l IH]; intros b x Hs Hx Hne; [by exists [], x, []|].
  destruct (Z.lt_ge_cases (fst y) b) as [Hy|Hy].
  - apply StronglySorted_cons in Hs as [_ Hs]. destruct (IH b y Hs Hy) as (l1 & p & l2 & E & Hp & Hf).
    + intros u Hu. apply Hne. by right.
    + exists (x :: l1), p, l2. by rewrite E.
  - exists [], x, (y :: l). split; [done|]. split; [done|]. apply StronglySorted_cons in Hs as [_ Hs].
    assert (b < fst y) as Hby. { specialize (Hne y). rewrite !elem_of_cons in Hne. specialize (Hne ltac:(auto)). lia. }
    constructor; [done|]. apply StronglySorted_cons in Hs as [Hf _]. eapply list.Forall_impl; [exact Hf|].
    intros u [_ Hg]. lia.
Qed.

(** ** The search of free *)
Section Find.
Context (s : ust) (fr : list (Z * Z)) (al : gmap Z Z) (b : Z).
Hypothesis Hh : heap s fr al.
Hypothesis Hb : base < b.

Lemma split_elem l1 x l2 : ring fr = l1 ++ x :: l2 -> x ∈ ring fr.
Proof. intros ->. apply elem_of_app. right. by left. Qed.

Lemma find_here l1 p l2 f : ring fr = l1 ++ p :: l2 -> fst p < b -> Forall (fun y => b < fst y) l2 ->
  runs (free_find (S f) b (fst p)) s (fst p) s.
Proof.
  intros E Hp Hl e. pose proof (split_elem _ _ _ E) as Hx. destruct (node_reads _ _ _ _ Hh Hx) as [R _].
  destruct (ring_elem _ _ _ _ Hh Hx) as (Hlo & _). cbn [free_find]. unfold bind. rewrite R, (node_next _ _ _ _ _ _ Hh E).
  destruct l2 as [|y l2]; cbn [succ].
  - rewrite (proj2 (Z.ltb_ge b base)), (proj2 (Z.leb_le base (fst p))), (proj2 (Z.ltb_lt (fst p) b)) by lia. done.
  - apply list.Forall_cons in Hl as [Hy _]. by rewrite (proj2 (Z.ltb_lt (fst p) b)), (proj2 (Z.ltb_lt b (fst y))) by lia.
Qed.

Lemma find_skip l1 c l2 f : ring fr = l1 ++ c :: l2 ->
  b < fst c \/ fst c < b /\ (exists y l3, l2 = y :: l3 /\ fst y < b) ->
  forall e, free_find (S f) b (fst c) s e = free_find f b (succ l2) s e.
Proof.
  intros E Hc e. pose proof (split_elem _ _ _ E) as Hx. destruct (node_reads _ _ _ _ Hh Hx) as [R _].
  pose proof (h_sorted _ _ _ Hh) as Hs. rewrite E in Hs. apply sorted_mid in Hs as [_ Hf].
  cbn [free_find]. unfold bind. rewrite R, (node_next _ _ _ _ _ _ Hh E).
  destruct Hc as [Hc|(Hc & y & l3 & -> & Hy)].
  - rewrite (proj2 (Z.ltb_ge (fst c) b)) by lia. cbn [andb orb].
    destruct l2 as [|y l3]; cbn [succ].
    + by rewrite (proj2 (Z.ltb_ge b base)), andb_false_r by lia.
    + apply list.Forall_cons in Hf as [[_ Hg] _]. by rewrite (proj2 (Z.leb_gt (fst y) (fst c))) by lia.
  - apply list.Forall_cons in Hf as [[_ Hg] _]. cbn [succ].
    by rewrite (proj2 (Z.ltb_ge b (fst y))), (proj2 (Z.leb_gt (fst y) (fst c))), andb_false_r by lia.
Qed.

(** From a node before the place up to it. *)
Lemma find_up lb : forall la c p l2 f e, ring fr = la ++ c :: lb ++ p :: l2 -> fst p < b ->
  free_find (S (length lb) + f) b (fst c) s e = free_find f b (fst p) s e.
Proof.
  induction lb as [|d lb IH]; intros la c p l2 f e E Hp; cbn [length app] in *.
  - pose proof (h_sorted _ _ _ Hh) as Hs. rewrite E in Hs. apply sorted_mid in Hs as [_ Hf].
    apply list.Forall_cons in Hf as [[_ Hg] _]. apply (find_skip la c (p :: l2)); [done|]. right. split; [lia|eauto].
  - pose proof (h_sorted _ _ _ Hh) as Hs. rewrite E in Hs. apply sorted_mid in Hs as [_ Hf].
    apply list.Forall_cons in Hf as [[_ Hg] Hf].
    assert (fst d < b) as Hd.
    { pose proof (h_sorted _ _ _ Hh) as Hs. rewrite E in Hs. change (d :: lb ++ p :: l2) with ((d :: lb) ++ p :: l2) in Hs.
      rewrite app_comm_cons, app_assoc in Hs. apply sorted_mid in Hs as [Hs _]. rewrite list.Forall_forall in Hs.
      destruct (Hs d) as [_ Hdp]; [|lia]. apply elem_of_app. right. right. by left. }
    change (S (S (length lb)) + f)%nat with (S (S (length lb) + f)).
    rewrite (find_skip la c (d :: lb ++ p :: l2)); [|done|right; split; [lia|eauto]]. cbn [succ].
    apply (IH (la ++ [c]) d p l2); [|done]. by rewrite <- app_assoc.
Qed.

(** From a node beyond the place round to [base]. *)
Lemma find_round lb : forall la c f e, ring fr = la ++ c :: lb -> b < fst c ->
  free_find (S (length lb) + f) b (fst c) s e = free_find f b base s e.
Proof.
  induction lb as [|d lb IH]; intros la c f e E Hc; cbn [length].
  - apply (find_skip la c []); [done|by left].
  - change (S (S (length lb)) + f)%nat with (S (S (length lb) + f)).
    rewrite (find_skip la c (d :: lb)); [|done|by left]. cbn [succ].
    pose proof (h_sorted _ _ _ Hh) as Hs. rewrite E in Hs. apply sorted_mid in Hs as [_ Hf].
    apply list.Forall_cons in Hf as [[_ Hg] _]. apply (IH (la ++ [c])); [by rewrite <- app_assoc|lia].
Qed.

(** The search ends at the last node before [b], wherever it starts. *)
Lemma free_find_runs l1 p l2 : ring fr = l1 ++ p :: l2 -> fst p < b -> Forall (fun y => b < fst y) l2 ->
  runs (free_find (list_fuel s) b (u_freep s)) s (fst p) s.
Proof.
  intros E Hp Hl e. pose proof (ring_fuel _ _ _ Hh) as Hn. pose proof (h_freep _ _ _ Hh) as Hf.
  apply list_elem_of_fmap in Hf as (c & -> & Hc).
  assert (forall f e, (length (ring fr) + 1 <= f)%nat -> free_find f b base s e = Ok (fst p) s e) as Hbase.
  { intros f e' Hfu. destruct l1 as [|x l1].
    - pose proof E as E'. injection E' as Ep _. subst p. destruct f as [|f]; [lia|]. exact (find_here [] (base, 0) l2 f E Hp Hl e').
    - pose proof E as E'. injection E' as Ex _. rewrite <- Ex in E. rewrite E in Hfu. cbn [app length] in Hfu. rewrite length_app in Hfu. cbn [length] in Hfu.
      replace f with (S (length l1) + (f - S (length l1)))%nat by lia.
      change base with (fst (base, 0)). rewrite (find_up l1 [] (base, 0) p l2); [|done|done].
      destruct (f - S (length l1))%nat eqn:Ef; [lia|]. by apply (find_here ((base, 0) :: l1) p l2). }
  pose proof Hc as Hc'. rewrite E in Hc'. apply elem_of_app in Hc' as [Hin|Hin].
  - apply list_elem_of_split in Hin as (la & lb & ->). rewrite <- app_assoc in E. cbn [app] in E.
    rewrite E in Hn. rewrite length_app in Hn. cbn [length] in Hn. rewrite length_app in Hn. cbn [length] in Hn.
    replace (list_fuel s) with (S (length lb) + S (list_fuel s - S (length lb) - 1))%nat by lia.
    rewrite (find_up lb la c p l2); [|done|done]. apply (find_here (la ++ c :: lb) p l2); [|done|done].
    by rewrite E, <- app_assoc.
  - apply elem_of_cons in Hin as [->|Hin].
    + replace (list_fuel s) with (S (list_fuel s - 1))%nat by lia. by apply (find_here l1 p l2).
    + pose proof Hl as Hcb. rewrite list.Forall_forall in Hcb. specialize (Hcb c Hin). cbn in Hcb.
      apply list_elem_of_split in Hin as (la & lb & ->).
      rewrite E in Hn. rewrite length_app in Hn. cbn [length] in Hn. rewrite length_app in Hn. cbn [length] in Hn.
      replace (list_fuel s) with (S (length lb) + (list_fuel s - S (length lb)))%nat by lia.
      rewrite (find_round lb (l1 ++ p :: la) c); [|by rewrite E, <- app_assoc|done]. apply Hbase.
      rewrite E, length_app. cbn [length]. rewrite length_app. cbn [length]. lia.
Qed.
End Find.

(** ** Inserting a block *)

Lemma covered_cons x l a : covered (x :: l) a <-> extent x a \/ covered l a.
Proof. unfold covered. setoid_rewrite elem_of_cons. naive_solver. Qed.

Lemma covered_app l l' a : covered (l ++ l') a <-> covered l a \/ covered l' a.
Proof. unfold covered. setoid_rewrite elem_of_app. naive_solver. Qed.

(** The size of the block [b] and what follows it when it is joined to the
    block after it. *)
Definition merge_right (b z : Z) (l2 : list (Z * Z)) : Z * list (Z * Z) :=
  match l2 with
  | (q, zq) :: l3 => if b + 8 * z =? q then (z + zq, l3) else (z, l2)
  | [] => (z, [])
  end.

Definition inserted (l1 : list (Z * Z)) (p : Z * Z) (b z : Z) (l2 : list (Z * Z)) : list (Z * Z) :=
  let '(z1, l3) := merge_right b z l2 in
  if fst p + 8 * snd p =? b then l1 ++ (fst p, snd p + z1) :: l3 else l1 ++ p :: (b, z1) :: l3.

Lemma seg_suffix s0 l a k e : seg s0 a (k ++ l) e -> seg s0 (match l with [] => e | y :: _ => fst y end) l e.
Proof. rewrite seg_app. intros (c & _ & Hs). destruct l as [|[y w] l]; [done|]. cbn in *. naive_solver. Qed.

(** [s'] differs from [s] at most in the header at [a]. *)
Definition same_but (a : Z) (s s' : ust) : Prop :=
  u_brk s' = u_brk s /\ u_freep s' = u_freep s /\ forall x, x <> a -> x <> a + 4 -> uword s' x = uword s x.

Section Insert.
Context (s : ust) (fr : list (Z * Z)) (al : gmap Z Z) (b z : Z) (l1 l2 : list (Z * Z)) (p : Z * Z).
Hypothesis Hh : heap s fr al.
Hypothesis Hblock : block s (b, z).
Hypothesis Hfree : forall x, x ∈ fr -> apart x (b, z).
Hypothesis E : ring fr = l1 ++ p :: l2.
Hypothesis Hp : fst p < b.
Hypothesis Hl : Forall (fun y => b < fst y) l2.
Hypothesis Hsz : uword s (b + 4) = z.

Lemma b_header : 0 < b /\ base + 8 <= b /\ b + 8 <= u_brk s /\ u_brk s < KERNBASE /\ b + 8 * z <= u_brk s /\ 0 < z.
Proof. destruct Hblock as (_ & Hz & H1 & H2), base_ok, (h_brk _ _ _ Hh) as [_ ?]. cbn in *. lia. Qed.

Lemma ring_apart x : x ∈ ring fr -> apart x (b, z) /\ (fst x + 8 <= b \/ b + 8 * z <= fst x).
Proof.
  pose proof b_header. intros [->|Hx]%elem_of_cons.
  - unfold apart. cbn. lia.
  - pose proof (Hfree x Hx) as Ha. pose proof (h_blocks _ _ _ Hh) as Hf. rewrite list.Forall_forall in Hf.
    destruct (Hf x Hx) as (_ & Hz & _). split; [done|]. unfold apart in Ha. cbn in Ha. lia.
Qed.

Lemma next_apart y : y ∈ l2 -> b + 8 * z <= fst y.
Proof.
  intros Hy. destruct (ring_apart y) as [_ Ha]; [rewrite E; apply elem_of_app; right; by right|].
  rewrite list.Forall_forall in Hl. specialize (Hl y Hy). cbn in Hl. lia.
Qed.

Lemma prev_apart x : x = p \/ x ∈ l1 -> fst x + 8 <= b /\ fst x + 8 * snd x <= b.
Proof.
  intros Hx. assert (x ∈ ring fr) as Hin. { rewrite E. apply elem_of_app. destruct Hx as [->|Hx]; [right; by left|by left]. }
  assert (fst x <= fst p) as Hle.
  { destruct Hx as [->|Hx]; [done|]. pose proof (h_sorted _ _ _ Hh) as Hs. rewrite E in Hs. apply sorted_mid in Hs as [Hs _].
    rewrite list.Forall_forall in Hs. destruct (Hs x Hx). lia. }
  pose proof b_header. destruct (ring_apart x Hin) as [Ha H8]. unfold apart in Ha. cbn in Ha.
  destruct (ring_elem _ _ _ _ Hh Hin) as (_ & _ & ? & _). lia.
Qed.

Lemma join_next_runs : let '(z1, l3) := merge_right b z l2 in
  exists s1, runs (free_join_next b (fst p)) s tt s1 /\ same_but b s s1 /\ uword s1 b = succ l3 /\ uword s1 (b + 4) = z1.
Proof.
  destruct b_header as (Hb0 & Hb1 & Hb2 & Hb3 & Hb4 & Hz0).
  destruct (header_ok s b Hb0 Hb2 Hb3) as (M1 & M2 & E4 & _).
  assert (p ∈ ring fr) as Hin by (by eapply split_elem).
  destruct (node_reads _ _ _ _ Hh Hin) as [Rp _]. rewrite (node_next _ _ _ _ _ _ Hh E) in Rp.
  assert (runs (get_size b) s z s) as Rb. { unfold get_size. rewrite E4, <- Hsz. by apply uload_runs. }
  assert (ptr_add b z = b + 8 * z) as Ea. { unfold ptr_add. rewrite u32_small; [done|unfold KERNBASE in *; lia]. }
  pose proof next_apart as Hna. unfold merge_right. destruct l2 as [|[q zq] l3].
  - exists (stored b base s). split; [|split; [|split]].
    + eapply runs_bind; [exact Rb|]. eapply runs_bind; [exact Rp|]. cbn [succ]. rewrite Ea.
      rewrite (proj2 (Z.eqb_neq _ _)) by lia. by apply ustore_runs.
    + split; [done|]. split; [done|]. intros x Hx _. by apply uword_stored_ne.
    + by rewrite uword_stored.
    + rewrite uword_stored_ne by lia. done.
  - pose proof (Hna (q, zq) ltac:(by left)) as Hq. cbn in Hq.
    assert (ring fr = (l1 ++ [p]) ++ (q, zq) :: l3) as E3 by (by rewrite E, <- app_assoc).
    assert ((q, zq) ∈ ring fr) as Hqin by (by eapply split_elem).
    destruct (node_reads _ _ _ _ Hh Hqin) as [Rq1 Rq2]. rewrite (node_next _ _ _ _ _ _ Hh E3) in Rq1. cbn in Rq1, Rq2.
    destruct (ring_elem _ _ _ _ Hh Hqin) as (_ & Hq8 & Hzq & Hq2). cbn in Hq8, Hzq, Hq2.
    destruct (Z.eqb_spec (b + 8 * z) q) as [Eq|Hne].
    + pose proof (ustore_runs s (b + 4) (z + zq) M2) as W1. set (s1 := stored (b + 4) (z + zq) s) in *.
      pose proof (ustore_runs s1 b (succ l3) M1) as W2. exists (stored b (succ l3) s1). split; [|split; [|split]].
      * eapply runs_bind; [exact Rb|]. eapply runs_bind; [exact Rp|]. cbn [succ fst]. rewrite Ea, Eq, Z.eqb_refl.
        eapply runs_bind; [exact Rq2|]. unfold set_size. rewrite E4, (u32_small (z + zq)) by (unfold KERNBASE in *; lia).
        eapply runs_bind; [exact W1|]. eapply runs_bind; [|exact W2].
        intros e. unfold get_ptr, uload, bind, gets. change (mapped s1 q) with (mapped s q).
        replace (mapped s q) with true. { unfold s1. rewrite uword_stored_ne by lia. by rewrite (node_next _ _ _ _ _ _ Hh E3 : uword s q = succ l3). }
        symmetry. by apply mapped_ok; [lia..|].
      * split; [done|]. split; [done|]. intros x Hx Hx4. unfold s1. by rewrite !uword_stored_ne.
      * by rewrite uword_stored.
      * rewrite uword_stored_ne by lia. unfold s1. by rewrite uword_stored.
    + exists (stored b q s). split; [|split; [|split]].
      * eapply runs_bind; [exact Rb|]. eapply runs_bind; [exact Rp|]. cbn [succ fst]. rewrite Ea.
        rewrite (proj2 (Z.eqb_neq _ _)) by lia. by apply ustore_runs.
      * split; [done|]. split; [done|]. intros x Hx _. by apply uword_stored_ne.
      * by rewrite uword_stored.
      * rewrite uword_stored_ne by lia. done.
Qed.

Lemma l2_sorted : StronglySorted gap (p :: l2).
Proof. pose proof (h_sorted _ _ _ Hh) as Hs. rewrite E in Hs. by apply StronglySorted_app_1_r in Hs. Qed.

Lemma merge_right_ok : let '(z1, l3) := merge_right b z l2 in
  z <= z1 /\ b + 8 * z1 <= u_brk s /\ StronglySorted gap ((b, z1) :: l3) /\ (forall y, y ∈ l3 -> y ∈ l2) /\
  (forall a, covered ((b, z1) :: l3) a <-> extent (b, z) a \/ covered l2 a).
Proof.
  pose proof b_header. pose proof next_apart as Hna. pose proof l2_sorted as Hs. apply StronglySorted_cons in Hs as [_ Hs].
  assert (forall y, y ∈ l2 -> y ∈ ring fr) as Hin. { intros y Hy. rewrite E. apply elem_of_app. right. by right. }
  assert (forall l, (forall y, y ∈ l -> y ∈ l2 /\ b + 8 * z < fst y) -> Forall (gap (b, z)) l) as Hgap.
  { intros l Hy. apply list.Forall_forall. intros y Hyl. destruct (Hy y Hyl). unfold gap. cbn. lia. }
  unfold merge_right. destruct l2 as [|[q zq] l3].
  - split; [done|]. split; [lia|]. split; [repeat constructor|]. split; [done|]. intros a. by rewrite covered_cons.
  - pose proof (Hna (q, zq) ltac:(by left)) as Hq. cbn in Hq. apply StronglySorted_cons in Hs as [Hf Hs].
    destruct (ring_elem _ _ _ _ Hh (Hin (q, zq) ltac:(by left))) as (_ & _ & H1 & H2). cbn in H1, H2.
    rewrite list.Forall_forall in Hf. destruct (Z.eqb_spec (b + 8 * z) q) as [Eq|Hne].
    + split; [lia|]. split; [lia|]. split; [|split].
      * apply StronglySorted_cons. split; [|done]. apply list.Forall_forall. intros y Hy. destruct (Hf y Hy) as [G1 G2].
        cbn in G1, G2. unfold gap. cbn. lia.
      * intros y Hy. by right.
      * intros a. rewrite !covered_cons. unfold extent. cbn. naive_solver lia.
    + split; [done|]. split; [lia|]. split; [|split; [done|]].
      * apply StronglySorted_cons. split; [|constructor; [done|by apply list.Forall_forall]]. apply Hgap. intros y Hy. split; [done|].
        apply elem_of_cons in Hy as [->|Hy]; cbn; [lia|]. destruct (Hf y Hy) as [G1 G2]. cbn in G1, G2. lia.
      * intros a. by rewrite covered_cons.
Qed.

(** Which of the two headers the block ends up in. *)
Lemma join_prev_runs s1 z1 n1 : same_but b s s1 -> uword s1 b = n1 -> uword s1 (b + 4) = z1 ->
  z <= z1 -> b + 8 * z1 <= u_brk s ->
  exists s2, runs (free_join_prev b (fst p)) s1 tt s2 /\ same_but (fst p) s1 s2 /\
    (if fst p + 8 * snd p =? b then uword s2 (fst p) = n1 /\ uword s2 (fst p + 4) = snd p + z1
     else uword s2 (fst p) = b /\ uword s2 (fst p + 4) = snd p).
Proof.
  intros (Eb & Ef & Ew) Hn1 Hz1 Hz Hend. destruct b_header as (Hb0 & Hb1 & Hb2 & Hb3 & Hb4 & Hz0).
  assert (p ∈ ring fr) as Hin by (by eapply split_elem).
  destruct (ring_elem _ _ _ _ Hh Hin) as (P1 & P2 & P3 & P4). destruct base_ok as [Hbase _].
  destruct (prev_apart p ltac:(by left)) as [P5 P6].
  destruct (header_ok s1 (fst p) ltac:(lia) ltac:(lia) ltac:(lia)) as (M1 & M2 & E4 & _).
  destruct (header_ok s1 b ltac:(lia) ltac:(lia) ltac:(lia)) as (B1 & B2 & B4 & _).
  assert (uword s1 (fst p + 4) = snd p) as Hps.
  { rewrite Ew by lia. pose proof (h_ring _ _ _ Hh) as Hr. rewrite E in Hr. by destruct (seg_next _ _ _ _ _ _ Hr). }
  assert (runs (get_size (fst p)) s1 (snd p) s1) as Rp. { unfold get_size. rewrite E4, <- Hps. by apply uload_runs. }
  assert (ptr_add (fst p) (snd p) = fst p + 8 * snd p) as Ea. { unfold ptr_add. rewrite u32_small; [done|unfold KERNBASE in *; lia]. }
  destruct (Z.eqb_spec (fst p + 8 * snd p) b) as [Eq|Hne].
  - assert (runs (get_size b) s1 z1 s1) as Rb. { unfold get_size. rewrite B4, <- Hz1. by apply uload_runs. }
    set (s2 := stored (fst p + 4) (snd p + z1) s1).
    exists (stored (fst p) n1 s2). split; [|split; [|split]].
    + eapply runs_bind; [exact Rp|]. rewrite Ea, Eq, Z.eqb_refl. eapply runs_bind; [exact Rb|].
      unfold set_size. rewrite E4, (u32_small (snd p + z1)) by (unfold KERNBASE in *; lia).
      eapply runs_bind; [by apply ustore_runs|]. eapply runs_bind; [by apply (uload_runs s2)|].
      replace (uword s2 b) with n1; [by apply (ustore_runs s2)|]. unfold s2. by rewrite uword_stored_ne by lia.
    + split; [done|]. split; [done|]. intros x Hx Hx4. unfold s2. by rewrite !uword_stored_ne.
    + by rewrite uword_stored.
    + rewrite uword_stored_ne by lia. unfold s2. by rewrite uword_stored.
  - exists (stored (fst p) b s1). split; [|split; [|split]].
    + eapply runs_bind; [exact Rp|]. rewrite Ea, (proj2 (Z.eqb_neq _ _)) by lia. by apply ustore_runs.
    + split; [done|]. split; [done|]. intros x Hx _. by rewrite uword_stored_ne.
    + by rewrite uword_stored.
    + rewrite uword_stored_ne by lia. done.
Qed.

Lemma merge_right_suffix : exists k, l2 = k ++ snd (merge_right b z l2).
Proof.
  unfold merge_right. destruct l2 as [|[q zq] l3]; [by exists []|]. destruct (b + 8 * z =? q); [by exists [(q, zq)]|by exists []].
Qed.

(** The list of free blocks after the insertion. *)
Record insertion (fr' : list (Z * Z)) : Prop := {
  in_ring : inserted l1 p b z l2 = ring fr';
  in_sorted : StronglySorted gap (ring fr');
  in_blocks : Forall (block s) fr';
  in_covered : forall a, covered fr' a <-> covered fr a \/ extent (b, z) a;
  in_block : exists x, x ∈ fr' /\ fst x <= b /\ b + 8 * z <= fst x + 8 * snd x;
  in_length : (length fr' <= S (length fr))%nat
}.

Lemma prev_gap x : x ∈ l1 -> gap x (b, z).
Proof.
  intros Hx. destruct (prev_apart x (or_intror Hx)) as [H1 _]. unfold gap. cbn. split; [|done].
  pose proof (h_sorted _ _ _ Hh) as Hs. rewrite E in Hs. apply sorted_mid in Hs as [Hs _].
  rewrite list.Forall_forall in Hs. destruct (Hs x Hx) as [G1 G2]. lia.
Qed.

Lemma inserted_sorted : StronglySorted gap (inserted l1 p b z l2).
Proof.
  pose proof (h_sorted _ _ _ Hh) as Hs. rewrite E in Hs. apply sorted_mid in Hs as Hmid. destruct Hmid as [Hm1 Hm2].
  rewrite list.Forall_forall in Hm1, Hm2. apply StronglySorted_app in Hs as (Hx & Hs1 & _).
  destruct (prev_apart p ltac:(by left)) as [P1 P2]. pose proof b_header.
  pose proof merge_right_ok as Hm. unfold inserted. destruct (merge_right b z l2) as [z1 l3].
  destruct Hm as (Hz & Hend & Hs3 & Hsub & _). apply StronglySorted_cons in Hs3 as [Hf3 Hs3].
  rewrite list.Forall_forall in Hf3. assert (p ∈ ring fr) as Hin by (by eapply split_elem).
  destruct (ring_elem _ _ _ _ Hh Hin) as (_ & _ & P3 & _).
  assert (forall x y, x ∈ l1 -> y ∈ l3 -> gap x y) as H13. { intros x y Hx1 Hy. apply Hx; [done|]. right. by apply Hsub. }
  destruct (Z.eqb_spec (fst p + 8 * snd p) b) as [Eq|Hne]; apply StronglySorted_app; split; [|split; [done|]| |split; [done|]].
  - intros x y Hx1 [->|Hy]%elem_of_cons; [|by apply H13]. destruct (Hm1 x Hx1). unfold gap. cbn. lia.
  - apply StronglySorted_cons. split; [|done]. apply list.Forall_forall. intros y Hy.
    destruct (Hf3 y Hy) as [G1 G2]. unfold gap in *. cbn in *. lia.
  - intros x y Hx1 [->|[->|Hy]%elem_of_cons]%elem_of_cons; [by apply Hm1|by apply prev_gap|by apply H13].
  - apply StronglySorted_cons. split; [|by apply StronglySorted_cons; split; [apply list.Forall_forall|]].
    apply list.Forall_forall. intros y [->|Hy]%elem_of_cons; [unfold gap; cbn; lia|]. apply Hm2. by apply Hsub.
Qed.

Lemma fr_split x l1' : l1 = x :: l1' -> x = (base, 0) /\ fr = l1' ++ p :: l2.
Proof. intros El. pose proof E as E'. rewrite El in E'. injection E' as -> ->. done. Qed.

Lemma fr_split0 : l1 = [] -> p = (base, 0) /\ fr = l2.
Proof. intros El. pose proof E as E'. rewrite El in E'. injection E' as <- ->. done. Qed.

Lemma insertion_ok : exists fr', insertion fr'.
Proof.
  pose proof inserted_sorted as Hs. pose proof merge_right_ok as Hm. pose proof b_header as Hb.
  pose proof (h_blocks _ _ _ Hh) as Hbl. rewrite list.Forall_forall in Hbl. destruct Hblock as (Bm & _ & Blo & _). cbn in Bm, Blo.
  destruct merge_right_suffix as [k Ek]. apply (f_equal length) in Ek. rewrite length_app in Ek.
  unfold inserted in Hs. destruct (merge_right b z l2) as [z1 l3] eqn:Emr. cbn [snd] in Ek. destruct Hm as (Hz & Hend & _ & Hsub & Hcov).
  setoid_rewrite covered_cons in Hcov.
  assert (block s (b, z1)) as Hb1 by (unfold block; cbn; lia).
  assert (l1 = [] \/ exists x l1', l1 = x :: l1') as [El1|(x & l1' & El1)] by (destruct l1; eauto); rewrite El1 in Hs.
  - destruct (fr_split0 El1) as [Ep Efr]. rewrite Ep in Hs. cbn [fst snd] in Hs. rewrite (proj2 (Z.eqb_neq (base + 8 * 0) b)) in Hs by lia.
    exists ((b, z1) :: l3). split; [|done| | | |].
    + unfold inserted. rewrite Emr, El1, Ep. cbn [fst snd]. by rewrite (proj2 (Z.eqb_neq (base + 8 * 0) b)) by lia.
    + constructor; [done|]. apply list.Forall_forall. intros y Hy. apply Hbl. rewrite Efr. by apply Hsub.
    + intros a. rewrite covered_cons, Hcov, Efr. tauto.
    + exists (b, z1). split; [by left|]. cbn. lia.
    + rewrite Efr. cbn. lia.
  - destruct (fr_split x l1' El1) as [-> Efr].
    assert (block s p) as Hpb. { apply Hbl. rewrite Efr. apply elem_of_app. right. by left. }
    assert (Forall (block s) l1' /\ Forall (block s) l3) as [HF1 HF3].
    { split; apply list.Forall_forall; intros y Hy; apply Hbl; rewrite Efr; apply elem_of_app; [by left|right; right; by apply Hsub]. }
    destruct Hpb as (Pm & Pz & Plo & Phi).
    destruct (Z.eqb_spec (fst p + 8 * snd p) b) as [Eq|Hne].
    + exists (l1' ++ (fst p, snd p + z1) :: l3). split; [|done| | | |].
      * unfold inserted. by rewrite Emr, El1, (proj2 (Z.eqb_eq _ _) Eq).
      * apply Forall_app. split; [done|]. constructor; [|done]. unfold block. cbn. lia.
      * intros a. rewrite Efr, !covered_app, !covered_cons. specialize (Hcov a). unfold extent in *. cbn in *.
        assert (fst p <= a < fst p + 8 * (snd p + z1) <-> fst p <= a < fst p + 8 * snd p \/ b <= a < b + 8 * z1) as -> by lia. tauto.
      * exists (fst p, snd p + z1). split; [apply elem_of_app; right; by left|]. cbn. lia.
      * rewrite Efr, !length_app. cbn. lia.
    + exists (l1' ++ p :: (b, z1) :: l3). split; [|done| | | |].
      * unfold inserted. by rewrite Emr, El1, (proj2 (Z.eqb_neq _ _) Hne).
      * apply Forall_app. split; [done|]. constructor; [done|]. by constructor.
      * intros a. rewrite Efr, !covered_app, !covered_cons. specialize (Hcov a). tauto.
      * exists (b, z1). split; [apply elem_of_app; right; right; by left|]. cbn. lia.
      * rewrite Efr, !length_app. cbn. lia.
Qed.

(** The two joins turn the ring into the one with the block inserted. *)
Lemma joins_run : exists s2, runs (do free_join_next b (fst p); free_join_prev b (fst p)) s tt s2 /\
  u_brk s2 = u_brk s /\ seg s2 base (inserted l1 p b z l2) base /\
  (forall a, ~ (fst p <= a < fst p + 8) -> ~ (b <= a < b + 8) -> uword s2 a = uword s a).
Proof.
  pose proof b_header as Hb. pose proof join_next_runs as J. pose proof merge_right_ok as Hm. destruct merge_right_suffix as [k Ek].
  pose proof next_apart as Hna. pose proof prev_apart as Hpa. destruct (Hpa p ltac:(by left)) as [P1 P2].
  unfold inserted. destruct (merge_right b z l2) as [z1 l3]. cbn [snd] in Ek. destruct Hm as (Hz & Hend & _ & Hsub & _).
  destruct J as (s1 & R1 & (B1 & F1 & W1) & N1 & Z1).
  destruct (join_prev_runs s1 z1 (succ l3)) as (s2 & R2 & (B2 & F2 & W2) & HW); [done..|].
  assert (forall a, ~ (fst p <= a < fst p + 8) -> ~ (b <= a < b + 8) -> uword s2 a = uword s a) as HW2.
  { intros a Ha1 Ha2. rewrite W2, W1 by lia. done. }
  exists s2. split; [by eapply runs_bind|]. split; [congruence|]. split; [|done].
  pose proof (h_ring _ _ _ Hh) as Hr. rewrite E in Hr. pose proof (h_sorted _ _ _ Hh) as Hs. rewrite E in Hs.
  apply sorted_mid in Hs as [Hs1 _]. rewrite list.Forall_forall in Hs1.
  assert (seg s2 base l1 (fst p)) as S1.
  { apply seg_app in Hr as (c & Hr1 & Hr2). destruct p as [pa pz]. destruct Hr2 as (-> & _). eapply seg_frame; [|exact Hr1].
    intros x Hx. destruct (Hs1 x Hx) as [_ G]. destruct (Hpa x (or_intror Hx)) as [G' _]. cbn in *. split; apply HW2; lia. }
  assert (seg s2 (succ l3) l3 base) as S3.
  { rewrite Ek in Hr. change (p :: k ++ l3) with ((p :: k) ++ l3) in Hr. rewrite app_assoc in Hr. apply seg_suffix in Hr.
    eapply seg_frame; [|exact Hr]. intros y Hy. specialize (Hna y (Hsub y Hy)). split; apply HW2; lia. }
  destruct (fst p + 8 * snd p =? b); apply seg_app; exists (fst p); (split; [exact S1|]); destruct HW as [HW HZ].
  - cbn. rewrite HW, HZ. done.
  - destruct p as [pa pz]. cbn in *. rewrite HW, HZ, !W2, N1, Z1 by lia. done.
Qed.
End Insert.

(** A block that is neither free nor allocated is put on the free list. *)
Lemma free_spec s fr al b z : heap s fr al -> block s (b, z) -> (forall x, x ∈ fr -> apart x (b, z)) ->
  (forall a w, al !! a = Some w -> apart (a, w) (b, z)) -> uword s (b + 4) = z ->
  exists s' fr', runs (free (b + 8)) s tt s' /\ heap s' fr' al /\ keeps al s s' /\ u_brk s' = u_brk s /\
    (length fr' <= S (length fr))%nat /\ (forall a, covered fr' a <-> covered fr a \/ extent (b, z) a) /\
    (exists x, x ∈ fr' /\ fst x <= b /\ b + 8 * z <= fst x + 8 * snd x).
Proof.
  intros Hh Hblock Hfr Hal Hsz. destruct (b_header s fr al b z Hh Hblock) as (Hb0 & Hb1 & Hb2 & Hb3 & Hb4 & Hz0).
  destruct (split_at fr b (base, 0)) as (l1 & p & l2 & E & Hp & Hl).
  { apply (h_sorted _ _ _ Hh). } { cbn. lia. }
  { intros y Hy Ey. destruct (ring_apart s fr al b z Hh Hblock Hfr y Hy) as [Ha H8]. unfold apart in Ha. cbn in *. lia. }
  destruct (insertion_ok s fr al b z l1 l2 p Hh Hblock Hfr E Hp Hl Hsz) as [fr' [Ir Is Ib Ic Ix Il]].
  destruct (joins_run s fr al b z l1 l2 p Hh Hblock Hfr E Hp Hl Hsz) as (s2 & R2 & B2 & S2 & W2).
  pose proof (free_find_runs s fr al b Hh ltac:(lia) l1 p l2 E Hp Hl) as R1.
  assert (p ∈ ring fr) as Hpin by (by eapply split_elem).
  assert (forall a w c, al !! a = Some w -> a <= c < a + 8 * w -> uword s2 c = uword s c) as Hkeep.
  { intros a w c Ha Hc. destruct (h_al _ _ _ Hh a w Ha) as [(_ & Hw & Hlo & Hhi) _]. cbn in *. destruct base_ok as [_ Hbl].
    apply W2.
    - apply elem_of_cons in Hpin as [->|Hpin]; cbn; [lia|]. pose proof (h_apart _ _ _ Hh p a w Hpin Ha) as Hap.
      pose proof (h_blocks _ _ _ Hh) as HB. rewrite list.Forall_forall in HB. destruct (HB p Hpin) as (_ & Hpz & _).
      unfold apart in Hap. cbn in *. lia.
    - pose proof (Hal a w Ha) as Hap. unfold apart in Hap. cbn in *. lia. }
  exists (set_u_freep (fst p) s2), fr'. split; [|split; [|split; [|split; [|split; [|split]]]]]; [| |done..].
  - intros e. unfold free. replace (b + 8 - 8) with b by lia. rewrite (u32_small b) by (unfold KERNBASE in *; lia).
    specialize (R1 e). specialize (R2 e). unfold bind, gets in *. rewrite R1.
    revert R2. destruct (free_join_next b (fst p) s e) as [[] s1 e1| | | |]; intros R2; try done. by rewrite R2.
  - split; try done.
    + cbn. rewrite B2. apply (h_brk _ _ _ Hh).
    + rewrite <- Ir. by eapply seg_frame; [|exact S2].
    + cbn [set_u_freep u_freep]. rewrite <- Ir. unfold inserted. destruct (merge_right b z l2) as [z1 l3].
      destruct (_ =? b); rewrite fmap_app; apply elem_of_app; right; by left.
    + eapply list.Forall_impl; [exact Ib|]. intros x. unfold block. cbn. by rewrite B2.
    + intros a w Ha. destruct (h_al _ _ _ Hh a w Ha) as [HB Hw]. split; [unfold block in *; cbn; by rewrite B2|].
      change (uword s2 (a + 4) = w). rewrite (Hkeep a w); [done|done|]. destruct HB as (_ & ? & _). cbn in *. lia.
    + apply (h_al_apart _ _ _ Hh).
    + intros x a w Hx Ha. pose proof Ib as Ib'. rewrite list.Forall_forall in Ib'. destruct (Ib' x Hx) as (_ & Hxz & _).
      destruct (h_al _ _ _ Hh a w Ha) as [(_ & Hw & _) _]. cbn in Hw. apply apart_extent; [done|done|]. intros c Hc1 Hc2.
      assert (covered fr' c) as Hc by (by exists x). apply Ic in Hc as [(y & Hy & Hyc)|Hc].
      * pose proof (h_apart _ _ _ Hh y a w Hy Ha) as Hap. unfold apart, extent in *. cbn in *. lia.
      * pose proof (Hal a w Ha) as Hap. unfold apart, extent in *. cbn in *. lia.
Qed.

(** ** Growing the heap *)
Lemma heap_same s s' fr al : heap s fr al -> u_brk s' mod 8 = 0 -> u_brk s <= u_brk s' < KERNBASE -> u_freep s' = u_freep s ->
  (forall a, a < u_brk s -> uword s' a = uword s a) -> heap s' fr al.
Proof.
  intros Hh Hm Hb Hf Hw. assert (forall x, block s x -> block s' x) as HB by (unfold block; intros x; lia).
  split.
  - destruct (h_brk _ _ _ Hh). split; [done|lia].
  - eapply seg_frame; [|exact (h_ring _ _ _ Hh)]. intros x Hx. destruct (ring_elem _ _ _ _ Hh Hx) as (_ & ? & _).
    split; apply Hw; lia.
  - rewrite Hf. apply (h_freep _ _ _ Hh).
  - eapply list.Forall_impl; [exact (h_blocks _ _ _ Hh)|]. done.
  - apply (h_sorted _ _ _ Hh).
  - intros a z Ha. destruct (h_al _ _ _ Hh a z Ha) as [Hbl Hz]. split; [by apply HB|].
    destruct Hbl as (_ & ? & _ & ?). cbn in *. rewrite Hw; [done|lia].
  - apply (h_al_apart _ _ _ Hh).
  - apply (h_apart _ _ _ Hh).
Qed.

(** The size [morecore] asks for. *)
Definition core_units (nu : Z) : Z := if nu <? 4096 then 4096 else nu.

Definition refused (s : ust) (nu : Z) : Prop :=
  KERNBASE <= u_brk s + 8 * core_units nu \/ grants (u_brk s) (u_brk s + 8 * core_units nu) = false.

Lemma core_units_bound nu : 0 < nu < 2 ^ 28 -> nu <= core_units nu /\ 4096 <= core_units nu < 2 ^ 28.
Proof. unfold core_units. destruct (Z.ltb_spec nu 4096); lia. Qed.

Lemma sbrk_runs s nu : 0 < nu < 2 ^ 28 -> 0 <= u_brk s < KERNBASE ->
  let n := 8 * core_units nu in
  runs (sbrk n) s (-1) s /\ refused s nu \/
  u_brk s + n < KERNBASE /\ runs (sbrk n) s (u_brk s) (set_u_brk (u_brk s + n) s).
Proof.
  intros Hnu Hb. cbn zeta. destruct (core_units_bound nu Hnu) as [H1 H2]. unfold KERNBASE in Hb.
  unfold runs, sbrk, bind, gets. rewrite u32_small by lia. rewrite (proj2 (Z.ltb_lt 0 _)) by lia. unfold refused.
  destruct (Z.leb_spec KERNBASE (u_brk s + 8 * core_units nu)); [left; by auto|].
  rewrite (proj2 (Z.ltb_ge (u_brk s + 8 * core_units nu) (u_brk s))) by lia. destruct (grants _ _); [by right|left; by auto].
Qed.

Lemma morecore_spec s fr al nu : heap s fr al -> 0 < nu < 2 ^ 28 ->
  runs (morecore nu) s 0 s /\ refused s nu \/
  exists s' fr', runs (morecore nu) s (u_freep s') s' /\ heap s' fr' al /\ keeps al s s' /\
    u_brk s' = u_brk s + 8 * core_units nu /\ Exists (fun x => nu <= snd x) fr' /\ (length fr' <= S (length fr))%nat /\
    (forall a, covered fr' a <-> covered fr a \/ u_brk s <= a < u_brk s').
Proof.
  intros Hh Hnu. destruct (h_brk _ _ _ Hh) as [Hm Hb]. destruct base_ok as [Hb0 Hb1].
  destruct (core_units_bound nu Hnu) as [C1 C2]. set (n := core_units nu) in *.
  assert (i32 (n * 8) = 8 * n) as Ei by (rewrite i32_small; lia).
  destruct (sbrk_runs s nu Hnu ltac:(unfold KERNBASE in *; lia)) as [[R Href]|[Hk R]].
  { left. split; [|done]. intros e. unfold morecore. fold (core_units nu). fold n. rewrite Ei. unfold bind. by rewrite R. }
  fold n in R. set (b := u_brk s) in *. set (s1 := set_u_brk (b + 8 * n) s) in *.
  destruct (header_ok s1 b ltac:(lia) ltac:(cbn; lia) Hk) as (M1 & M2 & E4 & _).
  pose proof (ustore_runs s1 (b + 4) n M2) as W. set (s2 := stored (b + 4) n s1) in *.
  assert (heap s2 fr al) as Hh2.
  { apply (heap_same s); [done| | |done|]; cbn; fold b; [|lia|].
    - rewrite Z.add_mod, Hm, (Z.mul_comm 8), Z.mod_mul by lia. done.
    - intros a Ha. unfold s2. by rewrite uword_stored_ne by lia. }
  destruct (free_spec s2 fr al b n Hh2) as (s' & fr' & RF & Hh' & Hk' & B' & Hlen & Hc & x & Hx & X1 & X2).
  { unfold block. cbn. fold b. lia. }
  { intros x Hx. pose proof (h_blocks _ _ _ Hh) as HB. rewrite list.Forall_forall in HB. destruct (HB x Hx) as (_ & _ & _ & ?).
    left. cbn. done. }
  { intros a w Ha. destruct (h_al _ _ _ Hh a w Ha) as [(_ & _ & _ & ?) _]. left. cbn in *. done. }
  { unfold s2. by rewrite uword_stored. }
  right. exists s', fr'. split; [|split; [done|split; [|split; [done|split; [|split; [done|]]]]]].
  - intros e. unfold morecore. fold (core_units nu). fold n. rewrite Ei. unfold bind. rewrite R.
    rewrite (proj2 (Z.eqb_neq b (-1))) by lia. unfold set_size. rewrite E4, W. unfold ptr_add.
    rewrite u32_small by (unfold KERNBASE in *; lia). replace (b + 8 * 1) with (b + 8) by lia. by rewrite RF.
  - intros a w c Ha Hc'. rewrite (Hk' a w c Ha Hc'). unfold s2. destruct (h_al _ _ _ Hh a w Ha) as [(_ & _ & _ & ?) _].
    unfold extent in Hc'. cbn in *. by rewrite uword_stored_ne by lia.
  - apply list.Exists_exists. exists x. split; [done|]. lia.
  - intros a. rewrite Hc, B'. done.
Qed.

(** ** Taking a block *)

(** [n] headers at [q] were free in [s] and are allocated in [s']. *)
Record taken (s : ust) (fr : list (Z * Z)) (al : gmap Z Z) (q n : Z) (s' : ust) (fr' : list (Z * Z)) : Prop := {
  tk_heap : heap s' fr' (<[q := n]> al);
  tk_fresh : al !! q = None;
  tk_keeps : keeps al s s';
  tk_brk : u_brk s' = u_brk s;
  tk_covered : forall a, covered fr a <-> covered fr' a \/ extent (q, n) a
}.

Lemma extent_start x : 0 < snd x -> extent x (fst x).
Proof. unfold extent. lia. Qed.

Lemma taken_intro s fr al q n s' fr' : heap s fr al ->
  u_brk s' = u_brk s -> seg s' base (ring fr') base -> u_freep s' ∈ (ring fr').*1 -> Forall (block s) fr' ->
  StronglySorted gap (ring fr') -> block s (q, n) -> uword s' (q + 4) = n ->
  (forall a, ~ covered fr a -> ~ (base <= a < base + 8) -> uword s' a = uword s a) ->
  (forall x, x ∈ fr' -> apart x (q, n)) -> (forall a, covered fr a <-> covered fr' a \/ extent (q, n) a) ->
  taken s fr al q n s' fr'.
Proof.
  intros Hh Eb Hr Hf HB Hs Hq Hn Hw Ha Hc.
  assert (forall x a w, (forall c, extent x c -> covered fr c) -> 0 < snd x -> al !! a = Some w -> apart x (a, w)) as Hap.
  { intros x a w Hx Hx0 Haw. destruct (h_al _ _ _ Hh a w Haw) as [(_ & Hw0 & _) _]. apply apart_extent; [done|done|].
    intros c Hc1 Hc2. destruct (Hx c Hc1) as (y & Hy & Hyc). pose proof (h_apart _ _ _ Hh y a w Hy Haw) as H1.
    unfold apart, extent in *. cbn in *. lia. }
  pose proof Hq as (_ & Hn0 & _). cbn in Hn0.
  assert (forall a w, al !! a = Some w -> apart (q, n) (a, w)) as Hqa.
  { intros a w. apply Hap; [|done]. intros c Hc'. apply Hc. by right. }
  assert (keeps al s s') as Hk.
  { intros a w c Haw Hcx. pose proof (h_al _ _ _ Hh a w Haw) as [(_ & _ & Hlo & _) _]. destruct base_ok as [_ Hbl].
    apply Hw; [|unfold extent in Hcx; cbn in *; lia]. intros (y & Hy & Hyc). pose proof (h_apart _ _ _ Hh y a w Hy Haw) as H1.
    unfold apart, extent in *. cbn in *. lia. }
  assert (forall x, block s x <-> block s' x) as HB' by (unfold block; by rewrite Eb).
  split; try done.
  - split; try done.
    + rewrite Eb. apply (h_brk _ _ _ Hh).
    + eapply list.Forall_impl; [exact HB|]. intros x. apply HB'.
    + intros a w [[<- <-]|[Hne Haw]]%lookup_insert_Some; [split; [by apply HB'|done]|].
      destruct (h_al _ _ _ Hh a w Haw) as [B1 B2]. split; [by apply HB'|]. destruct B1 as (_ & B1 & _). rewrite (Hk a w); [done|done|].
      unfold extent. cbn in *. lia.
    + intros a w b v [[<- <-]|[H1 Haw]]%lookup_insert_Some [[<- <-]|[H2 Hbv]]%lookup_insert_Some Hne; [done|by apply Hqa|by apply apart_sym, Hqa|].
      by apply (h_al_apart _ _ _ Hh).
    + intros x a w Hx [[<- <-]|[H1 Haw]]%lookup_insert_Some; [by apply Ha|]. apply Hap; [|by rewrite list.Forall_forall in HB; destruct (HB x Hx) as (_ & ? & _)|done].
      intros c Hcx. apply Hc. left. by exists x.
  - destruct (al !! q) as [w|] eqn:Haw; [|done]. pose proof (Hqa q w Haw) as H1. destruct (h_al _ _ _ Hh q w Haw) as [(_ & H2 & _) _].
    unfold apart in H1. cbn in *. lia.
Qed.

(** Two nodes with the same successor are the same. *)
Lemma split_unique l1 : forall l1' (x x' : Z * Z) l2 l2', StronglySorted gap (l1 ++ x :: l2) ->
  l1 ++ x :: l2 = l1' ++ x' :: l2' -> fst x = fst x' -> l1 = l1' /\ x = x' /\ l2 = l2'.
Proof.
  induction l1 as [|y l1 IH]; intros [|y' l1'] x x' l2 l2' Hs E Ex; cbn in *.
  - by injection E as -> ->.
  - injection E as <- ->. apply StronglySorted_cons in Hs as [Hf _]. rewrite list.Forall_forall in Hf.
    destruct (Hf x') as [_ ?]; [apply elem_of_app; right; by left|lia].
  - injection E as -> <-. apply StronglySorted_cons in Hs as [Hf _]. rewrite list.Forall_forall in Hf.
    destruct (Hf x) as [_ ?]; [apply elem_of_app; right; by left|lia].
  - injection E as -> E. apply StronglySorted_cons in Hs as [_ Hs]. by destruct (IH l1' x x' l2 l2' Hs E Ex) as (-> & -> & ->).
Qed.

(** The node before a free block, found by following the list. *)
Lemma pred_split s fr al pv p z l1 l2 : heap s fr al -> fr = l1 ++ (p, z) :: l2 -> pv ∈ (ring fr).*1 -> uword s pv = p ->
  exists k x, ring fr = k ++ x :: (p, z) :: l2 /\ ring l1 = k ++ [x] /\ fst x = pv.
Proof.
  intros Hh E Hpv Hw. apply list_elem_of_fmap in Hpv as (x & -> & Hx). destruct (list_elem_of_split _ _ Hx) as (k & m & Ek).
  pose proof (node_next _ _ _ _ _ _ Hh Ek) as Hn. rewrite Hn in Hw.
  assert (base < p) as Hbp.
  { pose proof (h_sorted _ _ _ Hh) as Hs. apply StronglySorted_cons in Hs as [Hf _]. rewrite list.Forall_forall in Hf.
    destruct (Hf (p, z)) as [_ ?]; [rewrite E; apply elem_of_app; right; by left|]. cbn in *. lia. }
  destruct m as [|[q w] m]; cbn in Hw; [lia|]. subst q.
  assert (ring fr = ring l1 ++ (p, z) :: l2) as E1 by (by rewrite E).
  assert (ring fr = (k ++ [x]) ++ (p, w) :: m) as E2 by (by rewrite <- app_assoc).
  destruct (split_unique (ring l1) (k ++ [x]) (p, z) (p, w) l2 m) as (H1 & H2 & H3); [by rewrite <- E1; apply (h_sorted _ _ _ Hh)|congruence|done|].
  exists k, x. rewrite E2, <- app_assoc, H2, H3. done.
Qed.

Section Take.
Context (s : ust) (fr : list (Z * Z)) (al : gmap Z Z) (pv p z : Z) (l1 l2 : list (Z * Z)) (n : Z).
Hypothesis Hh : heap s fr al.
Hypothesis E : fr = l1 ++ (p, z) :: l2.
Hypothesis Hpv : pv ∈ (ring fr).*1.
Hypothesis Hnext : uword s pv = p.
Hypothesis Hn : 0 < n <= z.

Lemma p_elem : (p, z) ∈ fr.
Proof. rewrite E. apply elem_of_app. right. by left. Qed.

Lemma p_block : p mod 8 = 0 /\ heap_lo <= p /\ p + 8 * z <= u_brk s /\ u_brk s < KERNBASE /\ 0 < base /\ base + 8 <= p.
Proof.
  pose proof (h_blocks _ _ _ Hh) as HB. rewrite list.Forall_forall in HB. destruct (HB _ p_elem) as (H1 & _ & H2 & H3).
  destruct base_ok, (h_brk _ _ _ Hh). cbn in *. lia.
Qed.

(** The other free blocks are before or after the block. *)
Lemma p_apart y : y ∈ l1 ++ l2 -> block s y /\ (fst y + 8 * snd y < p \/ p + 8 * z < fst y).
Proof.
  intros Hy. pose proof (h_blocks _ _ _ Hh) as HB. rewrite list.Forall_forall in HB. pose proof (h_sorted _ _ _ Hh) as Hs.
  apply StronglySorted_cons in Hs as [_ Hs]. rewrite E in Hs. apply sorted_mid in Hs as [H1 H2]. rewrite list.Forall_forall in H1, H2.
  split; [apply HB; rewrite E|]; apply elem_of_app in Hy as [Hy|Hy].
  - apply elem_of_app. by left.
  - apply elem_of_app. right. by right.
  - left. by destruct (H1 y Hy).
  - right. by destruct (H2 y Hy).
Qed.

Lemma ring_fr : ring fr = ring l1 ++ (p, z) :: l2.
Proof. by rewrite E. Qed.

Lemma covered_fr a : covered fr a <-> covered (l1 ++ l2) a \/ extent (p, z) a.
Proof. rewrite E, !covered_app, covered_cons. tauto. Qed.

Lemma sorted_rest : StronglySorted gap (ring (l1 ++ l2)).
Proof.
  pose proof (h_sorted _ _ _ Hh) as Hs. rewrite ring_fr in Hs. unfold ring in *. rewrite app_comm_cons.
  apply StronglySorted_app in Hs as (H1 & H2 & H3). apply StronglySorted_cons in H3 as [_ H3]. apply StronglySorted_app.
  split; [|done]. intros x y Hx Hy. apply H1; [done|by right].
Qed.

Lemma take_whole : exists s', taken s fr al p z s' (l1 ++ l2) /\
  forall e, (let! nx := get_ptr p in do set_ptr pv nx; do modify (set_u_freep pv); ret (ptr_add p 1)) s e = Ok (p + 8) s' e.
Proof.
  destruct p_block as (Hm & Hlo & Hhi & Hk & Hb0 & Hb8). destruct (node_reads _ _ _ (p, z) Hh) as [Rp _]; [right; apply p_elem|].
  pose proof (node_next _ _ _ _ _ _ Hh ring_fr) as Ep. cbn in Rp, Ep. rewrite Ep in Rp.
  destruct (pred_split _ _ _ _ _ _ _ _ Hh E Hpv Hnext) as (k & x & Ek & El & Ex).
  assert (x ∈ ring fr) as Hxin by (rewrite Ek; apply elem_of_app; right; by left).
  destruct (ring_elem _ _ _ _ Hh Hxin) as (X1 & X2 & _).
  destruct (header_ok s pv ltac:(lia) ltac:(lia) Hk) as (M1 & _). pose proof (ustore_runs s pv (succ l2) M1) as W.
  exists (set_u_freep pv (stored pv (succ l2) s)). split.
  - assert (ring (l1 ++ l2) = k ++ x :: l2) as Er.
    { change (ring (l1 ++ l2)) with (ring l1 ++ l2). by rewrite El, <- app_assoc. }
    pose proof sorted_rest as Hs. apply taken_intro; try done.
    + rewrite Er. apply (seg_frame (stored pv (succ l2) s)); [done|]. pose proof (h_ring _ _ _ Hh) as Hr. rewrite Ek in Hr.
      pose proof Hr as Hr2. change (x :: (p, z) :: l2) with ([x; (p, z)] ++ l2) in Hr2. rewrite app_assoc in Hr2. apply seg_suffix in Hr2.
      rewrite Er in Hs. apply sorted_mid in Hs as [Hs1 Hs2]. rewrite list.Forall_forall in Hs1, Hs2.
      apply seg_app in Hr as (c & Hr1 & Hr). destruct x as [xa xz]. cbn in Ex, Hr. destruct Hr as (-> & Hxz & _). subst xa.
      apply seg_app. exists pv. split.
      * eapply seg_frame; [|exact Hr1]. intros y Hy. destruct (Hs1 y Hy) as [_ G]. cbn in G. split; apply uword_stored_ne; lia.
      * cbn. rewrite uword_stored, uword_stored_ne by lia. split; [done|]. split; [done|].
        eapply seg_frame; [|exact Hr2]. intros y Hy. destruct (Hs2 y Hy) as [_ G]. cbn in G. split; apply uword_stored_ne; lia.
    + rewrite Er, fmap_app. apply elem_of_app. right. cbn. rewrite Ex. by left.
    + apply list.Forall_forall. intros y Hy. by apply p_apart.
    + unfold block. cbn. lia.
    + cbn. change (uword (stored pv (succ l2) s) (p + 4) = z). pose proof (h_ring _ _ _ Hh) as Hr. rewrite ring_fr in Hr.
      destruct (seg_next _ _ _ _ _ _ Hr) as [Hz _]. cbn in Hz. destruct (sorted_mid _ _ _ (eq_ind _ _ (h_sorted _ _ _ Hh) _ ring_fr)) as [Hs1 _].
      rewrite list.Forall_forall in Hs1. destruct (Hs1 x) as [_ G]; [rewrite El; apply elem_of_app; right; by left|]. cbn in G.
      by rewrite uword_stored_ne by lia.
    + intros a Ha Hab. change (uword (stored pv (succ l2) s) a = uword s a). apply uword_stored_ne. intros <-.
      apply elem_of_cons in Hxin as [->|Hxin]; [cbn in *; lia|]. apply Ha. exists x. split; [done|]. rewrite <- Ex. apply extent_start.
      pose proof (h_blocks _ _ _ Hh) as HB. rewrite list.Forall_forall in HB. by destruct (HB x Hxin) as (_ & ? & _).
    + intros y Hy. destruct (p_apart y Hy) as [_ G]. unfold apart. cbn. lia.
    + apply covered_fr.
  - intros e. unfold bind. rewrite Rp. unfold set_ptr. rewrite W. cbn. unfold ptr_add. rewrite u32_small by (unfold KERNBASE in *; lia). done.
Qed.

Lemma take_part : z <> n -> exists s', taken s fr al (p + 8 * (z - n)) n s' (l1 ++ (p, z - n) :: l2) /\
  forall e, (let! p' := (do set_size p (u32 (z - n)); let! sz := get_size p in let p := ptr_add p sz in do set_size p n; ret p) in
             do modify (set_u_freep pv); ret (ptr_add p' 1)) s e = Ok (p + 8 * (z - n) + 8) s' e.
Proof.
  intros Hne. destruct p_block as (Hm & Hlo & Hhi & Hk & Hb0 & Hb8). set (q := p + 8 * (z - n)).
  destruct (header_ok s p ltac:(lia) ltac:(lia) Hk) as (_ & M2 & E4 & _). destruct (header_ok s q ltac:(lia) ltac:(lia) Hk) as (_ & Q2 & Q4 & Q0).
  pose proof (ustore_runs s (p + 4) (z - n) M2) as W1. set (s1 := stored (p + 4) (z - n) s) in *.
  pose proof (ustore_runs s1 (q + 4) n Q2) as W2. pose proof (uload_runs s1 (p + 4) M2) as R1.
  replace (uword s1 (p + 4)) with (z - n) in R1 by (unfold s1; by rewrite uword_stored).
  set (s2 := stored (q + 4) n s1) in *. exists (set_u_freep pv s2).
  assert (forall a, a <> p + 4 -> a <> q + 4 -> uword s2 a = uword s a) as HW.
  { intros a H1 H2. unfold s2, s1. by rewrite !uword_stored_ne. }
  split.
  - assert (ring (l1 ++ (p, z - n) :: l2) = ring l1 ++ (p, z - n) :: l2) as Er by done.
    pose proof (h_sorted _ _ _ Hh) as Hs. rewrite ring_fr in Hs. pose proof (sorted_mid _ _ _ Hs) as [Hs1 Hs2]. rewrite list.Forall_forall in Hs1, Hs2.
    apply taken_intro; try done.
    + rewrite Er. apply (seg_frame s2); [done|]. pose proof (h_ring _ _ _ Hh) as Hr. rewrite ring_fr in Hr. apply seg_app in Hr as (c & Hr1 & Hr2).
      destruct Hr2 as (-> & Hz & Hr2). apply seg_app. exists p. split; [|cbn; rewrite (HW p) by lia; split; [done|split]].
      * eapply seg_frame; [|exact Hr1]. intros y Hy. destruct (Hs1 y Hy) as [_ G]. cbn in G. split; apply HW; lia.
      * unfold s2. rewrite uword_stored_ne by lia. unfold s1. apply uword_stored.
      * eapply seg_frame; [|exact Hr2]. intros y Hy. destruct (Hs2 y Hy) as [G _]. cbn in G. split; apply HW; lia.
    + change (pv ∈ (ring (l1 ++ (p, z - n) :: l2)).*1). rewrite ring_fr in Hpv. rewrite Er. rewrite fmap_app in *. done.
    + apply list.Forall_forall. intros y Hy. rewrite elem_of_app, elem_of_cons in Hy. destruct Hy as [Hy|[->|Hy]].
      * apply p_apart. apply elem_of_app. by left.
      * unfold block. cbn. lia.
      * apply p_apart. apply elem_of_app. by right.
    + rewrite Er. apply StronglySorted_app in Hs as (H1 & H2 & H3). apply StronglySorted_cons in H3 as [H3 H4].
      apply StronglySorted_app. split; [|split; [done|]].
      * intros x y Hx [->|Hy]%elem_of_cons; [exact (Hs1 x Hx)|]. apply H1; [done|by right].
      * apply StronglySorted_cons. split; [|done]. apply list.Forall_forall. intros y Hy. destruct (Hs2 y Hy) as [G1 G2]. unfold gap in *. cbn in *. lia.
    + unfold block. cbn. unfold q. split; [|lia]. rewrite Z.add_mod, Hm, (Z.mul_comm 8), Z.mod_mul by lia. done.
    + change (uword s2 (q + 4) = n). apply uword_stored.
    + intros a Ha Hab. change (uword s2 a = uword s a). apply HW; intros ->; apply Ha; exists (p, z); (split; [apply p_elem|]); unfold extent; cbn; lia.
    + intros y. rewrite elem_of_app, elem_of_cons. intros [Hy|[->|Hy]].
      * destruct (p_apart y) as [_ G]; [apply elem_of_app; by left|]. unfold apart. cbn. lia.
      * left. cbn. lia.
      * destruct (p_apart y) as [_ G]; [apply elem_of_app; by right|]. unfold apart. cbn. lia.
    + intros a. rewrite covered_fr, !covered_app, covered_cons. unfold extent. cbn.
      assert (p <= a < p + 8 * z <-> p <= a < p + 8 * (z - n) \/ q <= a < q + 8 * n) as -> by lia. tauto.
  - intros e. unfold KERNBASE in Hk. unfold bind, set_size, get_size. rewrite E4, (u32_small (z - n)) by lia. rewrite W1, R1. cbn zeta.
    unfold ptr_add at 1. fold q. rewrite Q0, Q4, W2. cbn. f_equal. unfold ptr_add. fold q. rewrite Q0, u32_small; lia.
Qed.

Lemma take_spec f : exists q s' fr', runs (malloc_loop (S f) n pv p) s (q + 8) s' /\ taken s fr al q n s' fr'.
Proof.
  destruct (node_reads _ _ _ (p, z) Hh) as [_ Rz]; [right; apply p_elem|]. cbn in Rz.
  assert ((n <=? z) = true) as Hle by (apply Z.leb_le; lia).
  destruct (Z.eq_dec z n) as [Ez|Hne].
  - destruct take_whole as (s' & Ht & R). exists p, s', (l1 ++ l2). rewrite <- Ez. split; [|done]. intros e. cbn [malloc_loop].
    rewrite <- R. unfold bind. rewrite Rz, Z.leb_refl, Z.eqb_refl. destruct (get_ptr p s e); try done. by destruct (set_ptr _ _ _ _).
  - destruct (take_part Hne) as (s' & Ht & R). exists (p + 8 * (z - n)), s', (l1 ++ (p, z - n) :: l2). split; [|done]. intros e. cbn [malloc_loop].
    rewrite <- R. unfold bind at 1. rewrite Rz, Hle, (proj2 (Z.eqb_neq _ _) Hne). done.
Qed.
End Take.

(** ** The search of malloc *)
Definition fits (n : Z) (x : Z * Z) : Prop := n <= snd x.
#[local] Instance fits_dec n x : Decision (fits n x) := Z_le_dec n (snd x).

Section Scan.
Context (s : ust) (fr : list (Z * Z)) (al : gmap Z Z) (n : Z).
Hypothesis Hh : heap s fr al.
Hypothesis Hn : 0 < n.

(** Blocks that are too small are passed over. *)
Lemma scan_small v : forall p c pv f e, seg s p v c -> (forall x, x ∈ v -> x ∈ ring fr) -> Forall (fun x => ~ fits n x) v ->
  u_freep s ∉ v.*1 ->
  malloc_loop (length v + f) n pv p s e = malloc_loop f n (default pv (fst <$> list.last v)) c s e.
Proof.
  induction v as [|[b z] v IH]; intros p c pv f e Hs Hin Hsm Hf; cbn [length].
  - cbn in Hs. by subst.
  - cbn in Hs. destruct Hs as (-> & Hz & Hs). apply list.Forall_cons in Hsm as [Hbz Hsm]. cbn in Hf. apply not_elem_of_cons in Hf as [Hfb Hf].
    destruct (node_reads _ _ _ (b, z) Hh (Hin _ ltac:(by left))) as [Rp Rz]. cbn in Rp, Rz. unfold fits in Hbz. cbn in Hbz.
    cbn [Nat.add malloc_loop]. unfold bind. rewrite Rz, (proj2 (Z.leb_gt n z)) by lia. unfold gets.
    rewrite (proj2 (Z.eqb_neq _ _)) by congruence. rewrite Rp. rewrite (IH _ c b f e Hs); [|by intros x Hx; apply Hin; right|done|done].
    rewrite last_cons. by destruct (list.last v).
Qed.

(** The list from the node after [freep] round to [freep]. *)
Record turn (x : Z * Z) (v : list (Z * Z)) : Prop := {
  tn_freep : fst x = u_freep s;
  tn_seg : seg s (uword s (u_freep s)) v (u_freep s);
  tn_elem : forall y, y ∈ ring fr <-> y = x \/ y ∈ v;
  tn_other : u_freep s ∉ v.*1;
  tn_length : length (ring fr) = S (length v)
}.

Lemma turn_ok : exists x v, turn x v.
Proof.
  pose proof (h_freep _ _ _ Hh) as Hf. apply list_elem_of_fmap in Hf as (x & Ex & Hx). destruct (list_elem_of_split _ _ Hx) as (A & B & E).
  pose proof (node_next _ _ _ _ _ _ Hh E) as Hnx. pose proof (h_ring _ _ _ Hh) as Hr. pose proof (h_sorted _ _ _ Hh) as Hs.
  rewrite E in Hr, Hs. apply sorted_mid in Hs as [H1 H2]. rewrite list.Forall_forall in H1, H2.
  exists x, (B ++ A). split; [done| | | |].
  - rewrite Ex, Hnx. apply seg_app. exists base. split.
    + change (A ++ x :: B) with (A ++ ([x] ++ B)) in Hr. rewrite app_assoc in Hr. apply seg_suffix in Hr. exact Hr.
    + apply seg_app in Hr as (c & Hr1 & Hr2). destruct x as [xa xz]. destruct Hr2 as (-> & _). exact Hr1.
  - intros y. rewrite E, !elem_of_app, elem_of_cons. tauto.
  - rewrite Ex. intros (y & Ey & Hy)%list_elem_of_fmap. apply elem_of_app in Hy as [Hy|Hy]; [destruct (H2 y Hy)|destruct (H1 y Hy)]; lia.
  - rewrite E, !length_app. cbn. lia.
Qed.

Lemma first_fit v : Exists (fits n) v -> exists v1 y v2, v = v1 ++ y :: v2 /\ Forall (fun x => ~ fits n x) v1 /\ fits n y.
Proof.
  induction v as [|x v IH]; [by intros ?%Exists_nil|]. intros Hex. destruct (decide (fits n x)) as [Hx|Hx].
  - by exists [], x, v.
  - apply Exists_cons in Hex as [?|Hex]; [done|]. destruct (IH Hex) as (v1 & y & v2 & -> & Hf & Hy). exists (x :: v1), y, v2. split; [done|]. split; [by constructor|done].
Qed.

Lemma fits_free y : fits n y -> y ∈ ring fr -> y ∈ fr.
Proof. intros Hy [->|?]%elem_of_cons; [|done]. unfold fits in Hy. cbn in Hy. lia. Qed.

Lemma take_fit pv y f : y ∈ ring fr -> fits n y -> pv ∈ (ring fr).*1 -> uword s pv = fst y ->
  exists q s' fr', runs (malloc_loop (S f) n pv (fst y)) s (q + 8) s' /\ taken s fr al q n s' fr'.
Proof.
  intros Hy Hfit Hpv Hw. destruct (list_elem_of_split _ _ (fits_free y Hfit Hy)) as (l1 & l2 & E). destruct y as [p z].
  apply (take_spec s fr al pv p z l1 l2 n); done.
Qed.

(** The node the search has just passed. *)
Lemma scan_pred v a : seg s (uword s (u_freep s)) v a -> (forall y, y ∈ v -> y ∈ ring fr) ->
  default (u_freep s) (fst <$> list.last v) ∈ (ring fr).*1 /\ uword s (default (u_freep s) (fst <$> list.last v)) = a.
Proof.
  intros Hs Hin. destruct v as [|u k _] using rev_ind.
  - split; [apply (h_freep _ _ _ Hh)|done].
  - rewrite last_snoc. change (default _ _) with (fst u). split; [|by destruct (seg_next _ _ _ _ _ _ Hs)].
    apply list_elem_of_fmap. exists u. split; [done|]. apply Hin, elem_of_app. right. by left.
Qed.

(** A block that is large enough is found in one turn. *)
Lemma scan_fit f : Exists (fits n) fr -> (length (ring fr) <= f)%nat ->
  exists q s' fr', runs (malloc_loop f n (u_freep s) (uword s (u_freep s))) s (q + 8) s' /\ taken s fr al q n s' fr'.
Proof.
  intros Hex Hf. destruct turn_ok as (x & v & [Ex Hs Hel Hno Hlen]). rewrite Hlen in Hf.
  assert (forall y, y ∈ v -> y ∈ ring fr) as Hin by (intros y Hy; apply Hel; by right).
  assert (x ∈ ring fr) as Hxin by (apply Hel; by left).
  destruct (decide (Exists (fits n) v)) as [Hv|Hv].
  - destruct (first_fit v Hv) as (v1 & y & v2 & -> & Hsm & Hy). rewrite length_app in Hf. cbn [length] in Hf.
    replace f with (length v1 + S (f - length v1 - 1))%nat by lia. pose proof Hs as Hs'. apply seg_app in Hs' as (c & Hs1 & Hs2).
    assert (c = fst y) as ->. { destruct y. by destruct Hs2. }
    destruct (scan_pred v1 (fst y) Hs1) as [Hpv Hw]; [intros u Hu; apply Hin, elem_of_app; by left|].
    set (pv := default (u_freep s) (fst <$> list.last v1)) in *.
    destruct (take_fit pv y (f - length v1 - 1)) as (q & s' & fr' & R & Ht); [apply Hin, elem_of_app; right; by left|done|done|done|].
    exists q, s', fr'. split; [|done]. intros e. rewrite (scan_small v1 _ (fst y)); [apply R|done| |done|].
    + intros u Hu. apply Hin, elem_of_app. by left.
    + intros Hc. apply Hno. rewrite fmap_app. apply elem_of_app. by left.
  - apply not_Exists_Forall in Hv; [|apply _].
    assert (fits n x) as Hx.
    { apply list.Exists_exists in Hex as (y & Hy & Hfy). assert (y ∈ ring fr) as Hyr by (by right). apply Hel in Hyr as [->|Hyv]; [done|].
      rewrite list.Forall_forall in Hv. by destruct (Hv y Hyv). }
    replace f with (length v + S (f - length v - 1))%nat by lia.
    destruct (scan_pred v (u_freep s) Hs Hin) as [Hpv Hw]. rewrite <- Ex in Hw at 2. set (pv := default (u_freep s) (fst <$> list.last v)) in *.
    destruct (take_fit pv x (f - length v - 1)) as (q & s' & fr' & R & Ht); [done..|].
    exists q, s', fr'. split; [|done]. intros e. rewrite (scan_small v _ (u_freep s)); [|done..]. rewrite <- Ex at 2. apply R.
Qed.

(** When no block is large enough, one turn ends in [morecore]. *)
Lemma scan_none f : Forall (fun x => ~ fits n x) fr -> forall e,
  malloc_loop (length fr + S f) n (u_freep s) (uword s (u_freep s)) s e =
  (let! p := morecore n in if p =? 0 then ret 0 else let! nx := get_ptr p in malloc_loop f n p nx) s e.
Proof.
  intros Hsm e. destruct turn_ok as (x & v & [Ex Hs Hel Hno Hlen]). cbn in Hlen.
  assert (Forall (fun x => ~ fits n x) (ring fr)) as Hsm'. { constructor; [unfold fits; cbn; lia|done]. }
  rewrite list.Forall_forall in Hsm'. replace (length fr) with (length v) by lia.
  rewrite (scan_small v _ (u_freep s)); [|done| | |done].
  - destruct (node_reads _ _ _ x Hh (proj2 (Hel x) ltac:(by left))) as [_ Rz]. rewrite Ex in Rz.
    pose proof (Hsm' x (proj2 (Hel x) ltac:(by left))) as Hx. unfold fits in Hx.
    cbn [malloc_loop]. unfold bind at 1. rewrite Rz, (proj2 (Z.leb_gt n (snd x))) by lia. unfold bind at 1, gets at 1. by rewrite Z.eqb_refl.
  - intros y Hy. apply Hel. by right.
  - apply list.Forall_forall. intros y Hy. apply Hsm', Hel. by right.
Qed.
End Scan.

(** ** Correctness of the allocator *)

(** Before its first call [freep] is null. *)
Definition fresh (s : ust) : Prop := u_freep s = 0 /\ u_brk s mod 8 = 0 /\ heap_lo <= u_brk s < KERNBASE.
Definition ready (s : ust) (fr : list (Z * Z)) (al : gmap Z Z) : Prop :=
  heap s fr al \/ fresh s /\ fr = [] /\ al = ∅.

(** [p] is the result of asking for [n] headers. *)
Definition allocated (s : ust) (fr : list (Z * Z)) (al : gmap Z Z) (n p : Z) (s' : ust) : Prop :=
  p = 0 /\ heap s' fr al /\ keeps al s s' /\ u_brk s' = u_brk s /\ Forall (fun x => ~ fits n x) fr /\ refused s n \/
  p <> 0 /\ p mod 8 = 0 /\ al !! (p - 8) = None /\ keeps al s s' /\
  exists fr', heap s' fr' (<[p - 8 := n]> al) /\
    (forall a, covered fr' a \/ extent (p - 8, n) a <-> covered fr a \/ u_brk s <= a < u_brk s').

Lemma taken_allocated s0 s fr fr0 al q n s' fr' : taken s fr al q n s' fr' -> keeps al s0 s -> u_brk s0 <= u_brk s ->
  (forall a, covered fr a <-> covered fr0 a \/ u_brk s0 <= a < u_brk s) -> allocated s0 fr0 al n (q + 8) s'.
Proof.
  intros [Hh Hf Hk Hb Hc] Hk0 Hb0 Hc0. right. replace (q + 8 - 8) with q by lia.
  destruct (h_al _ _ _ Hh q n) as [(Hm & _ & Hlo & _) _]; [apply lookup_insert_eq|]. cbn in Hm, Hlo. destruct base_ok as [H1 H2].
  split; [lia|]. split; [by rewrite <- Zplus_mod_idemp_r, Z.mod_same, Z.add_0_r|]. split; [done|]. split.
  - intros b z a Hbz Ha. by rewrite (Hk b z a Hbz Ha), (Hk0 b z a Hbz Ha).
  - exists fr'. split; [done|]. intros a. rewrite <- Hc, Hc0, Hb. done.
Qed.

Lemma keeps_refl al s : keeps al s s.
Proof. by intros b z a. Qed.

Lemma malloc_search s fr al n f : heap s fr al -> 0 < n < 2 ^ 28 -> (2 * length (ring fr) + 2 <= f)%nat ->
  exists p s', runs (malloc_loop f n (u_freep s) (uword s (u_freep s))) s p s' /\ allocated s fr al n p s'.
Proof.
  intros Hh Hn Hf. destruct (decide (Exists (fits n) fr)) as [Hx|Hx].
  - destruct (scan_fit s fr al n Hh ltac:(lia) f Hx ltac:(lia)) as (q & s' & fr' & R & Ht). exists (q + 8), s'. split; [done|].
    eapply taken_allocated; [exact Ht|apply keeps_refl|lia|]. intros a. split; [by left|]. intros [?|?]; [done|lia].
  - apply not_Exists_Forall in Hx; [|apply _]. cbn [ring length] in Hf.
    destruct (morecore_spec s fr al n Hh Hn) as [[R Href]|(s1 & fr1 & R & Hh1 & Hk1 & B1 & Hx1 & Hl1 & Hc1)].
    + exists 0, s. split.
      * intros e. replace f with (length fr + S (f - length fr - 1))%nat by lia.
        rewrite (scan_none s fr al n Hh ltac:(lia)) by done. unfold bind. by rewrite R.
      * left. split; [done|]. split; [done|]. split; [apply keeps_refl|done].
    + pose proof (h_freep _ _ _ Hh1) as Hfp. apply list_elem_of_fmap in Hfp as (x & Ex & Hxin).
      destruct (node_reads _ _ _ x Hh1 Hxin) as [Rp _]. rewrite <- Ex in Rp. destruct (ring_elem _ _ _ _ Hh1 Hxin) as (X1 & _).
      destruct base_ok as [Hb0 _]. destruct (core_units_bound n Hn) as [C1 C2].
      destruct (scan_fit s1 fr1 al n Hh1 ltac:(lia) (f - length fr - 1) Hx1) as (q & s' & fr' & R' & Ht); [cbn; lia|].
      exists (q + 8), s'. split.
      * intros e. replace f with (length fr + S (f - length fr - 1))%nat by lia.
        rewrite (scan_none s fr al n Hh ltac:(lia)) by done. unfold bind. rewrite R, (proj2 (Z.eqb_neq _ _)) by lia. rewrite Rp. apply R'.
      * eapply taken_allocated; [exact Ht|done|lia|exact Hc1].
Qed.

(** The first call sets up the empty list. *)
Definition first_state (s : ust) : ust := stored (base + 4) 0 (stored base base (set_u_freep base s)).

Lemma first_heap s : fresh s -> heap (first_state s) [] ∅.
Proof.
  intros (_ & Hm & Hb). split; try done.
  - unfold first_state. cbn. rewrite uword_stored, uword_stored_ne, uword_stored by lia. done.
  - by left.
  - by repeat constructor.
Qed.

Lemma fresh_allocated s n p s' : allocated (first_state s) [] ∅ n p s' -> allocated s [] ∅ n p s'.
Proof.
  assert (keeps ∅ s s') as Hk by (by intros b z a ?%lookup_empty_Some).
  intros [(H1 & H2 & _ & H3)|(H1 & H2 & H3 & _ & H4)]; [left|right]; done.
Qed.

Lemma units_eq nbytes : 0 <= nbytes < 2 ^ 31 - 16 -> units nbytes = (nbytes + 7) / 8 + 1 /\ 0 < units nbytes < 2 ^ 28 /\ nbytes <= 8 * (units nbytes - 1).
Proof.
  intros Hn. unfold units. rewrite (u32_small (nbytes + 8 - 1)) by lia. replace (nbytes + 8 - 1) with (nbytes + 7) by lia.
  pose proof (Z.div_mod (nbytes + 7) 8 ltac:(lia)) as Hd. pose proof (Z.mod_pos_bound (nbytes + 7) 8 ltac:(lia)). rewrite u32_small by lia. lia.
Qed.

Lemma malloc_units s fr al nbytes : ready s fr al -> 0 < units nbytes < 2 ^ 28 ->
  exists p s', runs (malloc nbytes) s p s' /\ allocated s fr al (units nbytes) p s'.
Proof.
  intros Hr Hu. destruct Hr as [Hh|(Hf & -> & ->)].
  - pose proof (h_freep _ _ _ Hh) as Hfp. apply list_elem_of_fmap in Hfp as (x & Ex & Hxin).
    destruct (node_reads _ _ _ x Hh Hxin) as [Rp _]. rewrite <- Ex in Rp. destruct (ring_elem _ _ _ _ Hh Hxin) as (X1 & _), base_ok as [Hb0 _].
    pose proof (ring_fuel _ _ _ Hh) as Hfu. destruct (malloc_search s fr al (units nbytes) (2 * list_fuel s) Hh Hu ltac:(lia)) as (p & s' & R & Ha).
    exists p, s'. split; [|done]. intros e. unfold malloc, bind, gets. rewrite (proj2 (Z.eqb_neq _ _)) by lia. cbn [ret]. rewrite Rp. apply R.
  - pose proof (first_heap s Hf) as Hh. destruct Hf as (Ef & Hm & Hb), base_ok as [Hb0 Hb1]. set (s0 := first_state s) in *.
    pose proof (ring_fuel _ _ _ Hh) as Hfu. destruct (malloc_search s0 [] ∅ (units nbytes) (2 * list_fuel s0) Hh Hu ltac:(lia)) as (p & s' & R & Ha).
    exists p, s'. split; [|by apply fresh_allocated]. set (s1 := set_u_freep base s). destruct (header_ok s1 base Hb0 ltac:(cbn; lia) ltac:(cbn; lia)) as (M1 & M2 & E4 & _).
    pose proof (ustore_runs s1 base base M1) as W1. pose proof (ustore_runs (stored base base s1) (base + 4) 0 M2) as W2. pose proof (uload_runs s0 base M1) as R1.
    intros e. unfold malloc, bind, gets at 1. rewrite Ef, Z.eqb_refl. unfold modify. fold s1. unfold set_ptr, set_size, get_ptr. rewrite W1, E4, W2.
    cbn [ret]. change (stored (base + 4) 0 (stored base base s1)) with s0. rewrite R1. apply R.
Qed.

(** [free] of an allocated block returns: the block joins the free memory,
    the free list stays sorted with no two blocks touching, and the other
    allocated blocks keep their contents. *)
Lemma free_releases s fr al ap z : heap s fr al -> al !! (ap - 8) = Some z ->
  exists s' fr', runs (free ap) s tt s' /\ heap s' fr' (delete (ap - 8) al) /\ keeps (delete (ap - 8) al) s s' /\
    u_brk s' = u_brk s /\ (forall a, covered fr' a <-> covered fr a \/ extent (ap - 8, z) a).
Proof.
  intros Hh Ha. set (b := ap - 8) in *. destruct (h_al _ _ _ Hh b z Ha) as [HB Hz].
  assert (heap s fr (delete b al)) as Hh'.
  { destruct Hh as [H1 H2 H3 H4 H5 H6 H7 H8]. split; try done.
    - intros a w [_ Haw]%lookup_delete_Some. by apply H6.
    - intros a w c v [_ Haw]%lookup_delete_Some [_ Hcv]%lookup_delete_Some. by apply H7.
    - intros x a w Hx [_ Haw]%lookup_delete_Some. by apply H8. }
  destruct (free_spec s fr (delete b al) b z Hh' HB) as (s' & fr' & R & Hheap & Hk & Hb & _ & Hc & _).
  { intros x Hx. by apply (h_apart _ _ _ Hh). }
  { intros a w [Hne Haw]%lookup_delete_Some. apply (h_al_apart _ _ _ Hh a w b z Haw Ha). congruence. }
  { done. }
  exists s', fr'. split; [|done]. unfold b in R. by replace (ap - 8 + 8) with ap in R by lia.
Qed.
(** C30: [malloc] of less than [2 ^ 31 - 16] bytes returns.  It returns null, the
    heap being unchanged, only if no free block is large enough and the kernel refuses to grow the process;
    otherwise it returns an aligned block with room for the request that shares
    no memory with any allocated block, the contents of the allocated blocks are
    kept, and the new block and the free memory left are exactly the memory that
    was free before and that the kernel added. *)
Theorem malloc_allocates s fr al nbytes : ready s fr al -> 0 <= nbytes < 2 ^ 31 - 16 ->
  exists p s', runs (malloc nbytes) s p s' /\ nbytes <= 8 * (units nbytes - 1) /\ allocated s fr al (units nbytes) p s'.
Proof.
  intros Hr Hn. destruct (units_eq nbytes Hn) as (_ & Hu & Hroom). destruct (malloc_units s fr al nbytes Hr Hu) as (p & s' & R & Ha).
  by exists p, s'.
Qed.

(** The computation of the number of headers wraps around: a request for
    nearly [2 ^ 32] bytes gets a block of one header, with no room at all. *)
Theorem malloc_wraps s fr al nbytes : ready s fr al -> 2 ^ 32 - 8 < nbytes < 2 ^ 32 ->
  exists p s', runs (malloc nbytes) s p s' /\ allocated s fr al 1 p s'.
Proof.
  intros Hr Hn. assert (units nbytes = 1) as E1.
  { unfold units, u32. replace (nbytes + 8 - 1) with (nbytes + 7 - 2 ^ 32 + 1 * 2 ^ 32) by lia.
    rewrite Z_mod_plus_full, (Z.mod_small (_ - _)), (Z.div_small (_ - _)) by lia. done. }
  rewrite <- E1. apply malloc_units; [done|]. rewrite E1. lia.
Qed.

(** ** Clients

    A program that frees only what it got from [malloc], once, and writes only
    inside its blocks. *)
Inductive client_step : ust * gmap Z Z -> ust * gmap Z Z -> Prop :=
| cl_malloc s al nbytes p s' : 0 <= nbytes < 2 ^ 31 - 16 -> runs (malloc nbytes) s p s' -> p <> 0 ->
    client_step (s, al) (s', <[p - 8 := units nbytes]> al)
| cl_malloc_null s al nbytes s' : 0 <= nbytes < 2 ^ 31 - 16 -> runs (malloc nbytes) s 0 s' ->
    client_step (s, al) (s', al)
| cl_free s al ap z s' : al !! (ap - 8) = Some z -> runs (free ap) s tt s' ->
    client_step (s, al) (s', delete (ap - 8) al)
| cl_write s al b z a v : al !! b = Some z -> b + 8 <= a -> a + 4 <= b + 8 * z ->
    client_step (s, al) (stored a v s, al).

Lemma heap_write s fr al b z a v : heap s fr al -> al !! b = Some z -> b + 8 <= a -> a + 4 <= b + 8 * z ->
  heap (stored a v s) fr al.
Proof.
  intros Hh Hb H1 H2. destruct (h_al _ _ _ Hh b z Hb) as [(_ & _ & Hlo & _) _]. cbn in Hlo. destruct base_ok as [_ Hbl].
  pose proof (h_blocks _ _ _ Hh) as HB. rewrite list.Forall_forall in HB. destruct Hh as [A1 A2 A3 A4 A5 A6 A7 A8]. split; try done.
  - eapply seg_frame; [|exact A2]. intros x [->|Hx]%elem_of_cons; [cbn; split; apply uword_stored_ne; lia|].
    pose proof (A8 x b z Hx Hb) as Hap. destruct (HB x Hx) as (_ & ? & _). unfold apart in Hap. cbn in Hap. split; apply uword_stored_ne; lia.
  - intros c w Hc. destruct (A6 c w Hc) as [Hbl' Hw]. split; [done|]. destruct (decide (c = b)) as [->|Hne]; [rewrite uword_stored_ne by lia; done|].
    pose proof (A7 c w b z Hc Hb Hne) as Hap. destruct Hbl' as (_ & ? & _). unfold apart in Hap. cbn in *. rewrite uword_stored_ne by lia. done.
Qed.

Lemma client_step_ready x y : client_step x y -> (exists fr, ready (fst x) fr (snd x)) -> exists fr, ready (fst y) fr (snd y).
Proof.
  destruct 1 as [s al nbytes p s' Hn R Hp|s al nbytes s' Hn R|s al ap z s' Ha R|s al b z a v Hb H1 H2]; cbn; intros [fr Hr].
  - destruct (units_eq nbytes Hn) as (_ & Hu & _). destruct (malloc_units s fr al nbytes Hr Hu) as (p' & s1 & R' & HA).
    destruct (runs_det _ _ _ _ _ _ R R') as [<- <-]. destruct HA as [(? & _)|(_ & _ & _ & _ & fr' & Hh & _)]; [done|]. exists fr'. by left.
  - destruct (units_eq nbytes Hn) as (_ & Hu & _). destruct (malloc_units s fr al nbytes Hr Hu) as (p' & s1 & R' & HA).
    destruct (runs_det _ _ _ _ _ _ R R') as [<- <-]. destruct HA as [(_ & Hh & _)|(? & _)]; [|done]. exists fr. by left.
  - destruct Hr as [Hh|(_ & _ & ->)]; [|by apply lookup_empty_Some in Ha].
    destruct (free_releases s fr al ap z Hh Ha) as (s1 & fr' & R' & Hh' & _). destruct (runs_det _ _ _ _ _ _ R R') as [_ <-]. exists fr'. by left.
  - destruct Hr as [Hh|(_ & _ & ->)]; [|by apply lookup_empty_Some in Hb]. exists fr. left. by eapply heap_write.
Qed.

(** The next call of [malloc] or [free]. *)
Lemma ready_malloc s fr al nbytes : ready s fr al -> 0 <= nbytes < 2 ^ 31 - 16 ->
  exists p s', runs (malloc nbytes) s p s' /\ keeps al s s' /\ (p <> 0 -> forall b w, al !! b = Some w -> apart (p - 8, units nbytes) (b, w)).
Proof.
  intros Hr Hn. destruct (units_eq nbytes Hn) as (_ & Hu & _). destruct (malloc_units s fr al nbytes Hr Hu) as (p & s' & R & HA).
  exists p, s'. split; [done|]. destruct HA as [(-> & _ & Hk & _)|(_ & _ & Hnone & Hk & fr' & Hh & _)]; [done|]. split; [done|].
  intros _ b w Hb. assert (p - 8 <> b) as Hne by congruence. apply (h_al_apart _ _ _ Hh); [apply lookup_insert_eq|by rewrite lookup_insert_ne|done].
Qed.

(** C15: whatever a program does with its blocks, however it interleaves [malloc]
    of less than [2 ^ 31 - 16] bytes, [free] of what it holds and writes inside
    what it holds: the blocks it holds are in its memory and share no byte; the
    free list in memory is a list of blocks that share no byte with them; its
    next [malloc] returns, changes no word of the blocks it holds, and a block it
    returns shares no byte with them; its next [free] returns and changes no
    word of the other blocks. *)
Theorem client_blocks_disjoint s0 s al : fresh s0 -> rtc client_step (s0, ∅) (s, al) ->
  (forall a z b w, al !! a = Some z -> al !! b = Some w -> a <> b -> apart (a, z) (b, w)) /\
  (forall a z, al !! a = Some z -> heap_lo <= a /\ a + 8 * z <= u_brk s) /\
  (exists fr, (u_freep s <> 0 -> seg s base (ring fr) base) /\ forall x a z, x ∈ fr -> al !! a = Some z -> apart x (a, z)) /\
  (forall nbytes, 0 <= nbytes < 2 ^ 31 - 16 ->
     exists p s', runs (malloc nbytes) s p s' /\ keeps al s s' /\ (p <> 0 -> forall b w, al !! b = Some w -> apart (p - 8, units nbytes) (b, w))) /\
  (forall ap z, al !! (ap - 8) = Some z -> exists s', runs (free ap) s tt s' /\ keeps (delete (ap - 8) al) s s').
Proof.
  intros Hf Hsteps. assert (exists fr, ready s fr al) as [fr Hr].
  { change (exists fr, ready (fst (s, al)) fr (snd (s, al))). eapply (rtc_ind_r (fun y => exists fr, ready (fst y) fr (snd y))); [|intros ? ? _ ?; by apply client_step_ready|exact Hsteps].
    exists []. by right. }
  pose proof (fun nbytes => ready_malloc s fr al nbytes Hr) as Hm. destruct Hr as [Hh|([Hfp _] & _ & ->)].
  - split; [apply (h_al_apart _ _ _ Hh)|]. split; [|split; [|split; [exact Hm|]]].
    + intros a z Ha. by destruct (h_al _ _ _ Hh a z Ha) as [(_ & _ & ? & ?) _].
    + exists fr. split; [intros _; apply Hh|apply (h_apart _ _ _ Hh)].
    + intros ap z Ha. destruct (free_releases s fr al ap z Hh Ha) as (s' & _ & R & _ & Hk & _). eauto.
  - split; [by intros a z b w ?%lookup_empty_Some|]. split; [by intros a z ?%lookup_empty_Some|]. split; [by exists []|]. split; [exact Hm|]. by intros ap z ?%lookup_empty_Some.
Qed.
End Umalloc.

(** ** Examples *)
#[local] Instance ex_process : Process := {|
  base := 8192; heap_lo := 12288; grants := fun _ newsz => newsz <? 1048576;
  base_ok := ltac:(lia)
|}.

Definition ex_start : ust := mkUst ∅ 0 12288.
Definition ex_after {A} (m : M ust A) (s : ust) : ust := match m s [] with Ok _ s' _ => s' | _ => s end.
Definition ex_one : ust := ex_after (malloc 10) ex_start.

Lemma ex_fresh : fresh ex_start.
Proof. by vm_compute. Qed.

Lemma malloc_allocates_witness :
  exists p s', runs (malloc 10) ex_start p s' /\ 10 <= 8 * (units 10 - 1) /\ allocated ex_start [] ∅ (units 10) p s'.
Proof. apply (malloc_allocates ex_start [] ∅ 10); [right; split; [exact ex_fresh|done]|lia]. Defined.

(** A request for all of memory is answered by a pointer to the end of the
    process, with one header before it. *)
Example malloc_wraps_ex : exists s', runs (malloc (2 ^ 32 - 1)) ex_start 45056 s' /\ u_brk s' = 45056.
Proof. exists (ex_after (malloc (2 ^ 32 - 1)) ex_start). split; [intros e|]; by vm_compute. Qed.

(** [sbrk] takes the size of a larger request for a negative number and adds
    nothing; the header is then written beyond the memory of the process. *)
Example malloc_huge_faults : exists s', forall e, malloc (2 ^ 31) ex_start e = Fault "page fault" s'.
Proof. exists (first_state ex_start). intros e. by vm_compute. Qed.

Lemma client_blocks_disjoint_witness : exists p s', runs (malloc 20) ex_one p s' /\ keeps {[45032 := 3]} ex_one s' /\
  (p <> 0 -> apart (p - 8, units 20) (45032, 3)).
Proof.
  destruct (client_blocks_disjoint ex_start ex_one {[45032 := 3]}) as (_ & _ & _ & Hm & _); [exact ex_fresh| |].
  - apply rtc_once. apply (cl_malloc ex_start ∅ 10 45040 ex_one); [lia| |done]. intros e. by vm_compute.
  - destruct (Hm 20 ltac:(lia)) as (p & s' & R & K & A). exists p, s'. split; [exact R|]. split; [exact K|]. intros Hp. by apply A.
Defined.
