(* ===== verification/Grep.v ===== *)
(** * grep.c and wc.c

    The regular expression matcher against a declarative reading of its
    syntax, the loop that cuts its input into lines, and the word count.

    A file descriptor delivers the bytes of [f_bytes]; one [read] gets at most
    the number in [f_burst] (a pipe or the console can deliver less than asked
    for), or as many as asked for when the list is used up, as for a file. *)

From S2P Require Import Prelude Bytes Cstring Ulib.
Local Open Scope Z_scope.

(** ** Input *)
Record infile := mkInfile { f_bytes : list Z; f_burst : list nat }.

(** [read(fd, p, n)]: the bytes delivered. *)
Definition read (fd : infile) (n : Z) : list Z * infile :=
  let k := match f_burst fd with [] => Z.to_nat n | b :: _ => Nat.min b (Z.to_nat n) end in
  (take k (f_bytes fd), mkInfile (drop k (f_bytes fd)) (tail (f_burst fd))).

(** ** The matcher: strings are lists without NUL *)

(** [matchstar(c, re, text)], for [matchhere re] given. *)
Fixpoint matchstar (matchhere_re : list Z -> bool) (c : Z) (text : list Z) : bool :=
  matchhere_re text ||
  match text with
  | [] => false
  | x :: text' => ((x =? c) || (c =? 46)) && matchstar matchhere_re c text'
  end.

Fixpoint matchhere (re text : list Z) : bool :=
  match re with
  | [] => true
  | c :: re1 =>
      let rest :=
        if (c =? 36) && match re1 with [] => true | _ => false end
        then match text with [] => true | _ => false end
        else match text with
             | [] => false
             | x :: text' => ((c =? 46) || (c =? x)) && matchhere re1 text'
             end in
      match re1 with
      | s :: re2 => if s =? 42 then matchstar (matchhere re2) c text else rest
      | [] => rest
      end
  end.

Fixpoint match_any (re text : list Z) : bool :=
  matchhere re text || match text with [] => false | _ :: text' => match_any re text' end.

Definition match_re (re text : list Z) : bool :=
  match re with
  | c :: re' => if c =? 94 then matchhere re' text else match_any re text
  | [] => match_any re text
  end.

(** ** grep *)

(** The loop over the lines in the buffer: what is written and what is left at
    [p]; [None] for [p == buf].  Each pass drops at least the newline. *)
Fixpoint grep_lines (fuel : nat) (pattern p : list Z) : list Z * list Z :=
  match U.strchr p 10 with
  | None => ([], p)
  | Some q =>
      let line := take (length p - length q) p in
      let out := if match_re pattern (Str.cstr line) then line ++ [10] else [] in
      match fuel with
      | O => (out, tail q)
      | S f => let '(o, r) := grep_lines f pattern (tail q) in (out ++ o, r)
      end
  end.

(** [buf] is the first [m] bytes of the buffer.  A [read] that delivers bytes
    shortens the input. *)
Fixpoint grep_loop (fuel : nat) (pattern buf : list Z) (fd : infile) : list Z :=
  let '(got, fd) := read fd (1024 - Z.of_nat (length buf) - 1) in
  match got with
  | [] => []
  | _ =>
      let buf := buf ++ got in
      let '(out, p) := grep_lines (length buf) pattern buf in
      let buf := if (length p =? length buf)%nat then [] else p in
      match fuel with
      | O => out
      | S f => out ++ grep_loop f pattern buf fd
      end
  end.

Definition grep (pattern : list Z) (fd : infile) : list Z :=
  grep_loop (length (f_bytes fd)) pattern [] fd.

(** ** wc *)
Record counts := mkCounts { wc_l : Z; wc_w : Z; wc_c : Z; wc_inword : bool }.

Definition wc_space (c : Z) : bool :=
  match U.strchr [32; 13; 9; 10; 11] c with Some _ => true | None => false end.

Definition wc_byte (k : counts) (x : Z) : counts :=
  let c := wc_c k + 1 in
  let l := if x =? 10 then wc_l k + 1 else wc_l k in
  if wc_space x then mkCounts l (wc_w k) c false
  else if negb (wc_inword k) then mkCounts l (wc_w k + 1) c true
  else mkCounts l (wc_w k) c true.

Fixpoint wc_loop (fuel : nat) (k : counts) (fd : infile) : counts :=
  let '(got, fd) := read fd 512 in
  match got with
  | [] => k
  | _ => match fuel with O => k | S f => wc_loop f (foldl wc_byte k got) fd end
  end.

Definition wc (fd : infile) : counts := wc_loop (S (length (f_bytes fd))) (mkCounts 0 0 0 false) fd.

(** ** cat *)
Fixpoint cat_loop (fuel : nat) (fd : infile) : list Z :=
  let '(got, fd) := read fd 512 in
  match got with
  | [] => []
  | _ => match fuel with O => got | S f => got ++ cat_loop f fd end
  end.
Definition cat (fd : infile) : list Z := cat_loop (length (f_bytes fd)) fd.

(** ** What a regular expression means *)

(** [re] matches a text that starts with the given characters: a character
    matches itself, a dot any character, a character followed by a star any
    number of them, a final dollar sign the end. *)
Inductive here : list Z -> list Z -> Prop :=
| here_nil text : here [] text
| here_star c re t1 t2 :
    Forall (fun x => x = c \/ c = 46) t1 -> here re t2 -> here (c :: 42 :: re) (t1 ++ t2)
| here_end : here [36] []
| here_char c re x text :
    head re <> Some 42 -> (c, re) <> (36, []) -> c = 46 \/ c = x -> here re text ->
    here (c :: re) (x :: text).

(** Anywhere in the text, or at its start after a circumflex. *)
Definition matches (re text : list Z) : Prop :=
  match re with
  | 94 :: re' => here re' text
  | _ => exists pre suf, text = pre ++ suf /\ here re suf
  end.

Lemma matchstar_spec mh c text :
  matchstar mh c text = true <->
  exists t1 t2, text = t1 ++ t2 /\ Forall (fun x => x = c \/ c = 46) t1 /\ mh t2 = true.
Proof.
  induction text as [|x text IH]; cbn [matchstar].
  - rewrite orb_false_r. split.
    + intros H. by exists [], [].
    + intros (t1 & t2 & E & _ & H). by destruct t1, t2.
  - rewrite orb_true_iff, andb_true_iff, orb_true_iff, !Z.eqb_eq, IH. split.
    + intros [H|[Hx (t1 & t2 & -> & Ht & H)]]; [by exists [], (x :: text)|].
      exists (x :: t1), t2. split; [done|]. split; [by constructor|done].
    + intros ([|y t1] & t2 & E & Ht & H); cbn in E; [left; by subst|]. injection E as -> ->.
      apply list.Forall_cons in Ht as [Hy Ht]. right. split; [done|]. by exists t1, t2.
Qed.

Lemma here_inv c re text :
  here (c :: re) text ->
  match re with
  | 42 :: re' => exists t1 t2, text = t1 ++ t2 /\ Forall (fun x => x = c \/ c = 46) t1 /\ here re' t2
  | _ => ((c, re) = (36, []) /\ text = []) \/
         ((c, re) <> (36, []) /\ exists x t, text = x :: t /\ (c = 46 \/ c = x) /\ here re t)
  end.
Proof.
  inversion 1; subst.
  - by exists t1, t2.
  - by left.
  - assert (((c, re) = (36, []) /\ x :: text0 = []) \/
      ((c, re) <> (36, []) /\ exists y t, x :: text0 = y :: t /\ (c = 46 \/ c = y) /\ here re t)) as G.
    { right. split; [done|]. by exists x, text0. }
    destruct re as [|z re]; [exact G|]. cbn in H2. repeat case_match; try exact G; by destruct H2.
Qed.

Lemma matchhere_spec n : forall re text, (length re <= n)%nat -> matchhere re text = true <-> here re text.
Proof.
  induction n as [|n IH]; intros [|c re] text Hn; cbn [length] in Hn; try lia;
    try (split; [constructor|done]).
  assert (forall t, matchhere re t = true <-> here re t) as IHre by (intros t; apply IH; lia).
  assert (((if (c =? 36) && match re with [] => true | _ => false end
            then match text with [] => true | _ => false end
            else match text with
                 | [] => false
                 | x :: text' => ((c =? 46) || (c =? x)) && matchhere re text'
                 end) = true) <->
    ((c, re) = (36, []) /\ text = []) \/
     ((c, re) <> (36, []) /\ exists x t, text = x :: t /\ (c = 46 \/ c = x) /\ here re t)) as Hrest.
  { destruct (decide ((c, re) = (36, []))) as [E|E].
    - injection E as -> ->. cbn. destruct text; naive_solver.
    - assert ((c =? 36) && match re with [] => true | _ => false end = false) as ->.
      { destruct (Z.eqb_spec c 36) as [->|]; [|done]. by destruct re. }
      destruct text as [|x text]; [naive_solver|].
      rewrite andb_true_iff, orb_true_iff, !Z.eqb_eq, IHre. naive_solver. }
  cbn [matchhere]. destruct re as [|z re].
  - rewrite Hrest. split; [|apply here_inv]. intros [[[= ->] ->]|(Hne & x & t & -> & Hc & Ht)]; by constructor.
  - destruct (Z.eqb_spec z 42) as [->|Hz].
    + rewrite matchstar_spec. split.
      * intros (t1 & t2 & -> & H1 & H2). constructor; [done|]. apply IH; [cbn in Hn; lia|done].
      * intros (t1 & t2 & -> & H1 & H2)%here_inv. exists t1, t2. split; [done|]. split; [done|].
        apply IH; [cbn in Hn; lia|done].
    + rewrite Hrest. split.
      * intros [[[=] _]|(Hne & x & t & -> & Hc & Ht)]. constructor; try done. cbn. congruence.
      * intros H%here_inv. clear Hrest IHre. repeat case_match; first [exact H | done].
Qed.

Lemma match_any_spec re text :
  match_any re text = true <-> exists pre suf, text = pre ++ suf /\ here re suf.
Proof.
  induction text as [|x text IH]; cbn [match_any].
  - rewrite orb_false_r, (matchhere_spec (length re)) by done. split.
    + intros H. by exists [], [].
    + intros ([|] & [|] & E & H); done.
  - rewrite orb_true_iff, IH, (matchhere_spec (length re)) by done. split.
    + intros [H|(pre & suf & -> & H)]; [by exists [], (x :: text)|]. by exists (x :: pre), suf.
    + intros ([|y pre] & suf & E & H); [left; cbn in E; by subst|]. right. injection E as -> ->. by exists pre, suf.
Qed.

(** C27: the matcher decides exactly the declarative meaning of its regular
    expressions. *)
Theorem match_re_spec re text : match_re re text = true <-> matches re text.
Proof.
  unfold match_re, matches. destruct re as [|c re]; [apply match_any_spec|].
  destruct (Z.eqb_spec c 94) as [->|Hc]; [by apply (matchhere_spec (length re))|].
  rewrite match_any_spec. by repeat case_match.
Qed.

(** ** Lines *)

(** Lines with their newlines. *)
Definition unlines (ls : list (list Z)) : list Z := concat ((fun l => l ++ [10]) <$> ls).

(** What grep should write for the lines [ls]. *)
Definition selected (pattern : list Z) (ls : list (list Z)) : list Z :=
  unlines (filter (fun l => match_re pattern l = true) ls).

Lemma unlines_cons l ls : unlines (l :: ls) = l ++ 10 :: unlines ls.
Proof. unfold unlines. cbn. by rewrite <- app_assoc. Qed.

Lemma selected_cons pattern l ls :
  selected pattern (l :: ls) = (if match_re pattern l then l ++ [10] else []) ++ selected pattern ls.
Proof.
  unfold selected. rewrite filter_cons. destruct (match_re pattern l) eqn:E.
  - rewrite decide_True by done. rewrite unlines_cons. by rewrite <- app_assoc.
  - by rewrite decide_False.
Qed.

Lemma cstr_nonul l : 0 ∉ l -> Str.cstr l = l.
Proof.
  induction l as [|c l IH]; intros H; [done|]. apply not_elem_of_cons in H as [H1 H2]. cbn.
  rewrite (proj2 (Z.eqb_neq c 0)) by congruence. by rewrite IH.
Qed.

Lemma strchr_none l : 10 ∉ l -> U.strchr l 10 = None.
Proof.
  induction l as [|c l IH]; intros H; [done|]. apply not_elem_of_cons in H as [H1 H2]. cbn.
  destruct (c =? 0); [done|]. rewrite (proj2 (Z.eqb_neq c 10)) by congruence. by apply IH.
Qed.

Lemma strchr_line l rest : 10 ∉ l -> 0 ∉ l -> U.strchr (l ++ 10 :: rest) 10 = Some (10 :: rest).
Proof.
  induction l as [|c l IH]; intros H H0; [done|]. apply not_elem_of_cons in H as [H1 H2].
  apply not_elem_of_cons in H0 as [H3 H4]. cbn. rewrite (proj2 (Z.eqb_neq c 0)) by congruence.
  rewrite (proj2 (Z.eqb_neq c 10)) by congruence. by apply IH.
Qed.

Definition plain_line (l : list Z) : Prop := (10 ∉ l) /\ (0 ∉ l).

Lemma grep_lines_spec pattern ls r : Forall plain_line ls -> 10 ∉ r -> forall fuel, (length ls <= fuel)%nat ->
  grep_lines fuel pattern (unlines ls ++ r) = (selected pattern ls, r).
Proof.
  intros Hl Hr. induction Hl as [|l ls [H10 H0] _ IH]; intros fuel Hf.
  - cbn [app unlines concat fmap list_fmap]. destruct fuel; cbn [grep_lines]; by rewrite strchr_none.
  - destruct fuel as [|fuel]; [cbn in Hf; lia|]. cbn [length] in Hf.
    rewrite unlines_cons, selected_cons, <- app_assoc. cbn [grep_lines app]. rewrite strchr_line by done.
    rewrite length_app, Nat.add_sub, take_app_length, cstr_nonul by done. cbn [tail].
    by rewrite IH by lia.
Qed.

(** A prefix of the input ends inside some line. *)
Lemma lines_prefix last b rest ls :
  b ++ rest = unlines ls ++ last -> Forall plain_line ls -> 10 ∉ last ->
  exists ls1 ls2 r, ls = ls1 ++ ls2 /\ b = unlines ls1 ++ r /\ r ++ rest = unlines ls2 ++ last /\ 10 ∉ r.
Proof.
  intros E Hl Hlast. revert b E. induction Hl as [|l ls [H10 H0] Hl IH]; intros b E.
  - exists [], [], b. split; [done|]. split; [done|]. split; [done|]. cbn in E. subst last.
    apply not_elem_of_app in Hlast. tauto.
  - rewrite unlines_cons, <- app_assoc in E. cbn in E.
    apply app_eq_inv in E as [(k & E1 & E2)|(k & E1 & E2)].
    + destruct k as [|x k]; cbn in E2.
      * exists [], (l :: ls), b. split; [done|]. split; [done|]. rewrite unlines_cons, <- app_assoc. cbn.
        rewrite app_nil_r in E1. subst b. by rewrite <- E2.
      * injection E2 as <- E2. destruct (IH k) as (ls1 & ls2 & r & -> & -> & Hr & Hn); [done|].
        exists (l :: ls1), ls2, r. split; [done|]. split; [|done].
        rewrite unlines_cons, E1, <- app_assoc. done.
    + exists [], (l :: ls), b. split; [done|]. split; [done|]. rewrite unlines_cons, <- app_assoc. cbn.
      split; [rewrite E1, E2, <- app_assoc; done|]. rewrite E1 in H10. apply not_elem_of_app in H10. tauto.
Qed.

Lemma unlines_length ls : (length ls <= length (unlines ls))%nat.
Proof. induction ls as [|l ls IH]; [cbn; lia|]. rewrite unlines_cons, length_app. cbn. lia. Qed.

Lemma unlines_no_newline ls last : 10 ∉ unlines ls ++ last -> ls = [].
Proof.
  destruct ls as [|l ls]; [done|]. rewrite unlines_cons, <- app_assoc. intros H. destruct H.
  apply elem_of_app. right. cbn. by left.
Qed.

Definition short_line (l : list Z) : Prop := plain_line l /\ (length l <= 1022)%nat.

Lemma grep_loop_spec pattern : forall fuel buf bytes ls last,
  buf ++ bytes = unlines ls ++ last -> Forall short_line ls -> 10 ∉ last -> 10 ∉ buf ->
  (length buf <= 1022)%nat -> (length bytes <= fuel)%nat ->
  grep_loop fuel pattern buf (mkInfile bytes []) = selected pattern ls.
Proof.
  induction fuel as [|fuel IH]; intros buf bytes ls last E Hl Hlast Hbuf Hb Hf; cbn [grep_loop]; unfold read;
    cbn [f_burst f_bytes tail].
  { destruct bytes; [|cbn in Hf; lia]. rewrite take_nil. rewrite app_nil_r in E. rewrite E in Hbuf.
    by rewrite (unlines_no_newline _ _ Hbuf). }
  set (k := Z.to_nat (1024 - Z.of_nat (length buf) - 1)). assert (1 <= k)%nat as Hk by lia.
  destruct (take k bytes) as [|x got] eqn:Eg.
  { destruct bytes; [|destruct k; [lia|done]]. rewrite app_nil_r in E. rewrite E in Hbuf.
    by rewrite (unlines_no_newline _ _ Hbuf). }
  rewrite <- Eg. assert (length (drop k bytes) <= fuel)%nat as Hf'.
  { rewrite length_drop. destruct bytes; [by rewrite take_nil in Eg|]. cbn in *. lia. }
  assert (Forall plain_line ls) as Hp by (eapply list.Forall_impl; [exact Hl|by intros l []]).
  destruct (lines_prefix last (buf ++ take k bytes) (drop k bytes) ls) as (ls1 & ls2 & r & -> & Eb & Er & Hr); try done.
  { by rewrite <- app_assoc, take_drop. }
  apply Forall_app in Hl as [Hl1 Hl2]. apply Forall_app in Hp as [Hp1 Hp2].
  rewrite Eb, grep_lines_spec; [|done|done|].
  2: { rewrite length_app. pose proof (unlines_length ls1). lia. }
  assert (selected pattern (ls1 ++ ls2) = selected pattern ls1 ++ selected pattern ls2) as ->.
  { unfold selected, unlines. by rewrite list.filter_app, fmap_app, concat_app. }
  f_equal. rewrite length_app. destruct ls1 as [|l1 ls1].
  - cbn [unlines fmap list_fmap concat length Nat.add app] in *. rewrite Nat.eqb_refl.
    assert (ls2 = []) as ->.
    { destruct ls2 as [|l ls2]; [done|]. exfalso. apply list.Forall_cons in Hl2 as [[[H10 H0] Hlen] _].
      assert (length r = 1023)%nat as Hlr.
      { rewrite <- Eb, length_app, length_take. destruct (decide (k <= length bytes)%nat); [lia|].
        rewrite drop_ge, app_nil_r in Er by lia. rewrite Er in Hr. by apply unlines_no_newline in Hr. }
      rewrite unlines_cons, <- app_assoc in Er. cbn in Er.
      assert (r !! length l = Some 10) as Hin.
      { assert ((r ++ drop k bytes) !! length l = Some 10) as H1.
        { rewrite Er, lookup_app_r by lia. by rewrite Nat.sub_diag. }
        by rewrite lookup_app_l in H1 by lia. }
      by apply Hr, (list_elem_of_lookup_2 _ (length l)). }
    apply (IH [] (drop k bytes) [] (drop k bytes)); try done.
    + cbn in Er. rewrite <- Er in Hlast. apply not_elem_of_app in Hlast. tauto.
    + apply not_elem_of_nil.
    + cbn. lia.
  - assert (1 <= length (unlines (l1 :: ls1)))%nat as H1 by (rewrite unlines_cons, length_app; cbn; lia).
    rewrite (proj2 (Nat.eqb_neq _ _)) by lia. apply (IH r (drop k bytes) ls2 last); try done.
    assert (length (buf ++ take k bytes) <= 1023)%nat as H2 by (rewrite length_app, length_take; lia).
    rewrite Eb, length_app in H2. lia.
Qed.

(** C38: on a file whose lines have at most 1022 characters and no NUL byte, grep
    writes exactly the complete lines that match, in order. *)
Theorem grep_prints pattern ls last :
  Forall short_line ls -> 10 ∉ last ->
  grep pattern (mkInfile (unlines ls ++ last) []) =
    unlines (filter (fun l => match_re pattern l = true) ls).
Proof.
  intros Hl Hlast. unfold grep. apply (grep_loop_spec pattern _ [] _ ls last); try done.
  - apply not_elem_of_nil.
  - cbn. lia.
Qed.

(** When a read delivers only the first part of a line, as a pipe may, that
    part is dropped: the line [ab], delivered as [a] and [b] with the newline,
    is not found by the pattern [a]. *)
Theorem grep_short_read :
  grep [97] (mkInfile [97; 98; 10] []) = [97; 98; 10] /\
  grep [97] (mkInfile [97; 98; 10] [1%nat; 2%nat]) = [].
Proof. split; by vm_compute. Qed.

(** ** wc and cat *)

(** Every read delivers something while there is something. *)
Definition lively (fd : infile) : Prop := Forall (fun b => (1 <= b)%nat) (f_burst fd).

Lemma read_spec fd n got fd' :
  lively fd -> 1 <= n -> read fd n = (got, fd') ->
  got ++ f_bytes fd' = f_bytes fd /\ lively fd' /\ (got = [] -> f_bytes fd = []) /\
  (length (f_bytes fd') + length got = length (f_bytes fd))%nat.
Proof.
  intros Hl Hn [= <- <-]. cbn. unfold lively in *. split; [apply take_drop|].
  split; [by destruct Hl|]. split.
  - destruct (f_bytes fd) as [|x bs]; [done|]. destruct Hl as [|b bu Hb Hl]; cbn.
    + destruct (Z.to_nat n) eqn:E; [lia|done].
    + destruct (b `min` Z.to_nat n)%nat eqn:E; [lia|done].
  - rewrite length_take, length_drop. lia.
Qed.

Lemma cat_loop_spec : forall fuel fd, lively fd -> (length (f_bytes fd) <= fuel)%nat ->
  cat_loop fuel fd = f_bytes fd.
Proof.
  induction fuel as [|fuel IH]; intros fd Hl Hf; cbn [cat_loop];
    destruct (read fd 512) as [got fd'] eqn:E;
    destruct (read_spec fd 512 got fd' Hl ltac:(lia) E) as (H1 & H2 & H3 & H4).
  - destruct got as [|x got]; [by rewrite H3|]. cbn in H4. lia.
  - destruct got as [|x got]; [by rewrite H3|]. cbn [length] in H4. rewrite IH by (done || lia). done.
Qed.

(** Cat writes the bytes it reads, all of them and in order, whatever the
    size of the pieces they arrive in. *)
Theorem cat_copies fd : lively fd -> cat fd = f_bytes fd.
Proof. intros H. by apply cat_loop_spec. Qed.

Lemma wc_loop_spec : forall fuel k fd, lively fd -> (length (f_bytes fd) < fuel)%nat ->
  wc_loop fuel k fd = foldl wc_byte k (f_bytes fd).
Proof.
  induction fuel as [|fuel IH]; intros k fd Hl Hf; [lia|]. cbn [wc_loop].
  destruct (read fd 512) as [got fd'] eqn:E.
  destruct (read_spec fd 512 got fd' Hl ltac:(lia) E) as (H1 & H2 & H3 & H4).
  destruct got as [|x got]; [by rewrite H3|]. cbn [length] in H4. rewrite IH by (done || lia).
  by rewrite <- foldl_app, H1.
Qed.

(** The pieces between white space. *)
Fixpoint split (l : list Z) : list (list Z) :=
  match l with
  | [] => [[]]
  | c :: l' =>
      if wc_space c then [] :: split l'
      else match split l' with w :: ws => (c :: w) :: ws | [] => [[c]] end
  end.
Definition words (l : list Z) : list (list Z) := filter (fun w => w <> []) (split l).

Lemma split_cons l : exists w ws, split l = w :: ws.
Proof.
  destruct l as [|c l]; [by exists [], []|]. cbn. destruct (wc_space c); [by exists [], (split l)|].
  destruct (split l) as [|w ws]; [by exists [c], []|by exists (c :: w), ws].
Qed.

Definition starts_word (l : list Z) : bool := match l with [] => false | c :: _ => negb (wc_space c) end.

(** A word that goes on is not counted again. *)
Definition counted (inword : bool) (l : list Z) : Z :=
  Z.of_nat (length (words l)) - (if inword && starts_word l then 1 else 0).

Lemma words_cons c l :
  Z.of_nat (length (words (c :: l))) =
  if wc_space c then Z.of_nat (length (words l))
  else Z.of_nat (length (words l)) + (if starts_word l then 0 else 1).
Proof.
  unfold words. cbn [split]. destruct (wc_space c) eqn:Ec; [by rewrite filter_cons_False by naive_solver|].
  destruct l as [|x l]; [done|]. cbn [starts_word split]. destruct (wc_space x) eqn:Ex.
  - cbn [negb]. rewrite filter_cons_True by done. rewrite !filter_cons_False by naive_solver. cbn. lia.
  - cbn [negb]. destruct (split_cons l) as (w & ws & ->). rewrite !filter_cons_True by done. cbn. lia.
Qed.

Lemma foldl_wc l : forall k,
  foldl wc_byte k l = mkCounts (wc_l k + Z.of_nat (length (filter (fun c => c = 10) l)))
    (wc_w k + counted (wc_inword k) l) (wc_c k + Z.of_nat (length l))
    (wc_inword (foldl wc_byte k l)).
Proof.
  induction l as [|c l IH]; intros k.
  - unfold counted. change (words []) with (@nil (list Z)). change (filter _ []) with (@nil Z).
    cbn [foldl length starts_word]. rewrite andb_false_r. destruct k; cbn; f_equal; lia.
  - cbn [foldl]. rewrite IH. cbn [wc_inword].
    assert (Z.of_nat (length (filter (fun c => c = 10) (c :: l))) =
      (if c =? 10 then 1 else 0) + Z.of_nat (length (filter (fun c => c = 10) l))) as ->.
    { rewrite filter_cons. destruct (Z.eqb_spec c 10); case_decide; try done; cbn; lia. }
    unfold counted. rewrite words_cons. cbn [length starts_word].
    unfold wc_byte. destruct (wc_space c) eqn:Ec, (wc_inword k), (c =? 10), (starts_word l);
      cbn [negb andb wc_l wc_w wc_c wc_inword]; f_equal; lia.
Qed.

(** Wc counts the newlines, the maximal runs of characters other than white
    space, and the bytes, whatever the pieces the input arrives in. *)
Theorem wc_counts fd :
  lively fd ->
  wc_l (wc fd) = Z.of_nat (length (filter (fun c => c = 10) (f_bytes fd))) /\
  wc_w (wc fd) = Z.of_nat (length (words (f_bytes fd))) /\
  wc_c (wc fd) = Z.of_nat (length (f_bytes fd)).
Proof.
  intros Hl. unfold wc. rewrite wc_loop_spec by (done || lia). rewrite foldl_wc. cbn [wc_l wc_w wc_c].
  unfold counted. cbn [wc_inword andb]. lia.
Qed.

(** ** Examples *)
Lemma grep_prints_witness :
  grep [97; 46; 42; 36] (mkInfile ([98; 97; 120; 10] ++ [98; 10] ++ [97]) []) = [98; 97; 120; 10].
Proof.
  apply (grep_prints [97; 46; 42; 36] [[98; 97; 120]; [98]] [97]).
  - repeat constructor; rewrite ?list_elem_of_In; cbn; lia.
  - rewrite list_elem_of_In. cbn. lia.
Defined.

Lemma cat_copies_witness : cat (mkInfile [1; 2; 3] [1%nat]) = [1; 2; 3].
Proof. apply (cat_copies (mkInfile [1; 2; 3] [1%nat])). repeat constructor. Defined.

Lemma wc_counts_witness :
  wc_w (wc (mkInfile [97; 98; 32; 32; 99; 10] [1%nat; 2%nat])) = 2.
Proof.
  destruct (wc_counts (mkInfile [97; 98; 32; 32; 99; 10] [1%nat; 2%nat])) as (_ & -> & _); [|done].
  repeat constructor.
Defined.
