(* ===== verification/Sh.v ===== *)
(** * The shell's parser: sh.c

    The command line is [buf], its bytes before the NUL; a pointer into it is an
    index, and [es], the address of the NUL, is its length.  The parser builds
    commands whose arguments and file names are pairs of pointers, and
    [nulterminate] then stores a NUL at the end of each of them.  [panic] prints
    a message and exits: it is the [PErr] outcome.  [PLeft] is a line with
    something left over after the command, which [parsecmd] reports. *)

From S2P Require Import Prelude Bytes Cstring Syscall Ulib.
Local Open Scope Z_scope.

(** ** Commands *)
Definition MAXARGS : nat := 10.

(** A counted string: where it starts and where it ends. *)
Definition ptrs : Type := nat * nat.

Inductive cmd : Type :=
| EXEC (argv : list ptrs)
| REDIR (c : cmd) (file : ptrs) (mode fd : Z)
| PIPE (left right : cmd)
| LIST (left right : cmd)
| BACK (c : cmd).

(** ** Outcomes of the parser *)
Inductive presult (A : Type) : Type :=
| POk (a : A) (s : nat)
| PErr (msg : string)
| PLeft (s : nat)
| PFuel.
Arguments POk {A} a s.
Arguments PErr {A} msg.
Arguments PLeft {A} s.
Arguments PFuel {A}.

Definition pbind {A B} (r : presult A) (k : A -> nat -> presult B) : presult B :=
  match r with POk a s => k a s | PErr m => PErr m | PLeft s => PLeft s | PFuel => PFuel end.

Section Parser.
Context (buf : list Z).

Definition es : nat := length buf.
Definition at_ (s : nat) : Z := Str.byte_at buf s.

Definition whitespace : list Z := [32; 9; 13; 10; 11].
Definition symbols : list Z := [60; 124; 62; 38; 59; 40; 41].

(** [strchr(set, c) != 0] *)
Definition is_in (set : list Z) (c : Z) : bool :=
  match U.strchr set c with Some _ => true | None => false end.

(** [while(s < es && strchr(whitespace, *s)) s++;], [k] being [es - s]. *)
Fixpoint skip_space (k s : nat) : nat :=
  match k with
  | O => s
  | S k' => if is_in whitespace (at_ s) then skip_space k' (S s) else s
  end.

Fixpoint skip_word (k s : nat) : nat :=
  match k with
  | O => s
  | S k' =>
      if negb (is_in whitespace (at_ s)) && negb (is_in symbols (at_ s))
      then skip_word k' (S s) else s
  end.

(** The token's kind and its two ends, and where the next one starts. *)
Definition gettoken (s : nat) : Z * ptrs * nat :=
  let s := skip_space (es - s) s in
  let q := s in
  let c := at_ s in
  let '(ret, s) :=
    if c =? 0 then (c, s)
    else if is_in [124; 40; 41; 59; 38; 60] c then (c, S s)
    else if c =? 62 then
      let s := S s in
      if at_ s =? 62 then (43, S s) else (c, s)
    else (97, skip_word (es - s) s) in
  let eq := s in
  let s := skip_space (es - s) s in
  (ret, (q, eq), s).

Definition peek (toks : list Z) (s : nat) : bool * nat :=
  let s := skip_space (es - s) s in
  (negb (at_ s =? 0) && is_in toks (at_ s), s).

(** ** The grammar *)
Fixpoint parseredirs (fuel : nat) (c : cmd) (s : nat) : presult cmd :=
  match fuel with
  | O => PFuel
  | S f =>
      let '(b, s) := peek [60; 62] s in
      if negb b then POk c s else
      let '(tok, _, s) := gettoken s in
      let '(a, q, s) := gettoken s in
      if negb (a =? 97) then PErr "missing file for redirection" else
      let c :=
        if tok =? 60 then REDIR c q O_RDONLY 0
        else if tok =? 62 then REDIR c q (Z.lor O_WRONLY O_CREATE) 1
        else if tok =? 43 then REDIR c q (Z.lor O_WRONLY O_CREATE) 1
        else c in
      parseredirs f c s
  end.

(** [cmd->argv[...] = ...] reaches the [EXEC] that [ret] wraps. *)
Fixpoint set_argv (argv : list ptrs) (ret : cmd) : cmd :=
  match ret with
  | EXEC _ => EXEC argv
  | REDIR c file mode fd => REDIR (set_argv argv c) file mode fd
  | _ => ret
  end.

(** The loop of [parseexec]; [argv] are the arguments so far. *)
Fixpoint parseargs (fuel : nat) (argv : list ptrs) (ret : cmd) (s : nat) : presult cmd :=
  match fuel with
  | O => PFuel
  | S f =>
      let '(b, s) := peek [124; 41; 38; 59] s in
      if b then POk (set_argv argv ret) s else
      let '(tok, q, s) := gettoken s in
      if tok =? 0 then POk (set_argv argv ret) s else
      if negb (tok =? 97) then PErr "syntax" else
      let argv := argv ++ [q] in
      if (MAXARGS <=? length argv)%nat then PErr "too many args" else
      pbind (parseredirs f ret s) (fun ret s => parseargs f argv ret s)
  end.

(** [while(peek(ps, es, "&"))] of [parseline]. *)
Fixpoint parseamps (fuel : nat) (c : cmd) (s : nat) : presult cmd :=
  match fuel with
  | O => PFuel
  | S f =>
      let '(b, s) := peek [38] s in
      if negb b then POk c s else
      let '(_, _, s) := gettoken s in
      parseamps f (BACK c) s
  end.

Fixpoint parseline (fuel : nat) (s : nat) : presult cmd :=
  match fuel with
  | O => PFuel
  | S f =>
      pbind (parsepipe f s) (fun c s =>
      pbind (parseamps f c s) (fun c s =>
      let '(b, s) := peek [59] s in
      if b then
        let '(_, _, s) := gettoken s in
        pbind (parseline f s) (fun d s => POk (LIST c d) s)
      else POk c s))
  end
with parsepipe (fuel : nat) (s : nat) : presult cmd :=
  match fuel with
  | O => PFuel
  | S f =>
      pbind (parseexec f s) (fun c s =>
      let '(b, s) := peek [124] s in
      if b then
        let '(_, _, s) := gettoken s in
        pbind (parsepipe f s) (fun d s => POk (PIPE c d) s)
      else POk c s)
  end
with parseexec (fuel : nat) (s : nat) : presult cmd :=
  match fuel with
  | O => PFuel
  | S f =>
      let '(b, s) := peek [40] s in
      if b then parseblock f s else
      pbind (parseredirs f (EXEC []) s) (fun ret s => parseargs f [] ret s)
  end
with parseblock (fuel : nat) (s : nat) : presult cmd :=
  match fuel with
  | O => PFuel
  | S f =>
      let '(b, s) := peek [40] s in
      if negb b then PErr "parseblock" else
      let '(_, _, s) := gettoken s in
      pbind (parseline f s) (fun c s =>
      let '(b, s) := peek [41] s in
      if negb b then PErr "syntax - missing )" else
      let '(_, _, s) := gettoken s in
      parseredirs f c s)
  end.
End Parser.

(** ** nulterminate *)
Definition nul_at (buf : list Z) (p : ptrs) : list Z := <[snd p := 0]> buf.

Fixpoint nulterminate (c : cmd) (buf : list Z) : list Z :=
  match c with
  | EXEC argv => foldl nul_at buf argv
  | REDIR c file _ _ => nul_at (nulterminate c buf) file
  | PIPE l r => nulterminate r (nulterminate l buf)
  | LIST l r => nulterminate r (nulterminate l buf)
  | BACK c => nulterminate c buf
  end.

(** The recursion goes down by four calls for each token at most. *)
Definition parse_fuel (buf : list Z) : nat := 4 * length buf + 4.

(** The command, and the buffer with the strings terminated: the byte after
    the last one is the NUL [es] points to. *)
Definition parsecmd (buf : list Z) : presult (cmd * list Z) :=
  pbind (parseline buf (parse_fuel buf) 0) (fun c s =>
  let '(_, s) := peek buf [] s in
  if negb (s =? es buf)%nat then PLeft s else
  POk (c, nulterminate c (buf ++ [0])) s).

(** ** Tokens *)
Inductive tok : Type := TWord (w : list Z) | TSym (c : Z) | TApp.

Definition tok_code (t : tok) : Z := match t with TWord _ => 97 | TSym c => c | TApp => 43 end.
Definition tok_str (t : tok) : list Z := match t with TWord w => w | TSym c => [c] | TApp => [62; 62] end.
Definition first_char (t : tok) : Z := default 0 (head (tok_str t)).

Definition word_char (c : Z) : Prop := c <> 0 /\ is_in whitespace c = false /\ is_in symbols c = false.

Definition wf_tok (t : tok) : Prop :=
  match t with
  | TWord w => w <> [] /\ Forall word_char w
  | TSym c => is_in symbols c = true
  | TApp => True
  end.

(** What follows [t] does not continue it. *)
Definition separated (t : tok) (rest : list Z) : Prop :=
  match t with
  | TWord _ => match rest with [] => True | c :: _ => ~ word_char c end
  | TSym c => c = 62 -> head rest <> Some 62
  | TApp => True
  end.

(** [str] spells the tokens, with any white space after each of them. *)
Inductive layout : list tok -> list Z -> Prop :=
| layout_nil : layout [] []
| layout_cons t ts ws str :
    wf_tok t -> Forall (fun c => is_in whitespace c = true) ws -> layout ts str ->
    separated t (ws ++ str) -> layout (t :: ts) (tok_str t ++ ws ++ str).

Lemma is_in_spec set c : Forall (fun x => x <> 0) set -> is_in set c = true <-> c ∈ set.
Proof.
  unfold is_in. induction 1 as [|x set Hx _ IH]; cbn; [by rewrite elem_of_nil|].
  rewrite (proj2 (Z.eqb_neq x 0)) by done. rewrite elem_of_cons.
  destruct (Z.eqb_spec x c) as [->|Hne]; [tauto|]. rewrite IH. split; [tauto|]. intros [->|]; done.
Qed.

(** Decide membership in one of the fixed sets. *)
Ltac in_set := rewrite is_in_spec by (repeat constructor; done); rewrite ?elem_of_cons, elem_of_nil.

Lemma symbol_cases c : is_in symbols c = true ->
  c = 60 \/ c = 124 \/ c = 62 \/ c = 38 \/ c = 59 \/ c = 40 \/ c = 41.
Proof. unfold symbols. in_set. tauto. Qed.

Lemma symbol_not_space c : is_in symbols c = true -> is_in whitespace c = false /\ c <> 0.
Proof. intros H%symbol_cases. naive_solver. Qed.

Lemma word_char_not c : word_char c ->
  c <> 60 /\ c <> 124 /\ c <> 62 /\ c <> 38 /\ c <> 59 /\ c <> 40 /\ c <> 41.
Proof. intros (_ & _ & H). repeat split; intros ->; by vm_compute in H. Qed.

(** A symbol is found in a set of symbols, a word's character is not. *)
Lemma word_not_in set c : Forall (fun x => is_in symbols x = true) set -> word_char c -> is_in set c = false.
Proof.
  intros Hs (H0 & _ & Hc). apply not_true_is_false. rewrite is_in_spec.
  - intros Hin. rewrite list.Forall_forall in Hs. by rewrite (Hs c Hin) in Hc.
  - eapply list.Forall_impl; [exact Hs|]. intros x Hx. by apply symbol_not_space.
Qed.

Lemma wf_first t : wf_tok t -> exists c w, tok_str t = c :: w /\ first_char t = c /\
  c <> 0 /\ is_in whitespace c = false.
Proof.
  destruct t as [w|c|]; cbn; [|intros H; exists c, []; by apply symbol_not_space in H as []|intros _; by exists 62, [62]].
  intros [Hw Hf]. destruct Hf as [|c w (H1 & H2 & _) Hf]; [done|]. by exists c, w.
Qed.

Lemma layout_head ts str : layout ts str -> forall x str', str = x :: str' -> is_in whitespace x = false.
Proof.
  destruct 1 as [|t ts ws str Hw Hs Hl Hsep]; [done|]. intros x str' E.
  destruct (wf_first t Hw) as (c & w & Ec & _ & _ & Hc). rewrite Ec in E. by injection E as <- _.
Qed.

Section Tokens.
Context (buf : list Z).

Lemma drop_at s x l : drop s buf = x :: l -> at_ buf s = x /\ (s < (es buf))%nat /\ drop (S s) buf = l.
Proof.
  intros H. assert (buf !! s = Some x) as Hx.
  { rewrite <- (Nat.add_0_r s), <- lookup_drop, H. done. }
  split; [unfold at_, Str.byte_at; by rewrite Hx|]. split; [by apply lookup_lt_Some in Hx|].
  apply (drop_S buf x s) in Hx. rewrite H in Hx. by injection Hx.
Qed.

Lemma drop_end s : (s <= (es buf))%nat -> drop s buf = [] -> s = (es buf).
Proof. intros Hs H%(f_equal length). rewrite length_drop in H. cbn in H. unfold es in *. lia. Qed.

Lemma at_end : at_ buf (es buf) = 0.
Proof. unfold at_, Str.byte_at, es. by rewrite lookup_ge_None_2. Qed.

Lemma drop_length s l : drop s buf = l -> (s <= (es buf))%nat -> ((es buf) - s)%nat = length l.
Proof. intros <- _. by rewrite length_drop. Qed.

Lemma skip_space_spec ws str : Forall (fun c => is_in whitespace c = true) ws ->
  (forall x str', str = x :: str' -> is_in whitespace x = false) ->
  forall s, (s <= (es buf))%nat -> drop s buf = ws ++ str ->
  skip_space buf ((es buf) - s) s = (s + length ws)%nat /\ drop (s + length ws) buf = str /\ (s + length ws <= (es buf))%nat.
Proof.
  intros Hw Hstr. induction Hw as [|c ws Hc _ IH]; intros s Hs Hd; cbn [app length] in *.
  - rewrite Nat.add_0_r. split; [|done]. destruct str as [|x str].
    + rewrite (drop_end s Hs Hd). by rewrite Nat.sub_diag.
    + destruct (drop_at _ _ _ Hd) as (Ha & Hlt & _). destruct ((es buf) - s)%nat eqn:E; [lia|].
      cbn [skip_space]. by rewrite Ha, (Hstr x str).
  - destruct (drop_at _ _ _ Hd) as (Ha & Hlt & Hd'). destruct ((es buf) - s)%nat eqn:E; [lia|].
    cbn [skip_space]. rewrite Ha, Hc. replace n with ((es buf) - S s)%nat by lia.
    rewrite Nat.add_succ_r. apply (IH (S s)); [lia|done].
Qed.

Lemma skip_word_spec w rest : Forall word_char w ->
  match rest with [] => True | c :: _ => ~ word_char c /\ c <> 0 end ->
  forall s, (s <= (es buf))%nat -> drop s buf = w ++ rest -> skip_word buf ((es buf) - s) s = (s + length w)%nat.
Proof.
  intros Hw Hr. induction Hw as [|c w (H0 & H1 & H2) _ IH]; intros s Hs Hd; cbn [app length] in *.
  - rewrite Nat.add_0_r. destruct rest as [|x rest].
    + rewrite (drop_end s Hs Hd). by rewrite Nat.sub_diag.
    + destruct (drop_at _ _ _ Hd) as (Ha & Hlt & _). destruct ((es buf) - s)%nat eqn:E; [lia|].
      cbn [skip_word]. rewrite Ha. destruct (is_in whitespace x) eqn:E1, (is_in symbols x) eqn:E2; try done.
      exfalso. unfold word_char in Hr. tauto.
  - destruct (drop_at _ _ _ Hd) as (Ha & Hlt & Hd'). destruct ((es buf) - s)%nat eqn:E; [lia|].
    cbn [skip_word]. rewrite Ha, H1, H2. cbn [negb andb]. replace n with ((es buf) - S s)%nat by lia.
    rewrite Nat.add_succ_r. apply (IH (S s)); [lia|done].
Qed.

(** From [s] on the buffer spells [ts]. *)
Definition reads (s : nat) (ts : list tok) : Prop :=
  (s <= (es buf))%nat /\ exists ws str, Forall (fun c => is_in whitespace c = true) ws /\ layout ts str /\
    drop s buf = ws ++ str.

(** [p] points to the word [w]. *)
Definition points_to (p : ptrs) (w : list Z) : Prop :=
  w <> [] /\ Forall word_char w /\ snd p = (fst p + length w)%nat /\ ~ word_char (at_ buf (snd p)) /\
  exists rest, drop (fst p) buf = w ++ rest.

Lemma reads_skip s ts : reads s ts -> exists s' str, skip_space buf ((es buf) - s) s = s' /\ (s <= s')%nat /\ (s' <= (es buf))%nat /\
  layout ts str /\ drop s' buf = str.
Proof.
  intros (Hs & ws & str & Hw & Hl & Hd).
  destruct (skip_space_spec ws str Hw (layout_head _ _ Hl) s Hs Hd) as (H1 & H2 & H3).
  exists (s + length ws)%nat, str. split; [done|]. split; [lia|]. done.
Qed.

Lemma peek_spec set s ts : reads s ts ->
  exists s', peek buf set s = (match ts with [] => false | t :: _ => is_in set (first_char t) end, s') /\
    reads s' ts /\ (s <= s')%nat.
Proof.
  intros (s' & str & E & Hle & Hes & Hl & Hd)%reads_skip. exists s'. unfold peek. rewrite E.
  split; [|split; [|done]]; [|split; [done|]; by exists [], str]. f_equal.
  destruct Hl as [|t ts ws str Hw Hs Hl Hsep].
  - rewrite (drop_end s' Hes Hd), at_end. done.
  - destruct (wf_first t Hw) as (c & w & Ec & -> & Hc & _). rewrite Ec in Hd. cbn in Hd.
    destruct (drop_at _ _ _ Hd) as (-> & _). by rewrite (proj2 (Z.eqb_neq c 0)).
Qed.

(** What is left after a token. *)
Lemma reads_after t ts ws str q s :
  wf_tok t -> Forall (fun c => is_in whitespace c = true) ws -> layout ts str ->
  (q <= es buf)%nat -> drop q buf = tok_str t ++ ws ++ str -> s = (q + length (tok_str t))%nat ->
  reads (skip_space buf (es buf - s) s) ts /\ (s <= skip_space buf (es buf - s) s)%nat /\ drop s buf = ws ++ str.
Proof.
  intros Hw Hs Hl Hq Hd ->.
  assert (drop (q + length (tok_str t)) buf = ws ++ str) as Hd'.
  { rewrite <- drop_drop, Hd, drop_app_length. done. }
  assert (q + length (tok_str t) <= es buf)%nat as Hle.
  { pose proof (drop_length q _ Hd Hq) as H. rewrite length_app in H. lia. }
  destruct (skip_space_spec ws str Hs (layout_head _ _ Hl) _ Hle Hd') as (E & H1 & H2).
  rewrite E. split; [|split; [lia|done]]. split; [done|]. by exists [], str.
Qed.

Lemma gettoken_spec t ts s : reads s (t :: ts) -> Forall (fun c => c <> 0) buf ->
  exists p s', gettoken buf s = (tok_code t, p, s') /\ reads s' ts /\ (s < s')%nat /\
    match t with TWord w => points_to p w | _ => True end.
Proof.
  intros (s0 & str0 & E & Hle & Hes & Hl & Hd)%reads_skip Hnz. inversion Hl as [|t' ts' ws str Hw Hs Hl' Hsep]; subst.
  destruct (wf_first t Hw) as (c & w0 & Ec & _ & Hc & _). set (s1 := skip_space _ _ s) in *.
  assert (at_ buf s1 = c /\ drop (S s1) buf = w0 ++ ws ++ str) as [Ha Hd1].
  { rewrite Ec in H1. cbn in H1. symmetry in H1. by destruct (drop_at _ _ _ H1) as (-> & _ & ->). }
  symmetry in H1. exists (s1, (s1 + length (tok_str t))%nat).
  pose proof (reads_after t ts ws str s1 _ Hw Hs Hl' Hes H1 eq_refl) as (R & Hskip & Hdr).
  set (s2 := (s1 + length (tok_str t))%nat) in *. exists (skip_space buf (es buf - s2) s2).
  assert (0 < length (tok_str t))%nat by (rewrite Ec; cbn; lia).
  split; [|split; [done|split; [lia|]]].
  - unfold gettoken. fold s1. rewrite Ha. destruct t as [w|c'|]; cbn [tok_str tok_code length] in *.
    + subst w. destruct Hw as [_ Hwc]. pose proof (List.Forall_inv Hwc) as Hc1.
      rewrite (proj2 (Z.eqb_neq c 0)) by done.
      rewrite (word_not_in [124; 40; 41; 59; 38; 60]); [|by repeat constructor|done].
      rewrite (proj2 (Z.eqb_neq c 62)) by (by destruct (word_char_not c Hc1) as (_ & _ & ? & _)).
      rewrite (skip_word_spec (c :: w0) (ws ++ str)); try done.
      destruct (ws ++ str) as [|x r] eqn:Er; [done|]. split; [done|].
      destruct (drop_at s2 x r) as (Hx & Hlt & _); [by rewrite Hdr|]. rewrite list.Forall_lookup in Hnz.
      destruct (lookup_lt_is_Some_2 buf s2 Hlt) as [y Hy]. unfold at_, Str.byte_at in Hx. rewrite Hy in Hx.
      cbn in Hx. subst y. by apply (Hnz s2).
    + injection Ec as -> <-. rewrite (proj2 (Z.eqb_neq c 0)) by done. replace s2 with (S s1) by lia.
      destruct (symbol_cases c Hw) as [->|[->|[->|[->|[->|[->| ->]]]]]]; cbn; try done.
      destruct (Z.eqb_spec (at_ buf (S s1)) 62) as [E62|E62]; [|done]. exfalso.
      cbn in Hd1. destruct (ws ++ str) as [|x r] eqn:Er.
      * assert (S s1 = es buf) as Hend.
        { apply drop_end; [|done]. destruct (drop_at s1 62 []) as (_ & Hlt & _); [by rewrite H1|lia]. }
        rewrite Hend, at_end in E62. done.
      * destruct (drop_at (S s1) x r Hd1) as (Hx & _). cbn in Hsep. apply Hsep; [done|]. by rewrite <- Hx, E62.
    + injection Ec as <- <-. cbn. destruct (drop_at (S s1) 62 (ws ++ str) Hd1) as (-> & _).
      cbn. by replace s2 with (S (S s1)) by lia.
  - destruct t as [w|c'|]; try done. cbn [tok_str] in *. destruct Hw as [Hne Hwc].
    split; [done|]. split; [done|]. split; [done|]. split; [|by exists (ws ++ str)]. cbn [snd].
    cbn in Hsep. destruct (ws ++ str) as [|x r] eqn:Er.
    + assert (s2 = es buf) as ->; [|rewrite at_end; by intros []].
      apply drop_end; [|done]. pose proof (drop_length s1 _ H1 Hes) as H2. rewrite app_nil_r in H2.
      unfold s2. lia.
    + by destruct (drop_at s2 x r Hdr) as (-> & _).
Qed.

Lemma gettoken_end s : reads s [] -> exists p s', gettoken buf s = (0, p, s') /\ reads s' [].
Proof.
  intros (s' & str & E & Hle & Hes & Hl & Hd)%reads_skip. inversion Hl; subst.
  set (s1 := skip_space _ _ s) in *. assert (s1 = es buf) as E1 by (by apply drop_end).
  unfold gettoken. fold s1. rewrite E1, at_end. cbn. eexists _, _. split; [reflexivity|].
  rewrite Nat.sub_diag. cbn. split; [done|]. exists [], []. split; [done|]. split; [constructor|].
  by rewrite <- E1.
Qed.
End Tokens.

(** ** The grammar of command lines *)
Inductive rkind : Type := RIn | ROut | RApp.
Record redir : Type := mkRedir { r_kind : rkind; r_file : list Z }.

Inductive gline : Type :=
| GLine (p : gpipe) (amps : nat)
| GSeq (p : gpipe) (amps : nat) (l : gline)
with gpipe : Type :=
| GOne (e : gexec)
| GPipe (e : gexec) (p : gpipe)
with gexec : Type :=
| GBlock (l : gline) (rs : list redir)
| GExec (rs : list redir) (args : list (list Z * list redir)).

Scheme gline_mind := Induction for gline Sort Prop
with gpipe_mind := Induction for gpipe Sort Prop
with gexec_mind := Induction for gexec Sort Prop.
Combined Scheme grammar_ind from gline_mind, gpipe_mind, gexec_mind.

Definition redir_sym (k : rkind) : tok := match k with RIn => TSym 60 | ROut => TSym 62 | RApp => TApp end.
Definition redir_toks (r : redir) : list tok := [redir_sym (r_kind r); TWord (r_file r)].
Definition redirs_toks (rs : list redir) : list tok := concat (redir_toks <$> rs).
Definition args_toks (args : list (list Z * list redir)) : list tok :=
  concat ((fun a => TWord (fst a) :: redirs_toks (snd a)) <$> args).

Fixpoint line_toks (l : gline) : list tok :=
  match l with
  | GLine p n => pipe_toks p ++ replicate n (TSym 38)
  | GSeq p n l => pipe_toks p ++ replicate n (TSym 38) ++ TSym 59 :: line_toks l
  end
with pipe_toks (p : gpipe) : list tok :=
  match p with
  | GOne e => exec_toks e
  | GPipe e p => exec_toks e ++ TSym 124 :: pipe_toks p
  end
with exec_toks (e : gexec) : list tok :=
  match e with
  | GBlock l rs => TSym 40 :: line_toks l ++ TSym 41 :: redirs_toks rs
  | GExec rs args => redirs_toks rs ++ args_toks args
  end.

(** The commands, with the strings in place of the pointers. *)
Inductive scmd : Type :=
| SExec (argv : list (list Z))
| SRedir (c : scmd) (file : list Z) (mode fd : Z)
| SPipe (left right : scmd)
| SList (left right : scmd)
| SBack (c : scmd).

Definition redir_mode (k : rkind) : Z := match k with RIn => O_RDONLY | _ => Z.lor O_WRONLY O_CREATE end.
Definition redir_fd (k : rkind) : Z := match k with RIn => 0 | _ => 1 end.

(** Redirections apply from the left, the first one innermost. *)
Definition redirect (c : scmd) (r : redir) : scmd :=
  SRedir c (r_file r) (redir_mode (r_kind r)) (redir_fd (r_kind r)).

Fixpoint line_cmd (l : gline) : scmd :=
  match l with
  | GLine p n => Nat.iter n SBack (pipe_cmd p)
  | GSeq p n l => SList (Nat.iter n SBack (pipe_cmd p)) (line_cmd l)
  end
with pipe_cmd (p : gpipe) : scmd :=
  match p with
  | GOne e => exec_cmd e
  | GPipe e p => SPipe (exec_cmd e) (pipe_cmd p)
  end
with exec_cmd (e : gexec) : scmd :=
  match e with
  | GBlock l rs => foldl redirect (line_cmd l) rs
  | GExec rs args => foldl redirect (SExec (fst <$> args)) (rs ++ concat (snd <$> args))
  end.

(** At most nine arguments. *)
Fixpoint line_ok (l : gline) : Prop :=
  match l with GLine p _ => pipe_ok p | GSeq p _ l => pipe_ok p /\ line_ok l end
with pipe_ok (p : gpipe) : Prop :=
  match p with GOne e => exec_ok e | GPipe e p => exec_ok e /\ pipe_ok p end
with exec_ok (e : gexec) : Prop :=
  match e with GBlock l _ => line_ok l | GExec _ args => (length args < MAXARGS)%nat end.

(** The next token is not one of those the parser would take in. *)
Definition follow (set : list Z) (ts : list tok) : Prop :=
  match ts with [] => True | TSym c :: _ => is_in set c = true | _ => False end.

Section Parse.
Context (buf : list Z) (Hnz : Forall (fun c => c <> 0) buf).

(** What a command with pointers into the buffer denotes. *)
Inductive denotes : cmd -> scmd -> Prop :=
| den_exec argv ws : Forall2 (points_to buf) argv ws -> denotes (EXEC argv) (SExec ws)
| den_redir c sc p w mode fd : denotes c sc -> points_to buf p w -> denotes (REDIR c p mode fd) (SRedir sc w mode fd)
| den_pipe c sc d sd : denotes c sc -> denotes d sd -> denotes (PIPE c d) (SPipe sc sd)
| den_list c sc d sd : denotes c sc -> denotes d sd -> denotes (LIST c d) (SList sc sd)
| den_back c sc : denotes c sc -> denotes (BACK c) (SBack sc).

(** [c'] is [c] inside the redirections [rs]. *)
Fixpoint wraps (rs : list redir) (c c' : cmd) : Prop :=
  match rs with
  | [] => c' = c
  | r :: rs => exists p, points_to buf p (r_file r) /\
      wraps rs (REDIR c p (redir_mode (r_kind r)) (redir_fd (r_kind r))) c'
  end.

Lemma wraps_app rs1 rs2 : forall c c1 c2, wraps rs1 c c1 -> wraps rs2 c1 c2 -> wraps (rs1 ++ rs2) c c2.
Proof.
  induction rs1 as [|r rs1 IH]; intros c c1 c2; cbn; [by intros ->|].
  intros (p & Hp & H) H2. exists p. split; [done|]. by eapply IH.
Qed.

Lemma wraps_argv argv rs : forall c c', wraps rs c c' -> wraps rs (set_argv argv c) (set_argv argv c').
Proof.
  induction rs as [|r rs IH]; intros c c'; cbn; [by intros ->|]. intros (p & Hp & H). exists p.
  split; [done|]. by apply (IH (REDIR c p _ _)).
Qed.

Lemma wraps_denotes rs : forall c c' sc, wraps rs c c' -> denotes c sc -> denotes c' (foldl redirect sc rs).
Proof.
  induction rs as [|r rs IH]; intros c c' sc; cbn; [by intros ->|]. intros (p & Hp & H) Hc.
  apply (IH _ _ _ H). by constructor.
Qed.

Lemma peek_follow set fol s ts :
  reads buf s ts -> follow fol ts -> Forall (fun x => is_in set x = false) fol ->
  Forall (fun x => x <> 0) fol ->
  exists s', peek buf set s = (false, s') /\ reads buf s' ts.
Proof.
  intros R F Hset Hf. destruct (peek_spec buf set s ts R) as (s' & E & R' & _). exists s'. split; [|done].
  rewrite E. f_equal. destruct ts as [|[w|c|] ts]; try done. cbn in *. apply (is_in_spec fol c Hf) in F.
  rewrite list.Forall_forall in Hset. by apply Hset.
Qed.

Lemma parseredirs_spec rs : forall f c s rest,
  (length rs < f)%nat -> reads buf s (redirs_toks rs ++ rest) -> follow [124; 41; 38; 59] rest \/
    (exists w rest', rest = TWord w :: rest') ->
  exists c' s', parseredirs buf f c s = POk c' s' /\ reads buf s' rest /\ wraps rs c c'.
Proof using Hnz.
  induction rs as [|r rs IH]; intros f c s rest Hf R F; cbn [length] in Hf; (destruct f as [|f]; [lia|]);
    cbn [parseredirs].
  - cbn in R. exists c. assert (exists s', peek buf [60; 62] s = (false, s') /\ reads buf s' rest) as (s' & -> & R').
    { destruct F as [F|(w & rest' & ->)].
      - apply (peek_follow [60; 62] [124; 41; 38; 59]); try done; by repeat constructor.
      - destruct (peek_spec buf [60; 62] s _ R) as (s' & E & R' & _). exists s'. split; [|done]. rewrite E. f_equal.
        destruct R' as (_ & ws & str & _ & Hl & _). inversion Hl as [|? ? ? ? Hw]; subst.
        destruct Hw as [Hne Hwc]. destruct Hwc as [|x w Hx _]; [done|]. cbn.
        apply (word_not_in [60; 62]); [by repeat constructor|done]. }
    by exists s'.
  - change (redirs_toks (r :: rs)) with (redir_sym (r_kind r) :: TWord (r_file r) :: redirs_toks rs) in R.
    cbn [app] in R. destruct (peek_spec buf [60; 62] s _ R) as (s1 & E1 & R1 & _).
    assert (is_in [60; 62] (first_char (redir_sym (r_kind r))) = true) as Ef by (by destruct (r_kind r)).
    rewrite E1, Ef. cbn [negb].
    destruct (gettoken_spec buf _ _ s1 R1 Hnz) as (p1 & s2 & -> & R2 & _).
    destruct (gettoken_spec buf _ _ s2 R2 Hnz) as (p2 & s3 & -> & R3 & _ & Hp). cbn [tok_code Z.eqb Pos.eqb negb].
    destruct (IH f (REDIR c p2 (redir_mode (r_kind r)) (redir_fd (r_kind r))) s3 rest) as (c' & s' & E & R' & W);
      [lia|done|done|].
    exists c', s'. split; [|split; [done|by exists p2]]. rewrite <- E. by destruct (r_kind r).
Qed.

Lemma parseargs_spec args : forall f argv ret s rest,
  (length (args_toks args) < f)%nat -> reads buf s (args_toks args ++ rest) -> follow [124; 41; 38; 59] rest ->
  (length argv + length args < MAXARGS)%nat ->
  exists ret' s' ps, parseargs buf f argv ret s = POk (set_argv (argv ++ ps) ret') s' /\ reads buf s' rest /\
    wraps (concat (snd <$> args)) ret ret' /\ Forall2 (points_to buf) ps (fst <$> args).
Proof using Hnz.
  induction args as [|[w rs] args IH]; intros f argv ret s rest Hf R F Hn; (destruct f as [|f]; [lia|]);
    cbn [parseargs].
  - cbn in R. exists ret. destruct (peek_spec buf [124; 41; 38; 59] s _ R) as (s1 & E1 & R1 & _). rewrite E1.
    destruct rest as [|[w|c|] rest]; cbn in F; try done.
    + destruct (gettoken_end buf s1 R1) as (p & s2 & -> & R2). cbn. exists s2, []. rewrite app_nil_r.
      split; [done|]. split; [done|]. split; [done|constructor].
    + change (first_char (TSym c)) with c. rewrite F.
      exists s1, []. rewrite app_nil_r. split; [done|]. split; [done|]. split; [done|constructor].
  - change (args_toks ((w, rs) :: args)) with (TWord w :: redirs_toks rs ++ args_toks args) in *.
    cbn [app length] in *. rewrite <- app_assoc in R. rewrite length_app in Hf.
    destruct (peek_spec buf [124; 41; 38; 59] s _ R) as (s1 & E1 & R1 & _). rewrite E1.
    assert (is_in [124; 41; 38; 59] (first_char (TWord w)) = false) as ->.
    { destruct R1 as (_ & ws & str & _ & Hl & _). inversion Hl as [|? ? ? ? Hw]; subst.
      destruct Hw as [Hne Hwc]. destruct Hwc as [|x w' Hx _]; [done|].
      apply (word_not_in [124; 41; 38; 59]); [by repeat constructor|done]. }
    destruct (gettoken_spec buf _ _ s1 R1 Hnz) as (p & s2 & -> & R2 & _ & Hp). cbn [tok_code Z.eqb Pos.eqb negb].
    rewrite (proj2 (Nat.leb_gt _ _)) by (rewrite length_app; cbn; lia).
    assert (length rs <= length (redirs_toks rs))%nat as Hrs.
    { clear. induction rs as [|r rs IH]; [done|]. change (redirs_toks (r :: rs)) with (redir_toks r ++ redirs_toks rs).
      rewrite length_app. cbn. lia. }
    destruct (parseredirs_spec rs f ret s2 (args_toks args ++ rest)) as (ret1 & s3 & -> & R3 & W3); [lia|done| |].
    { destruct args as [|[w2 rs2] args]; [by left|]. right. cbn. by eexists _, _. }
    cbn [pbind]. destruct (IH f (argv ++ [p]) ret1 s3 rest) as (ret' & s' & ps & -> & R' & W & Hps);
      [lia|done|done|rewrite length_app; cbn; lia|].
    exists ret', s', (p :: ps). rewrite <- app_assoc. split; [done|]. split; [done|].
    split; [by eapply wraps_app|]. by constructor.
Qed.

Lemma parseamps_spec n : forall f c s rest,
  (n < f)%nat -> reads buf s (replicate n (TSym 38) ++ rest) -> follow [41; 59] rest ->
  exists s', parseamps buf f c s = POk (Nat.iter n BACK c) s' /\ reads buf s' rest.
Proof using Hnz.
  induction n as [|n IH]; intros f c s rest Hf R F; (destruct f as [|f]; [lia|]); cbn [parseamps].
  - cbn in R. destruct (peek_follow [38] [41; 59] s rest R F) as (s' & -> & R'); [by repeat constructor..|].
    by exists s'.
  - cbn [replicate app] in R. destruct (peek_spec buf [38] s _ R) as (s1 & E1 & R1 & _). rewrite E1. cbn.
    destruct (gettoken_spec buf _ _ s1 R1 Hnz) as (p & s2 & -> & R2 & _).
    destruct (IH f (BACK c) s2 rest) as (s' & -> & R'); [lia|done|done|]. exists s'. split; [|done].
    by rewrite <- Nat.iter_succ_r.
Qed.

Lemma follow_mono set set' ts :
  Forall (fun x => x <> 0) set -> Forall (fun x => is_in set' x = true) set -> follow set ts -> follow set' ts.
Proof.
  intros H0 Hs F. destruct ts as [|[w|c|] ts]; try done. cbn in *. apply (is_in_spec set c H0) in F.
  rewrite list.Forall_forall in Hs. by apply Hs.
Qed.

Lemma denotes_iter n c sc : denotes c sc -> denotes (Nat.iter n BACK c) (Nat.iter n SBack sc).
Proof. intros H. induction n as [|n IH]; [done|]. cbn. by constructor. Qed.

(** Taking a token that was seen by [peek]. *)
Lemma take_sym set c s rest :
  reads buf s (TSym c :: rest) -> is_in set c = true ->
  exists s1 p s2, peek buf set s = (true, s1) /\ gettoken buf s1 = (c, p, s2) /\ reads buf s2 rest.
Proof using Hnz.
  intros R Hc. destruct (peek_spec buf set s _ R) as (s1 & E1 & R1 & _).
  destruct (gettoken_spec buf _ _ s1 R1 Hnz) as (p & s2 & E2 & R2 & _). exists s1, p, s2.
  split; [|done]. rewrite E1. change (first_char (TSym c)) with c. by rewrite Hc.
Qed.

Definition line_spec (l : gline) : Prop := line_ok l -> forall f s rest,
  (4 * length (line_toks l) + 4 <= f)%nat -> reads buf s (line_toks l ++ rest) -> follow [41] rest ->
  exists c s', parseline buf f s = POk c s' /\ reads buf s' rest /\ denotes c (line_cmd l).
Definition pipe_spec (p : gpipe) : Prop := pipe_ok p -> forall f s rest,
  (4 * length (pipe_toks p) + 3 <= f)%nat -> reads buf s (pipe_toks p ++ rest) -> follow [41; 38; 59] rest ->
  exists c s', parsepipe buf f s = POk c s' /\ reads buf s' rest /\ denotes c (pipe_cmd p).
Definition exec_spec (e : gexec) : Prop := exec_ok e -> forall f s rest,
  (4 * length (exec_toks e) + 2 <= f)%nat -> reads buf s (exec_toks e ++ rest) -> follow [124; 41; 38; 59] rest ->
  exists c s', parseexec buf f s = POk c s' /\ reads buf s' rest /\ denotes c (exec_cmd e).

Lemma redirs_toks_length rs : length (redirs_toks rs) = (2 * length rs)%nat.
Proof.
  induction rs as [|r rs IH]; [done|]. change (redirs_toks (r :: rs)) with (redir_toks r ++ redirs_toks rs).
  rewrite length_app, IH. cbn. lia.
Qed.

Lemma gblock_spec l rs : line_spec l -> exec_spec (GBlock l rs).
Proof using Hnz.
  intros IH Hok f s rest Hf R F. cbn [exec_toks exec_ok exec_cmd] in *. destruct f as [|[|f]]; [lia|lia|].
  cbn [length] in Hf. rewrite length_app in Hf. cbn [length] in Hf. rewrite redirs_toks_length in Hf.
  cbn [app] in R. rewrite <- app_assoc in R. cbn [app] in R.
  cbn [parseexec parseblock]. destruct (peek_spec buf [40] s _ R) as (s0 & E0 & R0 & _). rewrite E0.
  change (is_in [40] (first_char (TSym 40))) with true. cbv iota.
  destruct (take_sym [40] 40 s0 _ R0 eq_refl) as (s1 & p1 & s2 & -> & -> & R2). cbn [negb].
  destruct (IH Hok f s2 (TSym 41 :: redirs_toks rs ++ rest)) as (c & s3 & -> & R3 & D3); [lia|done|done|].
  cbn [pbind]. destruct (take_sym [41] 41 s3 _ R3 eq_refl) as (s4 & p4 & s5 & -> & -> & R5). cbn [negb].
  destruct (parseredirs_spec rs f c s5 rest) as (c' & s' & -> & R' & W); [lia|done|by left|].
  exists c', s'. split; [done|]. split; [done|]. by apply (wraps_denotes rs c).
Qed.

Lemma gexec_spec rs args : exec_spec (GExec rs args).
Proof using Hnz.
  intros Hok f s rest Hf R F. cbn [exec_toks exec_ok exec_cmd] in *. destruct f as [|f]; [lia|].
  rewrite length_app, redirs_toks_length in Hf. rewrite <- app_assoc in R. cbn [parseexec].
  destruct (peek_spec buf [40] s _ R) as (s0 & E0 & R0 & _). rewrite E0.
  assert (match redirs_toks rs ++ args_toks args ++ rest with [] => false | t :: _ => is_in [40] (first_char t) end
    = false) as ->.
  { destruct rs as [|r rs]; [|by destruct r as [[] w]]. destruct args as [|[w rs2] args].
    - cbn. destruct rest as [|[w|c|] rest]; try done. cbn in *.
      apply (is_in_spec [124; 41; 38; 59]) in F; [|by repeat constructor].
      rewrite !elem_of_cons, elem_of_nil in F. naive_solver.
    - cbn. destruct R0 as (_ & ws & str & _ & Hl & _). inversion Hl as [|? ? ? ? Hw]; subst.
      destruct Hw as [Hne Hwc]. destruct Hwc as [|x w' Hx _]; [done|].
      apply (word_not_in [40]); [by repeat constructor|done]. }
  destruct (parseredirs_spec rs f (EXEC []) s0 (args_toks args ++ rest)) as (ret & s1 & -> & R1 & W1); [lia|done| |].
  { destruct args as [|[w2 rs2] args]; [by left|]. right. cbn. by eexists _, _. }
  cbn [pbind]. destruct (parseargs_spec args f [] ret s1 rest) as (ret' & s' & ps & -> & R' & W & Hps);
    [lia|done|done|cbn; lia|].
  eexists _, s'. split; [done|]. split; [done|]. cbn [app].
  apply (wraps_denotes _ (EXEC ps)); [|by constructor].
  apply (wraps_argv ps _ (EXEC [])). by eapply wraps_app.
Qed.

Lemma parse_specs :
  (forall l, line_spec l) /\ (forall p, pipe_spec p) /\ (forall e, exec_spec e).
Proof using Hnz.
  apply grammar_ind.
  - intros p IHp n Hok f s rest Hf R F. cbn [line_toks line_ok line_cmd] in *. destruct f as [|f]; [lia|].
    rewrite length_app, length_replicate in Hf. rewrite <- app_assoc in R. cbn [parseline].
    destruct (IHp Hok f s (replicate n (TSym 38) ++ rest)) as (c & s1 & -> & R1 & D1); [lia|done| |].
    { destruct n; [|done]. apply (follow_mono [41]); [by repeat constructor..|done]. }
    cbn [pbind]. destruct (parseamps_spec n f c s1 rest) as (s2 & -> & R2); [lia|done| |].
    { apply (follow_mono [41]); [by repeat constructor..|done]. }
    cbn [pbind]. destruct (peek_follow [59] [41] s2 rest R2 F) as (s3 & -> & R3); [by repeat constructor..|].
    exists (Nat.iter n BACK c), s3. split; [done|]. split; [done|]. by apply denotes_iter.
  - intros p IHp n l IHl [Hok1 Hok2] f s rest Hf R F. cbn [line_toks line_cmd] in *. destruct f as [|f]; [lia|].
    rewrite !length_app, length_replicate in Hf. cbn [length] in Hf. rewrite <- !app_assoc in R. cbn [parseline].
    destruct (IHp Hok1 f s (replicate n (TSym 38) ++ TSym 59 :: line_toks l ++ rest)) as (c & s1 & -> & R1 & D1);
      [lia|done|by destruct n|].
    cbn [pbind]. destruct (parseamps_spec n f c s1 (TSym 59 :: line_toks l ++ rest)) as (s2 & -> & R2); [lia|done|done|].
    cbn [pbind]. destruct (take_sym [59] 59 s2 _ R2 eq_refl) as (s3 & p3 & s4 & -> & -> & R4).
    destruct (IHl Hok2 f s4 rest) as (d & s5 & -> & R5 & D5); [lia|done|done|]. cbn [pbind].
    eexists _, s5. split; [done|]. split; [done|]. constructor; [by apply denotes_iter|done].
  - intros e IHe Hok f s rest Hf R F. cbn [pipe_toks pipe_ok pipe_cmd] in *. destruct f as [|f]; [lia|].
    cbn [parsepipe]. destruct (IHe Hok f s rest) as (c & s1 & -> & R1 & D1); [lia|done| |].
    { apply (follow_mono [41; 38; 59]); [by repeat constructor..|done]. }
    cbn [pbind]. destruct (peek_follow [124] [41; 38; 59] s1 rest R1 F) as (s2 & -> & R2); [by repeat constructor..|].
    by exists c, s2.
  - intros e IHe p IHp [Hok1 Hok2] f s rest Hf R F. cbn [pipe_toks pipe_cmd] in *. destruct f as [|f]; [lia|].
    rewrite length_app in Hf. cbn [length] in Hf. rewrite <- app_assoc in R. cbn [parsepipe].
    destruct (IHe Hok1 f s (TSym 124 :: pipe_toks p ++ rest)) as (c & s1 & -> & R1 & D1); [lia|done|done|].
    cbn [pbind]. destruct (take_sym [124] 124 s1 _ R1 eq_refl) as (s2 & p2 & s3 & -> & -> & R3).
    destruct (IHp Hok2 f s3 rest) as (d & s4 & -> & R4 & D4); [lia|done|done|]. cbn [pbind].
    eexists _, s4. split; [done|]. split; [done|]. by constructor.
  - intros l IHl rs. by apply gblock_spec.
  - intros rs args. apply gexec_spec.
Qed.
End Parse.

(** ** Terminating the strings *)
Fixpoint ptrs_of (c : cmd) : list ptrs :=
  match c with
  | EXEC argv => argv
  | REDIR c p _ _ => ptrs_of c ++ [p]
  | PIPE l r => ptrs_of l ++ ptrs_of r
  | LIST l r => ptrs_of l ++ ptrs_of r
  | BACK c => ptrs_of c
  end.

Lemma nulterminate_ptrs c : forall b, nulterminate c b = foldl nul_at b (ptrs_of c).
Proof. induction c; intros b; cbn; rewrite ?foldl_app; by rewrite ?IHc, ?IHc1, ?IHc2. Qed.

Lemma foldl_nul_length ps : forall b, length (foldl nul_at b ps) = length b.
Proof. induction ps as [|p ps IH]; intros b; [done|]. cbn. rewrite IH. apply length_insert. Qed.

Lemma foldl_nul_other i ps : (forall p, p ∈ ps -> snd p <> i) -> forall b, foldl nul_at b ps !! i = b !! i.
Proof.
  induction ps as [|p ps IH]; intros H b; [done|]. cbn. rewrite IH by (intros q Hq; apply H; by right).
  apply list_lookup_insert_ne. apply H. by left.
Qed.

Lemma foldl_nul_at i ps : i ∈ (snd <$> ps) -> forall b, (i < length b)%nat -> foldl nul_at b ps !! i = Some 0.
Proof.
  induction ps as [|p ps IH]; intros Hi b Hb; cbn in *; [by apply elem_of_nil in Hi|].
  destruct (decide (i ∈ (snd <$> ps))) as [Hin|Hin].
  - apply IH; [done|]. unfold nul_at. by rewrite length_insert.
  - rewrite foldl_nul_other.
    + apply elem_of_cons in Hi as [->|]; [|done]. by apply list_lookup_insert_eq.
    + intros q Hq <-. apply Hin. by apply list_elem_of_fmap_2.
Qed.

Lemma cstr_word w r : 0 ∉ w -> Str.cstr (w ++ 0 :: r) = w.
Proof.
  induction w as [|c w IH]; intros H; [done|]. apply not_elem_of_cons in H as [H1 H2]. cbn.
  rewrite (proj2 (Z.eqb_neq c 0)) by congruence. by rewrite IH.
Qed.

(** What [runcmd] finds through the pointers. *)
Definition read_ptr (b : list Z) (p : ptrs) : list Z := Str.cstr (drop (fst p) b).

Fixpoint read_cmd (b : list Z) (c : cmd) : scmd :=
  match c with
  | EXEC argv => SExec (read_ptr b <$> argv)
  | REDIR c p mode fd => SRedir (read_cmd b c) (read_ptr b p) mode fd
  | PIPE l r => SPipe (read_cmd b l) (read_cmd b r)
  | LIST l r => SList (read_cmd b l) (read_cmd b r)
  | BACK c => SBack (read_cmd b c)
  end.

Section Terminate.
Context (buf : list Z).

Lemma points_to_char p w j x : points_to buf p w -> w !! j = Some x -> buf !! (fst p + j)%nat = Some x /\ word_char x.
Proof.
  intros (_ & Hf & _ & _ & rest & Hd) Hj. split.
  - rewrite <- lookup_drop, Hd. by apply lookup_app_l_Some.
  - rewrite list.Forall_lookup in Hf. by apply (Hf j).
Qed.

(** Every string is terminated at its own end and at no place inside. *)
Lemma read_ptr_spec ps p w :
  p ∈ ps -> points_to buf p w -> (forall q, q ∈ ps -> exists v, points_to buf q v) ->
  read_ptr (foldl nul_at (buf ++ [0]) ps) p = w.
Proof.
  intros Hp Hw Hps. pose proof Hw as (_ & Hf & Hsnd & _ & rest & Hd).
  set (b := foldl nul_at (buf ++ [0]) ps).
  assert (snd p < length (buf ++ [0%Z]))%nat as Hlt.
  { apply (f_equal length) in Hd. rewrite length_drop, length_app in Hd. rewrite length_app. cbn.
    destruct Hw as (Hne & _). destruct w; [done|]. cbn in *. lia. }
  assert (take (length w) (drop (fst p) b) = w) as Ht.
  { apply list_eq. intros j. destruct (decide (j < length w)%nat) as [Hj|Hj].
    - rewrite lookup_take_lt by done. rewrite lookup_drop. destruct (lookup_lt_is_Some_2 w j Hj) as [x Hx].
      destruct (points_to_char p w j x Hw Hx) as [Hb Hc]. rewrite Hx. unfold b. rewrite foldl_nul_other.
      + by apply lookup_app_l_Some.
      + intros q Hq E. destruct (Hps q Hq) as (v & _ & _ & _ & Hn & _). apply Hn. rewrite E.
        unfold at_, Str.byte_at. by rewrite Hb.
    - rewrite lookup_take_ge, lookup_ge_None_2 by lia. done. }
  assert (b !! snd p = Some 0) as H0.
  { apply foldl_nul_at; [by apply list_elem_of_fmap_2|done]. }
  unfold read_ptr. rewrite <- (take_drop (length w) (drop (fst p) b)), Ht, drop_drop, <- Hsnd.
  rewrite (drop_S b 0 (snd p) H0). apply cstr_word. rewrite list.Forall_forall in Hf.
  intros Hin. by destruct (Hf 0 Hin).
Qed.

Lemma denotes_ptrs c sc : denotes buf c sc -> forall q, q ∈ ptrs_of c -> exists v, points_to buf q v.
Proof.
  induction 1 as [argv ws H| | | |]; intros q Hq; cbn in Hq; rewrite ?elem_of_app, ?list_elem_of_singleton in Hq;
    try (naive_solver).
  apply list_elem_of_lookup in Hq as [j Hj]. destruct (Forall2_lookup_l _ _ _ _ _ H Hj) as (v & _ & Hv). by exists v.
Qed.

Lemma read_cmd_spec ps c sc : denotes buf c sc -> (forall q, q ∈ ptrs_of c -> q ∈ ps) ->
  (forall q, q ∈ ps -> exists v, points_to buf q v) -> read_cmd (foldl nul_at (buf ++ [0]) ps) c = sc.
Proof.
  intros D Hin Hps. induction D as [argv ws H|c sc p w mode fd D IH Hp|c sc d sd D1 IH1 D2 IH2|c sc d sd D1 IH1 D2 IH2|c sc D IH];
    cbn in *.
  - f_equal. apply list_eq. intros j. rewrite list_lookup_fmap.
    destruct (argv !! j) as [p|] eqn:Hj; cbn.
    + destruct (Forall2_lookup_l _ _ _ _ _ H Hj) as (v & -> & Hv). f_equal.
      apply read_ptr_spec; [|done|done]. apply Hin. by eapply list_elem_of_lookup_2.
    + apply lookup_ge_None in Hj. apply Forall2_length in H. rewrite lookup_ge_None_2; [done|lia].
  - rewrite IH, (read_ptr_spec ps p w); [done| |done|done|]; [|intros q Hq]; apply Hin, elem_of_app; [right|by left].
    by apply list_elem_of_singleton.
  - rewrite IH1, IH2; [done|intros q Hq; apply Hin, elem_of_app; by right|intros q Hq; apply Hin, elem_of_app; by left].
  - rewrite IH1, IH2; [done|intros q Hq; apply Hin, elem_of_app; by right|intros q Hq; apply Hin, elem_of_app; by left].
  - by rewrite IH.
Qed.
End Terminate.

Lemma layout_nonzero ts str : layout ts str -> Forall (fun c => c <> 0) str /\ (length ts <= length str)%nat.
Proof.
  induction 1 as [|t ts ws str Hw Hs Hl [IH1 IH2] Hsep]; [by split; [constructor|cbn]|].
  destruct (wf_first t Hw) as (c & w & E & _ & Hc & _). rewrite !Forall_app, !length_app. split; [split; [|split; [|done]]|].
  - destruct t as [w'|c'|]; cbn in *; [|constructor; [congruence|constructor]|by repeat constructor].
    destruct Hw as [_ Hw]. eapply list.Forall_impl; [exact Hw|]. by intros x [].
  - eapply list.Forall_impl; [exact Hs|]. intros x Hx ->. by vm_compute in Hx.
  - rewrite E. cbn. lia.
Qed.

Lemma parsecmd_line l ws str :
  line_ok l -> Forall (fun c => is_in whitespace c = true) ws -> layout (line_toks l) str ->
  exists c b s, parsecmd (ws ++ str) = POk (c, b) s /\ read_cmd b c = line_cmd l.
Proof.
  intros Hok Hws Hl. destruct (layout_nonzero _ _ Hl) as [Hnz Hlen].
  assert (Forall (fun c => c <> 0) (ws ++ str)) as Hnz'.
  { apply Forall_app. split; [|done]. eapply list.Forall_impl; [exact Hws|]. intros x Hx ->. by vm_compute in Hx. }
  destruct (parse_specs (ws ++ str) Hnz') as [Hline _].
  destruct (Hline l Hok (parse_fuel (ws ++ str)) 0%nat []) as (c & s1 & E & R & D).
  - unfold parse_fuel. rewrite length_app. lia.
  - split; [lia|]. exists ws, str. by rewrite app_nil_r.
  - done.
  - destruct (peek_spec _ [] s1 _ R) as (s2 & E2 & R2 & _).
    assert (s2 = es (ws ++ str)) as ->.
    { unfold peek in E2. injection E2 as _ <-.
      destruct (reads_skip _ _ _ R) as (s4 & str4 & -> & _ & Hes4 & Hl4 & Hd4).
      inversion Hl4; subst. by apply drop_end. }
    exists c, (nulterminate c ((ws ++ str) ++ [0])), (es (ws ++ str)). unfold parsecmd. rewrite E. cbn [pbind]. rewrite E2.
    rewrite Nat.eqb_refl. split; [done|]. rewrite nulterminate_ptrs.
    apply (read_cmd_spec (ws ++ str) _ c _ D); [done|]. by eapply denotes_ptrs.
Qed.

(** C14: the parser and nulterminate are inverse to writing a command line down:
    from any spelling of the tokens of a line, with white space between them as
    it may be, they build the commands the line stands for, and the argument
    and file pointers lead to exactly the words written. *)
Theorem parsecmd_roundtrip l ws str :
  line_ok l -> Forall (fun c => is_in whitespace c = true) ws -> layout (line_toks l) str ->
  exists c b s, parsecmd (ws ++ str) = POk (c, b) s /\ read_cmd b c = line_cmd l.
Proof. apply parsecmd_line. Qed.

(** ** The parser always ends *)
Section Total.
Context (buf : list Z).

Lemma skip_space_bound k : forall s, (s + k <= es buf)%nat ->
  (s <= skip_space buf k s)%nat /\ (skip_space buf k s <= es buf)%nat /\
  (skip_space buf k s = (s + k)%nat \/ is_in whitespace (at_ buf (skip_space buf k s)) = false).
Proof.
  induction k as [|k IH]; intros s Hs; cbn [skip_space]; [split; [done|]; split; [lia|]; left; lia|].
  destruct (is_in whitespace (at_ buf s)) eqn:E; [|split; [done|]; split; [lia|by right]].
  destruct (IH (S s)) as (H1 & H2 & H3); [lia|]. split; [lia|]. split; [done|].
  destruct H3 as [H3|H3]; [left; lia|by right].
Qed.

Lemma skip_word_bound k : forall s, (s + k <= es buf)%nat ->
  (s <= skip_word buf k s)%nat /\ (skip_word buf k s <= es buf)%nat.
Proof.
  induction k as [|k IH]; intros s Hs; cbn [skip_word]; [lia|]. destruct (_ && _); [|lia].
  destruct (IH (S s)); lia.
Qed.

Lemma at_nonzero s : at_ buf s <> 0 -> (s < es buf)%nat.
Proof.
  unfold at_, Str.byte_at, es. intros H. destruct (buf !! s) eqn:E; [by apply lookup_lt_Some in E|done].
Qed.

Lemma gettoken_bound s a p s' : (s <= es buf)%nat -> gettoken buf s = (a, p, s') ->
  (s <= s')%nat /\ (s' <= es buf)%nat /\ (a <> 0 -> (s < s')%nat).
Proof.
  intros Hs E. unfold gettoken in E. set (s1 := skip_space buf _ s) in *.
  destruct (skip_space_bound (es buf - s) s ltac:(lia)) as (H1 & H2 & H3). fold s1 in H1, H2, H3.
  assert (exists s2, s' = skip_space buf (es buf - s2) s2 /\ (s1 <= s2)%nat /\ (s2 <= es buf)%nat /\
    (a <> 0 -> (s1 < s2)%nat)) as (s2 & -> & Hs2 & He2 & Hlt).
  { destruct (Z.eqb_spec (at_ buf s1) 0) as [E0|E0].
    { injection E as <- _ <-. exists s1. split; [done|]. split; [done|]. split; [done|]. by intros []. }
    pose proof (at_nonzero s1 E0) as Hlt1.
    destruct (is_in [124; 40; 41; 59; 38; 60] (at_ buf s1)) eqn:E1.
    { injection E as <- _ <-. exists (S s1). split; [done|]. lia. }
    destruct (Z.eqb_spec (at_ buf s1) 62) as [E2|E2].
    { destruct (Z.eqb_spec (at_ buf (S s1)) 62) as [E3|E3]; injection E as <- _ <-.
      - exists (S (S s1)). split; [done|]. pose proof (at_nonzero (S s1)) as H. rewrite E3 in H. specialize (H ltac:(done)). lia.
      - exists (S s1). split; [done|]. lia. }
    injection E as <- _ <-. exists (skip_word buf (es buf - s1) s1). split; [done|].
    assert (is_in whitespace (at_ buf s1) = false) as E4 by (destruct H3; [lia|done]).
    assert (is_in symbols (at_ buf s1) = false) as E5.
    { apply not_true_is_false. intros Hc%symbol_cases.
      destruct Hc as [Hc|[Hc|[Hc|[Hc|[Hc|[Hc|Hc]]]]]]; try done; rewrite Hc in E1; by vm_compute in E1. }
    destruct (es buf - s1)%nat as [|k] eqn:Ek; [lia|]. cbn [skip_word]. rewrite E4, E5. cbn [negb andb].
    destruct (skip_word_bound k (S s1)); lia. }
  destruct (skip_space_bound (es buf - s2) s2 ltac:(lia)) as (H4 & H5 & _). split; [lia|]. split; [done|].
  intros Ha. specialize (Hlt Ha). lia.
Qed.

Lemma peek_bound set s b s' : (s <= es buf)%nat -> peek buf set s = (b, s') ->
  (s <= s')%nat /\ (s' <= es buf)%nat /\ (b = true -> at_ buf s' <> 0 /\ skip_space buf (es buf - s') s' = s').
Proof.
  intros Hs [= <- <-]. destruct (skip_space_bound (es buf - s) s ltac:(lia)) as (H1 & H2 & H3).
  split; [done|]. split; [done|]. intros [Hz _]%andb_true_iff. apply negb_true_iff, Z.eqb_neq in Hz.
  split; [done|]. apply at_nonzero in Hz as Hlt. destruct H3 as [H3|H3]; [lia|].
  destruct (es buf - skip_space buf (es buf - s) s)%nat; cbn [skip_space]; [done|by rewrite H3].
Qed.

(** A token that [peek] has seen is there. *)
Lemma peek_gettoken set s s1 a p s2 : (s <= es buf)%nat -> peek buf set s = (true, s1) ->
  gettoken buf s1 = (a, p, s2) -> (s <= s1)%nat /\ (s1 < s2)%nat /\ (s2 <= es buf)%nat.
Proof.
  intros Hs Hp Hg. destruct (peek_bound _ _ _ _ Hs Hp) as (H1 & H2 & H3). destruct (H3 eq_refl) as [Hz Hk].
  destruct (gettoken_bound s1 a p s2 H2 Hg) as (H4 & H5 & H6). split; [done|]. split; [|done]. apply H6.
  unfold gettoken in Hg. rewrite Hk in Hg. rewrite (proj2 (Z.eqb_neq _ 0)) in Hg by done.
  destruct (is_in _ _); [by injection Hg as <- _ _|].
  destruct (at_ buf s1 =? 62); [destruct (at_ buf (S s1) =? 62)|]; by injection Hg as <- _ _.
Qed.

(** An outcome other than the lack of fuel, with the pointer moved forward. *)
Definition fine {A} (s : nat) (r : presult A) : Prop :=
  match r with POk _ s' => (s <= s')%nat /\ (s' <= es buf)%nat | PErr _ | PLeft _ => True | PFuel => False end.

Lemma fine_le {A} s s' (r : presult A) : (s <= s')%nat -> fine s' r -> fine s r.
Proof. intros H. destruct r; cbn; [lia|done..]. Qed.

Lemma fine_bind {A B} s (m : presult A) (k : A -> nat -> presult B) :
  fine s m -> (forall a s', (s <= s')%nat -> (s' <= es buf)%nat -> fine s' (k a s')) -> fine s (pbind m k).
Proof.
  intros Hm Hk. destruct m as [a s'| | |]; cbn in *; [|done..]. destruct Hm as [Hm1 Hm2]. apply (fine_le s s'); [done|]. by apply Hk.
Qed.

Lemma parseredirs_fine : forall f c s, (s <= es buf)%nat -> (es buf - s < f)%nat -> fine s (parseredirs buf f c s).
Proof.
  induction f as [|f IH]; intros c s Hs Hf; [lia|]. cbn [parseredirs].
  destruct (peek buf [60; 62] s) as [b s1] eqn:E1. destruct (peek_bound _ _ _ _ Hs E1) as (H1 & H2 & _).
  destruct b; cbn [negb]; [|done]. destruct (gettoken buf s1) as [[a p] s2] eqn:E2.
  destruct (peek_gettoken _ _ _ _ _ _ Hs E1 E2) as (_ & H3 & H4).
  destruct (gettoken buf s2) as [[a' p'] s3] eqn:E3. destruct (gettoken_bound _ _ _ _ H4 E3) as (H5 & H6 & _).
  destruct (negb _); [done|]. apply (fine_le s s3); [lia|]. apply IH; lia.
Qed.

Lemma parseargs_fine : forall f argv c s, (s <= es buf)%nat -> (es buf - s < f)%nat -> fine s (parseargs buf f argv c s).
Proof.
  induction f as [|f IH]; intros argv c s Hs Hf; [lia|]. cbn [parseargs].
  destruct (peek buf [124; 41; 38; 59] s) as [b s1] eqn:E1. destruct (peek_bound _ _ _ _ Hs E1) as (H1 & H2 & _).
  destruct b; [done|]. destruct (gettoken buf s1) as [[a p] s2] eqn:E2.
  destruct (gettoken_bound _ _ _ _ H2 E2) as (H3 & H4 & H5).
  destruct (Z.eqb_spec a 0) as [->|Ha]; [cbn; lia|]. specialize (H5 Ha). destruct (negb _); [done|].
  destruct (_ <=? _)%nat; [done|]. apply (fine_le s s2); [lia|].
  apply fine_bind; [apply parseredirs_fine; lia|]. intros c' s3 H6 H7. apply IH; lia.
Qed.

Lemma parseamps_fine : forall f c s, (s <= es buf)%nat -> (es buf - s < f)%nat -> fine s (parseamps buf f c s).
Proof.
  induction f as [|f IH]; intros c s Hs Hf; [lia|]. cbn [parseamps].
  destruct (peek buf [38] s) as [b s1] eqn:E1. destruct (peek_bound _ _ _ _ Hs E1) as (H1 & H2 & _).
  destruct b; cbn [negb]; [|done]. destruct (gettoken buf s1) as [[a p] s2] eqn:E2.
  destruct (peek_gettoken _ _ _ _ _ _ Hs E1 E2) as (_ & H3 & H4).
  apply (fine_le s s2); [lia|]. apply IH; lia.
Qed.

Lemma parse_fine : forall f s, (s <= es buf)%nat ->
  ((4 * (es buf - s) + 4 <= f)%nat -> fine s (parseline buf f s)) /\
  ((4 * (es buf - s) + 3 <= f)%nat -> fine s (parsepipe buf f s)) /\
  ((4 * (es buf - s) + 2 <= f)%nat -> fine s (parseexec buf f s)) /\
  ((4 * (es buf - s) + 1 <= f)%nat -> fine s (parseblock buf f s)).
Proof.
  induction f as [|f IH]; intros s Hs; [split; [|split; [|split]]; lia|].
  split; [|split; [|split]]; intros Hf; cbn [parseline parsepipe parseexec parseblock].
  - apply fine_bind; [apply IH; lia|]. intros c s1 H1 H2. apply fine_bind; [apply parseamps_fine; lia|].
    intros c2 s2 H3 H4. destruct (peek buf [59] s2) as [b s3] eqn:E1.
    destruct (peek_bound _ _ _ _ H4 E1) as (H5 & H6 & _). destruct b; [|done].
    destruct (gettoken buf s3) as [[a p] s4] eqn:E2. destruct (peek_gettoken _ _ _ _ _ _ H4 E1 E2) as (_ & H7 & H8).
    apply (fine_le s2 s4); [lia|]. apply fine_bind; [apply IH; lia|]. intros d s5 H9 H10. cbn. lia.
  - apply fine_bind; [apply IH; lia|]. intros c s1 H1 H2. destruct (peek buf [124] s1) as [b s3] eqn:E1.
    destruct (peek_bound _ _ _ _ H2 E1) as (H5 & H6 & _). destruct b; [|done].
    destruct (gettoken buf s3) as [[a p] s4] eqn:E2. destruct (peek_gettoken _ _ _ _ _ _ H2 E1 E2) as (_ & H7 & H8).
    apply (fine_le s1 s4); [lia|]. apply fine_bind; [apply IH; lia|]. intros d s5 H9 H10. cbn. lia.
  - destruct (peek buf [40] s) as [b s1] eqn:E1. destruct (peek_bound _ _ _ _ Hs E1) as (H1 & H2 & _).
    apply (fine_le s s1); [done|]. destruct b; [apply IH; lia|].
    apply fine_bind; [apply parseredirs_fine; lia|]. intros c s2 H3 H4. apply parseargs_fine; lia.
  - destruct (peek buf [40] s) as [b s1] eqn:E1. destruct b; cbn [negb]; [|done].
    destruct (gettoken buf s1) as [[a p] s2] eqn:E2. destruct (peek_gettoken _ _ _ _ _ _ Hs E1 E2) as (H1 & H2 & H3).
    apply (fine_le s s2); [lia|]. apply fine_bind; [apply IH; lia|]. intros c s3 H4 H5.
    destruct (peek buf [41] s3) as [b s4] eqn:E3. destruct b; cbn [negb]; [|done].
    destruct (gettoken buf s4) as [[a' p'] s5] eqn:E4. destruct (peek_gettoken _ _ _ _ _ _ H5 E3 E4) as (H6 & H7 & H8).
    apply (fine_le s3 s5); [lia|]. apply parseredirs_fine; lia.
Qed.
End Total.

(** C35: the parser ends on every command line: it returns a command or reports a
    syntax error. *)
Theorem parsecmd_total buf : parsecmd buf <> PFuel.
Proof.
  destruct (parse_fine buf (parse_fuel buf) 0%nat ltac:(lia)) as [H _].
  unfold parse_fuel, es in H. specialize (H ltac:(lia)). unfold parsecmd, parse_fuel.
  destruct (parseline buf _ 0) as [c s| | |]; cbn in *; [|done..]. by destruct (negb _).
Qed.

(** ** Example: the line [ab <c | d >>e] *)
Definition ex_line : gline :=
  GLine (GPipe (GExec [] [([97; 98], [mkRedir RIn [99]])]) (GOne (GExec [] [([100], [mkRedir RApp [101]])]))) 0.

Definition ex_text : list Z := [97; 98; 32; 60; 99; 124; 100; 62; 62; 101; 10].

Lemma ex_layout : layout (line_toks ex_line) ex_text.
Proof.
  apply (layout_cons (TWord [97; 98]) _ [32] [60; 99; 124; 100; 62; 62; 101; 10]); [by repeat constructor..| |by intros (_ & ? & _)].
  apply (layout_cons (TSym 60) _ [] [99; 124; 100; 62; 62; 101; 10]); [by repeat constructor..| |done].
  apply (layout_cons (TWord [99]) _ [] [124; 100; 62; 62; 101; 10]); [by repeat constructor..| |by intros (_ & _ & ?)].
  apply (layout_cons (TSym 124) _ [] [100; 62; 62; 101; 10]); [by repeat constructor..| |done].
  apply (layout_cons (TWord [100]) _ [] [62; 62; 101; 10]); [by repeat constructor..| |by intros (_ & _ & ?)].
  apply (layout_cons TApp _ [] [101; 10]); [by repeat constructor..| |done].
  apply (layout_cons (TWord [101]) [] [10] []); [by repeat constructor..|constructor|by intros (_ & ? & _)].
Qed.

Lemma parsecmd_roundtrip_witness :
  exists c b s, parsecmd ([32] ++ ex_text) = POk (c, b) s /\
    read_cmd b c = SPipe (SRedir (SExec [[97; 98]]) [99] 0 0) (SRedir (SExec [[100]]) [101] 513 1).
Proof.
  apply (parsecmd_roundtrip ex_line [32]); [cbn; unfold MAXARGS; lia|by repeat constructor|exact ex_layout].
Defined.
