(* ===== verification/Shell.v ===== *)
(** * The shell: running commands

    [runcmd], [getcmd] and [main] of sh.c.  A program is the tree of the system
    calls it makes, with what it goes on to do for each answer; [run] follows it
    for one process and its children, with the descriptor table the kernel keeps
    for each of them.  What the processes do is a list of events per process,
    the children's lists inside it: nothing is said about how the processes are
    interleaved. *)

From S2P Require Import Prelude Bytes Cstring Console Kstate Syscall Ulib Sh.
Local Open Scope Z_scope.

(** ** Programs *)
Inductive prog : Type :=
| Exit
| Exec (argv : list (list Z)) (k : prog)
| Open (path : list Z) (mode : Z) (k : Z -> prog)
| Close (fd : Z) (k : prog)
| Dup (fd : Z) (k : prog)
| Pipe (k : option (Z * Z) -> prog)
| Fork (k : Z -> prog)
| Wait (k : prog)
| Chdir (path : list Z) (k : Z -> prog)
| Print (fd : Z) (text : list Z) (k : prog).

(** [printf(fd, fmt, args)] *)
Definition printf (fd : Z) (fmt : list Z) (args : list U.arg) (k : prog) : prog :=
  Print fd (default [] (U.printf fmt args)) k.

Definition panic (s : list Z) : prog := printf 2 (lit "%s" ++ [nl]) [U.AStr (Some s)] Exit.

Definition fork1 (k : Z -> prog) : prog :=
  Fork (fun pid => if pid =? -1 then panic (lit "fork") else k pid).

(** ** runcmd

    [b] is the command line with its strings terminated. *)
Fixpoint runcmd (b : list Z) (c : cmd) : prog :=
  match c with
  | EXEC argv =>
      match argv with
      | [] => Exit
      | a :: _ =>
          Exec (read_ptr b <$> argv)
            (printf 2 (lit "exec %s failed" ++ [nl]) [U.AStr (Some (read_ptr b a))] Exit)
      end
  | REDIR c file mode fd =>
      Close fd (Open (read_ptr b file) mode (fun r =>
        if r <? 0 then printf 2 (lit "open %s failed" ++ [nl]) [U.AStr (Some (read_ptr b file))] Exit
        else runcmd b c))
  | LIST lc rc =>
      fork1 (fun pid => if pid =? 0 then runcmd b lc else Wait (runcmd b rc))
  | PIPE lc rc =>
      Pipe (fun p =>
        match p with
        | None => panic (lit "pipe")
        | Some (p0, p1) =>
            fork1 (fun pid =>
              if pid =? 0 then Close 1 (Dup p1 (Close p0 (Close p1 (runcmd b lc))))
              else fork1 (fun pid =>
                if pid =? 0 then Close 0 (Dup p0 (Close p0 (Close p1 (runcmd b rc))))
                else Close p0 (Close p1 (Wait (Wait Exit)))))
        end)
  | BACK c => fork1 (fun pid => if pid =? 0 then runcmd b c else Exit)
  end.

(** ** getcmd and main *)
Definition NBUF_SH : Z := 100.

(** The line read from [input] with the bytes of the buffer after it zero; the
    empty line is the end of the input. *)
Definition getcmd (input : list Z) : option (list Z) :=
  let buf := Str.cstr (fst (U.gets NBUF_SH input)) in
  if Str.byte_at buf 0 =? 0 then None else Some buf.

(** What the child does with a line. *)
Definition run_line (buf : list Z) : prog :=
  match parsecmd buf with
  | POk (c, b) _ => runcmd b c
  | PErr msg => panic (lit msg)
  | PLeft s => printf 2 (lit "leftovers: %s" ++ [nl]) [U.AStr (Some (drop s buf))] (panic (lit "syntax"))
  | PFuel => Exit
  end.

Definition is_cd (buf : list Z) : bool :=
  (Str.byte_at buf 0 =? 99) && (Str.byte_at buf 1 =? 100) && (Str.byte_at buf 2 =? 32).

(** The loop of [main]: [session] is what there is to read at each prompt. *)
Fixpoint main_loop (session : list (list Z)) : prog :=
  printf 2 (lit "$ ") []
    (match session with
     | [] => Exit
     | input :: session' =>
         match getcmd input with
         | None => Exit
         | Some buf =>
             if is_cd buf then
               let buf := take (length buf - 1) buf in
               Chdir (drop 3 buf) (fun r =>
                 if r <? 0 then printf 2 (lit "cannot cd %s" ++ [nl]) [U.AStr (Some (drop 3 buf))] (main_loop session')
                 else main_loop session')
             else fork1 (fun pid => if pid =? 0 then run_line buf else Wait (main_loop session'))
         end
     end).

(** The loop that makes descriptors 0, 1 and 2 open; a process has [NOFILE] of them. *)
Fixpoint open_console (fuel : nat) (k : prog) : prog :=
  match fuel with
  | O => k
  | S f =>
      Open (lit "console") O_RDWR (fun fd =>
        if fd <? 0 then k
        else if 3 <=? fd then Close fd k
        else open_console f k)
  end.

Definition main (session : list (list Z)) : prog := open_console NOFILE (main_loop session).

(** ** Running a program

    What a descriptor is open on. *)
Inductive desc : Type :=
| DFile (path : list Z) (mode : Z)
| DRead (pipe : nat)
| DWrite (pipe : nat)
| DOther (n : nat).

(** What the system answers: whether a file can be opened, a program executed or
    a directory entered; the [n]th process or pipe that is created. *)
Class System := {
  opens : list Z -> Z -> bool;
  execs : list (list Z) -> bool;
  chdirs : list Z -> bool;
  forks : nat -> Z;
  pipes : nat -> bool
}.

Definition fdtable : Type := list (option desc).

Inductive event : Type :=
| EExec (argv : list (list Z)) (fds : fdtable)
| EPrint (d : option desc) (text : list Z)
| EChdir (path : list Z)
| EFork (child : list event)
| EWait
| EExit.

Section Run.
Context `{System}.

Definition fd_get (fds : fdtable) (fd : Z) : option desc :=
  if (0 <=? fd) && (fd <? Z.of_nat NOFILE) then mjoin (fds !! Z.to_nat fd) else None.

Definition fd_close (fds : fdtable) (fd : Z) : fdtable :=
  match fd_get fds fd with Some _ => <[Z.to_nat fd := None]> fds | None => fds end.

(** The lowest free descriptor, as [fdalloc] finds it. *)
Definition fd_open (fds : fdtable) (d : desc) : option (Z * fdtable) :=
  match fd_scan fds 0 with
  | Some fd => Some (Z.of_nat fd, <[fd := Some d]> fds)
  | None => None
  end.

(** [n] counts the pipes and processes made so far. *)
Fixpoint run (p : prog) (fds : fdtable) (n : nat) : list event * nat :=
  match p with
  | Exit => ([EExit], n)
  | Exec argv k => if execs argv then ([EExec argv fds], n) else run k fds n
  | Open path mode k =>
      match (if opens path mode then fd_open fds (DFile path mode) else None) with
      | Some (fd, fds') => run (k fd) fds' n
      | None => run (k (-1)) fds n
      end
  | Close fd k => run k (fd_close fds fd) n
  | Dup fd k =>
      match fd_get fds fd with
      | Some d => match fd_open fds d with Some (_, fds') => run k fds' n | None => run k fds n end
      | None => run k fds n
      end
  | Pipe k =>
      match (if pipes n then fd_open fds (DRead n) else None) with
      | Some (fd0, fds1) =>
          match fd_open fds1 (DWrite n) with
          | Some (fd1, fds2) => run (k (Some (fd0, fd1))) fds2 (S n)
          | None => run (k None) fds (S n)
          end
      | None => run (k None) fds (S n)
      end
  | Fork k =>
      if forks n <=? 0 then run (k (-1)) fds (S n) else
      let '(child, n1) := run (k 0) fds (S n) in
      let '(rest, n2) := run (k (forks n)) fds n1 in
      (EFork child :: rest, n2)
  | Wait k => let '(rest, n1) := run k fds n in (EWait :: rest, n1)
  | Chdir path k =>
      if chdirs path then let '(rest, n1) := run (k 0) fds n in (EChdir path :: rest, n1)
      else run (k (-1)) fds n
  | Print fd text k => let '(rest, n1) := run k fds n in (EPrint (fd_get fds fd) text :: rest, n1)
  end.

(** ** What a command line means

    A command gets three descriptors: its input, its output, and the one for
    error messages. *)
Record stdio := mkStdio { s_in : desc; s_out : desc; s_err : desc }.

Definition table (t : stdio) : fdtable :=
  [Some (s_in t); Some (s_out t); Some (s_err t)] ++ replicate (NOFILE - 3) None.

Definition redirected (fd : Z) (d : desc) (t : stdio) : stdio :=
  if fd =? 0 then mkStdio d (s_out t) (s_err t) else mkStdio (s_in t) d (s_err t).

Definition fails (what file : list Z) (t : stdio) : list event :=
  [EPrint (Some (s_err t)) (what ++ file ++ lit " failed" ++ [nl]); EExit].

(** The processes of a command, each with its descriptors; [n] numbers the
    pipes. *)
Fixpoint plumb (c : scmd) (t : stdio) (n : nat) : list event * nat :=
  match c with
  | SExec [] => ([EExit], n)
  | SExec (a :: args) =>
      (if execs (a :: args) then [EExec (a :: args) (table t)] else fails (lit "exec ") a t, n)
  | SRedir c file mode fd =>
      if opens file mode then plumb c (redirected fd (DFile file mode) t) n
      else (fails (lit "open ") file t, n)
  | SList l r =>
      let '(a, n1) := plumb l t (S n) in
      let '(b, n2) := plumb r t n1 in
      (EFork a :: EWait :: b, n2)
  | SPipe l r =>
      let '(a, n1) := plumb l (redirected 1 (DWrite n) t) (S (S n)) in
      let '(b, n2) := plumb r (redirected 0 (DRead n) t) (S n1) in
      ([EFork a; EFork b; EWait; EWait; EExit], n2)
  | SBack c =>
      let '(a, n1) := plumb c t (S n) in
      ([EFork a; EExit], n1)
  end.

(** Redirections are to standard input or output. *)
Fixpoint redirs_ok (c : scmd) : Prop :=
  match c with
  | SExec _ => True
  | SRedir c _ _ fd => (fd = 0 \/ fd = 1) /\ redirs_ok c
  | SList l r | SPipe l r => redirs_ok l /\ redirs_ok r
  | SBack c => redirs_ok c
  end.

(** ** Running a command *)
Lemma cstr_idem l : Str.cstr (Str.cstr l) = Str.cstr l.
Proof. induction l as [|c l IH]; [done|]. cbn. destruct (c =? 0) eqn:E; [done|]. cbn. by rewrite E, IH. Qed.

(** Text without percent signs. *)
Definition plain (l : list Z) : Prop := Forall (fun c => 0 < c < 256 /\ c <> 37) l.
#[local] Instance plain_dec l : Decision (plain l) := _ : Decision (Forall _ l).

(** Closes [plain] of a literal. *)
Ltac plain_text := apply (bool_decide_unpack _); by vm_compute.

Lemma printf_string pre post l : plain pre -> plain post ->
  default [] (U.printf (pre ++ [37; 115] ++ post) [U.AStr (Some (Str.cstr l))]) = pre ++ Str.cstr l ++ post.
Proof.
  intros Hpre Hpost. unfold U.printf. rewrite printf_loop_app by done. cbn [app U.printf_loop Z.eqb].
  change (Z.land 37 255) with 37. change (Z.land 115 255) with 115. cbn [Z.eqb Pos.eqb orb].
  pose proof (printf_plain post [] Hpost) as Hp. unfold U.printf in Hp. rewrite Hp. cbn [fmap option_fmap option_map default from_option id].
  by rewrite cstr_idem.
Qed.

Lemma printf_failed what l : plain what ->
  default [] (U.printf (what ++ [37; 115] ++ lit " failed" ++ [nl]) [U.AStr (Some (Str.cstr l))]) = what ++ Str.cstr l ++ lit " failed" ++ [nl].
Proof. intros Hw. apply printf_string; [done|]. plain_text. Qed.

Section Plumbing.
Hypothesis forks_ok : forall m, 0 < forks m.
Hypothesis pipes_ok : forall m, pipes m = true.

Lemma run_fork1 k fds n : run (fork1 k) fds n =
  let '(child, n1) := run (k 0) fds (S n) in
  let '(rest, n2) := run (k (forks n)) fds n1 in
  (EFork child :: rest, n2).
Proof.
  cbn [fork1 run]. pose proof (forks_ok n). rewrite (proj2 (Z.leb_gt _ _)) by lia. cbn [Z.eqb].
  rewrite (proj2 (Z.eqb_neq (forks n) (-1))) by lia. done.
Qed.

Lemma forked n {A} (x y : A) : (if forks n =? 0 then x else y) = y.
Proof. pose proof (forks_ok n). by rewrite (proj2 (Z.eqb_neq (forks n) 0)) by lia. Qed.

(** Closing a standard descriptor and opening another file reuses its number. *)
Lemma reopened fd d t : fd = 0 \/ fd = 1 -> fd_open (fd_close (table t) fd) d = Some (fd, table (redirected fd d t)).
Proof. by intros [->| ->]. Qed.

(** The two ends of a new pipe, in the table of the process that made it. *)
Definition piped (n : nat) (t : stdio) : fdtable :=
  [Some (s_in t); Some (s_out t); Some (s_err t); Some (DRead n); Some (DWrite n)] ++ replicate (NOFILE - 5) None.

Lemma run_pipe k t n : run (Pipe k) (table t) n = run (k (Some (3, 4))) (piped n t) (S n).
Proof. cbn [run]. by rewrite pipes_ok. Qed.

Lemma run_pipe_writer k t n m : run (Close 1 (Dup 4 (Close 3 (Close 4 k)))) (piped n t) m = run k (table (redirected 1 (DWrite n) t)) m.
Proof. done. Qed.

Lemma run_pipe_reader k t n m : run (Close 0 (Dup 3 (Close 3 (Close 4 k)))) (piped n t) m = run k (table (redirected 0 (DRead n) t)) m.
Proof. done. Qed.

Lemma run_pipe_shell t n m : run (Close 3 (Close 4 (Wait (Wait Exit)))) (piped n t) m = ([EWait; EWait; EExit], m).
Proof. done. Qed.

Lemma runcmd_plumb b c : forall t n, redirs_ok (read_cmd b c) -> run (runcmd b c) (table t) n = plumb (read_cmd b c) t n.
Proof.
  induction c as [argv|c IH file mode fd|l IHl r IHr|l IHl r IHr|c IH]; intros t n Hok; cbn [runcmd read_cmd].
  - destruct argv as [|a argv]; [done|]. cbn [fmap list_fmap run plumb]. destruct (execs _); [done|]. unfold printf, fails. cbn [run].
    change (lit "exec %s failed" ++ [nl]) with (lit "exec " ++ [37; 115] ++ lit " failed" ++ [nl]).
    unfold read_ptr. rewrite printf_failed by plain_text. done.
  - destruct Hok as [Hfd Hok]. cbn [run plumb]. rewrite (reopened fd _ t Hfd). destruct (opens _ mode).
    + rewrite (proj2 (Z.ltb_ge fd 0)) by lia. by apply IH.
    + cbn [Z.ltb]. unfold printf, fails. cbn [run]. change (lit "open %s failed" ++ [nl]) with (lit "open " ++ [37; 115] ++ lit " failed" ++ [nl]).
      unfold read_ptr. rewrite printf_failed by plain_text. destruct Hfd as [->| ->]; done.
  - destruct Hok as [Hl Hr]. rewrite run_pipe, run_fork1. cbn [Z.eqb]. rewrite run_pipe_writer, IHl by done. cbn [plumb].
    destruct (plumb (read_cmd b l) _ _) as [ea n1]. rewrite forked, run_fork1. cbn [Z.eqb]. rewrite run_pipe_reader, IHr by done.
    destruct (plumb (read_cmd b r) _ _) as [eb n2]. by rewrite forked, run_pipe_shell.
  - destruct Hok as [Hl Hr]. rewrite run_fork1. cbn [Z.eqb plumb]. rewrite IHl by done. destruct (plumb (read_cmd b l) t (S n)) as [ea n1].
    rewrite forked. cbn [run]. rewrite IHr by done. by destruct (plumb (read_cmd b r) t n1).
  - rewrite run_fork1. cbn [Z.eqb plumb]. rewrite IH by done. destruct (plumb (read_cmd b c) t (S n)) as [ea n1]. by rewrite forked.
Qed.


(** ** Sessions *)
Definition prompt (t : stdio) : event := EPrint (Some (s_err t)) (lit "$ ").

Fixpoint session_events (ls : list gline) (t : stdio) (n : nat) : list event * nat :=
  match ls with
  | [] => ([prompt t; EExit], n)
  | l :: ls' =>
      let '(a, n1) := plumb (line_cmd l) t (S n) in
      let '(b, n2) := session_events ls' t n1 in
      (prompt t :: EFork a :: EWait :: b, n2)
  end.

(** [input] is a line that spells [l] and is not for the shell itself. *)
Record spells (l : gline) (input : list Z) : Prop := {
  sp_ok : line_ok l;
  sp_layout : exists ws str, input = ws ++ str /\ Forall (fun c => is_in whitespace c = true) ws /\ layout (line_toks l) str;
  sp_line : exists body, input = body ++ [nl] /\ Forall in_line body /\ Z.of_nat (length body) + 1 < NBUF_SH;
  sp_cd : is_cd input = false
}.

Lemma redirect_ok rs : forall c, redirs_ok c -> redirs_ok (foldl redirect c rs).
Proof.
  induction rs as [|r rs IH]; intros c Hc; [done|]. cbn [foldl]. apply IH. split; [|done].
  destruct (r_kind r); cbn; auto.
Qed.

Lemma line_redirs_ok : (forall l, redirs_ok (line_cmd l)) /\ (forall p, redirs_ok (pipe_cmd p)) /\ (forall e, redirs_ok (exec_cmd e)).
Proof.
  assert (forall n c, redirs_ok c -> redirs_ok (Nat.iter n SBack c)) as Hback by (induction n; cbn; auto).
  apply grammar_ind; cbn [line_cmd pipe_cmd exec_cmd]; intros; try (split; auto); auto using redirect_ok.
  by apply redirect_ok.
Qed.

Lemma layout_chars ts str : layout ts str -> Forall (fun c => c <> 0) str.
Proof. intros Hl. by apply layout_nonzero in Hl as []. Qed.

Lemma getcmd_line l input : spells l input -> getcmd input = Some input /\ parsecmd input <> PFuel /\
  exists c b s, parsecmd input = POk (c, b) s /\ read_cmd b c = line_cmd l.
Proof.
  intros [Hok (ws & str & Ei & Hws & Hl) (body & Eb & Hb & Hlen) _].
  assert (Forall (fun c => c <> 0) input) as Hnz.
  { rewrite Ei. apply Forall_app. split; [|by eapply layout_chars]. eapply list.Forall_impl; [exact Hws|]. intros x Hx ->. by vm_compute in Hx. }
  destruct (parsecmd_line l ws str Hok Hws Hl) as (c & b & s & Hp & Hr). rewrite <- Ei in Hp.
  split; [|split; [by rewrite Hp|by exists c, b, s]]. unfold getcmd.
  assert (fst (U.gets NBUF_SH input) = input ++ [0]) as ->.
  { rewrite Eb. rewrite (gets_line body nl [] NBUF_SH Hb (or_introl eq_refl) Hlen). cbn. by rewrite <- app_assoc. }
  rewrite cstr_word by (intros Hin; rewrite list.Forall_forall in Hnz; by apply (Hnz 0)).
  destruct Hnz as [|x input' Hx _]; [by destruct body|]. cbn. by rewrite (proj2 (Z.eqb_neq x 0)).
Qed.

Lemma main_loop_session ls session : Forall2 spells ls session -> forall t n,
  run (main_loop session) (table t) n = session_events ls t n.
Proof.
  induction 1 as [|l input ls session Hs _ IH]; intros t n; [done|]. cbn [main_loop session_events].
  destruct (getcmd_line l input Hs) as (-> & _ & c & b & s & Hp & Hr). rewrite (sp_cd _ _ Hs).
  unfold printf at 1. cbn [run]. rewrite run_fork1. cbn [Z.eqb]. unfold run_line at 1. rewrite Hp.
  rewrite runcmd_plumb, Hr by (rewrite Hr; apply line_redirs_ok). destruct (plumb (line_cmd l) t (S n)) as [ea n1].
  rewrite forked. cbn [run]. rewrite IH. by destruct (session_events ls t n1).
Qed.

(** Descriptors the shell finds closed it opens on the console. *)
Definition console : desc := DFile (lit "console") O_RDWR.
Definition started (a b c : option desc) : stdio := mkStdio (default console a) (default console b) (default console c).

Lemma open_console_step f k fds n fd fds' : opens (lit "console") O_RDWR = true -> fd_open fds console = Some (fd, fds') -> 0 <= fd ->
  run (open_console (S f) k) fds n = if 3 <=? fd then run k (fd_close fds' fd) n else run (open_console f k) fds' n.
Proof.
  intros Ho Hf Hfd. cbn [open_console run]. rewrite Ho. fold console. rewrite Hf, (proj2 (Z.ltb_ge fd 0)) by done. by destruct (3 <=? fd).
Qed.

Lemma open_console_runs a b c k n : opens (lit "console") O_RDWR = true ->
  run (open_console NOFILE k) ([a; b; c] ++ replicate (NOFILE - 3) None) n = run k (table (started a b c)) n.
Proof.
  intros Ho. change NOFILE with 16%nat at 1.
  destruct a, b, c; repeat (erewrite open_console_step; [|done|reflexivity|done]; cbn [Z.leb Z.compare Pos.compare Pos.compare_cont]); done.
Qed.

End Plumbing.
End Run.

(** ** Example: the line [ab <c | d >>e] *)
#[local] Instance ex_system : System := {|
  opens := fun _ _ => true; execs := fun _ => true; chdirs := fun _ => true;
  forks := fun n => Z.of_nat (S n); pipes := fun _ => true
|}.

Lemma ex_forks m : 0 < forks m.
Proof. cbn. lia. Qed.

Definition ex_stdio : stdio := mkStdio (DOther 0) (DOther 1) (DOther 2).

Definition ex_buf : list Z := [97; 0; 98; 0; 99; 0].
Definition ex_cmd : cmd := PIPE (EXEC [(0, 1)%nat]) (REDIR (EXEC [(2, 3)%nat]) (4, 5)%nat 513 1).


Lemma ex_spells : spells ex_line ex_text.
Proof.
  split.
  - cbn. unfold MAXARGS. lia.
  - exists [], ex_text. split; [done|]. split; [constructor|exact ex_layout].
  - exists [97; 98; 32; 60; 99; 124; 100; 62; 62; 101]. split; [done|]. split; [|done]. repeat constructor; done.
  - done.
Qed.

