(* ===== verification/Userprog.v ===== *)
(** * User programs: ls.c, cat.c, wc.c, grep.c, echo.c, kill.c, ln.c, mkdir.c, rm.c, zombie.c, init.c, [stat] of ulib.c

    A program runs in one process and makes system calls; [Sys] is what the
    system answers, on a state [W] of its own.  The programs are written for any
    such system.  The theorems are about [View], a system that shows the files
    of a given tree: what [ls], [cat] and [echo] print. *)

From S2P Require Import Prelude Bytes Cstring Kstate Console Dir Directory Syscall Ulib Grep Shell.
Local Open Scope Z_scope.

(** struct stat, without the device number and the link count, which no program reads. *)
Record statbuf := mkStat { st_type : Z; st_ino : Z; st_size : Z }.

Class Sys (W : Type) := {
  sys_open : list Z -> Z -> W -> Z * W;
  sys_close : Z -> W -> W;
  sys_read : Z -> Z -> W -> (Z * list Z) * W;      (* the result, and the bytes *)
  sys_write : Z -> list Z -> W -> W;
  sys_fstat : Z -> W -> option statbuf * W;           (* None for -1 *)
  sys_dup : Z -> W -> Z * W;
  sys_link : list Z -> list Z -> W -> Z * W;
  sys_unlink : list Z -> W -> Z * W;
  sys_mkdir : list Z -> W -> Z * W;
  sys_mknod : list Z -> Z -> Z -> W -> Z * W;
  sys_kill : Z -> W -> Z * W;
  sys_sleep : Z -> W -> Z * W;
  sys_fork : W -> Z * W;
  sys_wait : W -> Z * W;
  sys_exec : list Z -> list (list Z) -> W -> option W  (* None when it replaces the program *)
}.

(** ** Runs of a program
    It returns, ends with [exit] or [exec], or, for a loop with a bound on its
    passes, is still running. *)
Inductive outcome (W A : Type) : Type :=
| Ret (a : A) (w : W)
| Exited (w : W)
| Execed (path : list Z) (argv : list (list Z)) (w : W)
| Running (w : W).
Arguments Ret {W A} a w.
Arguments Exited {W A} w.
Arguments Execed {W A} path argv w.
Arguments Running {W A} w.

Definition prog (W A : Type) : Type := W -> outcome W A.

Declare Scope user_scope.
Delimit Scope user_scope with user.
Definition ubind {W A B} (m : prog W A) (k : A -> prog W B) : prog W B := fun w =>
  match m w with
  | Ret a w => k a w
  | Exited w => Exited w
  | Execed p a w => Execed p a w
  | Running w => Running w
  end.
Notation "'let?' x := m 'in' k" := (ubind m (fun x => k)) (at level 10, x name, m at level 100, k at level 200) : user_scope.
Notation "'do?' m ; k" := (ubind m (fun _ => k)) (at level 10, m at level 100, k at level 200) : user_scope.
Local Open Scope user_scope.

Module Usr.
Section Programs.
Context {W : Type} {S : Sys W}.

Definition uret {A} (a : A) : prog W A := fun w => Ret a w.
Definition call {A} (f : W -> A * W) : prog W A := fun w => let '(a, w) := f w in Ret a w.
Definition exit {A} : prog W A := fun w => Exited w.
Definition running {A} : prog W A := fun w => Running w.
Definition open (path : list Z) (mode : Z) : prog W Z := call (sys_open path mode).
Definition close (fd : Z) : prog W unit := call (fun w => (tt, sys_close fd w)).
Definition read (fd n : Z) : prog W (Z * list Z) := call (sys_read fd n).
Definition write (fd : Z) (bytes : list Z) : prog W unit := call (fun w => (tt, sys_write fd bytes w)).
Definition exec (path : list Z) (argv : list (list Z)) : prog W unit := fun w =>
  match sys_exec path argv w with None => Execed path argv w | Some w => Ret tt w end.

(** [printf] writes each byte by itself. *)
Definition printf (fd : Z) (fmt : list Z) (args : list U.arg) : prog W unit :=
  call (fun w => (tt, foldl (fun w c => sys_write fd [c] w) w (default [] (U.printf fmt args)))).
Definition str (s : list Z) : U.arg := U.AStr (Some s).

(** ** ulib.c *)
Definition stat (n : list Z) : prog W (option statbuf) :=
  let? fd := open n O_RDONLY in
  if fd <? 0 then uret None else
  let? r := call (sys_fstat fd) in
  do? close fd;
  uret r.

(** ** ls.c *)
(** The pointer moves down from the end to the last slash, or before the start. *)
Fixpoint last_slash (path : list Z) (n : nat) : nat :=
  match n with
  | O => O
  | Datatypes.S n' => if Str.byte_at path n' =? 47 then n else last_slash path n'
  end.
Definition fmtname (path : list Z) : list Z :=
  let path := Str.cstr path in
  let p := drop (last_slash path (length path)) path in
  if (DIRSIZ <=? length p)%nat then p
  else p ++ replicate (DIRSIZ - length p) 32.

Definition show (name : list Z) (st : statbuf) : prog W unit :=
  printf 1 (lit "%s %d %d %d" ++ [nl]) [str name; U.AInt (st_type st); U.AInt (st_ino st); U.AInt (st_size st)].

(** The loop over the entries; [fuel] bounds their number. *)
Fixpoint ls_loop (fuel : nat) (path : list Z) (fd : Z) : prog W unit :=
  let? r := read fd DIRENT in
  let '(n, de) := r in
  if negb (n =? DIRENT) then uret tt else
  let next := match fuel with O => running | Datatypes.S f => ls_loop f path fd end in
  if de_inum de =? 0 then next else
  let buf := Str.cstr (path ++ [47] ++ de_name de) in
  let? st := stat buf in
  match st with
  | None =>
      do? printf 1 (lit "ls: cannot stat %s" ++ [nl]) [str buf];
      next
  | Some st =>
      do? show (fmtname buf) st;
      next
  end.

Definition ls (fuel : nat) (path : list Z) : prog W unit :=
  let? fd := open path 0 in
  if fd <? 0 then printf 2 (lit "ls: cannot open %s" ++ [nl]) [str path] else
  let? st := call (sys_fstat fd) in
  match st with
  | None =>
      do? printf 2 (lit "ls: cannot stat %s" ++ [nl]) [str path];
      close fd
  | Some st =>
      do? (if st_type st =? T_FILE then show (fmtname path) st
           else if st_type st =? T_DIR then
             if 512 <? Z.of_nat (length path) + 1 + Z.of_nat DIRSIZ + 1
             then printf 1 (lit "ls: path too long" ++ [nl]) []
             else ls_loop fuel path fd
           else uret tt);
      close fd
  end.

(** [for(i=1; i<argc; i++) body(argv[i])] *)
Fixpoint each (body : list Z -> prog W unit) (args : list (list Z)) : prog W unit :=
  match args with
  | [] => uret tt
  | a :: args' => do? body a; each body args'
  end.

(** [argv] without the program's name, here and below. *)
Definition ls_main (fuel : nat) (args : list (list Z)) : prog W unit :=
  match args with
  | [] => do? ls fuel (lit "."); exit
  | _ => do? each (ls fuel) args; exit
  end.

(** ** cat.c *)
Fixpoint cat (fuel : nat) (fd : Z) : prog W unit :=
  let? r := read fd 512 in
  let '(n, bytes) := r in
  if 0 <? n then
    do? write 1 bytes;
    match fuel with O => running | Datatypes.S f => cat f fd end
  else if n <? 0 then
    do? printf 1 (lit "cat: read error" ++ [nl]) [];
    exit
  else uret tt.

(** The loop of [main] in cat.c, wc.c and grep.c: [name] is the program's. *)
Definition with_file (name : list Z) (body : list Z -> Z -> prog W unit) (path : list Z) : prog W unit :=
  let? fd := open path 0 in
  if fd <? 0 then
    do? printf 1 (name ++ lit ": cannot open %s" ++ [nl]) [str path];
    exit
  else
    do? body path fd;
    close fd.

Definition cat_main (fuel : nat) (args : list (list Z)) : prog W unit :=
  match args with
  | [] => do? cat fuel 0; exit
  | _ => do? each (with_file (lit "cat") (fun _ fd => cat fuel fd)) args; exit
  end.

(** ** wc.c *)
Fixpoint wc_loop (fuel : nat) (k : counts) (fd : Z) : prog W counts :=
  let? r := read fd 512 in
  let '(n, bytes) := r in
  if 0 <? n then
    match fuel with O => running | Datatypes.S f => wc_loop f (foldl wc_byte k bytes) fd end
  else if n <? 0 then
    do? printf 1 (lit "wc: read error" ++ [nl]) [];
    exit
  else uret k.
Definition wc (fuel : nat) (fd : Z) (name : list Z) : prog W unit :=
  let? k := wc_loop fuel (mkCounts 0 0 0 false) fd in
  printf 1 (lit "%d %d %d %s" ++ [nl]) [U.AInt (wc_l k); U.AInt (wc_w k); U.AInt (wc_c k); str name].
Definition wc_main (fuel : nat) (args : list (list Z)) : prog W unit :=
  match args with
  | [] => do? wc fuel 0 []; exit
  | _ => do? each (with_file (lit "wc") (fun path fd => wc fuel fd path)) args; exit
  end.

(** ** grep.c, with the system's [read] and [write] *)
(** The loop over the lines in the buffer; what is left at [p]. *)
Fixpoint grep_buffer (fuel : nat) (pattern p : list Z) : prog W (list Z) :=
  match U.strchr p 10 with
  | None => uret p
  | Some q =>
      let line := take (length p - length q) p in
      do? (if match_re pattern (Str.cstr line) then write 1 (line ++ [10]) else uret tt);
      match fuel with O => uret (tail q) | Datatypes.S f => grep_buffer f pattern (tail q) end
  end.
Fixpoint grep (fuel : nat) (pattern buf : list Z) (fd : Z) : prog W unit :=
  let? r := read fd (1024 - Z.of_nat (length buf) - 1) in
  let '(n, bytes) := r in
  if 0 <? n then
    let buf := buf ++ bytes in
    let? p := grep_buffer (length buf) pattern buf in
    let buf := if (length p =? length buf)%nat then [] else p in
    match fuel with O => running | Datatypes.S f => grep f pattern buf fd end
  else uret tt.
Definition grep_main (fuel : nat) (args : list (list Z)) : prog W unit :=
  match args with
  | [] => do? printf 2 (lit "usage: grep pattern [file ...]" ++ [nl]) []; exit
  | [pattern] => do? grep fuel pattern [] 0; exit
  | pattern :: files => do? each (with_file (lit "grep") (fun _ fd => grep fuel pattern [] fd)) files; exit
  end.

(** ** echo.c *)
Fixpoint echo (args : list (list Z)) : prog W unit :=
  match args with
  | [] => exit
  | a :: args' =>
      do? printf 1 (lit "%s%s") [str a; str (match args' with [] => [nl] | _ => [32] end)];
      echo args'
  end.

(** ** kill.c *)
Definition kill_main (args : list (list Z)) : prog W unit :=
  match args with
  | [] => do? printf 2 (lit "usage: kill pid..." ++ [nl]) []; exit
  | _ => do? each (fun a => do? call (sys_kill (U.atoi a)); uret tt) args; exit
  end.

(** ** ln.c *)
Definition ln_main (args : list (list Z)) : prog W unit :=
  match args with
  | [old; new] =>
      let? r := call (sys_link old new) in
      do? (if r <? 0 then printf 2 (lit "link %s %s: failed" ++ [nl]) [str old; str new] else uret tt);
      exit
  | _ => do? printf 2 (lit "Usage: ln old new" ++ [nl]) []; exit
  end.

(** ** mkdir.c and rm.c: the loop ends at the first failure. *)
Fixpoint until_fails (f : list Z -> W -> Z * W) (fmt : list Z) (args : list (list Z)) : prog W unit :=
  match args with
  | [] => uret tt
  | a :: args' =>
      let? r := call (f a) in
      if r <? 0 then printf 2 fmt [str a] else until_fails f fmt args'
  end.
Definition mkdir_main (args : list (list Z)) : prog W unit :=
  match args with
  | [] => do? printf 2 (lit "Usage: mkdir files..." ++ [nl]) []; exit
  | _ => do? until_fails sys_mkdir (lit "mkdir: %s failed to create" ++ [nl]) args; exit
  end.
Definition rm_main (args : list (list Z)) : prog W unit :=
  match args with
  | [] => do? printf 2 (lit "Usage: rm files..." ++ [nl]) []; exit
  | _ => do? until_fails sys_unlink (lit "rm: %s failed to delete" ++ [nl]) args; exit
  end.

(** ** zombie.c *)
Definition zombie_main : prog W unit :=
  let? pid := call sys_fork in
  do? (if 0 <? pid then do? call (sys_sleep 5); uret tt else uret tt);
  exit.

(** ** init.c *)
(** [while((wpid=wait()) >= 0 && wpid != pid);] *)
Fixpoint wait_for (fuel : nat) (pid : Z) : prog W unit :=
  let? wpid := call sys_wait in
  if (0 <=? wpid) && negb (wpid =? pid)
  then match fuel with O => running | Datatypes.S f => wait_for f pid end
  else uret tt.
(** [passes] of the endless loop. *)
Fixpoint init_loop (passes fuel : nat) : prog W unit :=
  let? pid := call sys_fork in
  if pid <? 0 then do? printf 1 (lit "init: fork failed" ++ [nl]) []; exit
  else if pid =? 0 then
    do? exec (lit "sh") [lit "sh"];
    do? printf 1 (lit "init: exec sh failed" ++ [nl]) [];
    exit
  else
    do? wait_for fuel pid;
    match passes with O => running | Datatypes.S p => init_loop p fuel end.
Definition init_main (passes fuel : nat) : prog W unit :=
  let? r := open (lit "console") O_RDWR in
  do? (if r <? 0 then
         do? call (sys_mknod (lit "console") 1 1);
         do? open (lit "console") O_RDWR;
         uret tt
       else uret tt);
  do? call (sys_dup 0);
  do? call (sys_dup 0);
  init_loop passes fuel.
End Programs.
End Usr.

(** ** Descriptors *)
Lemma fd_scan_free {A} (l : list (option A)) : forall n fd, fd_scan l n = Some fd -> (n <= fd)%nat /\ l !! (fd - n)%nat = Some None.
Proof.
  induction l as [|[x|] l IH]; intros n fd H; cbn [fd_scan] in H; [done| |].
  - destruct (IH _ _ H) as [H1 H2]. split; [lia|]. by replace (fd - n)%nat with (Datatypes.S (fd - Datatypes.S n)) by lia.
  - injection H as <-. by rewrite Nat.sub_diag.
Qed.
Lemma fd_scan_used {A} (l : list (option A)) a x y : forall n, l !! a = Some (Some x) -> fd_scan (<[a := Some y]> l) n = fd_scan l n.
Proof. revert a. induction l as [|[z|] l IH]; intros [|a] n H; cbn in *; try done. by apply IH. Qed.

(** ** A system that shows a tree of files *)
Record node := mkNode { n_stat : statbuf; n_data : list Z }.
(** The descriptors, with the path and the offset, and the bytes written, each
    with its descriptor, in order. *)
Record world := mkWorld { w_fds : list (option (list Z * nat)); w_out : list (Z * Z) }.

Section View.
Variable tree : list Z -> option node.

Definition v_open (path : list Z) (mode : Z) (w : world) : Z * world :=
  match (if mode =? O_RDONLY then tree path else None), fd_scan (w_fds w) 0 with
  | Some _, Some fd => (Z.of_nat fd, mkWorld (<[fd := Some (path, 0%nat)]> (w_fds w)) (w_out w))
  | _, _ => (-1, w)
  end.
Definition v_file (fd : Z) (w : world) : option (node * list Z * nat) :=
  if fd <? 0 then None else
  match w_fds w !! Z.to_nat fd with
  | Some (Some (path, off)) => match tree path with Some nd => Some (nd, path, off) | None => None end
  | _ => None
  end.
Definition v_read (fd n : Z) (w : world) : (Z * list Z) * world :=
  match v_file fd w with
  | Some (nd, path, off) =>
      let bytes := take (Z.to_nat n) (drop off (n_data nd)) in
      ((Z.of_nat (length bytes), bytes), mkWorld (<[Z.to_nat fd := Some (path, off + length bytes)%nat]> (w_fds w)) (w_out w))
  | None => ((-1, []), w)
  end.
Definition fails {A} (w : A) : Z * A := (-1, w).

#[local] Instance View : Sys world := {|
  sys_open := v_open;
  sys_close := fun fd w => mkWorld (<[Z.to_nat fd := None]> (w_fds w)) (w_out w);
  sys_read := v_read;
  sys_write := fun fd bytes w => mkWorld (w_fds w) (w_out w ++ ((fun c => (fd, c)) <$> bytes));
  sys_fstat := fun fd w => (match v_file fd w with Some (nd, _, _) => Some (n_stat nd) | None => None end, w);
  sys_dup := fun _ => fails; sys_link := fun _ _ => fails; sys_unlink := fun _ => fails; sys_mkdir := fun _ => fails;
  sys_mknod := fun _ _ _ => fails; sys_kill := fun _ => fails; sys_sleep := fun _ => fails; sys_fork := fails; sys_wait := fails;
  sys_exec := fun _ _ w => Some w
|}.

(** [text] written on [fd]. *)
Definition emit (fd : Z) (text : list Z) (w : world) : world := mkWorld (w_fds w) (w_out w ++ ((fun c => (fd, c)) <$> text)).

Lemma emit_app fd t1 t2 w : emit fd t2 (emit fd t1 w) = emit fd (t1 ++ t2) w.
Proof. unfold emit. cbn. by rewrite fmap_app, app_assoc. Qed.
Lemma emit_nil fd w : emit fd [] w = w.
Proof. unfold emit. cbn. rewrite app_nil_r. by destruct w. Qed.

Lemma printf_run fd fmt args w : Usr.printf fd fmt args w = Ret tt (emit fd (default [] (U.printf fmt args)) w).
Proof.
  unfold Usr.printf, Usr.call. f_equal. generalize (default [] (U.printf fmt args)). intros text. revert w.
  induction text as [|c text IH]; intros w; cbn [foldl]; [by rewrite emit_nil|]. rewrite IH. cbn [sys_write View]. fold (emit fd [c] w). by rewrite emit_app.
Qed.

(** A decimal number. *)
Definition dec (x : Z) : list Z := U.printint (i32 x) 10 true.
Definition show_text (name : list Z) (st : statbuf) : list Z := name ++ [32] ++ dec (st_type st) ++ [32] ++ dec (st_ino st) ++ [32] ++ dec (st_size st) ++ [nl].

Lemma show_run name st w : Str.cstr name = name -> Usr.show name st w = Ret tt (emit 1 (show_text name st) w).
Proof.
  intros Hn. unfold Usr.show. rewrite printf_run. do 2 f_equal.
  transitivity (Str.cstr name ++ [32] ++ dec (st_type st) ++ [32] ++ dec (st_ino st) ++ [32] ++ dec (st_size st) ++ [nl]); [reflexivity|]. by rewrite Hn.
Qed.

(** [stat]: with a free descriptor it shows the file and leaves no descriptor open. *)
Lemma stat_run path fd w : fd_scan (w_fds w) 0 = Some fd -> Usr.stat path w = Ret (n_stat <$> tree path) w.
Proof.
  intros Hf. unfold Usr.stat, Usr.open, Usr.call, ubind, sys_open, View, v_open. change (O_RDONLY =? O_RDONLY) with true. cbv iota. rewrite Hf.
  destruct (fd_scan_free _ _ _ Hf) as [_ Hn]. rewrite Nat.sub_0_r in Hn. destruct (tree path) as [nd|] eqn:E; [|done].
  destruct (Z.ltb_spec (Z.of_nat fd) 0); [lia|]. unfold sys_fstat, v_file. cbn [w_fds]. destruct (Z.ltb_spec (Z.of_nat fd) 0); [lia|].
  rewrite Nat2Z.id, list_lookup_insert_eq, E by (by eapply lookup_lt_Some). unfold Usr.close, Usr.call, Usr.uret, sys_close. cbn [w_fds w_out fmap option_fmap option_map].
  rewrite Nat2Z.id, list_insert_insert_eq, list_insert_id by done. by destruct w.
Qed.

Lemma open_run path nd fd w : tree path = Some nd -> fd_scan (w_fds w) 0 = Some fd ->
  Usr.open path 0 w = Ret (Z.of_nat fd) (mkWorld (<[fd := Some (path, 0%nat)]> (w_fds w)) (w_out w)).
Proof. intros E Hf. unfold Usr.open, Usr.call, sys_open, View, v_open. change (0 =? O_RDONLY) with true. cbv iota. by rewrite E, Hf. Qed.
Lemma fstat_run a path off nd w : w_fds w !! a = Some (Some (path, off)) -> tree path = Some nd -> Usr.call (sys_fstat (Z.of_nat a)) w = Ret (Some (n_stat nd)) w.
Proof. intros Ha E. unfold Usr.call, sys_fstat, View, v_file. destruct (Z.ltb_spec (Z.of_nat a) 0); [lia|]. by rewrite Nat2Z.id, Ha, E. Qed.
Lemma close_run a w : Usr.close (Z.of_nat a) w = Ret tt (mkWorld (<[a := None]> (w_fds w)) (w_out w)).
Proof. unfold Usr.close, Usr.call, sys_close, View. by rewrite Nat2Z.id. Qed.
Lemma read_run a path off nd n w : w_fds w !! a = Some (Some (path, off)) -> tree path = Some nd ->
  let bytes := take (Z.to_nat n) (drop off (n_data nd)) in
  Usr.read (Z.of_nat a) n w = Ret (Z.of_nat (length bytes), bytes) (mkWorld (<[a := Some (path, (off + length bytes)%nat)]> (w_fds w)) (w_out w)).
Proof.
  intros Ha E bytes. unfold Usr.read, Usr.call, sys_read, View, v_read, v_file. destruct (Z.ltb_spec (Z.of_nat a) 0); [lia|]. by rewrite Nat2Z.id, Ha, E.
Qed.

(** ** ls *)
Definition pad (name : list Z) : list Z := name ++ replicate (DIRSIZ - length name) 32.

(** The line for a directory entry. *)
Definition ls_line (path : list Z) (de : list Z) : list Z :=
  let full := path ++ [47] ++ Str.cstr (de_name de) in
  if de_inum de =? 0 then [] else
  match tree full with
  | None => lit "ls: cannot stat " ++ full ++ [nl]
  | Some nd => show_text (pad (Str.cstr (de_name de))) (n_stat nd)
  end.

Record dirent_ok (de : list Z) : Prop := { do_length : length de = 16%nat; do_slash : 47 ∉ de_name de }.

Lemma last_slash_spec pre name : 47 ∉ name -> Usr.last_slash (pre ++ [47] ++ name) (length (pre ++ [47] ++ name)) = Datatypes.S (length pre).
Proof.
  intros Hn. rewrite !length_app. cbn [length]. replace (length pre + (1 + length name))%nat with (Datatypes.S (length pre) + length name)%nat by lia.
  assert (forall k, (k <= length name)%nat -> Usr.last_slash (pre ++ [47] ++ name) (Datatypes.S (length pre) + k) = Datatypes.S (length pre)) as H; [|by apply H].
  induction k as [|k IH]; intros Hk.
  - rewrite Nat.add_0_r. cbn [Usr.last_slash]. unfold Str.byte_at. rewrite lookup_app_r, Nat.sub_diag by done. done.
  - rewrite Nat.add_succ_r. cbn [Usr.last_slash]. unfold Str.byte_at. rewrite lookup_app_r by lia.
    replace (Datatypes.S (length pre) + k - length pre)%nat with (Datatypes.S k) by lia. cbn [app]. destruct (lookup_lt_is_Some_2 name k ltac:(lia)) as [c Hc].
    change ((47 :: name) !! Datatypes.S k) with (name !! k). rewrite Hc. cbn [default from_option]. change (id c) with c. destruct (Z.eqb_spec c 47) as [->|_]; [|apply IH; lia].
    destruct Hn. by eapply list_elem_of_lookup_2.
Qed.

Lemma cstr_elem l c : c ∈ Str.cstr l -> c ∈ l /\ c <> 0.
Proof.
  induction l as [|x l IH]; cbn [Str.cstr]; [by intros []%elem_of_nil|]. destruct (Z.eqb_spec x 0); [by intros []%elem_of_nil|].
  intros [->|H]%elem_of_cons; [split; [left|done]|]. destruct (IH H). split; [by right|done].
Qed.

(** The name shown for an entry of a directory. *)
Lemma fmtname_entry path name : 0 ∉ path -> 47 ∉ name -> (length name <= DIRSIZ)%nat -> Usr.fmtname (path ++ [47] ++ Str.cstr name) = pad (Str.cstr name).
Proof.
  intros Hp Hn Hl. assert (47 ∉ Str.cstr name) as Hs by (by intros [? _]%cstr_elem).
  assert (0 ∉ path ++ [47] ++ Str.cstr name) as H0.
  { rewrite !elem_of_app, list_elem_of_singleton. intros [?|[?|[_ ?]%cstr_elem]]; done. }
  unfold Usr.fmtname. rewrite (cstr_nonul _ H0), last_slash_spec by done. replace (drop _ _) with (Str.cstr name).
  - pose proof (cstr_length name). destruct (Nat.leb_spec DIRSIZ (length (Str.cstr name))); [|done]. unfold pad. replace (DIRSIZ - length (Str.cstr name))%nat with 0%nat by lia. by rewrite app_nil_r.
  - rewrite drop_app_ge by lia. by replace (Datatypes.S (length path) - length path)%nat with 1%nat by lia.
Qed.

Lemma entry_path path de : 0 ∉ path -> Str.cstr (path ++ [47] ++ de_name de) = path ++ [47] ++ Str.cstr (de_name de).
Proof.
  intros Hp. rewrite !app_assoc. apply cstr_nonzero. apply list.Forall_forall. intros c Hc ->. apply elem_of_app in Hc as [Hc|Hc%list_elem_of_singleton]; done.
Qed.

Lemma ls_loop_lists path nd a b : tree path = Some nd -> 0 ∉ path -> forall es fuel w off, Forall dirent_ok es -> (length es <= fuel)%nat ->
  w_fds w !! a = Some (Some (path, off)) -> fd_scan (w_fds w) 0 = Some b -> drop off (n_data nd) = concat es ->
  exists off', Usr.ls_loop fuel path (Z.of_nat a) w = Ret tt (emit 1 (concat (ls_line path <$> es)) (mkWorld (<[a := Some (path, off')]> (w_fds w)) (w_out w))).
Proof.
  intros Et Hp. induction es as [|de es IH]; intros fuel w off Hes Hf Ha Hb Hd.
  - exists off. assert (Usr.ls_loop fuel path (Z.of_nat a) w = Ret tt w) as ->; [|cbn; rewrite emit_nil, list_insert_id by done; by destruct w].
    destruct fuel; cbn [Usr.ls_loop]; unfold ubind; rewrite (read_run a path off nd _ w Ha Et), Hd; cbn [concat]; rewrite take_nil; cbn [length];
      change (negb (Z.of_nat 0 =? DIRENT)) with true; cbv iota; unfold Usr.uret; rewrite Nat.add_0_r, list_insert_id by done; by destruct w.
  - apply list.Forall_cons in Hes as [[H16 Hsl] Hes]. destruct fuel as [|fuel]; [cbn in Hf; lia|]. cbn [Usr.ls_loop]. unfold ubind at 1.
    rewrite (read_run a path off nd _ w Ha Et), Hd. cbn [concat]. change (Z.to_nat DIRENT) with 16%nat. rewrite <- H16, take_app_length. rewrite H16.
    change (negb (Z.of_nat 16 =? DIRENT)) with false. cbv iota. set (w1 := mkWorld _ (w_out w)).
    assert (w_fds w1 !! a = Some (Some (path, (off + 16)%nat))) as Ha1 by (apply list_lookup_insert_eq; by eapply lookup_lt_Some).
    assert (fd_scan (w_fds w1) 0 = Some b) as Hb1 by (cbn; by rewrite (fd_scan_used _ _ _ _ _ Ha)).
    assert (drop (off + 16) (n_data nd) = concat es) as Hd1 by (rewrite <- drop_drop, Hd; cbn [concat]; rewrite <- H16; apply drop_app_length).
    assert (forall t, exists off', Usr.ls_loop fuel path (Z.of_nat a) (emit 1 t w1) = Ret tt (emit 1 (t ++ concat (ls_line path <$> es)) (mkWorld (<[a := Some (path, off')]> (w_fds w)) (w_out w)))) as Hnext.
    { intros t. destruct (IH fuel (emit 1 t w1) (off + 16)%nat Hes ltac:(cbn in Hf; lia) Ha1 Hb1 Hd1) as [off' E]. exists off'. rewrite E. f_equal.
      unfold emit. cbn [w_fds w_out w1]. by rewrite list_insert_insert_eq, fmap_app, app_assoc. }
    rewrite fmap_cons, concat_cons. unfold ls_line at 1. destruct (de_inum de =? 0).
    { rewrite <- (emit_nil 1 w1). apply Hnext. }
    rewrite entry_path by done. unfold ubind at 1. rewrite (stat_run _ b w1 Hb1). destruct (tree (path ++ [47] ++ Str.cstr (de_name de))) as [nd'|]; cbn [fmap option_fmap option_map]; cbv beta iota; unfold ubind.
    + rewrite fmtname_entry by (done || unfold de_name, slice; rewrite length_take; lia). rewrite show_run; [apply Hnext|]. apply cstr_nonul. unfold pad. rewrite elem_of_app. intros [[_ ?]%cstr_elem|[? _]%elem_of_replicate]; done.
    + rewrite printf_run. assert (plain (lit "ls: cannot stat ") /\ plain [nl]) as [P1 P2] by (unfold plain; apply (bool_decide_unpack _); by vm_compute).
      pose proof (printf_string (lit "ls: cannot stat ") [nl] (path ++ [47] ++ de_name de) P1 P2) as Hps.
      rewrite entry_path in Hps by done. change (lit "ls: cannot stat %s" ++ [nl]) with (lit "ls: cannot stat " ++ [37; 115] ++ [nl]). unfold Usr.str. rewrite Hps. apply Hnext.
Qed.

(** C28: [ls] of a directory prints a line for each entry in use, in the order of
    the directory: the name, padded to the length of the longest possible one,
    the type, the inode number and the size the entry's file has; an entry
    whose file cannot be opened gets a message.  It leaves no descriptor open. *)
Theorem ls_lists path nd es fuel w a b : tree path = Some nd -> st_type (n_stat nd) = T_DIR -> n_data nd = concat es -> Forall dirent_ok es -> (length es <= fuel)%nat ->
  0 ∉ path -> (length path <= 496)%nat -> fd_scan (w_fds w) 0 = Some a -> fd_scan (<[a := Some (path, 0%nat)]> (w_fds w)) 0 = Some b ->
  Usr.ls fuel path w = Ret tt (emit 1 (concat (ls_line path <$> es)) w).
Proof.
  intros Et Hty Hd Hes Hf Hp Hl Ha Hb. destruct (fd_scan_free _ _ _ Ha) as [_ Hn]. rewrite Nat.sub_0_r in Hn.
  unfold Usr.ls, ubind at 1. rewrite (open_run path nd a w Et Ha). destruct (Z.ltb_spec (Z.of_nat a) 0); [lia|]. set (w1 := mkWorld _ (w_out w)).
  assert (w_fds w1 !! a = Some (Some (path, 0%nat))) as Ha1 by (apply list_lookup_insert_eq; by eapply lookup_lt_Some).
  unfold ubind at 1. rewrite (fstat_run a path 0 nd w1 Ha1 Et), Hty. change (T_DIR =? T_FILE) with false. change (T_DIR =? T_DIR) with true. cbv iota.
  destruct (Z.ltb_spec 512 (Z.of_nat (length path) + 1 + Z.of_nat DIRSIZ + 1)); [change (Z.of_nat DIRSIZ) with 14 in *; lia|].
  destruct (ls_loop_lists path nd a b Et Hp es fuel w1 0 Hes Hf Ha1 Hb Hd) as [off' E]. unfold ubind. rewrite E, close_run. unfold emit. cbn [w_fds w_out w1].
  by rewrite !list_insert_insert_eq, list_insert_id.
Qed.

(** ** cat and echo *)
Lemma cat_run path nd a : tree path = Some nd -> forall fuel w off, w_fds w !! a = Some (Some (path, off)) -> (length (drop off (n_data nd)) <= fuel)%nat ->
  exists off', Usr.cat fuel (Z.of_nat a) w = Ret tt (emit 1 (drop off (n_data nd)) (mkWorld (<[a := Some (path, off')]> (w_fds w)) (w_out w))).
Proof.
  intros Et. induction fuel as [|fuel IH]; intros w off Ha Hf; cbn [Usr.cat]; unfold ubind at 1; rewrite (read_run a path off nd _ w Ha Et);
    change (Z.to_nat 512) with 512%nat; set (rest := drop off (n_data nd)) in *.
  - exists off. destruct rest; [|cbn in Hf; lia]. cbn. rewrite Nat.add_0_r, emit_nil. reflexivity.
  - destruct (decide (rest = [])) as [->|Hne]; [exists off; cbn; rewrite Nat.add_0_r, emit_nil; reflexivity|].
    assert (0 < length (take 512 rest))%nat as Hpos by (destruct rest; [done|]; rewrite length_take; cbn; lia).
    destruct (Z.ltb_spec 0 (Z.of_nat (length (take 512 rest)))); [|lia]. set (w1 := mkWorld _ (w_out w)). unfold ubind, Usr.write, Usr.call, sys_write, View. fold (emit 1 (take 512 rest) w1).
    assert (drop (off + length (take 512 rest)) (n_data nd) = drop 512 rest) as Hd.
    { rewrite <- drop_drop. fold rest. rewrite length_take. destruct (decide (512 <= length rest)%nat); [by rewrite Nat.min_l|].
      rewrite Nat.min_r by lia. by rewrite !drop_ge by lia. }
    destruct (IH (emit 1 (take 512 rest) w1) (off + length (take 512 rest))%nat) as [off' E].
    + apply list_lookup_insert_eq. by eapply lookup_lt_Some.
    + rewrite Hd, length_drop. rewrite length_take in Hpos. lia.
    + exists off'. fold View. rewrite E, Hd. f_equal. unfold emit. cbn [w_fds w_out w1]. rewrite list_insert_insert_eq. f_equal. by rewrite <- app_assoc, <- fmap_app, take_drop.
Qed.

(** What [cat] prints for a name. *)
Definition contents (path : list Z) : list Z := match tree path with Some nd => n_data nd | None => [] end.

Lemma cat_file path nd a fuel w : tree path = Some nd -> fd_scan (w_fds w) 0 = Some a -> (length (n_data nd) <= fuel)%nat ->
  Usr.with_file (lit "cat") (fun _ fd => Usr.cat fuel fd) path w = Ret tt (emit 1 (contents path) w).
Proof.
  intros Et Ha Hf. destruct (fd_scan_free _ _ _ Ha) as [_ Hn]. rewrite Nat.sub_0_r in Hn. unfold Usr.with_file, ubind at 1. rewrite (open_run path nd a w Et Ha).
  destruct (Z.ltb_spec (Z.of_nat a) 0); [lia|]. set (w1 := mkWorld _ (w_out w)).
  destruct (cat_run path nd a Et fuel w1 0) as [off' E]; [apply list_lookup_insert_eq; by eapply lookup_lt_Some|done|].
  unfold ubind. rewrite E, close_run. unfold emit, contents. rewrite Et. cbn [w_fds w_out w1 drop]. by rewrite !list_insert_insert_eq, list_insert_id.
Qed.

Lemma cat_files a fuel more : forall args w, fd_scan (w_fds w) 0 = Some a -> Forall (fun p => exists nd, tree p = Some nd /\ (length (n_data nd) <= fuel)%nat) args ->
  let body := Usr.with_file (lit "cat") (fun _ fd => Usr.cat fuel fd) in
  Usr.each body (args ++ more) w = Usr.each body more (emit 1 (concat (contents <$> args)) w).
Proof.
  induction args as [|p args IH]; intros w Ha Hall body; [cbn [app fmap list_fmap concat]; by rewrite emit_nil|].
  apply list.Forall_cons in Hall as [(nd & Et & Hl) Hall]. cbn [app Usr.each]. unfold ubind. unfold body at 1. rewrite (cat_file p nd a fuel w Et Ha Hl).
  unfold body. rewrite IH by done. by rewrite emit_app, fmap_cons, concat_cons.
Qed.

(** [cat] of files that exist writes their contents one after the other and
    exits; at the first name that cannot be opened it stops with a message. *)
Theorem cat_concatenates args fuel w a bad rest : fd_scan (w_fds w) 0 = Some a -> args <> [] -> Forall (fun p => exists nd, tree p = Some nd /\ (length (n_data nd) <= fuel)%nat) args ->
  tree bad = None -> 0 ∉ bad ->
  Usr.cat_main fuel args w = Exited (emit 1 (concat (contents <$> args)) w) /\
  Usr.cat_main fuel (args ++ bad :: rest) w = Exited (emit 1 (concat (contents <$> args) ++ lit "cat: cannot open " ++ bad ++ [nl]) w).
Proof.
  intros Ha Hne Hall Hbad H0. assert (forall l, l <> [] -> Usr.cat_main fuel l w = ubind (Usr.each (Usr.with_file (lit "cat") (fun _ fd => Usr.cat fuel fd)) l) (fun _ => Usr.exit) w) as Hm by (by intros [|p l]).
  rewrite !Hm by (done || by destruct args). unfold ubind. split.
  - rewrite <- (app_nil_r args) at 1. by rewrite (cat_files a fuel [] args w).
  - rewrite (cat_files a) by done. cbn [Usr.each]. unfold ubind, Usr.with_file, Usr.open, Usr.call, sys_open, View, v_open, ubind. change (0 =? O_RDONLY) with true. cbv iota. rewrite Hbad.
    cbn [Z.ltb Z.compare]. fold View. rewrite printf_run. cbn [Usr.exit]. f_equal. rewrite emit_app. do 2 f_equal.
    assert (plain (lit "cat: cannot open ") /\ plain [nl]) as [P1 P2] by (unfold plain; apply (bool_decide_unpack _); by vm_compute).
    pose proof (printf_string (lit "cat: cannot open ") [nl] bad P1 P2) as Hps. rewrite (cstr_nonul _ H0) in Hps. exact Hps.
Qed.

(** What [echo] prints. *)
Fixpoint spaced (args : list (list Z)) : list Z :=
  match args with
  | [] => []
  | [a] => a ++ [nl]
  | a :: args' => a ++ [32] ++ spaced args'
  end.

Lemma echo_prints args w : Forall (fun a => 0 ∉ a) args -> Usr.echo args w = Exited (emit 1 (spaced args) w).
Proof.
  intros H. revert w. induction H as [|a args Ha _ IH]; intros w; cbn [Usr.echo spaced]; [by rewrite emit_nil|]. unfold ubind. rewrite printf_run, IH, emit_app. do 2 f_equal.
  assert (forall t, default [] (U.printf (lit "%s%s") [Usr.str a; Usr.str t]) = Str.cstr a ++ Str.cstr t ++ []) as E by reflexivity.
  rewrite E, (cstr_nonul a Ha). destruct args as [|b args]; rewrite <- !app_assoc; reflexivity.
Qed.
End View.

(** ** Example: a directory with three entries, one of them free and one of a
    file that cannot be opened. *)
Definition ex_entries : list (list Z) := [mk_dirent 7 (lit "README"); mk_dirent 0 (lit "gone"); mk_dirent 9 (lit "lost")].
Definition ex_tree (path : list Z) : option node :=
  if bool_decide (path = lit "/d") then Some (mkNode (mkStat T_DIR 5 48) (concat ex_entries))
  else if bool_decide (path = lit "/d/README") then Some (mkNode (mkStat T_FILE 7 3) (lit "xv6")) else None.
Definition ex_world : world := mkWorld ([Some (lit "console", 0%nat); Some (lit "console", 0%nat); Some (lit "console", 0%nat)] ++ replicate 13 None) [].

Lemma ls_lists_witness : @Usr.ls world (View ex_tree) 3 (lit "/d") ex_world =
  Ret tt (emit 1 (lit "README         2 7 3" ++ [nl] ++ lit "ls: cannot stat /d/lost" ++ [nl]) ex_world).
Proof.
  rewrite (ls_lists ex_tree (lit "/d") (mkNode (mkStat T_DIR 5 48) (concat ex_entries)) ex_entries 3 ex_world 3 4); [vm_compute; reflexivity|vm_compute; reflexivity..| | | | | |].
  - repeat (apply Forall_cons_2; [split; [reflexivity|apply (bool_decide_unpack _); vm_compute; exact I]|]). apply Forall_nil_2.
  - cbn. lia.
  - apply (bool_decide_unpack _). vm_compute. exact I.
  - cbn. lia.
  - reflexivity.
  - reflexivity.
Defined.

Lemma cat_concatenates_witness : @Usr.cat_main world (View ex_tree) 3 [lit "/d/README"; lit "/d/lost"; lit "/d"] ex_world =
  Exited (emit 1 (lit "xv6cat: cannot open /d/lost" ++ [nl]) ex_world).
Proof.
  refine (proj2 (cat_concatenates ex_tree [lit "/d/README"] 3 ex_world 3 (lit "/d/lost") [lit "/d"] _ _ _ _ _)).
  - reflexivity.
  - discriminate.
  - apply Forall_cons_2; [|apply Forall_nil_2]. eexists. split; [vm_compute; reflexivity|]. cbn. lia.
  - vm_compute. reflexivity.
  - apply (bool_decide_unpack _). vm_compute. exact I.
Defined.
